(* ===== verification/_CoqProject ===== *)
-Q . S2P
Prelude.v
CLib.v
Ini.v
Config.v
Logger.v
Dmx.v
LightPacket.v
MonitorJson.v
Serveri.v
ServeriInv.v
ServeriProps.v
Programs.v
Utf8.v
Base64.v
Sha1.v
Buflist.v
Dll2.v
Sul.v
Ring.v
Tokenize.v
WsState.v
WsRx.v
WsRxProof.v
WsRxProps.v
WsRxErrors.v
System.v
WsTx.v
WsTxProof.v
WsFrame.v
Upgrade.v
UpgradeProof.v
WsControl.v
HttpLex.v
HttpParse.v
HttpParseSafe.v
HttpParseProof.v
HttpServer.v
HttpServerProof.v
HttpHeader.v
AhPool.v
AhPoolProof.v
Service.v
HttpAction.v
ServiceProof.v
HttpActionProof.v
ServiceControl.v
FdTable.v
FdTableProof.v
PollSet.v
Close.v
CloseProof.v
CloseService.v
HttpUri.v
HttpFindings.v
