(* ===== verification/Prelude.v ===== *)
(** * valoserveri: the verification development (root file)

    valoserveri is the light server of a demo party.  It receives light packets
    over UDP and over WebSockets, keeps the colour of every configured light,
    writes a DMX frame to a serial port whenever something changed, and sends
    the current state as JSON to the WebSocket monitors.  Its own code is C++
    under src/valoserveri; the WebSocket side runs on the vendored
    libwebsockets (C, src/foreign/libwebsockets), the configuration on inih and
    the JSON on nlohmann_json.  This library models that code as executable
    Rocq definitions and proves what makes it correct.

    ** The parts and where they are modelled

    - [Prelude] (this file): bytes and machine integers, results with errors,
      tactics and shared lemmas.  [CLib]: the C and C++ library functions the
      sources use (atoi, stoi, to_string, C strings).
    - [Ini]: src/foreign/inih/INIReader.h, the line parser [ini_parse_stream]
      with its comment, continuation and BOM rules and fixed buffers, and the
      class [INIReader].
    - [Config]: src/valoserveri/Config.cpp, the four getters over an interface
      class that [Ini] instantiates.  [Logger]: Logger.cpp, levels and the global
      logger.
    - [Dmx]: DMXController.cpp, the lights, the configuration of them, the DMX
      frame and [setLightColor].  [LightPacket]: LightPacket.cpp, the packet
      parser with the preconditions of the span it reads from.
    - [MonitorJson]: the part of nlohmann_json's serializer the monitor message
      goes through.
    - [Serveri]: serveri.cpp, the state of the server as a record, its handlers
      (packets, monitors, poll set) and one round of the poll loop;
      [ServeriInv], [ServeriProps]: its invariant, the abstract light state
      machine and the theorems.  [Programs]: the two main functions.
    - [Utf8], [Tokenize] (lib/core/libwebsockets.c), [Base64]
      (lib/misc/base64-decode.c), [Sha1] (lib/misc/sha-1.c), [Buflist]
      (lib/core/buflist.c), [Dll2] (lib/core/lws_dll2.c), [Sul]
      (lib/core-net/sorted-usec-list.c), [Ring] (lib/misc/lws-ring.c): the data
      structures and codecs of libwebsockets, each against its own reference.
    - [WsState]: the members of a WebSocket connection (lib/roles/ws/private.h)
      as one record with the observable effects as a trace.  [WsRx]: the receive
      state machine [lws_ws_rx_sm], the bulk path and [lws_parse_ws]
      (ops-ws.c, server-ws.c); [WsRxProof], [WsRxProps], [WsRxErrors] its
      theorems.  [WsTx]: writing frames, partial sends, POLLOUT, ping and close
      (ops-ws.c, core-net/output.c); [WsTxProof] its theorems.  [Upgrade]: the
      HTTP upgrade to WebSocket with the header table it starts from
      (server-ws.c, http/server/parsers.c); [UpgradeProof] its theorems.
      [WsFrame]: what receiving leaves alone and does not look at.
      [WsControl]: control frames end to end, the ping and its pong, the
      closing handshake.
    - [HttpLex]: the compiled table of header names (lib/roles/http/lextable.h)
      against the list of names.  [HttpParse]: the header table, [lws_parse]
      with its URI decoding, and the accessors (http/server/parsers.c);
      [HttpParseSafe] its invariant and memory safety, [HttpParseProof] that a
      request's text is read back, [HttpUri] that the stored path does not
      climb, [HttpFindings] evaluated requests it gets wrong.  [HttpServer]:
      [lws_handshake_server] (http/server/server.c), with the header table of
      [HttpParse] read by the functions of [Upgrade]; [HttpServerProof] from the
      bytes of a request to a WebSocket connection.  [HttpHeader]: the response
      headers (roles/http/header.c).  [HttpAction]: what the server does with a
      plain HTTP request, from the mount to the end of the transaction
      (http/server/server.c); [HttpActionProof] its theorem.
    - [Service]: what happens when poll reports a connection
      (lib/core-net/service.c, roles/h1/ops-h1.c, roles/ws/ops-ws.c, pollfd.c,
      wsi.c): the dispatch, the POLLIN and POLLOUT handlers, [lws_read_h1], the
      queue of input that was read and not consumed, flow control and forced
      service.  The socket is the list of what will arrive on it.  The service
      buffer of the thread, into which input is read and in which responses are
      built, is part of the state.
      [ServiceProof] composes all of the above: a connection served from its
      first byte to its last.  [ServiceControl]: a ping in the poll loop, with
      the writable callback of the server.
    - [AhPool]: the pool of header tables with the line of connections that
      wait for one (http/server/parsers.c), on linked structures; [AhPoolProof]
      its theorems.  [Close]: the end of a connection (core-net/close.c), with
      everything the user and the poll set are told; [CloseProof] its theorems.
    - [FdTable]: the table of descriptors of a thread (core-net/pollfd.c,
      plat/unix/unix-fds.c) with what protocol 0 is told about it;
      [FdTableProof] its theorems.  [PollSet]: those callbacks delivered to the
      server, whose poll set they maintain.  [CloseService]: service, closing and
      server composed, for a connection that ends.
    - [System]: the WebSocket receive path composed with the server's callback.

    ** How code becomes definitions

    Bytes are [Z] in [0, 256), integers are [Z] with the wrap-around of their
    width written out ([u8], [u32], [s32], ...), signed overflow and failed
    asserts, violated preconditions and exceptions are error values.  A struct
    is a record, an enum an inductive type, a state-changing function takes the
    state and returns it.  Everything is executable; the witnesses evaluate the
    definitions on concrete inputs.  Pointers into one buffer are suffixes of
    it; only [Dll2] and [Sul], where aliasing is the point, work on a heap.

    What the outside does is an argument of the definitions: file contents,
    datagrams, poll results, what the socket takes of a write, the allocator's
    answers, the clock, random bytes, and the user callback of libwebsockets
    (a function of everything that happened before).  The hypotheses on them
    are satisfied by the witnesses.

    ** What the theorems show

    - The server: from construction on, through any rounds, the frame last
      written to the port and the monitor message show the current light state,
      and what can stop it is known exactly: a failing poll, a failing recvfrom,
      and a call back of the light protocol to write, which the library does
      make (the theorems on a ping and on an illegal frame); packet handling
      refines an abstract light state machine; a round flushes exactly once when
      dirty; the poll set operations and the scan are exact.
    - Packets, lights, configuration: the packet parser equals a reference
      reading and inverts an encoder; setting a light touches exactly its
      bytes; the ini parser inverts printing and reports the first bad line;
      getters on every branch.
    - WebSockets: an upgrade request is answered as RFC 6455 asks and leaves a
      connection ready for frames, or refused with nothing sent; any
      well-formed data frames, cut into reads in any way, are delivered
      unchanged; a ping is answered with its pong and a close frame with its
      reply, also between the fragments of a message; illegal first bytes close with code 1002; written messages
      arrive as they were; the send path keeps the byte stream under partial
      sends; a light packet in a WebSocket message reaches the light state.
    - HTTP: whatever bytes arrive, the header parser stays inside its arrays,
      ends and keeps its invariant; the text of a request is read back by the
      accessors; of a URI that ends at a space the stored path has no dot-dot
      segment behind a slash, and none at all if it starts with one; the compiled name
      table recognises exactly the listed names; and a request's bytes on the
      socket become an upgraded connection.
    - Service: however the bytes of an upgrade request and of the frames sent
      after it are cut into arrivals, serving them ends with the response sent, every
      byte consumed and exactly the payloads delivered.
    - Sharing and ending: the pool of header tables refines a bounded pool with
      a first-come first-served line, the table of a leaving connection goes to
      the first in line with nothing left in it, and everyone in line gets one
      in turn, up to an operation that serves queued input on the spot where that
      service uses the pool again (there the code can fail an assert); closing a connection flushes or says goodbye first when it can,
      and along any life of a connection everything is done and told at most
      once, the freeing last.  The slots of the descriptor table, the places the
      connections remember and the lookup array agree, until a connection is
      closed whose removal protocol 0 refuses; listening stops
      when the table is nearly full, and the poll set of the server is at all
      times its UDP socket and what the library waits for.  A client that hangs
      up is closed in one round of service, in any state of its connection, and
      forgotten by the library and by the server; so is one whose stream ends,
      unless output is queued or a close frame prepared, which puts it off.
    - The structures: SHA-1 is FIPS 180-1 for any splitting of the input;
      Base64 round trips for both alphabets; the UTF-8 automaton accepts exactly
      the encodings of scalar values; buffer lists refine a byte queue, linked
      lists refine lists, rings refine a bounded FIFO with several readers; the
      timer service ends with nothing due whatever its callbacks schedule or
      cancel, and runs exactly what was due, in order, if they leave that alone.
    - Where the code does not do what it means to, a theorem states what it
      does: a failing recvfrom ends the server, light indices above 127 are
      unreachable, the tag filter drops the letter I, a message in two reads is
      two packets, the Connection header is matched by prefix, RSV1 passes,
      frames that come with the request are partly overwritten by the response
      and wait for more input in a loop without forced service, a plain HTTP
      request is never answered and makes the loop spin, a single ping and a
      single illegal byte each lead to a callback the program asserts it never
      gets, a header table that is
      given up while it is handed on trips an assertion, the wait for the
      peer after the shutdown of the sending side never happens, and a
      connection whose removal from the poll set is refused is freed in it.

    ** Fuel

    Loops whose recursion is not structural carry fuel, always enough: the
    number of input bytes for loops that consume input ([Ini], [Base64],
    [Sha1], and twice the input plus one for [lws_parse_ws], whose rounds
    consume a byte or end a frame; the handshake consumes a byte per round),
    the number of allocated nodes for list walks, the number of elements for
    rings and timer passes, the size of the name table for walks through it and
    of the fragment table for chains of fragments, which only go forward.  The theorems
    prove results, not only properties of results, so running out is excluded
    there.  Only the walk of [lws_http_action] through queued input takes its
    fuel as an argument, because it need not end in the code.

    ** What is not modelled

    Serving of mounts and files, HTTP/2, TLS, adoption of sockets,
    vhosts and context creation, clients and the platform layer of
    libwebsockets; of closing, the children of a connection, clients and raw
    or CGI connections; the formatting,
    date and span libraries apart from the preconditions of span; termios.
    Extensions and SMP are not part of the build; assertions are, with those
    of [_DEBUG], which lws_config.h defines because NDEBUG is not.

    What could be added next: the string helpers of lib/core/libwebsockets.c,
    serving of mounts, several service threads. *)

From Stdlib Require Export ZArith Lia.
From stdpp Require Export base gmap strings numbers list.

#[global] Open Scope Z_scope.
#[global] Set Default Goal Selector "!".

(** ** Bytes, strings and machine integers

    A C or C++ [char]/[uint8_t] is a [Z] between 0 and 255, a buffer or a
    string is a [list Z].  Where the sign of [char] matters the source value
    is [schar] of the byte. *)

Abbreviation bytes := (list Z).

(** The byte string of an ASCII literal. *)
Definition str (s : String.string) : bytes :=
  (fun a => Z.of_N (Ascii.N_of_ascii a)) <$> String.list_ascii_of_string s.

Definition is_byte (z : Z) : Prop := 0 <= z < 256.

Definition all_bytes (l : bytes) : Prop := Forall is_byte l.

#[global] Instance is_byte_dec z : Decision (is_byte z).
Proof. unfold is_byte. apply _. Defined.

#[global] Instance all_bytes_dec l : Decision (all_bytes l).
Proof. unfold all_bytes. apply _. Defined.

(** Wrap-around of the unsigned widths, sign reinterpretation of the signed
    ones (x86-64: two's complement, [char] is signed). *)
Definition u8 (z : Z) : Z := z mod 2 ^ 8.
Definition u16 (z : Z) : Z := z mod 2 ^ 16.
Definition u32 (z : Z) : Z := z mod 2 ^ 32.
Definition u64 (z : Z) : Z := z mod 2 ^ 64.

Definition schar (z : Z) : Z := if z <? 128 then z else z - 256.
Definition s32 (z : Z) : Z :=
  let w := u32 z in if w <? 2 ^ 31 then w else w - 2 ^ 32.

Definition INT_MAX : Z := 2 ^ 31 - 1.
Definition INT_MIN : Z := - 2 ^ 31.

(** C truth values. *)
Definition b2z (b : bool) : Z := if b then 1 else 0.
Definition nz (z : Z) : bool := negb (z =? 0).

(** Length of a buffer as the source counts it. *)
Definition len (l : bytes) : Z := Z.of_nat (length l).

(** ** Results

    A fallible operation returns [Ok] or [Err] with the error. *)
Inductive res (E A : Type) : Type :=
| Ok (a : A)
| Err (e : E).
Arguments Ok {E A} _.
Arguments Err {E A} _.

#[global] Instance res_ret {E} : MRet (res E) := fun A a => Ok a.
#[global] Instance res_bind {E} : MBind (res E) := fun A B f m =>
  match m with Ok a => f a | Err e => Err e end.
#[global] Instance res_fmap {E} : FMap (res E) := fun A B f m =>
  match m with Ok a => Ok (f a) | Err e => Err e end.

#[global] Instance res_eq_dec {E A} `{EqDecision E, EqDecision A} : EqDecision (res E A).
Proof. solve_decision. Defined.

(** What a C++ function of the program can end with other than a return:
    the exceptions it throws, a failed [assert], and the termination a
    violated [span] precondition causes. *)
Inductive exn :=
| runtime_error (what : bytes)
| invalid_argument
| out_of_range
| system_error
| assertion_failed
| contract_violation.

#[global] Instance exn_eq_dec : EqDecision exn.
Proof. solve_decision. Defined.

Definition is_Ok {E A} (r : res E A) : Prop := exists a, r = Ok a.

Lemma res_bind_Ok {E A B} (m : res E A) (f : A -> res E B) b :
  m ≫= f = Ok b -> exists a, m = Ok a /\ f a = Ok b.
Proof. destruct m; simpl; intros; [eauto | discriminate]. Qed.

(** ** Tactics *)

(** Destructs the scrutinee of a [match] or [if] of the goal (or of a
    hypothesis), keeping the equation. *)
Ltac case_hyp :=
  match goal with
  | H : context [match ?e with _ => _ end] |- _ => destruct e eqn:?
  end.

Ltac case_goal :=
  match goal with
  | |- context [match ?e with _ => _ end] => destruct e eqn:?
  end.

(** Turns boolean comparisons on [Z] into propositions. *)
Ltac zbool :=
  repeat match goal with
  | H : (_ =? _) = true |- _ => apply Z.eqb_eq in H
  | H : (_ =? _) = false |- _ => apply Z.eqb_neq in H
  | H : (_ <? _) = true |- _ => apply Z.ltb_lt in H
  | H : (_ <? _) = false |- _ => apply Z.ltb_ge in H
  | H : (_ <=? _) = true |- _ => apply Z.leb_le in H
  | H : (_ <=? _) = false |- _ => apply Z.leb_gt in H
  | H : (_ && _) = true |- _ => apply andb_true_iff in H as [? ?]
  | H : (_ || _) = false |- _ => apply orb_false_iff in H as [? ?]
  | H : negb _ = true |- _ => apply negb_true_iff in H
  | H : negb _ = false |- _ => apply negb_false_iff in H
  end.

(** Linear arithmetic that also knows [/] and [mod] by constants. *)
Ltac dlia := Z.div_mod_to_equations; lia.

(** ** Machine-integer lemmas *)

Create HintDb mach.
Create Rewrite HintDb mach.
Create Rewrite HintDb lists.

Lemma u8_range z : is_byte (u8 z).
Proof. unfold u8, is_byte. apply Z.mod_pos_bound. lia. Qed.

Lemma u8_small z : is_byte z -> u8 z = z.
Proof. intros. unfold u8, is_byte in *. apply Z.mod_small. lia. Qed.

Lemma u32_small z : 0 <= z < 2 ^ 32 -> u32 z = z.
Proof. intros. unfold u32. apply Z.mod_small. lia. Qed.

Lemma u32_range z : 0 <= u32 z < 2 ^ 32.
Proof. unfold u32. apply Z.mod_pos_bound. lia. Qed.

Lemma u64_small z : 0 <= z < 2 ^ 64 -> u64 z = z.
Proof. intros. unfold u64. apply Z.mod_small. lia. Qed.

Lemma s32_small z : 0 <= z < 2 ^ 31 -> s32 z = z.
Proof.
  intros. unfold s32. rewrite u32_small by lia.
  destruct (Z.ltb_spec z (2 ^ 31)); lia.
Qed.

(** Joining bits that do not overlap. *)
Lemma lor_add a b n : 0 <= n -> 0 <= b < 2 ^ n -> Z.lor (a * 2 ^ n) b = a * 2 ^ n + b.
Proof.
  intros Hn Hb. assert (Z.land (a * 2 ^ n) b = 0) as Hz.
  { apply Z.bits_inj'. intros i Hi. rewrite Z.land_spec, Z.bits_0.
    destruct (Z.lt_ge_cases i n).
    - by rewrite Z.mul_pow2_bits_low.
    - rewrite <- (Z.mod_small b (2 ^ n)) by lia. rewrite Z.mod_pow2_bits_high by lia.
      apply andb_false_r. }
  by rewrite Z.add_nocarry_lxor, Z.lxor_lor.
Qed.

Lemma nz_true z : nz z = true <-> z <> 0.
Proof. unfold nz. destruct (Z.eqb_spec z 0); simpl; split; congruence. Qed.

Lemma nz_false z : nz z = false <-> z = 0.
Proof. unfold nz. destruct (Z.eqb_spec z 0); simpl; split; congruence. Qed.

#[export] Hint Resolve u8_range u32_range : mach.
#[export] Hint Rewrite u8_small u32_small u64_small s32_small using lia : mach.

(** ** List lemmas *)

Lemma len_nonneg (l : bytes) : 0 <= len l.
Proof. unfold len. lia. Qed.

Lemma len_app (a b : bytes) : len (a ++ b) = len a + len b.
Proof. unfold len. rewrite length_app. lia. Qed.

Lemma len_cons x (a : bytes) : len (x :: a) = 1 + len a.
Proof. unfold len. simpl. lia. Qed.

Lemma len_nil : len [] = 0.
Proof. reflexivity. Qed.

#[export] Hint Resolve len_nonneg : mach.
#[export] Hint Rewrite len_app len_cons len_nil : lists.

Lemma filter_all {A} (P : A -> Prop) `{!forall x, Decision (P x)} (l : list A) :
  Forall P l -> filter P l = l.
Proof. induction 1 as [|x l Hx _ IH]; [done|]. by rewrite filter_cons_True, IH. Qed.

Lemma filter_none {A} (P : A -> Prop) `{!forall x, Decision (P x)} (l : list A) :
  (forall x, x ∈ l -> ~ P x) -> filter P l = [].
Proof.
  induction l as [|x l IH]; [done|]. intros Hl.
  rewrite filter_cons_False by (apply Hl; left). apply IH. intros y Hy. apply Hl. by right.
Qed.

Lemma str_bytes s : all_bytes (str s).
Proof.
  unfold str, all_bytes. apply Forall_fmap. apply Forall_true. intros a.
  unfold compose, is_byte.
  pose proof (Ascii.N_ascii_bounded a). lia.
Qed.

(** Equality of byte strings as the boolean the sources test. *)
Fixpoint beqb (a b : bytes) : bool :=
  match a, b with
  | [], [] => true
  | x :: a', y :: b' => (x =? y) && beqb a' b'
  | _, _ => false
  end.

Lemma beqb_true a b : beqb a b = true <-> a = b.
Proof.
  revert b. induction a as [|x a IH]; intros [|y b]; simpl; try done.
  rewrite andb_true_iff, IH, Z.eqb_eq. split; [by intros [-> ->]|by intros [= -> ->]].
Qed.

Lemma beqb_false a b : beqb a b = false <-> a <> b.
Proof. rewrite <- not_true_iff_false, beqb_true. done. Qed.

Lemma beqb_cons x y a b : beqb (x :: a) (y :: b) = (x =? y) && beqb a b.
Proof. reflexivity. Qed.

Arguments beqb : simpl never.
Arguments u8 : simpl never.
Arguments u16 : simpl never.
Arguments u32 : simpl never.
Arguments u64 : simpl never.
Arguments s32 : simpl never.
Arguments len : simpl never.
