(* ===== verification/CLib.v ===== *)
(** * The C and C++ library functions the program calls

    Character classes of the "C" locale, [strtol]/[std::stoi]/[atoi],
    [std::to_string] and the two-digit hexadecimal format, with the round
    trip between printing and parsing a decimal number. *)

From S2P Require Import Prelude.

(** [isspace]: space, \t \n \v \f \r. *)
Definition isspace (c : Z) : bool := ((9 <=? c) && (c <=? 13)) || (c =? 32).

Definition isdigit (c : Z) : bool := (48 <=? c) && (c <=? 57).

(** [::tolower] *)
Definition tolower (c : Z) : Z := if (65 <=? c) && (c <=? 90) then c + 32 else c.

(** The C string a buffer holds: what precedes the first NUL. *)
Fixpoint c_str (l : bytes) : bytes :=
  match l with
  | [] => []
  | c :: l' => if c =? 0 then [] else c :: c_str l'
  end.

Fixpoint skip_space (l : bytes) : bytes :=
  match l with
  | c :: l' => if isspace c then skip_space l' else l
  | [] => []
  end.

(** Reads the digits, returns the value so far and how many were read. *)
Fixpoint read_digits (acc : Z) (l : bytes) : Z * nat :=
  match l with
  | c :: l' =>
    if isdigit c
    then let '(v, n) := read_digits (10 * acc + (c - 48)) l' in (v, S n)
    else (acc, O)
  | [] => (acc, O)
  end.

(** [strtol(s, &end, 10)] before its clamping to [long]: [None] when no
    conversion is performed. *)
Definition strtol10 (s : bytes) : option Z :=
  let l := skip_space (c_str s) in
  let '(neg, l) :=
    match l with
    | c :: l' => if c =? 45 then (true, l') else if c =? 43 then (false, l') else (false, l)
    | [] => (false, l)
    end in
  let '(v, n) := read_digits 0 l in
  match n with
  | O => None
  | _ => Some (if neg : bool then - v else v)
  end.

(** [std::stoi(s)] *)
Definition stoi (s : bytes) : res exn Z :=
  match strtol10 s with
  | None => Err invalid_argument
  | Some v => if (INT_MIN <=? v) && (v <=? INT_MAX) then Ok v else Err out_of_range
  end.

(** [atoi(s)]: [strtol] saturates at the bounds of [long], the result is
    converted to [int]. *)
Definition atoi (s : bytes) : Z :=
  match strtol10 s with
  | None => 0
  | Some v => s32 (Z.max (- 2 ^ 63) (Z.min (2 ^ 63 - 1) v))
  end.

(** [atoll(s)] *)
Definition atoll (s : bytes) : Z :=
  match strtol10 s with
  | None => 0
  | Some v => Z.max (- 2 ^ 63) (Z.min (2 ^ 63 - 1) v)
  end.

(** Decimal digits of [n], most significant first, in front of [acc]. *)
Fixpoint dec_digits (fuel : nat) (n : Z) (acc : bytes) : bytes :=
  match fuel with
  | O => acc
  | S f =>
    let acc := (48 + n mod 10) :: acc in
    if n <? 10 then acc else dec_digits f (n / 10) acc
  end.

(** [std::to_string(n)] of a non-negative number; it has at most one decimal
    digit per binary digit, which bounds the loop. *)
Definition to_string (n : Z) : bytes := dec_digits (S (Z.to_nat (Z.log2 n))) n [].

Definition hex_digit (n : Z) : Z := if n <? 10 then 48 + n else 87 + n.

(** The format [{:02x}] of a byte. *)
Definition hex02 (n : Z) : bytes := [hex_digit (n / 16); hex_digit (n mod 16)].

(** ** Lemmas *)

Lemma c_str_no_nul l : Forall (fun c => c <> 0) l -> c_str l = l.
Proof.
  induction 1 as [|c l Hc _ IH]; simpl; [done|].
  destruct (Z.eqb_spec c 0); [done|]. by rewrite IH.
Qed.

Lemma c_str_app_nul a b : Forall (fun c => c <> 0) a -> c_str (a ++ 0 :: b) = a.
Proof.
  induction 1 as [|c l Hc _ IH]; simpl; [done|].
  destruct (Z.eqb_spec c 0); [done|]. by rewrite IH.
Qed.

Lemma c_str_Forall l : Forall (fun c => c <> 0) (c_str l).
Proof.
  induction l as [|c l IH]; simpl; [constructor|].
  destruct (Z.eqb_spec c 0); constructor; done.
Qed.

Definition digitb (c : Z) : Prop := 48 <= c <= 57.

Lemma isdigit_true c : digitb c -> isdigit c = true.
Proof. unfold digitb, isdigit. intros. apply andb_true_iff; split; apply Z.leb_le; lia. Qed.

(** The value a digit string denotes. *)
Definition dec_value (acc : Z) (ds : bytes) : Z :=
  fold_left (fun a c => 10 * a + (c - 48)) ds acc.

Lemma read_digits_all ds acc :
  Forall digitb ds -> read_digits acc ds = (dec_value acc ds, length ds).
Proof.
  intros H. revert acc. induction H as [|c ds Hc _ IH]; intros acc; simpl; [done|].
  rewrite isdigit_true by done. by rewrite IH.
Qed.

Lemma dec_digits_spec fuel n acc :
  0 <= n < 2 ^ Z.of_nat fuel -> (fuel <> O) ->
  exists ds, dec_digits fuel n acc = ds ++ acc /\ Forall digitb ds /\ ds <> [] /\
    dec_value 0 ds = n.
Proof.
  revert n acc. induction fuel as [|f IH]; intros n acc Hn Hf; [done|].
  cbn [dec_digits].
  destruct (Z.ltb_spec n 10).
  { exists [48 + n mod 10]. split; [done|]. unfold digitb, dec_value.
    repeat split; [|done|]; [constructor; [dlia | constructor] | simpl; dlia]. }
  assert (Hf' : f <> O).
  { intros ->. change (2 ^ Z.of_nat 1) with 2 in Hn. lia. }
  destruct (IH (n / 10) (48 + n mod 10 :: acc)) as (ds & -> & Hds & Hne & Hv);
    [|done|].
  { rewrite Nat2Z.inj_succ, Z.pow_succ_r in Hn by lia. dlia. }
  exists (ds ++ [48 + n mod 10]). rewrite <- app_assoc. split; [done|].
  repeat split.
  - apply Forall_app. split; [done|]. constructor; [unfold digitb; dlia | constructor].
  - by destruct ds.
  - unfold dec_value in *. rewrite fold_left_app, Hv. simpl. dlia.
Qed.

Lemma to_string_spec n :
  0 <= n -> Forall digitb (to_string n) /\ to_string n <> [] /\ dec_value 0 (to_string n) = n.
Proof.
  intros Hn. unfold to_string.
  destruct (dec_digits_spec (S (Z.to_nat (Z.log2 n))) n []) as (ds & -> & H); [|done|].
  { rewrite Nat2Z.inj_succ, Z2Nat.id by apply Z.log2_nonneg.
    destruct (Z.eq_dec n 0) as [->|]; [done|].
    pose proof (Z.log2_spec n). lia. }
  by rewrite app_nil_r.
Qed.

Lemma digitb_nonzero ds : Forall digitb ds -> Forall (fun c => c <> 0) ds.
Proof. intros H. eapply Forall_impl; [exact H|]. unfold digitb. simpl. lia. Qed.

(** Parsing what [std::to_string] printed gives the number back. *)
Lemma stoi_to_string n : 0 <= n <= INT_MAX -> stoi (to_string n) = Ok n.
Proof.
  intros Hn. destruct (to_string_spec n) as (Hd & Hne & Hv); [lia|].
  unfold stoi, strtol10. rewrite c_str_no_nul by by apply digitb_nonzero.
  destruct (to_string n) as [|c ds] eqn:E; [done|].
  pose proof (Forall_cons_1 _ _ _ Hd) as [Hc Hds].
  assert (isspace c = false) as Hs.
  { unfold isspace, digitb in *. apply orb_false_iff; split;
      [apply andb_false_iff; right; apply Z.leb_gt | apply Z.eqb_neq]; lia. }
  simpl skip_space. rewrite Hs.
  unfold digitb in Hc.
  destruct (Z.eqb_spec c 45); [lia|]. destruct (Z.eqb_spec c 43); [lia|].
  rewrite read_digits_all by done. cbn [length]. rewrite Hv.
  unfold INT_MIN, INT_MAX in *.
  destruct (Z.leb_spec (- 2 ^ 31) n); [|lia].
  destruct (Z.leb_spec n (2 ^ 31 - 1)); [done|lia].
Qed.

Lemma to_string_inj a b : 0 <= a -> 0 <= b -> to_string a = to_string b -> a = b.
Proof.
  intros Ha Hb E. destruct (to_string_spec a) as (_ & _ & <-); [done|].
  destruct (to_string_spec b) as (_ & _ & <-); [done|]. by rewrite E.
Qed.

Lemma hex_digit_inj a b : 0 <= a < 16 -> 0 <= b < 16 -> hex_digit a = hex_digit b -> a = b.
Proof. unfold hex_digit. intros. repeat case_hyp; zbool; lia. Qed.

Lemma hex02_inj a b : is_byte a -> is_byte b -> hex02 a = hex02 b -> a = b.
Proof.
  unfold hex02, is_byte. intros Ha Hb [= E1 E2].
  apply hex_digit_inj in E1; [|dlia..]. apply hex_digit_inj in E2; [|dlia..].
  dlia.
Qed.

Example stoi_ex1 : stoi (str " 12ab") = Ok 12. Proof. reflexivity. Qed.
Example stoi_ex2 : stoi (str "-7") = Ok (-7). Proof. reflexivity. Qed.
Example stoi_ex3 : stoi (str "x") = Err invalid_argument. Proof. reflexivity. Qed.
Example stoi_ex4 : stoi (str "2147483648") = Err out_of_range. Proof. reflexivity. Qed.
Example to_string_ex : to_string 1209 = str "1209". Proof. reflexivity. Qed.
