(* ===== verification/Ini.v ===== *)
(** * inih: the INI parser behind [Config] (foreign/inih/INIReader.h)

    The line reader ([fgets] into a 200-byte buffer), the line parser
    [ini_parse_stream] with its section, continuation, comment and
    name/value branches, and the [INIReader] class that stores the values
    under lower-case ["section=name"] keys.  The in-place edits of the line
    buffer ([rstrip], the NULs written over delimiters) are functions on the
    C string; a pointer into the buffer is the suffix it points at. *)

From S2P Require Import Prelude CLib.

Definition INI_MAX_LINE : nat := 200.
Definition MAX_SECTION : nat := 50.
Definition MAX_NAME : nat := 50.

(** ** String helpers *)

(** Strips the trailing white space of a C string. *)
Definition rstrip (s : bytes) : bytes := reverse (skip_space (reverse s)).

(** Skips the leading white space. *)
Fixpoint lskip (s : bytes) : bytes :=
  match s with
  | c :: s' => if isspace c then lskip s' else s
  | [] => []
  end.

Definition strchr (chars : bytes) (c : Z) : bool := bool_decide (c ∈ chars).

(** Splits [s] where the returned pointer points: before it the scanned
    prefix, at it the first of [chars], an inline comment, or the end. *)
Fixpoint find_chars_or_comment_from (was_space : bool) (chars : option bytes) (s : bytes)
  : bytes * bytes :=
  match s with
  | [] => ([], [])
  | c :: s' =>
    if match chars with None => false | Some cs => strchr cs c end
       || (was_space && strchr (str ";") c)
    then ([], s)
    else let '(p, q) := find_chars_or_comment_from (isspace c) chars s' in (c :: p, q)
  end.

Definition find_chars_or_comment (s : bytes) (chars : option bytes) : bytes * bytes :=
  find_chars_or_comment_from false chars s.

(** Copies at most [size - 1] characters. *)
Definition strncpy0 (src : bytes) (size : nat) : bytes := take (size - 1) src.

(** ** Reading lines *)

(** [fgets(line, n + 1, stream)]: at most [n] characters, up to and including
    a newline. *)
Fixpoint fgets_take (n : nat) (stream : bytes) : bytes * bytes :=
  match n, stream with
  | S n', c :: rest =>
    if c =? 10 then ([c], rest)
    else let '(l, r) := fgets_take n' rest in (c :: l, r)
  | _, _ => ([], stream)
  end.

Definition fgets (num : nat) (stream : bytes) : option (bytes * bytes) :=
  match stream with
  | [] => None
  | _ => Some (fgets_take (num - 1) stream)
  end.

(** ** The parser *)

Section Parser.

Context {U : Type}.
(** The callback: the user data, section, name and value to the new user
    data and the C return value. *)
Variable handler : U -> bytes -> bytes -> bytes -> U * Z.

(** The locals of [ini_parse_stream] that live across lines. *)
Record parse_state := mk_parse_state {
  section : bytes;
  prev_name : bytes;
  lineno : Z;
  error : Z;
  user : U;
}.

(** [if (!ok && !error) error = lineno;] *)
Definition note_error (ok : bool) (st : parse_state) : Z :=
  if negb ok && (error st =? 0) then lineno st else error st.

(** Calls the handler and records its failure. *)
Definition call_handler (name value : bytes) (st : parse_state) : parse_state :=
  let '(u, ret) := handler (user st) (section st) name value in
  mk_parse_state (section st) (prev_name st) (lineno st)
    (note_error (nz ret) st) u.

(** The byte order mark is only looked for on the first line. *)
Definition skip_bom (n : Z) (line : bytes) : bytes :=
  match line with
  | 239 :: 187 :: 191 :: rest => if n =? 1 then rest else line
  | _ => line
  end.

(** One iteration of the loop on the buffer [fgets] filled. *)
Definition parse_line (line0 : bytes) (st0 : parse_state) : parse_state :=
  let line := c_str line0 in
  let st := mk_parse_state (section st0) (prev_name st0) (lineno st0 + 1)
              (error st0) (user st0) in
  let stripped := rstrip (skip_bom (lineno st) line) in
  let start := lskip stripped in
  let moved := (len start <? len stripped)
               || (len (skip_bom (lineno st) line) <? len line) in
  match start with
  | [] => st
  | c :: rest =>
    if (c =? 59) || (c =? 35) then st
    else if negb (beqb (prev_name st) []) && moved then
      let '(value, _) := find_chars_or_comment start None in
      call_handler (prev_name st) (rstrip value) st
    else if c =? 91 then
      let '(name, e) := find_chars_or_comment rest (Some (str "]")) in
      match e with
      | 93 :: _ =>
        mk_parse_state (strncpy0 name MAX_SECTION) [] (lineno st) (error st) (user st)
      | _ => mk_parse_state (section st) (prev_name st) (lineno st)
               (note_error false st) (user st)
      end
    else
      let '(name, e) := find_chars_or_comment start (Some (str "=:")) in
      match e with
      | _ :: value0 =>
        if match e with d :: _ => (d =? 61) || (d =? 58) | [] => false end then
          let name := rstrip name in
          let '(value, _) := find_chars_or_comment (lskip value0) None in
          let st := mk_parse_state (section st) (strncpy0 name MAX_NAME) (lineno st)
                      (error st) (user st) in
          call_handler name (rstrip value) st
        else mk_parse_state (section st) (prev_name st) (lineno st)
               (note_error false st) (user st)
      | [] => mk_parse_state (section st) (prev_name st) (lineno st)
               (note_error false st) (user st)
      end
  end.

(** The read loop.  Every [fgets] consumes a character, so the length of the
    stream bounds the number of lines. *)
Fixpoint ini_parse_loop (fuel : nat) (stream : bytes) (st : parse_state) : parse_state :=
  match fuel with
  | O => st
  | S f =>
    match fgets INI_MAX_LINE stream with
    | None => st
    | Some (line, rest) => ini_parse_loop f rest (parse_line line st)
    end
  end.

Definition ini_parse_stream (stream : bytes) (u : U) : U * Z :=
  let st := ini_parse_loop (S (length stream)) stream (mk_parse_state [] [] 0 0 u) in
  (user st, error st).

Definition ini_parse_file (file : bytes) (u : U) : U * Z := ini_parse_stream file u.

(** [None] is a file that cannot be opened. *)
Definition ini_parse (file : option bytes) (u : U) : U * Z :=
  match file with
  | None => (u, -1)
  | Some f => ini_parse_file f u
  end.

End Parser.

Arguments mk_parse_state {U} _ _ _ _ _.
Arguments section {U} _.
Arguments prev_name {U} _.
Arguments lineno {U} _.
Arguments error {U} _.
Arguments user {U} _.

(** ** The INIReader class *)

Record INIReader := mk_INIReader {
  _error : Z;
  _values : gmap bytes bytes;
  _sections : gset bytes;
}.

Definition MakeKey (section name : bytes) : bytes :=
  tolower <$> (section ++ str "=" ++ name).

Definition ValueHandler (reader : INIReader) (section name value : bytes) : INIReader * Z :=
  let key := MakeKey section name in
  (* operator[] inserts an empty string for a new key *)
  let old := default [] (_values reader !! key) in
  let old := if 0 <? len old then old ++ [10] else old in
  (mk_INIReader (_error reader) (<[key := old ++ value]> (_values reader))
     ({[section]} ∪ _sections reader), 1).

Definition INIReader_empty : INIReader := mk_INIReader 0 ∅ ∅.

(** The constructor from a file. *)
Definition INIReader_new (file : option bytes) : INIReader :=
  let '(r, e) := ini_parse ValueHandler file INIReader_empty in
  mk_INIReader e (_values r) (_sections r).

Definition ParseError (r : INIReader) : Z := _error r.

Definition Sections (r : INIReader) : gset bytes := _sections r.

Definition Get (r : INIReader) (section name default_value : bytes) : bytes :=
  match _values r !! MakeKey section name with
  | Some v => v
  | None => default_value
  end.

Definition GetBoolean (r : INIReader) (section name : bytes) (default_value : bool) : bool :=
  let valstr := tolower <$> Get r section name [] in
  if beqb valstr (str "true") || beqb valstr (str "yes")
     || beqb valstr (str "on") || beqb valstr (str "1") then true
  else if beqb valstr (str "false") || beqb valstr (str "no")
     || beqb valstr (str "off") || beqb valstr (str "0") then false
  else default_value.

(** ** Lemmas on the line reader *)

Lemma fgets_take_app n line rest :
  10 ∉ line -> (length line < n)%nat ->
  fgets_take n (line ++ 10 :: rest) = (line ++ [10], rest).
Proof.
  revert n. induction line as [|c line IH]; intros [|n] Hc Hn; simpl in *; try lia; [done|].
  rewrite not_elem_of_cons in Hc. destruct Hc as [Hc Hl].
  destruct (Z.eqb_spec c 10); [congruence|].
  rewrite IH by (done || lia). done.
Qed.

Lemma fgets_line line rest :
  10 ∉ line -> (length line < INI_MAX_LINE - 1)%nat ->
  fgets INI_MAX_LINE (line ++ 10 :: rest) = Some (line ++ [10], rest).
Proof.
  intros Hc Hn. unfold fgets.
  rewrite fgets_take_app by done. by destruct line.
Qed.

Lemma fgets_take_length n stream :
  (length (fgets_take n stream).2 + length (fgets_take n stream).1 = length stream)%nat.
Proof.
  revert stream. induction n as [|n IH]; intros [|c s]; simpl; try lia.
  destruct (c =? 10); [simpl; lia|].
  specialize (IH s). destruct (fgets_take n s). simpl in *. lia.
Qed.

Lemma fgets_take_progress n c s : (0 < n)%nat -> (0 < length (fgets_take n (c :: s)).1)%nat.
Proof.
  destruct n; [lia|]. intros _. simpl. destruct (c =? 10); [simpl; lia|].
  destruct (fgets_take n s). simpl. lia.
Qed.

Lemma fgets_shrinks stream line rest :
  fgets INI_MAX_LINE stream = Some (line, rest) -> (length rest < length stream)%nat.
Proof.
  unfold fgets. destruct stream as [|c s]; [done|].
  assert (Hn : (0 < INI_MAX_LINE - 1)%nat) by (unfold INI_MAX_LINE; lia).
  generalize dependent (INI_MAX_LINE - 1)%nat. intros n Hn Heq.
  assert (H : fgets_take n (c :: s) = (line, rest)) by congruence.
  pose proof (fgets_take_length n (c :: s)) as HL.
  pose proof (fgets_take_progress n c s Hn) as HP.
  rewrite H in HL, HP. simpl fst in *. simpl snd in *. lia.
Qed.

(** ** Lemmas on the scanner *)

Lemma skip_space_lskip s : skip_space s = lskip s.
Proof. induction s as [|c s IH]; simpl; [done|]. by rewrite IH. Qed.

Definition no_lead_space (s : bytes) : Prop :=
  match s with [] => True | c :: _ => isspace c = false end.

Definition no_trail_space (s : bytes) : Prop :=
  match last s with None => True | Some c => isspace c = false end.

#[global] Instance no_lead_space_dec s : Decision (no_lead_space s).
Proof. unfold no_lead_space. destruct s; apply _. Defined.

#[global] Instance no_trail_space_dec s : Decision (no_trail_space s).
Proof. unfold no_trail_space. destruct (last s); apply _. Defined.

Lemma lskip_id s : no_lead_space s -> lskip s = s.
Proof. destruct s as [|c s]; simpl; [done|]. by intros ->. Qed.

Lemma rstrip_id s : no_trail_space s -> rstrip s = s.
Proof.
  unfold rstrip, no_trail_space. intros H. rewrite skip_space_lskip, lskip_id.
  - by rewrite reverse_involutive.
  - unfold no_lead_space. rewrite <- head_reverse in H. by destruct (reverse s).
Qed.

Lemma rstrip_snoc_space s c : isspace c = true -> rstrip (s ++ [c]) = rstrip s.
Proof.
  intros H. unfold rstrip. rewrite reverse_app. simpl. by rewrite H.
Qed.

Lemma find_chars_skip w chars s t :
  match chars with None => True | Some cs => Forall (fun c => c ∉ cs) s end ->
  59 ∉ s ->
  match chars, t with
  | Some cs, d :: _ => d ∈ cs
  | _, d :: _ => False
  | _, [] => True
  end ->
  find_chars_or_comment_from w chars (s ++ t) = (s, t).
Proof.
  revert w. induction s as [|c s IH]; intros w Hs Hc Ht; cbn [app].
  - destruct t as [|d t]; [done|].
    destruct chars as [cs|]; [|done]. cbn. unfold strchr.
    by rewrite bool_decide_eq_true_2.
  - rewrite not_elem_of_cons in Hc. destruct Hc as [Hc Hs'].
    cbn [find_chars_or_comment_from]. unfold strchr.
    rewrite (bool_decide_eq_false_2 (c ∈ str ";")), andb_false_r, orb_false_r.
    2: { change (str ";") with [59]. rewrite list_elem_of_singleton. congruence. }
    assert (Hn : match chars with
                 | Some cs => bool_decide (c ∈ cs) | None => false end = false).
    { destruct chars; [|done]. apply bool_decide_eq_false_2.
      by inversion Hs. }
    rewrite Hn. rewrite IH; [done| |done..].
    destruct chars; [|done]. by inversion Hs.
Qed.

(** ** Rendering a configuration *)

Record ini_entry := mk_entry { e_name : bytes; e_value : bytes }.
Record ini_section := mk_section { s_name : bytes; s_entries : list ini_entry }.

Definition render_entry (e : ini_entry) : bytes :=
  e_name e ++ 61 :: e_value e ++ [10].

Definition render_section (s : ini_section) : bytes :=
  91 :: s_name s ++ 93 :: 10 :: concat (render_entry <$> s_entries s).

Definition render (cfg : list ini_section) : bytes := concat (render_section <$> cfg).

(** A name may not hold the delimiters or start like a comment or a section,
    a value may hold anything but a newline and the comment character; both
    are trimmed, and the line fits the line buffer. *)
Definition entry_wf (e : ini_entry) : Prop :=
  Forall (fun c => c <> 0 /\ c <> 10 /\ c <> 59 /\ c <> 61 /\ c <> 58) (e_name e) /\
  match e_name e with [] => False | c :: _ => c <> 91 /\ c <> 35 end /\
  no_lead_space (e_name e) /\ no_trail_space (e_name e) /\
  Forall (fun c => c <> 0 /\ c <> 10 /\ c <> 59) (e_value e) /\
  no_lead_space (e_value e) /\ no_trail_space (e_value e) /\
  (length (e_name e) + length (e_value e) < 198)%nat.

Definition section_wf (s : ini_section) : Prop :=
  Forall (fun c => c <> 0 /\ c <> 10 /\ c <> 59 /\ c <> 93) (s_name s) /\
  (length (s_name s) < MAX_SECTION)%nat /\
  Forall entry_wf (s_entries s).

#[global] Instance entry_wf_dec e : Decision (entry_wf e).
Proof. unfold entry_wf. destruct (e_name e); apply _. Defined.

#[global] Instance section_wf_dec s : Decision (section_wf s).
Proof. unfold section_wf. apply _. Defined.

(** ** The line parser on rendered lines *)

Section ParserFacts.

Context {U : Type} (handler : U -> bytes -> bytes -> bytes -> U * Z).

Lemma render_line_cstr l :
  Forall (fun c => c <> 0) l -> c_str (l ++ [10]) = l ++ [10].
Proof.
  intros H. apply c_str_no_nul. apply Forall_app. split; [done|]. by repeat constructor.
Qed.

Lemma skip_bom_other n c l : c <> 239 \/ n <> 1 -> skip_bom n (c :: l) = c :: l.
Proof.
  intros H. unfold skip_bom.
  repeat case_goal; try done. zbool. destruct H; congruence.
Qed.

(** A line that starts with a non-space character is parsed from its start,
    whatever its trailing newline. *)
Lemma line_start c l :
  Forall (fun c => c <> 0) (c :: l) -> isspace c = false -> no_trail_space (c :: l) ->
  c_str ((c :: l) ++ [10]) = (c :: l) ++ [10] /\
  rstrip ((c :: l) ++ [10]) = c :: l /\ lskip (c :: l) = c :: l.
Proof.
  intros Hz Hs Ht. rewrite render_line_cstr by done.
  rewrite rstrip_snoc_space, rstrip_id by done. simpl lskip. by rewrite Hs.
Qed.

Lemma parse_line_section s (st : parse_state) :
  Forall (fun c => c <> 0 /\ c <> 10 /\ c <> 59 /\ c <> 93) s ->
  (length s < MAX_SECTION)%nat ->
  parse_line handler ((91 :: s ++ [93]) ++ [10]) st =
    mk_parse_state s [] (lineno st + 1) (error st) (user st).
Proof.
  intros Hs Hl. unfold parse_line. cbv zeta.
  destruct (line_start 91 (s ++ [93])) as (-> & Hr & Hk).
  { constructor; [done|]. apply Forall_app. split; [|by repeat constructor].
    eapply Forall_impl; [exact Hs|]. by intros c (? & _). }
  { done. }
  { unfold no_trail_space. rewrite app_comm_cons, last_snoc. done. }
  assert (skip_bom (lineno st + 1) ((91 :: s ++ [93]) ++ [10]) =
          (91 :: s ++ [93]) ++ [10]) as Hb by (apply skip_bom_other; by left).
  cbn [lineno section prev_name error user]. rewrite !Hb, !Hr, !Hk.
  rewrite !Z.ltb_irrefl. cbn [orb Z.eqb Pos.eqb]. rewrite andb_false_r.
  unfold find_chars_or_comment. rewrite find_chars_skip.
  - unfold strncpy0, MAX_SECTION in *. rewrite take_ge by lia. done.
  - eapply Forall_impl; [exact Hs|]. intros c Hc.
    change (str "]") with [93]. rewrite list_elem_of_singleton. apply Hc.
  - intros Hin. rewrite Forall_forall in Hs. specialize (Hs _ Hin). simpl in Hs. tauto.
  - change (str "]") with [93]. by apply list_elem_of_singleton.
Qed.

Lemma parse_line_entry e (st : parse_state) :
  entry_wf e -> lineno st <> 0 ->
  parse_line handler ((e_name e ++ 61 :: e_value e) ++ [10]) st =
    call_handler handler (e_name e) (e_value e)
      (mk_parse_state (section st) (strncpy0 (e_name e) MAX_NAME) (lineno st + 1)
         (error st) (user st)).
Proof.
  intros (Hn & Hhd & Hln & Htn & Hv & Hlv & Htv & _) Hno.
  destruct e as [[|c n] v]; simpl in *; [done|]. destruct Hhd as [H91 H35].
  pose proof (Forall_cons_1 _ _ _ Hn) as [(? & ? & ? & ? & ?) Hn'].
  unfold parse_line. cbv zeta.
  change (c :: (n ++ 61 :: v) ++ [10]) with ((c :: n ++ 61 :: v) ++ [10]).
  destruct (line_start c (n ++ 61 :: v)) as (-> & Hr & Hk).
  { constructor; [done|]. apply Forall_app. split; [|constructor; [done|]].
    - eapply Forall_impl; [exact Hn'|]. by intros ? (? & _).
    - eapply Forall_impl; [exact Hv|]. by intros ? (? & _). }
  { done. }
  { unfold no_trail_space. rewrite app_comm_cons, last_app_cons, last_cons.
    unfold no_trail_space in Htv. by destruct (last v). }
  assert (skip_bom (lineno st + 1) ((c :: n ++ 61 :: v) ++ [10]) =
          (c :: n ++ 61 :: v) ++ [10]) as Hb by (apply skip_bom_other; right; lia).
  cbn [lineno section prev_name error user]. rewrite !Hb, !Hr, !Hk.
  rewrite !Z.ltb_irrefl. cbn [orb]. rewrite andb_false_r.
  repeat match goal with |- context [c =? ?k] => destruct (Z.eqb_spec c k); [lia|] end.
  cbn [orb].
  unfold find_chars_or_comment.
  replace (c :: n ++ 61 :: v) with ((c :: n) ++ 61 :: v) by done.
  rewrite find_chars_skip.
  - cbn [Z.eqb Pos.eqb orb]. rewrite (rstrip_id (c :: n)), lskip_id by done.
    rewrite <- (app_nil_r v) at 1. rewrite find_chars_skip; [|done| |done].
    { rewrite rstrip_id by done. done. }
    intros Hin. rewrite Forall_forall in Hv. by specialize (Hv _ Hin) as (_ & _ & ?).
  - eapply Forall_impl; [exact Hn|]. intros d (_ & _ & _ & ? & ?).
    change (str "=:") with [61; 58]. rewrite !not_elem_of_cons.
    repeat split; [done..|]. by apply not_elem_of_nil.
  - intros Hin. rewrite Forall_forall in Hn. by specialize (Hn _ Hin) as (_ & _ & ? & _).
  - change (str "=:") with [61; 58]. left.
Qed.

(** The loop takes one rendered line off the stream. *)
Lemma ini_parse_loop_line fuel line rest st :
  10 ∉ line -> (length line < INI_MAX_LINE - 1)%nat ->
  ini_parse_loop handler (S fuel) (line ++ 10 :: rest) st =
    ini_parse_loop handler fuel rest (parse_line handler (line ++ [10]) st).
Proof. intros Hc Hl. cbn [ini_parse_loop]. by rewrite fgets_line. Qed.

(** More fuel than characters changes nothing. *)
Lemma ini_parse_loop_fuel f1 f2 stream st :
  (length stream < f1)%nat -> (length stream < f2)%nat ->
  ini_parse_loop handler f1 stream st = ini_parse_loop handler f2 stream st.
Proof.
  revert f2 stream st. induction f1 as [|f1 IH]; intros [|f2] stream st H1 H2; try lia.
  cbn [ini_parse_loop]. destruct (fgets INI_MAX_LINE stream) as [[line rest]|] eqn:E; [|done].
  apply fgets_shrinks in E. apply IH; lia.
Qed.

(** What the callbacks of a configuration's entries do to the user data. *)
Definition feed_entry (sec : bytes) (u : U) (e : ini_entry) : U :=
  (handler u sec (e_name e) (e_value e)).1.

Definition feed_section (u : U) (s : ini_section) : U :=
  foldl (feed_entry (s_name s)) u (s_entries s).

Definition feed (cfg : list ini_section) (u : U) : U := foldl feed_section u cfg.

(** The whole-stream loop, with fuel for every character. *)
Definition parse_all (stream : bytes) (st : parse_state) : parse_state :=
  ini_parse_loop handler (S (length stream)) stream st.

Lemma parse_all_line line rest st :
  10 ∉ line -> (length line < INI_MAX_LINE - 1)%nat ->
  parse_all (line ++ 10 :: rest) st = parse_all rest (parse_line handler (line ++ [10]) st).
Proof.
  intros Hc Hl. unfold parse_all. rewrite ini_parse_loop_line by done.
  apply ini_parse_loop_fuel; rewrite ?length_app; simpl; lia.
Qed.

Hypothesis handler_ok : forall u s n v, nz (handler u s n v).2 = true.

Lemma parse_all_entry e rest st :
  entry_wf e -> lineno st <> 0 ->
  parse_all (render_entry e ++ rest) st =
    parse_all rest (mk_parse_state (section st) (strncpy0 (e_name e) MAX_NAME)
      (lineno st + 1) (error st) (feed_entry (section st) (user st) e)).
Proof.
  intros He Hno. unfold render_entry.
  replace ((e_name e ++ 61 :: e_value e ++ [10]) ++ rest)
    with ((e_name e ++ 61 :: e_value e) ++ 10 :: rest)
    by (rewrite <- !app_assoc; simpl; by rewrite <- !app_assoc).
  pose proof He as (Hn & _ & _ & _ & Hv & _ & _ & Hl).
  rewrite Forall_forall in Hn, Hv.
  rewrite parse_all_line.
  - rewrite parse_line_entry by done. unfold call_handler, feed_entry. cbn [user section].
    specialize (handler_ok (user st) (section st) (e_name e) (e_value e)).
    destruct (handler (user st) (section st) (e_name e) (e_value e)) as [u r].
    unfold note_error. simpl in *. by rewrite handler_ok.
  - rewrite not_elem_of_app, not_elem_of_cons. repeat split; [|done|].
    + intros Hin. by specialize (Hn _ Hin) as (_ & ? & _).
    + intros Hin. by specialize (Hv _ Hin) as (_ & ? & _).
  - rewrite length_app. unfold INI_MAX_LINE. simpl. lia.
Qed.

Lemma parse_all_entries es : Forall entry_wf es -> forall rest st, 0 < lineno st ->
  exists pn n, 0 < n /\
    parse_all (concat (render_entry <$> es) ++ rest) st =
    parse_all rest (mk_parse_state (section st) pn n (error st)
      (foldl (feed_entry (section st)) (user st) es)).
Proof.
  induction 1 as [|e es He _ IH]; intros rest st Hno; csimpl.
  - exists (prev_name st), (lineno st). by destruct st.
  - rewrite <- app_assoc, parse_all_entry by (done || lia).
    destruct (IH rest (mk_parse_state (section st) (strncpy0 (e_name e) MAX_NAME)
      (lineno st + 1) (error st) (feed_entry (section st) (user st) e)))
      as (pn & n & Hn & ->); [simpl; lia|]. by exists pn, n.
Qed.

Lemma parse_all_section s rest st : section_wf s -> 0 <= lineno st ->
  exists pn n, 0 < n /\
    parse_all (render_section s ++ rest) st =
    parse_all rest (mk_parse_state (s_name s) pn n (error st) (feed_section (user st) s)).
Proof.
  intros (Hs & Hl & He) Hno. unfold render_section.
  replace ((91 :: s_name s ++ 93 :: 10 :: concat (render_entry <$> s_entries s)) ++ rest)
    with ((91 :: s_name s ++ [93]) ++ 10 :: (concat (render_entry <$> s_entries s) ++ rest))
    by (simpl; by rewrite <- !app_assoc).
  rewrite Forall_forall in Hs. rewrite parse_all_line.
  - rewrite parse_line_section by (done || by apply Forall_forall).
    destruct (parse_all_entries (s_entries s) He rest
      (mk_parse_state (s_name s) [] (lineno st + 1) (error st) (user st)))
      as (pn & n & Hn & ->); [simpl; lia|]. by exists pn, n.
  - rewrite not_elem_of_cons, not_elem_of_app. repeat split; [done| |by rewrite list_elem_of_singleton].
    intros Hin. by specialize (Hs _ Hin) as (_ & ? & _).
  - simpl. rewrite length_app. unfold INI_MAX_LINE, MAX_SECTION in *. simpl. lia.
Qed.

Lemma parse_all_render cfg : Forall section_wf cfg -> forall st, 0 <= lineno st ->
  user (parse_all (render cfg) st) = feed cfg (user st) /\
  error (parse_all (render cfg) st) = error st.
Proof.
  induction 1 as [|s cfg Hs _ IH]; intros st Hno; [done|].
  unfold render. rewrite fmap_cons. cbn [concat].
  destruct (parse_all_section s (concat (render_section <$> cfg)) st Hs Hno)
    as (pn & n & Hn & ->).
  apply (IH (mk_parse_state (s_name s) pn n (error st) (feed_section (user st) s))).
  simpl. lia.
Qed.

(** Parsing a rendered configuration reports no error and makes exactly the
    callbacks of its entries, in order. *)
Lemma ini_parse_stream_render cfg u :
  Forall section_wf cfg -> ini_parse_stream handler (render cfg) u = (feed cfg u, 0).
Proof.
  intros H. destruct (parse_all_render cfg H (mk_parse_state [] [] 0 0 u)) as [Hu He];
    [simpl; lia|].
  unfold ini_parse_stream. fold (parse_all (render cfg) (mk_parse_state [] [] 0 0 u)).
  rewrite Hu, He. done.
Qed.

End ParserFacts.

Arguments feed {U} _ _ _.
Arguments feed_entry {U} _ _ _ _.
Arguments feed_section {U} _ _ _.

(** ** The reader on a rendered configuration *)

(** The (section, name, value) triples of a configuration, in file order. *)
Definition entries_of (cfg : list ini_section) : list (bytes * bytes * bytes) :=
  s ← cfg; (fun e => (s_name s, e_name e, e_value e)) <$> s_entries s.

Definition keys_of (cfg : list ini_section) : list bytes :=
  (fun t => MakeKey t.1.1 t.1.2) <$> entries_of cfg.

Definition feed_triple (r : INIReader) (t : bytes * bytes * bytes) : INIReader :=
  (ValueHandler r t.1.1 t.1.2 t.2).1.

Lemma feed_ValueHandler cfg r :
  feed ValueHandler cfg r = foldl feed_triple r (entries_of cfg).
Proof.
  revert r. induction cfg as [|s cfg IH]; intros r; [done|].
  unfold entries_of. cbn [mbind list_bind]. unfold feed in *. cbn [foldl].
  rewrite IH, foldl_app. f_equal. unfold feed_section.
  generalize r. induction (s_entries s) as [|e es IHe]; intros r'; [done|].
  simpl. by rewrite IHe.
Qed.

Lemma foldl_feed_triple_lookup ts r s n v :
  NoDup ((fun t => MakeKey t.1.1 t.1.2) <$> ts) -> (s, n, v) ∈ ts ->
  _values r !! MakeKey s n = None ->
  _values (foldl feed_triple r ts) !! MakeKey s n = Some v.
Proof.
  revert r. induction ts as [|t ts IH]; intros r Hnd Hin Hr; [by apply not_elem_of_nil in Hin|].
  simpl in Hnd. apply NoDup_cons in Hnd as [Hni Hnd].
  apply elem_of_cons in Hin as [<-|Hin].
  - assert (forall ts r', MakeKey s n ∉ ((fun t => MakeKey t.1.1 t.1.2) <$> ts) ->
      _values r' !! MakeKey s n = Some v ->
      _values (foldl feed_triple r' ts) !! MakeKey s n = Some v) as Hkeep.
    { clear. induction ts as [|t ts IH]; intros r' Hni Hr'; [done|].
      simpl in Hni. apply not_elem_of_cons in Hni as [Hne Hni]. apply IH; [done|].
      unfold feed_triple, ValueHandler. cbn [fst snd _values]. by rewrite lookup_insert_ne. }
    cbn [foldl]. apply Hkeep; [done|]. unfold feed_triple, ValueHandler. cbn [fst snd _values].
    rewrite Hr. simpl. by rewrite lookup_insert_eq.
  - cbn [foldl]. apply IH; [done..|]. unfold feed_triple, ValueHandler. cbn [fst snd _values].
    rewrite lookup_insert_ne; [done|]. intros E. apply Hni. rewrite E.
    apply list_elem_of_fmap. by exists (s, n, v).
Qed.

Lemma foldl_feed_triple_other ts r k :
  k ∉ ((fun t => MakeKey t.1.1 t.1.2) <$> ts) ->
  _values (foldl feed_triple r ts) !! k = _values r !! k.
Proof.
  revert r. induction ts as [|t ts IH]; intros r Hni; [done|].
  simpl in *. apply not_elem_of_cons in Hni as [Hne Hni]. rewrite IH by done.
  unfold feed_triple, ValueHandler. cbn [fst snd _values]. by rewrite lookup_insert_ne.
Qed.

(** ** The first error is the one reported *)

(** The chunks [fgets] returns, one per iteration of the loop. *)
Fixpoint lines_of (fuel : nat) (stream : bytes) : list bytes :=
  match fuel with
  | O => []
  | S f =>
    match fgets INI_MAX_LINE stream with
    | None => []
    | Some (line, rest) => line :: lines_of f rest
    end
  end.

Section Errors.

Context {U : Type} (handler : U -> bytes -> bytes -> bytes -> U * Z).

Lemma ini_parse_loop_lines fuel stream st :
  ini_parse_loop handler fuel stream st =
    foldl (fun st l => parse_line handler l st) st (lines_of fuel stream).
Proof.
  revert stream st. induction fuel as [|f IH]; intros stream st; [done|]. simpl.
  destruct (fgets INI_MAX_LINE stream) as [[line rest]|]; [apply IH|done].
Qed.

(** A line fails when it would set the error of a run that has none yet. *)
Definition line_fails (st : parse_state) (line : bytes) : bool :=
  nz (error (parse_line handler line
       (mk_parse_state (section st) (prev_name st) (lineno st) 0 (user st)))).

Lemma parse_line_lineno line st : lineno (parse_line handler line st) = lineno st + 1.
Proof.
  unfold parse_line, call_handler. cbv zeta.
  repeat (case_goal; cbn [section prev_name lineno error user]); done.
Qed.

Lemma parse_line_error line st : 0 <= lineno st ->
  error (parse_line handler line st) =
    if nz (error st) then error st
    else if line_fails st line then lineno st + 1 else 0.
Proof.
  intros Hno. assert (nz (lineno st + 1) = true) as Hl by (apply nz_true; lia).
  unfold line_fails, parse_line, call_handler, note_error. cbv zeta.
  cbn [section prev_name lineno error user].
  destruct (nz (error st)) eqn:Ee.
  - apply nz_true, Z.eqb_neq in Ee.
    repeat (case_goal; cbn [section prev_name lineno error user andb negb] in *); try done;
      simplify_eq; rewrite ?Ee in *; rewrite ?andb_false_r in *; try done.
  - apply nz_false in Ee. rewrite Ee.
    repeat (case_goal; cbn [section prev_name lineno error user andb negb Z.eqb] in *);
      simplify_eq; rewrite ?andb_true_r in *; try done; try congruence.
Qed.

Definition state_after (st : parse_state) (ls : list bytes) : parse_state :=
  foldl (fun st l => parse_line handler l st) st ls.

Lemma state_after_error ls st : 0 <= lineno st -> error st = 0 ->
  (error (state_after st ls) = 0 /\
     forall i l, ls !! i = Some l -> line_fails (state_after st (take i ls)) l = false) \/
  (exists i l, ls !! i = Some l /\ error (state_after st ls) = lineno st + Z.of_nat i + 1 /\
     line_fails (state_after st (take i ls)) l = true /\
     forall j m, (j < i)%nat -> ls !! j = Some m ->
       line_fails (state_after st (take j ls)) m = false).
Proof.
  revert st. induction ls as [|l ls IH]; intros st Hno He; [by left|].
  pose proof (parse_line_error l st Hno) as HE. rewrite He in HE. cbn in HE.
  destruct (line_fails st l) eqn:Hf.
  - right. exists O, l. split; [done|]. split; [|split; [done|lia]].
    assert (forall ls st', 0 <= lineno st' -> nz (error st') = true ->
              error (state_after st' ls) = error st') as Hstick.
    { clear. induction ls as [|l ls IH]; intros st' Hno Hn; [done|]. simpl.
      rewrite IH; rewrite ?parse_line_error, ?Hn by done; [done| |done].
      rewrite parse_line_lineno. lia. }
    simpl. rewrite Hstick; [lia|rewrite parse_line_lineno; lia|].
    rewrite HE. apply nz_true. lia.
  - destruct (IH (parse_line handler l st)) as [[H0 Hall]|(i & m & Hi & H1 & H2 & H3)];
      [rewrite parse_line_lineno; lia|done|left|right].
    + split; [done|]. intros [|i] m Hm; simpl in *; [congruence|]. by apply Hall.
    + exists (S i), m. split; [done|]. rewrite parse_line_lineno in H1.
      split; [simpl; lia|]. split; [done|].
      intros [|j] k Hj Hk; simpl in *; [congruence|]. apply H3; [lia|done].
Qed.

End Errors.

(** C37: round trip of a configuration file.  Reading the text of a well-formed
    configuration with distinct keys reports no error, looks up every entry's
    value under its section and name, and gives the caller's default for every
    other key. *)
Theorem ini_roundtrip cfg :
  Forall section_wf cfg -> NoDup (keys_of cfg) ->
  let r := INIReader_new (Some (render cfg)) in
  ParseError r = 0 /\
  (forall s n v d, (s, n, v) ∈ entries_of cfg -> Get r s n d = v) /\
  (forall s n d, MakeKey s n ∉ keys_of cfg -> Get r s n d = d).
Proof.
  intros Hwf Hnd r. unfold r, INIReader_new, ini_parse, ini_parse_file.
  rewrite ini_parse_stream_render by done. rewrite feed_ValueHandler.
  split; [done|]. unfold Get. cbn [_values]. split.
  - intros s n v d Hin. by rewrite (foldl_feed_triple_lookup _ _ _ _ _ Hnd Hin).
  - intros s n d Hni. by rewrite foldl_feed_triple_other.
Qed.

Definition sample_cfg : list ini_section :=
  [mk_section (str "global") [mk_entry (str "device") (str "/dev/ttyUSB0");
                              mk_entry (str "lights") (str "2")];
   mk_section (str "light1") [mk_entry (str "type") (str "uv");
                              mk_entry (str "address") (str "6")]].

Lemma ini_roundtrip_witness :
  Get (INIReader_new (Some (render sample_cfg))) (str "light1") (str "address") [] = str "6".
Proof.
  assert (Forall section_wf sample_cfg) as H1 by (apply (bool_decide_unpack _); vm_compute; exact I).
  assert (NoDup (keys_of sample_cfg)) as H2 by (apply (bool_decide_unpack _); vm_compute; exact I).
  pose proof (proj1 (proj2 (ini_roundtrip sample_cfg H1 H2))) as H.
  apply H. apply list_elem_of_In. vm_compute. tauto.
Defined.

(** Error reporting.  [ini_parse_stream] returns 0 exactly when no line
    fails, and otherwise the 1-based number of the first line that does; the
    lines before and after it are still parsed. *)
Theorem ini_parse_stream_first_error {U} (handler : U -> bytes -> bytes -> bytes -> U * Z)
    stream u :
  let ls := lines_of (S (length stream)) stream in
  let st0 := mk_parse_state [] [] 0 0 u in
  let '(u', e) := ini_parse_stream handler stream u in
  u' = user (state_after handler st0 ls) /\
  ((e = 0 /\ forall i l, ls !! i = Some l ->
      line_fails handler (state_after handler st0 (take i ls)) l = false) \/
   (exists i l, ls !! i = Some l /\ e = Z.of_nat i + 1 /\
      line_fails handler (state_after handler st0 (take i ls)) l = true /\
      forall j m, (j < i)%nat -> ls !! j = Some m ->
        line_fails handler (state_after handler st0 (take j ls)) m = false)).
Proof.
  intros ls st0. unfold ini_parse_stream. rewrite ini_parse_loop_lines.
  fold ls. fold st0. fold (state_after handler st0 ls). split; [done|].
  destruct (state_after_error handler ls st0) as [H|(i & l & H1 & H2 & H3)]; [done..|by left|].
  right. exists i, l. split; [done|]. by split; [simpl in H2; lia|].
Qed.
