(* ===== verification/Config.v ===== *)
(** * Config (valoserveri/Config.cpp, Config.h)

    The typed getters over the INI reader.  They are written against the
    interface [IniSource], what [INIReader] promises to [Config]: a lookup
    that does not depend on the default.  [INIReader] is its instance. *)

From S2P Require Import Prelude CLib Ini.

(** What [Config] needs of the object that holds the parsed file. *)
Class IniSource (C : Type) := {
  ini_lookup : C -> bytes -> bytes -> option bytes;
  ini_Get : C -> bytes -> bytes -> bytes -> bytes;
  ini_Get_spec : forall c section name d,
    ini_Get c section name d = default d (ini_lookup c section name);
}.

Lemma Get_default r s n d : Get r s n d = default d (_values r !! MakeKey s n).
Proof. unfold Get. by destruct (_values r !! MakeKey s n). Qed.

#[global] Instance INIReader_source : IniSource INIReader := {
  ini_lookup r s n := _values r !! MakeKey s n;
  ini_Get := Get;
  ini_Get_spec := Get_default;
}.

(** The error messages [fmt::format] builds. *)
Definition negative_msg (section key : bytes) : bytes :=
  str "Negative value where unsigned expected in config " ++ section ++ str "." ++ key.

Definition bad_bool_msg (value section key : bytes) : bytes :=
  str "Bad boolean value " ++ [34] ++ value ++ [34] ++ str " in config "
  ++ section ++ str "." ++ key.

Section Config.

Context {C : Type} `{!IniSource C}.

(** [assert(!section.empty()); assert(!key.empty());] *)
Definition assert_names (section key : bytes) : res exn () :=
  if beqb section [] then Err assertion_failed
  else if beqb key [] then Err assertion_failed
  else Ok ().

(** [Config::get] of a string *)
Definition get (impl : C) (section key defaultValue : bytes) : res exn bytes :=
  _ ← assert_names section key;
  Ok (ini_Get impl section key defaultValue).

(** [Config::get] of an unsigned number *)
Definition get_uint (impl : C) (section key : bytes) (defaultValue : Z) : res exn Z :=
  _ ← assert_names section key;
  let value := ini_Get impl section key [] in
  if beqb value [] then Ok defaultValue
  else
    parsed ← stoi value;
    if parsed <? 0 then Err (runtime_error (negative_msg section key))
    else Ok parsed.

Definition getBool (impl : C) (section key : bytes) (defaultValue : bool) : res exn bool :=
  _ ← assert_names section key;
  let value := ini_Get impl section key [] in
  if beqb value [] then Ok defaultValue
  else if beqb value (str "true") then Ok true
  else if beqb value (str "false") then Ok false
  else Err (runtime_error (bad_bool_msg value section key)).

(** [raw.find_first_of(c)], [None] for [npos]. *)
Fixpoint find_first_of (c : Z) (raw : bytes) : option nat :=
  match raw with
  | [] => None
  | d :: raw' => if d =? c then Some O else S <$> find_first_of c raw'
  end.

(** The splitting loop of [getList]; each round drops a comma, so the length
    of [raw] bounds it. *)
Fixpoint split_loop (fuel : nat) (raw : bytes) (result : list bytes) : list bytes :=
  match fuel with
  | O => result
  | S f =>
    match find_first_of 44 raw with
    | Some commaPos =>
      let result := match commaPos with
                    | O => result
                    | _ => result ++ [take commaPos raw]
                    end in
      split_loop f (drop (S commaPos) raw) result
    | None =>
      match raw with
      | [] => result
      | _ => result ++ [raw]
      end
    end
  end.

Definition getList (impl : C) (section key : bytes) : res exn (list bytes) :=
  raw ← get impl section key [];
  match raw with
  | [] => Ok []
  | _ => Ok (split_loop (S (length raw)) raw [])
  end.

(** ** Facts *)

Lemma assert_names_ok s k : s <> [] -> k <> [] -> assert_names s k = Ok ().
Proof. intros. unfold assert_names. rewrite !(proj2 (beqb_false _ _)); done. Qed.

Lemma get_ok impl s k d : s <> [] -> k <> [] ->
  get impl s k d = Ok (default d (ini_lookup impl s k)).
Proof. intros. unfold get. rewrite assert_names_ok by done. simpl. by rewrite ini_Get_spec. Qed.

(** The number a key holds, as the getter reads it. *)
Definition uint_value (o : option bytes) (d : Z) (msg : bytes) : res exn Z :=
  match o with
  | None | Some [] => Ok d
  | Some v => parsed ← stoi v; if parsed <? 0 then Err (runtime_error msg) else Ok parsed
  end.

Lemma get_uint_eq impl s k d : s <> [] -> k <> [] ->
  get_uint impl s k d = uint_value (ini_lookup impl s k) d (negative_msg s k).
Proof.
  intros. unfold get_uint. rewrite assert_names_ok by done. simpl. rewrite ini_Get_spec.
  unfold uint_value. destruct (ini_lookup impl s k) as [[|c v]|]; done.
Qed.

Lemma get_uint_nonneg impl s k d n : 0 <= d -> get_uint impl s k d = Ok n -> 0 <= n.
Proof.
  intros Hd. unfold get_uint. intros (_ & _ & H)%res_bind_Ok. cbv zeta in H.
  destruct (beqb _ _); [congruence|]. apply res_bind_Ok in H as (p & _ & H).
  destruct (Z.ltb_spec p 0); simplify_eq. done.
Qed.

(** Reference definition of the list splitting: the maximal comma-free runs
    that are not empty. *)
Fixpoint comma_runs (cur : bytes) (raw : bytes) : list bytes :=
  match raw with
  | [] => if beqb cur [] then [] else [cur]
  | c :: raw' =>
    if c =? 44 then (if beqb cur [] then [] else [cur]) ++ comma_runs [] raw'
    else comma_runs (cur ++ [c]) raw'
  end.

Lemma find_first_of_Some c raw n :
  find_first_of c raw = Some n ->
  raw = take n raw ++ c :: drop (S n) raw /\ c ∉ take n raw.
Proof.
  revert n. induction raw as [|d raw IH]; intros n; simpl; [done|].
  destruct (Z.eqb_spec d c) as [->|Hne].
  - intros [= <-]. split; [done|]. apply not_elem_of_nil.
  - destruct (find_first_of c raw) as [m|] eqn:E; simpl; [|done]. intros [= <-].
    destruct (IH m eq_refl) as [H1 H2]. simpl. split; [by rewrite <- H1|].
    rewrite not_elem_of_cons. done.
Qed.

Lemma find_first_of_None c raw : find_first_of c raw = None -> c ∉ raw.
Proof.
  induction raw as [|d raw IH]; simpl; [intros _; apply not_elem_of_nil|].
  destruct (Z.eqb_spec d c); [done|]. destruct (find_first_of c raw); simpl; [done|].
  rewrite not_elem_of_cons. naive_solver.
Qed.

Lemma comma_runs_prefix cur p rest :
  44 ∉ p -> comma_runs cur (p ++ rest) = comma_runs (cur ++ p) rest.
Proof.
  revert cur. induction p as [|c p IH]; intros cur Hp; simpl; [by rewrite app_nil_r|].
  apply not_elem_of_cons in Hp as [Hc Hp].
  destruct (Z.eqb_spec c 44); [congruence|]. rewrite IH by done. by rewrite <- app_assoc.
Qed.

Lemma split_loop_runs fuel raw result :
  (length raw < fuel)%nat -> split_loop fuel raw result = result ++ comma_runs [] raw.
Proof.
  revert raw result. induction fuel as [|f IH]; intros raw result Hl; [lia|]. simpl.
  destruct (find_first_of 44 raw) as [n|] eqn:E.
  - destruct (find_first_of_Some _ _ _ E) as [Hraw Hp].
    rewrite IH.
    2: { apply (f_equal length) in Hraw. rewrite length_app in Hraw. simpl in Hraw. lia. }
    assert (comma_runs [] raw =
            (if beqb (take n raw) [] then [] else [take n raw])
            ++ comma_runs [] (drop (S n) raw)) as ->.
    { rewrite Hraw at 1. by rewrite comma_runs_prefix. }
    destruct n as [|n]; [done|]. rewrite <- app_assoc. f_equal.
    by destruct raw.
  - apply find_first_of_None in E. rewrite <- (app_nil_r raw) at 2.
    rewrite comma_runs_prefix by done. cbn [app comma_runs].
    destruct raw; [by rewrite app_nil_r|done].
Qed.

Lemma comma_runs_join cur items :
  Forall (fun i => i <> [] /\ 44 ∉ i) items ->
  44 ∉ cur -> cur <> [] ->
  comma_runs cur (concat ((fun i => 44 :: i) <$> items)) = cur :: items.
Proof.
  intros H. revert cur. induction H as [|i items [Hne Hc] _ IH]; intros cur Hcur Hcne.
  - simpl. by rewrite (proj2 (beqb_false _ _)).
  - csimpl. rewrite (proj2 (beqb_false _ _)) by done. simpl. f_equal.
    rewrite comma_runs_prefix by done. apply IH; done.
Qed.

End Config.

(** A list written back the way the configuration spells it. *)
Definition join_commas (items : list bytes) : bytes :=
  match items with
  | [] => []
  | i :: items => i ++ concat ((fun j => 44 :: j) <$> items)
  end.

(** a number getter on every branch.  With non-empty names it returns the
    default for a missing or empty value, the number for a decimal numeral in
    [int] range, and the exceptions of [std::stoi] or the "negative value"
    error otherwise; it never returns a number outside [0, INT_MAX] unless it
    is the default. *)
Theorem get_uint_spec {C} `{!IniSource C} (impl : C) s k d :
  s <> [] -> k <> [] ->
  match ini_lookup impl s k with
  | None | Some [] => get_uint impl s k d = Ok d
  | Some v =>
    match stoi v with
    | Err e => get_uint impl s k d = Err e
    | Ok n => (n < 0 /\ get_uint impl s k d = Err (runtime_error (negative_msg s k))) \/
              (0 <= n <= INT_MAX /\ get_uint impl s k d = Ok n)
    end
  end.
Proof.
  intros Hs Hk. rewrite get_uint_eq by done. unfold uint_value.
  destruct (ini_lookup impl s k) as [[|c v]|]; [done| |done].
  destruct (stoi (c :: v)) as [n|e] eqn:E; simpl; [|done].
  unfold stoi in E. repeat case_hyp; simplify_eq. zbool.
  destruct (Z.ltb_spec n 0); [left|right]; split; done || lia.
Qed.

Definition sample_reader : INIReader := INIReader_new (Some (render sample_cfg)).

Lemma get_uint_spec_witness : get_uint sample_reader (str "light1") (str "address") 0 = Ok 6.
Proof.
  pose proof (get_uint_spec sample_reader (str "light1") (str "address") 0
    ltac:(done) ltac:(done)) as H.
  assert (ini_lookup sample_reader (str "light1") (str "address") = Some (str "6")) as E
    by (vm_compute; reflexivity).
  rewrite E in H. change (str "6") with [54] in H.
  change (stoi [54]) with (@Ok exn Z 6) in H.
  destruct H as [[Hlt _]|[_ H]]; [lia|exact H].
Defined.

(** [getList] splits at commas.  It equals the reference splitting into
    the non-empty comma-free runs, so a value that joins non-empty comma-free
    items with commas is read back as exactly those items. *)
Theorem getList_spec {C} `{!IniSource C} (impl : C) s k :
  s <> [] -> k <> [] ->
  getList impl s k = Ok (comma_runs [] (default [] (ini_lookup impl s k))) /\
  (forall items, Forall (fun i => i <> [] /\ 44 ∉ i) items ->
     default [] (ini_lookup impl s k) = join_commas items -> getList impl s k = Ok items).
Proof.
  intros Hs Hk.
  assert (getList impl s k = Ok (comma_runs [] (default [] (ini_lookup impl s k)))) as HR.
  { unfold getList. rewrite get_ok by done. cbn [mbind res_bind].
    destruct (default [] (ini_lookup impl s k)) as [|c raw] eqn:E; [done|].
    rewrite split_loop_runs by lia. done. }
  split; [done|]. intros items Hi E. rewrite HR, E. f_equal.
  destruct Hi as [|i items [Hne Hc] Hi]; [done|]. simpl.
  rewrite comma_runs_prefix by done. apply comma_runs_join; done.
Qed.

Lemma getList_spec_witness :
  getList (INIReader_new (Some (str "[a]" ++ [10] ++ str "b=x,,yz,")))
    (str "a") (str "b") = Ok [str "x"; str "yz"].
Proof.
  rewrite (proj1 (getList_spec _ (str "a") (str "b") ltac:(done) ltac:(done))).
  vm_compute. reflexivity.
Defined.
