(* ===== verification/Logger.v ===== *)
(** * Logger (valoserveri/Logger.cpp, Logger.h)

    The log level names, the per-process [LoggerImpl::global], the level
    filter and the life cycle of the log file.  The text of the time stamp
    (the date library) and whether [fopen] succeeds are arguments. *)

From S2P Require Import Prelude CLib Ini Config.

Inductive LogLevel := Debug | Info | Warning | Error.

#[global] Instance LogLevel_eq_dec : EqDecision LogLevel.
Proof. solve_decision. Defined.

(** The underlying [unsigned int]. *)
Definition level_num (l : LogLevel) : Z :=
  match l with Debug => 0 | Info => 1 | Warning => 2 | Error => 3 end.

Definition level_of_num (n : nat) : LogLevel :=
  match n with O => Debug | 1%nat => Info | 2%nat => Warning | _ => Error end.

Definition levelStrings : list bytes :=
  [str "debug"; str "info"; str "warning"; str "error"].

Definition bad_level_msg (s : bytes) : bytes :=
  str "Bad log level " ++ [34] ++ s ++ [34].

(** The search loop from index [i] on. *)
Fixpoint find_level (i : nat) (names : list bytes) (s : bytes) : res exn LogLevel :=
  match names with
  | [] => Err (runtime_error (bad_level_msg s))
  | n :: names' => if beqb s n then Ok (level_of_num i) else find_level (S i) names' s
  end.

Definition parseLogLevel (s : bytes) : res exn LogLevel := find_level 0 levelStrings s.

(** ** The logger object *)

(** The file's contents are the lines written so far; [None] is the null
    [FILE *]. *)
Record LoggerImpl := mk_LoggerImpl {
  filename : bytes;
  file : option (list bytes);
  level : LogLevel;
}.

(** The process state the logger acts on: the global pointer and stdout. *)
Record log_world := mk_log_world {
  global : option LoggerImpl;
  stdout : list bytes;
}.

Definition log_line (s : bytes) : bytes := c_str s ++ [10].

(** [LoggerImpl::message]: filtered by level, else written to the file and to
    stdout.  Returns the object and the lines printed. *)
Definition LoggerImpl_message (impl : LoggerImpl) (l : LogLevel) (message : bytes)
  : LoggerImpl * list bytes :=
  if level_num l <? level_num (level impl) then (impl, [])
  else (mk_LoggerImpl (filename impl) ((fun ls => ls ++ [log_line message]) <$> file impl)
          (level impl), [log_line message]).

Section Logger.

Context {C : Type} `{!IniSource C}.

(** The constructor of [LoggerImpl]: the members are initialised in the order
    of their declaration, then the file is opened and three lines logged. *)
Definition LoggerImpl_new (config : C) (fopen_ok : bool) (now : bytes)
  : res exn (LoggerImpl * list bytes) :=
  filename ← get config (str "logging") (str "file") (str "valoserveri.log");
  level_name ← get config (str "logging") (str "level") (str "error");
  level ← parseLogLevel level_name;
  if negb fopen_ok then Err system_error
  else
    let impl := mk_LoggerImpl filename (Some []) level in
    let '(impl, out1) := LoggerImpl_message impl Info (str "Log started at " ++ now) in
    let '(impl, out2) := LoggerImpl_message impl Info (str "Log file " ++ filename) in
    let '(impl, out3) := LoggerImpl_message impl Info
      (str "Log level " ++ default [] (levelStrings !! Z.to_nat (level_num level))) in
    Ok (impl, out1 ++ out2 ++ out3).

(** [Logger::Logger] *)
Definition Logger_new (config : C) (fopen_ok : bool) (now : bytes) (w : log_world)
  : res exn log_world :=
  '(impl, out) ← LoggerImpl_new config fopen_ok now;
  match global w with
  | Some _ => Err assertion_failed
  | None => Ok (mk_log_world (Some impl) (stdout w ++ out))
  end.

(** [Logger::~Logger] clears the global pointer; then [impl]'s destructor
    logs the shutdown and closes the file.  The closed object is returned
    beside the world. *)
Definition Logger_delete (now : bytes) (w : log_world) : res exn (LoggerImpl * log_world) :=
  match global w with
  | None => Err assertion_failed
  | Some impl =>
    match file impl with
    | None => Err assertion_failed
    | Some _ =>
      let '(impl, out) := LoggerImpl_message impl Info (str "Shutdown at " ++ now) in
      Ok (impl, mk_log_world None (stdout w ++ out))
    end
  end.

(** [Logger::message] *)
Definition Logger_message (l : LogLevel) (message : bytes) (w : log_world) : res exn log_world :=
  match global w with
  | None => Err assertion_failed
  | Some impl =>
    let '(impl, out) := LoggerImpl_message impl l message in
    Ok (mk_log_world (Some impl) (stdout w ++ out))
  end.

Fixpoint Logger_messages (ms : list (LogLevel * bytes)) (w : log_world) : res exn log_world :=
  match ms with
  | [] => Ok w
  | (l, m) :: ms' => w ← Logger_message l m w; Logger_messages ms' w
  end.

(** ** Facts *)

(** The messages a level lets through. *)
Definition passes (lv : LogLevel) (m : LogLevel * bytes) : bool :=
  negb (level_num m.1 <? level_num lv).

Definition passed (lv : LogLevel) (ms : list (LogLevel * bytes)) : list bytes :=
  (fun m => log_line m.2) <$> filter (fun m => Is_true (passes lv m)) ms.

Lemma Logger_messages_lines ms : forall w impl ls,
  global w = Some impl -> file impl = Some ls ->
  Logger_messages ms w =
    Ok (mk_log_world
          (Some (mk_LoggerImpl (filename impl) (Some (ls ++ passed (level impl) ms)) (level impl)))
          (stdout w ++ passed (level impl) ms)).
Proof.
  induction ms as [|[l m] ms IH]; intros [g out] [fn fl lv] ls; simpl; intros -> ->.
  { by rewrite !app_nil_r. }
  unfold Logger_message, LoggerImpl_message, passed, passes. simpl.
  destruct (level_num l <? level_num lv) eqn:E; simpl.
  - erewrite IH by done. rewrite app_nil_r, filter_cons_False by (simpl; rewrite E; auto).
    done.
  - erewrite IH by done. rewrite filter_cons_True by (simpl; rewrite E; exact I).
    simpl. by rewrite <- !app_assoc.
Qed.

End Logger.

(** The level names round trip: each level's name parses to it, and any
    other string is the "Bad log level" error. *)
Theorem parseLogLevel_spec s :
  (forall l, parseLogLevel s = Ok l <-> levelStrings !! Z.to_nat (level_num l) = Some s) /\
  (s ∉ levelStrings -> parseLogLevel s = Err (runtime_error (bad_level_msg s))).
Proof.
  unfold parseLogLevel, levelStrings. cbn [find_level].
  split.
  - intros l. split.
    + repeat (destruct (beqb s _) eqn:E; [apply beqb_true in E as ->; intros [= <-]; done|clear E]).
      done.
    + intros H. destruct l; injection H as <-; reflexivity.
  - rewrite !not_elem_of_cons. intros (? & ? & ? & ? & _).
    by rewrite !(proj2 (beqb_false _ _)).
Qed.

Lemma parseLogLevel_spec_witness :
  parseLogLevel (str "warning") = Ok Warning /\
  parseLogLevel (str "Error") = Err (runtime_error (bad_level_msg (str "Error"))).
Proof.
  split.
  - by apply (proj1 (parseLogLevel_spec (str "warning"))).
  - apply (proj2 (parseLogLevel_spec (str "Error"))).
    apply (bool_decide_unpack _). vm_compute. exact I.
Defined.

(** The life of a log.  A logger constructed from a configuration with a valid
    level and an openable file, fed any messages and then destroyed, has
    written to its file and to stdout exactly the start lines, the messages at
    or above the level, and the shutdown line, in order, and the global
    pointer is null again. *)
Theorem logger_lifetime {C} `{!IniSource C} (config : C) now1 now2 ms lv out0 :
  let fname := default (str "valoserveri.log") (ini_lookup config (str "logging") (str "file")) in
  parseLogLevel (default (str "error") (ini_lookup config (str "logging") (str "level"))) = Ok lv ->
  let all := [(Info, str "Log started at " ++ now1); (Info, str "Log file " ++ fname);
              (Info, str "Log level " ++ default [] (levelStrings !! Z.to_nat (level_num lv)))]
             ++ ms ++ [(Info, str "Shutdown at " ++ now2)] in
  exists w,
    (w0 ← Logger_new config true now1 (mk_log_world None out0); Logger_messages ms w0) = Ok w /\
    Logger_delete now2 w =
      Ok (mk_LoggerImpl fname (Some (passed lv all)) lv,
          mk_log_world None (out0 ++ passed lv all)).
Proof.
  intros fname Hlv all.
  assert (forall im l m ls, file im = Some ls ->
    LoggerImpl_message im l m =
      (mk_LoggerImpl (filename im) (Some (ls ++ passed (level im) [(l, m)])) (level im),
       passed (level im) [(l, m)])) as HM.
  { intros [fn fl lv'] l m ls; simpl; intros ->. unfold LoggerImpl_message, passed, passes. simpl.
    destruct (level_num l <? level_num lv') eqn:E.
    - rewrite filter_cons_False by (simpl; rewrite E; auto). simpl. by rewrite app_nil_r.
    - rewrite filter_cons_True by (simpl; rewrite E; exact I). done. }
  assert (forall a b, passed lv (a ++ b) = passed lv a ++ passed lv b) as Happ.
  { intros. unfold passed. by rewrite filter_app, fmap_app. }
  unfold Logger_new, LoggerImpl_new. rewrite !get_ok by done. cbn [mbind res_bind].
  rewrite Hlv. cbn [mbind res_bind negb].
  erewrite HM by done. erewrite HM by done. erewrite HM by done. cbn [mbind res_bind global].
  eexists. split; [by erewrite Logger_messages_lines|].
  unfold Logger_delete. cbn [global file]. erewrite HM by done.
  cbn [filename level stdout]. unfold all.
  rewrite !(Happ _ (_ ++ _)), Happ.
  replace [(Info, str "Log started at " ++ now1); (Info, str "Log file " ++ fname);
     (Info, str "Log level " ++ default [] (levelStrings !! Z.to_nat (level_num lv)))]
    with ([(Info, str "Log started at " ++ now1)] ++ [(Info, str "Log file " ++ fname)] ++
     [(Info, str "Log level " ++ default [] (levelStrings !! Z.to_nat (level_num lv)))]) by done.
  rewrite !Happ, <- !app_assoc. done.
Qed.

Lemma logger_lifetime_witness :
  exists w,
    (w0 ← Logger_new INIReader_empty true (str "T0") (mk_log_world None []);
     Logger_messages [(Debug, str "a"); (Error, str "b")] w0) = Ok w /\
    snd <$> Logger_delete (str "T1") w = Ok (mk_log_world None [str "b" ++ [10]]).
Proof.
  assert (parseLogLevel (default (str "error")
    (ini_lookup INIReader_empty (str "logging") (str "level"))) = Ok Error) as Hl
    by (vm_compute; reflexivity).
  destruct (logger_lifetime INIReader_empty (str "T0") (str "T1")
    [(Debug, str "a"); (Error, str "b")] Error [] Hl) as (w & H1 & H2).
  exists w. split; [exact H1|]. rewrite H2. vm_compute. reflexivity.
Defined.
