(* ===== verification/Dmx.v ===== *)
(** * The lights and the DMX frame (valoserveri/DMXController.cpp, .h)

    The light configuration, the 517-byte frame sent to the serial DMX
    adapter and the colour update of one light.  Opening and configuring the
    tty is outside the model: the descriptor [open] returned is an argument. *)

From S2P Require Import Prelude CLib Ini Config.

(** ** Data *)

Inductive LightType := RGB | UV.

#[global] Instance LightType_eq_dec : EqDecision LightType.
Proof. solve_decision. Defined.

Record Light := mk_Light {
  type : LightType;
  address : Z;
  numChannels : Z;
}.

(** The default constructor. *)
Definition Light_default : Light := mk_Light RGB 0 0.

Record LightsConfig := mk_LightsConfig { lights : gmap Z Light }.

Record Color := mk_Color { red : Z; green : Z; blue : Z }.

Definition Color_default : Color := mk_Color 0 0 0.

#[global] Instance Color_eq_dec : EqDecision Color.
Proof. solve_decision. Defined.

Record DMXController := mk_DMX {
  fd : Z;
  dmxPacket : bytes;
  lightConfig : LightsConfig;
}.

(** ** Parsing the configuration *)

Definition lightTypeStrings : list bytes := [str "rgb"; str "uv"].

Definition LightType_of_num (i : nat) : LightType :=
  match i with O => RGB | _ => UV end.

Definition bad_type_msg (s : bytes) : bytes := str "Bad light type " ++ [34] ++ s ++ [34].

Fixpoint find_light_type (i : nat) (names : list bytes) (s : bytes) : res exn LightType :=
  match names with
  | [] => Err (runtime_error (bad_type_msg s))
  | n :: names' => if beqb s n then Ok (LightType_of_num i) else find_light_type (S i) names' s
  end.

Definition parseLightType (s : bytes) : res exn LightType :=
  find_light_type 0 lightTypeStrings s.

Section Parse.

Context {C : Type} `{!IniSource C}.

(** The section of light [i]: ["light" + std::to_string(i)]. *)
Definition light_section (i : Z) : bytes := str "light" ++ to_string i.

(** The body of the loop of [LightsConfig::parse]. *)
Definition parse_light (config : C) (i : Z) : res exn Light :=
  let section := light_section i in
  address ← get_uint config section (str "address") 0;
  type_name ← get config section (str "type") (str "rgb");
  type ← parseLightType type_name;
  let defaultNumChannels := match type with UV => 2 | RGB => 5 end in
  numChannels ← get_uint config section (str "numChannels") defaultNumChannels;
  Ok (mk_Light type (u8 address) (u8 numChannels)).

(** The loop over the lights [i], ..., [i + n - 1]; [emplace] keeps an
    existing entry. *)
Fixpoint parse_lights (config : C) (n : nat) (i : Z) (l : gmap Z Light)
  : res exn (gmap Z Light) :=
  match n with
  | O => Ok l
  | S n' =>
    light ← parse_light config i;
    let l := match l !! i with Some _ => l | None => <[i := light]> l end in
    parse_lights config n' (i + 1) l
  end.

(** [LightsConfig::parse] *)
Definition LightsConfig_parse (config : C) : res exn LightsConfig :=
  numLights ← get_uint config (str "global") (str "lights") 0;
  l ← parse_lights config (Z.to_nat numLights) 0 ∅;
  Ok (mk_LightsConfig l).

(** ** The controller *)

(** [v[i] = x] on a [std::vector]; an index out of range is an error here. *)
Definition vec_set (v : bytes) (i x : Z) : res exn bytes :=
  if (0 <=? i) && (i <? len v) then Ok (<[Z.to_nat i := x]> v) else Err contract_violation.

Fixpoint vec_sets (v : bytes) (i : Z) (xs : bytes) : res exn bytes :=
  match xs with
  | [] => Ok v
  | x :: xs' => v ← vec_set v i x; vec_sets v (i + 1) xs'
  end.

(** The frame before any light is set: header (start 0x7e, label 6, length
    0x0200 low byte first), zeroed data, end mark 0xe7. *)
Definition initial_packet : bytes :=
  let p := replicate 517 0 in
  let p := <[0%nat := 126]> p in
  let p := <[1%nat := 6]> p in
  let p := <[2%nat := 0]> p in
  let p := <[3%nat := 2]> p in
  <[516%nat := 231]> p.

(** The constructor; [open_fd] is what [open] of the tty device returned.
    The device name is read from the configuration after the lights. *)
Definition DMXController_new (config : C) (open_fd : bytes -> Z) : res exn DMXController :=
  lightConfig ← LightsConfig_parse config;
  ttyDeviceName ← get config (str "global") (str "device") (str "/dev/ttyUSB0");
  Ok (mk_DMX (open_fd ttyDeviceName) initial_packet lightConfig).

(** The destructor: the descriptor it closes, and the cleared object. *)
Definition DMXController_delete (d : DMXController) : option Z * DMXController :=
  if negb (fd d =? 0) then (Some (fd d), mk_DMX 0 (dmxPacket d) (lightConfig d)) else (None, d).

Definition getLightsConfig (d : DMXController) : LightsConfig := lightConfig d.

(** The intensity of an ultraviolet light for a colour. *)
Definition uv_intensity (color : Color) : Z :=
  Z.shiftr (u32 (77 * red color + 150 * green color + 29 * blue color)) 8.

(** The bytes written for a light of a type. *)
Definition channel_bytes (t : LightType) (color : Color) : bytes :=
  match t with
  | RGB => [red color; green color; blue color; 255; 0]
  | UV => [u8 (uv_intensity color); 0]
  end.

(** [DMXController::setLightColor] *)
Definition setLightColor (d : DMXController) (index : Z) (color : Color)
  : res exn DMXController :=
  match lights (lightConfig d) !! index with
  | None => Ok d
  | Some light =>
    let offset := address light + 4 in
    p ← vec_sets (dmxPacket d) offset (channel_bytes (type light) color);
    Ok (mk_DMX (fd d) p (lightConfig d))
  end.

(** [DMXController::update]: the [write] system call it makes. *)
Definition update (d : DMXController) : Z * bytes := (fd d, dmxPacket d).

End Parse.

(** ** Invariants *)

Definition color_ok (c : Color) : Prop :=
  is_byte (red c) /\ is_byte (green c) /\ is_byte (blue c).

#[global] Instance color_ok_dec c : Decision (color_ok c).
Proof. unfold color_ok. apply _. Defined.

Definition light_ok (l : Light) : Prop := is_byte (address l) /\ is_byte (numChannels l).

(** The frame is one the adapter accepts: start mark, label, a length field
    that equals the number of data bytes, the end mark, bytes throughout. *)
Definition frame_ok (p : bytes) : Prop :=
  length p = 517%nat /\ all_bytes p /\
  p !! 0%nat = Some 126 /\ p !! 1%nat = Some 6 /\
  (exists lo hi, p !! 2%nat = Some lo /\ p !! 3%nat = Some hi /\ lo + 256 * hi = len p - 5) /\
  p !! 516%nat = Some 231.

Definition dmx_ok (d : DMXController) : Prop :=
  frame_ok (dmxPacket d) /\ map_Forall (fun _ l => light_ok l) (lights (lightConfig d)).

(** How many data bytes a light of a type occupies. *)
Definition width (t : LightType) : nat := match t with RGB => 5 | UV => 2 end.

(** ** Facts on the frame updates *)

Lemma vec_sets_spec v i xs :
  0 <= i -> i + len xs <= len v ->
  exists v', vec_sets v i xs = Ok v' /\ length v' = length v /\
    forall j : nat, v' !! j =
      if decide (i <= Z.of_nat j < i + len xs) then xs !! (j - Z.to_nat i)%nat else v !! j.
Proof.
  revert v i. induction xs as [|x xs IH]; intros v i Hi Hl.
  - exists v. split; [done|]. split; [done|]. intros j.
    rewrite decide_False; [done|]. rewrite len_nil. lia.
  - rewrite len_cons in Hl. pose proof (len_nonneg xs).
    cbn [vec_sets]. unfold vec_set at 1.
    destruct (Z.leb_spec 0 i); [|lia]. destruct (Z.ltb_spec i (len v)); [|lia].
    cbn [andb mbind res_bind].
    destruct (IH (<[Z.to_nat i := x]> v) (i + 1)) as (v' & -> & Hlen & Hlk);
      [lia|unfold len; rewrite length_insert; fold (len v) (len xs); lia|].
    exists v'. split; [done|]. rewrite length_insert in Hlen. split; [done|].
    intros j. rewrite Hlk. rewrite len_cons.
    destruct (decide (Z.of_nat j = i)) as [Hj|Hj].
    + rewrite decide_False by lia. rewrite decide_True by lia.
      replace (Z.to_nat i) with j by lia. rewrite Nat.sub_diag.
      apply list_lookup_insert_eq. unfold len in *. lia.
    + repeat case_decide; try lia.
      * replace (j - Z.to_nat i)%nat with (S (j - Z.to_nat (i + 1))) by lia. done.
      * apply list_lookup_insert_ne. lia.
Qed.

Lemma uv_intensity_range c : color_ok c -> is_byte (uv_intensity c).
Proof.
  unfold color_ok, uv_intensity, is_byte. intros (? & ? & ?).
  rewrite u32_small by lia. rewrite Z.shiftr_div_pow2 by lia. dlia.
Qed.

Lemma channel_bytes_ok t c : color_ok c ->
  all_bytes (channel_bytes t c) /\ length (channel_bytes t c) = width t.
Proof.
  intros Hc. pose proof (uv_intensity_range c Hc). destruct Hc as (? & ? & ?).
  split; [|by destruct t].
  unfold all_bytes. destruct t; cbn [channel_bytes]; rewrite !Forall_cons.
  - unfold is_byte in *. split_and!; try lia. apply Forall_nil_2.
  - split; [apply u8_range|]. split; [unfold is_byte; lia|apply Forall_nil_2].
Qed.

(** The light's data byte [k] for a colour. *)
Definition slot (l : Light) (c : Color) (k : nat) : option Z := channel_bytes (type l) c !! k.

(** The complete effect of setting a known light. *)
Lemma setLightColor_known d index light color :
  dmx_ok d -> lights (lightConfig d) !! index = Some light -> color_ok color ->
  exists p, setLightColor d index color = Ok (mk_DMX (fd d) p (lightConfig d)) /\
    frame_ok p /\
    forall j : nat, p !! j =
      let o := Z.to_nat (address light + 4) in
      if decide (o <= j < o + width (type light))%nat then slot light color (j - o)
      else dmxPacket d !! j.
Proof.
  intros [Hf Hl] Hlk Hc. pose proof (Hl _ _ Hlk) as [Ha _]. unfold is_byte in Ha.
  destruct Hf as (Hlen & Hb & H0 & H1 & (lo & hi & H2 & H3 & Hsz) & H516).
  destruct (channel_bytes_ok (type light) color Hc) as [Hcb Hcl].
  assert (Hw : len (channel_bytes (type light) color) = Z.of_nat (width (type light)))
    by (unfold len; lia).
  assert (Hww : (width (type light) <= 5)%nat) by (destruct (type light); simpl; lia).
  destruct (vec_sets_spec (dmxPacket d) (address light + 4) (channel_bytes (type light) color))
    as (p & Hp & Hpl & Hpk); [lia|unfold len at 2; lia|].
  assert (forall j : nat, p !! j =
      let o := Z.to_nat (address light + 4) in
      if decide (o <= j < o + width (type light))%nat then slot light color (j - o)
      else dmxPacket d !! j) as Hall.
  { intros j. rewrite Hpk, Hw. cbv zeta. unfold slot.
    repeat case_decide; try lia; done. }
  exists p. unfold setLightColor. rewrite Hlk. cbn [mbind res_bind]. rewrite Hp.
  split; [done|]. split; [|exact Hall].
  assert (forall j : nat, (j < 4 \/ 265 < j)%nat -> p !! j = dmxPacket d !! j) as Hout.
  { intros j Hj. rewrite Hall. cbv zeta. rewrite decide_False; [done|]. lia. }
  unfold frame_ok. rewrite Hpl. split; [done|]. split.
  { apply Forall_lookup. intros j x. rewrite Hall. cbv zeta. case_decide; intros Hx.
    - unfold slot in Hx. by apply (Forall_lookup_1 _ _ _ _ Hcb Hx).
    - by apply (Forall_lookup_1 _ _ _ _ Hb Hx). }
  rewrite !Hout by lia. split; [done|]. split; [done|]. split; [|done].
  exists lo, hi. split; [done|]. split; [done|]. unfold len in *. rewrite Hpl. done.
Qed.

Lemma setLightColor_unknown d index color :
  lights (lightConfig d) !! index = None -> setLightColor d index color = Ok d.
Proof. unfold setLightColor. by intros ->. Qed.

Lemma setLightColor_total d index color : dmx_ok d -> color_ok color ->
  exists d', setLightColor d index color = Ok d' /\ dmx_ok d' /\
    lightConfig d' = lightConfig d /\ fd d' = fd d.
Proof.
  intros Hd Hc. destruct (lights (lightConfig d) !! index) as [light|] eqn:E.
  - destruct (setLightColor_known d index light color Hd E Hc) as (p & -> & Hp & _).
    eexists. split; [done|]. destruct Hd as [_ Hl]. done.
  - exists d. by rewrite setLightColor_unknown.
Qed.

Lemma initial_packet_ok : frame_ok initial_packet.
Proof.
  unfold frame_ok. split; [reflexivity|].
  split; [apply (bool_decide_unpack _); vm_compute; exact I|].
  split; [reflexivity|]. split; [reflexivity|]. split; [|reflexivity].
  exists 0, 2. done.
Qed.

(** ** Facts on the configuration *)

Section ParseFacts.

Context {C : Type} `{!IniSource C}.

Lemma light_section_ne i : light_section i <> [].
Proof. unfold light_section. done. Qed.

Lemma parse_light_ok (config : C) i l : parse_light config i = Ok l -> light_ok l.
Proof.
  unfold parse_light. cbv zeta.
  intros (a & _ & (t & _ & (ty & _ & (n & _ & [= <-])%res_bind_Ok)%res_bind_Ok)%res_bind_Ok)%res_bind_Ok.
  split; apply u8_range.
Qed.

(** The result of the loop: the lights before it and one per index of it. *)
Lemma parse_lights_spec (config : C) n i l l' :
  (forall k, i <= k -> l !! k = None) ->
  parse_lights config n i l = Ok l' ->
  forall k, l' !! k = if decide (i <= k < i + Z.of_nat n)
                      then (match parse_light config k with Ok x => Some x | Err _ => None end)
                      else l !! k.
Proof.
  revert i l. induction n as [|n IH]; intros i l Hl; simpl.
  - intros [= <-] k. rewrite decide_False by lia. done.
  - intros (x & Hx & H)%res_bind_Ok k. rewrite (Hl i) in H by lia.
    rewrite (IH (i + 1) (<[i := x]> l) ltac:(intros k' Hk'; rewrite lookup_insert_ne by lia; apply Hl; lia) H k).
    destruct (decide (k = i)) as [->|Hne].
    + rewrite decide_False by lia. rewrite decide_True by lia.
      rewrite Hx. by rewrite lookup_insert_eq.
    + rewrite lookup_insert_ne by done. repeat case_decide; done || lia.
Qed.

Lemma parse_lights_complete (config : C) n i l l' :
  parse_lights config n i l = Ok l' ->
  forall k, i <= k < i + Z.of_nat n -> exists x, parse_light config k = Ok x.
Proof.
  revert i l. induction n as [|n IH]; intros i l; simpl; [intros; lia|].
  intros (x & Hx & H)%res_bind_Ok k Hk.
  destruct (decide (k = i)) as [->|]; [eauto|]. eapply IH; [done|]. lia.
Qed.

Lemma LightsConfig_parse_inv (config : C) lc :
  LightsConfig_parse config = Ok lc ->
  exists n, 0 <= n /\ get_uint config (str "global") (str "lights") 0 = Ok n /\
    forall k, (0 <= k < n -> exists x, parse_light config k = Ok x /\ lights lc !! k = Some x) /\
              (~ (0 <= k < n) -> lights lc !! k = None).
Proof.
  unfold LightsConfig_parse. intros (n & Hn & (l & Hl & [= <-])%res_bind_Ok)%res_bind_Ok.
  assert (0 <= n) as Hpos by (eapply get_uint_nonneg, Hn; done).
  exists n. split; [done|]. split; [done|]. intros k. simpl.
  pose proof (parse_lights_spec _ _ _ _ _ ltac:(intros; apply lookup_empty) Hl k) as HS.
  split; intros Hk.
  - destruct (parse_lights_complete _ _ _ _ _ Hl k) as [x Hx]; [lia|].
    exists x. split; [done|]. rewrite HS, Hx. rewrite decide_True by lia. done.
  - rewrite HS. rewrite decide_False by lia. apply lookup_empty.
Qed.

Lemma DMXController_new_ok (config : C) open_fd d :
  DMXController_new config open_fd = Ok d -> dmx_ok d.
Proof.
  unfold DMXController_new.
  intros (lc & Hlc & (t & _ & [= <-])%res_bind_Ok)%res_bind_Ok.
  split; [apply initial_packet_ok|]. intros k l Hk. simpl in Hk.
  destruct (LightsConfig_parse_inv _ _ Hlc) as (n & _ & _ & H).
  destruct (decide (0 <= k < n)) as [Hin|Hout].
  - destruct (proj1 (H k) Hin) as (x & Hx & Hk'). simplify_eq. by eapply parse_light_ok.
  - rewrite (proj2 (H k) Hout) in Hk. done.
Qed.

End ParseFacts.

(** A two-light configuration, the one of valoserveri.conf.dist. *)
Definition sample_lights : LightsConfig :=
  mk_LightsConfig (<[0 := mk_Light RGB 1 5]> (<[1 := mk_Light UV 6 2]> ∅)).

Definition sample_dmx : DMXController := mk_DMX 3 initial_packet sample_lights.

Lemma sample_dmx_ok : dmx_ok sample_dmx.
Proof.
  split; [apply initial_packet_ok|]. unfold sample_dmx, sample_lights. simpl.
  repeat apply map_Forall_insert_2; try (split; unfold is_byte; simpl; lia).
  apply map_Forall_empty.
Qed.

(** C35: setting a light's colour.  On a well-formed controller the update
    never leaves the frame: it returns, the frame stays well formed (header,
    length field and end mark intact) and the lights are unchanged; a known
    light's own bytes hold the colour (red, green, blue, 255, 0, or the
    intensity and 0) and every other byte is as before; an unknown index
    changes nothing. *)
Theorem setLightColor_spec d index color :
  dmx_ok d -> color_ok color ->
  exists d', setLightColor d index color = Ok d' /\ dmx_ok d' /\
    lightConfig d' = lightConfig d /\ fd d' = fd d /\
    match lights (lightConfig d) !! index with
    | None => d' = d
    | Some light => forall j : nat, dmxPacket d' !! j =
        let o := Z.to_nat (address light + 4) in
        if decide (o <= j < o + width (type light))%nat then slot light color (j - o)
        else dmxPacket d !! j
    end.
Proof.
  intros Hd Hc. destruct (lights (lightConfig d) !! index) as [light|] eqn:E.
  - destruct (setLightColor_known d index light color Hd E Hc) as (p & -> & Hp & Hall).
    eexists. split; [done|]. split; [split; [done|apply Hd]|]. done.
  - exists d. by rewrite setLightColor_unknown.
Qed.

Lemma setLightColor_spec_witness :
  exists d', setLightColor sample_dmx 1 (mk_Color 10 200 30) = Ok d' /\ dmx_ok d' /\
    dmxPacket d' !! 10%nat = Some 123.
Proof.
  destruct (setLightColor_spec sample_dmx 1 (mk_Color 10 200 30) sample_dmx_ok
    ltac:(unfold color_ok, is_byte; simpl; lia)) as (d' & H1 & H2 & _ & _ & H3).
  exists d'. split; [exact H1|]. split; [exact H2|].
  change (lights (lightConfig sample_dmx) !! 1) with (Some (mk_Light UV 6 2)) in H3.
  rewrite (H3 10%nat). vm_compute. reflexivity.
Defined.

(** The luma weights.  The ultraviolet intensity of a colour fits a byte
    (the 32-bit sum does not wrap and the store into [uint8_t] loses nothing),
    is the grey level of a grey colour, and grows with each component. *)
Theorem uv_intensity_spec c :
  color_ok c ->
  is_byte (uv_intensity c) /\ u8 (uv_intensity c) = uv_intensity c /\
  (red c = green c -> green c = blue c -> uv_intensity c = red c) /\
  (forall c', color_ok c' -> red c <= red c' -> green c <= green c' -> blue c <= blue c' ->
     uv_intensity c <= uv_intensity c').
Proof.
  intros Hc. pose proof (uv_intensity_range c Hc) as Hr.
  split; [done|]. split; [by apply u8_small|].
  unfold uv_intensity, color_ok, is_byte in *. split.
  - intros Hrg Hgb. rewrite u32_small by lia. rewrite Z.shiftr_div_pow2 by lia. dlia.
  - intros c' Hc' ? ? ?. rewrite !u32_small by lia. rewrite !Z.shiftr_div_pow2 by lia. dlia.
Qed.

Lemma uv_intensity_spec_witness : uv_intensity (mk_Color 255 255 255) = 255.
Proof.
  apply (uv_intensity_spec (mk_Color 255 255 255));
    [unfold color_ok, is_byte; simpl; lia | reflexivity..].
Defined.

(** Two lights occupy disjoint bytes. *)
Definition disjoint_lights (a b : Light) : Prop :=
  address a + Z.of_nat (width (type a)) <= address b \/
  address b + Z.of_nat (width (type b)) <= address a.

(** Lights that do not overlap are independent: the two orders of setting
    them give the same frame. *)
Theorem setLightColor_commute d i j li lj ci cj :
  dmx_ok d -> color_ok ci -> color_ok cj ->
  lights (lightConfig d) !! i = Some li -> lights (lightConfig d) !! j = Some lj ->
  disjoint_lights li lj ->
  (d' ← setLightColor d i ci; setLightColor d' j cj) =
  (d' ← setLightColor d j cj; setLightColor d' i ci).
Proof.
  intros Hd Hci Hcj Hi Hj Hdis.
  assert (forall a b la lb ca cb, color_ok ca -> color_ok cb ->
    lights (lightConfig d) !! a = Some la -> lights (lightConfig d) !! b = Some lb ->
    exists p, (d' ← setLightColor d a ca; setLightColor d' b cb) =
      Ok (mk_DMX (fd d) p (lightConfig d)) /\
      forall k : nat, p !! k =
        let oa := Z.to_nat (address la + 4) in let ob := Z.to_nat (address lb + 4) in
        if decide (ob <= k < ob + width (type lb))%nat then slot lb cb (k - ob)
        else if decide (oa <= k < oa + width (type la))%nat then slot la ca (k - oa)
        else dmxPacket d !! k) as HH.
  { intros a b la lb ca cb Hca Hcb Ha Hb.
    destruct (setLightColor_known d a la ca Hd Ha Hca) as (p1 & -> & Hp1 & HA).
    simpl. destruct (setLightColor_known (mk_DMX (fd d) p1 (lightConfig d)) b lb cb)
      as (p2 & -> & _ & HB); [split; [done|apply Hd]|done|done|].
    exists p2. split; [done|]. intros k. rewrite HB. simpl.
    case_decide; [done|]. rewrite HA. done. }
  destruct (HH i j li lj ci cj) as (p & -> & Hp); [done..|].
  destruct (HH j i lj li cj ci) as (q & -> & Hq); [done..|].
  do 2 f_equal. apply list_eq. intros k. rewrite Hp, Hq. simpl.
  destruct Hd as [_ Hl]. pose proof (Hl _ _ Hi) as [Hai _]. pose proof (Hl _ _ Hj) as [Haj _].
  unfold is_byte, disjoint_lights in *.
  repeat case_decide; done || lia.
Qed.

Lemma setLightColor_commute_witness :
  (d' ← setLightColor sample_dmx 0 (mk_Color 1 2 3); setLightColor d' 1 (mk_Color 4 5 6)) =
  (d' ← setLightColor sample_dmx 1 (mk_Color 4 5 6); setLightColor d' 0 (mk_Color 1 2 3)).
Proof.
  apply (setLightColor_commute sample_dmx 0 1 (mk_Light RGB 1 5) (mk_Light UV 6 2)).
  - exact sample_dmx_ok.
  - unfold color_ok, is_byte; simpl; lia.
  - unfold color_ok, is_byte; simpl; lia.
  - reflexivity.
  - reflexivity.
  - left. simpl. lia.
Defined.

(** Reading the lights.  When [LightsConfig::parse] returns, the
    configured count is a number [n], the lights are exactly 0 .. n-1, and
    light [k] has the type of section [light<k>] ("rgb" when absent), its
    address and channel count reduced to a byte, with the per-type default
    channel count; distinct lights come from distinct sections. *)
Theorem LightsConfig_parse_spec {C} `{!IniSource C} (config : C) lc :
  LightsConfig_parse config = Ok lc ->
  exists n, 0 <= n /\ get_uint config (str "global") (str "lights") 0 = Ok n /\
    (forall k, is_Some (lights lc !! k) <-> 0 <= k < n) /\
    (forall k l, lights lc !! k = Some l -> exists a ch,
       parseLightType (default (str "rgb") (ini_lookup config (light_section k) (str "type")))
         = Ok (type l) /\
       get_uint config (light_section k) (str "address") 0 = Ok a /\ address l = a mod 256 /\
       get_uint config (light_section k) (str "numChannels")
         (match type l with RGB => 5 | UV => 2 end) = Ok ch /\ numChannels l = ch mod 256) /\
    (forall k k', 0 <= k < n -> 0 <= k' < n -> light_section k = light_section k' -> k = k').
Proof.
  intros H. destruct (LightsConfig_parse_inv _ _ H) as (n & Hn & Hg & Hall).
  exists n. split; [done|]. split; [done|]. split; [|split].
  - intros k. destruct (decide (0 <= k < n)) as [Hin|Hout].
    + destruct (proj1 (Hall k) Hin) as (x & _ & ->). split; [done|eauto].
    + rewrite (proj2 (Hall k) Hout). split; [intros [? ?]; done|done].
  - intros k l Hk. destruct (decide (0 <= k < n)) as [Hin|Hout].
    2: { rewrite (proj2 (Hall k) Hout) in Hk. done. }
    destruct (proj1 (Hall k) Hin) as (x & Hx & Hk'). simplify_eq.
    unfold parse_light in Hx. cbv zeta in Hx.
    apply res_bind_Ok in Hx as (a & Ha & Hx). apply res_bind_Ok in Hx as (t & Ht & Hx).
    apply res_bind_Ok in Hx as (ty & Hty & Hx). apply res_bind_Ok in Hx as (ch & Hch & [= <-]).
    rewrite get_ok in Ht by done. injection Ht as <-. simpl.
    exists a, ch. destruct ty; done.
  - intros k k' Hk Hk' E. unfold light_section in E. apply app_inv_head in E.
    apply to_string_inj; done || lia.
Qed.

Definition sample_conf : bytes :=
  str "[global]" ++ [10] ++ str "lights=2" ++ [10] ++
  str "[light0]" ++ [10] ++ str "address=1" ++ [10] ++
  str "[light1]" ++ [10] ++ str "type=uv" ++ [10] ++ str "address=262".

Lemma LightsConfig_parse_spec_witness :
  exists lc, LightsConfig_parse (INIReader_new (Some sample_conf)) = Ok lc /\
    exists n, 0 <= n /\ get_uint (INIReader_new (Some sample_conf)) (str "global") (str "lights") 0
      = Ok n /\ (forall k, is_Some (lights lc !! k) <-> 0 <= k < n).
Proof.
  assert (LightsConfig_parse (INIReader_new (Some sample_conf)) = Ok sample_lights) as H
    by (vm_compute; reflexivity).
  exists sample_lights. split; [exact H|].
  destruct (LightsConfig_parse_spec _ _ H) as (n & H1 & H2 & H3 & _).
  exists n. split; [exact H1|]. split; [exact H2|exact H3].
Defined.
