(* ===== verification/LightPacket.v ===== *)
(** * Light packets (valoserveri/LightPacket.cpp, LightPacket.h)

    The datagram format: version 1, tag type 0, the sender's tag up to a NUL,
    then six-byte records (type, index, extension, red, green, blue).  Every
    read goes through [span::operator[]], whose precondition is kept as an
    error; the loop counters and offsets have the source's widths. *)

From S2P Require Import Prelude CLib Dmx.

Record LightColor := mk_LightColor { lc_index : Z; lc_color : Color }.

Record LightPacket := mk_LightPacket { lp_tag : bytes; lp_lights : list LightColor }.

Definition LightPacket_default : LightPacket := mk_LightPacket [] [].

(** [span::operator[]]: terminates the program out of range. *)
Definition span_at (packet : bytes) (idx : Z) : res exn Z :=
  match (if (0 <=? idx) && (idx <? len packet) then packet !! Z.to_nat idx else None) with
  | Some c => Ok c
  | None => Err contract_violation
  end.

(** The loop that looks for the NUL behind the tag, from index [i]. *)
Fixpoint scan_tag (fuel : nat) (packet : bytes) (i : Z) : res exn (option Z) :=
  match fuel with
  | O => Ok None
  | S f =>
    if i <? len packet then
      c ← span_at packet i;
      if schar c =? 0 then Ok (Some i) else scan_tag f packet (u32 (i + 1))
    else Ok None
  end.

(** One record at [offset]: [None] when it is not of type 1. *)
Definition read_record (packet : bytes) (offset : Z) : res exn (option LightColor) :=
  t ← span_at packet (offset + 0);
  if negb (schar t =? 1) then Ok None
  else
    idx ← span_at packet (offset + 1);
    r ← span_at packet (offset + 3);
    g ← span_at packet (offset + 4);
    b ← span_at packet (offset + 5);
    Ok (Some (mk_LightColor (u32 (schar idx))
                (mk_Color (u8 (schar r)) (u8 (schar g)) (u8 (schar b))))).

(** The record loop, [n] rounds from counter [i]. *)
Fixpoint read_records (n : nat) (packet : bytes) (baseOffset i : Z) (lights : list LightColor)
  : res exn (list LightColor) :=
  match n with
  | O => Ok lights
  | S n' =>
    let offset := s32 (baseOffset + i * 6) in
    o ← read_record packet offset;
    let lights := match o with None => lights | Some l => lights ++ [l] end in
    read_records n' packet baseOffset (u32 (i + 1)) lights
  end.

(** [parseLightPacket] *)
Definition parseLightPacket (packet : bytes) : res exn LightPacket :=
  if len packet <? 3 then Ok LightPacket_default
  else
    version ← span_at packet 0;
    if negb (schar version =? 1) then Ok LightPacket_default
    else
      tagtype ← span_at packet 1;
      if negb (schar tagtype =? 0) then Ok LightPacket_default
      else
        found ← scan_tag (length packet) packet 2;
        let '(tag, baseOffset) :=
          match found with
          | None => ([], 3)
          | Some i => (take (Z.to_nat (i - 2)) (drop 2 packet), s32 (i + 1))
          end in
        let maxCount := u32 (u64 (len packet - baseOffset) / 6) in
        lights ← read_records (Z.to_nat maxCount) packet baseOffset 0 [];
        Ok (mk_LightPacket tag lights).

(** ** Reference description of the format *)

(** The unsigned index a record's index byte becomes: [char] is signed. *)
Definition index_of_byte (b : Z) : Z := if b <? 128 then b else 2 ^ 32 - 256 + b.

(** The records of a byte sequence, a trailing fragment ignored. *)
Fixpoint records_of (l : bytes) : list LightColor :=
  match l with
  | t :: idx :: _ :: r :: g :: b :: rest =>
    (if t =? 1 then [mk_LightColor (index_of_byte idx) (mk_Color r g b)] else [])
    ++ records_of rest
  | _ => []
  end.

(** Splits at the first NUL. *)
Fixpoint split_nul (l : bytes) : option (bytes * bytes) :=
  match l with
  | [] => None
  | c :: l' => if c =? 0 then Some ([], l')
               else match split_nul l' with
                    | None => None
                    | Some (a, b) => Some (c :: a, b)
                    end
  end.

Definition packet_spec (packet : bytes) : LightPacket :=
  match packet with
  | 1 :: 0 :: body =>
    match body with
    | [] => LightPacket_default
    | _ :: rest =>
      match split_nul body with
      | Some (tag, recs) => mk_LightPacket tag (records_of recs)
      | None => mk_LightPacket [] (records_of rest)
      end
    end
  | _ => LightPacket_default
  end.

(** What a client sends. *)
Definition encode_light (l : LightColor) : bytes :=
  [1; lc_index l; 0; red (lc_color l); green (lc_color l); blue (lc_color l)].

Definition encode_packet (p : LightPacket) : bytes :=
  1 :: 0 :: lp_tag p ++ 0 :: concat (encode_light <$> lp_lights p).

(** ** Facts *)

Lemma span_at_lookup packet (i : nat) c : packet !! i = Some c -> span_at packet (Z.of_nat i) = Ok c.
Proof.
  intros H. pose proof (lookup_lt_Some _ _ _ H). unfold span_at, len.
  destruct (Z.leb_spec 0 (Z.of_nat i)); [|lia].
  destruct (Z.ltb_spec (Z.of_nat i) (Z.of_nat (length packet))); [|lia].
  simpl. by rewrite Nat2Z.id, H.
Qed.

Lemma span_at_app pre c l i : i = len pre -> span_at (pre ++ c :: l) i = Ok c.
Proof.
  intros ->. apply span_at_lookup. rewrite lookup_app_r by lia. by rewrite Nat.sub_diag.
Qed.

Lemma span_at_off pre l (k : nat) c :
  l !! k = Some c -> span_at (pre ++ l) (len pre + Z.of_nat k) = Ok c.
Proof.
  intros H. unfold len. rewrite <- Nat2Z.inj_add. apply span_at_lookup.
  rewrite lookup_app_r by lia. by replace (length pre + k - length pre)%nat with k by lia.
Qed.

Lemma schar_eq b k : is_byte b -> 0 <= k < 128 -> (schar b =? k) = (b =? k).
Proof.
  unfold schar, is_byte. intros. destruct (Z.ltb_spec b 128); [done|].
  destruct (Z.eqb_spec (b - 256) k), (Z.eqb_spec b k); lia || done.
Qed.

Lemma u8_schar b : is_byte b -> u8 (schar b) = b.
Proof. unfold u8, schar, is_byte. intros. destruct (Z.ltb_spec b 128); dlia. Qed.

Lemma u32_schar b : is_byte b -> u32 (schar b) = index_of_byte b.
Proof.
  unfold u32, schar, is_byte, index_of_byte. intros. destruct (Z.ltb_spec b 128); dlia.
Qed.

Lemma scan_tag_spec fuel pre l :
  all_bytes l -> (length l <= fuel)%nat -> len (pre ++ l) < 2 ^ 31 ->
  scan_tag fuel (pre ++ l) (len pre) =
    Ok (match split_nul l with Some (a, _) => Some (len pre + len a) | None => None end).
Proof.
  intros Hb. revert pre fuel. induction Hb as [|c l Hc _ IH]; intros pre fuel Hf Hl.
  - destruct fuel; [done|]. cbn [scan_tag]. rewrite app_nil_r.
    destruct (Z.ltb_spec (len pre) (len pre)); [lia|done].
  - simpl in Hf. destruct fuel as [|fuel]; [lia|]. cbn [scan_tag split_nul].
    rewrite len_app, len_cons in Hl. pose proof (len_nonneg l). pose proof (len_nonneg pre).
    destruct (Z.ltb_spec (len pre) (len (pre ++ c :: l)));
      [|rewrite len_app, len_cons in *; lia].
    rewrite span_at_app by done. cbn [mbind res_bind]. rewrite schar_eq by (done || lia).
    destruct (c =? 0); [by rewrite len_nil, Z.add_0_r|].
    replace (pre ++ c :: l) with ((pre ++ [c]) ++ l) by by rewrite <- app_assoc.
    rewrite u32_small by lia.
    replace (len pre + 1) with (len (pre ++ [c])) by (rewrite len_app; done).
    rewrite IH by (try lia; rewrite !len_app, len_cons, len_nil; lia).
    destruct (split_nul l) as [[a b]|]; [|done].
    rewrite len_app, len_cons, len_cons, len_nil. do 2 f_equal. lia.
Qed.

Lemma split_nul_Some l a b : split_nul l = Some (a, b) -> l = a ++ 0 :: b /\ 0 ∉ a.
Proof.
  revert a b. induction l as [|c l IH]; intros a b; simpl; [done|].
  destruct (Z.eqb_spec c 0) as [->|].
  - intros [= <- <-]. split; [done|]. apply not_elem_of_nil.
  - destruct (split_nul l) as [[a' b']|]; [|done]. intros [= <- <-].
    destruct (IH _ _ eq_refl) as [-> Hn]. split; [done|].
    rewrite not_elem_of_cons. done.
Qed.

Lemma split_nul_app a b : 0 ∉ a -> split_nul (a ++ 0 :: b) = Some (a, b).
Proof.
  induction a as [|c a IH]; simpl; [done|]. rewrite not_elem_of_cons. intros [Hc Ha].
  destruct (Z.eqb_spec c 0); [congruence|]. by rewrite IH.
Qed.

Lemma read_record_spec pre t i x r g b rest :
  all_bytes [t; i; x; r; g; b] ->
  read_record (pre ++ t :: i :: x :: r :: g :: b :: rest) (len pre) =
    Ok (if t =? 1 then Some (mk_LightColor (index_of_byte i) (mk_Color r g b)) else None).
Proof.
  unfold all_bytes. rewrite !Forall_cons. intros (Ht & Hi & Hx & Hr & Hg & Hb & _).
  unfold read_record.
  rewrite (span_at_off _ _ 0 t), (span_at_off _ _ 1 i), (span_at_off _ _ 3 r),
    (span_at_off _ _ 4 g), (span_at_off _ _ 5 b) by done.
  cbn [mbind res_bind]. rewrite schar_eq by (done || lia). destruct (t =? 1); [|done].
  cbn [negb]. by rewrite !u8_schar, u32_schar.
Qed.

Lemma read_records_spec n pre l acc base i :
  all_bytes l -> Z.of_nat n = len l / 6 -> 0 <= base -> 0 <= i ->
  len pre = base + i * 6 -> len (pre ++ l) < 2 ^ 31 ->
  read_records n (pre ++ l) base i acc = Ok (acc ++ records_of l).
Proof.
  revert pre l acc i. induction n as [|n IH]; intros pre l acc i Hb Hn Hba Hi Hp Hl.
  - assert (len l < 6) as Hs by (pose proof (len_nonneg l); dlia). unfold len in Hs.
    destruct l as [|? [|? [|? [|? [|? [|? ?]]]]]]; simpl in *; try lia; by rewrite app_nil_r.
  - rewrite len_app in Hl. assert (6 <= len l) as Hs by (pose proof (len_nonneg l); dlia).
    destruct l as [|t [|ix [|x [|r [|g [|b l]]]]]]; try (unfold len in Hs; simpl in Hs; lia).
    cbn [read_records records_of]. rewrite s32_small by (pose proof (len_nonneg pre); lia).
    rewrite <- Hp.
    change (t :: ix :: x :: r :: g :: b :: l) with ([t; ix; x; r; g; b] ++ l) in Hb.
    apply Forall_app in Hb as [Hb6 Hb].
    rewrite read_record_spec by done. cbn [mbind res_bind].
    rewrite !len_cons in Hl, Hn. pose proof (len_nonneg l). pose proof (len_nonneg pre).
    rewrite u32_small by lia.
    replace (pre ++ t :: ix :: x :: r :: g :: b :: l)
      with ((pre ++ [t; ix; x; r; g; b]) ++ l) by by rewrite <- app_assoc.
    rewrite IH; [|done|dlia|done|lia| |rewrite !len_app, !len_cons, len_nil; lia].
    + destruct (t =? 1); [|done]. simpl. by rewrite <- app_assoc.
    + rewrite len_app, !len_cons, len_nil. lia.
Qed.

Lemma read_tail pre l :
  all_bytes l -> len (pre ++ l) < 2 ^ 31 ->
  read_records (Z.to_nat (u32 (u64 (len (pre ++ l) - len pre) / 6))) (pre ++ l) (len pre) 0 []
    = Ok (records_of l).
Proof.
  intros Hb Hl. rewrite len_app in Hl |- *.
  replace (len pre + len l - len pre) with (len l) by lia.
  pose proof (len_nonneg l). pose proof (len_nonneg pre).
  rewrite u64_small, u32_small by dlia.
  rewrite read_records_spec; [done|done| |lia|lia|lia|rewrite len_app; lia].
  rewrite Z2Nat.id; [done|dlia].
Qed.

Lemma parse_header packet :
  all_bytes packet -> 3 <= len packet ->
  (exists c rest, packet = 1 :: 0 :: c :: rest) \/
  (parseLightPacket packet = Ok LightPacket_default /\ packet_spec packet = LightPacket_default).
Proof.
  intros Hb Hl. unfold len in Hl.
  destruct packet as [|v [|t [|c rest]]]; try (simpl in Hl; lia).
  unfold all_bytes in Hb. rewrite !Forall_cons in Hb. destruct Hb as (Hv & Ht & Hc & Hr).
  destruct (decide (v = 1)) as [->|Hv1]; [destruct (decide (t = 0)) as [->|Ht0]|]; [eauto|right..].
  - split.
    + unfold parseLightPacket. destruct (Z.ltb_spec (len (1 :: t :: c :: rest)) 3); [done|].
      change (span_at (1 :: t :: c :: rest) 0) with (@Ok exn Z 1).
      rewrite (span_at_lookup _ 1 t) by done. cbn [mbind res_bind negb Z.eqb].
      change (schar 1 =? 1) with true. cbn [negb].
      rewrite schar_eq by (done || lia). by rewrite (proj2 (Z.eqb_neq t 0)).
    + unfold packet_spec. by destruct t.
  - split.
    + unfold parseLightPacket. destruct (Z.ltb_spec (len (v :: t :: c :: rest)) 3); [done|].
      rewrite (span_at_lookup _ 0 v) by done. cbn [mbind res_bind].
      rewrite schar_eq by (done || lia). by rewrite (proj2 (Z.eqb_neq v 1)).
    + unfold packet_spec. destruct v as [|[]|]; done.
Qed.

Lemma parseLightPacket_body c rest :
  all_bytes (c :: rest) -> len (1 :: 0 :: c :: rest) < 2 ^ 31 ->
  parseLightPacket (1 :: 0 :: c :: rest) = Ok (packet_spec (1 :: 0 :: c :: rest)).
Proof.
  intros Hb Hl. set (body := c :: rest) in *.
  unfold parseLightPacket.
  destruct (Z.ltb_spec (len (1 :: 0 :: body)) 3) as [H3|_].
  { exfalso. subst body. rewrite !len_cons in H3. pose proof (len_nonneg rest). lia. }
  rewrite (span_at_lookup _ 0 1), (span_at_lookup _ 1 0) by done.
  cbn [mbind res_bind]. change (negb (schar 1 =? 1)) with false.
  change (negb (schar 0 =? 0)) with false. cbv iota.
  change (1 :: 0 :: body) with ([1; 0] ++ body) in *. change 2 with (len [1; 0]) at 1.
  rewrite scan_tag_spec; [|done|rewrite length_app; lia|done]. cbn [mbind res_bind].
  assert (packet_spec ([1; 0] ++ body) =
    match split_nul body with
    | Some (tag, recs) => mk_LightPacket tag (records_of recs)
    | None => mk_LightPacket [] (records_of rest) end) as ->.
  { unfold packet_spec, body. cbn [app]. by destruct (split_nul (c :: rest)) as [[]|]. }
  destruct (split_nul body) as [[tag recs]|] eqn:E.
  - apply split_nul_Some in E as [E _]. rewrite E in *. clear E.
    pose proof (len_nonneg tag). pose proof (len_nonneg recs).
    rewrite !len_app, !len_cons, len_nil in Hl. change (len [1; 0]) with 2.
    replace (Z.to_nat (2 + len tag - 2)) with (length tag) by (unfold len; lia).
    change (drop 2 ([1; 0] ++ tag ++ 0 :: recs)) with (tag ++ 0 :: recs).
    rewrite take_app_length. rewrite s32_small by lia.
    replace ([1; 0] ++ tag ++ 0 :: recs) with (([1; 0] ++ tag ++ [0]) ++ recs)
      by by rewrite <- !app_assoc.
    replace (2 + len tag + 1) with (len ([1; 0] ++ tag ++ [0]))
      by (rewrite !len_app, !len_cons, len_nil; lia).
    rewrite read_tail; [done| |rewrite !len_app, !len_cons, len_nil; lia].
    apply Forall_app in Hb as [_ Hb]. by inversion Hb.
  - subst body. change ([1; 0] ++ c :: rest) with ([1; 0; c] ++ rest) in *.
    change 3 with (len [1; 0; c]). rewrite read_tail; [done| |done]. by inversion Hb.
Qed.

Lemma parse_packet_eq packet :
  all_bytes packet -> len packet < 2 ^ 31 ->
  parseLightPacket packet = Ok (packet_spec packet).
Proof.
  intros Hb Hl. destruct (Z.ltb_spec (len packet) 3) as [H3|H3].
  - unfold parseLightPacket. destruct (Z.ltb_spec (len packet) 3); [|lia]. f_equal.
    unfold packet_spec. destruct packet as [|[|[]|] [|[] [|]]]; try done.
    all: exfalso; unfold len in H3; simpl in H3; lia.
  - destruct (parse_header packet Hb H3) as [(c & rest & ->)|[-> ->]]; [|done].
    apply parseLightPacket_body; [|done]. by inversion Hb as [|?? _ Hb']; inversion Hb'.
Qed.

(** C34: what a packet means.  On every byte sequence shorter than 2 GiB the
    parser returns (no access outside the span, both loops end) and its result
    is the reference reading of the format: nothing unless the packet starts
    with 1, 0 and has a third byte; the tag up to the first NUL (empty and one
    byte skipped when there is none); the complete six-byte records that
    follow, those of type 1 only, in order. *)
Theorem parseLightPacket_spec packet :
  all_bytes packet -> len packet < 2 ^ 31 ->
  parseLightPacket packet = Ok (packet_spec packet).
Proof. apply parse_packet_eq. Qed.

Lemma parseLightPacket_spec_witness :
  parseLightPacket [1; 0; 101; 0; 1; 3; 0; 255; 7; 9; 2; 0] =
    Ok (mk_LightPacket [101] [mk_LightColor 3 (mk_Color 255 7 9)]).
Proof.
  rewrite (parseLightPacket_spec [1; 0; 101; 0; 1; 3; 0; 255; 7; 9; 2; 0]).
  - reflexivity.
  - apply (bool_decide_unpack _). vm_compute. exact I.
  - vm_compute. reflexivity.
Defined.

Definition light_wf (l : LightColor) : Prop := 0 <= lc_index l < 128 /\ color_ok (lc_color l).

#[global] Instance light_wf_dec l : Decision (light_wf l).
Proof. unfold light_wf. apply _. Defined.

Lemma records_of_encode ls : Forall light_wf ls -> records_of (concat (encode_light <$> ls)) = ls.
Proof.
  induction 1 as [|[i [r g b]] ls [Hi _] _ IH]; [done|]. csimpl. rewrite IH. simpl in *.
  unfold index_of_byte. destruct (Z.ltb_spec i 128); [done|lia].
Qed.

Lemma encode_bytes p : all_bytes (lp_tag p) -> Forall light_wf (lp_lights p) ->
  all_bytes (encode_packet p).
Proof.
  intros Ht Hl. unfold all_bytes, encode_packet. rewrite !Forall_cons, Forall_app, Forall_cons.
  split_and!; try (unfold is_byte; lia); [done|].
  induction Hl as [|[i [r g b]] ls (Hi & ? & ? & ?) _ IH]; [apply Forall_nil_2|]. csimpl.
  rewrite !Forall_cons. simpl in *. split_and!; try done; unfold is_byte in *; lia.
Qed.

Lemma packet_spec_encode p : 0 ∉ lp_tag p -> Forall light_wf (lp_lights p) ->
  packet_spec (encode_packet p) = p.
Proof.
  intros H0 Hl. unfold packet_spec, encode_packet.
  destruct (lp_tag p ++ 0 :: concat (encode_light <$> lp_lights p)) as [|c rest] eqn:E;
    [by destruct (lp_tag p)|].
  rewrite <- E, split_nul_app by done. rewrite records_of_encode by done. by destruct p.
Qed.

(** Round trip of the wire format.  A packet of a NUL-free tag and lights
    with indices below 128, encoded as the clients do, is parsed back to
    itself. *)
Theorem lightpacket_roundtrip p :
  all_bytes (lp_tag p) -> 0 ∉ lp_tag p -> Forall light_wf (lp_lights p) ->
  len (encode_packet p) < 2 ^ 31 ->
  parseLightPacket (encode_packet p) = Ok p.
Proof.
  intros Ht H0 Hl Hlen. rewrite parse_packet_eq; [|by apply encode_bytes|done].
  by rewrite packet_spec_encode.
Qed.

Lemma lightpacket_roundtrip_witness :
  let p := mk_LightPacket (str "epeli") [mk_LightColor 0 (mk_Color 255 0 0);
                                         mk_LightColor 127 (mk_Color 1 2 3)] in
  parseLightPacket (encode_packet p) = Ok p.
Proof.
  intros p. apply (lightpacket_roundtrip p).
  - apply (bool_decide_unpack _). vm_compute. exact I.
  - apply (bool_decide_unpack _). vm_compute. exact I.
  - apply (bool_decide_unpack _). vm_compute. exact I.
  - vm_compute. reflexivity.
Defined.

(** C40: light indices from 128 up are out of reach.  Because the index byte is
    read through a signed [char], a record for light 128..255 is parsed as an
    index of at least 2^32 - 128, so no light of a controller whose lights are
    numbered below [INT_MAX] (all a configuration can define) changes. *)
Theorem high_index_unreachable d b c :
  128 <= b < 256 -> color_ok c ->
  (forall k, is_Some (lights (lightConfig d) !! k) -> k < INT_MAX) ->
  parseLightPacket (encode_packet (mk_LightPacket [] [mk_LightColor b c])) =
    Ok (mk_LightPacket [] [mk_LightColor (2 ^ 32 - 256 + b) c]) /\
  setLightColor d (2 ^ 32 - 256 + b) c = Ok d.
Proof.
  intros Hb (Hr & Hg & Hbl) Hd. split.
  - unfold encode_packet. destruct c as [cr cg cb]. cbn in *.
    rewrite parseLightPacket_body.
    + cbn. unfold index_of_byte. destruct (Z.ltb_spec b 128); [lia|done].
    + unfold all_bytes. rewrite !Forall_cons. split_and!; try done; unfold is_byte; lia.
    + done.
  - apply setLightColor_unknown. apply eq_None_not_Some. intros H.
    specialize (Hd _ H). unfold INT_MAX in Hd. lia.
Qed.

Lemma high_index_unreachable_witness :
  setLightColor sample_dmx (2 ^ 32 - 256 + 200) (mk_Color 1 2 3) = Ok sample_dmx.
Proof.
  apply (high_index_unreachable sample_dmx 200 (mk_Color 1 2 3)).
  - lia.
  - unfold color_ok, is_byte; simpl; lia.
  - intros k [l Hk]. unfold sample_dmx, sample_lights in Hk. simpl in Hk.
    unfold INT_MAX. destruct (decide (k = 0)) as [->|]; [lia|].
    destruct (decide (k = 1)) as [->|]; [lia|].
    rewrite !lookup_insert_ne in Hk by done. rewrite lookup_empty in Hk. done.
Defined.
