(* ===== verification/MonitorJson.v ===== *)
(** * The JSON text sent to the monitors

    The flat object [Serveri::updateMonitorMessage] builds (a [std::map] from
    keys to an unsigned number or strings, so kept in key order) and the part
    of nlohmann's serializer it reaches: [dump()] without indentation and
    [dump_escaped] on ASCII text.  A byte from 128 up would enter the UTF-8
    decoder, which is not modelled ([None]); the server's theorems show it is
    never reached. *)

From S2P Require Import Prelude CLib.

Inductive jval := JNum (n : Z) | JStr (s : bytes).

(** [std::less<std::string>]: bytewise, a proper prefix first. *)
Fixpoint key_lt (a b : bytes) : bool :=
  match a, b with
  | _, [] => false
  | [], _ :: _ => true
  | x :: a', y :: b' => (x <? y) || ((x =? y) && key_lt a' b')
  end.

(** [j[key] = v] on the ordered map. *)
Fixpoint obj_set (o : list (bytes * jval)) (key : bytes) (v : jval) : list (bytes * jval) :=
  match o with
  | [] => [(key, v)]
  | (k, w) :: o' =>
    if beqb k key then (k, v) :: o'
    else if key_lt key k then (key, v) :: o
    else (k, w) :: obj_set o' key v
  end.

(** [dump_escaped] of one ASCII code point. *)
Definition dump_char (c : Z) : option bytes :=
  if c =? 8 then Some [92; 98]
  else if c =? 9 then Some [92; 116]
  else if c =? 10 then Some [92; 110]
  else if c =? 12 then Some [92; 102]
  else if c =? 13 then Some [92; 114]
  else if c =? 34 then Some [92; 34]
  else if c =? 92 then Some [92; 92]
  else if c <=? 31 then Some ([92; 117; 48; 48] ++ hex02 c)
  else if c <? 128 then Some [c]
  else None.

Fixpoint dump_escaped (s : bytes) : option bytes :=
  match s with
  | [] => Some []
  | c :: s' =>
    match dump_char c, dump_escaped s' with
    | Some a, Some b => Some (a ++ b)
    | _, _ => None
    end
  end.

Definition dump_val (v : jval) : option bytes :=
  match v with
  | JNum n => Some (to_string n)
  | JStr s => match dump_escaped s with Some t => Some ([34] ++ t ++ [34]) | None => None end
  end.

(** The members, with a comma between two. *)
Fixpoint dump_members (o : list (bytes * jval)) : option bytes :=
  match o with
  | [] => Some []
  | (k, v) :: o' =>
    match dump_escaped k, dump_val v, dump_members o' with
    | Some k', Some v', Some r =>
      Some ([34] ++ k' ++ [34; 58] ++ v' ++ (match o' with [] => [] | _ => 44 :: r end))
    | _, _, _ => None
    end
  end.

Definition dump (o : list (bytes * jval)) : option bytes :=
  match dump_members o with
  | Some m => Some ([123] ++ m ++ [125])
  | None => None
  end.

(** ** Facts *)

(** Text that is written as it is: printable ASCII without quote or
    backslash. *)
Definition plain (c : Z) : Prop := 32 <= c < 128 /\ c <> 34 /\ c <> 92.

#[global] Instance plain_dec c : Decision (plain c).
Proof. unfold plain. apply _. Defined.

Lemma dump_char_plain c : plain c -> dump_char c = Some [c].
Proof.
  unfold plain, dump_char. intros.
  repeat match goal with |- context [c =? ?k] => destruct (Z.eqb_spec c k); [lia|] end.
  destruct (Z.leb_spec c 31); [lia|]. destruct (Z.ltb_spec c 128); [done|lia].
Qed.

Lemma dump_escaped_plain s : Forall plain s -> dump_escaped s = Some s.
Proof.
  induction 1 as [|c s Hc _ IH]; [done|]. cbn [dump_escaped].
  by rewrite dump_char_plain, IH.
Qed.

Definition plain_val (v : jval) : Prop :=
  match v with JNum _ => True | JStr s => Forall plain s end.

(** A member as it is written. *)
Definition member_text (kv : bytes * jval) : bytes :=
  [34] ++ kv.1 ++ [34; 58] ++
  match kv.2 with JNum n => to_string n | JStr s => [34] ++ s ++ [34] end.

Fixpoint members_text (o : list (bytes * jval)) : bytes :=
  match o with
  | [] => []
  | [kv] => member_text kv
  | kv :: o' => member_text kv ++ 44 :: members_text o'
  end.

Lemma dump_plain o :
  Forall (fun kv => Forall plain kv.1 /\ plain_val kv.2) o ->
  dump o = Some ([123] ++ members_text o ++ [125]).
Proof.
  intros H. unfold dump.
  assert (dump_members o = Some (members_text o)) as ->; [|done].
  induction H as [|[k v] o [Hk Hv] _ IH]; [done|]. cbn [dump_members].
  rewrite dump_escaped_plain by done.
  assert (dump_val v = Some (match v with JNum n => to_string n | JStr s => [34] ++ s ++ [34] end))
    as ->.
  { destruct v as [|s]; [done|]. simpl in *. by rewrite dump_escaped_plain. }
  rewrite IH. destruct o as [|kv o]; unfold member_text; cbn [fst snd members_text].
  - by rewrite !app_nil_r.
  - unfold member_text. cbn [fst snd]. by rewrite <- !app_assoc.
Qed.

Lemma obj_set_Forall (P : bytes * jval -> Prop) o k v :
  Forall P o -> P (k, v) -> Forall P (obj_set o k v).
Proof.
  intros Ho Hv. induction Ho as [|[k' w] o Hkw Ho IH]; cbn [obj_set]; [by repeat constructor|].
  destruct (beqb k' k) eqn:E; [apply beqb_true in E as ->; by constructor|].
  destruct (key_lt k k'); repeat constructor; done.
Qed.

(** The value of a key in an association list. *)
Fixpoint obj_get (o : list (bytes * jval)) (key : bytes) : option jval :=
  match o with
  | [] => None
  | (k, v) :: o' => if beqb k key then Some v else obj_get o' key
  end.

Lemma obj_get_set_eq o k v : obj_get (obj_set o k v) k = Some v.
Proof.
  induction o as [|[k' w] o IH]; cbn [obj_set obj_get].
  { by rewrite (proj2 (beqb_true k k)). }
  destruct (beqb k' k) eqn:E; cbn [obj_get]; [by rewrite E|].
  destruct (key_lt k k'); cbn [obj_get]; [by rewrite (proj2 (beqb_true k k))|]. by rewrite E.
Qed.

Lemma obj_get_set_ne o k k' v : k <> k' -> obj_get (obj_set o k v) k' = obj_get o k'.
Proof.
  intros Hne. induction o as [|[k0 w] o IH]; cbn [obj_set obj_get].
  { by rewrite (proj2 (beqb_false k k')). }
  destruct (beqb k0 k) eqn:E; cbn [obj_get].
  - apply beqb_true in E as ->. by rewrite (proj2 (beqb_false k k')).
  - destruct (key_lt k k0); cbn [obj_get]; [by rewrite (proj2 (beqb_false k k'))|].
    destruct (beqb k0 k'); [done|apply IH].
Qed.

(** Keys strictly increasing: the order a [std::map] iterates in. *)
Fixpoint key_sorted (o : list (bytes * jval)) : Prop :=
  match o with
  | [] => True
  | (k, _) :: o' => Forall (fun kv => key_lt k kv.1 = true) o' /\ key_sorted o'
  end.

Lemma key_lt_trans a b c : key_lt a b = true -> key_lt b c = true -> key_lt a c = true.
Proof.
  revert b c. induction a as [|x a IH]; intros [|y b] [|z c]; cbn [key_lt]; try done.
  rewrite !orb_true_iff, !andb_true_iff, !Z.ltb_lt, !Z.eqb_eq. intros [?|[-> ?]] [?|[-> ?]].
  - left. lia.
  - by left.
  - by left.
  - right. eauto.
Qed.

Lemma key_lt_total a b : beqb a b = false -> key_lt b a = false -> key_lt a b = true.
Proof.
  revert b. induction a as [|x a IH]; intros [|y b]; cbn [key_lt]; try done.
  rewrite beqb_cons. destruct (Z.eqb_spec x y) as [->|Hne].
  - rewrite Z.ltb_irrefl, Z.eqb_refl. cbn [orb andb]. apply IH.
  - destruct (Z.ltb_spec x y), (Z.ltb_spec y x); done || lia.
Qed.

Lemma obj_set_sorted o k v : key_sorted o -> key_sorted (obj_set o k v).
Proof.
  induction o as [|[k' w] o IH]; cbn [obj_set key_sorted]; [by repeat constructor|].
  intros [Hk Ho]. destruct (beqb k' k) eqn:E; [done|].
  destruct (key_lt k k') eqn:E2; cbn [key_sorted].
  - split; [|done]. constructor; [done|]. eapply Forall_impl; [exact Hk|].
    simpl. intros kv. by apply key_lt_trans.
  - split; [|by apply IH]. apply obj_set_Forall; [done|]. by apply key_lt_total.
Qed.
