(* ===== verification/Serveri.v ===== *)
(** * The server (valoserveri/serveri.cpp)

    The [Serveri] object, its handlers and one round of the poll loop.  What
    the kernel and libwebsockets do is an input: the result of [poll], the
    datagram [recvfrom] returned, and for every call into libwebsockets the
    callbacks it makes back into the server, in order.  What the server does
    to the outside is an [effect]: log lines, frames written to the tty,
    requests for a writeable callback and websocket messages. *)

From S2P Require Import Prelude CLib Ini Config Logger Dmx LightPacket MonitorJson.

(** ** Data *)

Definition LWS_PRE : nat := 16.
Definition POLLIN : Z := 1.
Definition POLLERR : Z := 8.

Definition tagWhitelist : bytes :=
  str "abcdefghijklmnopqrstuvwxyzABCDEFGHJKLMNOPQRSTUVWXYZ 0123456789!#%&/()[]{}=?+-*,.;:|<>".

Record LightState := mk_LightState {
  ls_tag : bytes;
  ls_lights : gmap Z Color;
}.

Record pollfd := mk_pollfd { p_fd : Z; p_events : Z; p_revents : Z }.

(** A [struct lws *] is a number. *)
Record Serveri := mk_Serveri {
  UDPfd : Z;
  dmx : DMXController;
  whitelist : gset Z;
  currentState : LightState;
  buflen : nat;
  monitorConnections : gmap Z bytes;
  monitorMessage : bytes;
  pollfds : list pollfd;
  lightsDirty : bool;
}.

(** An argument of a log message. *)
Inductive farg := FNum (n : Z) | FStr (s : bytes).

Inductive effect :=
| E_log (l : LogLevel) (format : bytes) (args : list farg)
| E_tty_write (fd : Z) (frame : bytes)
| E_on_writable (wsi : Z)
| E_ws_write (wsi : Z) (message : bytes)
| E_close (fd : Z).

(** Field updates. *)
Definition set_dmx (d : DMXController) (s : Serveri) : Serveri :=
  mk_Serveri (UDPfd s) d (whitelist s) (currentState s) (buflen s) (monitorConnections s)
    (monitorMessage s) (pollfds s) (lightsDirty s).
Definition set_state (st : LightState) (s : Serveri) : Serveri :=
  mk_Serveri (UDPfd s) (dmx s) (whitelist s) st (buflen s) (monitorConnections s)
    (monitorMessage s) (pollfds s) (lightsDirty s).
Definition set_connections (c : gmap Z bytes) (s : Serveri) : Serveri :=
  mk_Serveri (UDPfd s) (dmx s) (whitelist s) (currentState s) (buflen s) c
    (monitorMessage s) (pollfds s) (lightsDirty s).
Definition set_message (m : bytes) (s : Serveri) : Serveri :=
  mk_Serveri (UDPfd s) (dmx s) (whitelist s) (currentState s) (buflen s) (monitorConnections s)
    m (pollfds s) (lightsDirty s).
Definition set_pollfds (p : list pollfd) (s : Serveri) : Serveri :=
  mk_Serveri (UDPfd s) (dmx s) (whitelist s) (currentState s) (buflen s) (monitorConnections s)
    (monitorMessage s) p (lightsDirty s).
Definition set_dirty (b : bool) (s : Serveri) : Serveri :=
  mk_Serveri (UDPfd s) (dmx s) (whitelist s) (currentState s) (buflen s) (monitorConnections s)
    (monitorMessage s) (pollfds s) b.

(** What a member function does: the new object and the effects, or the
    exception that ends the program. *)
Abbreviation outcome := (res exn (Serveri * list effect)).

(** Sequencing: the effects of both, in order. *)
Definition andThen (o : outcome) (f : Serveri -> outcome) : outcome :=
  '(s, e1) ← o;
  '(s, e2) ← f s;
  Ok (s, e1 ++ e2).

Arguments andThen : simpl never.

(** The same handler for each input of a list, left to right. *)
Fixpoint for_each {A} (f : A -> Serveri -> outcome) (l : list A) (s : Serveri) : outcome :=
  match l with
  | [] => Ok (s, [])
  | a :: l' => andThen (f a s) (for_each f l')
  end.

(** ** The poll set *)

Definition addFD (fd events : Z) (s : Serveri) : outcome :=
  Ok (set_pollfds (pollfds s ++ [mk_pollfd fd events 0]) s,
      [E_log Debug (str "addFD {} {}") [FNum fd; FNum events]]).

(** The erase loop. *)
Fixpoint erase_fd (fd : Z) (ps : list pollfd) : list pollfd :=
  match ps with
  | [] => []
  | p :: ps' => if p_fd p =? fd then erase_fd fd ps' else p :: erase_fd fd ps'
  end.

Definition deleteFD (fd : Z) (s : Serveri) : outcome :=
  Ok (set_pollfds (erase_fd fd (pollfds s)) s, [E_log Debug (str "deleteFD {}") [FNum fd]]).

Fixpoint set_fd_events (fd events : Z) (ps : list pollfd) : list pollfd :=
  match ps with
  | [] => []
  | p :: ps' =>
    (if p_fd p =? fd then mk_pollfd (p_fd p) events (p_revents p) else p)
    :: set_fd_events fd events ps'
  end.

Definition setFDEvents (fd events : Z) (s : Serveri) : outcome :=
  Ok (set_pollfds (set_fd_events fd events (pollfds s)) s,
      [E_log Debug (str "setModeFD {} {}") [FNum fd; FNum events]]).

(** ** The monitor message *)

(** [lights[i]] of the [unordered_map]: a missing entry is created. *)
Definition light_at (i : Z) (l : gmap Z Color) : Color * gmap Z Color :=
  match l !! i with
  | Some c => (c, l)
  | None => (Color_default, <[i := Color_default]> l)
  end.

(** The format [{:02x}{:02x}{:02x}]. *)
Definition color_hex (c : Color) : bytes := hex02 (red c) ++ hex02 (green c) ++ hex02 (blue c).

Definition light_key (i : Z) : bytes := str "light" ++ to_string i.

(** The loop over the lights [i], ..., [i + n - 1]. *)
Fixpoint add_lights (n : nat) (i : Z) (l : gmap Z Color) (j : list (bytes * jval))
  : gmap Z Color * list (bytes * jval) :=
  match n with
  | O => (l, j)
  | S n' =>
    let '(c, l) := light_at i l in
    add_lights n' (i + 1) l (obj_set j (light_key i) (JStr (color_hex c)))
  end.

(** [monitorMessage.resize(LWS_PRE + size, 0)] and the copy behind the
    padding. *)
Definition store_message (old s : bytes) : bytes :=
  take LWS_PRE (old ++ replicate LWS_PRE 0) ++ s.

Definition updateMonitorMessage (s : Serveri) : outcome :=
  let numLights := Z.of_nat (size (ls_lights (currentState s))) in
  let j := obj_set [] (str "numLights") (JNum numLights) in
  let j := obj_set j (str "tag") (JStr (ls_tag (currentState s))) in
  let '(l, j) := add_lights (Z.to_nat numLights) 0 (ls_lights (currentState s)) j in
  match dump j with
  | None => Err (runtime_error (str "type_error.316"))
  | Some text =>
    Ok (set_message (store_message (monitorMessage s) text)
          (set_state (mk_LightState (ls_tag (currentState s)) l) s), [])
  end.

(** ** Monitor connections *)

(** [addr] is the peer name [lws_get_peer_simple] wrote. *)
Definition addMonitor (wsi : Z) (addr : bytes) (s : Serveri) : outcome :=
  if wsi =? 0 then Err assertion_failed
  else
    match monitorConnections s !! wsi with
    | None => Ok (set_connections (<[wsi := addr]> (monitorConnections s)) s,
                  [E_log Debug (str "Added monitoring connection {}") [FStr addr]])
    | Some _ => Ok (s, [E_log Error (str "Tried to add duplicate monitoring connection {}")
                          [FStr addr]])
    end.

Definition deleteMonitor (wsi : Z) (s : Serveri) : outcome :=
  if wsi =? 0 then Err assertion_failed
  else
    match monitorConnections s !! wsi with
    | Some addr => Ok (set_connections (delete wsi (monitorConnections s)) s,
                       [E_log Debug (str "Deleted monitoring connection {}") [FStr addr]])
    | None => Ok (s, [E_log Error (str "Tried to delete nonexistent monitoring connection") []])
    end.

(** ** Light packets *)

(** The loop that erases the characters outside the whitelist. *)
Fixpoint filter_tag (w : gset Z) (tag : bytes) : bytes :=
  match tag with
  | [] => []
  | c :: tag' => if decide (c ∈ w) then c :: filter_tag w tag' else filter_tag w tag'
  end.

(** The body of the loop over the packet's lights. *)
Definition apply_light (l : LightColor) (s : Serveri) : outcome :=
  let log := E_log Debug (str "{}: {} {} {}")
    [FNum (lc_index l); FNum (red (lc_color l)); FNum (green (lc_color l));
     FNum (blue (lc_color l))] in
  let bad := match lights (lightConfig (dmx s)) !! lc_index l with
             | None => [E_log Debug (str "Bad light index {}") [FNum (lc_index l)]]
             | Some _ => []
             end in
  d ← setLightColor (dmx s) (lc_index l) (lc_color l);
  let st := currentState s in
  let st := match ls_lights st !! lc_index l with
            | Some _ => mk_LightState (ls_tag st) (<[lc_index l := lc_color l]> (ls_lights st))
            | None => st
            end in
  Ok (set_state st (set_dmx d s), log :: bad).

(** [Serveri::lightPacket] *)
Definition lightPacket (buf : bytes) (s : Serveri) : outcome :=
  packet ← parseLightPacket buf;
  let log := E_log Info (str "number lights in packet: {}")
    [FNum (Z.of_nat (length (lp_lights packet)))] in
  let tag := filter_tag (whitelist s) (lp_tag packet) in
  let s := set_state (mk_LightState tag (ls_lights (currentState s))) s in
  '(s, es) ← for_each apply_light (lp_lights packet) s;
  Ok (set_dirty true s, log :: es).

(** ** Callbacks from libwebsockets *)

(** The reasons [callback] and [callback_monitor] distinguish, with what the
    library passes; [R_writeable] carries the padding [lws_write] leaves in
    front of the message. *)
Inductive light_reason :=
| R_protocol_init | R_established | R_closed | R_server_writeable
| R_receive (addr packet : bytes)
| R_add_poll_fd (fd events : Z)
| R_del_poll_fd (fd : Z)
| R_change_mode_poll_fd (fd events : Z)
| R_other (reason : Z).

Inductive monitor_reason :=
| M_established (addr : bytes) | M_closed | M_writeable (padding : bytes) | M_other (reason : Z).

(** [callback], the light protocol. *)
Definition callback (wsi : Z) (reason : light_reason) (s : Serveri) : outcome :=
  match reason with
  | R_protocol_init => Ok (s, [])
  | R_established => Ok (s, [])
  | R_closed => Ok (s, [])
  | R_server_writeable => Err assertion_failed
  | R_receive addr packet =>
    andThen (Ok (s, [E_log Debug (str "Received websocket packet from {}") [FStr addr]]))
      (lightPacket packet)
  | R_add_poll_fd fd events => addFD fd events s
  | R_del_poll_fd fd => deleteFD fd s
  | R_change_mode_poll_fd fd events => setFDEvents fd events s
  | R_other r => Ok (s, [E_log Debug (str "unhandled callback reason: {}") [FNum r]])
  end.

(** What [lws_callback_on_writable] calls back: the poll events of
    descriptors change. *)
Abbreviation mode_changes := (list (Z * Z)).

Definition callback_on_writable (wsi : Z) (changes : mode_changes) (s : Serveri) : outcome :=
  andThen (Ok (s, [E_on_writable wsi]))
    (for_each (fun '(fd, events) => callback wsi (R_change_mode_poll_fd fd events)) changes).

(** [callback_monitor], the monitor protocol. *)
Definition callback_monitor (wsi : Z) (reason : monitor_reason) (changes : mode_changes)
    (s : Serveri) : outcome :=
  match reason with
  | M_established addr => andThen (addMonitor wsi addr s) (callback_on_writable wsi changes)
  | M_closed => deleteMonitor wsi s
  | M_writeable padding =>
    let msg := drop LWS_PRE (monitorMessage s) in
    Ok (set_message (take LWS_PRE (padding ++ replicate LWS_PRE 0) ++ msg) s,
        [E_log Debug (str "monitor writeable") []; E_ws_write wsi msg])
  | M_other r => Ok (s, [E_log Debug (str "unhandled monitor callback reason: {}") [FNum r]])
  end.

(** One callback of the library, of either protocol. *)
Inductive lws_event :=
| L_light (wsi : Z) (reason : light_reason)
| L_monitor (wsi : Z) (reason : monitor_reason) (changes : mode_changes).

Definition handle_event (e : lws_event) (s : Serveri) : outcome :=
  match e with
  | L_light wsi r => callback wsi r s
  | L_monitor wsi r ch => callback_monitor wsi r ch s
  end.

(** ** Construction and destruction *)

Section Construct.

Context {C : Type} `{!IniSource C}.

(** The whitelist holds every element of the array, the terminating NUL
    included. *)
Definition make_whitelist : gset Z := list_to_set (tagWhitelist ++ [0]).

(** The results of the system calls and library calls of the constructor. *)
Record env := mk_env {
  env_open : bytes -> Z;
  env_socket : Z;
  env_bind : Z;
  (** the callbacks of [lws_create_context] and of the first [lws_service] *)
  env_create : list lws_event;
}.

(** [Serveri::Serveri] *)
Definition Serveri_new (config : C) (e : env) : outcome :=
  d ← DMXController_new config (env_open e);
  let cs := mk_LightState [] ((fun _ => Color_default) <$> lights (getLightsConfig d)) in
  port ← get_uint config (str "global") (str "udpPort") 9909;
  let log := E_log Info (str "udp fd: {}") [FNum (env_socket e)] in
  if negb (env_bind e =? 0) then Err (runtime_error (str "bind error"))
  else
    let s := mk_Serveri (env_socket e) d make_whitelist cs 2048 ∅ []
               [mk_pollfd (env_socket e) (Z.lor POLLIN POLLERR) 0] true in
    andThen (Ok (s, [log])) (fun s =>
    andThen (updateMonitorMessage s) (fun s =>
      _ ← get_uint config (str "global") (str "wsPort") 9910;
      for_each handle_event (env_create e) s)).

(** [Serveri::~Serveri]: the callbacks of [lws_context_destroy], then the
    socket is closed. *)
Definition Serveri_delete (destroy : list lws_event) (s : Serveri) : outcome :=
  andThen (for_each handle_event destroy s) (fun s =>
    Ok (mk_Serveri 0 (dmx s) (whitelist s) (currentState s) (buflen s) (monitorConnections s)
          (monitorMessage s) (pollfds s) (lightsDirty s), [E_close (UDPfd s)])).

End Construct.

(** ** The poll loop *)

(** What a round of the loop gets from outside. *)
Record round_input := mk_round {
  (** the result of [poll], and the [revents] it wrote per descriptor *)
  pollresult : Z;
  poll_revents : list Z;
  poll_error : bytes;
  (** what [recvfrom] returned, [None] is -1, and the sender *)
  received : option bytes;
  sender : bytes * Z;
  (** what the [write] to the tty returned *)
  write_result : Z;
  (** the callbacks [lws_service_fd] makes for a descriptor *)
  service : pollfd -> list lws_event;
  (** and those of [lws_callback_on_writable] for a connection *)
  writable_changes : Z -> mode_changes;
}.

(** [poll] fills in [revents]. *)
Fixpoint set_revents (rs : list Z) (ps : list pollfd) : list pollfd :=
  match ps with
  | [] => []
  | p :: ps' => mk_pollfd (p_fd p) (p_events p) (default 0 (head rs)) :: set_revents (tail rs) ps'
  end.

(** The datagram branch: [buffer.first(len)] ends the program when
    [recvfrom] failed. *)
Definition receive_datagram (i : round_input) (s : Serveri) : outcome :=
  match received i with
  | None => Err contract_violation
  | Some data =>
    let data := take (buflen s) data in
    andThen (Ok (s, [E_log Debug (str "received {} bytes from {}:{}")
                       [FNum (len data); FStr (sender i).1; FNum (sender i).2]]))
      (lightPacket data)
  end.

(** The loop over the poll set: [todo] are the descriptors left, [done_] the
    ones behind; returns the object and the descriptors to service. *)
Fixpoint scan_fds (i : round_input) (count : Z) (done_ todo : list pollfd) (s : Serveri)
  : res exn (Serveri * list pollfd * list effect) :=
  match todo with
  | [] => Ok (set_pollfds done_ s, [], [])
  | p :: todo' =>
    if pollresult i <=? count then Ok (set_pollfds (done_ ++ todo) s, [], [])
    else if negb (p_revents p =? 0) then
      let p0 := mk_pollfd (p_fd p) (p_events p) 0 in
      if p_fd p =? UDPfd s then
        '(s, e1) ← receive_datagram i s;
        '(s, process, e2) ← scan_fds i (count + 1) (done_ ++ [p0]) todo' s;
        Ok (s, process, e1 ++ e2)
      else
        '(s, process, e2) ← scan_fds i (count + 1) (done_ ++ [p0]) todo' s;
        Ok (s, p :: process, e2)
    else scan_fds i count (done_ ++ [p]) todo' s
  end.

(** The end of a round: one frame and a fresh message when dirty. *)
Definition flush (i : round_input) (s : Serveri) : outcome :=
  if lightsDirty s then
    let '(fd, frame) := update (dmx s) in
    andThen (Ok (set_dirty false s, [E_tty_write fd frame;
      E_log Debug (str "write returned {}") [FNum (write_result i)]]))
      (fun s =>
    andThen (updateMonitorMessage s) (fun s =>
      match map_to_list (monitorConnections s) with
      | [] => Ok (s, [])
      | conns =>
        andThen (Ok (s, [E_log Debug (str "send updates to {} monitoring connections")
                           [FNum (Z.of_nat (length conns))]]))
          (for_each (fun c => callback_on_writable c.1 (writable_changes i c.1)) conns)
      end))
  else Ok (s, []).

(** One round of [Serveri::run]; the boolean tells whether the loop goes on. *)
Definition run_round (i : round_input) (s : Serveri) : res exn (bool * Serveri * list effect) :=
  if pollresult i <? 0 then Ok (false, s, [E_log Error (str "poll failed: {}") [FStr (poll_error i)]])
  else
    '(s, process, e1) ← scan_fds i 0 [] (set_revents (poll_revents i) (pollfds s)) s;
    '(s, e2) ← for_each (fun p => for_each handle_event (service i p)) process s;
    '(s, e3) ← flush i s;
    Ok (true, s, e1 ++ e2 ++ e3).

(** The loop over a finite list of rounds. *)
Fixpoint run (rounds : list round_input) (s : Serveri) : outcome :=
  match rounds with
  | [] => Ok (s, [])
  | i :: rounds' =>
    '(go, s, e1) ← run_round i s;
    if go : bool then '(s, e2) ← run rounds' s; Ok (s, e1 ++ e2) else Ok (s, e1)
  end.
