(* ===== verification/ServeriInv.v ===== *)
(** * The server's invariant

    The well-formedness of a [Serveri] object, the abstract light state it
    refines, and the lemmas that every handler and callback preserves them. *)

From S2P Require Import Prelude CLib Ini Config Logger Dmx LightPacket MonitorJson Serveri.

(** ** The abstract state machine

    What the server promises its clients: a tag and a colour per light.  A
    packet replaces the tag by its whitelisted characters and sets the colours
    of the lights it names that exist. *)

Definition abs_set (m : gmap Z Color) (l : LightColor) : gmap Z Color :=
  match m !! lc_index l with
  | Some _ => <[lc_index l := lc_color l]> m
  | None => m
  end.

Definition abs_packet (p : LightPacket) (st : LightState) : LightState :=
  mk_LightState (filter_tag make_whitelist (lp_tag p)) (foldl abs_set (ls_lights st) (lp_lights p)).

(** The object the monitors are shown. *)
Definition monitor_object (st : LightState) : list (bytes * jval) :=
  let n := size (ls_lights st) in
  (add_lights n 0 (ls_lights st)
     (obj_set (obj_set [] (str "numLights") (JNum (Z.of_nat n))) (str "tag") (JStr (ls_tag st)))).2.

Definition monitor_text (st : LightState) : bytes :=
  [123] ++ members_text (monitor_object st) ++ [125].

(** ** The invariant *)

Definition state_ok (st : LightState) : Prop :=
  (forall k, is_Some (ls_lights st !! k) <-> 0 <= k < Z.of_nat (size (ls_lights st))) /\
  map_Forall (fun _ c => color_ok c) (ls_lights st) /\
  Forall plain (ls_tag st).

(** The frame shows a light's colour; a light never set is all zero. *)
Definition shown (p : bytes) (l : Light) (c : Color) : Prop :=
  let o := Z.to_nat (address l + 4) in
  (forall k, (k < width (type l))%nat -> p !! (o + k)%nat = slot l c k) \/
  (c = Color_default /\ forall k, (k < width (type l))%nat -> p !! (o + k)%nat = Some 0).

(** No two lights share a byte. *)
Definition lights_disjoint (m : gmap Z Light) : Prop :=
  forall i j a b, i <> j -> m !! i = Some a -> m !! j = Some b -> disjoint_lights a b.

Definition frame_shows (s : Serveri) : Prop :=
  forall k l c, lights (lightConfig (dmx s)) !! k = Some l ->
    ls_lights (currentState s) !! k = Some c -> shown (dmxPacket (dmx s)) l c.

Definition message_current (s : Serveri) : Prop :=
  drop LWS_PRE (monitorMessage s) = monitor_text (currentState s).

(** What holds at every point of every handler. *)
Record Core (s : Serveri) : Prop := mk_Core {
  inv_dmx : dmx_ok (dmx s);
  inv_state : state_ok (currentState s);
  inv_dom : forall k, is_Some (ls_lights (currentState s) !! k) <->
                      is_Some (lights (lightConfig (dmx s)) !! k);
  inv_whitelist : whitelist s = make_whitelist;
  inv_frame : lights_disjoint (lights (lightConfig (dmx s))) -> frame_shows s;
}.

(** Between handlers a clean object's message is also up to date. *)
Record Inv (s : Serveri) : Prop := mk_Inv {
  inv_core : Core s;
  inv_message : lightsDirty s = false -> message_current s;
}.

(** ** Sequencing *)

Definition post (o : outcome) (Q : Serveri -> list effect -> Prop) : Prop :=
  exists s e, o = Ok (s, e) /\ Q s e.

Lemma post_Ok s e (Q : Serveri -> list effect -> Prop) : Q s e -> post (Ok (s, e)) Q.
Proof. intros. by exists s, e. Qed.

Lemma post_andThen o f (P Q : Serveri -> list effect -> Prop) :
  post o P -> (forall s e, P s e -> post (f s) (fun s' e' => Q s' (e ++ e'))) ->
  post (andThen o f) Q.
Proof.
  intros (s & e & -> & HP) Hf. destruct (Hf s e HP) as (s' & e' & Hs & HQ).
  exists s', (e ++ e'). unfold andThen. simpl. by rewrite Hs.
Qed.

Lemma post_impl o (P Q : Serveri -> list effect -> Prop) :
  post o P -> (forall s e, P s e -> Q s e) -> post o Q.
Proof. intros (s & e & -> & HP) H. exists s, e. auto. Qed.

(** The frames written to the tty among some effects. *)
Definition tty_writes (e : list effect) : list (Z * bytes) :=
  omap (fun x => match x with E_tty_write fd f => Some (fd, f) | _ => None end) e.

Lemma tty_writes_app a b : tty_writes (a ++ b) = tty_writes a ++ tty_writes b.
Proof. apply omap_app. Qed.

(** What a handler may do between two flushes: it keeps the invariant and the
    configuration, writes nothing to the tty, never clears the dirty flag, and
    leaves lights, tag and frame alone unless it sets it. *)
Record handled (s s' : Serveri) (e : list effect) : Prop := mk_handled {
  h_inv : Inv s';
  h_config : lightConfig (dmx s') = lightConfig (dmx s) /\ fd (dmx s') = fd (dmx s);
  h_static : UDPfd s' = UDPfd s /\ buflen s' = buflen s;
  h_quiet : tty_writes e = [];
  h_dirty : lightsDirty s' = false ->
    lightsDirty s = false /\ currentState s' = currentState s /\ dmx s' = dmx s;
}.

Lemma handled_refl s : Inv s -> handled s s [].
Proof. intros. by split. Qed.

Lemma handled_trans s1 s2 s3 e1 e2 :
  handled s1 s2 e1 -> handled s2 s3 e2 -> handled s1 s3 (e1 ++ e2).
Proof.
  intros [_ [A1 A2] [B1 B2] Q1 D1] [I2 [A3 A4] [B3 B4] Q2 D2].
  split; [done|split; congruence|split; congruence| |].
  - by rewrite tty_writes_app, Q1, Q2.
  - intros Hd. destruct (D2 Hd) as (Hd2 & ? & ?). destruct (D1 Hd2) as (? & ? & ?).
    split_and!; congruence.
Qed.

Lemma post_for_each {A} (f : A -> Serveri -> outcome) (ok : A -> Prop) l :
  (forall a s, ok a -> Inv s -> post (f a s) (handled s)) ->
  Forall ok l -> forall s, Inv s -> post (for_each f l s) (handled s).
Proof.
  intros Hf. induction 1 as [|a l Ha _ IH]; intros s Hs.
  - apply post_Ok. by apply handled_refl.
  - simpl. eapply post_andThen; [by apply Hf|]. intros s1 e1 H1.
    eapply post_impl; [apply IH, H1|]. intros s2 e2 H2. by eapply handled_trans.
Qed.

(** ** Handlers that only touch the poll set or the connections *)

(** The two objects differ in poll set, connections and message padding. *)
Lemma handled_same s s' e :
  Inv s -> dmx s' = dmx s -> currentState s' = currentState s -> whitelist s' = whitelist s ->
  drop LWS_PRE (monitorMessage s') = drop LWS_PRE (monitorMessage s) ->
  lightsDirty s' = lightsDirty s -> UDPfd s' = UDPfd s -> buflen s' = buflen s ->
  tty_writes e = [] -> handled s s' e.
Proof.
  intros [[I1 I2 I3 I4 I6] I5] Ed Ec Ew Em El Eu Eb Et. split; [split; [split|]| | | |].
  - by rewrite Ed.
  - by rewrite Ec.
  - by rewrite Ec, Ed.
  - congruence.
  - unfold frame_shows. rewrite Ed, Ec. exact I6.
  - unfold message_current. rewrite Em, Ec, El. exact I5.
  - by rewrite Ed.
  - done.
  - done.
  - rewrite El. done.
Qed.

Ltac same := apply post_Ok, handled_same; done.

Lemma addFD_handled fd events s : Inv s -> post (addFD fd events s) (handled s).
Proof. intros. same. Qed.

Lemma deleteFD_handled fd s : Inv s -> post (deleteFD fd s) (handled s).
Proof. intros. same. Qed.

Lemma setFDEvents_handled fd events s : Inv s -> post (setFDEvents fd events s) (handled s).
Proof. intros. same. Qed.

Lemma addMonitor_handled wsi addr s : wsi <> 0 -> Inv s -> post (addMonitor wsi addr s) (handled s).
Proof.
  intros Hw Hs. unfold addMonitor. rewrite (proj2 (Z.eqb_neq wsi 0)) by done.
  destruct (monitorConnections s !! wsi); same.
Qed.

Lemma deleteMonitor_handled wsi s : wsi <> 0 -> Inv s -> post (deleteMonitor wsi s) (handled s).
Proof.
  intros Hw Hs. unfold deleteMonitor. rewrite (proj2 (Z.eqb_neq wsi 0)) by done.
  destruct (monitorConnections s !! wsi); same.
Qed.

Lemma drop_pad (p m : bytes) : drop LWS_PRE (take LWS_PRE (p ++ replicate LWS_PRE 0) ++ m) = m.
Proof.
  apply drop_app_length'. rewrite length_take, length_app, length_replicate. lia.
Qed.

Lemma callback_on_writable_handled wsi changes s :
  Inv s -> post (callback_on_writable wsi changes s) (handled s).
Proof.
  intros Hs. unfold callback_on_writable.
  eapply post_andThen; [apply post_Ok, (handled_same s s [E_on_writable wsi]); done|].
  intros s1 e1 H1. eapply post_impl;
    [apply (post_for_each _ (fun _ => True)); [|by apply Forall_true|apply H1]|].
  - intros [fd ev] s2 _ H2. by apply setFDEvents_handled.
  - intros s2 e2 H2. by eapply handled_trans.
Qed.

(** ** Light packets *)

Lemma filter_tag_plain tag : 0 ∉ tag -> Forall plain (filter_tag make_whitelist tag).
Proof.
  assert (forall c, c ∈ make_whitelist -> c <> 0 -> plain c) as Hw.
  { intros c Hc Hne. unfold make_whitelist in Hc. rewrite elem_of_list_to_set in Hc.
    assert (Forall (fun c => c <> 0 -> plain c) (tagWhitelist ++ [0])) as HF.
    { apply (bool_decide_unpack _). vm_compute. exact I. }
    rewrite Forall_forall in HF. by apply HF. }
  induction tag as [|c tag IH]; simpl; [constructor|].
  rewrite not_elem_of_cons. intros [Hc Ht].
  destruct (decide (c ∈ make_whitelist)); [constructor|]; auto.
Qed.

(** A parsed packet: bytes, and no NUL in the tag. *)
Definition packet_ok (p : LightPacket) : Prop :=
  (0 ∉ lp_tag p) /\ Forall (fun l => color_ok (lc_color l)) (lp_lights p).

Lemma records_of_ok n l : (length l <= n)%nat -> all_bytes l ->
  Forall (fun l => color_ok (lc_color l)) (records_of l).
Proof.
  revert l. induction n as [|n IH]; intros l Hn Hb;
    [destruct l; [apply Forall_nil_2|simpl in Hn; lia]|].
  destruct l as [|t [|i [|x [|r [|g [|b l]]]]]]; try apply Forall_nil_2.
  cbn [records_of]. unfold all_bytes in Hb. rewrite !Forall_cons in Hb.
  destruct Hb as (_ & _ & _ & Hr & Hg & Hbl & Hl).
  apply Forall_app. split; [|apply IH; [simpl in Hn; lia|done]].
  destruct (t =? 1); [|apply Forall_nil_2].
  constructor; [done|apply Forall_nil_2].
Qed.

Lemma packet_spec_ok packet : all_bytes packet -> packet_ok (packet_spec packet).
Proof.
  intros Hb. assert (packet_ok LightPacket_default) as Hd.
  { split; [apply not_elem_of_nil|apply Forall_nil_2]. }
  assert (forall tag recs, 0 ∉ tag -> all_bytes recs ->
    packet_ok (mk_LightPacket tag (records_of recs))) as Hr.
  { intros tag recs Ht Hrec. split; [done|]. by eapply (records_of_ok (length recs)). }
  unfold packet_spec.
  destruct packet as [|[|[]|] [|[] [|c rest]]]; try exact Hd.
  unfold all_bytes in Hb. rewrite !Forall_cons in Hb. destruct Hb as (_ & _ & Hc & Hrest).
  destruct (split_nul (c :: rest)) as [[tag recs]|] eqn:E.
  - apply split_nul_Some in E as [E Ht]. apply Hr; [done|].
    assert (all_bytes (c :: rest)) as Hcr by by constructor.
    rewrite E in Hcr. apply Forall_app in Hcr as [_ Hcr]. by inversion Hcr.
  - apply Hr; [apply not_elem_of_nil|done].
Qed.

Lemma abs_set_size m l : size (abs_set m l) = size m.
Proof.
  unfold abs_set. destruct (m !! lc_index l) eqn:E; [|done].
  by rewrite map_size_insert_Some.
Qed.

Lemma abs_set_dom m l k : is_Some (abs_set m l !! k) <-> is_Some (m !! k).
Proof.
  unfold abs_set. destruct (m !! lc_index l) eqn:E; [|done].
  destruct (decide (lc_index l = k)) as [<-|].
  - rewrite lookup_insert_eq, E. split; eauto.
  - by rewrite lookup_insert_ne.
Qed.

(** The colour update of one light keeps the frame in step with the state. *)
Lemma apply_light_shows l s d' :
  Core s -> color_ok (lc_color l) ->
  setLightColor (dmx s) (lc_index l) (lc_color l) = Ok d' ->
  lights_disjoint (lights (lightConfig (dmx s))) ->
  forall k li c, lights (lightConfig (dmx s)) !! k = Some li ->
    abs_set (ls_lights (currentState s)) l !! k = Some c -> shown (dmxPacket d') li c.
Proof.
  intros Hs Hc Hd' Hdis k li c Hk Hck.
  pose proof (inv_dmx _ Hs) as Hok. pose proof (inv_frame _ Hs Hdis) as Hsh.
  pose proof (proj2 Hok _ _ Hk) as [Hak _]. unfold is_byte in Hak.
  unfold abs_set in Hck.
  destruct (lights (lightConfig (dmx s)) !! lc_index l) as [lx|] eqn:Ex.
  - destruct (setLightColor_known _ _ _ _ Hok Ex Hc) as (p & Hp & _ & Hall).
    rewrite Hp in Hd'. injection Hd' as <-. simpl.
    destruct (proj2 (inv_dom _ Hs (lc_index l))) as [c0 Hc0]; [by rewrite Ex|].
    rewrite Hc0 in Hck. destruct (decide (lc_index l = k)) as [<-|Hne].
    + rewrite lookup_insert_eq in Hck. simplify_eq. left. intros j Hj. rewrite Hall. cbv zeta.
      rewrite decide_True by lia. f_equal. lia.
    + rewrite lookup_insert_ne in Hck by done.
      pose proof (Hdis _ _ _ _ Hne Ex Hk) as Hd. unfold disjoint_lights in Hd.
      pose proof (proj2 Hok _ _ Ex) as [Hax _]. unfold is_byte in Hax.
      assert (forall j, (j < width (type li))%nat ->
        p !! (Z.to_nat (address li + 4) + j)%nat =
        dmxPacket (dmx s) !! (Z.to_nat (address li + 4) + j)%nat) as Hsame.
      { intros j Hj. rewrite Hall. cbv zeta. rewrite decide_False; [done|]. lia. }
      destruct (Hsh k li c Hk Hck) as [H|[H1 H2]]; [left|right].
      * intros j Hj. rewrite Hsame by done. by apply H.
      * split; [done|]. intros j Hj. rewrite Hsame by done. by apply H2.
  - rewrite setLightColor_unknown in Hd' by done. injection Hd' as <-.
    assert (ls_lights (currentState s) !! lc_index l = None) as Hn.
    { apply eq_None_not_Some. intros H. apply (inv_dom _ Hs) in H as [? ?]. congruence. }
    rewrite Hn in Hck. by apply (Hsh k li c).
Qed.

Lemma apply_light_core l s : Core s -> color_ok (lc_color l) ->
  exists d' e, apply_light l s =
      Ok (set_state (mk_LightState (ls_tag (currentState s))
                       (abs_set (ls_lights (currentState s)) l)) (set_dmx d' s), e) /\
    lightConfig d' = lightConfig (dmx s) /\ fd d' = fd (dmx s) /\ tty_writes e = [] /\
    Core (set_state (mk_LightState (ls_tag (currentState s))
                       (abs_set (ls_lights (currentState s)) l)) (set_dmx d' s)).
Proof.
  intros Hs Hc. destruct (setLightColor_total (dmx s) (lc_index l) (lc_color l))
    as (d' & Hd' & Hok & Hcfg & Hfd); [apply Hs|done|].
  exists d'. eexists. unfold apply_light. rewrite Hd'. cbn [mbind res_bind].
  split; [|split; [done|split; [done|split]]].
  - do 2 f_equal. unfold abs_set. destruct (currentState s) as [t m]. simpl.
    by destruct (m !! lc_index l).
  - by destruct (lights (lightConfig (dmx s)) !! lc_index l).
  - pose proof (inv_state _ Hs) as (S1 & S2 & S3).
    assert (map_Forall (fun _ c => color_ok c) (abs_set (ls_lights (currentState s)) l)) as Hcol.
    { unfold abs_set. destruct (ls_lights (currentState s) !! lc_index l); [|done].
      by apply map_Forall_insert_2. }
    split; simpl; [done| | |apply Hs|].
    + split; [|done]. simpl. intros k. rewrite abs_set_size, abs_set_dom. apply S1.
    + intros k. rewrite abs_set_dom, Hcfg. apply Hs.
    + rewrite Hcfg. intros Hdis k li c Hk Hck. simpl in *. rewrite Hcfg in Hk.
      by eapply apply_light_shows.
Qed.

Lemma apply_lights_core ls : Forall (fun l => color_ok (lc_color l)) ls -> forall s, Core s ->
  exists d' e, for_each apply_light ls s =
      Ok (set_state (mk_LightState (ls_tag (currentState s))
                       (foldl abs_set (ls_lights (currentState s)) ls)) (set_dmx d' s), e) /\
    lightConfig d' = lightConfig (dmx s) /\ fd d' = fd (dmx s) /\ tty_writes e = [] /\
    Core (set_state (mk_LightState (ls_tag (currentState s))
                       (foldl abs_set (ls_lights (currentState s)) ls)) (set_dmx d' s)).
Proof.
  induction 1 as [|l ls Hl _ IH]; intros s Hs.
  - exists (dmx s), []. destruct s as [u d w [t m] b c ms p di]. simpl. done.
  - destruct (apply_light_core l s Hs Hl) as (d1 & e1 & E1 & C1 & F1 & T1 & I1).
    destruct (IH _ I1) as (d2 & e2 & E2 & C2 & F2 & T2 & I2). simpl in *.
    exists d2, (e1 ++ e2). unfold andThen. rewrite E1. cbn [mbind res_bind]. rewrite E2.
    cbn [mbind res_bind]. split; [done|]. split; [congruence|]. split; [congruence|].
    split; [by rewrite tty_writes_app, T1, T2|]. done.
Qed.

(** An input packet: bytes, and of a size the 32-bit counters hold. *)
Definition input_ok (buf : bytes) : Prop := all_bytes buf /\ len buf < 2 ^ 31.

(** The effect of a packet on the object: the refinement of [abs_packet]. *)
Lemma lightPacket_refines buf s : input_ok buf -> Inv s ->
  post (lightPacket buf s) (fun s' e => handled s s' e /\ lightsDirty s' = true /\
    currentState s' = abs_packet (packet_spec buf) (currentState s) /\
    monitorConnections s' = monitorConnections s /\ pollfds s' = pollfds s /\
    monitorMessage s' = monitorMessage s).
Proof.
  intros [Hb Hl] [Hs _]. pose proof (packet_spec_ok buf Hb) as [Ht Hc].
  unfold lightPacket. rewrite parse_packet_eq by done. cbn [mbind res_bind].
  rewrite (inv_whitelist _ Hs).
  set (s1 := set_state _ s).
  assert (Core s1) as H1.
  { destruct Hs as [D S Dm W F]. split; simpl; try done.
    destruct S as (S1 & S2 & _). split; [done|]. split; [done|]. by apply filter_tag_plain. }
  destruct (apply_lights_core _ Hc s1 H1) as (d' & e & -> & Hcfg & Hfd & Htty & Hcore).
  cbn [mbind res_bind]. apply post_Ok. split; [|done].
  split; [split; [|done]|done|done|done|done].
  destruct Hcore. by split.
Qed.

(** ** The monitor message *)

Lemma hex_digit_plain n : 0 <= n < 16 -> plain (hex_digit n).
Proof. unfold hex_digit, plain. intros. destruct (Z.ltb_spec n 10); lia. Qed.

Lemma color_hex_plain c : color_ok c -> Forall plain (color_hex c).
Proof.
  intros (Hr & Hg & Hb). unfold color_hex, hex02, is_byte in *.
  repeat (apply Forall_cons; split; [apply hex_digit_plain; dlia|]). apply Forall_nil_2.
Qed.

Lemma light_key_plain i : 0 <= i -> Forall plain (light_key i).
Proof.
  intros Hi. unfold light_key. apply Forall_app. split.
  - apply (bool_decide_unpack _). vm_compute. exact I.
  - destruct (to_string_spec i Hi) as [H _]. eapply Forall_impl; [exact H|].
    unfold digitb, plain. simpl. lia.
Qed.

Lemma light_key_inj i k : 0 <= i -> 0 <= k -> light_key i = light_key k -> i = k.
Proof. intros Hi Hk E. apply app_inv_head in E. by apply to_string_inj. Qed.

(** The loop reads existing lights only, so the map is not extended. *)
Lemma add_lights_map n i l j :
  (forall k, i <= k < i + Z.of_nat n -> is_Some (l !! k)) -> (add_lights n i l j).1 = l.
Proof.
  revert i j. induction n as [|n IH]; intros i j Hl; [done|]. cbn [add_lights].
  unfold light_at. destruct (Hl i) as [c ->]; [lia|]. apply IH. intros. apply Hl. lia.
Qed.

Lemma add_lights_Forall (P : bytes * jval -> Prop) n i l j :
  (forall k, i <= k < i + Z.of_nat n -> is_Some (l !! k)) ->
  (forall k c, i <= k < i + Z.of_nat n -> l !! k = Some c -> P (light_key k, JStr (color_hex c))) ->
  Forall P j -> Forall P (add_lights n i l j).2.
Proof.
  revert i j. induction n as [|n IH]; intros i j Hl HP Hj; [done|]. cbn [add_lights].
  unfold light_at. destruct (Hl i) as [c Hc]; [lia|]. rewrite Hc. apply IH.
  - intros. apply Hl. lia.
  - intros. apply HP; [lia|done].
  - apply obj_set_Forall; [done|]. apply HP; [lia|done].
Qed.

Lemma add_lights_sorted n i l j : key_sorted j -> key_sorted (add_lights n i l j).2.
Proof.
  revert i l j. induction n as [|n IH]; intros i l j Hj; [done|]. cbn [add_lights].
  destruct (light_at i l) as [c l']. by apply IH, obj_set_sorted.
Qed.

(** What the object holds under each key. *)
Lemma add_lights_get n i l j key : 0 <= i ->
  (forall k, i <= k < i + Z.of_nat n -> is_Some (l !! k)) ->
  obj_get (add_lights n i l j).2 key = obj_get j key \/
  exists k c, i <= k < i + Z.of_nat n /\ key = light_key k /\ l !! k = Some c /\
    obj_get (add_lights n i l j).2 key = Some (JStr (color_hex c)).
Proof.
  revert i j. induction n as [|n IH]; intros i j Hi Hl; [by left|]. cbn [add_lights].
  unfold light_at. destruct (Hl i) as [c Hc]; [lia|]. rewrite Hc.
  destruct (IH (i + 1) (obj_set j (light_key i) (JStr (color_hex c)))) as
    [H|(k & c' & Hk & -> & Hlk & H)]; [lia|intros; apply Hl; lia| |].
  - rewrite H. destruct (decide (light_key i = key)) as [<-|Hne].
    + right. exists i, c. split; [lia|]. split; [done|]. split; [done|]. by rewrite obj_get_set_eq.
    + left. by rewrite obj_get_set_ne.
  - right. exists k, c'. split; [lia|]. done.
Qed.

Lemma add_lights_get_light n i l j k c : 0 <= i ->
  (forall k, i <= k < i + Z.of_nat n -> is_Some (l !! k)) ->
  i <= k < i + Z.of_nat n -> l !! k = Some c ->
  obj_get (add_lights n i l j).2 (light_key k) = Some (JStr (color_hex c)).
Proof.
  revert i j. induction n as [|n IH]; intros i j Hi Hl Hk Hc; [lia|]. cbn [add_lights].
  unfold light_at. destruct (Hl i) as [c0 Hc0]; [lia|]. rewrite Hc0.
  destruct (decide (k = i)) as [->|Hne].
  - rewrite Hc in Hc0. simplify_eq.
    destruct (add_lights_get n (i + 1) l (obj_set j (light_key i) (JStr (color_hex c0)))
      (light_key i)) as [->|(k' & c' & Hk' & E & _)]; [lia|intros; apply Hl; lia| |].
    + by rewrite obj_get_set_eq.
    + apply light_key_inj in E; lia.
  - apply IH; [lia|intros; apply Hl; lia|lia|done].
Qed.

Lemma monitor_object_plain st : state_ok st ->
  Forall (fun kv => Forall plain kv.1 /\ plain_val kv.2) (monitor_object st).
Proof.
  intros (H1 & H2 & H3). unfold monitor_object. apply add_lights_Forall.
  - intros k Hk. apply H1. lia.
  - intros k c Hk Hc. split; simpl; [apply light_key_plain; lia|].
    apply color_hex_plain. by apply (H2 k).
  - assert (Forall plain (str "numLights") /\ Forall plain (str "tag")) as [? ?].
    { split; apply (bool_decide_unpack _); vm_compute; exact I. }
    apply obj_set_Forall; [|done]. apply obj_set_Forall; [apply Forall_nil_2|done].
Qed.

(** The message is rebuilt from the state, everything else stays. *)
Lemma updateMonitorMessage_eq s : state_ok (currentState s) ->
  updateMonitorMessage s =
    Ok (set_message (store_message (monitorMessage s) (monitor_text (currentState s))) s, []).
Proof.
  intros Hs. pose proof (monitor_object_plain _ Hs) as Hp. pose proof Hs as (H1 & _).
  unfold updateMonitorMessage, monitor_text, monitor_object in *. rewrite Nat2Z.id.
  destruct (add_lights _ 0 _ _) as [l j] eqn:E. cbn [snd] in Hp |- *.
  rewrite dump_plain by done.
  assert (l = ls_lights (currentState s)) as ->.
  { change l with (l, j).1. rewrite <- E. apply add_lights_map. intros k Hk. apply H1. lia. }
  do 3 f_equal. by destruct s as [u d w [t m] b c ms p di].
Qed.

(** ** Callbacks *)

(** What the library passes: packets as bytes, no null connection. *)
Definition event_wf (e : lws_event) : Prop :=
  match e with
  | L_light _ (R_receive _ packet) => input_ok packet
  | L_light _ _ => True
  | L_monitor wsi (M_established _) _ => wsi <> 0
  | L_monitor wsi M_closed _ => wsi <> 0
  | L_monitor _ _ _ => True
  end.

(** The callback whose handler asserts that it is never made. *)
Definition asks_to_write (e : lws_event) : bool :=
  match e with L_light _ R_server_writeable => true | _ => false end.

Lemma handle_event_handled e s : event_wf e -> asks_to_write e = false -> Inv s -> post (handle_event e s) (handled s).
Proof.
  intros He Ha Hs. destruct e as [wsi r|wsi r ch]; simpl in *.
  - destruct r; simpl; try same; try done.
    eapply post_andThen; [apply post_Ok, (handled_same s s [_]); done|].
    intros s1 e1 H1. eapply post_impl; [apply lightPacket_refines; [done|apply H1]|].
    intros s2 e2 [H2 _]. by eapply handled_trans.
  - destruct r; simpl; try same.
    + eapply post_andThen; [by apply addMonitor_handled|].
      intros s1 e1 H1. eapply post_impl; [apply callback_on_writable_handled, H1|].
      intros s2 e2 H2. by eapply handled_trans.
    + by apply deleteMonitor_handled.
    + apply post_Ok, handled_same; try done. cbn [monitorMessage set_message]. apply drop_pad.
Qed.

(** Either every callback is handled, or one of them asks the light protocol
    to write. *)
Lemma handle_events_outcome es s : Forall event_wf es -> Inv s ->
  post (for_each handle_event es s) (handled s) \/
  for_each handle_event es s = Err assertion_failed /\ existsb asks_to_write es = true.
Proof.
  intros H. revert s. induction H as [|e es He _ IH]; intros s Hs; [left; apply post_Ok; by apply handled_refl|].
  cbn [for_each existsb]. destruct (asks_to_write e) eqn:Ea.
  - right. by destruct e as [wsi []|].
  - destruct (handle_event_handled e s He Ea Hs) as (s1 & e1 & E & H1). unfold andThen. rewrite E. cbn [mbind res_bind].
    destruct (IH s1) as [(s2 & e2 & -> & H2)|[-> Hw]]; [apply H1| |by right].
    left. eexists _, _. split; [reflexivity|]. by eapply handled_trans.
Qed.
