(* ===== verification/ServeriProps.v ===== *)
(** * Properties of the server

    The poll loop over any rounds from a constructed server, the poll set,
    the monitors, and the findings about the tag whitelist and the failing
    [recvfrom]. *)

From S2P Require Import Prelude CLib Ini Config Logger Dmx LightPacket MonitorJson Serveri ServeriInv.

(** ** The scan of the poll set *)

(** Whether a descriptor of the set is the ready UDP socket. *)
Definition udp_ready (s : Serveri) (p : pollfd) : bool :=
  negb (p_revents p =? 0) && (p_fd p =? UDPfd s).

(** [recvfrom] succeeds with bytes. *)
Definition recv_ok (i : round_input) : Prop := exists d, received i = Some d /\ all_bytes d.

Lemma receive_datagram_handled i s : recv_ok i -> Inv s -> (buflen s <= 2048)%nat ->
  post (receive_datagram i s) (fun s' e => handled s s' e /\ lightsDirty s' = true).
Proof.
  intros (d & Hd & Hb) Hs Hbl. unfold receive_datagram. rewrite Hd.
  eapply post_andThen; [apply post_Ok, (handled_same s s [_]); done|].
  intros s1 e1 H1. eapply post_impl; [apply lightPacket_refines; [|apply H1]|].
  - split; [by apply Forall_take|]. unfold len. rewrite length_take. lia.
  - intros s2 e2 (H2 & ? & _). split; [by eapply handled_trans|done].
Qed.

Lemma set_pollfds_handled ps s : Inv s -> handled s (set_pollfds ps s) [].
Proof. intros. by apply handled_same. Qed.

Lemma scan_fds_handled i todo : forall count d s,
  (existsb (udp_ready s) todo = true -> recv_ok i) -> Inv s -> (buflen s <= 2048)%nat ->
  exists s' process e, scan_fds i count d todo s = Ok (s', process, e) /\ handled s s' e /\
    (forall p, p ∈ process -> p ∈ todo).
Proof.
  induction todo as [|p todo IH]; intros count d s Hr Hs Hb; cbn [scan_fds].
  - exists (set_pollfds d s), [], []. split; [done|]. split; [by apply set_pollfds_handled|done].
  - destruct (pollresult i <=? count).
    { exists (set_pollfds (d ++ p :: todo) s), [], []. split; [done|].
      split; [by apply set_pollfds_handled|]. intros ? ?%not_elem_of_nil. done. }
    simpl in Hr. unfold udp_ready at 1 in Hr.
    destruct (negb (p_revents p =? 0)) eqn:Ep; [destruct (p_fd p =? UDPfd s) eqn:Eu|].
    + destruct (receive_datagram_handled i s) as (s1 & e1 & -> & H1 & _); [by apply Hr|done..|].
      cbn [mbind res_bind]. destruct (h_static _ _ _ H1) as [Hu Hbl].
      destruct (IH (count + 1) (d ++ [mk_pollfd (p_fd p) (p_events p) 0]) s1)
        as (s2 & pr & e2 & -> & H2 & Hin); [intros _; by apply Hr|apply H1|by rewrite Hbl|].
      exists s2, pr, (e1 ++ e2). split; [done|]. split; [by eapply handled_trans|].
      intros q Hq. right. by apply Hin.
    + destruct (IH (count + 1) (d ++ [mk_pollfd (p_fd p) (p_events p) 0]) s)
        as (s2 & pr & e2 & -> & H2 & Hin); [done..|].
      exists s2, (p :: pr), e2. split; [done|]. split; [done|].
      intros q [->|Hq]%elem_of_cons; [left|right; by apply Hin].
    + destruct (IH count (d ++ [p]) s) as (s2 & pr & e2 & -> & H2 & Hin); [done..|].
      exists s2, pr, e2. split; [done|]. split; [done|]. intros q Hq. right. by apply Hin.
Qed.

(** ** The flush *)

(** The connections asked for a writeable callback. *)
Definition writable_requests (e : list effect) : list Z :=
  omap (fun x => match x with E_on_writable w => Some w | _ => None end) e.

Lemma writable_requests_app a b :
  writable_requests (a ++ b) = writable_requests a ++ writable_requests b.
Proof. apply omap_app. Qed.

(** [lws_callback_on_writable] for a connection: one request, the lights and
    the message untouched. *)
Definition requested (w : list Z) (s s' : Serveri) (e : list effect) : Prop :=
  handled s s' e /\ writable_requests e = w /\ currentState s' = currentState s /\
  dmx s' = dmx s /\ monitorMessage s' = monitorMessage s /\ lightsDirty s' = lightsDirty s /\
  monitorConnections s' = monitorConnections s.

Lemma requested_trans w1 w2 s1 s2 s3 e1 e2 :
  requested w1 s1 s2 e1 -> requested w2 s2 s3 e2 -> requested (w1 ++ w2) s1 s3 (e1 ++ e2).
Proof.
  intros (A1 & A2 & A3 & A4 & A5 & A6 & A7) (B1 & B2 & B3 & B4 & B5 & B6 & B7).
  split; [by eapply handled_trans|]. split; [by rewrite writable_requests_app, A2, B2|].
  split_and!; congruence.
Qed.

Lemma callback_on_writable_requested wsi changes s : Inv s ->
  post (callback_on_writable wsi changes s) (requested [wsi] s).
Proof.
  intros Hs. unfold callback_on_writable.
  assert (requested [wsi] s s [E_on_writable wsi]) as H0.
  { split; [by apply handled_same|]. done. }
  eapply post_andThen; [apply post_Ok; exact H0|].
  intros s1 e1 H1. eapply (post_impl _ (requested [] s1));
    [|intros s2 e2 H2; exact (requested_trans _ _ _ _ _ _ _ H1 H2)].
  assert (Inv s1) as Hs1 by apply H1. clear Hs H1 H0 s e1. revert s1 Hs1.
  induction changes as [|[f ev] ch IH]; intros s Hs; simpl.
  - apply post_Ok. split; [by apply handled_refl|done].
  - eapply (post_andThen _ _ (requested [] s)).
    + apply post_Ok. split; [by apply handled_same|done].
    + intros s2 e2 H2. eapply post_impl; [apply IH, H2|].
      intros s3 e3 H3. exact (requested_trans [] [] _ _ _ _ _ H2 H3).
Qed.

Lemma notify_requested i conns : forall s, Inv s ->
  post (for_each (fun c : Z * bytes => callback_on_writable c.1 (writable_changes i c.1)) conns s)
    (requested conns.*1 s).
Proof.
  induction conns as [|c conns IH]; intros s Hs; simpl.
  - apply post_Ok. split; [by apply handled_refl|done].
  - eapply post_andThen; [by apply callback_on_writable_requested|].
    intros s1 e1 H1. eapply post_impl; [apply IH, H1|].
    intros s2 e2 H2. exact (requested_trans [_] _ _ _ _ _ _ H1 H2).
Qed.

(** What the end of a round does. *)
Definition flushed (s s' : Serveri) (e : list effect) : Prop :=
  Inv s' /\ lightsDirty s' = false /\ dmx s' = dmx s /\ currentState s' = currentState s /\
  monitorConnections s' = monitorConnections s /\
  UDPfd s' = UDPfd s /\ buflen s' = buflen s /\
  tty_writes e = (if lightsDirty s then [(fd (dmx s), dmxPacket (dmx s))] else []) /\
  writable_requests e = (if lightsDirty s then (map_to_list (monitorConnections s)).*1 else []).

Lemma flush_flushed i s : Inv s -> post (flush i s) (flushed s).
Proof.
  intros Hs. unfold flush. destruct (lightsDirty s) eqn:Ed.
  2: { apply post_Ok. unfold flushed. by rewrite Ed. }
  pose proof (inv_core _ Hs) as Hc.
  unfold update. set (s1 := set_message (store_message (monitorMessage s)
    (monitor_text (currentState s))) (set_dirty false s)).
  assert (Inv s1) as H1.
  { destruct Hc. split; [by split|]. intros _. unfold message_current, s1. simpl. apply drop_pad. }
  set (e0 := [E_tty_write (fd (dmx s)) (dmxPacket (dmx s));
              E_log Debug (str "write returned {}") [FNum (write_result i)]]).
  eapply (post_andThen _ _ (fun s2 e2 => s2 = set_dirty false s /\ e2 = e0)); [by apply post_Ok|].
  intros ? ? [-> ->]. rewrite updateMonitorMessage_eq by apply Hc. fold s1.
  eapply (post_andThen _ _ (fun s2 e2 => s2 = s1 /\ e2 = [])); [by apply post_Ok|].
  intros ? ? [-> ->].
  assert (forall w s2 e2, requested w s1 s2 e2 ->
    w = (map_to_list (monitorConnections s)).*1 -> flushed s s2 (e0 ++ [] ++ e2)) as Hfin.
  { intros w s2 e2 ([I2 _ [? ?] Q2 _] & R2 & ? & ? & ? & ? & ?) ->. unfold flushed. rewrite Ed.
    cbn [app]. rewrite tty_writes_app, writable_requests_app, Q2, R2.
    unfold s1 in *. cbn in *. split_and!; congruence || done. }
  cbn [monitorConnections s1 set_message set_dirty].
  destruct (map_to_list (monitorConnections s)) as [|c conns] eqn:Em.
  - apply post_Ok. apply (Hfin [] s1 []); [|done]. split; [by apply handled_refl|done].
  - eapply (post_andThen _ _ (requested [] s1)).
    { apply post_Ok. split; [by apply handled_same|done]. }
    intros s2 e2 H2. eapply post_impl; [apply notify_requested, H2|].
    intros s3 e3 H3. apply (Hfin _ s3 (e2 ++ e3)
      (requested_trans _ _ _ _ _ _ _ H2 H3)). done.
Qed.

(** ** A round *)






(** ** The constructed server *)

Lemma size_consecutive {A} (m : gmap Z A) n : 0 <= n ->
  (forall k, is_Some (m !! k) <-> 0 <= k < n) -> Z.of_nat (size m) = n.
Proof.
  intros Hn Hm. rewrite <- size_dom.
  assert (dom m = list_to_set (seqZ 0 n)) as ->.
  { apply set_eq. intros k. rewrite elem_of_dom, elem_of_list_to_set, elem_of_seqZ, Hm. lia. }
  rewrite size_list_to_set by apply NoDup_seqZ. rewrite length_seqZ. lia.
Qed.

Lemma initial_packet_zero j : (4 <= j < 516)%nat -> initial_packet !! j = Some 0.
Proof.
  intros Hj. unfold initial_packet.
  rewrite !list_lookup_insert_ne by lia. apply lookup_replicate_2. lia.
Qed.

Section Constructed.

Context {C : Type} `{!IniSource C}.


End Constructed.

(** ** Rounds in sequence *)







(** ** Properties *)

(** A server with the two lights of the sample configuration, clean. *)
Definition sample_serveri : Serveri :=
  let st := mk_LightState [] (<[0 := Color_default]> (<[1 := Color_default]> ∅)) in
  mk_Serveri 4 sample_dmx make_whitelist st 2048 ∅ [] [mk_pollfd 4 9 0] true.

Lemma sample_serveri_Inv : Inv sample_serveri.
Proof.
  assert (forall {A} (a b : A) k, is_Some (((<[0 := a]> (<[1 := b]> ∅)) : gmap Z A) !! k) <->
    0 <= k < 2) as Hk.
  { intros A a b k. destruct (decide (k = 0)) as [->|].
    { rewrite lookup_insert_eq. split; [lia|eauto]. }
    rewrite lookup_insert_ne by done. destruct (decide (k = 1)) as [->|].
    { rewrite lookup_insert_eq. split; [lia|eauto]. }
    rewrite lookup_insert_ne by done. rewrite lookup_empty. split; [intros [? ?]; done|lia]. }
  split; [split|done].
  - apply sample_dmx_ok.
  - split_and!.
    + intros k. rewrite (size_consecutive _ 2); [apply Hk|lia|apply Hk].
    + repeat apply map_Forall_insert_2; try apply map_Forall_empty;
        unfold color_ok, is_byte; simpl; lia.
    + apply Forall_nil_2.
  - intros k. simpl. rewrite !Hk. done.
  - done.
  - intros _ k l c Hl Hc. right. simpl in Hl, Hc.
    pose proof (proj2 sample_dmx_ok k l Hl) as [Ha _]. unfold is_byte in Ha.
    split.
    + destruct (decide (k = 0)) as [->|]; [by rewrite lookup_insert_eq in Hc; simplify_eq|].
      rewrite lookup_insert_ne in Hc by done.
      destruct (decide (k = 1)) as [->|]; [by rewrite lookup_insert_eq in Hc; simplify_eq|].
      by rewrite lookup_insert_ne, lookup_empty in Hc.
    + intros j Hj. assert (width (type l) <= 5)%nat by (destruct (type l); simpl; lia).
      apply initial_packet_zero. lia.
Qed.

Definition sample_packet : bytes :=
  encode_packet (mk_LightPacket (str "It") [mk_LightColor 0 (mk_Color 9 8 7);
                                            mk_LightColor 5 (mk_Color 1 1 1)]).

(** C2: the handler of a packet refines the abstract machine.  From any state
    satisfying the invariant, for any byte sequence below 2 GiB,
    [Serveri::lightPacket] returns normally, its light state is the abstract
    step on the reference reading of the packet, the invariant holds again (in
    particular the DMX frame is valid and, for lights that do not overlap,
    shows the new colours), the dirty flag is set, and connections, poll set,
    message and tty are untouched. *)
Theorem lightPacket_simulates buf s : input_ok buf -> Inv s ->
  exists s' es, lightPacket buf s = Ok (s', es) /\
    currentState s' = abs_packet (packet_spec buf) (currentState s) /\ Inv s' /\
    lightsDirty s' = true /\ tty_writes es = [] /\
    lightConfig (dmx s') = lightConfig (dmx s) /\
    monitorConnections s' = monitorConnections s /\ pollfds s' = pollfds s /\
    monitorMessage s' = monitorMessage s.
Proof.
  intros Hb Hs. destruct (lightPacket_refines buf s Hb Hs)
    as (s' & es & E & [I' [Hc _] _ Q _] & D & St & Mc & P & M).
  exists s', es. by split_and!.
Qed.

Lemma lightPacket_simulates_witness :
  exists s' es, lightPacket sample_packet sample_serveri = Ok (s', es) /\
    ls_tag (currentState s') = str "t" /\
    ls_lights (currentState s') !! 0 = Some (mk_Color 9 8 7) /\
    ls_lights (currentState s') !! 5 = None.
Proof.
  destruct (lightPacket_simulates sample_packet sample_serveri) as (s' & es & E & St & _).
  - split; [apply (bool_decide_unpack _); vm_compute; exact I|vm_compute; reflexivity].
  - exact sample_serveri_Inv.
  - exists s', es. split; [exact E|]. rewrite St. split_and!; vm_compute; reflexivity.
Defined.



Definition sample_round : round_input :=
  mk_round 1 [1] [] (Some sample_packet) (str "10.0.0.1", 999) 517 (fun _ => []) (fun _ => []).






(** The end of a round.  When the lights are dirty exactly one frame, the
    current one, is written to the tty, every monitor connection is asked for
    a writeable callback exactly once, the message becomes the JSON of the
    light state and the flag is cleared; when they are not, nothing is written
    and nobody is notified. *)
Theorem flush_spec i s : Inv s ->
  exists s' es, flush i s = Ok (s', es) /\ Inv s' /\
    lightsDirty s' = false /\ dmx s' = dmx s /\ currentState s' = currentState s /\
    message_current s' /\
    tty_writes es = (if lightsDirty s then [(fd (dmx s), dmxPacket (dmx s))] else []) /\
    NoDup (writable_requests es) /\
    (forall w, w ∈ writable_requests es <->
       lightsDirty s = true /\ is_Some (monitorConnections s !! w)).
Proof.
  intros Hs. destruct (flush_flushed i s Hs)
    as (s' & es & E & I' & D' & X' & C' & _ & _ & _ & T & W).
  exists s', es. split_and!; try done; [by apply I'|rewrite W..].
  - destruct (lightsDirty s); [apply NoDup_fst_map_to_list|apply NoDup_nil_2].
  - intros w. destruct (lightsDirty s).
    + rewrite list_elem_of_fmap. split.
      * intros ([k a] & -> & Hin%elem_of_map_to_list). simpl. eauto.
      * intros (_ & a & Ha). exists (w, a). split; [done|]. by apply elem_of_map_to_list.
    + split; [intros ?%not_elem_of_nil; done|intros [? _]; done].
Qed.

Lemma flush_spec_witness :
  exists s' es, flush sample_round sample_serveri = Ok (s', es) /\
    tty_writes es = [(3, initial_packet)] /\ message_current s'.
Proof.
  destruct (flush_spec sample_round sample_serveri sample_serveri_Inv)
    as (s' & es & E & _ & _ & _ & _ & M & T & _).
  exists s', es. split; [exact E|]. split; [exact T|exact M].
Defined.

(** C36: what a monitor is sent.  A writeable callback on a clean server sends
    the JSON text of the light state: an object in key order with the number
    of lights, the tag, and each light's colour as six hexadecimal digits under
    [light<k>], and no other member; the characters need no escaping. *)
Theorem monitor_message_content wsi padding changes s :
  Inv s -> lightsDirty s = false ->
  exists s' log obj, callback_monitor wsi (M_writeable padding) changes s =
      Ok (s', [log; E_ws_write wsi ([123] ++ members_text obj ++ [125])]) /\
    dump obj = Some ([123] ++ members_text obj ++ [125]) /\ key_sorted obj /\
    obj_get obj (str "tag") = Some (JStr (ls_tag (currentState s))) /\
    obj_get obj (str "numLights") = Some (JNum (Z.of_nat (size (ls_lights (currentState s))))) /\
    (forall k c, ls_lights (currentState s) !! k = Some c ->
       obj_get obj (light_key k) = Some (JStr (color_hex c))) /\
    (forall key v, obj_get obj key = Some v -> key = str "tag" \/ key = str "numLights" \/
       exists k, is_Some (ls_lights (currentState s) !! k) /\ key = light_key k).
Proof.
  intros Hs Hd. pose proof (inv_message _ Hs Hd) as Hm. unfold message_current in Hm.
  pose proof (inv_state _ (inv_core _ Hs)) as Hst. pose proof Hst as (Hk & _).
  simpl. rewrite Hm. unfold monitor_text.
  eexists _, _, (monitor_object (currentState s)). split; [done|].
  split; [apply dump_plain, monitor_object_plain, Hst|].
  assert (forall k, 0 <= k < 0 + Z.of_nat (size (ls_lights (currentState s))) ->
    is_Some (ls_lights (currentState s) !! k)) as Hall by (intros; apply Hk; lia).
  unfold monitor_object. split; [by apply add_lights_sorted, obj_set_sorted, obj_set_sorted|].
  set (j := obj_set (obj_set [] _ _) _ _).
  pose proof (fun key => add_lights_get _ 0 _ j key ltac:(lia) Hall) as HG.
  split; [|split; [|split]].
  - destruct (HG (str "tag")) as [->|(k & c & _ & E & _)]; [done|done].
  - destruct (HG (str "numLights")) as [->|(k & c & _ & E & _)]; [done|done].
  - intros k c Hc. eapply add_lights_get_light; [lia|done| |done].
    destruct (proj1 (Hk k)); [eauto|lia].
  - intros key v Hv. destruct (HG key) as [E|(k & c & _ & -> & Hc & _)]; [|eauto 10].
    rewrite E in Hv. subst j.
    destruct (decide (str "tag" = key)) as [<-|H1]; [by left|]. rewrite obj_get_set_ne in Hv by done.
    destruct (decide (str "numLights" = key)) as [<-|H2]; [by right; left|].
    rewrite obj_get_set_ne in Hv by done. done.
Qed.

Lemma monitor_message_content_witness :
  exists s s' log obj, callback_monitor 7 (M_writeable []) [] s =
      Ok (s', [log; E_ws_write 7 ([123] ++ members_text obj ++ [125])]) /\
    obj_get obj (light_key 1) = Some (JStr (str "000000")).
Proof.
  set (s := set_message (store_message [] (monitor_text (currentState sample_serveri)))
              (set_dirty false sample_serveri)).
  assert (Inv s) as Hs.
  { destruct sample_serveri_Inv as [[A B C D E] _]. split; [split; assumption|].
    intros _. apply drop_pad. }
  destruct (monitor_message_content 7 [] [] s Hs eq_refl) as (s' & log & obj & E & _ & _ & _ & _ & H & _).
  exists s, s', log, obj. split; [exact E|]. exact (H 1 Color_default eq_refl).
Defined.

(** ** The poll set *)

(** The poll set.  Adding a descriptor appends it with no pending events;
    deleting removes every entry of the descriptor and no other, in order;
    changing the events touches exactly the descriptor's entries; deleting a
    descriptor just added to a set without it restores the set. *)
Theorem poll_set_spec fd events s :
  (exists e, addFD fd events s = Ok (set_pollfds (pollfds s ++ [mk_pollfd fd events 0]) s, e)) /\
  (exists e, deleteFD fd s = Ok (set_pollfds (filter (fun p => p_fd p <> fd) (pollfds s)) s, e)) /\
  (exists e, setFDEvents fd events s = Ok (set_pollfds
     ((fun p => if decide (p_fd p = fd) then mk_pollfd fd events (p_revents p) else p) <$> pollfds s)
     s, e)) /\
  (Forall (fun p => p_fd p <> fd) (pollfds s) ->
     exists e, andThen (addFD fd events s) (deleteFD fd) = Ok (s, e)).
Proof.
  assert (forall ps, erase_fd fd ps = filter (fun p => p_fd p <> fd) ps) as Her.
  { induction ps as [|p ps IH]; [done|]. simpl. destruct (Z.eqb_spec (p_fd p) fd).
    - by rewrite filter_cons_False by tauto.
    - by rewrite filter_cons_True, IH. }
  split; [by eexists|]. split; [|split].
  - eexists. unfold deleteFD. by rewrite Her.
  - eexists. unfold setFDEvents. do 3 f_equal.
    induction (pollfds s) as [|p ps IH]; [done|]. csimpl. rewrite IH. f_equal.
    destruct (Z.eqb_spec (p_fd p) fd) as [<-|]; [by rewrite decide_True|by rewrite decide_False].
  - intros Hf. eexists. unfold andThen, addFD, deleteFD. cbn [mbind res_bind pollfds set_pollfds].
    rewrite Her, filter_app, filter_cons_False, filter_nil, app_nil_r by (simpl; tauto).
    rewrite filter_all by done. by destruct s.
Qed.

Lemma poll_set_spec_witness :
  exists e, andThen (addFD 5 1 sample_serveri) (deleteFD 5) = Ok (sample_serveri, e).
Proof.
  apply (poll_set_spec 5 1 sample_serveri). simpl. constructor; [discriminate|constructor].
Defined.

(** The descriptors of a set with events. *)
Definition ready (p : pollfd) : bool := negb (p_revents p =? 0).

(** A set with no ready descriptor. *)
Lemma idle_rest s todo : filter (fun p => Is_true (ready p)) todo = [] ->
  filter (fun p => Is_true (ready p) /\ p_fd p <> UDPfd s) todo = [] /\
  (fun p => mk_pollfd (p_fd p) (p_events p) 0) <$> todo = todo /\
  existsb (udp_ready s) todo = false.
Proof.
  intros Hnil. assert (forall q, q ∈ todo -> p_revents q = 0) as Hq.
  { intros q Hin. destruct (ready q) eqn:Eq; [|unfold ready in Eq; by zbool]. exfalso.
    apply (not_elem_of_nil q). rewrite <- Hnil. apply list_elem_of_filter. by rewrite Eq. }
  split; [|split].
  - apply filter_none. intros q Hin [Hr _]. unfold ready in Hr. by rewrite (Hq q Hin) in Hr.
  - clear Hnil. induction todo as [|q todo IH]; [done|]. csimpl. f_equal.
    + pose proof (Hq q ltac:(left)). destruct q. simpl in *. congruence.
    + apply IH. intros q' Hin. apply Hq. by right.
  - apply not_true_iff_false. intros (q & Hin & Hu)%existsb_exists.
    apply list_elem_of_In, Hq in Hin. unfold udp_ready in Hu. by rewrite Hin in Hu.
Qed.

(** The scan's bookkeeping: the counter never ends the scan before the last
    ready descriptor. *)
Lemma scan_fds_process i todo : forall count d s,
  pollresult i = count + Z.of_nat (length (filter (fun p => Is_true (ready p)) todo)) ->
  (existsb (udp_ready s) todo = true -> recv_ok i) -> Inv s -> (buflen s <= 2048)%nat ->
  exists s' e, scan_fds i count d todo s =
      Ok (s', filter (fun p => Is_true (ready p) /\ p_fd p <> UDPfd s) todo, e) /\
    pollfds s' = d ++ ((fun p => mk_pollfd (p_fd p) (p_events p) 0) <$> todo) /\
    (existsb (udp_ready s) todo = true -> lightsDirty s' = true) /\
    (lightsDirty s = true -> lightsDirty s' = true).
Proof.
  induction todo as [|p todo IH]; intros count d s Hc Hr Hs Hb; cbn [scan_fds].
  { exists (set_pollfds d s), []. by rewrite app_nil_r. }
  assert (forall x, pollfds x = (d ++ [mk_pollfd (p_fd p) (p_events p) 0]) ++
      ((fun p => mk_pollfd (p_fd p) (p_events p) 0) <$> todo) ->
    pollfds x = d ++ ((fun p => mk_pollfd (p_fd p) (p_events p) 0) <$> p :: todo)) as Hx.
  { intros x ->. by rewrite <- app_assoc. }
  destruct (ready p) eqn:Ep.
  - rewrite filter_cons_True in Hc by (by rewrite Ep). simpl in Hc.
    destruct (Z.leb_spec (pollresult i) count); [lia|].
    unfold ready in Ep. rewrite Ep. simpl in Hr |- *. unfold udp_ready in Hr |- * at 1.
    rewrite Ep in Hr |- *. cbn [andb] in Hr |- *.
    destruct (p_fd p =? UDPfd s) eqn:Eu.
    + destruct (receive_datagram_handled i s) as (s1 & e1 & -> & H1 & Hd1); [by apply Hr|done..|].
      cbn [mbind res_bind]. destruct (h_static _ _ _ H1) as [Hu Hbl].
      destruct (IH (count + 1) (d ++ [mk_pollfd (p_fd p) (p_events p) 0]) s1)
        as (s2 & e2 & -> & Hp & _ & Hdd); [lia|intros _; by apply Hr|apply H1|by rewrite Hbl|].
      exists s2, (e1 ++ e2). cbn [mbind res_bind]. zbool.
      rewrite filter_cons_False by tauto. rewrite Hu. split; [done|]. split; [by apply Hx|].
      split; intros _; by apply Hdd.
    + destruct (IH (count + 1) (d ++ [mk_pollfd (p_fd p) (p_events p) 0]) s)
        as (s2 & e2 & -> & Hp & H1 & H2); [lia|done..|].
      exists s2, e2. cbn [mbind res_bind]. apply Z.eqb_neq in Eu.
      rewrite filter_cons_True by (unfold ready; rewrite Ep; by split).
      split; [done|]. split; [by apply Hx|]. done.
  - rewrite filter_cons_False in Hc by (rewrite Ep; by intros []).
    assert (p_revents p = 0) as E0 by (unfold ready in Ep; by zbool).
    assert (mk_pollfd (p_fd p) (p_events p) 0 = p) as Ep0 by (destruct p; simpl in *; congruence).
    assert (udp_ready s p = false) as Eu by (unfold udp_ready; by rewrite E0).
    rewrite filter_cons_False by (rewrite Ep; by intros [[] _]).
    cbn [existsb] in Hr |- *. rewrite Eu in Hr |- *. cbn [orb] in Hr |- *.
    destruct (Z.leb_spec (pollresult i) count) as [Hle|Hgt].
    + destruct (idle_rest s todo) as (-> & Hclear & Hno); [apply nil_length_inv; lia|].
      exists (set_pollfds (d ++ p :: todo) s), [].
      split; [done|]. split; [|split; [by rewrite Hno|done]].
      cbn [pollfds set_pollfds fmap list_fmap]. rewrite Ep0. do 2 f_equal.
      symmetry. exact Hclear.
    + destruct (IH count (d ++ [p]) s) as (s2 & e2 & E & Hp & H1 & H2); [done..|].
      unfold ready in Ep. rewrite Ep, E. exists s2, e2. split; [done|]. split; [|done].
      rewrite Ep0 in Hx. by apply Hx.
Qed.

Lemma set_revents_fds rs ps : p_fd <$> set_revents rs ps = p_fd <$> ps.
Proof.
  revert rs. induction ps as [|p ps IH]; intros rs; [done|].
  cbn [set_revents]. rewrite !fmap_cons, IH. done.
Qed.

(** No event is lost by the early exit.  When [poll] returned the number
    of descriptors with events, the scan hands exactly the ready descriptors
    other than the UDP socket to libwebsockets, in order, receives a datagram
    when the UDP socket is ready, and leaves every [revents] cleared. *)
Theorem scan_complete i s :
  let polled := set_revents (poll_revents i) (pollfds s) in
  pollresult i = Z.of_nat (length (filter (fun p => Is_true (ready p)) polled)) ->
  (existsb (udp_ready s) polled = true -> recv_ok i) -> Inv s -> (buflen s <= 2048)%nat ->
  exists s' e, scan_fds i 0 [] polled s =
      Ok (s', filter (fun p => Is_true (ready p) /\ p_fd p <> UDPfd s) polled, e) /\
    Forall (fun p => p_revents p = 0) (pollfds s') /\
    p_fd <$> pollfds s' = p_fd <$> pollfds s /\
    (existsb (udp_ready s) polled = true -> lightsDirty s' = true).
Proof.
  intros polled Hc Hr Hs Hb.
  destruct (scan_fds_process i polled 0 [] s) as (s' & e & -> & Hp & Hd & _); [lia|done..|].
  exists s', e. split; [done|]. rewrite Hp. cbn [app]. split; [|split; [|done]].
  - apply Forall_fmap. by apply Forall_true.
  - rewrite <- list_fmap_compose. apply set_revents_fds.
Qed.

Lemma scan_complete_witness :
  exists s' e, scan_fds sample_round 0 []
      (set_revents (poll_revents sample_round) (pollfds sample_serveri)) sample_serveri =
    Ok (s', [], e) /\ lightsDirty s' = true.
Proof.
  destruct (scan_complete sample_round sample_serveri) as (s' & e & E & _ & _ & D).
  - vm_compute. reflexivity.
  - intros _. exists sample_packet. split; [reflexivity|].
    apply (bool_decide_unpack _). vm_compute. exact I.
  - exact sample_serveri_Inv.
  - simpl. lia.
  - exists s', e. split; [exact E|]. apply D. vm_compute. reflexivity.
Defined.

(** A failing [recvfrom] ends the server.  When the first ready descriptor
    is the UDP socket and [recvfrom] returns -1 (an error event on the socket,
    an interrupted or spurious wake-up), the span precondition of
    [buffer.first(len)] is violated and the program terminates. *)
Theorem recvfrom_failure_terminates i s idle p rest :
  0 < pollresult i -> received i = None ->
  set_revents (poll_revents i) (pollfds s) = idle ++ p :: rest ->
  Forall (fun q => p_revents q = 0) idle -> udp_ready s p = true ->
  run_round i s = Err contract_violation.
Proof.
  intros Hp Hr E Hi Hu. unfold run_round. destruct (Z.ltb_spec (pollresult i) 0); [lia|].
  rewrite E. generalize (@nil pollfd). clear E.
  induction Hi as [|q idle Hq _ IH]; intros d.
  - cbn [app scan_fds]. destruct (Z.leb_spec (pollresult i) 0); [lia|].
    unfold udp_ready in Hu. apply andb_true_iff in Hu as [-> ->].
    unfold receive_datagram. by rewrite Hr.
  - cbn [app scan_fds]. destruct (Z.leb_spec (pollresult i) 0); [lia|].
    rewrite Hq. cbn [Z.eqb negb]. apply IH.
Qed.

Lemma recvfrom_failure_terminates_witness :
  run_round (mk_round 1 [8] [] None ([], 0) 0 (fun _ => []) (fun _ => [])) sample_serveri
    = Err contract_violation.
Proof.
  apply (recvfrom_failure_terminates _ _ [] (mk_pollfd 4 9 8) []).
  - simpl. lia.
  - reflexivity.
  - reflexivity.
  - constructor.
  - reflexivity.
Defined.

(** The tag filter.  It keeps exactly the whitelisted characters of the
    tag, in order; every ASCII letter and digit is whitelisted except the
    capital I, which is erased from every tag. *)
Theorem tag_filter_spec tag :
  filter_tag make_whitelist tag = filter (fun c => c ∈ make_whitelist) tag /\
  (forall c, 97 <= c <= 122 \/ 65 <= c <= 90 \/ 48 <= c <= 57 ->
     (c ∈ make_whitelist <-> c <> 73)) /\
  73 ∉ filter_tag make_whitelist tag.
Proof.
  assert (filter_tag make_whitelist tag = filter (fun c => c ∈ make_whitelist) tag) as HF.
  { induction tag as [|c tag IH]; [done|]. simpl. destruct (decide (c ∈ make_whitelist)) as [Hc|Hc].
    - rewrite filter_cons_True by done. by rewrite IH.
    - by rewrite filter_cons_False. }
  assert (73 ∉ make_whitelist) as H73 by (apply (bool_decide_unpack _); vm_compute; exact I).
  split; [done|]. split.
  - assert (Forall (fun c => c <> 73 -> c ∈ make_whitelist)
      (seqZ 97 26 ++ seqZ 65 26 ++ seqZ 48 10)) as HA.
    { apply (bool_decide_unpack _). vm_compute. exact I. }
    rewrite Forall_forall in HA. intros c Hc. split; [by intros Hin ->|].
    apply HA. rewrite !elem_of_app, !elem_of_seqZ. lia.
  - rewrite HF, list_elem_of_filter. tauto.
Qed.

Lemma tag_filter_spec_witness : filter_tag make_whitelist (str "Instanssi") = str "nstanssi".
Proof. rewrite (proj1 (tag_filter_spec (str "Instanssi"))). vm_compute. reflexivity. Defined.
