(* ===== verification/Programs.v ===== *)
(** * The programs (main of valoserveri/serveri.cpp and of test.cpp)

    How the components are put together: the server reads the configuration,
    starts the logger, constructs the server and runs it; the test program
    sets every light it can name to one colour. *)

From S2P Require Import Prelude CLib Ini Config Logger Dmx LightPacket MonitorJson Serveri ServeriInv ServeriProps.


(** The colour of the test program: the three arguments, or random numbers. *)
Definition test_color (args : list bytes) (rand : Z * Z * Z) : Color :=
  match args with
  | [r; g; b] => mk_Color (u8 (atoi r)) (u8 (atoi g)) (u8 (atoi b))
  | _ => let '(r, g, b) := rand in
         mk_Color (u8 (Z.land r 255)) (u8 (Z.land g 255)) (u8 (Z.land b 255))
  end.

(** [for (i = 0; i < 25; i++) dmx.setLightColor(i, c);] *)
Fixpoint set_all (n : nat) (i : Z) (c : Color) (d : DMXController) : res exn DMXController :=
  match n with
  | O => Ok d
  | S n' => d ← setLightColor d i c; set_all n' (i + 1) c d
  end.

(** [main] of the test program: the frame it writes. *)
Definition test_main (conf : option bytes) (fopen_ok : bool) (now : bytes) (open_fd : bytes -> Z)
    (args : list bytes) (rand : Z * Z * Z) : res exn (Z * bytes) :=
  let config := INIReader_new conf in
  _ ← Logger_new config fopen_ok now (mk_log_world None []);
  _ ← LightsConfig_parse config;
  d ← DMXController_new config open_fd;
  d ← set_all 25 0 (test_color args rand) d;
  Ok (update d).

(** ** Facts *)

Lemma test_color_ok args rand : color_ok (test_color args rand).
Proof.
  unfold test_color, color_ok. destruct rand as [[r g] b].
  destruct args as [|a [|b' [|c [|d args]]]]; simpl; split_and!; apply u8_range.
Qed.

(** The bytes of the lights set so far hold the colour. *)
Lemma set_all_spec n i c d : dmx_ok d -> color_ok c ->
  lights_disjoint (lights (lightConfig d)) ->
  exists d', set_all n i c d = Ok d' /\ dmx_ok d' /\ lightConfig d' = lightConfig d /\
    fd d' = fd d /\
    forall k l j, lights (lightConfig d) !! k = Some l -> (j < width (type l))%nat ->
      let o := (Z.to_nat (address l + 4) + j)%nat in
      dmxPacket d' !! o = if decide (i <= k < i + Z.of_nat n) then slot l c j
                          else dmxPacket d !! o.
Proof.
  intros Hd Hc. revert i d Hd. induction n as [|n IH]; intros i d Hd Hdis.
  { exists d. split_and!; try done. intros. by rewrite decide_False by lia. }
  cbn [set_all].
  destruct (lights (lightConfig d) !! i) as [li|] eqn:Ei.
  - destruct (setLightColor_known d i li c Hd Ei Hc) as (p & -> & Hp & Hall).
    cbn [mbind res_bind].
    destruct (IH (i + 1) (mk_DMX (fd d) p (lightConfig d))) as (d' & -> & Hd' & Hcfg & Hfd & Hk);
      [split; [done|apply Hd]|done|].
    exists d'. split_and!; try done. intros k l j Hl Hj. cbv zeta.
    rewrite (Hk k l j Hl Hj). simpl. rewrite Hall. cbv zeta.
    pose proof (proj2 Hd _ _ Hl) as [Hal _]. pose proof (proj2 Hd _ _ Ei) as [Hai _].
    unfold is_byte in *. destruct (decide (k = i)) as [->|Hne].
    + simplify_eq. rewrite decide_False by lia. rewrite !decide_True by lia. f_equal. lia.
    + pose proof (Hdis _ _ _ _ Hne Hl Ei) as Hx. unfold disjoint_lights in Hx.
      repeat case_decide; done || lia.
  - rewrite setLightColor_unknown by done. cbn [mbind res_bind].
    destruct (IH (i + 1) d Hd Hdis) as (d' & -> & Hd' & Hcfg & Hfd & Hk).
    exists d'. split_and!; try done. intros k l j Hl Hj. cbv zeta.
    rewrite (Hk k l j Hl Hj). destruct (decide (k = i)) as [->|Hne]; [congruence|].
    repeat case_decide; done || lia.
Qed.

(** The test program.  When it runs to the end it writes one frame, valid
    for the adapter, in which (for lights that do not overlap) every configured
    light below 25 shows the colour of the command line. *)
Theorem test_main_spec conf fopen_ok now open_fd args rand out :
  test_main conf fopen_ok now open_fd args rand = Ok out ->
  exists lc, LightsConfig_parse (INIReader_new conf) = Ok lc /\ frame_ok out.2 /\
    (lights_disjoint (lights lc) -> forall k l j, 0 <= k < 25 -> lights lc !! k = Some l ->
       (j < width (type l))%nat ->
       out.2 !! (Z.to_nat (address l + 4) + j)%nat = slot l (test_color args rand) j).
Proof.
  unfold test_main. cbv zeta. intros (w & _ & H)%res_bind_Ok.
  apply res_bind_Ok in H as (lc & Hlc & H). apply res_bind_Ok in H as (d & Hd & H).
  apply res_bind_Ok in H as (d' & Hd' & [= <-]).
  pose proof (DMXController_new_ok _ _ _ Hd) as Hok.
  assert (lightConfig d = lc) as Hcfg.
  { unfold DMXController_new in Hd. rewrite Hlc in Hd. cbn [mbind res_bind] in Hd.
    apply res_bind_Ok in Hd as (t & _ & [= <-]). done. }
  exists lc. split; [done|].
  assert (forall n i d1, dmx_ok d1 -> forall d2, set_all n i (test_color args rand) d1 = Ok d2 ->
    dmx_ok d2) as Hpres.
  { clear. induction n as [|n IH]; intros i d1 H1 d2; simpl; [by intros [= <-]|].
    destruct (setLightColor_total d1 i (test_color args rand) H1 (test_color_ok _ _))
      as (d3 & -> & H3 & _). by apply IH. }
  split; [apply (Hpres _ _ _ Hok _ Hd')|].
  rewrite <- Hcfg. intros Hdis k l j Hk Hl Hj.
  destruct (set_all_spec 25 0 _ d Hok (test_color_ok args rand) Hdis)
    as (d'' & E & _ & _ & _ & HH). rewrite Hd' in E. injection E as <-.
  simpl. rewrite (HH k l j Hl Hj), decide_True by lia. done.
Qed.

Lemma test_main_spec_witness :
  exists out, test_main (Some sample_conf) true [] (fun _ => 3) [str "10"; str "20"; str "300"]
      (0, 0, 0) = Ok out /\ frame_ok out.2.
Proof.
  destruct (test_main (Some sample_conf) true [] (fun _ => 3) [str "10"; str "20"; str "300"]
      (0, 0, 0)) as [out|x] eqn:E.
  - exists out. split; [reflexivity|].
    destruct (test_main_spec _ _ _ _ _ _ _ E) as (lc & _ & H & _). exact H.
  - exfalso. revert E. vm_compute. discriminate.
Defined.


