(* ===== verification/Utf8.v ===== *)
(** * UTF-8 validation (libwebsockets lib/core/libwebsockets.c)

    The incremental validator applied to text frames and close reasons: one
    state byte encodes the permitted range of the next byte and how many
    follow.  The reference is the encoding of Unicode scalar values. *)

From S2P Require Import Prelude.

Module Utf8.

Definition e0f4 : list Z :=
  [ Z.lor (Z.lor 160 (Z.shiftl (2 - 1) 2)) 1; (* e0 *)
    Z.lor (Z.lor 128 (Z.shiftl (4 - 1) 2)) 1; (* e1 *)
    Z.lor (Z.lor 128 (Z.shiftl (4 - 1) 2)) 1; (* e2 *)
    Z.lor (Z.lor 128 (Z.shiftl (4 - 1) 2)) 1; (* e3 *)
    Z.lor (Z.lor 128 (Z.shiftl (4 - 1) 2)) 1; (* e4 *)
    Z.lor (Z.lor 128 (Z.shiftl (4 - 1) 2)) 1; (* e5 *)
    Z.lor (Z.lor 128 (Z.shiftl (4 - 1) 2)) 1; (* e6 *)
    Z.lor (Z.lor 128 (Z.shiftl (4 - 1) 2)) 1; (* e7 *)
    Z.lor (Z.lor 128 (Z.shiftl (4 - 1) 2)) 1; (* e8 *)
    Z.lor (Z.lor 128 (Z.shiftl (4 - 1) 2)) 1; (* e9 *)
    Z.lor (Z.lor 128 (Z.shiftl (4 - 1) 2)) 1; (* ea *)
    Z.lor (Z.lor 128 (Z.shiftl (4 - 1) 2)) 1; (* eb *)
    Z.lor (Z.lor 128 (Z.shiftl (4 - 1) 2)) 1; (* ec *)
    Z.lor (Z.lor 128 (Z.shiftl (2 - 1) 2)) 1; (* ed *)
    Z.lor (Z.lor 128 (Z.shiftl (4 - 1) 2)) 1; (* ee *)
    Z.lor (Z.lor 128 (Z.shiftl (4 - 1) 2)) 1; (* ef *)
    Z.lor (Z.lor 144 (Z.shiftl (3 - 1) 2)) 2; (* f0 *)
    Z.lor (Z.lor 128 (Z.shiftl (4 - 1) 2)) 2; (* f1 *)
    Z.lor (Z.lor 128 (Z.shiftl (4 - 1) 2)) 2; (* f2 *)
    Z.lor (Z.lor 128 (Z.shiftl (4 - 1) 2)) 2; (* f3 *)
    Z.lor (Z.lor 128 (Z.shiftl (1 - 1) 2)) 2; (* f4 *)
    0;                                        (* s0 *)
    Z.lor (Z.lor 128 (Z.shiftl (4 - 1) 2)) 0; (* s2 *)
    Z.lor (Z.lor 128 (Z.shiftl (4 - 1) 2)) 1  (* s3 *) ].

Definition e0f4_at (i : Z) : Z := nth (Z.to_nat i) e0f4 0.

(** Returns the next state or -1. *)
Definition lws_check_byte_utf8 (state c : Z) : Z :=
  let s := state in
  if s =? 0 then
    if c >=? 128 then
      if (c <? 194) || (c >? 244) then -1
      else if c <? 224 then Z.lor 128 (Z.shiftl (4 - 1) 2)
      else e0f4_at (c - 224)
    else s
  else if (c <? Z.land s 240) || (c >=? Z.land s 240 + 16 + Z.land (Z.shiftl s 2) 48) then -1
  else e0f4_at (21 + Z.land s 3).

(** The body of the loop of [lws_check_utf8]: [None] for [return 1]. *)
Definition utf8_step (s c : Z) : option Z :=
  if s =? 0 then
    if c >=? 128 then
      if (c <? 194) || (c >? 244) then None
      else if c <? 224 then Some (Z.lor 128 (Z.shiftl (4 - 1) 2))
      else Some (e0f4_at (c - 224))
    else Some s
  else if (c <? Z.land s 240) || (c >=? Z.land s 240 + 16 + Z.land (Z.shiftl s 2) 48) then None
  else Some (e0f4_at (21 + Z.land s 3)).

(** [None] when it returns 1 (and leaves [*state]), [Some] of the new
    [*state] when it returns 0. *)
Fixpoint lws_check_utf8 (s : Z) (buf : bytes) : option Z :=
  match buf with
  | [] => Some s
  | c :: buf' => s' ← utf8_step s c; lws_check_utf8 s' buf'
  end.

(** ** Unicode *)

Definition scalar (cp : Z) : Prop := 0 <= cp < 0xD800 \/ 0xE000 <= cp < 0x110000.

#[global] Instance scalar_dec cp : Decision (scalar cp).
Proof. unfold scalar. apply _. Defined.

(** RFC 3629, section 3. *)
Definition utf8_encode (cp : Z) : bytes :=
  if cp <? 0x80 then [cp]
  else if cp <? 0x800 then [0xC0 + cp / 64; 0x80 + cp mod 64]
  else if cp <? 0x10000 then [0xE0 + cp / 4096; 0x80 + cp / 64 mod 64; 0x80 + cp mod 64]
  else [0xF0 + cp / 262144; 0x80 + cp / 4096 mod 64; 0x80 + cp / 64 mod 64; 0x80 + cp mod 64].

Definition in_range (lo hi s c : Z) : option Z :=
  if (c <? lo) || (c >=? hi) then None else Some s.

(** The state machine, state by state. *)
Lemma step_8c c : utf8_step 140 c = in_range 0x80 0xC0 0 c.
Proof. reflexivity. Qed.
Lemma step_8d c : utf8_step 141 c = in_range 0x80 0xC0 140 c.
Proof. reflexivity. Qed.
Lemma step_8e c : utf8_step 142 c = in_range 0x80 0xC0 141 c.
Proof. reflexivity. Qed.
Lemma step_a5 c : utf8_step 165 c = in_range 0xA0 0xC0 140 c.
Proof. reflexivity. Qed.
Lemma step_85 c : utf8_step 133 c = in_range 0x80 0xA0 140 c.
Proof. reflexivity. Qed.
Lemma step_9a c : utf8_step 154 c = in_range 0x90 0xC0 141 c.
Proof. reflexivity. Qed.
Lemma step_82 c : utf8_step 130 c = in_range 0x80 0x90 141 c.
Proof. reflexivity. Qed.

Create Rewrite HintDb utf8.
#[local] Hint Rewrite step_8c step_8d step_8e step_a5 step_85 step_9a step_82 : utf8.

(** The first byte of a character. *)
Definition lead (c : Z) : option Z :=
  if c <? 0x80 then Some 0
  else if c <? 0xC2 then None
  else if c <? 0xE0 then Some 140
  else if c =? 0xE0 then Some 165
  else if c =? 0xED then Some 133
  else if c <? 0xF0 then Some 141
  else if c =? 0xF0 then Some 154
  else if c <? 0xF4 then Some 142
  else if c =? 0xF4 then Some 130
  else None.

Lemma step_0 c : is_byte c -> utf8_step 0 c = lead c.
Proof.
  intros Hc. assert (Forall (fun c => utf8_step 0 c = lead c) (seqZ 0 256)) as H.
  { apply (bool_decide_unpack _). vm_compute. exact I. }
  rewrite Forall_forall in H. apply H. rewrite elem_of_seqZ. unfold is_byte in Hc. lia.
Qed.

Lemma in_range_Some lo hi s c s' : in_range lo hi s c = Some s' <-> lo <= c < hi /\ s' = s.
Proof.
  unfold in_range. destruct (Z.ltb_spec c lo), (Z.geb_spec c hi); simpl; split;
    try (intros [? ?]; lia); try discriminate; [by intros [= ->]; lia|by intros [_ ->]].
Qed.

Lemma check_app s a b : lws_check_utf8 s (a ++ b) = lws_check_utf8 s a ≫= fun s' => lws_check_utf8 s' b.
Proof.
  revert s. induction a as [|c a IH]; intros s; simpl; [done|].
  destruct (utf8_step s c); simpl; [apply IH|done].
Qed.

Lemma check_cons s c l s' : lws_check_utf8 s (c :: l) = Some s' ->
  exists s1, utf8_step s c = Some s1 /\ lws_check_utf8 s1 l = Some s'.
Proof. simpl. destruct (utf8_step s c); simpl; [eauto|done]. Qed.

(** An encoded character takes the machine from 0 to 0. *)
Lemma check_encode cp : scalar cp -> lws_check_utf8 0 (utf8_encode cp) = Some 0.
Proof.
  intros Hcp. unfold scalar in Hcp.
  assert (forall lo hi s c, lo <= c < hi -> in_range lo hi s c = Some s) as Hr
    by (intros; by apply in_range_Some).
  unfold utf8_encode. repeat case_goal; zbool; cbn [lws_check_utf8];
    (rewrite step_0 by (unfold is_byte; dlia)); unfold lead;
    repeat match goal with
    | |- context [if ?x <? ?y then _ else _] => destruct (Z.ltb_spec x y); try (exfalso; dlia)
    | |- context [if ?x =? ?y then _ else _] => destruct (Z.eqb_spec x y); try (exfalso; dlia)
    end; cbn [mbind option_bind]; autorewrite with utf8;
    repeat (rewrite Hr by dlia; cbn [mbind option_bind]; autorewrite with utf8); try done.
Qed.

(** Reading a character back from its bytes. *)
Definition cont (c : Z) : Prop := 0x80 <= c < 0xC0.

Lemma decode2 a b : 0xC2 <= a < 0xE0 -> cont b ->
  exists cp, scalar cp /\ utf8_encode cp = [a; b].
Proof.
  unfold cont, scalar, utf8_encode. intros Ha Hb. exists ((a - 0xC0) * 64 + (b - 0x80)).
  split; [lia|]. set (cp := (a - 0xC0) * 64 + (b - 0x80)).
  destruct (Z.ltb_spec cp 0x80); [lia|]. destruct (Z.ltb_spec cp 0x800); [|lia].
  assert (cp / 64 = a - 0xC0) by dlia. assert (cp mod 64 = b - 0x80) by dlia. repeat f_equal; lia.
Qed.

Lemma decode3 a b c : 0xE0 <= a < 0xF0 -> cont b -> cont c ->
  (a = 0xE0 -> 0xA0 <= b) -> (a = 0xED -> b < 0xA0) ->
  exists cp, scalar cp /\ utf8_encode cp = [a; b; c].
Proof.
  unfold cont, scalar, utf8_encode. intros Ha Hb Hc H1 H2.
  exists ((a - 0xE0) * 4096 + (b - 0x80) * 64 + (c - 0x80)). split; [lia|].
  set (cp := (a - 0xE0) * 4096 + (b - 0x80) * 64 + (c - 0x80)).
  destruct (Z.ltb_spec cp 0x80); [lia|]. destruct (Z.ltb_spec cp 0x800); [lia|].
  destruct (Z.ltb_spec cp 0x10000); [|lia].
  assert (cp / 4096 = a - 0xE0) by dlia. assert (cp / 64 mod 64 = b - 0x80) by dlia.
  assert (cp mod 64 = c - 0x80) by dlia. repeat f_equal; lia.
Qed.

Lemma decode4 a b c d : 0xF0 <= a <= 0xF4 -> cont b -> cont c -> cont d ->
  (a = 0xF0 -> 0x90 <= b) -> (a = 0xF4 -> b < 0x90) ->
  exists cp, scalar cp /\ utf8_encode cp = [a; b; c; d].
Proof.
  unfold cont, scalar, utf8_encode. intros Ha Hb Hc Hd H1 H2.
  exists ((a - 0xF0) * 262144 + (b - 0x80) * 4096 + (c - 0x80) * 64 + (d - 0x80)). split; [lia|].
  set (cp := (a - 0xF0) * 262144 + (b - 0x80) * 4096 + (c - 0x80) * 64 + (d - 0x80)).
  destruct (Z.ltb_spec cp 0x80); [lia|]. destruct (Z.ltb_spec cp 0x800); [lia|].
  destruct (Z.ltb_spec cp 0x10000); [lia|].
  assert (cp / 262144 = a - 0xF0) by dlia. assert (cp / 4096 mod 64 = b - 0x80) by dlia.
  assert (cp / 64 mod 64 = c - 0x80) by dlia. assert (cp mod 64 = d - 0x80) by dlia.
  repeat f_equal; lia.
Qed.

(** A run that ends in state 0 from a state inside a character consumes a
    byte of the permitted range. *)
Lemma check_inside lo hi s s1 l : (forall c, utf8_step s c = in_range lo hi s1 c) -> s <> 0 ->
  lws_check_utf8 s l = Some 0 ->
  exists c l', l = c :: l' /\ lo <= c < hi /\ lws_check_utf8 s1 l' = Some 0.
Proof.
  intros Hs Hne H. destruct l as [|c l]; [by injection H|].
  apply check_cons in H as (s2 & E & H). rewrite Hs in E. apply in_range_Some in E as [? ->]. eauto.
Qed.

(** The first character of an accepted string. *)
Lemma check_first c l : is_byte c -> lws_check_utf8 0 (c :: l) = Some 0 ->
  exists cp l', scalar cp /\ c :: l = utf8_encode cp ++ l' /\ lws_check_utf8 0 l' = Some 0.
Proof.
  intros Hc H. apply check_cons in H as (s1 & E & H). rewrite step_0 in E by done.
  assert (forall l', 140 <> 0 /\ 141 <> 0 /\ (lws_check_utf8 140 l' = Some 0 ->
    exists c l'', l' = c :: l'' /\ cont c /\ lws_check_utf8 0 l'' = Some 0)) as T.
  { intros l'. split; [done|split; [done|]]. apply check_inside; [apply step_8c|done]. }
  assert (forall a b l, 0xE0 <= a < 0xF0 -> cont b -> (a = 0xE0 -> 0xA0 <= b) ->
    (a = 0xED -> b < 0xA0) -> lws_check_utf8 140 l = Some 0 ->
    exists cp l', scalar cp /\ a :: b :: l = utf8_encode cp ++ l' /\ lws_check_utf8 0 l' = Some 0) as T3.
  { intros a b l0 Ha Hb H1 H2 Hl. apply T in Hl as (d & l' & -> & Hd & Hl).
    destruct (decode3 a b d) as (cp & ? & E3); [done..|]. exists cp, l'. by rewrite E3. }
  assert (forall a b l, 0xF0 <= a <= 0xF4 -> cont b -> (a = 0xF0 -> 0x90 <= b) ->
    (a = 0xF4 -> b < 0x90) -> lws_check_utf8 141 l = Some 0 ->
    exists cp l', scalar cp /\ a :: b :: l = utf8_encode cp ++ l' /\ lws_check_utf8 0 l' = Some 0) as T4.
  { intros a b l0 Ha Hb H1 H2 Hl. apply (check_inside _ _ _ _ _ step_8d) in Hl as (d & l1 & -> & Hd & Hl);
      [|done]. apply T in Hl as (e & l' & -> & He & Hl).
    destruct (decode4 a b d e) as (cp & ? & E4); [done..|]. exists cp, l'. by rewrite E4. }
  unfold lead in E. repeat case_hyp; try discriminate E; injection E as <-; zbool; subst.
  - exists c, l. split; [unfold scalar, is_byte in *; lia|]. split; [|done].
    unfold utf8_encode. by destruct (Z.ltb_spec c 128); [|lia].
  - apply T in H as (b & l' & -> & Hb & H). destruct (decode2 c b) as (cp & ? & E2); [lia|done|].
    exists cp, l'. by rewrite E2.
  - apply (check_inside _ _ _ _ _ step_a5) in H as (b & l' & -> & Hb & H); [|done].
    apply T3; unfold cont; try done; lia.
  - apply (check_inside _ _ _ _ _ step_85) in H as (b & l' & -> & Hb & H); [|done].
    apply T3; unfold cont; try done; lia.
  - apply (check_inside _ _ _ _ _ step_8d) in H as (b & l' & -> & Hb & H); [|done].
    apply T3; unfold cont; try done; lia.
  - apply (check_inside _ _ _ _ _ step_9a) in H as (b & l' & -> & Hb & H); [|done].
    apply T4; unfold cont; try done; lia.
  - apply (check_inside _ _ _ _ _ step_8e) in H as (b & l' & -> & Hb & H); [|done].
    apply T4; unfold cont; try done; lia.
  - apply (check_inside _ _ _ _ _ step_82) in H as (b & l' & -> & Hb & H); [|done].
    apply T4; unfold cont; try done; lia.
Qed.

Lemma encode_nonempty cp : utf8_encode cp <> [].
Proof. unfold utf8_encode. by repeat case_goal. Qed.

Lemma check_complete n : forall l, (length l <= n)%nat -> all_bytes l -> lws_check_utf8 0 l = Some 0 ->
  exists cps, Forall scalar cps /\ l = flat_map utf8_encode cps.
Proof.
  induction n as [|n IH]; intros l Hn Hb H; [exists []; by destruct l; [|simpl in Hn; lia]|].
  destruct l as [|c l]; [by exists []|].
  destruct (check_first c l) as (cp & l' & Hcp & E & H'); [by inversion Hb|done|].
  assert (0 < length (utf8_encode cp))%nat by (pose proof (encode_nonempty cp); destruct (utf8_encode cp); [done|simpl; lia]).
  rewrite E in Hn, Hb. rewrite length_app in Hn. apply Forall_app in Hb as [_ Hb].
  destruct (IH l') as (cps & Hcps & ->); [lia|done|done|].
  exists (cp :: cps). split; [by constructor|done].
Qed.

(** C32: the UTF-8 check accepts a byte string exactly when it is the UTF-8
    encoding of a sequence of Unicode scalar values (overlong forms,
    surrogates and values above 10FFFF are rejected); its answer does not
    depend on how the string is cut into pieces; and the byte-wise variant
    takes the same steps. *)
Theorem utf8_check_correct l pieces s c :
  all_bytes l ->
  (lws_check_utf8 0 l = Some 0 <-> exists cps, Forall scalar cps /\ l = flat_map utf8_encode cps) /\
  lws_check_utf8 s (concat pieces)
    = foldl (fun o p => s' ← o; lws_check_utf8 s' p) (Some s) pieces /\
  lws_check_byte_utf8 s c = default (-1) (utf8_step s c).
Proof.
  intros Hl. split; [split|split].
  - by apply (check_complete (length l)).
  - intros (cps & Hcps & ->). clear Hl. induction Hcps as [|cp cps Hcp _ IH]; [done|].
    cbn [flat_map]. rewrite check_app, check_encode by done. exact IH.
  - revert s. induction pieces as [|p pieces IH]; intros s; [done|].
    cbn [concat foldl]. rewrite check_app. cbn [mbind option_bind].
    destruct (lws_check_utf8 s p) as [s'|]; [apply IH|].
    clear. induction pieces; done.
  - unfold lws_check_byte_utf8, utf8_step. by repeat case_goal.
Qed.

Lemma utf8_check_correct_witness :
  lws_check_utf8 0 [0xE2; 0x82; 0xAC; 65] = Some 0.
Proof.
  destruct (utf8_check_correct [0xE2; 0x82; 0xAC; 65] [] 0 0) as [[_ H] _].
  - apply (bool_decide_unpack _). vm_compute. exact I.
  - apply H. exists [0x20AC; 65].
    split; [apply (bool_decide_unpack _); vm_compute; exact I|reflexivity].
Defined.

End Utf8.
