(* ===== verification/Base64.v ===== *)
(** * Base64 (libwebsockets lib/misc/base64-decode.c)

    The encoder that produces the Sec-WebSocket-Accept value and the decoder.
    Buffers are byte lists; what a call writes to [out] is part of its result.
    A read past the readable bytes of [in], or of a [quad] element that was
    never assigned, is [None]. *)

From S2P Require Import Prelude CLib.

Module Base64.

Definition encode_orig : bytes :=
  str "ABCDEFGHIJKLMNOPQRSTUVWXYZabcdefghijklmnopqrstuvwxyz0123456789+/".

Definition encode_url : bytes :=
  str "ABCDEFGHIJKLMNOPQRSTUVWXYZabcdefghijklmnopqrstuvwxyz0123456789-_".

Definition decode : bytes :=
  str "|$$$}rstuvwxyz{$$$$$$$>?@ABCDEFGHIJKLMNOPQRSTUVW$$$$$$XYZ[\]^_`abcdefghijklmnopq".

(** A subscript of one of the tables; every subscript the code forms is in
    range ([enc_index], [sym_index] below). *)
Definition at_ (t : bytes) (i : Z) : Z := default 0 (t !! Z.to_nat i).

(** The [for] loop that fills [triple]: the bytes, how many came from the
    input, and the rest of the input. *)
Definition read_triple (l : bytes) : (Z * Z * Z) * Z * bytes :=
  match l with
  | a :: b :: c :: l' => ((a, b, c), 3, l')
  | [a; b] => ((a, b, 0), 2, [])
  | [a] => ((a, 0, 0), 1, [])
  | [] => ((0, 0, 0), 0, [])
  end.

(** The four characters of a triple. *)
Definition emit_quad (encode : bytes) (t : Z * Z * Z) (n : Z) : bytes :=
  let '(t0, t1, t2) := t in
  [ at_ encode (Z.shiftr t0 2);
    at_ encode (Z.lor (Z.shiftl (Z.land t0 3) 4) (Z.shiftr (Z.land t1 240) 4));
    (if n >? 1
     then at_ encode (Z.lor (Z.shiftl (Z.land t1 15) 2) (Z.shiftr (Z.land t2 192) 6))
     else 61);
    (if n >? 2 then at_ encode (Z.land t2 63) else 61) ].

(** The [while (in_len)] loop and the final NUL: the return value and what
    [out] was given.  Each round consumes at least one byte, so the length of
    the input bounds the rounds. *)
Fixpoint encode_loop (fuel : nat) (encode l : bytes) (out_size done : Z) (out : bytes)
  : Z * bytes :=
  match l, fuel with
  | [], _ | _, O =>
    if done + 1 >=? out_size then (-1, out) else (done, out ++ [0])
  | _, S f =>
    let '(t, n, l') := read_triple l in
    if done + 4 >=? out_size then (-1, out)
    else encode_loop f encode l' out_size (done + 4) (out ++ emit_quad encode t n)
  end.

Definition _lws_b64_encode_string (encode l : bytes) (out_size : Z) : Z * bytes :=
  encode_loop (length l) encode l out_size 0 [].

Definition lws_b64_encode_string (l : bytes) (out_size : Z) : Z * bytes :=
  _lws_b64_encode_string encode_orig l out_size.

Definition lws_b64_encode_string_url (l : bytes) (out_size : Z) : Z * bytes :=
  _lws_b64_encode_string encode_url l out_size.

(** One character: the [c] and [v] it leaves. *)
Definition sym (ch : Z) : Z * Z :=
  let v := if ch =? 45 then 43 else ch in
  let v := if v =? 95 then 47 else v in
  let c := v in
  let v := if (v <? 43) || (v >? 122) then 0 else at_ decode (v - 43) in
  let v := if nz v then (if v =? 36 then 0 else v - 61) else v in
  (c, v).

(** [while (in_len && *in && !v)]: skips to the next character that has a
    value; [*in] is read whenever [in_len] is not zero. *)
Fixpoint read_sym (l : bytes) (in_len c v : Z) : option (bytes * Z * Z * Z) :=
  if in_len =? 0 then Some (l, in_len, c, v)
  else
    match l with
    | [] => None
    | ch :: l' =>
      if nz ch && (v =? 0)
      then let '(c', v') := sym ch in read_sym l' (in_len - 1) c' v'
      else Some (l, in_len, c, v)
    end.

(** [in_len && *in] *)
Definition more (l : bytes) (in_len : Z) : option bool :=
  if in_len =? 0 then Some false
  else match l with [] => None | ch :: _ => Some (nz ch) end.

Abbreviation quad_t := (list (option Z)).

(** The [for] loop from index [i], [n] rounds left. *)
Fixpoint fill_quad (n i : nat) (l : bytes) (in_len c length_ : Z) (quad : quad_t)
  : option (bytes * Z * Z * Z * quad_t) :=
  match n with
  | O => Some (l, in_len, c, length_, quad)
  | S n' =>
    m ← more l in_len;
    if negb m then Some (l, in_len, c, length_, quad)
    else
      '(l, in_len, c, v) ← read_sym l in_len 0 0;
      if nz c
      then fill_quad n' (S i) l in_len c (length_ + 1)
             (if nz v then <[i := Some (u8 (v - 1))]> quad else quad)
      else fill_quad n' (S i) l in_len c length_ (<[i := Some 0]> quad)
  end.

(** The bytes a group of [n] symbols decodes to. *)
Definition group_out (n : Z) (quad : quad_t) : option bytes :=
  o1 ← (if n >=? 2
        then q0 ← mjoin (quad !! 0%nat); q1 ← mjoin (quad !! 1%nat);
             Some [u8 (Z.lor (Z.shiftl q0 2) (Z.shiftr q1 4))]
        else Some []);
  o2 ← (if n >=? 3
        then q1 ← mjoin (quad !! 1%nat); q2 ← mjoin (quad !! 2%nat);
             Some [u8 (Z.lor (Z.shiftl q1 4) (Z.shiftr q2 2))]
        else Some []);
  o3 ← (if n >=? 4
        then q2 ← mjoin (quad !! 2%nat); q3 ← mjoin (quad !! 3%nat);
             Some [u8 (Z.lor (Z.land (Z.shiftl q2 6) 192) q3)]
        else Some []);
  Some (o1 ++ o2 ++ o3).

(** The outer loop; every round consumes a character. *)
Fixpoint decode_loop (fuel : nat) (l : bytes) (in_len out_size done : Z) (quad : quad_t)
    (out : bytes) : option (Z * bytes) :=
  m ← more l in_len;
  match m, fuel with
  | false, _ | _, O =>
    Some (if done + 1 >=? out_size then (-1, out) else (done, out ++ [0]))
  | true, S f =>
    '(l, in_len, c, n, quad) ← fill_quad 4 0 l in_len 0 0 quad;
    if out_size <? done + n + 1 then Some (-1, out)
    else
      m' ← more l in_len;
      let n := if negb m' && (c =? 61) then n - 1 else n in
      o ← group_out n quad;
      decode_loop f l in_len out_size (done + (n - 1)) quad (out ++ o)
  end.

Definition _lws_b64_decode_string (l : bytes) (in_len out_size : Z) : option (Z * bytes) :=
  decode_loop (length l) l in_len out_size 0 [None; None; None; None] [].

Definition lws_b64_decode_string (l : bytes) (out_size : Z) : option (Z * bytes) :=
  _lws_b64_decode_string l (-1) out_size.

Definition lws_b64_decode_string_len (l : bytes) (in_len out_size : Z)
  : option (Z * bytes) :=
  _lws_b64_decode_string l in_len out_size.

(** ** The text of a byte string *)

Fixpoint text (encode l : bytes) : bytes :=
  match l with
  | a :: b :: c :: l' => emit_quad encode (a, b, c) 3 ++ text encode l'
  | [a; b] => emit_quad encode (a, b, 0) 2
  | [a] => emit_quad encode (a, 0, 0) 1
  | [] => []
  end.

(** Induction three bytes at a time. *)
Lemma bytes_ind3 (P : bytes -> Prop) :
  P [] -> (forall a, P [a]) -> (forall a b, P [a; b]) ->
  (forall a b c l, P l -> P (a :: b :: c :: l)) -> forall l, P l.
Proof.
  intros H0 H1 H2 H3. fix IH 1.
  intros [|a [|b [|c l]]]; [exact H0|apply H1|apply H2|apply H3, IH].
Qed.

(** Number of quads of [l]. *)
Definition quads (l : bytes) : Z := (len l + 2) / 3.

Lemma quads_cons3 a b c l : quads (a :: b :: c :: l) = quads l + 1.
Proof. unfold quads. rewrite !len_cons. dlia. Qed.

Lemma quads_nonneg l : 0 <= quads l.
Proof. unfold quads. pose proof (len_nonneg l). dlia. Qed.

Lemma text_len encode l : len (text encode l) = 4 * quads l.
Proof.
  induction l as [| | |a b c l IH] using bytes_ind3; [done..|].
  rewrite quads_cons3. simpl text. rewrite !len_cons, IH. lia.
Qed.

Lemma encode_end fuel encode out_size done out :
  len out = done -> done <= out_size ->
  if done + 4 * quads [] + 1 <? out_size
  then encode_loop fuel encode [] out_size done out = (done + 4 * quads [], out ++ [0])
  else exists w, encode_loop fuel encode [] out_size done out = (-1, w) /\ len w <= out_size.
Proof.
  intros Hlen Hd. change (4 * quads []) with 0. rewrite Z.add_0_r.
  destruct fuel; cbn [encode_loop];
    destruct (Z.ltb_spec (done + 1) out_size), (Z.geb_spec (done + 1) out_size); try lia;
    eauto with lia.
Qed.

(** The last, incomplete triple. *)
Lemma encode_last encode l fuel out_size done out t n :
  quads l = 1 -> l <> [] -> read_triple l = (t, n, []) -> text encode l = emit_quad encode t n ->
  len out = done -> done <= out_size ->
  if done + 4 * quads l + 1 <? out_size
  then encode_loop (S fuel) encode l out_size done out
       = (done + 4 * quads l, out ++ text encode l ++ [0])
  else exists w, encode_loop (S fuel) encode l out_size done out = (-1, w) /\ len w <= out_size.
Proof.
  intros Hq Hne Ht Htext Hlen Hd. destruct l as [|x l]; [done|].
  cbn [encode_loop]. rewrite Ht. rewrite Hq, Htext, app_assoc.
  pose proof (encode_end fuel encode out_size (done + 4) (out ++ emit_quad encode t n)) as He.
  assert (len (emit_quad encode t n) = 4) as H4 by (destruct t as [[? ?] ?]; done).
  rewrite len_app, H4 in He. change (4 * quads []) with 0 in He. rewrite Z.add_0_r in He.
  destruct (Z.geb_spec (done + 4) out_size).
  - destruct (Z.ltb_spec (done + 4 * 1 + 1) out_size); [lia|]. eauto with lia.
  - specialize (He ltac:(lia) ltac:(lia)). by replace (done + 4 * 1) with (done + 4) by lia.
Qed.

(** Where the buffer is large enough the encoder writes the text and a NUL,
    otherwise it returns -1 and what it wrote fits. *)
Lemma encode_loop_spec encode l : forall fuel out_size done out,
  (length l <= fuel)%nat -> len out = done -> done <= out_size ->
  if done + 4 * quads l + 1 <? out_size
  then encode_loop fuel encode l out_size done out = (done + 4 * quads l, out ++ text encode l ++ [0])
  else exists w, encode_loop fuel encode l out_size done out = (-1, w) /\ len w <= out_size.
Proof.
  induction l as [|a|a b|a b c l IH] using bytes_ind3; intros fuel out_size done out Hf Hlen Hd;
    destruct fuel as [|f]; simpl in Hf; try lia.
  - by apply (encode_end 0).
  - by apply (encode_end (S f)).
  - eapply (encode_last encode [a]); done.
  - eapply (encode_last encode [a; b]); done.
  - cbn [encode_loop read_triple]. rewrite quads_cons3. pose proof (quads_nonneg l).
    destruct (Z.geb_spec (done + 4) out_size).
    { destruct (Z.ltb_spec (done + 4 * (quads l + 1) + 1) out_size); [lia|]. eexists. split; [done|lia]. }
    specialize (IH f out_size (done + 4) (out ++ emit_quad encode (a, b, c) 3) ltac:(lia)).
    rewrite len_app in IH. specialize (IH ltac:(unfold len in *; simpl; lia) ltac:(lia)).
    replace (done + 4 * (quads l + 1) + 1) with (done + 4 + 4 * quads l + 1) by lia.
    destruct (_ <? _); [|done]. rewrite IH. f_equal; [lia|].
    cbn [text]. by rewrite <- !app_assoc.
Qed.

(** ** Alphabet facts, by evaluation *)

Definition sym_ok (encode : bytes) (k : Z) : bool :=
  let ch := at_ encode k in
  let '(c, v) := sym ch in
  nz ch && nz c && negb (c =? 61) && (v =? k + 1).

Lemma sym_alphabet encode k :
  encode = encode_orig \/ encode = encode_url -> 0 <= k < 64 ->
  exists c, sym (at_ encode k) = (c, k + 1) /\ at_ encode k <> 0 /\ c <> 0 /\ c <> 61.
Proof.
  intros Henc Hk.
  assert (Forall (fun k => sym_ok encode k = true) (seqZ 0 64)) as Hall.
  { destruct Henc as [-> | ->]; apply (bool_decide_unpack _); vm_compute; exact I. }
  rewrite Forall_forall in Hall. specialize (Hall k).
  rewrite elem_of_seqZ in Hall. specialize (Hall ltac:(lia)).
  unfold sym_ok in Hall. destruct (sym (at_ encode k)) as [c v]. zbool.
  subst v. exists c. rewrite <- !nz_true. auto.
Qed.

(** Splitting a byte over two neighbouring symbols and putting it together. *)
Definition range_all (P : Z -> Z -> bool) (n m : Z) : bool :=
  forallb (fun a => forallb (P a) (seqZ 0 m)) (seqZ 0 n).

Lemma range_all_use P n m a b :
  range_all P n m = true -> 0 <= a < n -> 0 <= b < m -> P a b = true.
Proof.
  unfold range_all. rewrite forallb_forall. intros H Ha Hb.
  assert (In a (seqZ 0 n)) as Hi by (apply list_elem_of_In, elem_of_seqZ; lia).
  specialize (H a Hi). rewrite forallb_forall in H.
  apply H. apply list_elem_of_In, elem_of_seqZ; lia.
Qed.

Lemma split_first a y : is_byte a -> 0 <= y < 16 ->
  u8 (Z.lor (Z.shiftl (Z.shiftr a 2) 2)
        (Z.shiftr (Z.lor (Z.shiftl (Z.land a 3) 4) y) 4)) = a.
Proof.
  intros Ha Hy. apply Z.eqb_eq.
  apply (range_all_use (fun a y => u8 (Z.lor (Z.shiftl (Z.shiftr a 2) 2)
    (Z.shiftr (Z.lor (Z.shiftl (Z.land a 3) 4) y) 4)) =? a) 256 16); [|exact Ha|exact Hy].
  vm_compute. reflexivity.
Qed.

Lemma split_second x b z : 0 <= x < 4 -> is_byte b -> 0 <= z < 4 ->
  u8 (Z.lor (Z.shiftl (Z.lor (Z.shiftl x 4) (Z.shiftr (Z.land b 240) 4)) 4)
        (Z.shiftr (Z.lor (Z.shiftl (Z.land b 15) 2) z) 2)) = b.
Proof.
  intros Hx Hb Hz. apply Z.eqb_eq.
  apply (range_all_use (fun xz b => u8 (Z.lor (Z.shiftl (Z.lor (Z.shiftl (xz / 4) 4)
      (Z.shiftr (Z.land b 240) 4)) 4)
    (Z.shiftr (Z.lor (Z.shiftl (Z.land b 15) 2) (xz mod 4)) 2)) =? b) 16 256 (x * 4 + z) b) in Hb
    as Hp; [|vm_compute; reflexivity|lia].
  cbv beta in Hp. rewrite Z.div_add_l, Z.div_small, Z.add_0_r in Hp by lia.
  rewrite Z.add_comm, Z.mod_add, Z.mod_small in Hp by lia. exact Hp.
Qed.

Lemma split_third x c : 0 <= x < 16 -> is_byte c ->
  u8 (Z.lor (Z.land (Z.shiftl (Z.lor (Z.shiftl x 2) (Z.shiftr (Z.land c 192) 6)) 6) 192)
        (Z.land c 63)) = c.
Proof.
  intros Hx Hc. apply Z.eqb_eq.
  apply (range_all_use (fun x c => u8 (Z.lor (Z.land (Z.shiftl (Z.lor (Z.shiftl x 2)
      (Z.shiftr (Z.land c 192) 6)) 6) 192) (Z.land c 63)) =? c) 16 256); [|exact Hx|exact Hc].
  vm_compute. reflexivity.
Qed.

Lemma nibble_range b : is_byte b -> 0 <= Z.shiftr (Z.land b 240) 4 < 16.
Proof.
  intros Hb.
  pose proof (range_all_use (fun b _ => (0 <=? Z.shiftr (Z.land b 240) 4)
    && (Z.shiftr (Z.land b 240) 4 <? 16)) 256 1 b 0 ltac:(vm_compute; reflexivity) Hb ltac:(lia)) as H.
  cbv beta in H. zbool. lia.
Qed.

Lemma two_bits b : is_byte b ->
  0 <= Z.land b 3 < 4 /\ 0 <= Z.shiftr (Z.land b 192) 6 < 4.
Proof.
  intros Hb.
  pose proof (range_all_use (fun b _ => (0 <=? Z.land b 3) && (Z.land b 3 <? 4)
    && ((0 <=? Z.shiftr (Z.land b 192) 6) && (Z.shiftr (Z.land b 192) 6 <? 4))) 256 1 b 0
    ltac:(vm_compute; reflexivity) Hb ltac:(lia)) as H.
  cbv beta in H. zbool. lia.
Qed.

Lemma low_nibble b : is_byte b -> 0 <= Z.land b 15 < 16.
Proof.
  intros Hb. change 15 with (Z.ones 4). rewrite Z.land_ones by lia.
  apply Z.mod_pos_bound. lia.
Qed.

(** The four symbol values of a triple are below 64. *)
Lemma enc_index a b : is_byte a -> is_byte b ->
  0 <= Z.shiftr a 2 < 64 /\
  0 <= Z.lor (Z.shiftl (Z.land a 3) 4) (Z.shiftr (Z.land b 240) 4) < 64 /\
  0 <= Z.lor (Z.shiftl (Z.land a 15) 2) (Z.shiftr (Z.land b 192) 6) < 64 /\
  0 <= Z.land a 63 < 64.
Proof.
  intros Ha Hb.
  pose (ok := fun z => (0 <=? z) && (z <? 64)).
  assert (forall z, ok z = true -> 0 <= z < 64) as Hok
    by (unfold ok; intros; zbool; lia).
  pose proof (range_all_use (fun a b => ok (Z.shiftr a 2)
    && ok (Z.lor (Z.shiftl (Z.land a 3) 4) (Z.shiftr (Z.land b 240) 4))
    && ok (Z.lor (Z.shiftl (Z.land a 15) 2) (Z.shiftr (Z.land b 192) 6))
    && ok (Z.land a 63)) 256 256 a b) as H.
  specialize (H ltac:(vm_compute; reflexivity) Ha Hb). cbv beta in H.
  rewrite !andb_true_iff in H. destruct H as [[[H1 H2] H3] H4]. auto.
Qed.

(** ** Decoding a text

    [stream t l n]: from input [l] with counter [n] exactly the characters of
    [t] are to be read, either up to a NUL ([n] negative) or up to the count. *)
Inductive stream (t : bytes) : bytes -> Z -> Prop :=
| stream_nul junk n : n < 0 -> stream t (t ++ 0 :: junk) n
| stream_len junk : stream t (t ++ junk) (len t).

Lemma stream_cons ch t l n : stream (ch :: t) l n ->
  exists l', l = ch :: l' /\ n <> 0 /\ stream t l' (n - 1).
Proof.
  intros [junk n' Hn | junk]; simpl.
  - eexists. split; [done|]. split; [lia|]. constructor. lia.
  - eexists. split; [done|]. rewrite len_cons. pose proof (len_nonneg t). split; [lia|].
    replace (1 + len t - 1) with (len t) by lia. constructor.
Qed.

Lemma more_cons ch t l n : stream (ch :: t) l n -> ch <> 0 -> more l n = Some true.
Proof.
  intros (l' & -> & Hn & _)%stream_cons Hch. unfold more.
  rewrite (proj2 (Z.eqb_neq _ _) Hn). by rewrite (proj2 (nz_true _) Hch).
Qed.

Lemma more_nil l n : stream [] l n -> more l n = Some false.
Proof.
  intros [junk n' Hn | junk]; unfold more; simpl; [|done].
  by rewrite (proj2 (Z.eqb_neq _ _)) by lia.
Qed.

(** Once a value is found the skipping loop stops. *)
Lemma read_sym_stop t l n c v : stream t l n -> v <> 0 -> read_sym l n c v = Some (l, n, c, v).
Proof.
  intros Hs Hv. assert (n = 0 \/ n <> 0 /\ exists ch l', l = ch :: l') as [-> | (Hn & ch & l' & ->)].
  { destruct t as [|ch t].
    - inversion Hs; subst; simpl; [right; eauto with lia | left; done].
    - apply stream_cons in Hs as (l' & -> & Hn & _). eauto. }
  - by destruct l.
  - simpl. rewrite (proj2 (Z.eqb_neq _ _) Hn), (proj2 (Z.eqb_neq _ _) Hv), andb_false_r. done.
Qed.

Lemma read_sym_char ch t l n c0 c v :
  stream (ch :: t) l n -> ch <> 0 -> sym ch = (c, v) ->
  exists l', stream t l' (n - 1) /\ l = ch :: l' /\ read_sym l n c0 0 = read_sym l' (n - 1) c v.
Proof.
  intros (l' & -> & Hn & Hs)%stream_cons Hch Hsym. exists l'. split; [done|]. split; [done|].
  cbn [read_sym]. rewrite (proj2 (Z.eqb_neq _ _) Hn), (proj2 (nz_true _) Hch).
  by rewrite Hsym.
Qed.

(** One round of the [for] loop on a character of the alphabet. *)
Lemma fill_sym encode k t l in_len :
  encode = encode_orig \/ encode = encode_url -> 0 <= k < 64 ->
  stream (at_ encode k :: t) l in_len ->
  exists l' c, stream t l' (in_len - 1) /\ c <> 61 /\ (length l' < length l)%nat /\
    forall n i c0 m quad, fill_quad (S n) i l in_len c0 m quad
    = fill_quad n (S i) l' (in_len - 1) c (m + 1) (<[i := Some k]> quad).
Proof.
  intros Henc Hk Hs. destruct (sym_alphabet encode k Henc Hk) as (c & Hsym & Hch & Hc & Hc').
  destruct (read_sym_char _ _ _ _ 0 _ _ Hs Hch Hsym) as (l' & Hs' & -> & Hr).
  exists l', c. split; [done|]. split; [done|]. split; [simpl; lia|].
  intros n i c0 m quad. cbn [fill_quad]. rewrite (more_cons _ _ _ _ Hs Hch). cbn [mbind option_bind negb].
  rewrite Hr, (read_sym_stop _ _ _ _ _ Hs') by lia. cbn [mbind option_bind].
  rewrite (proj2 (nz_true c) Hc), (proj2 (nz_true (k + 1))) by lia.
  by rewrite Z.add_simpl_r, u8_small by (unfold is_byte; lia).
Qed.

(** The padding is read as one symbol without a value. *)
Lemma read_sym_pad p : forall l n c0, stream (replicate p 61) l n ->
  exists l' n', stream [] l' n' /\ read_sym l n c0 0 = Some (l', n', if p is O then c0 else 61, 0).
Proof.
  induction p as [|p IH]; intros l n c0 Hs.
  - exists l, n. split; [done|]. pose proof (more_nil _ _ Hs) as Hm. unfold more in Hm.
    destruct l as [|ch l]; cbn [read_sym]; destruct (n =? 0); try done.
    injection Hm as ->. done.
  - simpl in Hs. destruct (read_sym_char 61 _ _ _ c0 61 0 Hs) as (l' & Hs' & _ & ->); [done..|].
    destruct (IH _ _ 61 Hs') as (l2 & n2 & Hs2 & ->). exists l2, n2. split; [done|]. by destruct p.
Qed.

Lemma fill_pad p k i l n c0 m quad : stream (replicate (S p) 61) l n ->
  exists l' n', stream [] l' n' /\ fill_quad (S k) i l n c0 m quad = Some (l', n', 61, m + 1, quad).
Proof.
  intros Hs. destruct (read_sym_pad (S p) l n 0 Hs) as (l' & n' & Hs' & Hr).
  exists l', n'. split; [done|]. cbn [fill_quad].
  rewrite (more_cons 61 (replicate p 61) l n Hs) by done. cbn [mbind option_bind negb].
  rewrite Hr. cbn [mbind option_bind]. change (nz 61) with true. change (nz 0) with false. cbv iota.
  destruct k; cbn [fill_quad]; [done|]. by rewrite (more_nil _ _ Hs').
Qed.

(** What follows the [for] loop in a round of the outer loop. *)
Definition after_fill (f : nat) (out_size done : Z) (out : bytes)
    (r : bytes * Z * Z * Z * quad_t) : option (Z * bytes) :=
  let '(l, in_len, c, n, quad) := r in
  if out_size <? done + n + 1 then Some (-1, out)
  else
    m' ← more l in_len;
    let n := if negb m' && (c =? 61) then n - 1 else n in
    o ← group_out n quad;
    decode_loop f l in_len out_size (done + (n - 1)) quad (out ++ o).

Lemma decode_loop_round f ch t l n out_size done quad out :
  stream (ch :: t) l n -> ch <> 0 ->
  decode_loop (S f) l n out_size done quad out
  = fill_quad 4 0 l n 0 0 quad ≫= after_fill f out_size done out.
Proof.
  intros Hs Hch. cbn [decode_loop]. rewrite (more_cons _ _ _ _ Hs Hch). done.
Qed.

Lemma decode_loop_nil f l n out_size done quad out :
  stream [] l n -> done + 1 < out_size ->
  decode_loop f l n out_size done quad out = Some (done, out ++ [0]).
Proof.
  intros Hs Hd. destruct f; cbn [decode_loop]; rewrite (more_nil _ _ Hs);
    cbn [mbind option_bind]; destruct (Z.geb_spec (done + 1) out_size); try done; lia.
Qed.

Lemma more_stream t l n : stream t l n -> Forall (fun ch => ch <> 0) t ->
  exists b, more l n = Some b.
Proof.
  intros Hs Ht. destruct t as [|ch t]; [by eexists; apply more_nil|].
  inversion Ht; subst. by eexists; eapply more_cons.
Qed.

(** One complete group of the text. *)
Lemma decode_full encode k0 k1 k2 k3 t f l n out_size done quad out :
  encode = encode_orig \/ encode = encode_url ->
  0 <= k0 < 64 -> 0 <= k1 < 64 -> 0 <= k2 < 64 -> 0 <= k3 < 64 ->
  stream (at_ encode k0 :: at_ encode k1 :: at_ encode k2 :: at_ encode k3 :: t) l n ->
  Forall (fun ch => ch <> 0) t -> length quad = 4%nat -> done + 5 <= out_size ->
  exists l' n', stream t l' n' /\ (length l' < length l)%nat /\
    decode_loop (S f) l n out_size done quad out
    = decode_loop f l' n' out_size (done + 3) [Some k0; Some k1; Some k2; Some k3]
        (out ++ [u8 (Z.lor (Z.shiftl k0 2) (Z.shiftr k1 4));
                 u8 (Z.lor (Z.shiftl k1 4) (Z.shiftr k2 2));
                 u8 (Z.lor (Z.land (Z.shiftl k2 6) 192) k3)]).
Proof.
  intros Henc H0 H1 H2 H3 Hs Ht Hq Hd.
  destruct (sym_alphabet encode k0 Henc H0) as (_ & _ & Hne & _).
  rewrite (decode_loop_round _ _ _ _ _ _ _ _ _ Hs Hne).
  destruct (fill_sym encode k0 _ _ _ Henc H0 Hs) as (l1 & c1 & Hs1 & _ & Hl1 & ->).
  destruct (fill_sym encode k1 _ _ _ Henc H1 Hs1) as (l2 & c2 & Hs2 & _ & Hl2 & ->).
  destruct (fill_sym encode k2 _ _ _ Henc H2 Hs2) as (l3 & c3 & Hs3 & _ & Hl3 & ->).
  destruct (fill_sym encode k3 _ _ _ Henc H3 Hs3) as (l4 & c4 & Hs4 & Hc4 & Hl4 & ->).
  exists l4, (n - 1 - 1 - 1 - 1). split; [done|]. split; [lia|].
  cbn [fill_quad mbind option_bind after_fill].
  destruct (Z.ltb_spec out_size (done + (0 + 1 + 1 + 1 + 1) + 1)); [lia|].
  destruct (more_stream _ _ _ Hs4 Ht) as [b ->]. cbn [mbind option_bind].
  rewrite (proj2 (Z.eqb_neq _ _) Hc4), andb_false_r.
  destruct quad as [|q0 [|q1 [|q2 [|q3 [|]]]]]; try discriminate Hq. reflexivity.
Qed.

(** The last group, padded: [p] padding characters. *)
Lemma decode_pad encode k0 k1 k2 f l n out_size done quad out :
  encode = encode_orig \/ encode = encode_url ->
  0 <= k0 < 64 -> 0 <= k1 < 64 -> 0 <= k2 < 64 ->
  stream [at_ encode k0; at_ encode k1; at_ encode k2; 61] l n ->
  length quad = 4%nat -> done + 5 <= out_size ->
  decode_loop (S f) l n out_size done quad out
  = Some (done + 2, out ++ [u8 (Z.lor (Z.shiftl k0 2) (Z.shiftr k1 4));
                            u8 (Z.lor (Z.shiftl k1 4) (Z.shiftr k2 2))] ++ [0]).
Proof.
  intros Henc H0 H1 H2 Hs Hq Hd.
  destruct (sym_alphabet encode k0 Henc H0) as (_ & _ & Hne & _).
  rewrite (decode_loop_round _ _ _ _ _ _ _ _ _ Hs Hne).
  destruct (fill_sym encode k0 _ _ _ Henc H0 Hs) as (l1 & c1 & Hs1 & _ & _ & ->).
  destruct (fill_sym encode k1 _ _ _ Henc H1 Hs1) as (l2 & c2 & Hs2 & _ & _ & ->).
  destruct (fill_sym encode k2 _ _ _ Henc H2 Hs2) as (l3 & c3 & Hs3 & _ & _ & ->).
  destruct (fill_pad 0 0 3 l3 _ c3 (0 + 1 + 1 + 1)
    (<[2%nat:=Some k2]> (<[1%nat:=Some k1]> (<[0%nat:=Some k0]> quad))) Hs3) as (l4 & n4 & Hs4 & ->).
  cbn [mbind option_bind after_fill].
  destruct (Z.ltb_spec out_size (done + (0 + 1 + 1 + 1 + 1) + 1)); [lia|].
  rewrite (more_nil _ _ Hs4). cbn [mbind option_bind].
  destruct quad as [|q0 [|q1 [|q2 [|q3 [|]]]]]; try discriminate Hq.
  simpl. rewrite decode_loop_nil by (done || lia). by rewrite <- app_assoc.
Qed.

Lemma decode_pad2 encode k0 k1 f l n out_size done quad out :
  encode = encode_orig \/ encode = encode_url -> 0 <= k0 < 64 -> 0 <= k1 < 64 ->
  stream [at_ encode k0; at_ encode k1; 61; 61] l n ->
  length quad = 4%nat -> done + 4 <= out_size ->
  decode_loop (S f) l n out_size done quad out
  = Some (done + 1, out ++ [u8 (Z.lor (Z.shiftl k0 2) (Z.shiftr k1 4))] ++ [0]).
Proof.
  intros Henc H0 H1 Hs Hq Hd.
  destruct (sym_alphabet encode k0 Henc H0) as (_ & _ & Hne & _).
  rewrite (decode_loop_round _ _ _ _ _ _ _ _ _ Hs Hne).
  destruct (fill_sym encode k0 _ _ _ Henc H0 Hs) as (l1 & c1 & Hs1 & _ & _ & ->).
  destruct (fill_sym encode k1 _ _ _ Henc H1 Hs1) as (l2 & c2 & Hs2 & _ & _ & ->).
  destruct (fill_pad 1 1 2 l2 _ c2 (0 + 1 + 1)
    (<[1%nat:=Some k1]> (<[0%nat:=Some k0]> quad)) Hs2) as (l4 & n4 & Hs4 & ->).
  cbn [mbind option_bind after_fill].
  destruct (Z.ltb_spec out_size (done + (0 + 1 + 1 + 1) + 1)); [lia|].
  rewrite (more_nil _ _ Hs4). cbn [mbind option_bind].
  destruct quad as [|q0 [|q1 [|q2 [|q3 [|]]]]]; try discriminate Hq.
  simpl. rewrite decode_loop_nil by (done || lia). by rewrite <- app_assoc.
Qed.

Lemma text_nonzero encode l : encode = encode_orig \/ encode = encode_url -> all_bytes l ->
  Forall (fun ch => ch <> 0) (text encode l).
Proof.
  intros Henc.
  assert (forall k, 0 <= k < 64 -> at_ encode k <> 0) as Hne.
  { intros k Hk. by destruct (sym_alphabet encode k Henc Hk) as (_ & _ & ? & _). }
  assert (is_byte 0) as Hz by (unfold is_byte; lia).
  induction l as [|a|a b|a b c l IH] using bytes_ind3; intros Hl; [constructor| | |].
  - inversion_clear Hl. destruct (enc_index a 0) as (? & ? & _); [done..|].
    repeat constructor; auto.
  - inversion_clear Hl as [|? ? Ha Hl']. inversion_clear Hl' as [|? ? Hb _].
    destruct (enc_index a b) as (? & ? & _); [done..|].
    destruct (enc_index b 0) as (_ & _ & ? & _); [done..|].
    repeat constructor; simpl; auto.
  - inversion_clear Hl as [|? ? Ha Hl']. inversion_clear Hl' as [|? ? Hb Hl''].
    inversion_clear Hl'' as [|? ? Hc Hl3].
    destruct (enc_index a b) as (? & ? & _); [done..|].
    destruct (enc_index b c) as (_ & _ & ? & _); [done..|].
    destruct (enc_index c c) as (_ & _ & _ & ?); [done..|].
    cbn [text emit_quad app]. repeat (apply Forall_cons_2; [simpl; by auto|]). auto.
Qed.

Lemma decode_text encode l : encode = encode_orig \/ encode = encode_url ->
  forall f L n out_size done quad out,
  all_bytes l -> stream (text encode l) L n -> (length L <= f)%nat -> length quad = 4%nat ->
  done + len l + 3 <= out_size ->
  decode_loop f L n out_size done quad out = Some (done + len l, out ++ l ++ [0]).
Proof.
  intros Henc. assert (is_byte 0) as Hz by (unfold is_byte; lia).
  assert (forall ch t L n f, stream (ch :: t) L n -> (length L <= f)%nat -> exists f', f = S f') as Hf.
  { intros ch t L n f (l' & -> & _)%stream_cons Hlf. simpl in Hlf. destruct f; [lia|eauto]. }
  induction l as [|a|a b|a b c l IH] using bytes_ind3; intros f L n out_size done quad out Hl Hs HL Hq Hd.
  - rewrite decode_loop_nil by (done || (rewrite len_nil in Hd; lia)).
    by rewrite len_nil, Z.add_0_r.
  - destruct (Hf _ _ _ _ _ Hs HL) as [f' ->]. inversion_clear Hl as [|? ? Ha _].
    destruct (enc_index a 0) as (? & ? & _); [done..|]. rewrite len_cons, len_nil in Hd.
    rewrite (fun x y => decode_pad2 encode (Z.shiftr a 2) _ f' L n _ _ _ _ Henc x y Hs) by (done || lia).
    by rewrite (split_first a (Z.shiftr (Z.land 0 240) 4) Ha).
  - destruct (Hf _ _ _ _ _ Hs HL) as [f' ->].
    inversion_clear Hl as [|? ? Ha Hl']. inversion_clear Hl' as [|? ? Hb _].
    destruct (enc_index a b) as (? & ? & _); [done..|].
    destruct (enc_index b 0) as (_ & _ & ? & _); [done..|]. rewrite !len_cons, len_nil in Hd.
    rewrite (fun x y z => decode_pad encode (Z.shiftr a 2) _ _ f' L n _ _ _ _ Henc x y z Hs) by (done || lia).
    rewrite split_first by (try done; apply nibble_range; done).
    rewrite (split_second (Z.land a 3) b (Z.shiftr (Z.land 0 192) 6))
      by (try done; try apply two_bits; done).
    by rewrite !len_cons, len_nil.
  - destruct (Hf _ _ _ _ _ Hs HL) as [f' ->].
    inversion_clear Hl as [|? ? Ha Hl']. inversion_clear Hl' as [|? ? Hb Hl''].
    inversion_clear Hl'' as [|? ? Hc Hl3].
    destruct (enc_index a b) as (Hk0 & Hk1 & _); [done..|].
    destruct (enc_index b c) as (_ & _ & Hk2 & _); [done..|].
    destruct (enc_index c c) as (_ & _ & _ & Hk3); [done..|].
    rewrite !len_cons in Hd. pose proof (len_nonneg l).
    destruct (decode_full encode (Z.shiftr a 2) _ _ _ _ f' L n out_size done quad out Henc
      Hk0 Hk1 Hk2 Hk3 Hs
      (text_nonzero encode l Henc Hl3) Hq ltac:(lia)) as (L' & n' & Hs' & HL' & ->).
    rewrite split_first by (try done; apply nibble_range; done).
    rewrite split_second by (try done; by apply two_bits).
    rewrite split_third by (try done; by apply low_nibble).
    rewrite IH by (done || lia). rewrite !len_cons, <- app_assoc. f_equal. f_equal. lia.
Qed.

(** ** Properties *)

(** Encoding into a buffer that is large enough. *)
Lemma encode_string_spec encode l out_size :
  0 <= out_size -> len (text encode l) + 1 < out_size ->
  _lws_b64_encode_string encode l out_size = (len (text encode l), text encode l ++ [0]).
Proof.
  rewrite text_len. intros Ho Hlt. unfold _lws_b64_encode_string.
  pose proof (encode_loop_spec encode l (length l) out_size 0 [] ltac:(lia) eq_refl Ho) as He.
  destruct (Z.ltb_spec (0 + 4 * quads l + 1) out_size); [exact He|lia].
Qed.

(** C31: for every byte string [l] and either alphabet, the encoder returns the
    length of the text and writes exactly the text and a NUL when the buffer
    is larger than that, and otherwise returns -1 without writing past the
    buffer; the text decodes back to [l], whether its end is marked by a NUL
    or given as a length, and whatever follows it in memory. *)
Theorem b64_roundtrip l encode junk out_size dec_size :
  all_bytes l -> encode = encode_orig \/ encode = encode_url ->
  0 <= out_size -> len l + 3 <= dec_size ->
  let t := text encode l in
  len t = 4 * quads l /\
  (len t + 1 < out_size ->
     _lws_b64_encode_string encode l out_size = (len t, t ++ [0])) /\
  (out_size <= len t + 1 ->
     exists w, _lws_b64_encode_string encode l out_size = (-1, w) /\ len w <= out_size) /\
  lws_b64_decode_string (t ++ 0 :: junk) dec_size = Some (len l, l ++ [0]) /\
  lws_b64_decode_string_len (t ++ junk) (len t) dec_size = Some (len l, l ++ [0]).
Proof.
  intros Hl Henc Ho Hd t. subst t. rewrite text_len.
  pose proof (encode_loop_spec encode l (length l) out_size 0 [] ltac:(lia) eq_refl Ho) as He.
  unfold _lws_b64_encode_string, lws_b64_decode_string, lws_b64_decode_string_len,
    _lws_b64_decode_string.
  repeat split.
  - intros Hlt. destruct (Z.ltb_spec (0 + 4 * quads l + 1) out_size); [exact He|lia].
  - intros Hle. destruct (Z.ltb_spec (0 + 4 * quads l + 1) out_size); [lia|exact He].
  - rewrite (decode_text encode l Henc) by (done || lia || (constructor; lia)). done.
  - rewrite <- (text_len encode l).
    rewrite (decode_text encode l Henc) by (done || lia || constructor). done.
Qed.

Lemma b64_roundtrip_witness :
  lws_b64_decode_string (text encode_orig (str "any carnal pleasure") ++ [0]) 22
  = Some (19, str "any carnal pleasure" ++ [0]).
Proof.
  apply (b64_roundtrip (str "any carnal pleasure") encode_orig [] 64 22);
    [apply str_bytes|by left|lia|vm_compute; discriminate].
Defined.

End Base64.
