(* ===== verification/Sha1.v ===== *)
(** * SHA-1 (libwebsockets lib/misc/sha-1.c)

    The hash behind the Sec-WebSocket-Accept value.  The context is the C
    struct on a little-endian machine: the 64-byte block buffer with its fill
    count and the bit counter, absorbing input in pieces; the compression runs
    on a circular schedule of sixteen words.  The reference is FIPS 180-1: the
    whole message padded, cut into blocks, each expanded to eighty words. *)

From S2P Require Import Prelude CLib Base64.

Module Sha1.

Record sha1_ctxt := mk_ctxt {
  h : list Z;      (* h.b32 *)
  c : Z;           (* c.b64[0] *)
  m : bytes;       (* m.b8 *)
  count : Z
}.

Definition _K : list Z := [1518500249; 1859775393; 2400959708; 3395469782].

(** [K(t)] *)
Definition K (t : nat) : Z := nth (t / 20) _K 0.

Definition F0 (b c d : Z) : Z := Z.lor (Z.land b c) (Z.land (Z.lxor b (2 ^ 32 - 1)) d).
Definition F1 (b c d : Z) : Z := Z.lxor (Z.lxor b c) d.
Definition F2 (b c d : Z) : Z := Z.lor (Z.lor (Z.land b c) (Z.land b d)) (Z.land c d).
Definition F3 (b c d : Z) : Z := Z.lxor (Z.lxor b c) d.

(** [S(n, x)]: rotation of a 32-bit word. *)
Definition S_ (n x : Z) : Z := Z.lor (u32 (Z.shiftl x n)) (Z.shiftr x (32 - n)).

(** The byte shuffle of [m.b8] on a little-endian machine: every group of
    four is reversed. *)
Fixpoint swap4 (l : bytes) : bytes :=
  match l with
  | a :: b :: c :: d :: l' => d :: c :: b :: a :: swap4 l'
  | _ => []
  end.

(** [m.b32] of [m.b8] on a little-endian machine. *)
Fixpoint words_le (l : bytes) : list Z :=
  match l with
  | a :: b :: c :: d :: l' => (a + 2 ^ 8 * b + 2 ^ 16 * c + 2 ^ 24 * d) :: words_le l'
  | _ => []
  end.

Definition word (w : list Z) (n : nat) : Z := nth n w 0.

(** [W(s) = S(1, W((s+13) & 0x0f) ^ W((s+8) & 0x0f) ^ W((s+2) & 0x0f) ^ W(s))] *)
Definition expand (w : list Z) (s : nat) : list Z :=
  <[s := S_ 1 (Z.lxor (Z.lxor (Z.lxor (word w ((s + 13) `mod` 16)) (word w ((s + 8) `mod` 16)))
                 (word w ((s + 2) `mod` 16))) (word w s))]> w.

Abbreviation regs := (Z * Z * Z * Z * Z)%type.

(** The two lines that end the body of every loop. *)
Definition rotate (F : Z -> Z -> Z -> Z) (r : regs) (wt k : Z) : regs :=
  let '(a, b, c, d, e) := r in
  let tmp := u32 (S_ 5 a + F b c d + e + wt + k) in
  (tmp, a, S_ 30 b, c, d).

(** The body of the first loop and of the three others. *)
Definition body0 (st : list Z * regs) (t : nat) : list Z * regs :=
  let '(w, r) := st in
  let s := (t `mod` 16)%nat in
  let w := if (16 <=? t)%nat then expand w s else w in
  (w, rotate F0 r (word w s) (K t)).

Definition body (F : Z -> Z -> Z -> Z) (st : list Z * regs) (t : nat) : list Z * regs :=
  let '(w, r) := st in
  let s := (t `mod` 16)%nat in
  let w := expand w s in
  (w, rotate F r (word w s) (K t)).

Definition sha1_step (ctxt : sha1_ctxt) : sha1_ctxt :=
  let w := words_le (swap4 (m ctxt)) in
  let H n := nth n (h ctxt) 0 in
  let st := (w, (H 0%nat, H 1%nat, H 2%nat, H 3%nat, H 4%nat)) in
  let st := foldl body0 st (seq 0 20) in
  let st := foldl (body F1) st (seq 20 20) in
  let st := foldl (body F2) st (seq 40 20) in
  let st := foldl (body F3) st (seq 60 20) in
  let '(a, b, c', d, e) := snd st in
  mk_ctxt [u32 (H 0%nat + a); u32 (H 1%nat + b); u32 (H 2%nat + c');
           u32 (H 3%nat + d); u32 (H 4%nat + e)]
    (c ctxt) (replicate 64 0) (count ctxt).

Definition _sha1_init : sha1_ctxt :=
  mk_ctxt [1732584193; 4023233417; 2562383102; 271733878; 3285377520]
    0 (replicate 64 0) 0.

(** [memcpy(&ctxt->m.b8[at], src, n)] with [n] the length of [src]. *)
Definition set_m (ctxt : sha1_ctxt) (at_ : Z) (src : bytes) : sha1_ctxt :=
  mk_ctxt (h ctxt) (c ctxt) (list_inserts (Z.to_nat at_) src (m ctxt)) (count ctxt).

Definition set_count (ctxt : sha1_ctxt) (n : Z) : sha1_ctxt :=
  mk_ctxt (h ctxt) (c ctxt) (m ctxt) n.

(** [PUTPAD(x)] *)
Definition PUTPAD (ctxt : sha1_ctxt) (x : Z) : sha1_ctxt :=
  let ctxt := set_m ctxt (count ctxt mod 64) [x] in
  let ctxt := set_count ctxt (u8 (count ctxt + 1)) in
  let ctxt := set_count ctxt (count ctxt mod 64) in
  if count ctxt mod 64 =? 0 then sha1_step ctxt else ctxt.

(** [c.b8] from its last byte to its first on a little-endian machine. *)
Definition be64 (n : Z) : bytes :=
  [n / 2 ^ 56 mod 256; n / 2 ^ 48 mod 256; n / 2 ^ 40 mod 256; n / 2 ^ 32 mod 256;
   n / 2 ^ 24 mod 256; n / 2 ^ 16 mod 256; n / 2 ^ 8 mod 256; n mod 256].

(** From the computation of [padstart] to the end of [if (padlen < 8)]: when
    the length does not fit behind the 0x80 byte, the block is completed with
    zeros. *)
Definition pad_full (ctxt : sha1_ctxt) : sha1_ctxt * Z * Z :=
  let padstart := count ctxt mod 64 in
  let padlen := 64 - padstart in
  if padlen <? 8 then
    let ctxt := set_m ctxt padstart (replicate (Z.to_nat padlen) 0) in
    let ctxt := set_count ctxt (u8 (count ctxt + u8 padlen)) in
    let ctxt := set_count ctxt (count ctxt mod 64) in
    let ctxt := sha1_step ctxt in
    let padstart := count ctxt mod 64 in
    (ctxt, padstart, 64 - padstart)
  else (ctxt, padstart, padlen).

Definition sha1_pad (ctxt : sha1_ctxt) : sha1_ctxt :=
  let ctxt := PUTPAD ctxt 128 in
  let '(ctxt, padstart, padlen) := pad_full ctxt in
  let ctxt := set_m ctxt padstart (replicate (Z.to_nat (padlen - 8)) 0) in
  let ctxt := set_count ctxt (u8 (count ctxt + (u8 padlen - 8))) in
  let ctxt := set_count ctxt (count ctxt mod 64) in
  foldl PUTPAD ctxt (be64 (c ctxt)).

(** The [while (off < len)] loop; [input] is what is left of it.  Every round
    copies at least one byte. *)
Fixpoint sha1_loop_ (fuel : nat) (ctxt : sha1_ctxt) (input : bytes) : sha1_ctxt :=
  match fuel, input with
  | O, _ | _, [] => ctxt
  | S f, _ =>
    let gapstart := count ctxt mod 64 in
    let gaplen := 64 - gapstart in
    let copysiz := if gaplen <? len input then gaplen else len input in
    let ctxt := set_m ctxt gapstart (take (Z.to_nat copysiz) input) in
    let ctxt := set_count ctxt (u8 (count ctxt + u8 copysiz)) in
    let ctxt := set_count ctxt (count ctxt mod 64) in
    let ctxt := mk_ctxt (h ctxt) (u64 (c ctxt + u64 (copysiz * 8))) (m ctxt) (count ctxt) in
    let ctxt := if count ctxt mod 64 =? 0 then sha1_step ctxt else ctxt in
    sha1_loop_ f ctxt (drop (Z.to_nat copysiz) input)
  end.

Definition sha1_loop (ctxt : sha1_ctxt) (input : bytes) : sha1_ctxt :=
  sha1_loop_ (length input) ctxt input.

(** [h.b8] of [h.b32] with every group of four reversed: big-endian words. *)
Definition be32 (n : Z) : bytes :=
  [n / 2 ^ 24 mod 256; n / 2 ^ 16 mod 256; n / 2 ^ 8 mod 256; n mod 256].

Definition sha1_result (ctxt : sha1_ctxt) : bytes :=
  let ctxt := sha1_pad ctxt in
  flat_map be32 (h ctxt).

Definition lws_SHA1 (d : bytes) : bytes :=
  sha1_result (sha1_loop _sha1_init d).

(** ** FIPS 180-1 *)

(** The padded message. *)
Definition fips_pad (d : bytes) : bytes :=
  d ++ [128] ++ replicate (Z.to_nat ((55 - len d) mod 64)) 0 ++ be64 (8 * len d).

(** Big-endian words of a block. *)
Fixpoint words_be (l : bytes) : list Z :=
  match l with
  | a :: b :: c :: d :: l' => (2 ^ 24 * a + 2 ^ 16 * b + 2 ^ 8 * c + d) :: words_be l'
  | _ => []
  end.

Definition rotl (n x : Z) : Z := (x * 2 ^ n) mod 2 ^ 32 + x / 2 ^ (32 - n).

(** The message schedule, extended word by word. *)
Fixpoint schedule (n : nat) (w : list Z) : list Z :=
  match n with
  | O => w
  | S n' =>
    let t := length w in
    schedule n'
      (w ++ [rotl 1 (Z.lxor (Z.lxor (word w (t - 3)) (word w (t - 8)))
                       (Z.lxor (word w (t - 14)) (word w (t - 16))))])
  end.

Definition fips_f (t : nat) (b c d : Z) : Z :=
  if (t <? 20)%nat then Z.lxor (Z.land b c) (Z.land (2 ^ 32 - 1 - b) d)
  else if (t <? 40)%nat then Z.lxor b (Z.lxor c d)
  else if (t <? 60)%nat then Z.lxor (Z.land b c) (Z.lxor (Z.land b d) (Z.land c d))
  else Z.lxor b (Z.lxor c d).

Definition fips_K (t : nat) : Z :=
  if (t <? 20)%nat then 0x5a827999
  else if (t <? 40)%nat then 0x6ed9eba1
  else if (t <? 60)%nat then 0x8f1bbcdc
  else 0xca62c1d6.

Definition fips_round (w : list Z) (r : regs) (t : nat) : regs :=
  let '(a, b, c, d, e) := r in
  ((rotl 5 a + fips_f t b c d + e + word w t + fips_K t) mod 2 ^ 32, a, rotl 30 b, c, d).

Definition fips_block (hs : list Z) (block : bytes) : list Z :=
  let w := schedule 64 (words_be block) in
  match hs with
  | [h0; h1; h2; h3; h4] =>
    let '(a, b, c, d, e) := foldl (fips_round w) (h0, h1, h2, h3, h4) (seq 0 80) in
    [(h0 + a) mod 2 ^ 32; (h1 + b) mod 2 ^ 32; (h2 + c) mod 2 ^ 32;
     (h3 + d) mod 2 ^ 32; (h4 + e) mod 2 ^ 32]
  | _ => []
  end.

Fixpoint blocks (n : nat) (l : bytes) : list bytes :=
  match n with
  | O => []
  | S n' => take 64 l :: blocks n' (drop 64 l)
  end.

Definition fips_init : list Z := [0x67452301; 0xefcdab89; 0x98badcfe; 0x10325476; 0xc3d2e1f0].

Definition fips_sha1 (d : bytes) : bytes :=
  let p := fips_pad d in
  flat_map be32 (foldl fips_block fips_init (blocks (length p / 64) p)).

(** ** Words *)

Definition is_word (z : Z) : Prop := 0 <= z < 2 ^ 32.

Lemma rotl_word n x : 0 < n < 32 -> is_word x -> S_ n x = rotl n x /\ is_word (rotl n x).
Proof.
  unfold is_word, S_, rotl, u32. intros Hn Hx.
  rewrite Z.shiftl_mul_pow2, Z.shiftr_div_pow2 by lia.
  replace (2 ^ 32) with (2 ^ (32 - n) * 2 ^ n) in * by (rewrite <- Z.pow_add_r by lia; f_equal; lia).
  pose proof (Z.pow_pos_nonneg 2 n ltac:(lia) ltac:(lia)).
  pose proof (Z.pow_pos_nonneg 2 (32 - n) ltac:(lia) ltac:(lia)).
  rewrite Z.mul_mod_distr_r by lia.
  pose proof (Z.mod_pos_bound x (2 ^ (32 - n)) ltac:(lia)).
  assert (0 <= x / 2 ^ (32 - n) < 2 ^ n) as Hd.
  { split; [apply Z.div_pos; lia|]. apply Z.div_lt_upper_bound; lia. }
  split; [apply lor_add; lia|]. nia.
Qed.

Lemma word_bits x n : is_word x -> 32 <= n -> Z.testbit x n = false.
Proof.
  intros Hx Hn. rewrite <- (Z.mod_small x (2 ^ 32)) by exact Hx.
  apply Z.mod_pow2_bits_high. lia.
Qed.

Lemma lxor_word x y : is_word x -> is_word y -> is_word (Z.lxor x y).
Proof.
  intros Hx Hy. assert (Z.lxor x y mod 2 ^ 32 = Z.lxor x y) as <-.
  { apply Z.bits_inj'. intros i Hi. destruct (Z.lt_ge_cases i 32).
    - by rewrite Z.mod_pow2_bits_low.
    - by rewrite Z.mod_pow2_bits_high, Z.lxor_spec, !word_bits. }
  apply Z.mod_pos_bound. lia.
Qed.

Lemma complement_word b : is_word b -> 2 ^ 32 - 1 - b = Z.lxor b (2 ^ 32 - 1).
Proof.
  intros Hb. change (2 ^ 32 - 1) with (Z.ones 32).
  rewrite Z.sub_nocarry_ldiff.
  - apply Z.bits_inj'. intros i Hi. rewrite Z.ldiff_spec, Z.lxor_spec.
    destruct (Z.lt_ge_cases i 32).
    + rewrite Z.ones_spec_low by lia. by destruct (Z.testbit b i).
    + by rewrite Z.ones_spec_high, word_bits by (done || lia).
  - apply Z.bits_inj'. intros i Hi. rewrite Z.ldiff_spec, Z.bits_0.
    destruct (Z.lt_ge_cases i 32).
    + rewrite Z.ones_spec_low by lia. apply andb_false_r.
    + by rewrite word_bits.
Qed.

Lemma F0_fips b c d : is_word b ->
  F0 b c d = Z.lxor (Z.land b c) (Z.land (2 ^ 32 - 1 - b) d).
Proof.
  intros Hb. rewrite complement_word by done. unfold F0. change (2 ^ 32 - 1) with (Z.ones 32).
  apply Z.bits_inj'. intros i Hi. rewrite Z.lor_spec, !Z.lxor_spec, !Z.land_spec, Z.lxor_spec.
  destruct (Z.lt_ge_cases i 32).
  - rewrite Z.ones_spec_low by lia. by destruct (Z.testbit b i), (Z.testbit c i), (Z.testbit d i).
  - rewrite Z.ones_spec_high, word_bits by (done || lia). done.
Qed.

Lemma F2_fips b c d :
  F2 b c d = Z.lxor (Z.land b c) (Z.lxor (Z.land b d) (Z.land c d)).
Proof.
  apply Z.bits_inj'. intros i Hi. unfold F2. rewrite !Z.lor_spec, !Z.lxor_spec, !Z.land_spec.
  by destruct (Z.testbit b i), (Z.testbit c i), (Z.testbit d i).
Qed.

(** ** Schedule *)

Lemma word_lookup w n : word w n = default 0 (w !! n).
Proof. apply nth_lookup. Qed.

Lemma word_app_l w w' n : (n < length w)%nat -> word (w ++ w') n = word w n.
Proof. intros. rewrite !word_lookup, lookup_app_l; done. Qed.

Lemma word_ok w n : Forall is_word w -> is_word (word w n).
Proof.
  intros Hw. rewrite word_lookup. destruct (w !! n) eqn:E; simpl; [|unfold is_word; lia].
  by eapply Forall_lookup_1.
Qed.

Lemma schedule_prefix n : forall w, exists w', schedule n w = w ++ w' /\ length w' = n.
Proof.
  induction n as [|n IH]; intros w; cbn [schedule]; [exists []; by rewrite app_nil_r|].
  destruct (IH (w ++ [rotl 1 (Z.lxor (Z.lxor (word w (length w - 3)) (word w (length w - 8)))
    (Z.lxor (word w (length w - 14)) (word w (length w - 16))))])) as (w' & -> & Hl).
  rewrite <- app_assoc. eexists. split; [done|]. rewrite length_app. simpl. lia.
Qed.

(** Every word of the schedule from index 16 on obeys the recurrence. *)
Lemma schedule_rec n : forall w, (16 <= length w)%nat -> Forall is_word w ->
  Forall is_word (schedule n w) /\
  forall t, (length w <= t < length w + n)%nat ->
    let W := word (schedule n w) in
    W t = rotl 1 (Z.lxor (Z.lxor (W (t - 3)%nat) (W (t - 8)%nat))
                    (Z.lxor (W (t - 14)%nat) (W (t - 16)%nat))).
Proof.
  induction n as [|n IH]; intros w Hl Hw; cbn [schedule]; [split; [done|lia]|].
  set (x := rotl 1 _).
  assert (is_word x) as Hx by (apply rotl_word; [lia|]; auto using lxor_word, word_ok).
  destruct (IH (w ++ [x])) as [H1 H2]; [rewrite length_app; simpl; lia|by apply Forall_app; auto|].
  split; [done|]. intros t Ht. rewrite length_app in H2. simpl in H2.
  destruct (decide (t = length w)) as [-> |Hne]; [|apply H2; lia].
  destruct (schedule_prefix n (w ++ [x])) as (w' & E & _). cbv zeta. rewrite E.
  rewrite <- app_assoc.
  rewrite (word_lookup _ (length w)), lookup_app_r, Nat.sub_diag by lia.
  rewrite !(word_app_l w) by lia. done.
Qed.

(** ** The circular schedule *)

(** Before round [t] the sixteen words of [w] are the last sixteen of [W]
    (the first sixteen while [t <= 16]), each at its index modulo 16. *)
Definition circ (W w : list Z) (t : nat) : Prop :=
  length w = 16%nat /\
  forall j, (t - 16 <= j < t - 16 + 16)%nat -> word w (j `mod` 16) = word W j.

Definition good (W : list Z) : Prop :=
  Forall is_word W /\
  forall t, (16 <= t < 80)%nat ->
    word W t = rotl 1 (Z.lxor (Z.lxor (word W (t - 3)) (word W (t - 8)))
                         (Z.lxor (word W (t - 14)) (word W (t - 16)))).

Lemma mod16_sub t k : (k <= 16 <= t)%nat -> ((t `mod` 16 + (16 - k)) `mod` 16 = (t - k) `mod` 16)%nat.
Proof.
  intros H. assert (t `mod` 16 = (t - 16) `mod` 16)%nat as ->.
  { rewrite <- (Nat.Div0.mod_add (t - 16) 1 16). f_equal. lia. }
  rewrite Nat.Div0.add_mod_idemp_l. f_equal. lia.
Qed.

Lemma mod16_inj i j : (i < j < i + 16)%nat -> (i `mod` 16 <> j `mod` 16)%nat.
Proof.
  intros H E. pose proof (Nat.div_mod_eq i 16). pose proof (Nat.div_mod_eq j 16). lia.
Qed.

Lemma word_insert w s v n : (s < length w)%nat ->
  word (<[s := v]> w) n = if decide (n = s) then v else word w n.
Proof.
  intros Hs. rewrite !word_lookup. destruct (decide (n = s)) as [-> |Hne].
  - by rewrite list_lookup_insert_eq.
  - by rewrite list_lookup_insert_ne by congruence.
Qed.

Lemma expand_circ W w t : good W -> circ W w t -> (16 <= t < 80)%nat ->
  let w' := expand w (t `mod` 16) in
  circ W w' (S t) /\ word w' (t `mod` 16) = word W t.
Proof.
  intros [HW Hrec] [Hl Hc] Ht. cbv zeta. pose proof (Nat.mod_upper_bound t 16 ltac:(lia)) as Hm.
  assert (expand w (t `mod` 16) = <[(t `mod` 16)%nat := word W t]> w) as ->.
  { unfold expand. f_equal. rewrite Hrec by done.
    pose proof (mod16_sub t 3 ltac:(lia)) as E3. pose proof (mod16_sub t 8 ltac:(lia)) as E8.
    pose proof (mod16_sub t 14 ltac:(lia)) as E14. simpl Nat.sub in E3, E8, E14.
    rewrite E3, E8, E14.
    assert (word w (t `mod` 16) = word W (t - 16)) as ->.
    { rewrite <- (Hc (t - 16)%nat) by lia. f_equal.
      rewrite <- (mod16_sub t 16) by lia. by rewrite Nat.sub_diag, Nat.add_0_r, Nat.Div0.mod_mod. }
    rewrite !Hc by lia.
    rewrite <- Z.lxor_assoc. apply rotl_word; [lia|]. auto using lxor_word, word_ok. }
  split; [|rewrite word_insert by lia; by rewrite decide_True].
  split; [by rewrite length_insert|]. intros j Hj. rewrite word_insert by lia.
  destruct (decide (j = t)) as [-> |Hne]; [by rewrite decide_True|].
  rewrite decide_False by (apply mod16_inj; lia). apply Hc. lia.
Qed.

(** The words the rounds use. *)
Definition cur (w : list Z) (t : nat) : list Z :=
  if (16 <=? t)%nat then expand w (t `mod` 16) else w.

Lemma cur_circ W w t : good W -> circ W w t -> (t < 80)%nat ->
  circ W (cur w t) (S t) /\ word (cur w t) (t `mod` 16) = word W t.
Proof.
  intros HW Hc Ht. unfold cur. destruct (Nat.leb_spec 16 t); [by apply expand_circ; auto|].
  destruct Hc as [Hl Hc]. split; [split; [done|]|].
  - intros j Hj. apply Hc. lia.
  - apply Hc. lia.
Qed.

Definition F_of (t : nat) : Z -> Z -> Z -> Z :=
  if (t <? 20)%nat then F0 else if (t <? 40)%nat then F1 else if (t <? 60)%nat then F2 else F3.

Definition round (st : list Z * regs) (t : nat) : list Z * regs :=
  let w := cur (fst st) t in (w, rotate (F_of t) (snd st) (word w (t `mod` 16)) (K t)).

Definition regs_ok (r : regs) : Prop :=
  let '(a, b, c, d, e) := r in
  is_word a /\ is_word b /\ is_word c /\ is_word d /\ is_word e.

Lemma rotate_fips W r t : regs_ok r -> (t < 80)%nat ->
  rotate (F_of t) r (word W t) (K t) = fips_round W r t /\ regs_ok (fips_round W r t).
Proof.
  destruct r as [[[[a b] c] d] e]. intros (Ha & Hb & Hc & Hd & He) Ht.
  unfold rotate, fips_round, regs_ok, u32.
  destruct (rotl_word 5 a ltac:(lia) Ha) as [-> _].
  destruct (rotl_word 30 b ltac:(lia) Hb) as [-> ?].
  assert (F_of t b c d = fips_f t b c d) as ->.
  { unfold F_of, fips_f. destruct (t <? 20)%nat; [by apply F0_fips|].
    destruct (t <? 40)%nat; [apply Z.lxor_assoc|].
    destruct (t <? 60)%nat; [apply F2_fips|apply Z.lxor_assoc]. }
  assert (K t = fips_K t) as ->.
  { unfold K, fips_K.
    repeat match goal with |- context [(?x <? ?y)%nat] => destruct (Nat.ltb_spec x y) end.
    - by rewrite Nat.div_small.
    - by rewrite <- (Nat.div_unique t 20 1 (t - 20)) by lia.
    - by rewrite <- (Nat.div_unique t 20 2 (t - 40)) by lia.
    - by rewrite <- (Nat.div_unique t 20 3 (t - 60)) by lia. }
  split; [done|]. unfold is_word in *. repeat split; try lia; apply Z.mod_pos_bound; lia.
Qed.

Lemma rounds_fips W n : good W -> forall t w r, (t + n <= 80)%nat -> circ W w t -> regs_ok r ->
  snd (foldl round (w, r) (seq t n)) = foldl (fips_round W) r (seq t n) /\
  regs_ok (foldl (fips_round W) r (seq t n)).
Proof.
  intros HW. induction n as [|n IH]; intros t w r Ht Hc Hr; [done|]. cbn [seq foldl].
  destruct (cur_circ W w t HW Hc ltac:(lia)) as [Hc' Hw].
  destruct (rotate_fips W r t Hr ltac:(lia)) as [E Hr'].
  unfold round at 2. cbn [fst snd]. rewrite Hw, E. apply IH; [lia|done|done].
Qed.

(** The four loops of the code are eighty rounds. *)
Lemma loops_round st :
  foldl (body F3) (foldl (body F2) (foldl (body F1) (foldl body0 st (seq 0 20)) (seq 20 20))
    (seq 40 20)) (seq 60 20) = foldl round st (seq 0 80).
Proof.
  assert (forall F l, Forall (fun t => (16 <= t)%nat /\ F_of t = F) l ->
    forall st, foldl (body F) st l = foldl round st l) as Hb.
  { intros F l Hl. induction Hl as [|t l [Ht HF] _ IH]; intros [w r]; [done|].
    cbn [foldl]. rewrite IH. f_equal. unfold body, round, cur. cbn [fst snd].
    destruct (Nat.leb_spec 16 t); [|lia]. by rewrite HF. }
  assert (forall l, Forall (fun t => F_of t = F0) l ->
    forall st, foldl body0 st l = foldl round st l) as H0.
  { intros l Hl. induction Hl as [|t l HF _ IH]; intros [w r]; [done|].
    cbn [foldl]. rewrite IH. f_equal. unfold body0, round, cur. cbn [fst snd]. by rewrite HF. }
  rewrite H0 by (repeat constructor). rewrite !Hb by (repeat constructor; lia).
  by rewrite <- !foldl_app.
Qed.

(** ** One block *)

Definition hs_ok (hs : list Z) : Prop := length hs = 5%nat /\ Forall is_word hs.

Lemma words_swap n : forall l, length l = (4 * n)%nat -> words_le (swap4 l) = words_be l.
Proof.
  induction n as [|n IH]; intros l Hl; [by destruct l|].
  destruct l as [|x0 [|x1 [|x2 [|x3 l]]]]; try (simpl in Hl; lia).
  cbn [swap4 words_le words_be]. f_equal; [lia|]. apply IH. simpl in Hl. lia.
Qed.

Lemma words_be_ok n : forall l, length l = (4 * n)%nat -> all_bytes l ->
  length (words_be l) = n /\ Forall is_word (words_be l).
Proof.
  induction n as [|n IH]; intros l Hl Hb; [by destruct l|].
  destruct l as [|x0 [|x1 [|x2 [|x3 l]]]]; try (simpl in Hl; lia).
  do 4 (inversion_clear Hb as [|? ? ? Hb']; rename Hb' into Hb).
  destruct (IH l) as [HA HB]; [simpl in Hl; lia|done|].
  cbn [words_be]. split; [simpl; lia|]. constructor; [|done].
  unfold is_byte, is_word in *. lia.
Qed.

Lemma block_good l : length l = 64%nat -> all_bytes l ->
  good (schedule 64 (words_be l)) /\ circ (schedule 64 (words_be l)) (words_be l) 0.
Proof.
  intros Hl Hb. destruct (words_be_ok 16 l Hl Hb) as [Hlen Hw].
  destruct (schedule_rec 64 (words_be l) ltac:(lia) Hw) as [H1 H2].
  split; [split; [done|]; intros t Ht; apply H2; lia|].
  split; [done|]. intros j Hj. rewrite Nat.mod_small by lia.
  destruct (schedule_prefix 64 (words_be l)) as (w' & -> & _). by rewrite word_app_l by lia.
Qed.

(** The compression of the code is the compression of the standard. *)
Lemma sha1_step_fips ctxt : hs_ok (h ctxt) -> length (m ctxt) = 64%nat -> all_bytes (m ctxt) ->
  sha1_step ctxt = mk_ctxt (fips_block (h ctxt) (m ctxt)) (c ctxt) (replicate 64 0) (count ctxt) /\
  hs_ok (fips_block (h ctxt) (m ctxt)).
Proof.
  destruct ctxt as [hs cc mm n]. cbn [h m c count]. intros [Hh Hw] Hm Hb.
  destruct hs as [|h0 [|h1 [|h2 [|h3 [|h4 [|]]]]]]; try discriminate Hh.
  destruct (block_good mm Hm Hb) as [Hg Hc].
  unfold sha1_step. cbn [h m c count nth]. rewrite loops_round, (words_swap 16) by exact Hm.
  destruct (rounds_fips _ 80 Hg 0 _ (h0, h1, h2, h3, h4) ltac:(lia) Hc) as [E _].
  { repeat match goal with H : Forall _ (_ :: _) |- _ => inversion_clear H end. done. }
  rewrite E. unfold fips_block.
  destruct (foldl (fips_round (schedule 64 (words_be mm))) (h0, h1, h2, h3, h4) (seq 0 80))
    as [[[[a b] c'] d] e]. split; [done|].
  split; [done|]. repeat constructor; try apply Z.mod_pos_bound; lia.
Qed.

(** ** Absorbing bytes

    Abstractly: the chaining value and the bytes of the incomplete block. *)
Definition feed (st : list Z * bytes) (x : Z) : list Z * bytes :=
  let '(hs, p) := st in
  if (length p =? 63)%nat then (fips_block hs (p ++ [x]), []) else (hs, p ++ [x]).

Lemma feeds_short hs p l : (length p + length l < 64)%nat ->
  foldl feed (hs, p) l = (hs, p ++ l).
Proof.
  revert p. induction l as [|x l IH]; intros p Hl; simpl in *; [by rewrite app_nil_r|].
  destruct (Nat.eqb_spec (length p) 63); [lia|].
  rewrite IH by (rewrite length_app; simpl; lia). by rewrite <- app_assoc.
Qed.

Lemma feeds_full hs p l : (length p + length l = 64)%nat -> l <> [] ->
  foldl feed (hs, p) l = (fips_block hs (p ++ l), []).
Proof.
  intros Hl Hne. destruct (exists_last Hne) as (l0 & x & ->). rewrite length_app in Hl. simpl in Hl.
  rewrite foldl_app, feeds_short by lia. simpl.
  rewrite length_app. destruct (Nat.eqb_spec (length p + length l0) 63); [|lia].
  by rewrite <- app_assoc.
Qed.

Lemma feeds_pending l : forall hs p, (length p < 64)%nat ->
  length (snd (foldl feed (hs, p) l)) = ((length p + length l) `mod` 64)%nat.
Proof.
  induction l as [|x l IH]; intros hs p Hp; cbn [foldl feed snd length].
  - by rewrite Nat.add_0_r, Nat.mod_small.
  - destruct (Nat.eqb_spec (length p) 63) as [E|E].
    + rewrite IH by (simpl; lia). cbn [length Nat.add]. rewrite E.
      replace (63 + S (length l))%nat with (length l + 1 * 64)%nat by lia.
      by rewrite Nat.Div0.mod_add.
    + rewrite IH by (rewrite length_app; simpl; lia). rewrite length_app. f_equal. simpl. lia.
Qed.

Lemma feeds_blocks n : forall hs l, length l = (64 * n)%nat ->
  foldl feed (hs, []) l = (foldl fips_block hs (blocks n l), []).
Proof.
  induction n as [|n IH]; intros hs l Hl; [by destruct l|].
  rewrite <- (take_drop 64 l) at 1. rewrite foldl_app, feeds_full.
  - cbn [blocks foldl app]. apply IH. rewrite length_drop. lia.
  - rewrite length_take. cbn [length]. lia.
  - intros E%(f_equal length). rewrite length_take in E. cbn [length] in E. lia.
Qed.

(** The context holds an abstract state. *)
Definition holds (ctxt : sha1_ctxt) (st : list Z * bytes) : Prop :=
  h ctxt = fst st /\ hs_ok (fst st) /\ length (m ctxt) = 64%nat /\ all_bytes (m ctxt) /\
  count ctxt = len (snd st) /\ (length (snd st) < 64)%nat /\
  take (length (snd st)) (m ctxt) = snd st.

Lemma take_inserts (p src l : bytes) : take (length p) l = p ->
  (length p + length src <= length l)%nat ->
  take (length (p ++ src)) (list_inserts (length p) src l) = p ++ src.
Proof.
  intros Hp Hl. apply list_eq. intros i.
  destruct (decide (i < length (p ++ src))%nat) as [Hi|Hi].
  - rewrite lookup_take_lt by done. rewrite length_app in Hi.
    destruct (decide (i < length p)%nat).
    + rewrite list_lookup_inserts_lt, lookup_app_l by done.
      transitivity (take (length p) l !! i); [by rewrite lookup_take_lt|by rewrite Hp].
    + rewrite list_lookup_inserts by lia. by rewrite lookup_app_r by lia.
  - rewrite !lookup_ge_None_2; [done| |]; rewrite ?length_take; lia.
Qed.

Lemma inserts_bytes i src l : all_bytes src -> all_bytes l -> all_bytes (list_inserts i src l).
Proof.
  intros Hs Hl. revert i. induction Hs as [|x src Hx _ IH]; intros i; [done|].
  simpl. apply Forall_insert; [apply IH|done].
Qed.

(** Copying [src] into the gap: short of the block, or completing it. *)
Definition filled (ctxt : sha1_ctxt) (src : bytes) (cc n : Z) : sha1_ctxt :=
  mk_ctxt (h ctxt) cc (list_inserts (Z.to_nat (count ctxt mod 64)) src (m ctxt)) n.

Lemma holds_count ctxt st : holds ctxt st -> count ctxt mod 64 = len (snd st).
Proof. intros (_ & _ & _ & _ & -> & Hp & _). apply Z.mod_small. unfold len. lia. Qed.

Lemma filled_m ctxt st src cc n : holds ctxt st -> all_bytes src ->
  (length (snd st) + length src <= 64)%nat ->
  length (m (filled ctxt src cc n)) = 64%nat /\ all_bytes (m (filled ctxt src cc n)) /\
  take (length (snd st ++ src)) (m (filled ctxt src cc n)) = snd st ++ src.
Proof.
  intros Hh Hsrc Hl. unfold filled. cbn [m]. rewrite (holds_count _ _ Hh).
  destruct Hh as (_ & _ & Hm & Hb & _ & Hp & Htake).
  replace (Z.to_nat (len (snd st))) with (length (snd st)) by (unfold len; lia).
  split; [by rewrite length_inserts|]. split; [by apply inserts_bytes|].
  apply take_inserts; [done|lia].
Qed.

Lemma holds_short ctxt st src cc n :
  holds ctxt st -> all_bytes src -> (length (snd st) + length src < 64)%nat ->
  n = len (snd st) + len src ->
  holds (filled ctxt src cc n) (foldl feed st src).
Proof.
  intros Hh Hsrc Hl Hn. destruct (filled_m ctxt st src cc n Hh Hsrc ltac:(lia)) as (H1 & H2 & H3).
  destruct Hh as (Hh & Hok & _). destruct st as [hs p]. cbn [fst snd] in *.
  rewrite feeds_short by done. unfold holds. cbn [fst snd]. rewrite length_app in H3 |- *.
  split; [done|]. split; [done|]. split; [done|]. split; [done|].
  split; [rewrite len_app; exact Hn|]. split; [done|exact H3].
Qed.

Lemma holds_full ctxt st src cc :
  holds ctxt st -> all_bytes src -> src <> [] -> (length (snd st) + length src = 64)%nat ->
  holds (sha1_step (filled ctxt src cc 0)) (foldl feed st src) /\
  c (sha1_step (filled ctxt src cc 0)) = cc.
Proof.
  intros Hh Hsrc Hne Hl. destruct (filled_m ctxt st src cc 0 Hh Hsrc ltac:(lia)) as (H1 & H2 & H3).
  destruct Hh as (Hh & Hok & _). destruct st as [hs p]. cbn [fst snd] in *.
  rewrite take_ge in H3 by (rewrite length_app; lia).
  destruct (sha1_step_fips (filled ctxt src cc 0)) as [-> H4].
  { unfold filled. cbn [h]. by rewrite Hh. } { done. } { done. }
  rewrite feeds_full by done. rewrite H3 in H4 |- *. unfold filled in H4 |- *. cbn [h c count] in H4 |- *.
  rewrite Hh in H4 |- *. split; [|done]. unfold holds. cbn [fst snd h m c count].
  split; [done|]. split; [done|]. split; [by rewrite length_replicate|].
  split; [apply Forall_replicate; unfold is_byte; lia|]. split; [done|]. split; [simpl; lia|done].
Qed.

Lemma holds_absorb ctxt st src cc n :
  holds ctxt st -> all_bytes src -> src <> [] -> (length (snd st) + length src <= 64)%nat ->
  n = (len (snd st) + len src) mod 64 ->
  let c2 := if n =? 0 then sha1_step (filled ctxt src cc n) else filled ctxt src cc n in
  holds c2 (foldl feed st src) /\ c c2 = cc.
Proof.
  intros Hh Hsrc Hne Hl Hn. cbv zeta.
  assert (0 < length src)%nat by (destruct src; [done|simpl; lia]).
  destruct (decide (length (snd st) + length src = 64)%nat) as [E|E].
  - assert (n = 0) as -> by (rewrite Hn; replace (_ + _) with 64 by (unfold len; lia); done).
    change (0 =? 0) with true. cbv iota. by apply holds_full.
  - rewrite Z.mod_small in Hn by (unfold len; lia).
    destruct (Z.eqb_spec n 0); [unfold len in Hn; lia|]. split; [|done]. apply holds_short; [done|done|lia|done].
Qed.

Lemma count_wrap a b : 0 <= a < 64 -> 0 <= b <= 64 ->
  u8 (a + u8 b) mod 64 = (a + b) mod 64 /\ u8 (a + u8 b) mod 64 mod 64 = (a + b) mod 64.
Proof.
  intros Ha Hb. rewrite (u8_small b), u8_small by (unfold is_byte; lia).
  rewrite Z.mod_mod by lia. done.
Qed.

Lemma holds_PUTPAD ctxt st x : holds ctxt st -> is_byte x ->
  holds (PUTPAD ctxt x) (feed st x) /\ c (PUTPAD ctxt x) = c ctxt.
Proof.
  intros Hh Hx. pose proof Hh as (_ & _ & _ & _ & Hc & Hp & _).
  destruct (count_wrap (count ctxt) 1) as [E1 E2]; [unfold len in Hc; lia|lia|].
  unfold PUTPAD, set_m, set_count. cbn [h m c count]. change (u8 1) with 1 in E1, E2.
  rewrite E2, E1.
  apply (holds_absorb ctxt st [x] (c ctxt) ((count ctxt + 1) mod 64));
    [done|by constructor|done|simpl; lia|by rewrite Hc].
Qed.

Lemma holds_PUTPADs l : forall ctxt st, holds ctxt st -> all_bytes l ->
  holds (foldl PUTPAD ctxt l) (foldl feed st l).
Proof.
  induction l as [|x l IH]; intros ctxt st Hh Hl; [done|]. inversion_clear Hl.
  cbn [foldl]. apply IH; [|done]. by apply holds_PUTPAD.
Qed.

Lemma holds_loop fuel : forall ctxt st input, holds ctxt st -> all_bytes input ->
  (length input <= fuel)%nat ->
  holds (sha1_loop_ fuel ctxt input) (foldl feed st input) /\
  c (sha1_loop_ fuel ctxt input) mod 2 ^ 64 = (c ctxt + 8 * len input) mod 2 ^ 64.
Proof.
  induction fuel as [|f IH]; intros ctxt st input Hh Hin Hl.
  { destruct input; [|simpl in Hl; lia]. split; [done|]. f_equal. rewrite len_nil. cbn [sha1_loop_]. lia. }
  destruct input as [|x l].
  { split; [done|]. f_equal. rewrite len_nil. cbn [sha1_loop_]. lia. }
  pose proof Hh as (_ & _ & _ & _ & Hc & Hp & _).
  set (input := x :: l) in *. cbn [sha1_loop_]. fold input.
  change (match input with [] => ctxt | _ => ?e end) with e.
  assert (1 <= len input) as Hlen by (unfold input; rewrite len_cons; pose proof (len_nonneg l); lia).
  assert (count ctxt mod 64 = len (snd st)) as Hgap by (rewrite Hc; apply Z.mod_small; unfold len; lia).
  rewrite Hgap. set (copysiz := if 64 - len (snd st) <? len input then _ else _).
  assert (1 <= copysiz <= 64 - len (snd st) /\ copysiz <= len input) as Hcs.
  { unfold copysiz. unfold len in *. destruct (Z.ltb_spec (64 - Z.of_nat (length (snd st))) (Z.of_nat (length input))); lia. }
  clearbody copysiz.
  set (src := take (Z.to_nat copysiz) input).
  assert (len src = copysiz) as Hsrc by (unfold src, len in *; rewrite length_take; lia).
  destruct (count_wrap (count ctxt) copysiz) as [E1 E2]; [unfold len in *; lia|unfold len in *; lia|].
  unfold set_m, set_count. cbn [h m c count]. rewrite E1.
  rewrite Z.mod_mod by lia.
  destruct (holds_absorb ctxt st src (u64 (c ctxt + u64 (copysiz * 8))) ((count ctxt + copysiz) mod 64))
    as [Hh' Hc']; [done|by apply Forall_take|by intros E; rewrite E in Hsrc; unfold len in Hsrc; simpl in Hsrc; lia|
      unfold len in *; lia|by rewrite Hc, Hsrc|].
  cbv zeta in Hh', Hc'. unfold filled in Hh', Hc'. rewrite Hgap in Hh', Hc'.
  destruct (IH _ _ (drop (Z.to_nat copysiz) input) Hh') as [IH1 IH2];
    [by apply Forall_drop|rewrite length_drop; unfold len in *; lia|].
  split.
  - rewrite <- foldl_app in IH1. unfold src in IH1. by rewrite take_drop in IH1.
  - rewrite IH2, Hc'. unfold u64. rewrite Z.add_mod_idemp_l by lia.
    replace (c ctxt + (copysiz * 8) mod 2 ^ 64 + 8 * len (drop (Z.to_nat copysiz) input))
      with ((copysiz * 8) mod 2 ^ 64 + (c ctxt + 8 * len (drop (Z.to_nat copysiz) input))) by lia.
    rewrite Z.add_mod_idemp_l by lia. f_equal.
    unfold len in *. rewrite length_drop. lia.
Qed.

Lemma zeros_bytes k : all_bytes (replicate k 0).
Proof. apply Forall_replicate. unfold is_byte. lia. Qed.

Lemma be64_bytes n : all_bytes (be64 n).
Proof. repeat constructor; apply Z.mod_pos_bound; lia. Qed.

Lemma mod_m64 z : 56 <= z < 64 -> (55 - z) mod 64 = 119 - z.
Proof. intros. rewrite <- (Z.mod_add _ 1) by lia. rewrite Z.mod_small; lia. Qed.

(** How many zeros [pad_full] adds behind [n] pending bytes. *)
Definition full_zeros (n : nat) : nat := if (56 <? n)%nat then (64 - n)%nat else 0%nat.

Lemma holds_pad_full ctxt st : holds ctxt st ->
  let '(ctxt', padstart, padlen) := pad_full ctxt in
  let st' := foldl feed st (replicate (full_zeros (length (snd st))) 0) in
  holds ctxt' st' /\ c ctxt' = c ctxt /\ padstart = len (snd st') /\ padlen = 64 - padstart /\
  8 <= padlen <= 64.
Proof.
  intros Hh. pose proof Hh as (_ & _ & _ & _ & Hc & Hp & _).
  unfold pad_full, full_zeros. rewrite (holds_count _ _ Hh).
  destruct (Z.ltb_spec (64 - len (snd st)) 8) as [Hlt|Hge];
    destruct (Nat.ltb_spec 56 (length (snd st))); unfold len in Hlt || unfold len in Hge; try lia;
    [|cbn [replicate foldl]; unfold len; repeat split; try apply Hh; lia].
  set (k := (64 - length (snd st))%nat).
  destruct (holds_full ctxt st (replicate k 0) (c ctxt) Hh (zeros_bytes k)) as [H2 Hc2].
  { intros E%(f_equal length). rewrite length_replicate in E. unfold k in E. cbn [length] in E. lia. }
  { rewrite length_replicate. unfold k. lia. }
  destruct (count_wrap (count ctxt) (64 - len (snd st))) as [E1 _]; [unfold len in *; lia..|].
  unfold set_m, set_count. cbn [h m c count].
  rewrite E1, Hc. replace ((len (snd st) + (64 - len (snd st))) mod 64) with 0
    by (replace (_ + _) with 64 by lia; done).
  replace (Z.to_nat (64 - len (snd st))) with k by (unfold k, len; lia).
  unfold filled in H2, Hc2. rewrite (holds_count _ _ Hh) in H2, Hc2.
  generalize dependent (sha1_step (mk_ctxt (h ctxt) (c ctxt)
    (list_inserts (Z.to_nat (len (snd st))) (replicate k 0) (m ctxt)) 0)).
  intros c2 H2 Hc2. rewrite (holds_count _ _ H2).
  destruct st as [hs p]. pose proof (feeds_pending (replicate k 0) hs p Hp) as L2.
  cbn [snd] in *. rewrite length_replicate in L2.
  replace (length p + k)%nat with 64%nat in L2 by (unfold k; lia).
  change (64 `mod` 64)%nat with 0%nat in L2. unfold len. rewrite L2.
  split; [exact H2|]. split; [exact Hc2|]. lia.
Qed.

Lemma pad_zeros n : (n < 64)%nat ->
  let n1 := ((n + 1) `mod` 64)%nat in
  let n2 := ((n1 + full_zeros n1) `mod` 64)%nat in
  Z.to_nat ((55 - Z.of_nat n) mod 64) = (full_zeros n1 + (56 - n2))%nat /\ (n2 <= 56)%nat.
Proof.
  intros Hn.
  assert (forallb (fun n => let n1 := ((n + 1) `mod` 64)%nat in
    let n2 := ((n1 + full_zeros n1) `mod` 64)%nat in
    (Z.to_nat ((55 - Z.of_nat n) mod 64) =? full_zeros n1 + (56 - n2))%nat && (n2 <=? 56)%nat)
    (seq 0 64) = true) as H by (vm_compute; reflexivity).
  rewrite forallb_forall in H. specialize (H n). rewrite in_seq in H. specialize (H ltac:(lia)).
  cbv zeta in H |- *. apply andb_true_iff in H as [H1%Nat.eqb_eq H2%Nat.leb_le]. done.
Qed.

Lemma holds_pad ctxt st : holds ctxt st ->
  holds (sha1_pad ctxt)
    (foldl feed st ([128] ++ replicate (Z.to_nat ((55 - len (snd st)) mod 64)) 0 ++ be64 (c ctxt))).
Proof.
  intros Hh0. pose proof Hh0 as (_ & _ & _ & _ & _ & Hp0 & _).
  destruct (pad_zeros (length (snd st)) Hp0) as [Hz Hle]. unfold len at 1. rewrite Hz. clear Hz.
  destruct (holds_PUTPAD ctxt st 128 Hh0 ltac:(unfold is_byte; lia)) as [Hh Hc].
  pose proof (feeds_pending [128] (fst st) (snd st) Hp0) as Hp1. rewrite <- surjective_pairing in Hp1.
  cbn [foldl length] in Hp1. rewrite <- Hp1 in Hle |- *.
  rewrite foldl_app, foldl_app. cbn [foldl]. unfold sha1_pad.
  rewrite <- Hc. clear Hc Hh0 Hp0 Hp1.
  generalize dependent (PUTPAD ctxt 128). generalize dependent (feed st 128). clear ctxt st.
  intros st Hle ctxt Hh. pose proof Hh as (_ & _ & _ & _ & _ & Hp & _).
  pose proof (holds_pad_full ctxt st Hh) as Hf.
  destruct (pad_full ctxt) as [[c2 padstart] padlen]. cbv zeta in Hf.
  rewrite replicate_add, foldl_app.
  pose proof (feeds_pending (replicate (full_zeros (length (snd st))) 0) (fst st) (snd st) Hp) as Hp2.
  rewrite <- surjective_pairing, length_replicate in Hp2. rewrite <- Hp2 in Hle |- *. clear Hp2.
  generalize dependent (foldl feed st (replicate (full_zeros (length (snd st))) 0)).
  intros st2 Hle (H2 & Hc2 & Hps & Hpl & Hrange). pose proof H2 as (_ & _ & _ & _ & Hcount & _).
  unfold set_m, set_count. cbn [h m c count]. rewrite <- Hc2.
  apply holds_PUTPADs; [|apply be64_bytes].
  replace (u8 (count c2 + (u8 padlen - 8)) mod 64) with 56.
  - replace (Z.to_nat (padlen - 8)) with (56 - length (snd st2))%nat by (unfold len in *; lia).
    rewrite Hps, <- (holds_count _ _ H2).
    apply holds_short; [done|apply zeros_bytes|rewrite length_replicate; lia|].
    unfold len. rewrite length_replicate. lia.
  - rewrite (u8_small padlen) by (unfold is_byte; lia).
    replace (count c2 + (padlen - 8)) with 56 by lia. done.
Qed.

Lemma holds_init : holds _sha1_init (fips_init, []).
Proof.
  unfold holds. cbn [fst snd h m c count _sha1_init].
  split; [done|]. split; [split; [done|]; repeat (constructor; [unfold is_word; lia|]); constructor|].
  split; [done|]. split; [apply zeros_bytes|]. split; [done|]. split; [simpl; lia|done].
Qed.

Lemma holds_pieces ls : forall ctxt st, holds ctxt st -> Forall all_bytes ls ->
  holds (foldl sha1_loop ctxt ls) (foldl feed st (concat ls)) /\
  c (foldl sha1_loop ctxt ls) mod 2 ^ 64 = (c ctxt + 8 * len (concat ls)) mod 2 ^ 64.
Proof.
  induction ls as [|l ls IH]; intros ctxt st Hh Hls; cbn [foldl concat].
  - split; [done|]. f_equal. rewrite len_nil. lia.
  - inversion_clear Hls as [|? ? Hl Hls'].
    destruct (holds_loop (length l) ctxt st l Hh Hl ltac:(lia)) as [H1 H2].
    destruct (IH (sha1_loop ctxt l) _ H1 Hls') as [H3 H4]. rewrite foldl_app. split; [done|].
    rewrite H4, len_app, <- Z.add_mod_idemp_l by lia. unfold sha1_loop. rewrite H2.
    rewrite Z.add_mod_idemp_l by lia. f_equal. lia.
Qed.

Lemma be64_mod n : be64 n = be64 (n mod 2 ^ 64).
Proof.
  assert (forall k, 0 <= k <= 56 -> n / 2 ^ k mod 256 = n mod 2 ^ 64 / 2 ^ k mod 256) as H.
  { intros k Hk. change 256 with (2 ^ 8). apply Z.bits_inj'. intros i Hi.
    destruct (Z.lt_ge_cases i 8).
    - rewrite !Z.mod_pow2_bits_low, !Z.div_pow2_bits, Z.mod_pow2_bits_low by lia. done.
    - by rewrite !Z.mod_pow2_bits_high. }
  assert (n mod 256 = n mod 2 ^ 64 mod 256) as H0.
  { pose proof (H 0 ltac:(lia)) as H'. by rewrite !Z.div_1_r in H'. }
  unfold be64. by rewrite !H, H0 by lia.
Qed.

Lemma fips_pad_blocks d : exists n, length (fips_pad d) = (64 * n)%nat.
Proof.
  exists (Z.to_nat ((len d + 1 + (55 - len d) mod 64 + 8) / 64)).
  unfold fips_pad. rewrite !length_app, length_replicate. unfold len. cbn [length be64].
  pose proof (Z.mod_pos_bound (55 - Z.of_nat (length d)) 64 ltac:(lia)). dlia.
Qed.

(** ** Properties *)

(** The hash of a text fed in pieces. *)
Lemma sha1_pieces (ls : list bytes) :
  Forall all_bytes ls ->
  sha1_result (foldl sha1_loop _sha1_init ls) = fips_sha1 (concat ls) /\
  length (fips_sha1 (concat ls)) = 20%nat.
Proof.
  intros Hls. destruct (holds_pieces ls _ _ holds_init Hls) as [H1 H2].
  apply holds_pad in H1. rewrite be64_mod, H2, <- be64_mod, <- foldl_app in H1.
  change (c _sha1_init) with 0 in H1. rewrite Z.add_0_l in H1.
  pose proof (feeds_pending (concat ls) fips_init [] ltac:(simpl; lia)) as Hp.
  assert ((55 - len (snd (foldl feed (fips_init, []) (concat ls)))) mod 64
          = (55 - len (concat ls)) mod 64) as E.
  { unfold len. rewrite Hp, Nat2Z.inj_mod. cbn [length Nat.add]. apply Zminus_mod_idemp_r. }
  rewrite E in H1. fold (fips_pad (concat ls)) in H1.
  destruct (fips_pad_blocks (concat ls)) as [n Hn]. rewrite (feeds_blocks n) in H1 by exact Hn.
  destruct H1 as (H1 & (H5 & _) & _). unfold sha1_result, fips_sha1. rewrite H1, Hn. cbn [fst] in *.
  replace (64 * n / 64)%nat with n by (rewrite Nat.mul_comm, Nat.div_mul; done).
  split; [done|]. destruct (foldl fips_block fips_init (blocks n (fips_pad (concat ls))))
    as [|? [|? [|? [|? [|? [|]]]]]]; try discriminate H5. done.
Qed.

Lemma lws_SHA1_fips (d : bytes) :
  all_bytes d -> lws_SHA1 d = fips_sha1 d /\ length (fips_sha1 d) = 20%nat.
Proof.
  intros Hd. destruct (sha1_pieces [d]) as [H1 H2]; [by constructor|].
  cbn [concat foldl] in H1, H2. rewrite app_nil_r in H1, H2. done.
Qed.

Lemma fips_sha1_bytes d : all_bytes (fips_sha1 d).
Proof.
  unfold fips_sha1. generalize (foldl fips_block fips_init (blocks (length (fips_pad d) / 64) (fips_pad d))).
  intros l. induction l as [|x l IH]; [constructor|]. cbn [concat fmap list_fmap map]. apply Forall_app. split; [|exact IH].
  unfold be32. repeat constructor; apply u8_range.
Qed.

(** C30: for every sequence of byte strings fed to the context with [sha1_loop], in whatever pieces, [sha1_result]
    is the SHA-1 of FIPS 180-1 of their concatenation (whose length field is
    the bit length modulo 2^64); in particular
    [lws_SHA1] computes that function, and its result has twenty bytes. *)
Theorem sha1_correct (ls : list bytes) (d : bytes) :
  Forall all_bytes ls -> all_bytes d ->
  sha1_result (foldl sha1_loop _sha1_init ls) = fips_sha1 (concat ls) /\
  lws_SHA1 d = fips_sha1 d /\ length (fips_sha1 d) = 20%nat.
Proof.
  intros Hls Hd. split; [by apply sha1_pieces|by apply lws_SHA1_fips].
Qed.

Lemma sha1_correct_witness :
  sha1_result (foldl sha1_loop _sha1_init [str "a"; []; str "bc"]) = fips_sha1 (str "abc").
Proof.
  apply (sha1_correct [str "a"; []; str "bc"] []);
    [apply (bool_decide_unpack _); vm_compute; exact I|constructor].
Defined.

(** The value RFC 6455 gives for the sample key of its section 1.3. *)
Example accept_rfc6455 :
  Base64.lws_b64_encode_string
    (lws_SHA1 (str "dGhlIHNhbXBsZSBub25jZQ==258EAFA5-E914-47DA-95CA-C5AB0DC85B11")) 64
  = (28, str "s3pPLMBiTxaQ9kYGzzhZRbK+xOo=" ++ [0]).
Proof. vm_compute. reflexivity. Qed.

End Sha1.
