(* ===== verification/Buflist.v ===== *)
(** * Buffer lists (libwebsockets lib/core/buflist.c)

    The queue of received bytes a connection has not consumed yet and of
    output the socket did not take.  The singly linked list is the list of its
    segments in order; the memory allocator's answer is an argument; a failed
    [assert] is an error. *)

From S2P Require Import Prelude.

Module Buflist.

(** [struct lws_buflist] without its link. *)
Record lws_buflist := mk_seg { seg_len : Z; seg_pos : Z; seg_buf : bytes }.

#[global] Instance lws_buflist_eq_dec : EqDecision lws_buflist.
Proof. solve_decision. Defined.

(** The walk to the tail: [None] when the sanity counter runs out. *)
Fixpoint walk_to_tail (head : list lws_buflist) (sanity : Z) : option Z :=
  match head with
  | [] => Some sanity
  | _ :: next =>
    let sanity := sanity - 1 in
    if sanity =? 0 then None else walk_to_tail next sanity
  end.

(** Returns 1 when the segment is the first of the list. *)
Definition lws_buflist_append_segment (malloc_ok : bool) (head : list lws_buflist) (buf : bytes)
  : res exn (Z * list lws_buflist) :=
  let first := match head with [] => 1 | _ => 0 end in
  if len buf =? 0 then Err assertion_failed
  else
    match walk_to_tail head 1024 with
    | None => Ok (-1, head)
    | Some _ =>
      if negb malloc_ok then Ok (-1, head)
      else Ok (first, head ++ [mk_seg (len buf) 0 buf])
    end.

(** Returns 1 when the last segment was destroyed. *)
Definition lws_buflist_destroy_segment (head : list lws_buflist)
  : res exn (Z * list lws_buflist) :=
  match head with
  | [] => Err assertion_failed
  | _ :: next => Ok (match next with [] => 1 | _ => 0 end, next)
  end.

Fixpoint lws_buflist_destroy_all_segments (head : list lws_buflist) : list lws_buflist :=
  match head with
  | [] => []
  | _ :: p1 => lws_buflist_destroy_all_segments p1
  end.

(** The length, the bytes [*buf] points at ([None] for NULL) and the list. *)
Definition lws_buflist_next_segment_len (head : list lws_buflist)
  : res exn (Z * option bytes * list lws_buflist) :=
  match head with
  | [] => Ok (0, None, [])
  | s :: next =>
    head ← (if (seg_len s =? 0) && (match next with [] => false | _ => true end)
            then '(_, head') ← lws_buflist_destroy_segment head; Ok head'
            else Ok head);
    match head with
    | [] => Ok (0, None, [])
    | s :: _ =>
      if negb (seg_pos s <? seg_len s) then Err assertion_failed
      else Ok (seg_len s - seg_pos s, Some (drop (Z.to_nat (seg_pos s)) (seg_buf s)), head)
    end
  end.

Definition lws_buflist_use_segment (head : list lws_buflist) (n : Z)
  : res exn (Z * list lws_buflist) :=
  match head with
  | [] => Err assertion_failed
  | s :: next =>
    if n =? 0 then Err assertion_failed
    else if negb (u64 (seg_pos s + n) <=? seg_len s) then Err assertion_failed
    else
      let s := mk_seg (seg_len s) (u64 (seg_pos s + n)) (seg_buf s) in
      head ← (if seg_pos s =? seg_len s
              then '(_, head') ← lws_buflist_destroy_segment (s :: next); Ok head'
              else Ok (s :: next));
      match head with
      | [] => Ok (0, [])
      | s :: _ => Ok (s32 (seg_len s - seg_pos s), head)
      end
  end.

(** The lines [lws_buflist_describe] logs: index, position, length, rest. *)
Fixpoint lws_buflist_describe (n : Z) (head : list lws_buflist) : list (Z * Z * Z * Z) :=
  match head with
  | [] => []
  | s :: next =>
    (n, seg_pos s, seg_len s, u64 (seg_len s - seg_pos s)) :: lws_buflist_describe (n + 1) next
  end.

(** ** The byte queue *)

(** A segment between calls: not used up. *)
Definition seg_ok (s : lws_buflist) : Prop :=
  seg_len s = len (seg_buf s) /\ 0 <= seg_pos s < seg_len s /\ seg_len s < 2 ^ 31.

Definition seg_rest (s : lws_buflist) : bytes := drop (Z.to_nat (seg_pos s)) (seg_buf s).

Definition queue (l : list lws_buflist) : bytes := concat (map seg_rest l).

(** Length of the first chunk. *)
Definition first_len (l : list lws_buflist) : Z :=
  match l with [] => 0 | s :: _ => len (seg_rest s) end.

Lemma seg_rest_len s : seg_ok s -> len (seg_rest s) = seg_len s - seg_pos s.
Proof. intros (Hl & Hp & _). unfold seg_rest, len in *. rewrite length_drop. lia. Qed.

Lemma walk_spec l : forall n, 0 < n ->
  walk_to_tail l n = if Z.of_nat (length l) <? n then Some (n - Z.of_nat (length l)) else None.
Proof.
  induction l as [|s l IH]; intros n Hn; cbn [walk_to_tail length].
  - destruct (Z.ltb_spec (Z.of_nat 0) n); [f_equal; lia|lia].
  - destruct (Z.eqb_spec (n - 1) 0); [destruct (Z.ltb_spec (Z.of_nat (S (length l))) n); [lia|done]|].
    rewrite IH by lia.
    destruct (Z.ltb_spec (Z.of_nat (length l)) (n - 1)), (Z.ltb_spec (Z.of_nat (S (length l))) n);
      try lia; [f_equal; lia|done].
Qed.

Lemma append_spec l buf : Forall seg_ok l -> 0 < len buf < 2 ^ 31 ->
  lws_buflist_append_segment true l buf
  = (if (length l <? 1024)%nat
     then Ok (match l with [] => 1 | _ => 0 end, l ++ [mk_seg (len buf) 0 buf])
     else Ok (-1, l)) /\
  Forall seg_ok (l ++ [mk_seg (len buf) 0 buf]) /\
  queue (l ++ [mk_seg (len buf) 0 buf]) = queue l ++ buf.
Proof.
  intros Hl Hb. split; [|split].
  - unfold lws_buflist_append_segment. destruct (Z.eqb_spec (len buf) 0); [lia|].
    rewrite walk_spec by lia.
    destruct (Z.ltb_spec (Z.of_nat (length l)) 1024), (Nat.ltb_spec (length l) 1024); done || lia.
  - apply Forall_app. split; [done|]. constructor; [|constructor].
    unfold seg_ok. cbn [seg_len seg_pos seg_buf]. lia.
  - unfold queue. rewrite map_app, concat_app. cbn. by rewrite app_nil_r.
Qed.

Lemma next_spec l : Forall seg_ok l ->
  lws_buflist_next_segment_len l
  = Ok (first_len l, match l with [] => None | s :: _ => Some (seg_rest s) end, l).
Proof.
  intros Hl. destruct l as [|s l]; [done|]. inversion_clear Hl as [|? ? Hs _].
  unfold lws_buflist_next_segment_len. pose proof Hs as (Hlen & Hp & _).
  destruct (Z.eqb_spec (seg_len s) 0); [lia|]. cbn [andb mbind res_bind].
  destruct (Z.ltb_spec (seg_pos s) (seg_len s)); [|lia]. cbn [negb].
  by rewrite <- seg_rest_len.
Qed.

Lemma use_spec l n : Forall seg_ok l -> 0 < n <= first_len l ->
  exists l', lws_buflist_use_segment l n = Ok (first_len l', l') /\ Forall seg_ok l' /\
    queue l' = drop (Z.to_nat n) (queue l) /\ (length l' <= length l)%nat.
Proof.
  intros Hl Hn. destruct l as [|s l]; [simpl in Hn; lia|]. inversion_clear Hl as [|? ? Hs Hl'].
  pose proof (seg_rest_len s Hs) as Hrest. pose proof Hs as (Hlen & Hp & Hmax). cbn [first_len] in Hn.
  unfold lws_buflist_use_segment. rewrite u64_small by lia. cbn [seg_pos seg_len].
  destruct (Z.eqb_spec n 0); [lia|]. destruct (Z.leb_spec (seg_pos s + n) (seg_len s)); [|lia].
  cbn [negb]. destruct (Z.eqb_spec (seg_pos s + n) (seg_len s)) as [E|E];
    cbn [mbind res_bind lws_buflist_destroy_segment].
  - exists l. split; [|split; [done|]].
    + destruct l as [|s' l]; [done|]. inversion_clear Hl' as [|? ? Hs' _].
      cbn [first_len]. rewrite seg_rest_len by done. destruct Hs' as (? & ? & ?).
      by rewrite s32_small by lia.
    + split; [|simpl; lia].
      unfold queue. cbn [map concat]. rewrite drop_app_length'; [done|]. unfold len in *. lia.
  - set (s' := mk_seg (seg_len s) (seg_pos s + n) (seg_buf s)).
    assert (seg_ok s') as Hs' by (unfold seg_ok, s'; cbn [seg_len seg_pos seg_buf]; lia).
    exists (s' :: l). split; [|split; [by constructor|]].
    + cbn [first_len]. rewrite seg_rest_len by done. unfold s'. cbn [seg_len seg_pos].
      by rewrite s32_small by lia.
    + split; [|simpl; lia].
      unfold queue. cbn [map concat]. rewrite drop_app_le by (unfold len in *; lia).
      f_equal. unfold s', seg_rest. cbn [seg_pos seg_buf]. rewrite drop_drop. f_equal. lia.
Qed.

Lemma destroy_all_nil l : lws_buflist_destroy_all_segments l = [].
Proof. induction l; done. Qed.

(** ** A client of the queue *)

(** What a connection does with its buffer list. *)
Inductive op :=
| Append (buf : bytes)
| Use (n : Z)
| DestroyAll.

(** Runs operations with the allocator succeeding; the bytes used are
    collected in order, each read through [lws_buflist_next_segment_len]. *)
Definition run_op (st : list lws_buflist * bytes) (o : op) : res exn (list lws_buflist * bytes) :=
  let '(l, used) := st in
  match o with
  | Append buf => '(_, l) ← lws_buflist_append_segment true l buf; Ok (l, used)
  | Use n =>
    '(_, buf, l) ← lws_buflist_next_segment_len l;
    '(_, l) ← lws_buflist_use_segment l n;
    Ok (l, used ++ take (Z.to_nat n) (default [] buf))
  | DestroyAll => Ok (lws_buflist_destroy_all_segments l, used)
  end.

(** The same on a plain byte queue, with the number of segments bounded. *)
Definition spec_op (st : bytes * bytes) (o : op) : bytes * bytes :=
  let '(q, used) := st in
  match o with
  | Append buf => (q ++ buf, used)
  | Use n => (drop (Z.to_nat n) q, used ++ take (Z.to_nat n) q)
  | DestroyAll => ([], used)
  end.

(** A well-behaved client: appends something, uses no more than the chunk it
    was shown, keeps below the sanity limit. *)
Definition op_ok (l : list lws_buflist) (o : op) : Prop :=
  match o with
  | Append buf => 0 < len buf < 2 ^ 31 /\ (length l < 1024)%nat
  | Use n => 0 < n <= first_len l
  | DestroyAll => True
  end.

(** The buffer list is a byte queue: on a well-formed list every
    operation of a well-behaved client succeeds, keeps the list well formed
    and acts on the concatenated contents as the queue operation - append at
    the end, consume from the front the bytes next_segment_len showed, clear -
    and use_segment returns the length of the next chunk. *)
Theorem buflist_queue l used o :
  Forall seg_ok l -> op_ok l o ->
  exists l' used', run_op (l, used) o = Ok (l', used') /\ Forall seg_ok l' /\
    (queue l', used') = spec_op (queue l, used) o /\
    match o with
    | Append buf => lws_buflist_append_segment true l buf = Ok (match l with [] => 1 | _ => 0 end, l')
    | Use n => lws_buflist_use_segment l n = Ok (first_len l', l')
    | DestroyAll => l' = []
    end.
Proof.
  intros Hl Ho. destruct o as [buf|n|].
  - destruct Ho as [Hb Hn]. destruct (append_spec l buf Hl Hb) as (E & H1 & H2).
    destruct (Nat.ltb_spec (length l) 1024); [|lia].
    eexists _, used. unfold run_op. rewrite E. cbn [mbind res_bind].
    split; [done|]. split; [done|]. split; [by rewrite H2|done].
  - destruct (use_spec l n Hl Ho) as (l' & E & H1 & H2 & _).
    exists l', (used ++ take (Z.to_nat n) (queue l)). unfold run_op. rewrite next_spec by done.
    cbn [mbind res_bind]. rewrite E. cbn [mbind res_bind].
    destruct l as [|s l]; [simpl in Ho; lia|]. cbn [default first_len op_ok] in *.
    split; [|split; [done|split; [by cbn; rewrite H2|done]]].
    unfold queue. cbn [map concat]. by rewrite take_app_le by (unfold len in *; lia).
  - exists [], used. cbn. by rewrite destroy_all_nil.
Qed.

Lemma buflist_queue_witness :
  let l := [mk_seg 3 1 (str "abc")] in
  exists l' used', run_op (l, []) (Use 2) = Ok (l', used') /\
    (queue l', used') = spec_op (queue l, []) (Use 2).
Proof.
  cbv zeta.
  destruct (buflist_queue [mk_seg 3 1 (str "abc")] [] (Use 2)) as (l' & used' & H1 & _ & H2 & _).
  - constructor; [|constructor]. unfold seg_ok. vm_compute. repeat split; discriminate.
  - vm_compute. split; [done|discriminate].
  - eauto.
Defined.

End Buflist.
