(* ===== verification/Dll2.v ===== *)
(** * Doubly linked lists (libwebsockets lib/core/lws_dll2.c)

    The lists with an explicit owner the event loop keeps its timers on.  The
    memory is a heap of nodes and owners; a dereference of anything that is
    not there and a failed [assert] are errors.  The heap represents a finite
    map from owners to lists, and every operation of the file refines the list
    operation it is meant to be. *)

From Stdlib Require Import Sorting.Sorted.
From S2P Require Import Prelude.

Module Dll2.

Abbreviation loc := positive.
(** A pointer; [None] is NULL. *)
Abbreviation ptr := (option positive).

Inductive fault := bad_pointer | assert_failed | signed_overflow | out_of_fuel.

(** [struct lws_dll2] *)
Record lws_dll2 := mk_node { prev : ptr; next : ptr; owner : ptr }.

(** [struct lws_dll2_owner] *)
Record lws_dll2_owner := mk_owner { tail : ptr; head : ptr; count : Z }.

Record heap := mk_heap { nodes : gmap loc lws_dll2; owners : gmap loc lws_dll2_owner }.

#[global] Instance fault_eq_dec : EqDecision fault.
Proof. solve_decision. Defined.
#[global] Instance lws_dll2_eq_dec : EqDecision lws_dll2.
Proof. solve_decision. Defined.
#[global] Instance lws_dll2_owner_eq_dec : EqDecision lws_dll2_owner.
Proof. solve_decision. Defined.
#[global] Instance heap_eq_dec : EqDecision heap.
Proof. solve_decision. Defined.

(** ** Loads and stores *)

Definition node (h : heap) (d : loc) : res fault lws_dll2 :=
  match nodes h !! d with Some n => Ok n | None => Err bad_pointer end.

Definition own (h : heap) (o : loc) : res fault lws_dll2_owner :=
  match owners h !! o with Some w => Ok w | None => Err bad_pointer end.

Definition upd_node (d : loc) (f : lws_dll2 -> lws_dll2) (h : heap) : res fault heap :=
  n ← node h d; Ok (mk_heap (<[d := f n]> (nodes h)) (owners h)).

Definition upd_own (o : loc) (f : lws_dll2_owner -> lws_dll2_owner) (h : heap) : res fault heap :=
  w ← own h o; Ok (mk_heap (nodes h) (<[o := f w]> (owners h))).

Definition set_prev (p : ptr) (n : lws_dll2) := mk_node p (next n) (owner n).
Definition set_next (p : ptr) (n : lws_dll2) := mk_node (prev n) p (owner n).
Definition set_owner (p : ptr) (n : lws_dll2) := mk_node (prev n) (next n) p.
Definition set_tail (p : ptr) (w : lws_dll2_owner) := mk_owner p (head w) (count w).
Definition set_head (p : ptr) (w : lws_dll2_owner) := mk_owner (tail w) p (count w).
(** [count] is a [uint32_t]. *)
Definition set_count (f : Z -> Z) (w : lws_dll2_owner) := mk_owner (tail w) (head w) (u32 (f (count w))).

(** A store through a pointer that may be NULL, under its test. *)
Definition if_ptr (p : ptr) (f : loc -> heap -> res fault heap) (h : heap) : res fault heap :=
  match p with Some q => f q h | None => Ok h end.

Definition is_null (p : ptr) : bool := match p with None => true | Some _ => false end.

Definition lws_dll2_is_detached (n : lws_dll2) : bool := is_null (owner n).

Definition lws_dll2_get_head (o : loc) (h : heap) : res fault ptr :=
  w ← own h o; Ok (head w).

(** ** Operations *)

Definition lws_dll2_add_head (d o : loc) (h : heap) : res fault heap :=
  n ← node h d;
  if negb (lws_dll2_is_detached n) then Err assert_failed
  else
    w ← own h o;
    h ← (if bool_decide (head w = Some d) then Ok h else upd_node d (set_next (head w)) h);
    n ← node h d;
    h ← if_ptr (next n) (fun q => upd_node q (set_prev (Some d))) h;
    h ← upd_node d (set_prev None) h;
    h ← upd_own o (set_head (Some d)) h;
    w ← own h o;
    h ← (if is_null (tail w) then upd_own o (set_tail (Some d)) h else Ok h);
    h ← upd_node d (set_owner (Some o)) h;
    upd_own o (set_count (Z.add 1)) h.

Definition lws_dll2_add_before (d after : loc) (h : heap) : res fault heap :=
  a ← node h after;
  n ← node h d;
  if negb (lws_dll2_is_detached n) then Err assert_failed
  else
    match owner a with
    | None => Err assert_failed
    | Some o =>
      h ← upd_node d (set_owner (Some o)) h;
      h ← upd_node d (set_next (Some after)) h;
      a ← node h after;
      h ← upd_node d (set_prev (prev a)) h;
      a ← node h after;
      h ← (match prev a with
           | Some q => upd_node q (set_next (Some d)) h
           | None => upd_own o (set_head (Some d)) h
           end);
      h ← upd_node after (set_prev (Some d)) h;
      upd_own o (set_count (Z.add 1)) h
    end.

Definition lws_dll2_add_tail (d o : loc) (h : heap) : res fault heap :=
  n ← node h d;
  if negb (lws_dll2_is_detached n) then Err assert_failed
  else
    w ← own h o;
    h ← upd_node d (set_prev (tail w)) h;
    n ← node h d;
    h ← if_ptr (prev n) (fun q => upd_node q (set_next (Some d))) h;
    h ← upd_node d (set_next None) h;
    h ← upd_own o (set_tail (Some d)) h;
    w ← own h o;
    h ← (if is_null (head w) then upd_own o (set_head (Some d)) h else Ok h);
    h ← upd_node d (set_owner (Some o)) h;
    upd_own o (set_count (Z.add 1)) h.

Definition lws_dll2_clear (d : loc) (h : heap) : res fault heap :=
  h ← upd_node d (set_owner None) h;
  h ← upd_node d (set_prev None) h;
  upd_node d (set_next None) h.

Definition lws_dll2_remove (d : loc) (h : heap) : res fault heap :=
  n ← node h d;
  match owner n with
  | None => Ok h
  | Some o =>
    h ← if_ptr (next n) (fun q => upd_node q (set_prev (prev n))) h;
    n ← node h d;
    h ← if_ptr (prev n) (fun q => upd_node q (set_next (next n))) h;
    n ← node h d;
    w ← own h o;
    h ← (if bool_decide (tail w = Some d) then upd_own o (set_tail (prev n)) h else Ok h);
    w ← own h o;
    h ← (if bool_decide (head w = Some d) then upd_own o (set_head (next n)) h else Ok h);
    h ← upd_own o (set_count (fun c => c - 1)) h;
    lws_dll2_clear d h
  end.

Definition lws_dll2_owner_clear (o : loc) (h : heap) : res fault heap :=
  h ← upd_own o (set_head None) h;
  h ← upd_own o (set_tail None) h;
  upd_own o (set_count (fun _ => 0)) h.

(** The walk of [lws_start_foreach_dll_safe] with a body that says whether to
    leave the loop: [next] is read before the body runs.  The state beside the
    heap is the caller's. *)
Fixpoint foreach_safe {S R : Type} (getheap : S -> heap) (body : loc -> S -> res fault (option R * S))
    (fuel : nat) (it : ptr) (s : S) : res fault (option R * S) :=
  match it, fuel with
  | None, _ => Ok (None, s)
  | Some _, O => Err out_of_fuel
  | Some p, Datatypes.S fuel =>
    n ← node (getheap s) p;
    r ← body p s;
    match r with
    | (Some x, s) => Ok (Some x, s)
    | (None, s) => foreach_safe getheap body fuel (next n) s
    end
  end.

Definition lws_dll2_foreach_safe {U} (fuel : nat) (o : loc)
    (cb : loc -> heap * U -> res fault (Z * (heap * U))) (s : heap * U) : res fault (Z * (heap * U)) :=
  it ← lws_dll2_get_head o (s.1);
  r ← foreach_safe fst (fun p s => '(z, s) ← cb p s; Ok (if nz z then Some tt else None, s)) fuel it s;
  Ok (match r.1 with Some _ => 1 | None => 0 end, r.2).

Definition lws_dll2_add_sorted (compare : loc -> loc -> Z) (fuel : nat) (d o : loc) (h : heap)
  : res fault heap :=
  it ← lws_dll2_get_head o h;
  r ← foreach_safe id (fun p h =>
        if bool_decide (p = d) then Err assert_failed
        else if 0 <=? compare p d then
          h ← lws_dll2_add_before d p h; Ok (Some tt, h)
        else Ok (None, h)) fuel it h;
  match r.1 with
  | Some _ => Ok r.2
  | None => lws_dll2_add_tail d o r.2
  end.

(** ** What a heap represents *)

(** The nodes of [l] linked in order between [p] and [q], all owned by [o]. *)
Fixpoint seg (ns : gmap loc lws_dll2) (o : loc) (p : ptr) (l : list loc) (q : ptr) : Prop :=
  match l with
  | [] => True
  | d :: l' =>
    ns !! d = Some (mk_node p (match l' with [] => q | e :: _ => Some e end) (Some o)) /\
    seg ns o (Some d) l' q
  end.

Definition dll (h : heap) (o : loc) (l : list loc) : Prop :=
  NoDup l /\
  owners h !! o = Some (mk_owner (last l) (list.head l) (u32 (Z.of_nat (length l)))) /\
  seg (nodes h) o None l None.

(** The lists of the heap: every list is well linked, and a node that has an
    owner is on the owner's list. *)
Definition rep (h : heap) (m : gmap loc (list loc)) : Prop :=
  (forall o l, m !! o = Some l -> dll h o l) /\
  (forall d n o, nodes h !! d = Some n -> owner n = Some o -> exists l, m !! o = Some l /\ d ∈ l).

(** The list that [lws_dll2_add_sorted] makes. *)
Fixpoint insert_sorted (compare : loc -> loc -> Z) (d : loc) (l : list loc) : list loc :=
  match l with
  | [] => [d]
  | p :: l' => if 0 <=? compare p d then d :: l else p :: insert_sorted compare d l'
  end.

(** ** Segments *)

Definition or_ptr (p q : ptr) : ptr := match p with Some _ => p | None => q end.

Lemma seg_app ns o p l1 l2 q :
  seg ns o p (l1 ++ l2) q <->
  seg ns o p l1 (or_ptr (list.head l2) q) /\ seg ns o (or_ptr (last l1) p) l2 q.
Proof.
  revert p. induction l1 as [|d l1 IH]; intros p; simpl; [tauto|].
  rewrite IH. destruct l1 as [|e l1].
  - destruct l2; simpl; tauto.
  - rewrite last_cons_cons. destruct (last (e :: l1)) eqn:El; simpl; [tauto|].
    by apply last_None in El.
Qed.

Lemma seg_frame ns ns' o p l q :
  (forall x, x ∈ l -> ns' !! x = ns !! x) -> seg ns o p l q -> seg ns' o p l q.
Proof.
  revert p. induction l as [|d l IH]; intros p Hf; [done|]. simpl. intros [Hd Hl]. split.
  - rewrite Hf; [done|left].
  - apply IH; [|done]. intros x Hx. apply Hf. by right.
Qed.

Lemma seg_lookup ns o p l q d :
  seg ns o p l q -> d ∈ l -> exists n, ns !! d = Some n /\ owner n = Some o.
Proof.
  revert p. induction l as [|e l IH]; intros p; simpl; [by intros _ ?%elem_of_nil|].
  intros [He Hl] [->|Hd]%elem_of_cons; eauto.
Qed.

Lemma dll_lookup h o l d :
  dll h o l -> d ∈ l -> exists n, nodes h !! d = Some n /\ owner n = Some o.
Proof. intros (_ & _ & Hs). by eapply seg_lookup. Qed.

Lemma rep_detached h m d n o l :
  rep h m -> nodes h !! d = Some n -> owner n = None -> m !! o = Some l -> d ∉ l.
Proof.
  intros [Hm _] Hd Hn Ho Hin. destruct (dll_lookup _ _ _ _ (Hm _ _ Ho) Hin) as (n' & ? & ?). congruence.
Qed.

Lemma rep_disjoint h m o o' l l' d :
  rep h m -> m !! o = Some l -> m !! o' = Some l' -> d ∈ l -> d ∈ l' -> o = o'.
Proof.
  intros [Hm _] Ho Ho' Hd Hd'.
  destruct (dll_lookup _ _ _ _ (Hm _ _ Ho) Hd) as (n & ? & ?).
  destruct (dll_lookup _ _ _ _ (Hm _ _ Ho') Hd') as (n' & ? & ?). congruence.
Qed.

(** A change of one owner's list and its nodes leaves the other lists alone. *)
Lemma rep_update h m o l h' l' :
  rep h m -> m !! o = Some l -> dll h' o l' ->
  (forall o', o' <> o -> owners h' !! o' = owners h !! o') ->
  (forall x, x ∉ l -> x ∉ l' -> nodes h' !! x = nodes h !! x) ->
  (forall x, x ∈ l' -> x ∈ l \/ exists n, nodes h !! x = Some n /\ owner n = None) ->
  (forall x n, x ∈ l -> x ∉ l' -> nodes h' !! x = Some n -> owner n = None) ->
  rep h' (<[o := l']> m).
Proof.
  intros Hrep Ho Hdll How Hns Hnew Hgone. pose proof Hrep as [Hm Hb]. split.
  - intros o' k. destruct (decide (o' = o)) as [->|Hne].
    + rewrite lookup_insert_eq. by intros [= <-].
    + rewrite lookup_insert_ne by done. intros Hk. destruct (Hm _ _ Hk) as (Hnd & Hw & Hs).
      split_and!; [done|by rewrite How|]. eapply seg_frame; [|done]. intros x Hx.
      apply Hns; intros Hin.
      * apply Hne. symmetry. by eapply rep_disjoint.
      * destruct (Hnew x Hin) as [?|(n & Hn & Hno)].
        -- apply Hne. symmetry. by eapply rep_disjoint.
        -- by eapply rep_detached.
  - intros d n o' Hd Hno. destruct (decide (d ∈ l')) as [Hin|Hin].
    { destruct (dll_lookup _ _ _ _ Hdll Hin) as (n' & Hd' & Hno'). assert (n' = n) as -> by congruence.
      assert (o' = o) as -> by congruence. exists l'. by rewrite lookup_insert_eq. }
    destruct (decide (d ∈ l)) as [Hl|Hl]; [by rewrite (Hgone _ _ Hl Hin Hd) in Hno|].
    rewrite Hns in Hd by done. destruct (Hb _ _ _ Hd Hno) as (k & Hk & Hdk). exists k.
    split; [|done]. rewrite lookup_insert_ne; [done|]. intros ->. congruence.
Qed.

(** ** Symbolic execution of loads and stores *)

Lemma node_ok h d n : nodes h !! d = Some n -> node h d = Ok n.
Proof. unfold node. by intros ->. Qed.

Lemma own_ok h o w : owners h !! o = Some w -> own h o = Ok w.
Proof. unfold own. by intros ->. Qed.

Lemma upd_node_ok h d n f :
  nodes h !! d = Some n -> upd_node d f h = Ok (mk_heap (<[d := f n]> (nodes h)) (owners h)).
Proof. intros H. unfold upd_node. by rewrite (node_ok _ _ _ H). Qed.

Lemma upd_own_ok h o w f :
  owners h !! o = Some w -> upd_own o f h = Ok (mk_heap (nodes h) (<[o := f w]> (owners h))).
Proof. intros H. unfold upd_own. by rewrite (own_ok _ _ _ H). Qed.

(** Looks a key up in a map built by insertions. *)
Ltac lookup_tac :=
  repeat first
    [ rewrite lookup_insert_eq
    | rewrite lookup_insert_ne by (done || congruence) ];
  first [ eassumption | reflexivity ].

(** One load or store at the head of a computation. *)
Ltac dhead m :=
  lazymatch m with
  | mbind _ ?m' => dhead m'
  | node _ _ => erewrite node_ok by (cbn [nodes owners]; lookup_tac)
  | own _ _ => erewrite own_ok by (cbn [nodes owners]; lookup_tac)
  | upd_node _ _ _ => erewrite upd_node_ok by (cbn [nodes owners]; lookup_tac)
  | upd_own _ _ _ => erewrite upd_own_ok by (cbn [nodes owners]; lookup_tac)
  | context [bool_decide ?P] =>
    first [ rewrite (bool_decide_eq_true_2 P) by congruence
          | rewrite (bool_decide_eq_false_2 P) by congruence ]
  end;
  cbn [mbind res_bind if_ptr prev next owner tail head count is_null lws_dll2_is_detached negb
       set_prev set_next set_owner set_tail set_head set_count nodes owners].

Ltac drun := repeat lazymatch goal with |- ?m = _ => dhead m end; reflexivity.

Ltac dcbn := unfold set_prev, set_next, set_owner, set_tail, set_head, set_count;
  cbn [prev next owner tail head count nodes owners].

Lemma head_app {A} (l k : list A) :
  list.head (l ++ k) = match list.head l with Some x => Some x | None => list.head k end.
Proof. by destruct l. Qed.

Lemma u32_succ n : u32 (1 + u32 (Z.of_nat n)) = u32 (Z.of_nat (S n)).
Proof. unfold u32. rewrite Z.add_mod_idemp_r by lia. f_equal. lia. Qed.

Lemma u32_pred n : u32 (u32 (Z.of_nat (S n)) - 1) = u32 (Z.of_nat n).
Proof. unfold u32. rewrite Zminus_mod_idemp_l. f_equal. lia. Qed.

(** A node of a segment in the middle. *)
Lemma seg_mid ns o p l1 d l2 q :
  seg ns o p (l1 ++ d :: l2) q <->
  seg ns o p l1 (Some d) /\
  ns !! d = Some (mk_node (or_ptr (last l1) p) (or_ptr (list.head l2) q) (Some o)) /\
  seg ns o (Some d) l2 q.
Proof. rewrite seg_app. simpl. destruct l2; simpl; tauto. Qed.

(** Changing the last link of a segment, or the back link of its first node. *)
Lemma seg_relink_last ns o p l t q :
  seg ns o p (l ++ [t]) q -> NoDup (l ++ [t]) -> forall q',
  seg (<[t := mk_node (or_ptr (last l) p) q' (Some o)]> ns) o p (l ++ [t]) q'.
Proof.
  intros (H1 & H2 & _)%seg_mid Hnd q'. apply NoDup_app in Hnd as (_ & Hnd & _). apply seg_mid. split_and!.
  - eapply seg_frame; [|done]. intros x Hx. rewrite lookup_insert_ne; [done|].
    intros ->. apply (Hnd x Hx). by apply list_elem_of_singleton.
  - by rewrite lookup_insert_eq.
  - done.
Qed.

Lemma seg_relink_first ns o p t l q :
  seg ns o p (t :: l) q -> NoDup (t :: l) -> forall p',
  seg (<[t := mk_node p' (or_ptr (list.head l) q) (Some o)]> ns) o p' (t :: l) q.
Proof.
  intros [H1 H2] [Hnd _]%NoDup_cons p'. split.
  - rewrite lookup_insert_eq. by destruct l.
  - eapply seg_frame; [|done]. intros x Hx. rewrite lookup_insert_ne; [done|]. by intros ->.
Qed.

Lemma seg_insert ns o p l q d n :
  d ∉ l -> seg ns o p l q -> seg (<[d := n]> ns) o p l q.
Proof. intros Hd. apply seg_frame. intros x Hx. rewrite lookup_insert_ne; [done|]. by intros ->. Qed.

Lemma add_tail_dll h o l d n :
  dll h o l -> nodes h !! d = Some n -> owner n = None -> d ∉ l ->
  exists h', lws_dll2_add_tail d o h = Ok h' /\ dll h' o (l ++ [d]) /\
    (forall o', o' <> o -> owners h' !! o' = owners h !! o') /\
    (forall x, x ∉ (l ++ [d]) -> nodes h' !! x = nodes h !! x).
Proof.
  intros (Hnd & Hw & Hs) Hd Hno Hin. destruct n as [np nn no]. simpl in Hno. subst no.
  assert (NoDup (l ++ [d])) as Hnd'.
  { apply NoDup_app. split_and!; [done| |apply NoDup_singleton]. by intros x Hx ->%list_elem_of_singleton. }
  destruct l as [|t l _] using rev_ind; unfold lws_dll2_add_tail.
  - simpl in Hw, Hs. eexists. split; [drun|]. split_and!; dcbn.
    + split_and!; [done|dcbn; by rewrite lookup_insert_eq|]. simpl. by rewrite lookup_insert_eq.
    + intros o' Ho'. by rewrite !lookup_insert_ne.
    + intros x Hx. by rewrite !lookup_insert_ne by set_solver.
  - rewrite last_snoc in Hw. pose proof Hs as (_ & Ht & _)%seg_mid.
    assert (d <> t) by set_solver.
    assert (exists c, list.head (l ++ [t]) = Some c) as [c Hc] by (destruct l; simpl; eauto).
    rewrite Hc in Hw. eexists. split; [drun|]. split_and!; dcbn.
    + split_and!; [done| |]; dcbn.
      * rewrite lookup_insert_eq. dcbn. rewrite last_snoc, u32_succ, (head_app (l ++ [t])), Hc, (length_app (l ++ [t])).
        do 3 f_equal. simpl. lia.
      * apply seg_app. split.
        -- apply seg_insert, seg_insert; [done..|].
           eapply seg_relink_last; [by apply seg_insert|by apply NoDup_app in Hnd' as (? & _)].
        -- rewrite last_snoc. simpl. by rewrite lookup_insert_eq.
    + intros o' Ho'. by rewrite !lookup_insert_ne.
    + intros x Hx. by rewrite !lookup_insert_ne by set_solver.
Qed.

Lemma add_head_dll h o l d n :
  dll h o l -> nodes h !! d = Some n -> owner n = None -> d ∉ l ->
  exists h', lws_dll2_add_head d o h = Ok h' /\ dll h' o (d :: l) /\
    (forall o', o' <> o -> owners h' !! o' = owners h !! o') /\
    (forall x, x ∉ d :: l -> nodes h' !! x = nodes h !! x).
Proof.
  intros (Hnd & Hw & Hs) Hd Hno Hin. destruct n as [np nn no]. simpl in Hno. subst no.
  assert (NoDup (d :: l)) as Hnd' by by constructor.
  destruct l as [|c l]; unfold lws_dll2_add_head.
  - simpl in Hw, Hs. eexists. split; [drun|]. split_and!; dcbn.
    + split_and!; [done|dcbn; by rewrite lookup_insert_eq|]. simpl. by rewrite lookup_insert_eq.
    + intros o' Ho'. by rewrite !lookup_insert_ne.
    + intros x Hx. by rewrite !lookup_insert_ne by set_solver.
  - pose proof Hs as [Hc _]. assert (d <> c) by set_solver.
    assert (exists t, last (c :: l) = Some t) as [t Ht].
    { destruct (last (c :: l)) eqn:E; [eauto|]. by apply last_None in E. }
    simpl list.head in Hw. rewrite Ht in Hw. eexists. split; [drun|]. split_and!; dcbn.
    + split_and!; [done| |]; dcbn.
      * rewrite lookup_insert_eq, u32_succ, last_cons_cons, Ht. done.
      * split; [by rewrite lookup_insert_eq|]. apply seg_insert, seg_insert; [done..|].
        replace (match l with [] => None | e :: _ => Some e end) with (or_ptr (list.head l) None)
          by by destruct l.
        eapply seg_relink_first; [by apply seg_insert|done].
    + intros o' Ho'. by rewrite !lookup_insert_ne.
    + intros x Hx. by rewrite !lookup_insert_ne by set_solver.
Qed.

Lemma add_before_dll h o l1 a l2 d n :
  dll h o (l1 ++ a :: l2) -> nodes h !! d = Some n -> owner n = None -> d ∉ (l1 ++ a :: l2) ->
  exists h', lws_dll2_add_before d a h = Ok h' /\ dll h' o (l1 ++ d :: a :: l2) /\
    (forall o', o' <> o -> owners h' !! o' = owners h !! o') /\
    (forall x, x ∉ (l1 ++ d :: a :: l2) -> nodes h' !! x = nodes h !! x).
Proof.
  intros (Hnd & Hw & Hs) Hd Hno Hin. destruct n as [np nn no]. simpl in Hno. subst no.
  assert (NoDup (l1 ++ d :: a :: l2)) as Hnd'.
  { rewrite <- Permutation_middle. by constructor. }
  assert (d <> a) by set_solver. assert (d ∉ l2) by set_solver.
  pose proof Hs as (Hs1 & Ha & Hs2)%seg_mid.
  assert (a ∉ l1 /\ a ∉ l2 /\ NoDup (a :: l2)) as (Hal1 & Hal2 & Hnda).
  { apply NoDup_app in Hnd as (_ & H1 & H2). split_and!; [|by apply NoDup_cons in H2 as [? _]|done].
    intros Hl. apply (H1 a Hl). left. }
  destruct l1 as [|q l1 _] using rev_ind; unfold lws_dll2_add_before.
  - simpl in Hw, Ha. eexists. split; [drun|]. split_and!; dcbn.
    + split_and!; [done| |]; dcbn.
      * by rewrite lookup_insert_eq, u32_succ, <- (last_cons_cons d a l2).
      * simpl. split; [lookup_tac|]. split; [rewrite lookup_insert_eq; by destruct l2|].
        by repeat (apply seg_insert; [done|]).
    + intros o' Ho'. by rewrite !lookup_insert_ne.
    + intros x Hx. by rewrite !lookup_insert_ne by set_solver.
  - rewrite last_snoc in Ha. cbn [or_ptr] in Ha. assert (d <> q) by set_solver.
    assert (a <> q) by set_solver. pose proof Hs1 as (_ & Hq & _)%seg_mid.
    assert (d ∉ (l1 ++ [q])) by (clear -Hin; set_solver).
    assert (q ∉ l2).
    { apply NoDup_app in Hnd as (_ & Hq' & _). intros ?. apply (Hq' q); clear Hq'; set_solver. }
    eexists. split; [drun|]. split_and!; dcbn.
    + split_and!; [done| |]; dcbn.
      * rewrite lookup_insert_eq, u32_succ, !last_app, !head_app.
        destruct (list.head l1); simpl; rewrite !length_app; simpl; do 2 f_equal.
        1, 2: f_equal; lia.
      * apply seg_mid. split_and!.
        -- apply seg_insert; [done|]. eapply seg_relink_last; [|by apply NoDup_app in Hnd as (? & _)].
           by repeat (apply seg_insert; [done|]).
        -- rewrite last_snoc. lookup_tac.
        -- split; [rewrite lookup_insert_eq; by destruct l2|].
           by repeat (apply seg_insert; [done|]).
    + intros o' Ho'. by rewrite !lookup_insert_ne.
    + intros x Hx. by rewrite !lookup_insert_ne by set_solver.
Qed.

(** Unlinking a node from the map of nodes. *)
Definition unlink (d : loc) (p q : ptr) (ns : gmap loc lws_dll2) : gmap loc lws_dll2 :=
  let ns := match q with
            | Some y => alter (set_prev p) y ns | None => ns end in
  let ns := match p with
            | Some x => alter (set_next q) x ns | None => ns end in
  <[d := mk_node None None None]> ns.

Lemma unlink_ne d p q ns x :
  x <> d -> p <> Some x -> q <> Some x -> unlink d p q ns !! x = ns !! x.
Proof.
  intros Hd Hp Hq. unfold unlink. rewrite lookup_insert_ne by done.
  destruct p as [p|], q as [q|]; rewrite ?lookup_alter_ne by congruence; done.
Qed.

Lemma seg_unlink ns o l1 d l2 :
  NoDup (l1 ++ d :: l2) -> seg ns o None (l1 ++ d :: l2) None ->
  seg (unlink d (last l1) (list.head l2) ns) o None (l1 ++ l2) None.
Proof.
  intros Hnd (Hs1 & Hd & Hs2)%seg_mid. apply NoDup_app in Hnd as (Hn1 & Hn12 & [Hdl2 Hn2]%NoDup_cons).
  assert (d ∉ l1) as Hdl1 by (intros Hl; apply (Hn12 d Hl); left).
  assert (forall x, x ∈ l1 -> x ∉ l2) as Hx by (intros x H1 H2; apply (Hn12 x H1); by right).
  clear Hn12. apply seg_app. split.
  - destruct l1 as [|x l1 _] using rev_ind; [done|]. rewrite last_snoc.
    apply seg_mid in Hs1 as (Hs1 & Hxn & _). apply NoDup_app in Hn1 as (Hn1 & Hn1' & _).
    apply seg_mid. split_and!; [|unfold unlink|done].
    + eapply seg_frame; [|done]. intros z Hz. apply unlink_ne.
      * intros ->. apply Hdl1. set_solver.
      * intros [= ->]. apply (Hn1' z Hz). by left.
      * intros Hh. apply (Hx z); [set_solver|]. by apply head_Some_elem_of in Hh.
    + rewrite lookup_insert_ne by (intros ->; set_solver). rewrite lookup_alter_eq.
      assert (match list.head l2 with Some y => alter (set_prev (Some x)) y ns | None => ns end !! x = ns !! x) as ->.
      { destruct (list.head l2) as [y|] eqn:Ey; [|done]. rewrite lookup_alter_ne; [done|].
        intros ->. apply (Hx x); [set_solver|]. by apply head_Some_elem_of in Ey. }
      rewrite Hxn. simpl. unfold set_next. simpl. by destruct (list.head l2).
  - destruct l2 as [|y l2]; [done|]. simpl list.head. destruct Hs2 as [Hy Hs2].
    apply NoDup_cons in Hn2 as [Hyl2 Hn2]. split.
    + unfold unlink. rewrite lookup_insert_ne by (intros ->; set_solver).
      assert (forall m, match last l1 with Some x => alter (set_next (Some y)) x m | None => m end !! y = m !! y) as ->.
      { intros m. destruct (last l1) as [x|] eqn:Ex; [|done]. rewrite lookup_alter_ne; [done|].
        intros ->. apply (Hx y); [|left]. by apply last_Some_elem_of in Ex. }
      rewrite lookup_alter_eq, Hy. simpl. unfold set_prev, or_ptr. simpl. by destruct (last l1).
    + eapply seg_frame; [|done]. intros z Hz. apply unlink_ne.
      * intros ->. set_solver.
      * intros Hl. apply (Hx z); [|by right]. by apply last_Some_elem_of in Hl.
      * congruence.
Qed.

Lemma alter_insert_eq (f : lws_dll2 -> lws_dll2) x n (ns : gmap loc lws_dll2) :
  ns !! x = Some n -> alter f x ns = <[x := f n]> ns.
Proof.
  intros Hx. apply map_eq. intros y. destruct (decide (y = x)) as [->|].
  - by rewrite lookup_alter_eq, lookup_insert_eq, Hx.
  - by rewrite lookup_alter_ne, lookup_insert_ne by done.
Qed.

Lemma remove_exec h d o p q t hd c :
  nodes h !! d = Some (mk_node p q (Some o)) -> owners h !! o = Some (mk_owner t hd c) ->
  (forall x, p = Some x -> is_Some (nodes h !! x)) -> (forall y, q = Some y -> is_Some (nodes h !! y)) ->
  p <> Some d -> q <> Some d -> (p = q -> p = None) ->
  lws_dll2_remove d h = Ok (mk_heap (unlink d p q (nodes h))
    (<[o := mk_owner (if bool_decide (t = Some d) then p else t)
                     (if bool_decide (hd = Some d) then q else hd) (u32 (c - 1))]> (owners h))).
Proof.
  intros Hd Ho Hp Hq Hpd Hqd Hpq. unfold lws_dll2_remove, lws_dll2_clear, unlink.
  assert (forall x, p = Some x -> d <> x) by congruence.
  assert (forall y, q = Some y -> d <> y) by congruence.
  assert (forall x y, p = Some x -> q = Some y -> x <> y) as Hxy.
  { intros x y -> -> ->. by specialize (Hpq eq_refl). }
  destruct p as [x|]; [destruct (Hp x eq_refl) as [nx Hx]; assert (d <> x) by eauto|];
  (destruct q as [y|]; [destruct (Hq y eq_refl) as [ny Hy]; assert (d <> y) by eauto|]).
  1: assert (x <> y) by eauto.
  1, 3: rewrite (alter_insert_eq _ y ny) by done.
  1: rewrite (alter_insert_eq _ x nx) by (by rewrite lookup_insert_ne).
  3: rewrite (alter_insert_eq _ x nx) by done.
  all: destruct (bool_decide (t = Some d)) eqn:Et, (bool_decide (hd = Some d)) eqn:Eh;
    (apply bool_decide_eq_true in Et || apply bool_decide_eq_false in Et);
    (apply bool_decide_eq_true in Eh || apply bool_decide_eq_false in Eh);
    (etransitivity; [drun|]); dcbn; by rewrite !insert_insert_eq.
Qed.

Lemma remove_dll h o l1 d l2 :
  dll h o (l1 ++ d :: l2) ->
  exists h', lws_dll2_remove d h = Ok h' /\ dll h' o (l1 ++ l2) /\
    (forall o', o' <> o -> owners h' !! o' = owners h !! o') /\
    nodes h' !! d = Some (mk_node None None None) /\
    (forall x, x ∉ (l1 ++ d :: l2) -> nodes h' !! x = nodes h !! x).
Proof.
  intros (Hnd & Hw & Hs). pose proof Hnd as (Hn1 & Hn12 & [Hdl2 Hn2]%NoDup_cons)%NoDup_app.
  assert (d ∉ l1) as Hdl1 by (intros Hl; apply (Hn12 d Hl); left).
  pose proof Hs as (Hs1 & Hd & Hs2)%seg_mid.
  assert (or_ptr (last l1) None = last l1) as Hp by by destruct (last l1).
  assert (or_ptr (list.head l2) None = list.head l2) as Hq by by destruct (list.head l2).
  rewrite Hp, Hq in Hd.
  assert (forall x, last l1 = Some x -> x ∈ l1) as Hl by (intros x; apply last_Some_elem_of).
  assert (forall x, list.head l2 = Some x -> x ∈ l2) as Hh by (intros x; apply head_Some_elem_of).
  eexists. split; [eapply remove_exec; [exact Hd|exact Hw|..]|]; [| | | | |split_and!].
  - intros x Hx%Hl. destruct (seg_lookup _ _ _ _ _ _ Hs1 Hx) as (? & ? & _). eauto.
  - intros x Hx%Hh. destruct (seg_lookup _ _ _ _ _ _ Hs2 Hx) as (? & ? & _). eauto.
  - intros Hx%Hl. done.
  - intros Hx%Hh. done.
  - intros E. destruct (last l1) as [x|] eqn:Ex; [|done]. exfalso. apply (Hn12 x); [by apply Hl|].
    right. apply Hh. done.
  - split_and!.
    + apply NoDup_app. split_and!; [done| |done]. intros x Hx Hx'. apply (Hn12 x Hx). by right.
    + dcbn. rewrite lookup_insert_eq. rewrite !length_app. simpl. rewrite Nat.add_succ_r, u32_pred.
      do 2 f_equal.
      * rewrite !last_app. destruct l2 as [|e l2].
        { cbn. rewrite bool_decide_eq_true_2 by done. by destruct (last l1). }
        rewrite last_cons_cons. destruct (last (e :: l2)) as [t|] eqn:E; [|by apply last_None in E].
        rewrite bool_decide_eq_false_2; [done|]. intros [= ->]. by apply last_Some_elem_of in E.
      * rewrite !head_app. destruct (list.head l1) as [e|] eqn:E; simpl.
        { rewrite bool_decide_eq_false_2; [done|]. intros [= ->]. by apply head_Some_elem_of in E. }
        by rewrite bool_decide_eq_true_2.
    + by apply seg_unlink.
  - intros o' Ho'. dcbn. by rewrite lookup_insert_ne.
  - dcbn. unfold unlink. by rewrite lookup_insert_eq.
  - intros x Hx. dcbn. apply unlink_ne; [set_solver| |].
    + intros E%Hl. set_solver.
    + intros E%Hh. set_solver.
Qed.

(** ** Sorted insertion *)

Lemma insert_sorted_app cmp d l1 l2 :
  Forall (fun x => cmp x d < 0) l1 -> insert_sorted cmp d (l1 ++ l2) = l1 ++ insert_sorted cmp d l2.
Proof.
  induction 1 as [|x l1 Hx _ IH]; [done|]. simpl.
  destruct (Z.leb_spec 0 (cmp x d)); [lia|]. by rewrite IH.
Qed.

Lemma insert_sorted_perm cmp d l : insert_sorted cmp d l ≡ₚ d :: l.
Proof.
  induction l as [|x l IH]; [done|]. simpl. destruct (0 <=? cmp x d); [done|].
  rewrite IH. apply Permutation_swap.
Qed.

Lemma elem_of_insert_sorted cmp d l x : x ∈ insert_sorted cmp d l <-> x = d \/ x ∈ l.
Proof. by rewrite insert_sorted_perm, elem_of_cons. Qed.

Lemma add_sorted_dll cmp h o l d n fuel :
  dll h o l -> nodes h !! d = Some n -> owner n = None -> d ∉ l -> (length l <= fuel)%nat ->
  exists h', lws_dll2_add_sorted cmp fuel d o h = Ok h' /\ dll h' o (insert_sorted cmp d l) /\
    (forall o', o' <> o -> owners h' !! o' = owners h !! o') /\
    (forall x, x ∉ insert_sorted cmp d l -> nodes h' !! x = nodes h !! x).
Proof.
  intros Hdll Hd Hno Hin Hf. unfold lws_dll2_add_sorted, lws_dll2_get_head.
  pose proof Hdll as (_ & Hw & Hs). rewrite (own_ok _ _ _ Hw). cbn [mbind res_bind head].
  cut (forall l2 l1 fuel, l = l1 ++ l2 -> Forall (fun x => cmp x d < 0) l1 -> (length l2 <= fuel)%nat ->
    exists r, foreach_safe id (fun p h =>
        if bool_decide (p = d) then Err assert_failed
        else if 0 <=? cmp p d then h ← lws_dll2_add_before d p h; Ok (Some tt, h)
        else Ok (None, h)) fuel (list.head l2) h = Ok r /\
      exists h', match r.1 with Some _ => Ok r.2 | None => lws_dll2_add_tail d o r.2 end = Ok h' /\
      dll h' o (insert_sorted cmp d l) /\
      (forall o', o' <> o -> owners h' !! o' = owners h !! o') /\
      (forall x, x ∉ insert_sorted cmp d l -> nodes h' !! x = nodes h !! x)).
  { intros Hc. destruct (Hc l [] fuel eq_refl ltac:(constructor) Hf) as (r & -> & Hr). exact Hr. }
  clear Hf fuel. induction l2 as [|x l2 IH]; intros l1 fuel -> Hl1 Hf.
  - exists (None, h). split; [by destruct fuel|]. rewrite insert_sorted_app by done. simpl.
    rewrite app_nil_r in *. by eapply add_tail_dll.
  - destruct fuel as [|fuel]; [simpl in Hf; lia|]. simpl. apply seg_mid in Hs as (_ & Hx & _).
    unfold id at 1. rewrite (node_ok _ _ _ Hx). cbn [mbind res_bind next].
    rewrite bool_decide_eq_false_2 by set_solver. rewrite insert_sorted_app by done. simpl.
    destruct (Z.leb_spec 0 (cmp x d)) as [Hc|Hc].
    + destruct (add_before_dll _ _ _ _ _ _ _ Hdll Hd Hno Hin) as (h' & Hr & Hres).
      rewrite Hr. cbn [mbind res_bind]. exists (Some tt, h'). split; [done|]. exists h'. done.
    + cbn [mbind res_bind]. assert (l1 ++ x :: l2 = (l1 ++ [x]) ++ l2) as El by by rewrite <- app_assoc.
      destruct (IH (l1 ++ [x]) fuel) as (r & Hr & Hres); [done| |simpl in Hf; lia|].
      { apply Forall_app. split; [done|]. by constructor. }
      replace (or_ptr (list.head l2) None) with (list.head l2) by by destruct l2.
      exists r. split; [done|]. rewrite El, insert_sorted_app, <- app_assoc in Hres by
        (apply Forall_app; split; [done|by constructor]). exact Hres.
Qed.

(** A compare function that orders by a key makes the result sorted. *)
Lemma insert_sorted_sorted (key : loc -> Z) cmp d l :
  (forall a b, cmp a b < 0 <-> key a < key b) ->
  Sorted (fun a b => key a <= key b) l -> Sorted (fun a b => key a <= key b) (insert_sorted cmp d l).
Proof.
  intros Hc Hs. induction Hs as [|x l Hl IH Hx]; [by repeat constructor|]. simpl.
  destruct (Z.leb_spec 0 (cmp x d)) as [Hle|Hlt].
  - constructor; [by constructor|]. constructor. specialize (Hc x d). lia.
  - constructor; [done|]. apply Hc in Hlt. destruct l as [|y l]; simpl; [constructor; lia|].
    destruct (0 <=? cmp y d); constructor; [lia|]. by inv Hx.
Qed.

(** ** The list operations and the refinement *)

(** An operation of a client, with the key that [compare] orders by. *)
Inductive op :=
| AddHead (d o : loc)
| AddTail (d o : loc)
| AddBefore (d after : loc)
| AddSorted (d o : loc)
| Remove (d : loc).

Section Refinement.
Context (cmp : loc -> loc -> Z).

Definition exec (fuel : nat) (a : op) (h : heap) : res fault heap :=
  match a with
  | AddHead d o => lws_dll2_add_head d o h
  | AddTail d o => lws_dll2_add_tail d o h
  | AddBefore d after => lws_dll2_add_before d after h
  | AddSorted d o => lws_dll2_add_sorted cmp fuel d o h
  | Remove d => lws_dll2_remove d h
  end.

Fixpoint exec_all (fuel : nat) (l : list op) (h : heap) : res fault heap :=
  match l with
  | [] => Ok h
  | a :: l => h ← exec fuel a h; exec_all fuel l h
  end.

Fixpoint insert_before (d after : loc) (l : list loc) : list loc :=
  match l with
  | [] => []
  | x :: l => if decide (x = after) then d :: x :: l else x :: insert_before d after l
  end.

(** [d] is on some list. *)
Definition attached (m : gmap loc (list loc)) (d : loc) : bool :=
  existsb (fun p : loc * list loc => bool_decide (d ∈ p.2)) (map_to_list m).

(** The lists after an operation; [None] where the client has no right to the
    operation: unknown node or owner, a node that is on a list already, a
    place that is on none. *)
Definition abs_op (N : gset loc) (a : op) (m : gmap loc (list loc)) : option (gmap loc (list loc)) :=
  match a with
  | AddHead d o =>
    l ← m !! o;
    if bool_decide (d ∈ N) && negb (attached m d) then Some (<[o := d :: l]> m) else None
  | AddTail d o =>
    l ← m !! o;
    if bool_decide (d ∈ N) && negb (attached m d) then Some (<[o := l ++ [d]]> m) else None
  | AddSorted d o =>
    l ← m !! o;
    if bool_decide (d ∈ N) && negb (attached m d) then Some (<[o := insert_sorted cmp d l]> m) else None
  | AddBefore d after =>
    if bool_decide (d ∈ N) && negb (attached m d) && attached m after
    then Some (insert_before d after <$> m) else None
  | Remove d => if bool_decide (d ∈ N) then Some (filter (fun x => x <> d) <$> m) else None
  end.

Fixpoint abs_all (N : gset loc) (l : list op) (m : gmap loc (list loc)) : option (gmap loc (list loc)) :=
  match l with
  | [] => Some m
  | a :: l => m ← abs_op N a m; abs_all N l m
  end.

Lemma attached_spec m d : attached m d = true <-> exists o l, m !! o = Some l /\ d ∈ l.
Proof using. clear cmp.
  unfold attached. rewrite existsb_exists. split.
  - intros ([o l] & Hin & Hd%bool_decide_eq_true). exists o, l. split; [|done].
    by apply elem_of_map_to_list, list_elem_of_In.
  - intros (o & l & Hm & Hd). exists (o, l). split; [|by apply bool_decide_eq_true].
    by apply list_elem_of_In, elem_of_map_to_list.
Qed.

Lemma detached_node h m d :
  rep h m -> d ∈ dom (nodes h) -> attached m d = false ->
  exists n, nodes h !! d = Some n /\ owner n = None /\ forall o l, m !! o = Some l -> d ∉ l.
Proof using. clear cmp.
  intros Hrep [n Hn]%elem_of_dom Ha. assert (forall o l, m !! o = Some l -> d ∉ l) as Hd.
  { intros o l Ho Hin. assert (attached m d = true); [|congruence]. apply attached_spec; eauto. }
  exists n. split_and!; [done| |done]. destruct (owner n) as [o|] eqn:Eo; [|done].
  destruct Hrep as [_ Hb]. destruct (Hb _ _ _ Hn Eo) as (l & Hl & Hin). by destruct (Hd _ _ Hl).
Qed.

(** A change of one list by a detached node, or the removal of a node. *)
Lemma local_rep h m o l h' l' :
  rep h m -> m !! o = Some l -> dll h' o l' ->
  (forall o', o' <> o -> owners h' !! o' = owners h !! o') ->
  (forall x, x ∉ l -> x ∉ l' -> nodes h' !! x = nodes h !! x) ->
  (forall x, x ∈ l' -> x ∈ l \/ exists n, nodes h !! x = Some n /\ owner n = None) ->
  (forall x, x ∈ l -> x ∉ l' -> nodes h' !! x = Some (mk_node None None None)) ->
  rep h' (<[o := l']> m) /\ dom (nodes h') = dom (nodes h).
Proof using. clear cmp.
  intros Hrep Ho Hdll How Hns Hnew Hgone. split.
  - apply (rep_update h m o l); try done. intros x n Hx Hx' Hn.
    rewrite (Hgone _ Hx Hx') in Hn. by injection Hn as <-.
  - apply set_eq. intros x. rewrite !elem_of_dom. destruct (decide (x ∈ l')) as [Hx|Hx].
    + destruct (dll_lookup _ _ _ _ Hdll Hx) as (n & -> & _). split; [intros _|by eexists].
      destruct (Hnew x Hx) as [Hl|(n' & -> & _)]; [|by eexists].
      destruct (dll_lookup h o l x (proj1 Hrep _ _ Ho) Hl) as (n' & -> & _). by eexists.
    + destruct (decide (x ∈ l)) as [Hl|Hl]; [|by rewrite Hns].
      rewrite Hgone by done. destruct (dll_lookup h o l x (proj1 Hrep _ _ Ho) Hl) as (n' & -> & _).
      split; by eexists.
Qed.

Lemma insert_before_notin d a l : a ∉ l -> insert_before d a l = l.
Proof using. clear cmp.
  induction l as [|x l IH]; [done|]. intros [Hx Hl]%not_elem_of_cons. simpl.
  rewrite decide_False by done. by rewrite IH.
Qed.

Lemma insert_before_mid d a l1 l2 : a ∉ l1 -> insert_before d a (l1 ++ a :: l2) = l1 ++ d :: a :: l2.
Proof using. clear cmp.
  induction l1 as [|x l1 IH]; simpl.
  - by rewrite decide_True.
  - intros [Hx Hl]%not_elem_of_cons. rewrite decide_False by done. by rewrite IH.
Qed.

Lemma filter_ne_notin (d : loc) (l : list loc) : d ∉ l -> filter (fun x => x <> d) l = l.
Proof using. clear cmp. intros Hd. apply filter_all, Forall_forall. intros x Hx ->. done. Qed.

(** A function that only changes the list of one owner. *)
Lemma fmap_one (f : list loc -> list loc) (m : gmap loc (list loc)) o l l' :
  m !! o = Some l -> f l = l' -> (forall o' k, o' <> o -> m !! o' = Some k -> f k = k) ->
  f <$> m = <[o := l']> m.
Proof using. clear cmp.
  intros Ho <- Hf. apply map_eq. intros o'. rewrite lookup_fmap. destruct (decide (o' = o)) as [->|Hne].
  - by rewrite Ho, lookup_insert_eq.
  - rewrite lookup_insert_ne by done. destruct (m !! o') as [k|] eqn:Ek; [|done]. simpl. by rewrite (Hf o').
Qed.

Lemma add_rep h m o l l' d n h' :
  rep h m -> m !! o = Some l -> nodes h !! d = Some n -> owner n = None ->
  (forall x, x ∈ l' <-> x = d \/ x ∈ l) ->
  dll h' o l' -> (forall o', o' <> o -> owners h' !! o' = owners h !! o') ->
  (forall x, x ∉ l' -> nodes h' !! x = nodes h !! x) ->
  rep h' (<[o := l']> m) /\ dom (nodes h') = dom (nodes h).
Proof using. clear cmp. intros Hrep Ho Hn Hno Hl Hdll How Hns. apply (local_rep h m o l); naive_solver. Qed.

Lemma exec_add_refines h m o l d fuel :
  rep h m -> m !! o = Some l -> d ∈ dom (nodes h) -> attached m d = false -> (length l <= fuel)%nat ->
  (exists h', lws_dll2_add_head d o h = Ok h' /\ rep h' (<[o := d :: l]> m) /\ dom (nodes h') = dom (nodes h)) /\
  (exists h', lws_dll2_add_tail d o h = Ok h' /\ rep h' (<[o := l ++ [d]]> m) /\ dom (nodes h') = dom (nodes h)) /\
  (exists h', lws_dll2_add_sorted cmp fuel d o h = Ok h' /\ rep h' (<[o := insert_sorted cmp d l]> m) /\
    dom (nodes h') = dom (nodes h)).
Proof.
  intros Hrep Ho Hd Hat Hfuel. destruct (detached_node _ _ _ Hrep Hd Hat) as (n & Hn & Hno & Hnin).
  specialize (Hnin _ _ Ho). pose proof (proj1 Hrep _ _ Ho) as Hdll. split_and!.
  - destruct (add_head_dll _ _ _ _ _ Hdll Hn Hno Hnin) as (h' & Hr & Hdll' & How & Hns).
    exists h'. split; [done|]. eapply (add_rep h m o l _ d n); try done. intros x. by rewrite elem_of_cons.
  - destruct (add_tail_dll _ _ _ _ _ Hdll Hn Hno Hnin) as (h' & Hr & Hdll' & How & Hns).
    exists h'. split; [done|]. eapply (add_rep h m o l _ d n); try done.
    intros x. rewrite elem_of_app, list_elem_of_singleton. naive_solver.
  - destruct (add_sorted_dll cmp _ _ _ _ _ fuel Hdll Hn Hno Hnin Hfuel) as (h' & Hr & Hdll' & How & Hns).
    exists h'. split; [done|]. eapply (add_rep h m o l _ d n); try done. intros x. by rewrite elem_of_insert_sorted.
Qed.

Lemma exec_before_refines h m d a :
  rep h m -> d ∈ dom (nodes h) -> attached m d = false -> attached m a = true ->
  exists h', lws_dll2_add_before d a h = Ok h' /\ rep h' (insert_before d a <$> m) /\
    dom (nodes h') = dom (nodes h).
Proof using. clear cmp.
  intros Hrep Hd Hat (o & l & Ho & Hal)%attached_spec.
  destruct (detached_node _ _ _ Hrep Hd Hat) as (n & Hn & Hno & Hnin). specialize (Hnin _ _ Ho).
  pose proof (proj1 Hrep _ _ Ho) as Hdll. apply list_elem_of_split in Hal as (l1 & l2 & ->).
  destruct (add_before_dll _ _ _ _ _ _ _ Hdll Hn Hno Hnin) as (h' & Hr & Hdll' & How & Hns).
  exists h'. split; [done|]. rewrite (fmap_one _ _ o (l1 ++ a :: l2) (l1 ++ d :: a :: l2) Ho).
  - eapply (add_rep h m o (l1 ++ a :: l2) _ d n); try done. intros x.
    rewrite !elem_of_app, !elem_of_cons. naive_solver.
  - apply insert_before_mid. destruct Hdll as (Hnd & _). apply NoDup_app in Hnd as (_ & Hnd & _).
    intros Hl. apply (Hnd a Hl). left.
  - intros o' k Hne Hk. apply insert_before_notin. intros Hak. apply Hne. symmetry.
    eapply (rep_disjoint h m o o'); try done. set_solver.
Qed.

Lemma exec_remove_refines h m d :
  rep h m -> d ∈ dom (nodes h) ->
  exists h', lws_dll2_remove d h = Ok h' /\ rep h' (filter (fun x => x <> d) <$> m) /\
    dom (nodes h') = dom (nodes h).
Proof using. clear cmp.
  intros Hrep Hd. destruct (attached m d) eqn:Hat.
  - apply attached_spec in Hat as (o & l & Ho & Hdl). pose proof (proj1 Hrep _ _ Ho) as Hdll.
    apply list_elem_of_split in Hdl as (l1 & l2 & ->).
    destruct (remove_dll _ _ _ _ _ Hdll) as (h' & Hr & Hdll' & How & Hnd' & Hns).
    exists h'. split; [done|]. destruct Hdll as (Hnd & _).
    apply NoDup_app in Hnd as (Hn1 & Hn12 & [Hdl2 Hn2]%NoDup_cons).
    assert (d ∉ l1) as Hdl1 by (intros Hl; apply (Hn12 d Hl); left).
    rewrite (fmap_one _ _ o (l1 ++ d :: l2) (l1 ++ l2) Ho).
    + apply (local_rep h m o (l1 ++ d :: l2)); try done.
      * intros x Hx _. by apply Hns.
      * intros x. rewrite !elem_of_app, !elem_of_cons. naive_solver.
      * intros x Hx Hx'. assert (x = d) as -> by set_solver. done.
    + rewrite filter_app, filter_cons_False by naive_solver. by rewrite !filter_ne_notin.
    + intros o' k Hne Hk. apply filter_ne_notin. intros Hak. apply Hne. symmetry.
      eapply (rep_disjoint h m o o'); try done. set_solver.
  - destruct (detached_node _ _ _ Hrep Hd Hat) as (n & Hn & Hno & Hnin). exists h.
    unfold lws_dll2_remove. rewrite (node_ok _ _ _ Hn). cbn [mbind res_bind]. rewrite Hno.
    split_and!; [done| |done]. replace (_ <$> m) with m; [done|]. symmetry. apply map_eq. intros o.
    rewrite lookup_fmap. destruct (m !! o) as [l|] eqn:El; [|done]. simpl. by rewrite filter_ne_notin by eauto.
Qed.

Lemma exec_refines h m a m' fuel :
  rep h m -> abs_op (dom (nodes h)) a m = Some m' ->
  (forall o l, m !! o = Some l -> length l <= fuel)%nat ->
  exists h', exec fuel a h = Ok h' /\ rep h' m' /\ dom (nodes h') = dom (nodes h).
Proof.
  intros Hrep Ha Hfuel. destruct a as [d o|d o|d a|d o|d]; cbn [abs_op] in Ha.
  1, 2, 4: apply bind_Some in Ha as (l & Ho & Ha); case_match eqn:Ec; [|done]; injection Ha as <-;
    apply andb_true_iff in Ec as [Hd%bool_decide_eq_true Hat%negb_true_iff];
    by destruct (exec_add_refines _ _ _ _ _ fuel Hrep Ho Hd Hat (Hfuel _ _ Ho)) as (? & ? & ?).
  - case_match eqn:Ec; [|done]. injection Ha as <-.
    apply andb_true_iff in Ec as [[Hd%bool_decide_eq_true Hat%negb_true_iff]%andb_true_iff Haft].
    by apply exec_before_refines.
  - case_match eqn:Ec; [|done]. injection Ha as <-. apply bool_decide_eq_true in Ec.
    by apply exec_remove_refines.
Qed.

Lemma rep_length h m o l : rep h m -> m !! o = Some l -> (length l <= size (dom (nodes h)))%nat.
Proof using. clear cmp.
  intros [Hm _] Ho. destruct (Hm _ _ Ho) as (Hnd & Hw & Hs).
  rewrite <- (size_list_to_set (C := gset loc) l) by done. apply subseteq_size. intros x Hx.
  apply elem_of_list_to_set in Hx. apply elem_of_dom.
  destruct (seg_lookup _ _ _ _ _ _ Hs Hx) as (n & -> & _). by eexists.
Qed.

Lemma exec_all_refines h m l m' fuel :
  rep h m -> abs_all (dom (nodes h)) l m = Some m' -> (size (dom (nodes h)) <= fuel)%nat ->
  exists h', exec_all fuel l h = Ok h' /\ rep h' m' /\ dom (nodes h') = dom (nodes h).
Proof.
  revert h m. induction l as [|a l IH]; intros h m Hrep Ha Hf; simpl in *.
  - injection Ha as <-. eauto.
  - apply bind_Some in Ha as (m1 & Ha1 & Ha).
    destruct (exec_refines h m a m1 fuel Hrep Ha1) as (h1 & Hr & Hrep1 & Hdom).
    { intros o k Ho. pose proof (rep_length _ _ _ _ Hrep Ho). lia. }
    rewrite Hr. cbn [mbind res_bind]. rewrite <- Hdom in Ha, Hf.
    destruct (IH _ _ Hrep1 Ha Hf) as (h' & Hr' & Hrep' & Hdom'). exists h'. by rewrite Hdom', Hdom.
Qed.

(** The walk over a list whose body leaves the list alone visits its nodes in order. *)
Lemma foreach_collect (body : loc -> heap * list loc -> res fault (option unit * (heap * list loc)))
    h o q l p acc fuel :
  (forall d acc, body d (h, acc) = Ok (None, (h, acc ++ [d]))) ->
  seg (nodes h) o q l None -> (length l <= fuel)%nat -> p = list.head l ->
  foreach_safe fst body fuel p (h, acc) = Ok (None, (h, acc ++ l)).
Proof using. clear cmp.
  intros Hbody. revert q p acc fuel. induction l as [|d l IH]; intros q p acc fuel Hs Hf ->.
  - simpl. rewrite app_nil_r. by destruct fuel.
  - destruct fuel as [|fuel]; [simpl in Hf; lia|]. simpl. destruct Hs as [Hd Hs].
    rewrite (node_ok _ _ _ Hd). cbn [mbind res_bind next]. rewrite Hbody. cbn [mbind res_bind].
    erewrite IH.
    + by rewrite <- app_assoc.
    + done.
    + simpl in Hf. lia.
    + by destruct l.
Qed.

End Refinement.

(** C24: the doubly linked lists refine lists.  From a heap that represents a
    set of lists, every sequence of additions at the head, at the tail, before
    a node or in order, and of removals, that a client may do, runs without a
    bad dereference or a failed assert, and ends in a heap that represents the
    lists the same sequence of list operations gives, other owners' lists
    untouched; walking such a list forward from its owner visits exactly its
    nodes in order, the owner's count is its length modulo 2^32, and adding a
    node that is already on a list hits the assert. *)
Theorem dll2_refines (cmp : loc -> loc -> Z) (h : heap) (m m' : gmap loc (list loc)) (l : list op)
    (fuel : nat)
    (Hrep : rep h m) (Hops : abs_all cmp (dom (nodes h)) l m = Some m')
    (Hfuel : (size (dom (nodes h)) <= fuel)%nat) :
  exists h', exec_all cmp fuel l h = Ok h' /\ rep h' m' /\
    forall o k, m' !! o = Some k ->
      lws_dll2_foreach_safe fuel o (fun d '(g, acc) => Ok (0, (g, acc ++ [d]))) (h', [])
        = Ok (0, (h', k)) /\
      (exists w, owners h' !! o = Some w /\ count w = u32 (Z.of_nat (length k))) /\
      forall d o', d ∈ k ->
        lws_dll2_add_head d o' h' = Err assert_failed /\ lws_dll2_add_tail d o' h' = Err assert_failed.
Proof.
  destruct (exec_all_refines cmp h m l m' fuel Hrep Hops Hfuel) as (h' & Hr & Hrep' & Hdom).
  exists h'. split_and!; [done..|]. intros o k Hk. destruct (proj1 Hrep' _ _ Hk) as (Hnd & Hw & Hs).
  split_and!.
  - unfold lws_dll2_foreach_safe, lws_dll2_get_head. cbn [fst]. rewrite (own_ok _ _ _ Hw).
    cbn [mbind res_bind head]. pose proof (rep_length _ _ _ _ Hrep' Hk) as Hlen. rewrite Hdom in Hlen.
    erewrite foreach_collect; [done|done|exact Hs|lia|done].
  - eexists. split; [done|]. done.
  - intros d o' Hd. destruct (seg_lookup _ _ _ _ _ _ Hs Hd) as (n & Hn & Hno).
    unfold lws_dll2_add_head, lws_dll2_add_tail, lws_dll2_is_detached.
    rewrite (node_ok _ _ _ Hn). cbn [mbind res_bind]. by rewrite Hno.
Qed.

(** Four nodes and two empty lists. *)
Definition sample_heap : heap :=
  let n := mk_node None None None in
  mk_heap (<[1 := n]> (<[2 := n]> (<[3 := n]> (<[4 := n]> ∅))))%positive
          (<[10 := mk_owner None None 0]> (<[11 := mk_owner None None 0]> ∅))%positive.

Definition sample_lists : gmap loc (list loc) := (<[10 := []]> (<[11 := []]> ∅))%positive.

Definition sample_cmp (a b : loc) : Z := Z.pos a - Z.pos b.

Lemma sample_rep : rep sample_heap sample_lists.
Proof.
  split.
  - intros o l. unfold sample_lists. rewrite !lookup_insert_Some, lookup_empty.
    intros [[<- <-]|(_ & [[<- <-]|(_ & ?)])]; [..|done]; split_and!; (constructor || reflexivity).
  - intros d n o. unfold sample_heap. cbn [nodes]. rewrite !lookup_insert_Some, lookup_empty.
    naive_solver.
Qed.

Lemma dll2_refines_witness :
  exists h', exec_all sample_cmp 4
      [AddSorted 3 10; AddSorted 1 10; AddSorted 2 10; AddHead 4 11; Remove 1; AddBefore 1 3]%positive
      sample_heap = Ok h' /\ rep h' (<[10 := [2; 1; 3]]> (<[11 := [4]]> ∅))%positive.
Proof.
  destruct (dll2_refines sample_cmp sample_heap sample_lists
    (<[10 := [2; 1; 3]]> (<[11 := [4]]> ∅))%positive
    [AddSorted 3 10; AddSorted 1 10; AddSorted 2 10; AddHead 4 11; Remove 1; AddBefore 1 3]%positive 4
    sample_rep) as (h' & H1 & H2 & _).
  - vm_compute. reflexivity.
  - vm_compute. lia.
  - exists h'. split; assumption.
Defined.

End Dll2.
