(* ===== verification/Sul.v ===== *)
(** * Scheduled callbacks (libwebsockets lib/core-net/sorted-usec-list.c)

    The event loop's timers: elements on a doubly linked list sorted by due
    time.  A callback may itself schedule and cancel, so it is a function on
    the whole state; the state beside the timers is the client's. *)

From Stdlib Require Import Sorting.Sorted.
From S2P Require Import Prelude Dll2.

Module Sul.
Import Dll2.

(** [struct lws_sorted_usec_list] without the link node, which is at the same
    address; [cb] names the callback. *)
Record lws_sorted_usec_list := mk_sul { us : Z; cb : option nat }.

(** What is reachable from the per-thread context. *)
Record pt := mk_pt { mem : heap; suls : gmap loc lws_sorted_usec_list }.

Definition LWS_SET_TIMER_USEC_CANCEL : Z := -1.

(** The due time of the element at an address. *)
Definition us_of (m : gmap loc lws_sorted_usec_list) (d : loc) : Z :=
  match m !! d with Some s => us s | None => 0 end.

Definition sul_compare (m : gmap loc lws_sorted_usec_list) (d i : loc) : Z :=
  let a := us_of m d in
  let b := us_of m i in
  if a >? b then 1 else if a <? b then -1 else 0.

Definition sul_at (s : pt) (d : loc) : res fault lws_sorted_usec_list :=
  match suls s !! d with Some x => Ok x | None => Err bad_pointer end.

Definition set_us (d : loc) (v : Z) (s : pt) : res fault pt :=
  x ← sul_at s d; Ok (mk_pt (mem s) (<[d := mk_sul v (cb x)]> (suls s))).

Definition set_cb (d : loc) (c : option nat) (s : pt) : res fault pt :=
  x ← sul_at s d; Ok (mk_pt (mem s) (<[d := mk_sul (us x) c]> (suls s))).

Definition set_mem (h : heap) (s : pt) : pt := mk_pt h (suls s).

(** [lws_usec_t] is a signed 64-bit integer. *)
Definition usec_add (a b : Z) : res fault Z :=
  if (- 2 ^ 63 <=? a + b) && (a + b <? 2 ^ 63) then Ok (a + b) else Err signed_overflow.

Definition __lws_sul_insert (now : Z) (fuel : nat) (o sul : loc) (delay : Z) (s : pt) : res fault pt :=
  h ← lws_dll2_remove sul (mem s);
  let s := set_mem h s in
  if delay =? LWS_SET_TIMER_USEC_CANCEL then set_us sul 0 s
  else
    t ← usec_add now delay;
    s ← set_us sul t s;
    x ← sul_at s sul;
    match cb x with
    | None => Err assert_failed
    | Some _ =>
      h ← lws_dll2_add_sorted (sul_compare (suls s)) fuel sul o (mem s);
      Ok (set_mem h s)
    end.

Definition lws_sul_schedule (now : Z) (fuel : nat) (o sul : loc) (c : option nat) (delay : Z) (s : pt)
  : res fault pt :=
  s ← set_cb sul c s;
  __lws_sul_insert now fuel o sul delay s.

(** The callbacks of the program, on the timers and the client's state. *)
Section Service.
Context {U : Type} (call : nat -> loc -> pt * U -> res fault (pt * U)).

(** The result, the elements whose callback ran, in order, and the state. *)
Fixpoint __lws_sul_service_ripe (fuel : nat) (o : loc) (usnow : Z) (s : pt * U)
  : res fault (Z * list loc * (pt * U)) :=
  match fuel with
  | O => Err out_of_fuel
  | S fuel =>
    hd ← lws_dll2_get_head o (mem s.1);
    match hd with
    | None => Ok (0, [], s)
    | Some sul =>
      x ← sul_at s.1 sul;
      if us x =? 0 then Err assert_failed
      else if us x >? usnow then Ok (us x - usnow, [], s)
      else
        h ← lws_dll2_remove sul (mem s.1);
        p ← set_us sul 0 (set_mem h s.1);
        match cb x with
        | None => Err bad_pointer
        | Some c =>
          s ← call c sul (p, s.2);
          '(z, fired, s) ← __lws_sul_service_ripe fuel o usnow s;
          Ok (z, sul :: fired, s)
        end
    end
  end.

End Service.

(** ** The timer list *)

(** [l] is the list of the elements waiting on [o], earliest first; [m] holds
    every list of the heap. *)
Definition timers (o : loc) (l : list loc) (s : pt) : Prop :=
  exists m, rep (mem s) m /\ m !! o = Some l /\
    StronglySorted (fun a b => us_of (suls s) a <= us_of (suls s) b) l /\
    Forall (fun d => exists x, suls s !! d = Some x /\ 0 < us x /\ is_Some (cb x)) l /\
    dom (suls s) ⊆ dom (nodes (mem s)).

(** The elements that are due. *)
Definition ripe (usnow : Z) (s : pt) (l : list loc) : list loc :=
  filter (fun d => us_of (suls s) d <= usnow) l.

Lemma sul_compare_lt m a b : sul_compare m a b < 0 <-> us_of m a < us_of m b.
Proof.
  unfold sul_compare. rewrite Z.gtb_ltb. destruct (Z.ltb_spec (us_of m b) (us_of m a)); [lia|].
  destruct (Z.ltb_spec (us_of m a) (us_of m b)); lia.
Qed.

Lemma strongly_sorted_filter {A} (R : A -> A -> Prop) (P : A -> Prop) `{!forall x, Decision (P x)} l :
  StronglySorted R l -> StronglySorted R (filter P l).
Proof.
  induction 1 as [|x l Hl IH Hx]; [constructor|]. rewrite filter_cons. destruct (decide (P x)); [|done].
  constructor; [done|]. apply Forall_forall. intros y [_ Hy]%list_elem_of_filter.
  by apply (proj1 (Forall_forall _ _) Hx).
Qed.

Lemma strongly_sorted_ext {A} (R R' : A -> A -> Prop) l :
  (forall x y, x ∈ l -> y ∈ l -> R x y -> R' x y) -> StronglySorted R l -> StronglySorted R' l.
Proof.
  intros HR Hs. induction Hs as [|x l Hl IH Hx]; [constructor|]. constructor.
  - apply IH. intros. apply HR; [by right..|done].
  - apply Forall_forall. intros y Hy. apply HR; [left|by right|]. by apply (proj1 (Forall_forall _ _) Hx).
Qed.

Lemma us_of_insert_ne m d x a : a <> d -> us_of (<[d := x]> m) a = us_of m a.
Proof. intros. unfold us_of. by rewrite lookup_insert_ne. Qed.

Lemma us_of_insert_eq m d x : us_of (<[d := x]> m) d = us x.
Proof. unfold us_of. by rewrite lookup_insert_eq. Qed.

Lemma sul_at_ok s d x : suls s !! d = Some x -> sul_at s d = Ok x.
Proof. unfold sul_at. by intros ->. Qed.

(** Taking an element off the list and storing another due time in it. *)
Lemma remove_timers o l s d x v :
  timers o l s -> suls s !! d = Some x ->
  exists h m, lws_dll2_remove d (mem s) = Ok h /\ dom (nodes h) = dom (nodes (mem s)) /\
    rep h m /\ m !! o = Some (filter (fun a => a <> d) l) /\ attached m d = false /\
    timers o (filter (fun a => a <> d) l) (mk_pt h (<[d := mk_sul v (cb x)]> (suls s))).
Proof.
  intros (m & Hrep & Ho & Hs & Hf & Hdom) Hx.
  assert (d ∈ dom (nodes (mem s))) as Hd by (apply Hdom, elem_of_dom; by eexists).
  destruct (exec_remove_refines _ _ _ Hrep Hd) as (h & Hr & Hrep' & Hdom').
  assert ((filter (fun a => a <> d) <$> m) !! o = Some (filter (fun a => a <> d) l)) as Ho'.
  { by rewrite lookup_fmap, Ho. }
  exists h, (filter (fun a => a <> d) <$> m). split_and!; [done..| |].
  { apply not_true_iff_false. rewrite attached_spec. intros (o' & k & Hk & Hin).
    rewrite lookup_fmap in Hk. destruct (m !! o') as [k'|]; [|done]. simpl in Hk. injection Hk as <-.
    by apply list_elem_of_filter in Hin as [? _]. }
  eexists. split_and!; [done..| | |].
  - apply (strongly_sorted_ext (fun a b => us_of (suls s) a <= us_of (suls s) b));
      [|by apply strongly_sorted_filter].
    intros a b [Ha _]%list_elem_of_filter [Hb _]%list_elem_of_filter. cbn [suls].
    by rewrite !us_of_insert_ne.
  - apply Forall_forall. intros a [Ha Hal]%list_elem_of_filter. cbn [suls].
    rewrite lookup_insert_ne by done. by apply (proj1 (Forall_forall _ _) Hf).
  - cbn [suls mem]. rewrite dom_insert, Hdom'. apply union_subseteq. split; [|done].
    by apply singleton_subseteq_l.
Qed.

Lemma insert_timers now fuel o l s d x c delay :
  timers o l s -> suls s !! d = Some x -> cb x = Some c -> 0 < now -> 0 <= delay -> now + delay < 2 ^ 63 ->
  (size (dom (nodes (mem s))) <= fuel)%nat ->
  exists s', __lws_sul_insert now fuel o d delay s = Ok s' /\
    suls s' = <[d := mk_sul (now + delay) (Some c)]> (suls s) /\
    dom (nodes (mem s')) = dom (nodes (mem s)) /\
    timers o (insert_sorted (sul_compare (suls s')) d (filter (fun a => a <> d) l)) s'.
Proof.
  intros Ht Hx Hc Hnow Hdelay Hov Hfuel.
  destruct (remove_timers _ _ _ _ _ (now + delay) Ht Hx) as (h & m & Hr & Hdom & Hrep & Hm & Hat & Ht').
  rewrite Hc in Ht'. unfold __lws_sul_insert. rewrite Hr. cbn [mbind res_bind].
  unfold LWS_SET_TIMER_USEC_CANCEL. destruct (Z.eqb_spec delay (-1)); [lia|]. unfold usec_add.
  destruct (Z.leb_spec (- 2 ^ 63) (now + delay)); [|lia].
  destruct (Z.ltb_spec (now + delay) (2 ^ 63)); [|lia]. cbn [andb mbind res_bind]. unfold set_us, set_mem.
  rewrite (sul_at_ok _ _ x) by done. cbn [mbind res_bind mem suls]. rewrite Hc.
  set (S' := <[d := mk_sul (now + delay) (Some c)]> (suls s)) in *.
  rewrite (sul_at_ok _ _ (mk_sul (now + delay) (Some c))) by (apply lookup_insert_eq).
  cbn [mbind res_bind cb].
  destruct Ht' as (m' & Hrep' & Hm' & Hs & Hf & Hd). cbn [mem suls] in *.
  assert (d ∈ dom (nodes h)) as Hdn by (apply Hd; unfold S'; set_solver).
  destruct (exec_add_refines (sul_compare S') h m o _ d fuel Hrep Hm Hdn Hat) as (_ & _ & h' & Hr' & Hrep1 & Hdom1).
  { pose proof (rep_length _ _ _ _ Hrep Hm). rewrite Hdom in *. lia. }
  rewrite Hr'. cbn [mbind res_bind]. eexists. split; [done|]. cbn [mem suls].
  split_and!; [done|congruence|]. eexists. split_and!; [done|by rewrite lookup_insert_eq| | |]; cbn [mem suls].
  - apply Sorted_StronglySorted; [intros a b e; lia|].
    apply (insert_sorted_sorted (us_of S')); [apply sul_compare_lt|]. by apply StronglySorted_Sorted.
  - rewrite insert_sorted_perm. constructor; [|done].
    exists (mk_sul (now + delay) (Some c)). unfold S'. rewrite lookup_insert_eq. cbn. split_and!; [done|lia|by eexists].
  - by rewrite Hdom1.
Qed.

(** ** Ripe elements *)

Lemma timers_head o l s :
  timers o l s -> lws_dll2_get_head o (mem s) = Ok (list.head l).
Proof.
  intros (m & Hrep & Ho & _). destruct (proj1 Hrep _ _ Ho) as (_ & Hw & _).
  unfold lws_dll2_get_head. by rewrite (own_ok _ _ _ Hw).
Qed.

Lemma timers_cons o d l s :
  timers o (d :: l) s ->
  exists x c, suls s !! d = Some x /\ 0 < us x /\ cb x = Some c /\ d ∉ l /\
    Forall (fun a => us x <= us_of (suls s) a) l.
Proof.
  intros (m & Hrep & Ho & Hs & Hf & _). destruct (proj1 Hrep _ _ Ho) as ([Hd _]%NoDup_cons & _).
  apply Forall_cons in Hf as [(x & Hx & Hpos & [c Hc]) _]. exists x, c.
  apply StronglySorted_inv in Hs as [_ Hall]. split_and!; try done.
  assert (us_of (suls s) d = us x) as <-; [|done]. unfold us_of. by rewrite Hx.
Qed.

Lemma ripe_none usnow s l : Forall (fun a => usnow < us_of (suls s) a) l -> ripe usnow s l = [].
Proof.
  intros Hl. apply filter_none. intros a Ha. pose proof (proj1 (Forall_forall _ _) Hl a Ha) as H.
  simpl in H. lia.
Qed.

Lemma filter_iff_in {A} (P Q : A -> Prop) `{!forall x, Decision (P x), !forall x, Decision (Q x)} (l : list A) :
  (forall x, x ∈ l -> P x <-> Q x) -> filter P l = filter Q l.
Proof.
  induction l as [|x l IH]; [done|]. intros Hl. rewrite !filter_cons. rewrite IH by (intros; apply Hl; by right).
  destruct (Hl x (list_elem_of_here _ _)). destruct (decide (P x)), (decide (Q x)); naive_solver.
Qed.

Section ServiceProof.
Context {U : Type} (call : nat -> loc -> pt * U -> res fault (pt * U)) (o : loc) (usnow : Z).

(** A callback may schedule and cancel as it likes: it leaves a well-formed
    list of timers behind, in which what is due now relates by [R] to what was due. *)
Definition respects (R : list loc -> list loc -> Prop) : Prop :=
  forall c d l s u, timers o l s -> suls s !! d = Some (mk_sul 0 (Some c)) ->
    exists s' l' u', call c d (s, u) = Ok (s', u') /\ timers o l' s' /\ R (ripe usnow s' l') (ripe usnow s l).

(** Nothing more than well-formed timers; nothing made due, but anything
    cancelled or put off; what is due stays as it is. *)
Definition keeps_timers : Prop := respects (fun _ _ => True).
Definition makes_none_due : Prop := respects sublist.
Definition well_behaved : Prop := respects eq.

(** How a pass ends. *)
Definition served (z : Z) (s : pt) : Prop :=
  exists l, timers o l s /\ ripe usnow s l = [] /\ z = match l with [] => 0 | d :: _ => us_of (suls s) d - usnow end.

(** One turn of the loop: it is done, or takes the first due element off,
    runs its callback and goes on. *)
Lemma service_turn R (Hcall : respects R) fuel l s u : timers o l s ->
  (exists z, __lws_sul_service_ripe call (S fuel) o usnow (s, u) = Ok (z, [], (s, u)) /\ ripe usnow s l = [] /\ served z s) \/
  (exists d due s1 l1 u1, ripe usnow s l = d :: due /\ timers o l1 s1 /\ R (ripe usnow s1 l1) due /\
     __lws_sul_service_ripe call (S fuel) o usnow (s, u) =
       '(z, fired, s) ← __lws_sul_service_ripe call fuel o usnow (s1, u1); Ok (z, d :: fired, s)).
Proof.
  intros Ht. cbn [__lws_sul_service_ripe fst snd]. rewrite (timers_head _ _ _ Ht). cbn [mbind res_bind].
  destruct l as [|d l]; [left; exists 0; split; [done|]; split; [done|]; by exists []|].
  destruct (timers_cons _ _ _ _ Ht) as (x & c & Hx & Hpos & Hc & Hd & Hl). cbn [list.head].
  rewrite (sul_at_ok _ _ _ Hx). cbn [mbind res_bind]. destruct (Z.eqb_spec (us x) 0); [lia|].
  rewrite Z.gtb_ltb. assert (us_of (suls s) d = us x) as Hus by (unfold us_of; by rewrite Hx).
  destruct (Z.ltb_spec usnow (us x)) as [Hlt|Hge].
  { left. assert (ripe usnow s (d :: l) = []) as Hr.
    { apply ripe_none. constructor; [lia|]. eapply Forall_impl; [exact Hl|]. simpl. lia. }
    exists (us x - usnow). split; [done|]. split; [done|]. exists (d :: l). by rewrite Hus. }
  right. destruct (remove_timers _ _ _ _ _ 0 Ht Hx) as (h & m & Hrm & _ & _ & _ & _ & Ht').
  rewrite Hrm. cbn [mbind res_bind]. unfold set_us, set_mem. rewrite (sul_at_ok _ _ x) by done.
  cbn [mbind res_bind mem suls]. rewrite Hc in Ht' |- *.
  rewrite filter_cons_False, filter_ne_notin in Ht' by naive_solver.
  edestruct (Hcall c d l _ u Ht') as (s1 & l1 & u1 & Hcl & Ht1 & Hr1); [apply lookup_insert_eq|].
  rewrite Hcl. cbn [mbind res_bind]. eexists d, _, s1, l1, u1. split; [|split; [exact Ht1|split; [exact Hr1|done]]].
  unfold ripe. rewrite filter_cons_True by lia. f_equal. apply filter_iff_in.
  intros a Ha. cbn [suls]. rewrite us_of_insert_ne; [done|]. intros ->. done.
Qed.

(** Whatever the callbacks schedule and cancel, a pass that ends ends right. *)
Lemma service_ripe_ends (Hcall : keeps_timers) fuel : forall l s u, timers o l s ->
  match __lws_sul_service_ripe call fuel o usnow (s, u) with
  | Ok (z, _, (s', _)) => served z s'
  | Err e => e = out_of_fuel
  end.
Proof.
  induction fuel as [|fuel IH]; intros l s u Ht; [done|].
  destruct (service_turn _ Hcall fuel l s u Ht) as [(z & -> & _ & Hz)|(d & due & s1 & l1 & u1 & _ & Ht1 & _ & ->)]; [done|].
  specialize (IH l1 s1 u1 Ht1). by destruct (__lws_sul_service_ripe call fuel o usnow (s1, u1)) as [[[z fired] [s' u']]|].
Qed.

(** It ends when nothing is made due on the way. *)
Lemma service_ripe_total (R : list loc -> list loc -> Prop) (Hcall : respects R)
    (Hnil : R [] []) (Hskip : forall d fired due due', R fired due' -> R due' due -> R (d :: fired) (d :: due))
    (Hlen : forall due due', R due' due -> (length due' <= length due)%nat) fuel : forall l s u,
  timers o l s -> (length (ripe usnow s l) < fuel)%nat ->
  exists z fired s' u', __lws_sul_service_ripe call fuel o usnow (s, u) = Ok (z, fired, (s', u')) /\ R fired (ripe usnow s l).
Proof.
  induction fuel as [|fuel IH]; intros l s u Ht Hf; [lia|].
  destruct (service_turn _ Hcall fuel l s u Ht) as [(z & -> & -> & _)|(d & due & s1 & l1 & u1 & Hd & Ht1 & HR & ->)];
    [by exists z, [], s, u|].
  rewrite Hd in Hf |- *. cbn [length] in Hf. pose proof (Hlen _ _ HR).
  destruct (IH l1 s1 u1 Ht1 ltac:(lia)) as (z & fired & s' & u' & -> & Hfired). cbn [mbind res_bind].
  exists z, (d :: fired), s', u'. split; [done|]. by eapply Hskip.
Qed.

End ServiceProof.

Lemma filter_insert_sorted (P : loc -> Prop) `{!forall x, Decision (P x)} cmp d l :
  ~ P d -> filter P (insert_sorted cmp d l) = filter P l.
Proof.
  intros Hd. induction l as [|x l IH]; simpl.
  - by rewrite filter_cons_False.
  - destruct (0 <=? cmp x d); [by rewrite filter_cons_False|]. rewrite !filter_cons. by rewrite IH.
Qed.

(** A periodic callback, which schedules itself again, is well behaved. *)
Definition periodic (o : loc) (usnow period : Z) (c : nat) (d : loc) (s : pt * unit) : res fault (pt * unit) :=
  p ← lws_sul_schedule usnow (size (dom (nodes (mem s.1)))) o d (Some c) period s.1; Ok (p, s.2).

Lemma periodic_well_behaved o usnow period :
  0 < usnow -> 0 < period -> usnow + period < 2 ^ 63 -> well_behaved (periodic o usnow period) o usnow.
Proof.
  intros Hn Hp Hov c d l s u Ht Hd. unfold periodic, lws_sul_schedule, set_cb. cbn [fst snd].
  rewrite (sul_at_ok _ _ _ Hd). cbn [mbind res_bind us cb]. rewrite insert_id by done.
  assert (d ∉ l) as Hdl.
  { intros Hin. destruct Ht as (m & _ & _ & _ & Hf & _).
    destruct (proj1 (Forall_forall _ _) Hf d Hin) as (x & Hx & Hpos & _).
    rewrite Hd in Hx. injection Hx as <-. simpl in Hpos. lia. }
  destruct s as [h S]. cbn [mem suls] in *.
  destruct (insert_timers usnow (size (dom (nodes h))) o l (mk_pt h S) d _ c period Ht Hd eq_refl Hn
    ltac:(lia) Hov ltac:(cbn; lia)) as (s' & -> & Hs' & _ & Ht').
  cbn [mbind res_bind]. rewrite filter_ne_notin in Ht' by done. eexists _, _, _. split; [done|]. split; [done|].
  unfold ripe. rewrite filter_insert_sorted by (rewrite Hs', us_of_insert_eq; cbn; lia).
  apply filter_iff_in. intros a Ha. rewrite Hs'. cbn [suls]. rewrite us_of_insert_ne; [done|]. by intros ->.
Qed.

End Sul.

Import Dll2 Sul.

(** Scheduling.  On a well-formed timer list, scheduling an element after
    a delay that does not overflow the 64-bit clock never fails: the element's
    due time becomes now plus the delay, it is on the list exactly once, at its
    place in due-time order, whether or not it was waiting before, and every
    other element is untouched; scheduling with the cancel value takes it off
    the list.  The list stays sorted. *)
Theorem sul_schedule_spec (now : Z) (fuel : nat) (o d : loc) (l : list loc) (s : pt)
    (x : lws_sorted_usec_list) (c : nat) (delay : Z)
    (Ht : timers o l s) (Hx : suls s !! d = Some x)
    (Hnow : 0 < now) (Hdelay : 0 <= delay) (Hov : now + delay < 2 ^ 63)
    (Hfuel : (size (dom (nodes (mem s))) <= fuel)%nat) :
  (exists s', lws_sul_schedule now fuel o d (Some c) delay s = Ok s' /\
    suls s' = <[d := mk_sul (now + delay) (Some c)]> (suls s) /\
    timers o (insert_sorted (sul_compare (suls s')) d (filter (fun a => a <> d) l)) s') /\
  (exists s', lws_sul_schedule now fuel o d (Some c) LWS_SET_TIMER_USEC_CANCEL s = Ok s' /\
    suls s' = <[d := mk_sul 0 (Some c)]> (suls s) /\
    timers o (filter (fun a => a <> d) l) s').
Proof.
  unfold lws_sul_schedule, set_cb. rewrite (sul_at_ok _ _ _ Hx). cbn [mbind res_bind].
  set (s0 := mk_pt (mem s) (<[d := mk_sul (us x) (Some c)]> (suls s))).
  assert (suls s0 !! d = Some (mk_sul (us x) (Some c))) as Hd by apply lookup_insert_eq.
  assert (timers o l s0) as Ht0.
  { destruct Ht as (m & Hrep & Ho & Hs & Hf & Hdom). exists m. split_and!; [done..| | |]; cbn [s0 mem suls].
    - eapply strongly_sorted_ext; [|exact Hs]. intros a b _ _. unfold us_of.
      destruct (decide (a = d)) as [->|], (decide (b = d)) as [->|];
        rewrite ?lookup_insert_eq, ?lookup_insert_ne, ?Hx by done; done.
    - eapply Forall_impl; [exact Hf|]. intros a (y & Hy & Hpos & Hc). destruct (decide (a = d)) as [->|].
      + rewrite lookup_insert_eq. eexists. split_and!; [done| |by eexists]. simpl. by simplify_eq.
      + rewrite lookup_insert_ne by done. eauto.
    - rewrite dom_insert_lookup by (by eexists). done. }
  split.
  - destruct (insert_timers now fuel o l s0 d _ c delay Ht0 Hd eq_refl Hnow Hdelay Hov Hfuel)
      as (s' & Hr & Hs & _ & Ht'). exists s'. split_and!; [done| |done]. rewrite Hs. cbn. apply insert_insert_eq.
  - destruct (remove_timers o l s0 d _ 0 Ht0 Hd) as (h & m & Hr & _ & _ & _ & _ & Ht').
    unfold __lws_sul_insert. rewrite Hr. cbn [mbind res_bind]. rewrite Z.eqb_refl.
    unfold set_us, set_mem. rewrite (sul_at_ok _ _ (mk_sul (us x) (Some c))) by exact Hd.
    cbn [mbind res_bind mem suls cb] in *.
    eexists. split_and!; [done| |done]. cbn. apply insert_insert_eq.
Qed.

(** C26: the timer service.  The callbacks may do any mixture of scheduling and
    cancelling that leaves well-formed timers.  Whatever they do, a pass never
    dereferences a bad pointer or fails its assertion, and if it ends, nothing
    is due on the list it leaves, and it returns the time to the next due
    element, 0 when none waits.  As long as they make nothing due, it does end,
    and the elements whose callback ran are among those that were due, in
    due-time order, once each.  And if they also cancel or put off nothing that
    is due, these are exactly the elements that were due. *)
Theorem sul_service_spec {U : Type} (call : nat -> loc -> pt * U -> res fault (pt * U)) (o : loc)
    (usnow : Z) (l : list loc) (s : pt) (u : U) (Hcall : keeps_timers call o usnow) (Ht : timers o l s) :
  (forall fuel, match __lws_sul_service_ripe call fuel o usnow (s, u) with
                | Ok (z, _, (s', _)) => exists l', timers o l' s' /\ ripe usnow s' l' = [] /\
                    z = match l' with [] => 0 | d :: _ => us_of (suls s') d - usnow end
                | Err e => e = out_of_fuel
                end) /\
  StronglySorted (fun a b => us_of (suls s) a <= us_of (suls s) b) (ripe usnow s l) /\
  (makes_none_due call o usnow -> forall fuel, (length l < fuel)%nat ->
     exists z fired s' u', __lws_sul_service_ripe call fuel o usnow (s, u) = Ok (z, fired, (s', u')) /\
       fired `sublist_of` ripe usnow s l) /\
  (well_behaved call o usnow -> forall fuel, (length l < fuel)%nat ->
     exists z s' u', __lws_sul_service_ripe call fuel o usnow (s, u) = Ok (z, ripe usnow s l, (s', u'))).
Proof.
  assert (length (ripe usnow s l) <= length l)%nat as Hlen by apply length_filter.
  split; [intros fuel; by apply (service_ripe_ends call o usnow Hcall fuel l)|]. split.
  { destruct Ht as (m & _ & _ & Hs & _). by apply strongly_sorted_filter. }
  split; intros Hc fuel Hf.
  - apply (service_ripe_total call o usnow sublist Hc); [done| | |done|lia].
    + intros d fired due due' H1 H2. apply sublist_skip. by transitivity due'.
    + intros due due'. apply sublist_length.
  - destruct (service_ripe_total call o usnow eq Hc eq_refl) with (fuel := fuel) (l := l) (s := s) (u := u)
      as (z & fired & s' & u' & H & ->); [congruence|by intros ? ? ->|done|lia|by exists z, s', u'].
Qed.

(** Three elements, two of them due at 100. *)
Definition sample_pt : pt :=
  mk_pt (mk_heap (<[1 := mk_node (Some 2) (Some 3) (Some 10)]> (<[2 := mk_node None (Some 1) (Some 10)]>
          (<[3 := mk_node (Some 1) None (Some 10)]> ∅)))%positive
          (<[10 := mk_owner (Some 3) (Some 2) 3]> ∅)%positive)
        (<[1%positive := mk_sul 90 (Some 0%nat)]> (<[2%positive := mk_sul 80 (Some 0%nat)]>
          (<[3%positive := mk_sul 150 (Some 0%nat)]> ∅))).

Lemma sample_pt_timers : timers 10%positive [2; 1; 3]%positive sample_pt.
Proof.
  exists {[ 10 := [2; 1; 3] ]}%positive. split_and!.
  - split.
    + intros o l [<- <-]%lookup_singleton_Some. split_and!.
      * apply (bool_decide_unpack _). vm_compute. exact I.
      * reflexivity.
      * simpl. done.
    + intros d n o. cbn [sample_pt mem nodes]. rewrite !lookup_insert_Some, lookup_empty. intros Hd Ho.
      exists [2; 1; 3]%positive. destruct Hd as [[<- <-]|(_ & [[<- <-]|(_ & [[<- <-]|(_ & ?)])])]; [..|done];
        simpl in Ho; injection Ho as <-; (split; [reflexivity|]); set_solver.
  - reflexivity.
  - repeat constructor; vm_compute; discriminate.
  - repeat constructor; eexists; (split_and!; [reflexivity|reflexivity|by eexists]).
  - vm_compute. set_solver.
Qed.

Lemma sul_schedule_spec_witness :
  exists s', lws_sul_schedule 100 3 10%positive 2%positive (Some 0%nat) 20 sample_pt = Ok s' /\
    timers 10%positive [1; 2; 3]%positive s'.
Proof.
  destruct (sul_schedule_spec 100 3 10%positive 2%positive [2; 1; 3]%positive sample_pt
    (mk_sul 80 (Some 0%nat)) 0 20 sample_pt_timers) as [(s' & H1 & H2 & H3) _];
    [reflexivity|lia|lia|lia|vm_compute; lia|]. exists s'. split; [exact H1|]. rewrite H2 in H3. exact H3.
Defined.

(** A callback that takes another element off the list. *)
Definition cancels (v : loc) (c : nat) (d : loc) (s : pt * unit) : res fault (pt * unit) :=
  if bool_decide (is_Some (suls s.1 !! v))
  then p ← __lws_sul_insert 0 0 10%positive v LWS_SET_TIMER_USEC_CANCEL s.1; Ok (p, s.2) else Ok s.

Lemma sublist_filter {A} (P : A -> Prop) `{!forall x, Decision (P x)} l : filter P l `sublist_of` l.
Proof.
  induction l as [|x l IH]; [done|]. rewrite filter_cons. destruct (decide (P x)); [by apply sublist_skip|by apply sublist_cons].
Qed.

Lemma cancels_none_due v o usnow : makes_none_due (cancels v) o usnow.
Proof.
  intros c d l s u Ht Hd. unfold cancels. cbn [fst snd]. case_bool_decide as Hv.
  - destruct Hv as [x Hx]. destruct (remove_timers o l s v x 0 Ht Hx) as (h & m & Hr & _ & _ & _ & _ & Ht').
    unfold __lws_sul_insert. rewrite Hr. cbn [mbind res_bind]. rewrite Z.eqb_refl. unfold set_us, set_mem.
    rewrite (sul_at_ok _ _ x) by done. cbn [mbind res_bind mem suls]. eexists _, _, _. split; [done|]. split; [exact Ht'|].
    unfold ripe. cbn [suls]. rewrite (filter_iff_in _ (fun a => us_of (suls s) a <= usnow)).
    + rewrite list_filter_filter. erewrite (filter_iff_in _ (fun a => a <> v /\ us_of (suls s) a <= usnow)) by tauto.
      rewrite <- (list_filter_filter (fun a => a <> v)). apply sublist_filter.
    + intros a [Ha _]%list_elem_of_filter. by rewrite us_of_insert_ne.
  - by exists s, l, u.
Qed.

Lemma sul_service_spec_witness :
  (exists z s' u', __lws_sul_service_ripe (periodic 10%positive 100 30) 4 10%positive 100 (sample_pt, tt)
    = Ok (z, [2; 1]%positive, (s', u')) /\ 0 < z) /\
  exists z fired s' u', __lws_sul_service_ripe (cancels 1%positive) 4 10%positive 100 (sample_pt, tt) = Ok (z, fired, (s', u')) /\
    fired `sublist_of` [2; 1]%positive.
Proof.
  assert (forall R (f : nat -> loc -> pt * unit -> res fault (pt * unit)), respects f 10%positive 100 R ->
    keeps_timers f 10%positive 100) as Hk.
  { intros R f H c d l s u Ht Hd. destruct (H c d l s u Ht Hd) as (s' & l' & u' & ? & ? & _). by exists s', l', u'. }
  assert (well_behaved (periodic 10%positive 100 30) 10%positive 100) as Hp by (apply periodic_well_behaved; lia).
  split.
  - destruct (sul_service_spec (periodic 10%positive 100 30) 10%positive 100 [2; 1; 3]%positive sample_pt tt)
      as (_ & _ & _ & H).
    + exact (Hk _ _ Hp).
    + exact sample_pt_timers.
    + destruct (H Hp 4%nat) as (z & s' & u' & H1); [simpl; lia|].
      exists z, s', u'. split; [exact H1|]. vm_compute in H1. injection H1 as <- _ _. lia.
  - destruct (sul_service_spec (cancels 1%positive) 10%positive 100 [2; 1; 3]%positive sample_pt tt)
      as (_ & _ & H & _).
    + exact (Hk _ _ (cancels_none_due _ _ _)).
    + exact sample_pt_timers.
    + apply (H (cancels_none_due _ _ _)). simpl. lia.
Defined.
