(* ===== verification/Ring.v ===== *)
(** * Ring buffers with several tails (libwebsockets lib/misc/lws-ring.c)

    The ring as the code keeps it: a byte buffer of a whole number of
    elements, a head and the oldest tail as 32-bit byte offsets, further tails
    owned by the consumers.  The reference is the stream of all bytes ever
    inserted: the ring is a window of it. *)

From S2P Require Import Prelude.

Module Ring.

Inductive fault := bad_access | no_exit.

#[global] Instance fault_eq_dec : EqDecision fault.
Proof. solve_decision. Defined.

(** [struct lws_ring]; [destroy_element] says whether the callback is set. *)
Record lws_ring := mk_ring {
  buf : bytes; destroy_element : bool; buflen : Z; element_len : Z; head : Z; oldest_tail : Z
}.

#[global] Instance lws_ring_eq_dec : EqDecision lws_ring.
Proof. solve_decision. Defined.

Definition set_buf (b : bytes) (r : lws_ring) : lws_ring :=
  mk_ring b (destroy_element r) (buflen r) (element_len r) (head r) (oldest_tail r).
Definition set_head (h : Z) (r : lws_ring) : lws_ring :=
  mk_ring (buf r) (destroy_element r) (buflen r) (element_len r) h (oldest_tail r).
Definition set_oldest (t : Z) (r : lws_ring) : lws_ring :=
  mk_ring (buf r) (destroy_element r) (buflen r) (element_len r) (head r) t.

(** [memcpy] into and out of a buffer, with its bounds. *)
Definition store (b : bytes) (off : Z) (src : bytes) (n : Z) : res fault bytes :=
  if (0 <=? n) && (0 <=? off) && (off + n <=? len b) && (n <=? len src)
  then Ok (take (Z.to_nat off) b ++ take (Z.to_nat n) src ++ drop (Z.to_nat (off + n)) b)
  else Err bad_access.

Definition load (b : bytes) (off n : Z) : res fault bytes :=
  if (0 <=? n) && (0 <=? off) && (off + n <=? len b)
  then Ok (take (Z.to_nat n) (drop (Z.to_nat off) b))
  else Err bad_access.

(** [mem] is what the second allocation returns. *)
Definition lws_ring_create (el count : Z) (destroy : bool) (malloc_ok : bool) (mem : option bytes)
  : option lws_ring :=
  if negb malloc_ok then None
  else
    match mem with
    | None => None
    | Some b => Some (mk_ring b destroy (u32 (count * el)) (u32 el) 0 0)
    end.

(** The elements [destroy_element] is called on, until [oldest_tail] is [tail]. *)
Fixpoint retire (fuel : nat) (r : lws_ring) (tail : Z) : res fault (list bytes * lws_ring) :=
  if oldest_tail r =? tail then Ok ([], r)
  else
    match fuel with
    | O => Err no_exit
    | S fuel =>
      e ← load (buf r) (oldest_tail r) (element_len r);
      '(es, r) ← retire fuel (set_oldest (u32 (oldest_tail r + element_len r) mod buflen r) r) tail;
      Ok (e :: es, r)
    end.

(** What the ring destroys when it is destroyed. *)
Definition lws_ring_destroy (fuel : nat) (r : lws_ring) : res fault (list bytes) :=
  if destroy_element r then '(es, _) ← retire fuel r (head r); Ok es else Ok [].

Definition lws_ring_update_oldest_tail (fuel : nat) (r : lws_ring) (tail : Z)
  : res fault (list bytes * lws_ring) :=
  if negb (destroy_element r) then Ok ([], set_oldest tail r)
  else retire fuel r tail.

Definition lws_ring_get_oldest_tail (r : lws_ring) : Z := oldest_tail r.

Definition lws_ring_get_count_free_elements (r : lws_ring) : Z :=
  let f :=
    s32 (if head r =? oldest_tail r then u32 (buflen r - element_len r)
         else if head r <? oldest_tail r then u32 (u32 (oldest_tail r - head r) - element_len r)
         else u32 (u32 (u32 (buflen r - head r) + oldest_tail r) - element_len r)) in
  if f <? 2 then 0 else u32 f / element_len r.

(** The tail a call uses: the consumer's, or the oldest when NULL is passed. *)
Definition tail_of (r : lws_ring) (tail : option Z) : Z :=
  match tail with Some t => t | None => oldest_tail r end.

Definition lws_ring_get_count_waiting_elements (r : lws_ring) (tail : option Z) : Z :=
  let t := tail_of r tail in
  let f :=
    s32 (if head r =? t then 0
         else if head r >? t then u32 (head r - t)
         else u32 (u32 (buflen r - t) + head r)) in
  u32 f / element_len r.

(** The offset and length of the range, [None] when nothing can be inserted. *)
Definition lws_ring_next_linear_insert_range (r : lws_ring) : option (Z * Z) :=
  let n := s32 (lws_ring_get_count_free_elements r * element_len r) in
  if n =? 0 then None
  else if u32 (head r + n) >? buflen r then Some (head r, u32 (buflen r - head r))
  else Some (head r, n).

Definition lws_ring_bump_head (r : lws_ring) (b : Z) : lws_ring :=
  set_head (u32 (head r + u32 b) mod buflen r) r.

(** The first of two copies when an insertion wraps: the count copied, the
    rest and the ring. *)
Definition first_copy (r : lws_ring) (src : bytes) (n : Z) : res fault (Z * Z * lws_ring) :=
  if u32 (head r + n) >? buflen r then
    let m := s32 (buflen r - head r) in
    b ← store (buf r) (head r) src m;
    Ok (m, n - m, set_head 0 (set_buf b r))
  else Ok (0, n, r).

(** The count inserted and the ring. *)
Definition lws_ring_insert (r : lws_ring) (src : bytes) (max_count : Z) : res fault (Z * lws_ring) :=
  let n := s32 (lws_ring_get_count_free_elements r * element_len r) in
  let n := if u32 n >? u64 (max_count * element_len r) then s32 (max_count * element_len r) else n in
  '(done, n, r) ← first_copy r src n;
  b ← store (buf r) (head r) (drop (Z.to_nat done) src) n;
  Ok ((done + n) / element_len r, set_head (u32 (head r + n) mod buflen r) (set_buf b r)).

(** The elements copied out, or skipped where [dest] is NULL: the count, the
    bytes stored at [dest], the caller's tail, the destroyed elements and the
    ring. *)
Definition lws_ring_consume (fuel : nat) (r : lws_ring) (tail : option Z) (dest : bool) (max_count : Z)
  : res fault (Z * bytes * option Z * list bytes * lws_ring) :=
  let t := tail_of r tail in
  let n := s32 (lws_ring_get_count_waiting_elements r (Some t) * element_len r) in
  let n := if u64 n >? u64 (max_count * element_len r) then s32 (max_count * element_len r) else n in
  let finish (t : Z) (out : bytes) (k : Z) :=
    match tail with
    | Some _ => Ok (k, out, Some t, [], r)
    | None => '(es, r) ← lws_ring_update_oldest_tail fuel r t; Ok (k, out, None, es, r)
    end in
  if negb dest then finish (u32 (t + n) mod buflen r) [] (n / element_len r)
  else
    '(out, t, n) ← (if u32 (t + n) >? buflen r then
        let m := s32 (buflen r - t) in
        o ← load (buf r) t m; Ok (o, 0, n - m)
      else Ok ([], t, n));
    o ← load (buf r) t n;
    finish (u32 (t + n) mod buflen r) (out ++ o) ((len out + n) / element_len r).

(** The element at the tail. *)
Definition lws_ring_get_element (r : lws_ring) (tail : option Z) : option Z :=
  let t := tail_of r tail in
  if t =? head r then None else Some t.

(** ** The stream a ring is a window of

    [s] are all bytes ever inserted, [o] how many of them every tail is past.
    Offsets are stream positions modulo the buffer length. *)
Record window (el count : Z) (r : lws_ring) (s : bytes) (o : Z) : Prop := {
  w_el : 0 < el; w_count : 0 < count; w_size : el * count < 2 ^ 31;
  w_buflen : buflen r = el * count; w_element_len : element_len r = el;
  w_buf : len (buf r) = el * count;
  w_head : head r = len s mod (el * count);
  w_tail : oldest_tail r = o mod (el * count);
  w_whole : (el | len s) /\ (el | o);
  w_range : 0 <= o <= len s /\ len s - o < el * count;
  w_data : forall i, o <= i < len s -> buf r !! Z.to_nat (i mod (el * count)) = s !! Z.to_nat i
}.

(** Bytes [a] to [b] of the stream. *)
Definition slice (s : bytes) (a b : Z) : bytes := take (Z.to_nat (b - a)) (drop (Z.to_nat a) s).

(** The elements of a stretch of whole elements. *)
Fixpoint elements (n : nat) (el : nat) (s : bytes) : list bytes :=
  match n with
  | O => []
  | S n => take el s :: elements n el (drop el s)
  end.

(** ** Arithmetic of offsets *)

Lemma mod_dist B H T :
  0 < B -> 0 <= T <= H -> H - T < B ->
  H - T = if H mod B =? T mod B then 0
          else if H mod B >? T mod B then H mod B - T mod B else B - T mod B + H mod B.
Proof.
  intros HB HT Hd. pose proof (Z.mod_pos_bound H B HB). pose proof (Z.mod_pos_bound T B HB).
  pose proof (Z.div_mod H B ltac:(lia)) as EH. pose proof (Z.div_mod T B ltac:(lia)) as ET.
  set (h := H mod B) in *. set (t := T mod B) in *. set (q := H / B) in *. set (p := T / B) in *.
  assert (-1 < q - p) by nia. assert (q - p < 2) by nia. rewrite Z.gtb_ltb.
  assert (q = p \/ q = p + 1) as [Hq|Hq] by lia; rewrite Hq in EH;
    destruct (Z.eqb_spec h t), (Z.ltb_spec t h); nia.
Qed.

Lemma mod_plus B H d :
  0 < B -> 0 <= d < B ->
  (H + d) mod B = if H mod B + d <? B then H mod B + d else H mod B + d - B.
Proof.
  intros HB Hd. pose proof (Z.mod_pos_bound H B HB). pose proof (Z.div_mod H B ltac:(lia)) as EH.
  destruct (Z.ltb_spec (H mod B + d) B).
  - symmetry. apply (Z.mod_unique _ _ (H / B)); lia.
  - symmetry. apply (Z.mod_unique _ _ (H / B + 1)); lia.
Qed.

(** Distinct positions of a stretch shorter than the buffer have distinct offsets. *)
Lemma mod_inj B i j : 0 < B -> i <= j < i + B -> i mod B = j mod B -> i = j.
Proof.
  intros HB Hij He. 
  pose proof (Z.div_mod i B ltac:(lia)). pose proof (Z.div_mod j B ltac:(lia)).
  assert (j - i = B * (j / B - i / B)) by lia.
  assert (j / B - i / B < 1) by nia. assert (-1 < j / B - i / B) by nia. nia.
Qed.

Lemma u32_mod_small B a : 0 < B < 2 ^ 31 -> 0 <= a < B + B -> u32 a mod B = a mod B.
Proof. intros. by rewrite u32_small by lia. Qed.

(** A byte count stored in an [int] and used as unsigned again. *)
Lemma int_of_u32 f : 0 <= f < 2 ^ 31 -> u32 (s32 (u32 f)) = f.
Proof. intros. rewrite (u32_small f), s32_small, u32_small by lia. done. Qed.

(** ** Copies *)

Lemma store_spec b off src n :
  0 <= n -> 0 <= off -> off + n <= len b -> n <= len src ->
  exists b', store b off src n = Ok b' /\ len b' = len b /\
    forall j : nat, b' !! j = if (off <=? Z.of_nat j) && (Z.of_nat j <? off + n)
                              then src !! Z.to_nat (Z.of_nat j - off) else b !! j.
Proof.
  intros Hn Ho Hb Hs. unfold store, len in *.
  destruct (Z.leb_spec 0 n), (Z.leb_spec 0 off), (Z.leb_spec (off + n) (Z.of_nat (length b))),
    (Z.leb_spec n (Z.of_nat (length src))); try lia. cbn [andb].
  eexists. split; [reflexivity|]. split.
  { rewrite !length_app, !length_take, length_drop. lia. }
  intros j. destruct (Z.leb_spec off (Z.of_nat j)).
  - rewrite lookup_app_r by (rewrite length_take; lia). rewrite length_take.
    destruct (Z.ltb_spec (Z.of_nat j) (off + n)); cbn [andb].
    + rewrite lookup_app_l by (rewrite length_take; lia). rewrite lookup_take_lt by lia. f_equal. lia.
    + rewrite lookup_app_r by (rewrite length_take; lia). rewrite length_take, lookup_drop. f_equal. lia.
  - cbn [andb]. rewrite lookup_app_l by (rewrite length_take; lia). by rewrite lookup_take_lt by lia.
Qed.

Lemma load_ok b off n : 0 <= n -> 0 <= off -> off + n <= len b -> load b off n = Ok (slice b off (off + n)).
Proof.
  intros Hn Ho Hb. unfold load, slice. destruct (Z.leb_spec 0 n), (Z.leb_spec 0 off),
    (Z.leb_spec (off + n) (len b)); try lia. cbn [andb]. do 3 f_equal. lia.
Qed.

Lemma slice_len s a b : 0 <= a <= b -> b <= len s -> len (slice s a b) = b - a.
Proof. intros. unfold slice, len in *. rewrite length_take, length_drop. lia. Qed.

Lemma slice_lookup s a b (j : nat) :
  0 <= a -> Z.of_nat j < b - a -> slice s a b !! j = s !! (Z.to_nat a + j)%nat.
Proof. intros. unfold slice. rewrite lookup_take_lt by lia. by rewrite lookup_drop. Qed.

Lemma slice_app s a b c : 0 <= a <= b -> b <= c -> slice s a b ++ slice s b c = slice s a c.
Proof.
  intros. unfold slice. replace (Z.to_nat (c - a)) with (Z.to_nat (b - a) + Z.to_nat (c - b))%nat by lia.
  rewrite <- take_take_drop, drop_drop. do 3 f_equal. lia.
Qed.

(** ** Counting *)

Lemma waiting_spec el count r s o T :
  window el count r s o -> o <= T <= len s ->
  lws_ring_get_count_waiting_elements r (Some (T mod (el * count))) = (len s - T) / el.
Proof.
  intros [] HT. unfold lws_ring_get_count_waiting_elements. cbn [tail_of]. rewrite w_head0, w_buflen0, w_element_len0.
  pose proof (Z.mod_pos_bound (len s) (el * count) ltac:(lia)).
  pose proof (Z.mod_pos_bound T (el * count) ltac:(lia)).
  pose proof (mod_dist (el * count) (len s) T ltac:(lia) ltac:(lia) ltac:(lia)) as Hd.
  destruct (Z.eqb_spec (len s mod (el * count)) (T mod (el * count))); [by rewrite Hd|].
  rewrite Z.gtb_ltb in *. destruct (Z.ltb_spec (T mod (el * count)) (len s mod (el * count))).
  - rewrite int_of_u32 by lia. by rewrite Hd.
  - rewrite (u32_small (el * count - _)) by lia. rewrite int_of_u32 by lia. by rewrite Hd.
Qed.

(** The room of a ring in elements. *)
Definition room (el count used : Z) : Z :=
  let f := el * count - el - used in if f <? 2 then 0 else f / el.

Lemma free_spec el count r s o :
  window el count r s o -> lws_ring_get_count_free_elements r = room el count (len s - o).
Proof.
  intros []. unfold lws_ring_get_count_free_elements, room. rewrite w_head0, w_tail0, w_buflen0, w_element_len0.
  pose proof (Z.mod_pos_bound (len s) (el * count) ltac:(lia)).
  pose proof (Z.mod_pos_bound o (el * count) ltac:(lia)).
  pose proof (mod_dist (el * count) (len s) o ltac:(lia) ltac:(lia) ltac:(lia)) as Hd.
  destruct w_whole0 as [[a Ha] [b Hb]].
  assert (0 <= el * count - el - (len s - o)) as Hge.
  { rewrite Ha, Hb in *. assert ((a - b) < count) by nia. nia. }
  assert (forall f, f = el * count - el - (len s - o) ->
    (if s32 (u32 f) <? 2 then 0 else u32 (s32 (u32 f)) / el) =
    (if el * count - el - (len s - o) <? 2 then 0 else (el * count - el - (len s - o)) / el)) as Hf.
  { intros f ->. rewrite int_of_u32 by lia. by rewrite (u32_small (el * count - el - (len s - o))), s32_small by lia. }
  rewrite Z.gtb_ltb in Hd.
  destruct (Z.eqb_spec (len s mod (el * count)) (o mod (el * count))); [apply Hf; lia|].
  destruct (Z.ltb_spec (len s mod (el * count)) (o mod (el * count))),
    (Z.ltb_spec (o mod (el * count)) (len s mod (el * count))); try lia.
  - rewrite (u32_small (o mod _ - _)) by lia. apply Hf. lia.
  - rewrite (u32_small (el * count - _)) by lia. rewrite (u32_small (el * count - _ + _)) by lia. apply Hf. lia.
Qed.

(** ** Insertion *)

(** The copies write bytes [0..n) of [src] at consecutive offsets modulo the
    length, and nothing else. *)
Lemma copies_spec B r src n H :
  0 < B < 2 ^ 31 -> buflen r = B -> len (buf r) = B -> head r = H mod B ->
  0 <= n < B -> n <= len src ->
  exists dn n' r1 b, first_copy r src n = Ok (dn, n', r1) /\
    store (buf r1) (head r1) (drop (Z.to_nat dn) src) n' = Ok b /\
    dn + n' = n /\ u32 (head r1 + n') mod B = (H + n) mod B /\ len b = B /\
    (exists b1, r1 = set_head (head r1) (set_buf b1 r)) /\
    (forall e, 0 <= e < n -> b !! Z.to_nat ((H + e) mod B) = src !! Z.to_nat e) /\
    (forall p, 0 <= p < B -> (forall e, 0 <= e < n -> (H + e) mod B <> p) ->
       b !! Z.to_nat p = buf r !! Z.to_nat p).
Proof.
  intros HB Hbl Hlen Hh Hn Hsrc. pose proof (Z.mod_pos_bound H B ltac:(lia)) as Hhb. rewrite <- Hh in Hhb.
  assert (forall e, 0 <= e < n -> (H + e) mod B = if head r + e <? B then head r + e else head r + e - B) as Hpos.
  { intros e He. rewrite mod_plus by lia. by rewrite Hh. }
  unfold first_copy. rewrite Hbl, Z.gtb_ltb, (u32_small (head r + n)) by lia.
  destruct (Z.ltb_spec B (head r + n)) as [Hw|Hw].
  - rewrite (s32_small (B - head r)) by lia.
    destruct (store_spec (buf r) (head r) src (B - head r)) as (b1 & Hs1 & Hl1 & Hb1); [lia..|].
    rewrite Hs1. cbn [mbind res_bind].
    destruct (store_spec b1 0 (drop (Z.to_nat (B - head r)) src) (n - (B - head r))) as (b & Hs & Hl & Hb);
      [lia..|lia|unfold len in *; rewrite length_drop; lia|].
    eexists (B - head r), (n - (B - head r)), _, b. split; [reflexivity|]. cbn [set_head set_buf head buf].
    split_and!; [done|lia| |lia|by exists b1| |].
    + rewrite u32_small by lia. symmetry. rewrite mod_plus by lia. rewrite <- Hh, Z.mod_small by lia.
      destruct (Z.ltb_spec (head r + n) B); lia.
    + intros e He. rewrite Hpos by done. rewrite Hb, Hb1.
      destruct (Z.ltb_spec (head r + e) B).
      * rewrite !Z2Nat.id by lia. destruct (Z.leb_spec 0 (head r + e)); [|lia].
        destruct (Z.ltb_spec (head r + e) (0 + (n - (B - head r)))); [lia|]. cbn [andb].
        destruct (Z.leb_spec (head r) (head r + e)); [|lia].
        destruct (Z.ltb_spec (head r + e) (head r + (B - head r))); [|lia]. cbn [andb]. f_equal. lia.
      * rewrite !Z2Nat.id by lia. destruct (Z.leb_spec 0 (head r + e - B)); [|lia].
        destruct (Z.ltb_spec (head r + e - B) (0 + (n - (B - head r)))); [|lia]. cbn [andb].
        rewrite lookup_drop. f_equal. lia.
    + intros p Hp Hne. rewrite Hb, Hb1, !Z2Nat.id by lia. destruct (Z.leb_spec 0 p); [|lia].
      destruct (Z.ltb_spec p (0 + (n - (B - head r)))).
      { exfalso. apply (Hne (p + (B - head r))); [lia|]. rewrite Hpos by lia.
        destruct (Z.ltb_spec (head r + (p + (B - head r))) B); lia. }
      cbn [andb]. destruct (Z.leb_spec (head r) p); [|done].
      exfalso. apply (Hne (p - head r)); [lia|]. rewrite Hpos by lia.
      destruct (Z.ltb_spec (head r + (p - head r)) B); lia.
  - cbn [mbind res_bind].
    destruct (store_spec (buf r) (head r) (drop (Z.to_nat 0) src) n) as (b & Hs & Hl & Hb);
      [lia..|change (drop (Z.to_nat 0) src) with src; lia|].
    eexists 0, n, r, b. split; [reflexivity|].
    split_and!; [done|lia| |lia|exists (buf r); by destruct r| |].
    + rewrite u32_small by lia. rewrite Hh. apply Zplus_mod_idemp_l.
    + intros e He. rewrite Hpos by done. destruct (Z.ltb_spec (head r + e) B); [|lia].
      rewrite Hb, Z2Nat.id by lia. destruct (Z.leb_spec (head r) (head r + e)); [|lia].
      destruct (Z.ltb_spec (head r + e) (head r + n)); [|lia]. cbn [andb].
      change (drop (Z.to_nat 0) src) with src. f_equal. lia.
    + intros p Hp Hne. rewrite Hb, Z2Nat.id by lia. destruct (Z.leb_spec (head r) p); [|done].
      destruct (Z.ltb_spec p (head r + n)); [|done].
      exfalso. apply (Hne (p - head r)); [lia|]. rewrite Hpos by lia.
      destruct (Z.ltb_spec (head r + (p - head r)) B); lia.
Qed.

Lemma room_bound el count used :
  0 < el -> 0 <= used -> 0 <= room el count used /\ (0 < room el count used -> used + room el count used * el + el <= el * count).
Proof.
  intros Hel Hu. unfold room. destruct (Z.ltb_spec (el * count - el - used) 2); [lia|].
  pose proof (Z.div_mod (el * count - el - used) el ltac:(lia)).
  pose proof (Z.mod_pos_bound (el * count - el - used) el Hel).
  split; [apply Z.div_pos; lia|]. intros. lia.
Qed.

(** How many bytes [lws_ring_insert] takes. *)
Lemma insert_amount el count r s o max_count :
  window el count r s o -> 0 <= max_count -> max_count * el < 2 ^ 63 ->
  let n := s32 (lws_ring_get_count_free_elements r * element_len r) in
  (if u32 n >? u64 (max_count * element_len r) then s32 (max_count * element_len r) else n)
  = Z.min max_count (room el count (len s - o)) * el.
Proof.
  intros Hw Hm Hml n. pose proof (free_spec _ _ _ _ _ Hw) as Hf. destruct Hw. unfold n.
  rewrite Hf, w_element_len0. set (k := room el count (len s - o)).
  destruct (room_bound el count (len s - o) ltac:(lia) ltac:(lia)) as [Hk Hk']. fold k in Hk, Hk'.
  assert (0 <= k * el < 2 ^ 31) as Hkb.
  { destruct (decide (k = 0)) as [->|]; [lia|]. specialize (Hk' ltac:(lia)). nia. }
  rewrite (s32_small (k * el)) by lia. rewrite u32_small by lia. unfold u64. rewrite Z.mod_small by nia.
  rewrite Z.gtb_ltb. destruct (Z.ltb_spec (max_count * el) (k * el)).
  - rewrite s32_small by nia. rewrite Z.min_l by nia. done.
  - rewrite Z.min_r by nia. done.
Qed.

Lemma insert_spec el count r s o src max_count :
  window el count r s o -> 0 <= max_count -> max_count * el <= len src -> len src < 2 ^ 63 ->
  let k := Z.min max_count (room el count (len s - o)) in
  exists r', lws_ring_insert r src max_count = Ok (k, r') /\
    window el count r' (s ++ take (Z.to_nat (k * el)) src) o /\
    destroy_element r' = destroy_element r.
Proof.
  intros Hw Hm Hml Hl k. unfold lws_ring_insert.
  rewrite (insert_amount _ _ _ _ _ max_count Hw Hm ltac:(lia)). fold k.
  pose proof Hw as []. set (B := el * count) in *.
  destruct (room_bound el count (len s - o) ltac:(lia) ltac:(lia)) as [Hk Hk']. fold B in Hk'.
  assert (0 <= k) as Hk0 by lia.
  assert (0 <= k * el /\ k * el <= len src /\ (0 < k -> len s - o + k * el + el <= B)) as (Hn0 & Hnl & Hnb).
  { split; [nia|]. split; [nia|]. intros. nia. }
  assert (k * el < B) by (destruct (decide (k = 0)) as [->|]; [unfold B; nia|specialize (Hnb ltac:(lia)); lia]).
  destruct (copies_spec B r src (k * el) (len s)) as (dn & n' & r1 & b & -> & Hst & Hsum & Hhd & Hlb & [b1 Hr1] & HA & HB);
    [lia|done..|lia|lia|]. cbn [mbind res_bind]. rewrite Hst. cbn [mbind res_bind].
  rewrite Hr1. cbn [set_head set_buf buf head buflen element_len destroy_element oldest_tail].
  rewrite w_element_len0, w_buflen0. fold B. rewrite Hhd, Hsum, Z.div_mul by lia.
  eexists. split; [reflexivity|]. split; [|done]. set (d := take (Z.to_nat (k * el)) src).
  assert (len d = k * el) as Hd by (unfold d, len in *; rewrite length_take; lia).
  assert (len (s ++ d) = len s + k * el) as Hsd by (rewrite len_app; lia).
  split; cbn [buf head buflen element_len oldest_tail]; try done.
  - by rewrite Hsd.
  - destruct w_whole0 as [[x Hx] Hy]. split; [|done]. rewrite Hsd. exists (x + k). lia.
  - rewrite Hsd. split; [lia|]. fold B. destruct (decide (k = 0)) as [->|]; [lia|]. specialize (Hnb ltac:(lia)). lia.
  - fold B. intros i Hi. rewrite Hsd in Hi. destruct (decide (i < len s)) as [Hlt|Hge].
    + rewrite HB; [|apply Z.mod_pos_bound; lia|].
      * rewrite lookup_app_l by (unfold len in *; lia). apply w_data0. lia.
      * intros e He Heq. symmetry in Heq. assert (0 < k) by nia. specialize (Hnb ltac:(lia)).
        apply mod_inj in Heq; lia.
    + replace i with (len s + (i - len s)) at 1 by lia. rewrite HA by lia.
      rewrite lookup_app_r by (unfold len in *; lia). unfold d. rewrite lookup_take_lt by (unfold len in *; lia).
      f_equal. unfold len in *. lia.
Qed.

(** ** Consumption *)

Lemma window_load el count r s o a n :
  window el count r s o -> o <= a -> 0 <= n -> a + n <= len s -> a mod (el * count) + n <= el * count ->
  load (buf r) (a mod (el * count)) n = Ok (slice s a (a + n)).
Proof.
  intros [] Ha Hn Hs Hfit. set (B := el * count) in *. pose proof (Z.mod_pos_bound a B ltac:(lia)).
  rewrite load_ok by lia. f_equal. apply list_eq. intros j.
  destruct (decide (Z.of_nat j < n)) as [Hj|Hj].
  - rewrite !slice_lookup by lia.
    replace (Z.to_nat (a mod B) + j)%nat with (Z.to_nat ((a + Z.of_nat j) mod B)).
    + rewrite w_data0 by lia. f_equal. lia.
    + rewrite mod_plus by lia. destruct (Z.ltb_spec (a mod B + Z.of_nat j) B); lia.
  - pose proof (slice_len (buf r) (a mod B) (a mod B + n) ltac:(lia) ltac:(lia)).
    pose proof (slice_len s a (a + n) ltac:(lia) ltac:(lia)). unfold len in *.
    rewrite !lookup_ge_None_2 by lia. done.
Qed.

(** A whole element never wraps. *)
Lemma element_fits el count a : 0 < el -> 0 < count -> (el | a) -> a mod (el * count) + el <= el * count.
Proof.
  intros Hel Hc [x ->]. rewrite (Z.mul_comm x el), Zmult_mod_distr_l.
  pose proof (Z.mod_pos_bound x count Hc). nia.
Qed.

Lemma window_advance el count r s o n :
  window el count r s o -> 0 <= n -> (el | n) -> o + n <= len s ->
  window el count (set_oldest ((o + n) mod (el * count)) r) s (o + n).
Proof.
  intros [] Hn Hd Hle. split; cbn [set_oldest buf buflen element_len head oldest_tail]; try done.
  - destruct w_whole0. split; [done|]. by apply Z.divide_add_r.
  - lia.
  - intros i Hi. apply w_data0. lia.
Qed.

Lemma elements_slice k el s o :
  0 < el -> 0 <= o ->
  slice s o (o + el) :: elements k (Z.to_nat el) (slice s (o + el) (o + el + Z.of_nat k * el))
  = elements (S k) (Z.to_nat el) (slice s o (o + Z.of_nat (S k) * el)).
Proof.
  intros Hel Ho. cbn [elements]. unfold slice. f_equal.
  - rewrite take_take. f_equal. nia.
  - rewrite skipn_firstn_comm, drop_drop. repeat f_equal; nia.
Qed.

Lemma retire_spec el count k fuel r s o :
  window el count r s o -> o + Z.of_nat k * el <= len s -> (k <= fuel)%nat ->
  exists r', retire fuel r ((o + Z.of_nat k * el) mod (el * count)) =
      Ok (elements k (Z.to_nat el) (slice s o (o + Z.of_nat k * el)), r') /\
    r' = set_oldest ((o + Z.of_nat k * el) mod (el * count)) r /\
    window el count r' s (o + Z.of_nat k * el).
Proof.
  revert fuel r o. induction k as [|k IH]; intros fuel r o Hw Hle Hf.
  - pose proof (w_tail _ _ _ _ _ Hw) as Ht. rewrite Z.mul_0_l, Z.add_0_r. exists r.
    assert (set_oldest (o mod (el * count)) r = r) as ->.
    { rewrite <- Ht. by destruct r. }
    split_and!; [|done..]. destruct fuel; simpl; by rewrite Ht, Z.eqb_refl.
  - pose proof Hw as []. destruct fuel as [|fuel]; [lia|]. cbn [retire].
    assert (oldest_tail r <> (o + Z.of_nat (S k) * el) mod (el * count)) as Hne.
    { rewrite w_tail0. intros Heq%mod_inj; nia. }
    destruct (Z.eqb_spec (oldest_tail r) ((o + Z.of_nat (S k) * el) mod (el * count))); [done|].
    rewrite w_tail0, w_element_len0, w_buflen0.
    pose proof (element_fits el count o w_el0 w_count0 (proj2 w_whole0)) as Hfit.
    rewrite (window_load _ _ _ _ _ o el Hw) by nia. cbn [mbind res_bind].
    rewrite u32_mod_small, Zplus_mod_idemp_l; [|lia|pose proof (Z.mod_pos_bound o (el * count)); lia].
    pose proof (window_advance _ _ _ _ _ el Hw ltac:(lia) (Z.divide_refl _) ltac:(nia)) as Hw1.
    destruct (IH fuel _ _ Hw1) as (r' & Hr & Hr' & Hw'); [nia|lia|].
    replace (o + Z.of_nat (S k) * el) with (o + el + Z.of_nat k * el) by lia.
    rewrite Hr. cbn [mbind res_bind]. exists r'. split_and!; [|by rewrite Hr'|done].
    rewrite elements_slice by lia. by replace (o + Z.of_nat (S k) * el) with (o + el + Z.of_nat k * el) by lia.
Qed.

(** Moving the oldest tail on destroys exactly the elements it passes. *)
Lemma update_oldest_spec el count k fuel r s o :
  window el count r s o -> o + Z.of_nat k * el <= len s -> (k <= fuel)%nat ->
  exists r', lws_ring_update_oldest_tail fuel r ((o + Z.of_nat k * el) mod (el * count)) =
      Ok (if destroy_element r then elements k (Z.to_nat el) (slice s o (o + Z.of_nat k * el)) else [], r') /\
    r' = set_oldest ((o + Z.of_nat k * el) mod (el * count)) r /\
    window el count r' s (o + Z.of_nat k * el).
Proof.
  intros Hw Hle Hf. unfold lws_ring_update_oldest_tail. destruct (destroy_element r); cbn [negb].
  - by apply retire_spec.
  - eexists. split_and!; [reflexivity..|]. apply window_advance; [done|pose proof (w_el _ _ _ _ _ Hw); nia| |done].
    apply Z.divide_factor_r.
Qed.

Lemma consume_spec el count fuel r s o tail T dest max_count :
  window el count r s o -> o <= T <= len s -> (el | T) ->
  tail_of r tail = T mod (el * count) -> (tail = None -> T = o) ->
  0 <= max_count -> max_count * el < 2 ^ 63 ->
  let k := Z.min max_count ((len s - T) / el) in (Z.to_nat k <= fuel)%nat ->
  exists es r', lws_ring_consume fuel r tail dest max_count =
      Ok (k, if dest then slice s T (T + k * el) else [],
          (fun _ => (T + k * el) mod (el * count)) <$> tail, es, r') /\
    match tail with
    | Some _ => es = [] /\ r' = r
    | None => es = (if destroy_element r
                    then elements (Z.to_nat k) (Z.to_nat el) (slice s o (o + k * el)) else []) /\
              window el count r' s (o + k * el) /\ destroy_element r' = destroy_element r
    end.
Proof.
  intros Hw HT HTd Htail Hnone Hm Hml k Hf. pose proof Hw as []. unfold lws_ring_consume.
  rewrite Htail, (waiting_spec _ _ _ _ _ T Hw HT), w_element_len0, w_buflen0.
  set (B := el * count) in *.
  assert (0 <= (len s - T) / el) as Hq by (apply Z.div_pos; lia).
  assert ((len s - T) / el * el = len s - T) as Hmul.
  { assert (el | len s - T) as [y Hy] by (apply Z.divide_sub_r; tauto). rewrite Hy, Z.div_mul by lia. done. }
  rewrite Hmul. rewrite (s32_small (len s - T)) by lia.
  assert ((if u64 (len s - T) >? u64 (max_count * el) then s32 (max_count * el) else len s - T) = k * el) as ->.
  { rewrite !u64_small by nia. rewrite Z.gtb_ltb. unfold k. destruct (Z.ltb_spec (max_count * el) (len s - T)).
    - rewrite s32_small by nia. rewrite Z.min_l by nia. done.
    - rewrite Z.min_r by nia. done. }
  assert (0 <= k) as Hk by lia. assert (k * el <= len s - T) as Hkl by nia.
  pose proof (Z.mod_pos_bound T B ltac:(lia)) as HTb.
  assert (forall t out c, t = (T + k * el) mod B -> c = k ->
    out = (if dest then slice s T (T + k * el) else []) ->
    exists es r', match tail with
      | Some _ => Ok (c, out, Some t, [], r)
      | None => '(es, r) ← lws_ring_update_oldest_tail fuel r t; Ok (c, out, None, es, r)
      end = Ok (k, if dest then slice s T (T + k * el) else [], (fun _ => (T + k * el) mod B) <$> tail, es, r') /\
      match tail with
      | Some _ => es = [] /\ r' = r
      | None => es = (if destroy_element r
                    then elements (Z.to_nat k) (Z.to_nat el) (slice s o (o + k * el)) else []) /\
                window el count r' s (o + k * el) /\ destroy_element r' = destroy_element r
      end) as Hfin.
  { intros t out c -> -> ->. destruct tail as [t0|]; [by eexists _, _|].
    specialize (Hnone eq_refl) as ->.
    destruct (update_oldest_spec el count (Z.to_nat k) fuel r s o Hw) as (r' & Hr & Hr' & Hw'); [nia|done|].
    rewrite Z2Nat.id in Hr, Hw' by lia. fold B in Hr. rewrite Hr. eexists _, _. split_and!; [done..|]. by rewrite Hr'. }
  assert (u32 (T mod B + k * el) mod B = (T + k * el) mod B) as Hmod.
  { rewrite u32_small by lia. apply Zplus_mod_idemp_l. }
  destruct dest; cbn [negb]; [|apply Hfin; [done|by rewrite Z.div_mul by lia|done]].
  rewrite Z.gtb_ltb, u32_small by lia. destruct (Z.ltb_spec B (T mod B + k * el)) as [Hwr|Hwr].
  - rewrite (s32_small (B - T mod B)) by lia.
    unfold B at 1. rewrite (window_load _ _ _ _ _ T _ Hw) by (fold B; lia). cbn [mbind res_bind]. fold B.
    assert ((T + (B - T mod B)) mod B = 0) as Hz.
    { pose proof (Z.div_mod T B ltac:(lia)). symmetry. apply (Z.mod_unique _ _ (T / B + 1)); lia. }
    pose proof (window_load _ _ _ _ _ (T + (B - T mod B)) (k * el - (B - T mod B)) Hw) as Hld.
    fold B in Hld. rewrite Hz in Hld. rewrite Hld by lia.
    cbn [mbind res_bind]. apply Hfin.
    + rewrite Z.add_0_l, u32_small by lia. rewrite <- Hmod, u32_small by lia.
      replace (T mod B + k * el) with (k * el - (B - T mod B) + 1 * B) by lia. by rewrite Z.mod_add by lia.
    + rewrite slice_len by lia. replace (_ + _) with (k * el) by lia. apply Z.div_mul. lia.
    + rewrite slice_app by lia. f_equal. lia.
  - cbn [mbind res_bind]. pose proof (window_load _ _ _ _ _ T (k * el) Hw) as Hld. fold B in Hld.
    rewrite Hld by lia. cbn [mbind res_bind]. apply Hfin; [done| |done]. rewrite len_nil, Z.add_0_l. by rewrite Z.div_mul by lia.
Qed.

(** ** A producer and a consumer *)

Inductive rop := Insert (src : bytes) (max_count : Z) | Consume (max_count : Z).

(** The bytes inserted, the bytes copied out and the elements destroyed. *)
Fixpoint run (fuel : nat) (r : lws_ring) (ops : list rop)
  : res fault (bytes * bytes * list bytes * lws_ring) :=
  match ops with
  | [] => Ok ([], [], [], r)
  | Insert src max_count :: ops =>
    '(k, r') ← lws_ring_insert r src max_count;
    '(ins, outs, es, r'') ← run fuel r' ops;
    Ok (take (Z.to_nat (k * element_len r)) src ++ ins, outs, es, r'')
  | Consume max_count :: ops =>
    '(k, out, _, es1, r') ← lws_ring_consume fuel r None true max_count;
    '(ins, outs, es, r'') ← run fuel r' ops;
    Ok (ins, out ++ outs, es1 ++ es, r'')
  end.

(** What the caller of an operation has to provide. *)
Definition rop_ok (el : Z) (a : rop) : Prop :=
  match a with
  | Insert src m => 0 <= m /\ m * el <= len src /\ len src < 2 ^ 63
  | Consume m => 0 <= m /\ m * el < 2 ^ 63
  end.

#[global] Instance rop_ok_dec el a : Decision (rop_ok el a).
Proof. destruct a; apply _. Defined.

Lemma slice_app_l s t a b : 0 <= a <= b -> b <= len s -> slice (s ++ t) a b = slice s a b.
Proof.
  intros Ha Hb. unfold slice, len in *. rewrite drop_app_le by lia. by rewrite take_app_le by (rewrite length_drop; lia).
Qed.

Lemma concat_elements k el (s : bytes) : length s = (k * el)%nat -> concat (elements k el s) = s.
Proof.
  revert s. induction k as [|k IH]; intros s Hs; simpl in *.
  - symmetry. by apply length_zero_iff_nil.
  - rewrite IH by (rewrite length_drop; lia). apply take_drop.
Qed.

Lemma create_window el count destroy mem :
  0 < el -> 0 < count -> el * count < 2 ^ 31 -> len mem = el * count ->
  exists r, lws_ring_create el count destroy true (Some mem) = Some r /\
    window el count r [] 0 /\ destroy_element r = destroy.
Proof.
  intros Hel Hc HB Hm. unfold lws_ring_create. cbn [negb]. eexists. split; [reflexivity|]. split; [|done].
  split; cbn [buf buflen element_len head oldest_tail]; rewrite ?len_nil; try done.
  - rewrite u32_small; lia.
  - rewrite u32_small; nia.
  - split; apply Z.divide_0_r.
  - lia.
  - lia.
Qed.

Lemma run_spec el count fuel ops r s o :
  window el count r s o -> Forall (rop_ok el) ops -> (Z.to_nat count <= fuel)%nat ->
  exists ins outs es r' o', run fuel r ops = Ok (ins, outs, es, r') /\
    window el count r' (s ++ ins) o' /\ o <= o' /\ outs = slice (s ++ ins) o o' /\
    destroy_element r' = destroy_element r /\
    concat es = if destroy_element r then outs else [].
Proof.
  intros Hw Hops Hf. revert r s o Hw. induction Hops as [|a ops Ha Hops IH]; intros r s o Hw.
  - exists [], [], [], r, o. rewrite app_nil_r. split_and!; try done; [|by destruct (destroy_element r)].
    unfold slice. by rewrite Z.sub_diag.
  - destruct a as [src m|m]; cbn [run].
    + destruct Ha as (Hm & Hml & Hl).
      destruct (insert_spec _ _ _ _ _ src m Hw Hm Hml Hl) as (r1 & Hr & Hw1 & Hd1). rewrite Hr. cbn [mbind res_bind].
      destruct (IH _ _ _ Hw1) as (ins & outs & es & r' & o' & -> & Hw' & Ho & Ho' & Hd & Hes). cbn [mbind res_bind].
      rewrite <- app_assoc in Hw', Ho'. rewrite (w_element_len _ _ _ _ _ Hw).
      eexists _, outs, es, r', o'. split_and!; [reflexivity|done..|congruence|by rewrite <- Hd1].
    + destruct Ha as (Hm & Hml). pose proof Hw as [].
      assert ((len s - o) / el <= count) as Hq.
      { apply Z.div_le_upper_bound; lia. }
      destruct (consume_spec el count fuel r s o None o true m Hw ltac:(lia) (proj2 w_whole0) w_tail0
        (fun _ => eq_refl) Hm Hml ltac:(lia)) as (es1 & r1 & Hr & Hes1 & Hw1 & Hd1).
      rewrite Hr. cbn [mbind res_bind].
      set (k := Z.min m ((len s - o) / el)) in *.
      assert (0 <= (len s - o) / el) by (apply Z.div_pos; lia).
      assert (0 <= k /\ k * el <= len s - o) as [Hk Hkl].
      { split; [lia|]. pose proof (Z.mul_div_le (len s - o) el ltac:(lia)). nia. }
      destruct (IH _ _ _ Hw1) as (ins & outs & es & r' & o' & -> & Hw' & Ho & Ho' & Hd & Hes). cbn [mbind res_bind].
      eexists _, _, _, r', o'. split_and!; [reflexivity|done|nia| |congruence|].
      * rewrite Ho', <- (slice_app_l s ins) by nia. apply slice_app; nia.
      * rewrite concat_app, Hes, Hes1, Hd1. destruct (destroy_element r); [|done]. f_equal.
        apply concat_elements. pose proof (slice_len s o (o + k * el) ltac:(nia) ltac:(lia)).
        unfold len in *. nia.
Qed.

End Ring.

Import Ring.

(** C25: a ring is a bounded FIFO.  On a ring created for [count] elements, any
    sequence of insertions and consumptions, wherever they wrap, never accesses
    memory outside the buffer or the source and never loops; the bytes copied
    out are exactly the first bytes inserted, in order, the rest is what still
    waits, at most [count - 1] elements, and the elements handed to the destroy
    callback are exactly the consumed ones.  An insertion takes as many elements
    as fit, except that a last free one-byte element is refused. *)
Theorem ring_fifo (el count : Z) (destroy : bool) (mem : bytes) (ops : list rop) (fuel : nat)
    (Hel : 0 < el) (Hcount : 0 < count) (Hsize : el * count < 2 ^ 31) (Hmem : len mem = el * count)
    (Hops : Forall (rop_ok el) ops) (Hfuel : (Z.to_nat count <= fuel)%nat) :
  exists r ins outs es r' rest,
    lws_ring_create el count destroy true (Some mem) = Some r /\
    run fuel r ops = Ok (ins, outs, es, r') /\
    ins = outs ++ rest /\ len rest <= (count - 1) * el /\
    lws_ring_get_count_waiting_elements r' None = len rest / el /\
    concat es = (if destroy then outs else []) /\
    (lws_ring_get_count_free_elements r' =
      if (el =? 1) && (len rest =? count - 2) then 0 else count - 1 - len rest / el) /\
    (destroy = true -> exists last_es, lws_ring_destroy fuel r' = Ok last_es /\ concat last_es = rest).
Proof.
  destruct (create_window el count destroy mem Hel Hcount Hsize Hmem) as (r & Hr & Hw & Hd).
  destruct (run_spec el count fuel ops r [] 0 Hw Hops Hfuel)
    as (ins & outs & es & r' & o' & Hrun & Hw' & Ho & Hout & Hd' & Hes). cbn [app] in *.
  exists r, ins, outs, es, r', (slice ins o' (len ins)). pose proof Hw' as [].
  assert (len (slice ins o' (len ins)) = len ins - o') as Hrest by (apply slice_len; lia).
  assert (el | len ins - o') as [y Hy] by (apply Z.divide_sub_r; tauto).
  assert (0 <= y < count) as Hyb by nia. rewrite Hrest.
  split_and!; [done|done| |nia| |by rewrite Hes, Hd| |].
  - rewrite Hout, slice_app by lia. unfold slice, len.
    change (drop (Z.to_nat 0) ins) with ins. rewrite take_ge; [done|]. lia.
  - rewrite <- (waiting_spec el count r' ins o' o' Hw') by lia.
    unfold lws_ring_get_count_waiting_elements. cbn [tail_of]. by rewrite w_tail0.
  - rewrite (free_spec _ _ _ _ _ Hw'). unfold room. rewrite Hy, Z.div_mul by lia.
    replace (el * count - el - y * el) with ((count - 1 - y) * el) by lia.
    rewrite Z.div_mul by lia. destruct (Z.ltb_spec ((count - 1 - y) * el) 2).
    + destruct (Z.eqb_spec el 1), (Z.eqb_spec (y * el) (count - 2)); cbn [andb]; nia.
    + destruct (Z.eqb_spec el 1), (Z.eqb_spec (y * el) (count - 2)); cbn [andb]; nia.
  - intros ->. unfold lws_ring_destroy. rewrite Hd', Hd.
    destruct (retire_spec el count (Z.to_nat y) fuel r' ins o' Hw') as (r2 & Hret & _); [lia|lia|].
    replace (o' + Z.of_nat (Z.to_nat y) * el) with (len ins) in Hret by lia.
    rewrite <- w_head0 in Hret. rewrite Hret. cbn [mbind res_bind]. eexists. split; [done|].
    apply concat_elements. unfold len in *. nia.
Qed.

Lemma ring_fifo_witness :
  exists r ins outs es r' rest,
    lws_ring_create 2 3 true true (Some [0; 0; 0; 0; 0; 0]) = Some r /\
    run 3 r [Insert [1; 2; 3; 4; 5; 6] 3; Consume 1; Insert [7; 8] 1; Consume 5] = Ok (ins, outs, es, r') /\
    ins = outs ++ rest.
Proof.
  destruct (ring_fifo 2 3 true [0; 0; 0; 0; 0; 0]
    [Insert [1; 2; 3; 4; 5; 6] 3; Consume 1; Insert [7; 8] 1; Consume 5] 3)
    as (r & ins & outs & es & r' & rest & H1 & H2 & H3 & _).
  1-3: lia.
  - reflexivity.
  - apply (bool_decide_unpack _). vm_compute. exact I.
  - vm_compute. lia.
  - exists r, ins, outs, es, r', rest. split_and!; assumption.
Defined.

(** Several consumers.  A consumer with its own tail [T] in the stream gets
    the next elements from its position, as many as wait and it asked for, with
    or without copying, its tail moves past them and the ring is unchanged;
    moving the oldest tail on to the slowest consumer keeps the ring a window of
    the same stream and destroys exactly the elements it passes, in order. *)
Theorem ring_tails (el count : Z) (fuel : nat) (r : lws_ring) (s : bytes) (o T max_count : Z) (dest : bool)
    (slow : nat)
    (Hw : window el count r s o) (HT : o <= T <= len s) (Hwhole : (el | T))
    (Hmax : 0 <= max_count) (Hlim : max_count * el < 2 ^ 63)
    (Hslow : o + Z.of_nat slow * el <= T) (Hfuel : (Z.to_nat count <= fuel)%nat) :
  let k := Z.min max_count ((len s - T) / el) in
  lws_ring_consume fuel r (Some (T mod (el * count))) dest max_count =
    Ok (k, if dest then slice s T (T + k * el) else [], Some ((T + k * el) mod (el * count)), [], r) /\
  (lws_ring_get_element r (Some (T mod (el * count))) = None <-> T = len s) /\
  exists r', lws_ring_update_oldest_tail fuel r ((o + Z.of_nat slow * el) mod (el * count)) =
      Ok (if destroy_element r then elements slow (Z.to_nat el) (slice s o (o + Z.of_nat slow * el)) else [], r') /\
    window el count r' s (o + Z.of_nat slow * el).
Proof.
  intros k. pose proof Hw as [].
  assert (forall x, x <= count -> (Z.to_nat x <= fuel)%nat) as Hle by lia. split_and!.
  - destruct (consume_spec el count fuel r s o (Some (T mod (el * count))) T dest max_count Hw HT Hwhole
      eq_refl ltac:(done) Hmax Hlim) as (es & r' & Hr & -> & ->); [|exact Hr].
    apply Hle. assert ((len s - T) / el <= count) by (apply Z.div_le_upper_bound; lia). lia.
  - unfold lws_ring_get_element. cbn [tail_of]. rewrite w_head0.
    destruct (Z.eqb_spec (T mod (el * count)) (len s mod (el * count))) as [Heq|Hne].
    + apply mod_inj in Heq; [|lia|lia]. done.
    + split; [done|]. intros ->. done.
  - destruct (update_oldest_spec el count slow fuel r s o Hw) as (r' & Hr & _ & Hw'); [lia|nia|eauto].
Qed.

Lemma ring_tails_witness :
  exists r', lws_ring_insert (mk_ring [0; 0; 0; 0; 0; 0] false 6 2 0 0) [1; 2; 3; 4] 2 = Ok (2, r') /\
    lws_ring_consume 3 r' (Some 2) true 5 = Ok (1, [3; 4], Some 4, [], r').
Proof.
  destruct (insert_spec 2 3 (mk_ring [0; 0; 0; 0; 0; 0] false 6 2 0 0) [] 0 [1; 2; 3; 4] 2)
    as (r' & H1 & H2 & _); [|lia|vm_compute; congruence|vm_compute; congruence|].
  { split; rewrite ?len_nil; first [done|lia|split; apply Z.divide_0_r]. }
  exists r'. split; [exact H1|].
  destruct (ring_tails 2 3 3 r' [1; 2; 3; 4] 0 2 5 true 1 H2) as [H3 _];
    [vm_compute; split; congruence|exists 1; reflexivity|lia|lia|lia|vm_compute; lia|exact H3].
Defined.
