(* ===== verification/Tokenize.v ===== *)
(** * The string tokenizer (libwebsockets lib/core/libwebsockets.c)

    [lws_tokenize] splits a buffer in place into tokens, numbers, quoted
    strings and delimiters; the upgrade code runs it over the Connection and
    Sec-WebSocket-Protocol headers.  [start] and [len] of the struct together
    are the bytes still to read, [token] the bytes from the token pointer on,
    of which the first [token_len] are the token. *)

From S2P Require Import Prelude Utf8.

Module Tokenize.
Import Utf8.

Definition F_MINUS_NONTERM : Z := 1.
Definition F_AGG_COLON : Z := 2.
Definition F_COMMA_SEP_LIST : Z := 4.
Definition F_RFC7230_DELIMS : Z := 8.
Definition F_DOT_NONTERM : Z := 16.
Definition F_NO_FLOATS : Z := 32.
Definition F_NO_INTEGERS : Z := 64.

(** [lws_tokenize_elem] *)
Inductive elem :=
| ERR_BROKEN_UTF8 | ERR_UNTERM_STRING | ERR_MALFORMED_FLOAT | ERR_NUM_ON_LHS | ERR_COMMA_LIST
| ENDED
| DELIMITER | TOKEN | INTEGER | FLOAT | TOKEN_NAME_EQUALS | TOKEN_NAME_COLON | QUOTED_STRING.

Inductive delimiter_tracking := NEED_FIRST_CONTENT | NEED_DELIM | NEED_NEXT_CONTENT.

Inductive lws_tokenize_state := LEADING_WHITESPACE | IN_QUOTED_STRING | IN_TOKEN | TOKEN_POST_TERMINAL.

#[global] Instance elem_eq_dec : EqDecision elem.
Proof. solve_decision. Defined.
#[global] Instance delimiter_tracking_eq_dec : EqDecision delimiter_tracking.
Proof. solve_decision. Defined.
#[global] Instance lws_tokenize_state_eq_dec : EqDecision lws_tokenize_state.
Proof. solve_decision. Defined.

(** [struct lws_tokenize] *)
Record tokenizer := mk_ts {
  start : bytes; token : option bytes; token_len : Z; flags : Z; delim : delimiter_tracking
}.

(** [e > 0] *)
Definition more (e : elem) : bool :=
  match e with
  | DELIMITER | TOKEN | INTEGER | FLOAT | TOKEN_NAME_EQUALS | TOKEN_NAME_COLON | QUOTED_STRING => true
  | _ => false
  end.

Definition has (f b : Z) : bool := nz (Z.land f b).

Definition rfc7230_delims : bytes := str "(),/:;<=>?@[\]{}".

Definition strchr (s : bytes) (c : Z) : bool := bool_decide (c ∈ s).

Definition is_space (c : Z) : bool :=
  (c =? 32) || (c =? 9) || (c =? 10) || (c =? 13) || (c =? 12).

Definition is_digit (c : Z) : bool := (48 <=? c) && (c <=? 57).

(** The delimiter test; the source compares [c] as a signed [char]. *)
Definition is_delim (f utf8 c : Z) : bool :=
  let s := schar c in
  let d_minus := if has f F_MINUS_NONTERM then 0 else 45 in
  let s_minus := if has f F_MINUS_NONTERM then 45 else 0 in
  let d_dot := if has f F_DOT_NONTERM then 0 else 46 in
  let s_dot := if has f F_DOT_NONTERM then 46 else 0 in
  (utf8 =? 0) &&
  ((has f F_RFC7230_DELIMS && strchr rfc7230_delims c && (s >? 32)) ||
   ((negb (has f F_RFC7230_DELIMS) &&
     ((s <? 48) || (s >? 57)) && ((s <? 65) || (s >? 90)) && ((s <? 97) || (s >? 122)) &&
     negb (s =? 95)) && negb (s =? s_minus) && negb (s =? s_dot)) ||
   (s =? d_minus) || (s =? d_dot)).

(** The label [token_or_numeric]. *)
Definition token_or_numeric (flo : bool) (num : Z) : elem :=
  if negb (num =? 1) then TOKEN else if flo then FLOAT else INTEGER.

(** The end of the content. *)
Definition ran_out (f : Z) (st : lws_tokenize_state) (flo : bool) (num utf8 : Z) (dl : delimiter_tracking)
  : elem :=
  if nz utf8 then ERR_BROKEN_UTF8
  else
    match st with
    | IN_QUOTED_STRING => ERR_UNTERM_STRING
    | LEADING_WHITESPACE =>
      if has f F_COMMA_SEP_LIST && bool_decide (dl = NEED_NEXT_CONTENT) then ERR_COMMA_LIST else ENDED
    | IN_TOKEN | TOKEN_POST_TERMINAL => token_or_numeric flo num
    end.

(** The label [checknum]. *)
Definition checknum (f num c : Z) : Z :=
  if has f F_NO_INTEGERS then num
  else if negb (is_digit c) then 0 else if num <? 0 then 1 else num.

(** The loop: locals, the fields the loop changes and the bytes left. *)
Fixpoint tokenize_loop (f : Z) (st : lws_tokenize_state) (flo : bool) (num utf8 : Z)
    (tok : option bytes) (tl : Z) (dl : delimiter_tracking) (l : bytes) : elem * tokenizer :=
  match l with
  | [] => (ran_out f st flo num utf8 dl, mk_ts [] tok tl f dl)
  | c :: rest =>
    let utf8 := lws_check_byte_utf8 (u8 utf8) c in
    if utf8 <? 0 then (ERR_BROKEN_UTF8, mk_ts rest tok tl f dl)
    else if c =? 0 then (ran_out f st flo num utf8 dl, mk_ts rest tok tl f dl)
    else if is_space c then
      match st with
      | LEADING_WHITESPACE | TOKEN_POST_TERMINAL => tokenize_loop f st flo num utf8 tok tl dl rest
      | IN_QUOTED_STRING => tokenize_loop f st flo num utf8 tok (tl + 1) dl rest
      | IN_TOKEN => tokenize_loop f TOKEN_POST_TERMINAL flo num utf8 tok tl dl rest
      end
    else if c =? 34 then
      match st with
      | IN_QUOTED_STRING => (QUOTED_STRING, mk_ts rest tok tl f dl)
      | _ =>
        if has f F_COMMA_SEP_LIST then
          match dl with
          | NEED_DELIM => (ERR_COMMA_LIST, mk_ts rest tok tl f dl)
          | _ => tokenize_loop f IN_QUOTED_STRING flo num utf8 (Some rest) 0 NEED_DELIM rest
          end
        else tokenize_loop f IN_QUOTED_STRING flo num utf8 (Some rest) 0 dl rest
      end
    else if (c =? 61) && bool_decide (st = TOKEN_POST_TERMINAL \/ st = IN_TOKEN) then
      if num =? 1 then (ERR_NUM_ON_LHS, mk_ts rest tok tl f dl)
      else (TOKEN_NAME_EQUALS, mk_ts rest tok tl f dl)
    else if has f F_AGG_COLON && (c =? 58) && bool_decide (st = TOKEN_POST_TERMINAL \/ st = IN_TOKEN) then
      (TOKEN_NAME_COLON, mk_ts rest tok tl f dl)
    else if (c =? 46) && negb (has f F_NO_FLOATS) && bool_decide (st = IN_TOKEN) && (num =? 1) then
      if flo then (ERR_MALFORMED_FLOAT, mk_ts rest tok tl f dl)
      else tokenize_loop f st true num utf8 tok (tl + 1) dl rest
    else if is_delim f utf8 c then
      match st with
      | LEADING_WHITESPACE =>
        if has f F_COMMA_SEP_LIST then
          if negb (c =? 44) || bool_decide (dl <> NEED_DELIM) then
            (ERR_COMMA_LIST, mk_ts rest tok tl f dl)
          else (DELIMITER, mk_ts rest (Some (c :: rest)) 1 f NEED_NEXT_CONTENT)
        else (DELIMITER, mk_ts rest (Some (c :: rest)) 1 f dl)
      | IN_QUOTED_STRING => tokenize_loop f st flo num utf8 tok (tl + 1) dl rest
      | TOKEN_POST_TERMINAL | IN_TOKEN =>
        (token_or_numeric flo num, mk_ts (c :: rest) tok tl f dl)
      end
    else
      match st with
      | LEADING_WHITESPACE =>
        if has f F_COMMA_SEP_LIST then
          match dl with
          | NEED_DELIM => (ERR_COMMA_LIST, mk_ts rest tok tl f dl)
          | _ => tokenize_loop f IN_TOKEN flo (checknum f num c) utf8 (Some (c :: rest)) 1 NEED_DELIM rest
          end
        else tokenize_loop f IN_TOKEN flo (checknum f num c) utf8 (Some (c :: rest)) 1 dl rest
      | IN_QUOTED_STRING | IN_TOKEN =>
        tokenize_loop f st flo (checknum f num c) utf8 tok (tl + 1) dl rest
      | TOKEN_POST_TERMINAL => (token_or_numeric flo num, mk_ts (c :: rest) tok tl f dl)
      end
  end.

Definition lws_tokenize (ts : tokenizer) : elem * tokenizer :=
  let num := if has (flags ts) F_NO_INTEGERS then 0 else -1 in
  tokenize_loop (flags ts) LEADING_WHITESPACE false num 0 None 0 (delim ts) (start ts).

(** The struct after the initialiser, with the length its callers set. *)
Definition lws_tokenize_init (content : bytes) (f : Z) : tokenizer :=
  mk_ts content None 0 f NEED_FIRST_CONTENT.

(** The bytes of the token. *)
Definition token_text (ts : tokenizer) : bytes :=
  match token ts with Some p => take (Z.to_nat (token_len ts)) p | None => [] end.

(** Copies the token as a C string into a buffer of [max] bytes; [None] when
    it does not fit. *)
Definition lws_tokenize_cstr (ts : tokenizer) (max : Z) : option bytes :=
  if token_len ts + 1 >=? max then None else Some (token_text ts).

(** ** Comma separated lists *)

(** The flags of the upgrade code. *)
Definition list_flags : Z :=
  Z.lor (Z.lor F_COMMA_SEP_LIST F_DOT_NONTERM) (Z.lor F_RFC7230_DELIMS F_MINUS_NONTERM).

(** A character of an RFC 7230 token. *)
Definition tokchar (c : Z) : bool :=
  (33 <=? c) && (c <=? 126) && negb (strchr rfc7230_delims c) && negb (c =? 34).

(** A name that is neither empty nor starts like a number. *)
Definition name_ok (n : bytes) : bool :=
  match n with [] => false | c :: _ => negb (is_digit c) && forallb tokchar n end.

Definition ws_ok (w : bytes) : bool := forallb is_space w.

(** One entry of a list: white space, a name, white space. *)
Abbreviation entry := (bytes * bytes * bytes)%type.

Definition entry_ok (e : entry) : bool :=
  let '(a, n, b) := e in ws_ok a && name_ok n && ws_ok b.

Definition entry_text (e : entry) : bytes := let '(a, n, b) := e in a ++ n ++ b.

Definition entry_name (e : entry) : bytes := e.1.2.

(** What follows an entry: nothing, or a comma and the other entries. *)
Fixpoint list_tail (es : list entry) : bytes :=
  match es with
  | [] => []
  | e :: es => 44 :: entry_text e ++ list_tail es
  end.

Definition list_text (es : list entry) : bytes :=
  match es with [] => [] | e :: es => entry_text e ++ list_tail es end.

Lemma utf8_ascii c : 0 <= c < 128 -> lws_check_byte_utf8 (u8 0) c = 0.
Proof.
  intros. unfold lws_check_byte_utf8. change (u8 0) with 0. cbn [Z.eqb].
  rewrite Z.geb_leb. destruct (Z.leb_spec 128 c); [lia|done].
Qed.

Lemma is_space_range c : is_space c = true -> 0 < c < 128.
Proof. unfold is_space. rewrite !orb_true_iff, !Z.eqb_eq. lia. Qed.

Lemma tokchar_spec c :
  tokchar c = true -> 33 <= c <= 126 /\ c <> 34 /\ c <> 61 /\ is_space c = false /\
    is_delim list_flags 0 c = false.
Proof.
  unfold tokchar. intros (((H1%Z.leb_le & H2%Z.leb_le)%andb_true_iff & H3%negb_true_iff)%andb_true_iff &
    H4%negb_true_iff%Z.eqb_neq)%andb_true_iff. split_and!; [done..| | |].
  - intros ->. done.
  - unfold is_space. rewrite !orb_false_iff, !Z.eqb_neq. lia.
  - unfold is_delim. change (has list_flags F_RFC7230_DELIMS) with true.
    change (has list_flags F_MINUS_NONTERM) with true. change (has list_flags F_DOT_NONTERM) with true.
    rewrite H3. cbn [negb andb orb]. unfold schar. destruct (Z.ltb_spec c 128); [|lia].
    destruct (Z.eqb_spec c 0); [lia|]. by rewrite andb_false_r.
Qed.

(** White space in front of a token or behind it. *)
Lemma loop_space f st flo num tok tl dl w k :
  ws_ok w = true -> st = LEADING_WHITESPACE \/ st = TOKEN_POST_TERMINAL ->
  tokenize_loop f st flo num 0 tok tl dl (w ++ k) = tokenize_loop f st flo num 0 tok tl dl k.
Proof.
  intros Hw Hst. induction w as [|c w IH]; [done|]. cbn in Hw. apply andb_true_iff in Hw as [Hc Hw].
  pose proof (is_space_range c Hc). cbn [app tokenize_loop]. rewrite utf8_ascii by lia. cbn [Z.ltb Z.compare].
  destruct (Z.eqb_spec c 0); [lia|]. rewrite Hc. destruct Hst as [-> | ->]; apply IH; done.
Qed.

(** The rest of a name. *)
Lemma loop_name p tl dl n k :
  forallb tokchar n = true ->
  tokenize_loop list_flags IN_TOKEN false 0 0 p tl dl (n ++ k) =
  tokenize_loop list_flags IN_TOKEN false 0 0 p (tl + len n) dl k.
Proof.
  revert tl. induction n as [|c n IH]; intros tl Hn.
  - by rewrite len_nil, Z.add_0_r.
  - cbn in Hn. apply andb_true_iff in Hn as [Hc Hn]. apply tokchar_spec in Hc as (Hr & H34 & H61 & Hs & Hd).
    cbn [app tokenize_loop]. rewrite utf8_ascii by lia. cbn [Z.ltb Z.compare].
    destruct (Z.eqb_spec c 0); [lia|]. rewrite Hs. destruct (Z.eqb_spec c 34); [done|].
    destruct (Z.eqb_spec c 61); [done|]. cbn [andb]. change (has list_flags F_AGG_COLON) with false. cbn [andb].
    rewrite andb_false_r, Hd. replace (checknum list_flags 0 c) with 0 by (unfold checknum; cbn; by destruct (is_digit c)).
    rewrite IH by done. f_equal. rewrite len_cons. lia.
Qed.

Definition stops (k : bytes) : Prop := match k with [] => True | c :: _ => c = 44 end.

(** The end of a name: at the end of the list or at a comma. *)
Lemma loop_name_end p tl dl b k :
  ws_ok b = true -> stops k ->
  tokenize_loop list_flags IN_TOKEN false 0 0 p tl dl (b ++ k) = (TOKEN, mk_ts k p tl list_flags dl).
Proof.
  intros Hb Hk.
  assert (forall st, st = IN_TOKEN \/ st = TOKEN_POST_TERMINAL ->
    tokenize_loop list_flags st false 0 0 p tl dl k = (TOKEN, mk_ts k p tl list_flags dl)) as Hend.
  { intros st Hst. destruct k as [|c k].
    - by destruct Hst as [-> | ->].
    - simpl in Hk. subst c. by destruct Hst as [-> | ->]. }
  destruct b as [|c b]; [apply Hend; by left|]. cbn in Hb. apply andb_true_iff in Hb as [Hc Hb].
  pose proof (is_space_range c Hc). cbn [app tokenize_loop]. rewrite utf8_ascii by lia. cbn [Z.ltb Z.compare].
  destruct (Z.eqb_spec c 0); [lia|]. rewrite Hc. rewrite loop_space by (done || by right).
  apply Hend. by right.
Qed.

Lemma tokenize_entry e k tok tl dl :
  entry_ok e = true -> stops k -> dl <> NEED_DELIM ->
  exists ts, lws_tokenize (mk_ts (entry_text e ++ k) tok tl list_flags dl) = (TOKEN, ts) /\
    token_text ts = entry_name e /\ token_len ts = len (entry_name e) /\
    (exists q, token ts = Some (entry_name e ++ q)) /\
    start ts = k /\ flags ts = list_flags /\ delim ts = NEED_DELIM.
Proof.
  destruct e as [[a n] b]. unfold entry_ok, entry_text, entry_name. cbn [fst snd].
  intros [[Ha Hn]%andb_true_iff Hb]%andb_true_iff Hk Hdl. unfold lws_tokenize. cbn [flags delim start].
  change (has list_flags F_NO_INTEGERS) with false. rewrite <- !app_assoc.
  rewrite loop_space by (done || by left). destruct n as [|c n]; [done|]. cbn in Hn.
  apply andb_true_iff in Hn as [Hdig [Hc Hn]%andb_true_iff].
  apply tokchar_spec in Hc as (Hr & H34 & H61 & Hs & Hd).
  cbn [app tokenize_loop]. rewrite utf8_ascii by lia. cbn [Z.ltb Z.compare].
  destruct (Z.eqb_spec c 0); [lia|]. rewrite Hs. destruct (Z.eqb_spec c 34); [done|].
  destruct (Z.eqb_spec c 61); [done|]. cbn [andb]. change (has list_flags F_AGG_COLON) with false. cbn [andb].
  rewrite !andb_false_r. cbn [andb]. rewrite Hd. change (has list_flags F_COMMA_SEP_LIST) with true. cbn iota.
  assert (checknum list_flags (-1) c = 0) as -> by (unfold checknum; cbn; by rewrite Hdig).
  assert (forall A (x y : A), match dl with NEED_DELIM => x | _ => y end = y) as -> by (intros; by destruct dl).
  rewrite loop_name by done. rewrite loop_name_end by done.
  eexists. split; [reflexivity|]. cbn [token_text token token_len start flags delim].
  split_and!; [|rewrite len_cons; lia|by eexists|done..].
  replace (Z.to_nat (1 + len n)) with (S (length n)) by (unfold len; lia). cbn [take].
  rewrite take_app_le by lia. by rewrite take_ge.
Qed.

Lemma tokenize_comma es tok tl :
  es <> [] ->
  exists ts, lws_tokenize (mk_ts (list_tail es) tok tl list_flags NEED_DELIM) = (DELIMITER, ts) /\
    start ts = list_text es /\ flags ts = list_flags /\ delim ts = NEED_NEXT_CONTENT.
Proof.
  destruct es as [|e es]; [done|]. intros _. eexists. split; [reflexivity|]. done.
Qed.

Lemma tokenize_end tok tl : fst (lws_tokenize (mk_ts [] tok tl list_flags NEED_DELIM)) = ENDED.
Proof. reflexivity. Qed.

Lemma list_tail_stops es : stops (list_tail es).
Proof. by destruct es. Qed.

End Tokenize.
