(* ===== verification/WsState.v ===== *)
(** * WebSocket connection state (libwebsockets lib/roles/ws/private.h)

    The members of [struct lws] and of its [struct _lws_websocket_related]
    that the WebSocket role reads and writes in this build (no extensions), in
    one record, with the observable effects of the role as a trace: the user
    callbacks with their payload, requests for the writable callback, timers,
    and the bytes handed to the socket. *)

From S2P Require Import Prelude CLib Buflist.

Module Ws.

(** [enum lws_rx_parse_state] *)
Inductive lws_rx_parse_state_t :=
| LWS_RXPS_NEW
| LWS_RXPS_04_mask_1
| LWS_RXPS_04_mask_2
| LWS_RXPS_04_mask_3
| LWS_RXPS_04_FRAME_HDR_1
| LWS_RXPS_04_FRAME_HDR_LEN
| LWS_RXPS_04_FRAME_HDR_LEN16_2
| LWS_RXPS_04_FRAME_HDR_LEN16_1
| LWS_RXPS_04_FRAME_HDR_LEN64_8
| LWS_RXPS_04_FRAME_HDR_LEN64_7
| LWS_RXPS_04_FRAME_HDR_LEN64_6
| LWS_RXPS_04_FRAME_HDR_LEN64_5
| LWS_RXPS_04_FRAME_HDR_LEN64_4
| LWS_RXPS_04_FRAME_HDR_LEN64_3
| LWS_RXPS_04_FRAME_HDR_LEN64_2
| LWS_RXPS_04_FRAME_HDR_LEN64_1
| LWS_RXPS_07_COLLECT_FRAME_KEY_1
| LWS_RXPS_07_COLLECT_FRAME_KEY_2
| LWS_RXPS_07_COLLECT_FRAME_KEY_3
| LWS_RXPS_07_COLLECT_FRAME_KEY_4
| LWS_RXPS_WS_FRAME_PAYLOAD.

#[global] Instance rxps_eq_dec : EqDecision lws_rx_parse_state_t.
Proof. solve_decision. Defined.

(** [enum lwsi_state] *)
Inductive lwsi_state_t :=
| LRS_UNCONNECTED
| LRS_WAITING_CONNECT
| LRS_WAITING_PROXY_REPLY
| LRS_WAITING_SSL
| LRS_WAITING_SOCKS_GREETING_REPLY
| LRS_WAITING_SOCKS_CONNECT_REPLY
| LRS_WAITING_SOCKS_AUTH_REPLY
| LRS_SSL_INIT
| LRS_SSL_ACK_PENDING
| LRS_PRE_WS_SERVING_ACCEPT
| LRS_WAITING_SERVER_REPLY
| LRS_H2_AWAIT_PREFACE
| LRS_H2_AWAIT_SETTINGS
| LRS_H2_CLIENT_SEND_SETTINGS
| LRS_H2_WAITING_TO_SEND_HEADERS
| LRS_DEFERRING_ACTION
| LRS_IDLING
| LRS_H1C_ISSUE_HANDSHAKE
| LRS_H1C_ISSUE_HANDSHAKE2
| LRS_ISSUE_HTTP_BODY
| LRS_ISSUING_FILE
| LRS_HEADERS
| LRS_BODY
| LRS_DISCARD_BODY
| LRS_ESTABLISHED
| LRS_DOING_TRANSACTION
| LRS_WAITING_TO_SEND_CLOSE
| LRS_RETURNED_CLOSE
| LRS_AWAITING_CLOSE_ACK
| LRS_FLUSHING_BEFORE_CLOSE
| LRS_SHUTDOWN
| LRS_DEAD_SOCKET.

#[global] Instance lwsi_state_eq_dec : EqDecision lwsi_state_t.
Proof. solve_decision. Defined.

(** [enum lws_websocket_opcodes_07] *)
Definition LWSWSOPC_CONTINUATION : Z := 0.
Definition LWSWSOPC_TEXT_FRAME : Z := 1.
Definition LWSWSOPC_BINARY_FRAME : Z := 2.
Definition LWSWSOPC_CLOSE : Z := 8.
Definition LWSWSOPC_PING : Z := 9.
Definition LWSWSOPC_PONG : Z := 10.

Definition LWS_PRE : Z := 16.
Definition LWS_CLOSE_STATUS_PROTOCOL_ERR : Z := 1002.
Definition LWS_CLOSE_STATUS_INVALID_PAYLOAD : Z := 1007.

(** Reasons of the user callback. *)
Inductive callback_reason :=
| LWS_CALLBACK_SERVER_WRITEABLE
| LWS_CALLBACK_HTTP_BODY
| LWS_CALLBACK_HTTP_BODY_COMPLETION
| LWS_CALLBACK_HTTP_WRITEABLE
| LWS_CALLBACK_RECEIVE
| LWS_CALLBACK_RECEIVE_PONG
| LWS_CALLBACK_WS_PEER_INITIATED_CLOSE
| LWS_CALLBACK_ESTABLISHED
| LWS_CALLBACK_HTTP
| LWS_CALLBACK_FILTER_HTTP_CONNECTION
| LWS_CALLBACK_HTTP_BIND_PROTOCOL
| LWS_CALLBACK_HTTP_DROP_PROTOCOL.

#[global] Instance callback_reason_eq_dec : EqDecision callback_reason.
Proof. solve_decision. Defined.

(** What the role does to its surroundings. *)
Inductive event :=
| Callback (reason : callback_reason) (payload : bytes)
| OnWritable
| SetTimeout (secs : Z)
| SulPing (usecs : Z)
| Issue (sent : bytes).

#[global] Instance event_eq_dec : EqDecision event.
Proof. solve_decision. Defined.

Record lws := mk_lws {
  lws_rx_parse_state : lws_rx_parse_state_t;
  state : lwsi_state_t;
  socket_is_permanently_unusable : bool;
  wsistate_pre_close : bool;
  role_client : bool;
  close_when_buffered_out_drained : bool;
  could_have_pending : bool;
  waiting_to_send_close_frame : bool;
  close_needs_ack : bool;
  rxflow_bitmap : Z;
  buflist : list Buflist.lws_buflist;
  buflist_out : list Buflist.lws_buflist;
  rx_ubuf : option bytes;
  ping_payload_buf : bytes;
  mask : list Z;
  rx_packet_length : Z;
  rx_ubuf_head : Z;
  rx_ubuf_alloc : Z;
  ping_payload_len : Z;
  mask_idx : Z;
  opcode : Z;
  rsv : Z;
  rsv_first_msg : Z;
  close_in_ping_buffer_len : Z;
  utf8 : Z;
  stashed_write_type : Z;
  ietf_spec_revision : Z;
  final : bool;
  frame_is_binary : bool;
  all_zero_nonce : bool;
  this_frame_masked : bool;
  inside_frame : bool;
  clean_buffer : bool;
  payload_is_close : bool;
  ping_pending_flag : bool;
  continuation_possible : bool;
  owed_a_fin : bool;
  check_utf8 : bool;
  defeat_check_utf8 : bool;
  stashed_write_pending : bool;
  send_check_ping : bool;
  first_fragment : bool;
  peer_has_sent_close : bool;
  await_pong : bool;
  trace : list event
}.

(** Assignment to one member: the record rebuilt with that projection replaced. *)
Ltac setter proj :=
  let e := constr:(fun w : lws =>
    mk_lws (lws_rx_parse_state w) (state w) (socket_is_permanently_unusable w)
    (wsistate_pre_close w) (role_client w) (close_when_buffered_out_drained w)
    (could_have_pending w) (waiting_to_send_close_frame w) (close_needs_ack w)
    (rxflow_bitmap w) (buflist w) (buflist_out w) (rx_ubuf w) (ping_payload_buf w) (mask
    w) (rx_packet_length w) (rx_ubuf_head w) (rx_ubuf_alloc w) (ping_payload_len w)
    (mask_idx w) (opcode w) (rsv w) (rsv_first_msg w) (close_in_ping_buffer_len w) (utf8
    w) (stashed_write_type w) (ietf_spec_revision w) (final w) (frame_is_binary w)
    (all_zero_nonce w) (this_frame_masked w) (inside_frame w) (clean_buffer w)
    (payload_is_close w) (ping_pending_flag w) (continuation_possible w) (owed_a_fin w)
    (check_utf8 w) (defeat_check_utf8 w) (stashed_write_pending w) (send_check_ping w)
    (first_fragment w) (peer_has_sent_close w) (await_pong w) (trace w)) in
  let g := eval pattern proj in e in
  match g with ?f _ => let r := eval cbv beta in (fun v w => f (fun _ => v) w) in exact r end.

Definition set_lws_rx_parse_state : lws_rx_parse_state_t -> lws -> lws := ltac:(setter lws_rx_parse_state).
Definition set_state : lwsi_state_t -> lws -> lws := ltac:(setter state).
Definition set_socket_is_permanently_unusable : bool -> lws -> lws := ltac:(setter socket_is_permanently_unusable).
Definition set_wsistate_pre_close : bool -> lws -> lws := ltac:(setter wsistate_pre_close).
Definition set_role_client : bool -> lws -> lws := ltac:(setter role_client).
Definition set_close_when_buffered_out_drained : bool -> lws -> lws := ltac:(setter close_when_buffered_out_drained).
Definition set_could_have_pending : bool -> lws -> lws := ltac:(setter could_have_pending).
Definition set_waiting_to_send_close_frame : bool -> lws -> lws := ltac:(setter waiting_to_send_close_frame).
Definition set_close_needs_ack : bool -> lws -> lws := ltac:(setter close_needs_ack).
Definition set_rxflow_bitmap : Z -> lws -> lws := ltac:(setter rxflow_bitmap).
Definition set_buflist : list Buflist.lws_buflist -> lws -> lws := ltac:(setter buflist).
Definition set_buflist_out : list Buflist.lws_buflist -> lws -> lws := ltac:(setter buflist_out).
Definition set_rx_ubuf : option bytes -> lws -> lws := ltac:(setter rx_ubuf).
Definition set_ping_payload_buf : bytes -> lws -> lws := ltac:(setter ping_payload_buf).
Definition set_mask : list Z -> lws -> lws := ltac:(setter mask).
Definition set_rx_packet_length : Z -> lws -> lws := ltac:(setter rx_packet_length).
Definition set_rx_ubuf_head : Z -> lws -> lws := ltac:(setter rx_ubuf_head).
Definition set_rx_ubuf_alloc : Z -> lws -> lws := ltac:(setter rx_ubuf_alloc).
Definition set_ping_payload_len : Z -> lws -> lws := ltac:(setter ping_payload_len).
Definition set_mask_idx : Z -> lws -> lws := ltac:(setter mask_idx).
Definition set_opcode : Z -> lws -> lws := ltac:(setter opcode).
Definition set_rsv : Z -> lws -> lws := ltac:(setter rsv).
Definition set_rsv_first_msg : Z -> lws -> lws := ltac:(setter rsv_first_msg).
Definition set_close_in_ping_buffer_len : Z -> lws -> lws := ltac:(setter close_in_ping_buffer_len).
Definition set_utf8 : Z -> lws -> lws := ltac:(setter utf8).
Definition set_stashed_write_type : Z -> lws -> lws := ltac:(setter stashed_write_type).
Definition set_ietf_spec_revision : Z -> lws -> lws := ltac:(setter ietf_spec_revision).
Definition set_final : bool -> lws -> lws := ltac:(setter final).
Definition set_frame_is_binary : bool -> lws -> lws := ltac:(setter frame_is_binary).
Definition set_all_zero_nonce : bool -> lws -> lws := ltac:(setter all_zero_nonce).
Definition set_this_frame_masked : bool -> lws -> lws := ltac:(setter this_frame_masked).
Definition set_inside_frame : bool -> lws -> lws := ltac:(setter inside_frame).
Definition set_clean_buffer : bool -> lws -> lws := ltac:(setter clean_buffer).
Definition set_payload_is_close : bool -> lws -> lws := ltac:(setter payload_is_close).
Definition set_ping_pending_flag : bool -> lws -> lws := ltac:(setter ping_pending_flag).
Definition set_continuation_possible : bool -> lws -> lws := ltac:(setter continuation_possible).
Definition set_owed_a_fin : bool -> lws -> lws := ltac:(setter owed_a_fin).
Definition set_check_utf8 : bool -> lws -> lws := ltac:(setter check_utf8).
Definition set_defeat_check_utf8 : bool -> lws -> lws := ltac:(setter defeat_check_utf8).
Definition set_stashed_write_pending : bool -> lws -> lws := ltac:(setter stashed_write_pending).
Definition set_send_check_ping : bool -> lws -> lws := ltac:(setter send_check_ping).
Definition set_first_fragment : bool -> lws -> lws := ltac:(setter first_fragment).
Definition set_peer_has_sent_close : bool -> lws -> lws := ltac:(setter peer_has_sent_close).
Definition set_await_pong : bool -> lws -> lws := ltac:(setter await_pong).
Definition set_trace : list event -> lws -> lws := ltac:(setter trace).

(** Appends an event. *)
Definition emit (e : event) (w : lws) : lws := set_trace (trace w ++ [e]) w.

(** What the role reads from the context and the protocol, and the user
    callback: its answer may depend on everything that happened before. *)
Record env := mk_env {
  rx_buffer_size : Z;
  pt_serv_buf_size : Z;
  tx_packet_size : Z;
  validate_utf8 : bool;
  ws_ping_pong_interval : Z;
  timeout_secs : Z;
  user_callback : list event -> callback_reason -> bytes -> Z
}.

(** [user_callback_handle_rxflow], for a callback that leaves the receive
    flow control alone: [__lws_rx_flow_control] then returns 0. *)
Definition user_callback_handle_rxflow (E : env) (r : callback_reason) (p : bytes) (w : lws)
  : Z * lws :=
  (user_callback E (trace w) r p, emit (Callback r p) w).

(** [lws_close_reason]: status and text into the control payload buffer,
    which has 125 bytes behind [LWS_PRE]. *)
Definition lws_close_reason (status : Z) (buf : bytes) (w : lws) : lws :=
  let budget := 125 in
  let text := take (Z.to_nat (budget - 2)) buf in
  let p := [Z.land (Z.shiftr status 8) 255; Z.land status 255] ++ text in
  set_close_in_ping_buffer_len (u8 (len p))
    (set_ping_payload_buf (list_inserts 0 p (ping_payload_buf w)) w).

Definition LWS_USEC_PER_SEC : Z := 1000000.

(** [__lws_sul_insert(&pt->pt_sul_owner, &wsi->sul_ping, secs * LWS_USEC_PER_SEC)] *)
Definition sul_ping_insert (secs : Z) (w : lws) : lws := emit (SulPing (secs * LWS_USEC_PER_SEC)) w.

(** [lws_partial_buffered] *)
Definition lws_partial_buffered (w : lws) : bool :=
  match buflist_out w with [] => false | _ => true end.

Definition state_is (s : lwsi_state_t) (w : lws) : bool := bool_decide (state w = s).

(** ** Automation

    [ws_red] resolves the projections of a chain of assignments in the goal,
    [zcalc] the bit operations on numerals. *)
Ltac ws_red :=
  repeat match goal with
  | |- context [?p (?s ?v ?w)] =>
    lazymatch type of w with
    | lws =>
      lazymatch type of (s v w) with
      | lws => first [change (p (s v w)) with (p w) | change (p (s v w)) with v]
      end
    end
  end.

(** The same where every state of the goal is below a projection. *)
Ltac ws_cbn :=
  cbn [lws_rx_parse_state state socket_is_permanently_unusable wsistate_pre_close role_client
    close_when_buffered_out_drained could_have_pending waiting_to_send_close_frame
    close_needs_ack rxflow_bitmap buflist buflist_out rx_ubuf ping_payload_buf mask
    rx_packet_length rx_ubuf_head rx_ubuf_alloc ping_payload_len mask_idx opcode rsv
    rsv_first_msg close_in_ping_buffer_len utf8 stashed_write_type ietf_spec_revision final
    frame_is_binary all_zero_nonce this_frame_masked inside_frame clean_buffer payload_is_close
    ping_pending_flag continuation_possible owed_a_fin check_utf8 defeat_check_utf8
    stashed_write_pending send_check_ping first_fragment peer_has_sent_close await_pong trace
    set_lws_rx_parse_state set_state set_socket_is_permanently_unusable set_wsistate_pre_close
    set_role_client set_close_when_buffered_out_drained set_could_have_pending
    set_waiting_to_send_close_frame set_close_needs_ack set_rxflow_bitmap set_buflist
    set_buflist_out set_rx_ubuf set_ping_payload_buf set_mask set_rx_packet_length
    set_rx_ubuf_head set_rx_ubuf_alloc set_ping_payload_len set_mask_idx set_opcode set_rsv
    set_rsv_first_msg set_close_in_ping_buffer_len set_utf8 set_stashed_write_type
    set_ietf_spec_revision set_final set_frame_is_binary set_all_zero_nonce
    set_this_frame_masked set_inside_frame set_clean_buffer set_payload_is_close
    set_ping_pending_flag set_continuation_possible set_owed_a_fin set_check_utf8
    set_defeat_check_utf8 set_stashed_write_pending set_send_check_ping set_first_fragment
    set_peer_has_sent_close set_await_pong set_trace emit].

Ltac zcalc :=
  repeat match goal with
  | |- context [Z.land (Zpos ?a) (Zpos ?b)] =>
    let r := eval vm_compute in (Z.land (Zpos a) (Zpos b)) in
    change (Z.land (Zpos a) (Zpos b)) with r
  | |- context [Z.land 0 ?b] => rewrite Z.land_0_l
  | |- context [Z.testbit (Zpos ?a) (Zpos ?b)] =>
    let r := eval vm_compute in (Z.testbit (Zpos a) (Zpos b)) in
    change (Z.testbit (Zpos a) (Zpos b)) with r
  | |- context [Z.testbit 0 ?b] => rewrite Z.testbit_0_l
  | |- context [nz (Zpos ?a)] => change (nz (Zpos a)) with true
  | |- context [nz 0] => change (nz 0) with false
  | |- context [Zpos ?a =? Zpos ?b] =>
    let r := eval vm_compute in (Zpos a =? Zpos b) in change (Zpos a =? Zpos b) with r
  | |- context [0 =? Zpos ?b] => change (0 =? Zpos b) with false
  | |- context [Zpos ?b =? 0] => change (Zpos b =? 0) with false
  | |- context [0 =? 0] => change (0 =? 0) with true
  | |- context [Zpos ?a <=? Zpos ?b] =>
    let r := eval vm_compute in (Zpos a <=? Zpos b) in change (Zpos a <=? Zpos b) with r
  | |- context [Zpos ?a <=? 0] => change (Zpos a <=? 0) with false
  end.

End Ws.
