(* ===== verification/WsRx.v ===== *)
(** * Receiving WebSocket frames (libwebsockets lib/roles/ws/ops-ws.c, server-ws.c)

    [lws_ws_rx_sm], the state machine that takes a connection's input byte by
    byte, one definition per group of its states, and [lws_parse_ws] with the
    bulk path for payloads, as the server build compiles them (revision 13, no
    extensions).  A failed [assert] is an error; otherwise the result is the
    return value (negative: close the connection) and the new state. *)

From S2P Require Import Prelude CLib Buflist Utf8 WsState.

Module WsRx.
Import Ws.

Section Rx.
Context (E : env).

(** ** The first two header bytes *)

(** Closing with a protocol error. *)
Definition protocol_err (text : String.string) (w : lws) : lws :=
  lws_close_reason LWS_CLOSE_STATUS_PROTOCOL_ERR (str text) w.

(** The switch on the opcode; [true]: the code returns -1. *)
Definition rx_first_switch (c : Z) (w : lws) : bool * lws :=
  if (opcode w =? LWSWSOPC_TEXT_FRAME) || (opcode w =? LWSWSOPC_BINARY_FRAME) then
    let w := set_check_utf8 (if opcode w =? LWSWSOPC_BINARY_FRAME then false else validate_utf8 E) w in
    if continuation_possible w then (true, protocol_err "bad cont" w)
    else
      let w := set_rsv_first_msg (Z.land c 112) w in
      let w := set_frame_is_binary (opcode w =? LWSWSOPC_BINARY_FRAME) w in
      let w := set_first_fragment true w in
      (false, set_continuation_possible (negb (final w)) w)
  else if opcode w =? LWSWSOPC_CONTINUATION then
    if negb (continuation_possible w) then (true, protocol_err "bad cont" w) else (false, w)
  else if opcode w =? LWSWSOPC_CLOSE then
    (false, set_utf8 0 (set_check_utf8 false w))
  else if ((3 <=? opcode w) && (opcode w <=? 7)) || ((11 <=? opcode w) && (opcode w <=? 15))
  then (true, protocol_err "bad opc" w)
  else (false, w).

(** Behind the switch: the FIN bookkeeping and the reserved bits. *)
Definition rx_first_fin (w : lws) : Z * lws :=
  if owed_a_fin w && ((opcode w =? LWSWSOPC_TEXT_FRAME) || (opcode w =? LWSWSOPC_BINARY_FRAME))
  then (-1, protocol_err "bad fin" w)
  else
    let w := if negb (nz (Z.land (opcode w) 8)) && final w
             then set_owed_a_fin false (set_continuation_possible false w) else w in
    let w := if negb (final w) then set_owed_a_fin true w else w in
    let w := set_lws_rx_parse_state LWS_RXPS_04_FRAME_HDR_LEN w in
    if nz (rsv w) && nz (Z.land (rsv w) (Z.lxor 64 255)) then (-1, protocol_err "rsv bits" w)
    else (0, w).

(** [handle_first] *)
Definition rx_handle_first (c : Z) (w : lws) : Z * lws :=
  let w := set_opcode (Z.land c 15) w in
  let w := set_rsv (Z.land c 112) w in
  let w := set_final (Z.testbit c 7) w in
  let w := set_defeat_check_utf8 false w in
  if nz (Z.land (opcode w) 8) && negb (final w) then (-1, protocol_err "frag ctl" w)
  else
    let '(bad, w) := rx_first_switch c w in
    if bad then (-1, w) else rx_first_fin w.

(** ** Delivering what was collected *)

(** The collected bytes. *)
Definition collected (w : lws) : bytes :=
  take (Z.to_nat (rx_ubuf_head w)) (default [] (rx_ubuf w)).

(** Stores into the receive buffer, behind [LWS_PRE]. *)
Definition store (i : Z) (v : Z) (w : lws) : lws :=
  set_rx_ubuf (insert (Z.to_nat i) v <$> rx_ubuf w) w.

(** [process_as_ping] and [ping_drop] *)
Definition rx_process_as_ping (w : lws) : lws :=
  let w :=
    if rx_ubuf_head w >? 128 - 3 then w
    else
      let w := set_ping_payload_buf (list_inserts 0 (collected w) (ping_payload_buf w)) w in
      let w := set_ping_payload_len (u8 (rx_ubuf_head w)) w in
      let w := set_ping_pending_flag true w in
      emit OnWritable w in
  set_rx_ubuf_head 0 w.

(** Close codes a peer must not send. *)
Definition bad_close_code (cc : Z) : bool :=
  (cc <? 1000) || (cc =? 1004) || (cc =? 1005) || (cc =? 1006) || (cc =? 1012) || (cc =? 1013)
  || (cc =? 1014) || (cc =? 1015) || ((cc >=? 1016) && (cc <? 3000)).

(** A close frame is answered: its code is checked, the user told, and it goes
    back as it came. *)
Definition rx_close_reply (w : lws) : Z * lws :=
  let w :=
    if rx_ubuf_head w >=? 2 then
      let pp := collected w in
      let close_code := Z.lor (Z.shiftl (nth 0 pp 0) 8) (nth 1 pp 0) in
      if bad_close_code close_code
      then store 1 (Z.land LWS_CLOSE_STATUS_PROTOCOL_ERR 255)
             (store 0 (Z.land (Z.shiftr LWS_CLOSE_STATUS_PROTOCOL_ERR 8) 255) w)
      else w
    else w in
  let '(n, w) := user_callback_handle_rxflow E LWS_CALLBACK_WS_PEER_INITIATED_CLOSE (collected w) w in
  if nz n then (-1, w)
  else
    let w := set_state LRS_RETURNED_CLOSE w in
    let w := set_payload_is_close true w in
    (0, rx_process_as_ping w).

(** The CLOSE case of the switch; [inl]: return, [inr]: go on. *)
Definition rx_close (w : lws) : (Z * lws) + lws :=
  if peer_has_sent_close w then inr w
  else
    let w := set_peer_has_sent_close true w in
    let chk :=
      if validate_utf8 E && (rx_ubuf_head w >? 2)
      then Utf8.lws_check_utf8 (utf8 w) (drop 2 (collected w)) else Some (utf8 w) in
    match chk with
    | None => inl (-1, w)
    | Some u =>
      let w := set_utf8 u w in
      if state_is LRS_AWAITING_CLOSE_ACK w then inl (-1, w)
      else if state_is LRS_RETURNED_CLOSE w then inl (-1, w)
      else if lws_partial_buffered w then inl (-1, set_socket_is_permanently_unusable true w)
      else
        inl (rx_close_reply w)
    end.

(** The PONG case. *)
Definition rx_pong (w : lws) : lws :=
  if await_pong w then
    let w := emit (SetTimeout 0) w in
    let w := set_await_pong false w in
    sul_ping_insert (ws_ping_pong_interval E) w
  else w.

(** From [pmdrx.eb_in.token = ...] to [already_done]: the payload goes to the
    user callback. *)
Definition rx_deliver (no_cb : bool) (action : callback_reason) (w : lws) : Z * lws :=
  let eb := collected w in
  let n := rx_ubuf_head w in
  let already_done w := set_rx_ubuf_head 0 w in
  if (opcode w =? LWSWSOPC_PONG) && (n =? 0) then (0, already_done w)
  else if state_is LRS_RETURNED_CLOSE w || state_is LRS_AWAITING_CLOSE_ACK w
  then (0, already_done w)
  else
    let chk : option lws :=
      if nz n && check_utf8 w && negb (defeat_check_utf8 w) then
        match Utf8.lws_check_utf8 (utf8 w) eb with
        | None => None
        | Some u => Some (set_utf8 u w)
        end
      else Some w in
    match chk with
    | None => (-1, lws_close_reason LWS_CLOSE_STATUS_INVALID_PAYLOAD (str "bad utf8") w)
    | Some w' =>
      if (nz n && check_utf8 w && negb (defeat_check_utf8 w))
         && (rx_packet_length w' =? 0) && final w' && nz (utf8 w')
      then (-1, lws_close_reason LWS_CLOSE_STATUS_INVALID_PAYLOAD (str "partial utf8") w')
      else
        let '(ret, w) :=
          if negb (wsistate_pre_close w') then
            let w := if nz n then store n 0 w' else w' in
            let '(ret, w) :=
              if no_cb then (0, w) else user_callback_handle_rxflow E action eb w in
            (ret, set_first_fragment false w)
          else (0, w') in
        (ret, already_done w)
    end.

(** [spill] *)
Definition rx_spill (no_cb : bool) (w : lws) : Z * lws :=
  if opcode w =? LWSWSOPC_CLOSE then
    match rx_close w with
    | inl r => r
    | inr w => rx_deliver no_cb LWS_CALLBACK_RECEIVE w
    end
  else if opcode w =? LWSWSOPC_PING then
    if ping_pending_flag w then (0, set_rx_ubuf_head 0 w) else (0, rx_process_as_ping w)
  else if opcode w =? LWSWSOPC_PONG then
    rx_deliver no_cb LWS_CALLBACK_RECEIVE_PONG (rx_pong w)
  else if (opcode w =? LWSWSOPC_TEXT_FRAME) || (opcode w =? LWSWSOPC_BINARY_FRAME)
          || (opcode w =? LWSWSOPC_CONTINUATION)
  then rx_deliver no_cb LWS_CALLBACK_RECEIVE w
  else (-1, w).

(** ** The other states *)

(** [LWS_RXPS_04_FRAME_HDR_LEN] *)
Definition rx_hdr_len (no_cb : bool) (c : Z) (w : lws) : Z * lws :=
  let w := set_this_frame_masked (Z.testbit c 7) w in
  let n := Z.land c 127 in
  if n =? 126 then
    if nz (Z.land (opcode w) 8) then (-1, w)
    else (0, set_lws_rx_parse_state LWS_RXPS_04_FRAME_HDR_LEN16_2 w)
  else if n =? 127 then
    if nz (Z.land (opcode w) 8) then (-1, w)
    else (0, set_lws_rx_parse_state LWS_RXPS_04_FRAME_HDR_LEN64_8 w)
  else
    let w := set_rx_packet_length n w in
    if this_frame_masked w then (0, set_lws_rx_parse_state LWS_RXPS_07_COLLECT_FRAME_KEY_1 w)
    else if nz (rx_packet_length w)
    then (0, set_lws_rx_parse_state LWS_RXPS_WS_FRAME_PAYLOAD w)
    else rx_spill no_cb (set_lws_rx_parse_state LWS_RXPS_NEW w).

(** The end of an extended length. *)
Definition rx_len_end (w : lws) : lws :=
  if this_frame_masked w then set_lws_rx_parse_state LWS_RXPS_07_COLLECT_FRAME_KEY_1 w
  else set_lws_rx_parse_state LWS_RXPS_WS_FRAME_PAYLOAD w.

(** [rx_packet_length |= ((size_t)c) << sh] *)
Definition or_length (c sh : Z) (w : lws) : lws :=
  set_rx_packet_length (Z.lor (rx_packet_length w) (u64 (Z.shiftl c sh))) w.

(** A byte of the masking key. *)
Definition rx_key (i : nat) (c : Z) (next : lws_rx_parse_state_t) (w : lws) : lws :=
  let w := set_mask (<[i := c]> (mask w)) w in
  let w := if nz c then set_all_zero_nonce false w else w in
  set_lws_rx_parse_state next w.

Definition rx_key_4 (no_cb : bool) (c : Z) (w : lws) : Z * lws :=
  let w := rx_key 3 c LWS_RXPS_WS_FRAME_PAYLOAD w in
  let w := set_mask_idx 0 w in
  if rx_packet_length w =? 0 then rx_spill no_cb (set_lws_rx_parse_state LWS_RXPS_NEW w)
  else (0, w).

(** [LWS_RXPS_WS_FRAME_PAYLOAD] *)
Definition rx_payload (ignore_char no_cb : bool) (c : Z) (w : lws) : res exn (Z * lws) :=
  match rx_ubuf w with
  | None => Err assertion_failed
  | Some _ =>
    if u32 (rx_ubuf_head w + LWS_PRE) >=? rx_ubuf_alloc w then Ok (-1, w)
    else
      let w :=
        if negb ignore_char then
          let head := rx_ubuf_head w in
          let w :=
            if all_zero_nonce w then store head c w
            else
              set_mask_idx (u8 (mask_idx w + 1))
                (store head (Z.lxor c (nth (Z.to_nat (Z.land (mask_idx w) 3)) (mask w) 0)) w) in
          let w := set_rx_ubuf_head (u32 (head + 1)) w in
          set_rx_packet_length (u64 (rx_packet_length w - 1)) w
        else w in
      if rx_packet_length w =? 0
      then Ok (rx_spill no_cb (set_lws_rx_parse_state LWS_RXPS_NEW w))
      else if (rx_buffer_size E =? 0) && negb (rx_ubuf_head w =? pt_serv_buf_size E) then Ok (0, w)
      else if nz (rx_buffer_size E) && negb (rx_ubuf_head w =? rx_buffer_size E) then Ok (0, w)
      else Ok (rx_spill no_cb w)
  end.

(** [lws_ws_rx_sm]; [already_processed] is split into its two flags. *)
Definition lws_ws_rx_sm (ignore_char no_cb : bool) (c : Z) (w : lws) : res exn (Z * lws) :=
  if socket_is_permanently_unusable w then Ok (-1, w)
  else
    match lws_rx_parse_state w with
    | LWS_RXPS_NEW =>
      if ietf_spec_revision w =? 13 then Ok (rx_handle_first c (set_all_zero_nonce true w))
      else Ok (0, w)
    | LWS_RXPS_04_mask_1 => Ok (0, rx_key 1 c LWS_RXPS_04_mask_2 w)
    | LWS_RXPS_04_mask_2 => Ok (0, rx_key 2 c LWS_RXPS_04_mask_3 w)
    | LWS_RXPS_04_mask_3 => Ok (0, set_mask_idx 0 (rx_key 3 c LWS_RXPS_04_FRAME_HDR_1 w))
    | LWS_RXPS_04_FRAME_HDR_1 => Ok (rx_handle_first c w)
    | LWS_RXPS_04_FRAME_HDR_LEN => Ok (rx_hdr_len no_cb c w)
    | LWS_RXPS_04_FRAME_HDR_LEN16_2 =>
      Ok (0, set_lws_rx_parse_state LWS_RXPS_04_FRAME_HDR_LEN16_1
               (set_rx_packet_length (Z.shiftl c 8) w))
    | LWS_RXPS_04_FRAME_HDR_LEN16_1 => Ok (0, rx_len_end (or_length c 0 w))
    | LWS_RXPS_04_FRAME_HDR_LEN64_8 =>
      if nz (Z.land c 128) then Ok (-1, w)
      else Ok (0, set_lws_rx_parse_state LWS_RXPS_04_FRAME_HDR_LEN64_7
                    (set_rx_packet_length (u64 (Z.shiftl c 56)) w))
    | LWS_RXPS_04_FRAME_HDR_LEN64_7 =>
      Ok (0, set_lws_rx_parse_state LWS_RXPS_04_FRAME_HDR_LEN64_6 (or_length c 48 w))
    | LWS_RXPS_04_FRAME_HDR_LEN64_6 =>
      Ok (0, set_lws_rx_parse_state LWS_RXPS_04_FRAME_HDR_LEN64_5 (or_length c 40 w))
    | LWS_RXPS_04_FRAME_HDR_LEN64_5 =>
      Ok (0, set_lws_rx_parse_state LWS_RXPS_04_FRAME_HDR_LEN64_4 (or_length c 32 w))
    | LWS_RXPS_04_FRAME_HDR_LEN64_4 =>
      Ok (0, set_lws_rx_parse_state LWS_RXPS_04_FRAME_HDR_LEN64_3 (or_length c 24 w))
    | LWS_RXPS_04_FRAME_HDR_LEN64_3 =>
      Ok (0, set_lws_rx_parse_state LWS_RXPS_04_FRAME_HDR_LEN64_2 (or_length c 16 w))
    | LWS_RXPS_04_FRAME_HDR_LEN64_2 =>
      Ok (0, set_lws_rx_parse_state LWS_RXPS_04_FRAME_HDR_LEN64_1 (or_length c 8 w))
    | LWS_RXPS_04_FRAME_HDR_LEN64_1 => Ok (0, rx_len_end (or_length c 0 w))
    | LWS_RXPS_07_COLLECT_FRAME_KEY_1 => Ok (0, rx_key 0 c LWS_RXPS_07_COLLECT_FRAME_KEY_2 w)
    | LWS_RXPS_07_COLLECT_FRAME_KEY_2 => Ok (0, rx_key 1 c LWS_RXPS_07_COLLECT_FRAME_KEY_3 w)
    | LWS_RXPS_07_COLLECT_FRAME_KEY_3 => Ok (0, rx_key 2 c LWS_RXPS_07_COLLECT_FRAME_KEY_4 w)
    | LWS_RXPS_07_COLLECT_FRAME_KEY_4 => Ok (rx_key_4 no_cb c w)
    | LWS_RXPS_WS_FRAME_PAYLOAD => rx_payload ignore_char no_cb c w
    end.

(** ** The bulk path and the receive loop *)

(** The unwrapped four-byte loop and the bytewise remainder, with the key
    rotated to the current position. *)
Fixpoint unmask4 (k l : bytes) : bytes :=
  match l with
  | a :: b :: c :: d :: l' =>
    Z.lxor a (nth 0 k 0) :: Z.lxor b (nth 1 k 0) :: Z.lxor c (nth 2 k 0) :: Z.lxor d (nth 3 k 0)
    :: unmask4 k l'
  | _ => imap (fun i x => Z.lxor x (nth i k 0)) l
  end.

(** [lws_ws_frame_rest_is_payload] on what is left of the input: the return
    value, the input that remains, the new state. *)
Definition lws_ws_frame_rest_is_payload (buf : bytes) (w : lws) : Z * bytes * lws :=
  let avail := if nz (rx_buffer_size E) then u32 (rx_buffer_size E) else u32 (pt_serv_buf_size E) in
  let avail := if avail >? rx_packet_length w then u32 (rx_packet_length w) else avail in
  let avail := if avail >? len buf then u32 (len buf) else avail in
  if avail =? 0 then (0, buf, w)
  else
    let taken := take (Z.to_nat avail) buf in
    let '(out, n, w) :=   (* [n] keeps the counter of the last loop *)
      if negb (all_zero_nonce w) then
        let k := (fun n => nth (Z.to_nat (Z.land (mask_idx w + n) 3)) (mask w) 0) <$> [0; 1; 2; 3] in
        (unmask4 k taken, Z.land avail 3, set_mask_idx (Z.land (mask_idx w + avail) 3) w)
      else (taken, 0, w) in
    let buf := drop (Z.to_nat avail) buf in
    let w := set_rx_packet_length (u64 (rx_packet_length w - avail)) w in
    let checking := check_utf8 w && negb (defeat_check_utf8 w) in
    let chk : option lws :=
      if checking then
        match Utf8.lws_check_utf8 (utf8 w) out with None => None | Some u => Some (set_utf8 u w) end
      else Some w in
    match chk with
    | None => (-1, buf, lws_close_reason LWS_CLOSE_STATUS_INVALID_PAYLOAD (str "bad utf8") w)
    | Some w' =>
      if checking && (rx_packet_length w' =? 0) && final w' && nz (utf8 w') && (n =? 0)
      then (-1, buf, lws_close_reason LWS_CLOSE_STATUS_INVALID_PAYLOAD (str "partial utf8") w')
      else
        let '(ret, w) :=
          if negb (wsistate_pre_close w')
          then user_callback_handle_rxflow E LWS_CALLBACK_RECEIVE out w' else (0, w') in
        if nz ret then (-1, buf, w) else (avail, buf, set_first_fragment false w)
    end.

(** [LWSRXFC_*] and [lws_rxflow_cache(wsi, buf, 0, len)]: stores the input
    that cannot be taken now.  [inside]: [buf] points into the head segment of
    the connection's buffer list, where its [len] bytes end the segment. *)
Inductive rxfc := LWSRXFC_CACHED | LWSRXFC_ADDITIONAL | LWSRXFC_TRIMMED | LWSRXFC_ERROR.

Definition lws_rxflow_cache (inside : bool) (buf : bytes) (w : lws) : res exn (rxfc * lws) :=
  '(blen, _, l) ← Buflist.lws_buflist_next_segment_len (buflist w);
  let w := set_buflist l w in
  if nz blen && inside && negb (blen =? len buf) then
    '(_, l) ← Buflist.lws_buflist_use_segment l (blen - len buf);
    Ok (LWSRXFC_TRIMMED, set_buflist l w)
  else
    '(m, l) ← Buflist.lws_buflist_append_segment true l buf;
    let w := set_buflist l w in
    Ok (if m <? 0 then LWSRXFC_ERROR
        else if nz blen then LWSRXFC_ADDITIONAL else LWSRXFC_CACHED, w).

(** The inner loop of [lws_parse_ws]: whether it ran ([bulk]), whether it
    bails out, the input left, the state.  Every round but the last consumes
    input. *)
Fixpoint bulk_loop (fuel : nat) (bulk : bool) (buf : bytes) (w : lws) : bool * bool * bytes * lws :=
  match fuel with
  | O => (bulk, false, buf, w)
  | S f =>
    if bool_decide (lws_rx_parse_state w = LWS_RXPS_WS_FRAME_PAYLOAD)
       && ((opcode w =? LWSWSOPC_TEXT_FRAME) || (opcode w =? LWSWSOPC_BINARY_FRAME)
           || (opcode w =? LWSWSOPC_CONTINUATION))
       && nz (len buf)
    then
      let '(m, buf', w') := lws_ws_frame_rest_is_payload buf w in
      if m =? 0 then (true, false, buf', w')
      else if m <? 0 then (true, true, buf', w')
      else bulk_loop f true buf' w'
    else (bulk, false, buf, w)
  end.

(** The loop of [lws_parse_ws]: the return value, how far [*buf] was advanced,
    the state.  [bufin] is the whole input.  A round consumes a byte or ends a
    frame without consuming one, hence twice the length of the input bounds
    the rounds. *)
Fixpoint parse_loop (fuel : nat) (inside : bool) (bufin buf : bytes) (w : lws)
  : res exn (Z * Z * lws) :=
  match fuel with
  | O => Ok (0, len bufin - len buf, w)
  | S f =>
    match buf with
    | [] => Ok (0, len bufin, w)
    | c :: buf1 =>
      if nz (rxflow_bitmap w) then
        '(r, w) ← lws_rxflow_cache inside buf w;
        Ok (1, match r with LWSRXFC_TRIMMED => 0 | _ => len bufin end, w)
      else
        let '(bulk, bail, buf', w') := bulk_loop (S (length buf)) false buf w in
        if bail then Ok (-1, len bufin - len buf', w')
        else
          '(m, w2) ← (if negb bulk then lws_ws_rx_sm false false c w
                      else lws_ws_rx_sm true true 0 w');
          let buf2 := if negb bulk then buf1 else buf' in
          if m <? 0 then Ok (-1, len bufin - len buf2, w2) else parse_loop f inside bufin buf2 w2
    end
  end.

Definition lws_parse_ws (inside : bool) (buf : bytes) (w : lws) : res exn (Z * Z * lws) :=
  parse_loop (2 * length buf + 1) inside buf buf w.

End Rx.

(** ** Accessors for the user callback *)

Definition lws_remaining_packet_payload (w : lws) : Z := rx_packet_length w.
Definition lws_frame_is_binary (w : lws) : bool := frame_is_binary w.
Definition lws_is_final_fragment (w : lws) : bool := final w && (rx_packet_length w =? 0).
Definition lws_is_first_fragment (w : lws) : bool := first_fragment w.
Definition lws_get_reserved_bits (w : lws) : Z := rsv w.
Definition lws_get_close_length (w : lws) : Z := close_in_ping_buffer_len w.
Definition lws_get_close_payload (w : lws) : bytes := ping_payload_buf w.

(** [lws_server_init_wsi_for_ws] on a connection that is not an HTTP/2
    stream: allocates the receive buffer for the protocol's buffer size and
    tells the user.  [fresh] is what the allocator returns ([None]: NULL), its
    bytes behind [LWS_PRE]; [setsockopt_ok] the kernel's answer. *)
Definition lws_server_init_wsi_for_ws (E : env) (fresh : option bytes) (setsockopt_ok : bool)
    (w : lws) : Z * lws :=
  let w := set_state LRS_ESTABLISHED w in
  let w := if nz (ws_ping_pong_interval E) then sul_ping_insert (ws_ping_pong_interval E) w else w in
  let n := s32 (rx_buffer_size E) in
  let n := if n =? 0 then pt_serv_buf_size E else n in
  let n := n + LWS_PRE in
  let w := set_rx_ubuf fresh w in
  match fresh with
  | None => (1, w)
  | Some _ =>
    let w := set_rx_ubuf_alloc n w in
    if negb setsockopt_ok then (1, w)
    else
      let '(r, w) := (user_callback E (trace w) LWS_CALLBACK_ESTABLISHED [],
                      emit (Callback LWS_CALLBACK_ESTABLISHED []) w) in
      (if nz r then 1 else 0, w)
  end.

End WsRx.
