(* ===== verification/WsRxProof.v ===== *)
(** * Frames on the wire and the receive path

    RFC 6455 framing, and the proof that [lws_parse_ws] delivers the payload
    of every well-formed sequence of data frames whatever the pieces in which
    the bytes arrive. *)

From S2P Require Import Prelude CLib Buflist Utf8 WsState WsRx.

Module WsRxProof.
Import Ws WsRx.

(** ** RFC 6455, section 5.2 *)

Record frame := mk_frame {
  f_fin : bool;
  f_opc : Z;
  f_key : option bytes;   (* the masking key *)
  f_payload : bytes
}.

(** The payload combined with a key from key position [i]. *)
Fixpoint xor_from (k : bytes) (i : Z) (p : bytes) : bytes :=
  match p with
  | [] => []
  | x :: p' => Z.lxor x (nth (Z.to_nat (i mod 4)) k 0) :: xor_from k (i + 1) p'
  end.

Definition be16 (n : Z) : bytes := [n / 2 ^ 8 mod 256; n mod 256].
Definition be64 (n : Z) : bytes :=
  [n / 2 ^ 56 mod 256; n / 2 ^ 48 mod 256; n / 2 ^ 40 mod 256; n / 2 ^ 32 mod 256;
   n / 2 ^ 24 mod 256; n / 2 ^ 16 mod 256; n / 2 ^ 8 mod 256; n mod 256].

Definition wire_len (masked : bool) (n : Z) : bytes :=
  let m := if masked then 128 else 0 in
  if n <? 126 then [m + n]
  else if n <? 2 ^ 16 then (m + 126) :: be16 n
  else (m + 127) :: be64 n.

Definition is_masked (f : frame) : bool := match f_key f with Some _ => true | None => false end.

Definition wire_head (f : frame) : bytes :=
  [(if f_fin f then 128 else 0) + f_opc f]
  ++ wire_len (is_masked f) (len (f_payload f)) ++ default [] (f_key f).

Definition wire_body (f : frame) : bytes :=
  match f_key f with None => f_payload f | Some k => xor_from k 0 (f_payload f) end.

Definition wire (f : frame) : bytes := wire_head f ++ wire_body f.

(** A data frame; [c]: inside a fragmented message. *)
Definition data_frame (c : bool) (f : frame) : Prop :=
  (if c then f_opc f = 0 else f_opc f = 1 \/ f_opc f = 2) /\
  len (f_payload f) < 2 ^ 63 /\ all_bytes (f_payload f) /\
  match f_key f with None => True | Some k => length k = 4%nat /\ all_bytes k end.

(** A sequence of data frames that starts outside (inside) a message. *)
Fixpoint data_seq (c : bool) (fs : list frame) : Prop :=
  match fs with
  | [] => True
  | f :: fs' => data_frame c f /\ data_seq (negb (f_fin f)) fs'
  end.

(** What the user was given so far. *)
Definition received (tr : list event) : bytes :=
  concat (map (fun e => match e with Callback LWS_CALLBACK_RECEIVE p => p | _ => [] end) tr).

Lemma received_app a b : received (a ++ b) = received a ++ received b.
Proof. unfold received. by rewrite map_app, concat_app. Qed.

(** ** Masking *)

Lemma xor_len k i p : length (xor_from k i p) = length p.
Proof. revert i. induction p as [|x p IH]; intros i; simpl; [done|]. by rewrite IH. Qed.

Lemma xor_take k i p n : take n (xor_from k i p) = xor_from k i (take n p).
Proof. revert i n. induction p as [|x p IH]; intros i [|n]; simpl; [done..|]. by rewrite IH. Qed.

Lemma xor_drop k i p n : drop n (xor_from k i p) = xor_from k (i + Z.of_nat n) (drop n p).
Proof.
  revert i n. induction p as [|x p IH]; intros i [|n]; simpl; [done|done|by rewrite Z.add_0_r|].
  rewrite IH. f_equal. lia.
Qed.

Lemma xor_shift k i j p : i mod 4 = j mod 4 -> xor_from k i p = xor_from k j p.
Proof.
  revert i j. induction p as [|x p IH]; intros i j H; simpl; [done|]. rewrite H. f_equal.
  apply IH. rewrite <- (Z.add_mod_idemp_l i), <- (Z.add_mod_idemp_l j), H by lia. done.
Qed.

Lemma xor_twice k i p : xor_from k i (xor_from k i p) = p.
Proof.
  revert i. induction p as [|x p IH]; intros i; simpl; [done|]. rewrite IH. f_equal.
  by rewrite Z.lxor_assoc, Z.lxor_nilpotent, Z.lxor_0_r.
Qed.

Lemma xor_zero k i p : Forall (eq 0) k -> xor_from k i p = p.
Proof.
  intros Hk. revert i. induction p as [|x p IH]; intros i; simpl; [done|]. rewrite IH. f_equal.
  replace (nth (Z.to_nat (i mod 4)) k 0) with 0; [apply Z.lxor_0_r|].
  rewrite nth_lookup. destruct (k !! Z.to_nat (i mod 4)) eqn:Hl; simpl; [|done].
  by eapply Forall_lookup_1 in Hl.
Qed.

Lemma land3 i : Z.land i 3 = i mod 4.
Proof. change 3 with (Z.ones 2). by rewrite Z.land_ones. Qed.

(** The unwrapped loop is the plain one. *)
Lemma unmask4_xor k i n : forall l, (length l <= n)%nat ->
  unmask4 ((fun j => nth (Z.to_nat (Z.land (i + j) 3)) k 0) <$> [0; 1; 2; 3]) l = xor_from k i l.
Proof.
  revert i. induction n as [|n IH]; intros i l Hn; [by destruct l; [|simpl in Hn; lia]|].
  destruct l as [|a [|b [|c [|d l]]]]; cbn -[Z.land Z.modulo Z.add unmask4]; [done|..].
  - by rewrite land3, Z.add_0_r.
  - by rewrite !land3, Z.add_0_r.
  - rewrite !land3, Z.add_0_r. by rewrite <- !Z.add_assoc.
  - cbn [unmask4 nth]. rewrite !land3, Z.add_0_r. rewrite <- !Z.add_assoc.
    do 4 f_equal. simpl in Hn. rewrite <- (IH (i + (1 + (1 + (1 + 1))))) by lia.
    cbn -[Z.land Z.modulo Z.add unmask4]. rewrite !land3.
    assert (forall j, (i + (1 + (1 + (1 + 1))) + j) mod 4 = (i + j) mod 4) as H4.
    { intros j. replace (i + (1 + (1 + (1 + 1))) + j) with (i + j + 1 * 4) by lia. by rewrite Z.mod_add. }
    by rewrite !H4, Z.add_0_r.
Qed.

(** ** Connection states of the receive path *)

Section Proof.
Context (E : env).

(** The configuration: a receive buffer size that fits the integers of the
    code, no UTF-8 validation, and a user callback that accepts everything. *)
Definition env_ok : Prop :=
  0 < rx_buffer_size E < 2 ^ 31 /\ validate_utf8 E = false /\
  forall tr r p, user_callback E tr r p = 0.

(** What holds of an open connection between the bytes of data frames. *)
Definition base (w : lws) : Prop :=
  socket_is_permanently_unusable w = false /\ ietf_spec_revision w = 13 /\ rxflow_bitmap w = 0 /\
  state w = LRS_ESTABLISHED /\ wsistate_pre_close w = false /\ rx_ubuf_head w = 0 /\
  rx_ubuf_alloc w = rx_buffer_size E + LWS_PRE /\
  (exists b, rx_ubuf w = Some b /\ len b = rx_buffer_size E + 4) /\
  length (mask w) = 4%nat /\ check_utf8 w = false.

(** Between frames; [c]: inside a fragmented message. *)
Definition ready (c : bool) (w : lws) : Prop :=
  base w /\ lws_rx_parse_state w = LWS_RXPS_NEW /\
  continuation_possible w = c /\ owed_a_fin w = c.

(** The header of a data frame has been read up to and including its
    opcode. *)
Definition in_frame (f : frame) (w : lws) : Prop :=
  base w /\ opcode w = f_opc f /\ final w = f_fin f /\
  continuation_possible w = negb (f_fin f) /\ owed_a_fin w = negb (f_fin f).

Definition data_opc (z : Z) : Prop := z = 0 \/ z = 1 \/ z = 2.

(** What is still to come of a payload [p] as the bytes on the wire. *)
Definition cipher (w : lws) (p : bytes) : bytes :=
  if all_zero_nonce w then p else xor_from (mask w) (mask_idx w) p.

(** Inside the payload, [p] still to come. *)
Definition in_payload (f : frame) (p : bytes) (w : lws) : Prop :=
  in_frame f w /\ lws_rx_parse_state w = LWS_RXPS_WS_FRAME_PAYLOAD /\
  rx_packet_length w = len p.

(** Splits conjunctions and resolves the projections in each part. *)
Ltac ws_solve := repeat split; ws_red; try done; try assumption.

Lemma first_fin f w : base w -> opcode w = f_opc f -> data_opc (f_opc f) -> final w = f_fin f ->
  rsv w = 0 -> (owed_a_fin w = true -> f_opc f = 0) ->
  (f_fin f = false -> continuation_possible w = true) ->
  exists w1, rx_first_fin w = (0, w1) /\ in_frame f w1 /\
    lws_rx_parse_state w1 = LWS_RXPS_04_FRAME_HDR_LEN /\
    all_zero_nonce w1 = all_zero_nonce w /\ trace w1 = trace w.
Proof.
  intros Hb Ho Hd Hf Hr Ha Hc. unfold rx_first_fin.
  assert (owed_a_fin w && ((opcode w =? LWSWSOPC_TEXT_FRAME) || (opcode w =? LWSWSOPC_BINARY_FRAME))
          = false) as ->.
  { destruct (owed_a_fin w); [|done]. rewrite Ho, (Ha eq_refl). done. }
  assert (Z.land (opcode w) 8 = 0) as ->.
  { rewrite Ho. by destruct Hd as [-> | [-> | ->]]. }
  change (nz 0) with false. cbn [negb andb]. unfold in_frame, base in *.
  destruct (final w) eqn:Efin; rewrite <- Hf in *; cbv zeta; ws_red; rewrite ?Efin; cbn [negb];
    ws_red; rewrite ?Hr; change (nz 0) with false; cbn [andb];
    (eexists; split; [reflexivity|]); ws_cbn; intuition congruence.
Qed.

Lemma first_switch c c0 f w : env_ok -> base w -> opcode w = f_opc f -> final w = f_fin f ->
  data_frame c0 f -> continuation_possible w = c0 ->
  exists w1, rx_first_switch E c w = (false, w1) /\ base w1 /\
    (c0 = false -> continuation_possible w1 = negb (f_fin f)) /\
    (c0 = true -> continuation_possible w1 = true) /\
    opcode w1 = opcode w /\ final w1 = final w /\ rsv w1 = rsv w /\ owed_a_fin w1 = owed_a_fin w /\
    all_zero_nonce w1 = all_zero_nonce w /\ trace w1 = trace w.
Proof.
  intros (_ & Hv & _) Hb Ho Hf (Hopc & _) Hc. unfold rx_first_switch. rewrite Hv.
  destruct c0.
  - rewrite Ho, Hopc, Hc. cbn. eexists. split; [reflexivity|].
    intuition congruence.
  - assert (((opcode w =? LWSWSOPC_TEXT_FRAME) || (opcode w =? LWSWSOPC_BINARY_FRAME)) = true) as ->
      by (rewrite Ho; by destruct Hopc as [-> | ->]).
    replace (if opcode w =? LWSWSOPC_BINARY_FRAME then false else false) with false
      by (by destruct (opcode w =? _)).
    cbv zeta. ws_red. rewrite Hc. eexists. split; [reflexivity|].
    unfold base in *. ws_cbn. rewrite Hf. intuition congruence.
Qed.

Lemma first_byte c f w : env_ok -> ready c w -> data_frame c f ->
  exists w1, lws_ws_rx_sm E false false ((if f_fin f then 128 else 0) + f_opc f) w = Ok (0, w1) /\
    in_frame f w1 /\ lws_rx_parse_state w1 = LWS_RXPS_04_FRAME_HDR_LEN /\
    all_zero_nonce w1 = true /\ trace w1 = trace w.
Proof.
  intros He (Hb & Hs & Hc & Ho) Hd. pose proof Hb as (Hu & Hr & _).
  assert (data_opc (f_opc f)) as Hopc
    by (destruct Hd as [Hd _]; unfold data_opc; destruct c; intuition).
  unfold lws_ws_rx_sm. rewrite Hu, Hs, Hr. change (13 =? 13) with true. cbv iota.
  set (b := (if f_fin f then 128 else 0) + f_opc f).
  assert (Z.land b 15 = f_opc f /\ Z.land b 112 = 0 /\ Z.testbit b 7 = f_fin f) as (B1 & B2 & B3)
    by (unfold b; by destruct Hopc as [-> | [-> | ->]], (f_fin f)).
  unfold rx_handle_first. rewrite B1, B2, B3. cbv zeta.
  set (w0 := set_defeat_check_utf8 false _). change (opcode w0) with (f_opc f).
  assert (Z.land (f_opc f) 8 = 0) as -> by (by destruct Hopc as [-> | [-> | ->]]).
  change (nz 0) with false. cbn [andb].
  destruct (first_switch b c f w0) as (w1 & -> & Hb1 & Hc1 & Hc2 & H1 & H2 & H3 & H4 & H5 & H6);
    [done|unfold base, w0; ws_cbn; exact Hb|reflexivity|reflexivity|done|exact Hc|].
  destruct (first_fin f w1) as (w2 & -> & G1 & G2 & G3 & G4); [done|by rewrite H1|done|by rewrite H2|
    by rewrite H3| | |].
  - rewrite H4. change (owed_a_fin w0) with (owed_a_fin w). rewrite Ho. intros ->. by destruct Hd.
  - intros Hfin. destruct c; [by apply Hc2|]. by rewrite Hc1, Hfin.
  - eexists. split; [reflexivity|]. split; [done|]. split; [done|]. rewrite G3, H5, G4, H6. done.
Qed.

(** A run of the byte-wise path outside payloads, without a close. *)
Inductive hdr_run : lws -> bytes -> lws -> Prop :=
| hdr_nil w : hdr_run w [] w
| hdr_cons w c l w1 w2 :
    lws_rx_parse_state w <> LWS_RXPS_WS_FRAME_PAYLOAD -> rxflow_bitmap w = 0 ->
    lws_ws_rx_sm E false false c w = Ok (0, w1) -> hdr_run w1 l w2 -> hdr_run w (c :: l) w2.

Lemma hdr_app w l w1 l' w2 : hdr_run w l w1 -> hdr_run w1 l' w2 -> hdr_run w (l ++ l') w2.
Proof. induction 1; simpl; [done|]. intros. econstructor; eauto. Qed.

(** One byte in a state where the frame is known. *)
Lemma hdr_one f w c w1 : in_frame f w -> lws_rx_parse_state w <> LWS_RXPS_WS_FRAME_PAYLOAD ->
  lws_ws_rx_sm E false false c w = Ok (0, w1) -> hdr_run w [c] w1.
Proof.
  intros (Hb & _) Hs H. econstructor; [done| |exact H|constructor]. by destruct Hb as (_ & _ & ? & _).
Qed.

(** [in_frame] does not depend on the members the header states assign. *)
Lemma in_frame_same f w w' : in_frame f w ->
  socket_is_permanently_unusable w' = socket_is_permanently_unusable w ->
  ietf_spec_revision w' = ietf_spec_revision w -> rxflow_bitmap w' = rxflow_bitmap w ->
  state w' = state w -> wsistate_pre_close w' = wsistate_pre_close w ->
  rx_ubuf_head w' = rx_ubuf_head w -> rx_ubuf_alloc w' = rx_ubuf_alloc w ->
  rx_ubuf w' = rx_ubuf w -> length (mask w') = length (mask w) -> check_utf8 w' = check_utf8 w ->
  opcode w' = opcode w -> final w' = final w ->
  continuation_possible w' = continuation_possible w -> owed_a_fin w' = owed_a_fin w ->
  in_frame f w'.
Proof.
  unfold in_frame, base. intros ((? & ? & ? & ? & ? & ? & ? & (b & ? & ?) & ? & ?) & ? & ? & ? & ?).
  intros. repeat split; try congruence. exists b. split; congruence.
Qed.

(** Where the header leaves the machine behind the length. *)
Definition len_end (f : frame) (n : Z) (st : lws_rx_parse_state_t) (w w' : lws) : Prop :=
  in_frame f w' /\ lws_rx_parse_state w' = st /\ rx_packet_length w' = n /\
  all_zero_nonce w' = all_zero_nonce w /\ trace w' = trace w.

Definition after_len (masked : bool) : lws_rx_parse_state_t :=
  if masked then LWS_RXPS_07_COLLECT_FRAME_KEY_1 else LWS_RXPS_WS_FRAME_PAYLOAD.

Lemma frame_unusable f w : in_frame f w -> socket_is_permanently_unusable w = false.
Proof. by intros ((? & _) & _). Qed.

Lemma masked_bit (m : bool) n : 0 <= n < 128 ->
  Z.land ((if m then 128 else 0) + n) 127 = n /\ Z.testbit ((if m then 128 else 0) + n) 7 = m.
Proof.
  intros Hn.
  assert (Forall (fun n => Z.land (128 + n) 127 = n /\ Z.testbit (128 + n) 7 = true /\
    Z.land n 127 = n /\ Z.testbit n 7 = false) (seqZ 0 128)) as H
    by (apply (bool_decide_unpack _); vm_compute; exact I).
  rewrite Forall_forall in H. destruct (H n) as (? & ? & ? & ?); [apply elem_of_seqZ; lia|].
  by destruct m.
Qed.

(** Collecting a length most significant byte first. *)
Lemma len_or n sh : 0 <= n < 2 ^ 64 -> 0 <= sh ->
  Z.lor (n / 2 ^ (sh + 8) * 2 ^ (sh + 8)) (u64 (Z.shiftl (n / 2 ^ sh mod 256) sh))
  = n / 2 ^ sh * 2 ^ sh.
Proof.
  intros Hn Hsh. rewrite Z.shiftl_mul_pow2 by lia.
  pose proof (Z.pow_pos_nonneg 2 sh ltac:(lia) Hsh) as Hp.
  pose proof (Z.mod_pos_bound (n / 2 ^ sh) 256 ltac:(lia)) as Hm.
  assert (n / 2 ^ (sh + 8) = n / 2 ^ sh / 256) as Hd.
  { rewrite Z.pow_add_r by lia. rewrite <- Z.div_div by lia. done. }
  pose proof (Z.div_mod (n / 2 ^ sh) 256 ltac:(lia)) as Hdm.
  pose proof (Z.mul_div_le n (2 ^ sh) Hp) as Hle.
  assert (0 <= n / 2 ^ sh) by (apply Z.div_pos; lia).
  assert (0 <= n / 2 ^ sh / 256) by (apply Z.div_pos; lia).
  rewrite u64_small by nia. rewrite Hd, lor_add.
  - rewrite Z.pow_add_r by lia. change (2 ^ 8) with 256. nia.
  - lia.
  - rewrite Z.pow_add_r by lia. change (2 ^ 8) with 256. nia.
Qed.

Lemma len_mid f n sh st st' w : 0 <= n < 2 ^ 64 -> 0 <= sh ->
  in_frame f w -> lws_rx_parse_state w = st -> st <> LWS_RXPS_WS_FRAME_PAYLOAD ->
  rx_packet_length w = n / 2 ^ (sh + 8) * 2 ^ (sh + 8) ->
  (forall c w, socket_is_permanently_unusable w = false -> lws_rx_parse_state w = st ->
     lws_ws_rx_sm E false false c w = Ok (0, set_lws_rx_parse_state st' (or_length c sh w))) ->
  exists w', hdr_run w [n / 2 ^ sh mod 256] w' /\ len_end f (n / 2 ^ sh * 2 ^ sh) st' w w' /\
    this_frame_masked w' = this_frame_masked w.
Proof.
  intros Hn Hsh Hf Hs Hst Hl Hstep. pose proof (frame_unusable f w Hf) as Hu.
  eexists. split; [eapply hdr_one; [exact Hf|by rewrite Hs|by apply Hstep]|].
  unfold len_end, or_length. rewrite Hl, len_or by done.
  split; [|done]. split; [|done]. eapply in_frame_same; [exact Hf|reflexivity..].
Qed.

(** The last byte of an extended length. *)
Lemma len_last f n st w : 0 <= n < 2 ^ 64 ->
  in_frame f w -> lws_rx_parse_state w = st -> st <> LWS_RXPS_WS_FRAME_PAYLOAD ->
  rx_packet_length w = n / 2 ^ 8 * 2 ^ 8 ->
  (forall c w, socket_is_permanently_unusable w = false -> lws_rx_parse_state w = st ->
     lws_ws_rx_sm E false false c w = Ok (0, rx_len_end (or_length c 0 w))) ->
  exists w', hdr_run w [n mod 256] w' /\ len_end f n (after_len (this_frame_masked w)) w w'.
Proof.
  intros Hn Hf Hs Hst Hl Hstep. pose proof (frame_unusable f w Hf) as Hu.
  eexists. split; [eapply hdr_one; [exact Hf|by rewrite Hs|by apply Hstep]|].
  pose proof (len_or n 0 Hn ltac:(lia)) as Hor. rewrite Z.div_1_r, Z.mul_1_r in Hor.
  unfold len_end, or_length, rx_len_end, after_len. rewrite Hl. change (2 ^ 8) with (2 ^ (0 + 8)).
  rewrite Hor. ws_red. destruct (this_frame_masked w);
    (split; [eapply in_frame_same; [exact Hf|reflexivity..]|done]).
Qed.

Ltac sm_step := intros ? ? Hu' Hs'; unfold lws_ws_rx_sm; rewrite Hu', Hs'; reflexivity.

Lemma len16 f n w : 126 <= n < 2 ^ 16 -> in_frame f w ->
  lws_rx_parse_state w = LWS_RXPS_04_FRAME_HDR_LEN16_2 ->
  exists w', hdr_run w (be16 n) w' /\ len_end f n (after_len (this_frame_masked w)) w w'.
Proof.
  intros Hn Hf Hs. pose proof (frame_unusable f w Hf) as Hu.
  set (w1 := set_lws_rx_parse_state LWS_RXPS_04_FRAME_HDR_LEN16_1
               (set_rx_packet_length (Z.shiftl (n / 2 ^ 8 mod 256) 8) w)).
  assert (in_frame f w1) as Hf1 by (eapply in_frame_same; [exact Hf|reflexivity..]).
  destruct (len_last f n LWS_RXPS_04_FRAME_HDR_LEN16_1 w1) as (w2 & H2 & H3);
    [lia|done|done|done| |sm_step|].
  { unfold w1. ws_cbn. rewrite Z.shiftl_mul_pow2 by lia. f_equal. apply Z.mod_small. dlia. }
  exists w2. split; [|exact H3].
  unfold be16. eapply (hdr_app w [n / 2 ^ 8 mod 256] w1); [|exact H2].
  eapply hdr_one; [exact Hf|by rewrite Hs|]. unfold lws_ws_rx_sm. by rewrite Hu, Hs.
Qed.

Lemma len_end_trans f n n' st st' w w1 w2 :
  len_end f n st w w1 -> len_end f n' st' w1 w2 -> len_end f n' st' w w2.
Proof. unfold len_end. intuition congruence. Qed.

(** Steps through one middle byte of a 64-bit length. *)
Ltac len_mid_step n sh st st' :=
  match goal with
  | Hr : hdr_run ?w0 ?l ?w, He : len_end ?f (n / 2 ^ ?k * 2 ^ ?k) st ?w0 ?w,
    Hm : this_frame_masked ?w = _ |- _ =>
    let w' := fresh "w" in let Hr' := fresh "Hr" in let He' := fresh "He" in let Hm' := fresh "Hm" in
    destruct (len_mid f n sh st st' w) as (w' & Hr' & He' & Hm');
    [lia|lia|apply He|apply He|discriminate|apply He|sm_step|];
    rewrite Hm in Hm'; pose proof (len_end_trans _ _ _ _ _ _ _ _ He He');
    pose proof (hdr_app _ _ _ _ _ Hr Hr'); clear Hr He Hm Hr' He'
  end.

Lemma len64 f n w : 0 <= n < 2 ^ 63 -> in_frame f w ->
  lws_rx_parse_state w = LWS_RXPS_04_FRAME_HDR_LEN64_8 ->
  exists w', hdr_run w (be64 n) w' /\ len_end f n (after_len (this_frame_masked w)) w w'.
Proof.
  intros Hn Hf Hs. pose proof (frame_unusable f w Hf) as Hu.
  assert (0 <= n / 2 ^ 56 < 128) as Htop.
  { split; [apply Z.div_pos; lia|]. apply Z.div_lt_upper_bound; lia. }
  set (w1 := set_lws_rx_parse_state LWS_RXPS_04_FRAME_HDR_LEN64_7
               (set_rx_packet_length (u64 (Z.shiftl (n / 2 ^ 56 mod 256) 56)) w)).
  assert (hdr_run w [n / 2 ^ 56 mod 256] w1) as Hr.
  { eapply hdr_one; [exact Hf|by rewrite Hs|]. unfold lws_ws_rx_sm. rewrite Hu, Hs.
    replace (Z.land (n / 2 ^ 56 mod 256) 128) with 0; [done|].
    rewrite Z.mod_small by lia. symmetry. apply Z.bits_inj'. intros i Hi.
    rewrite Z.land_spec, Z.bits_0. change 128 with (2 ^ 7). rewrite Z.pow2_bits_eqb by lia.
    destruct (Z.eqb_spec 7 i) as [<- |]; [|apply andb_false_r].
    rewrite <- (Z.mod_small (n / 2 ^ 56) (2 ^ 7)) by lia. by rewrite Z.mod_pow2_bits_high. }
  assert (len_end f (n / 2 ^ 56 * 2 ^ 56) LWS_RXPS_04_FRAME_HDR_LEN64_7 w w1) as He.
  { unfold len_end. split; [eapply in_frame_same; [exact Hf|reflexivity..]|].
    split; [done|]. split; [|done]. unfold w1. ws_cbn.
    rewrite Z.shiftl_mul_pow2, Z.mod_small, u64_small by lia. done. }
  assert (this_frame_masked w1 = this_frame_masked w) as Hm by done.
  len_mid_step n 48 LWS_RXPS_04_FRAME_HDR_LEN64_7 LWS_RXPS_04_FRAME_HDR_LEN64_6.
  len_mid_step n 40 LWS_RXPS_04_FRAME_HDR_LEN64_6 LWS_RXPS_04_FRAME_HDR_LEN64_5.
  len_mid_step n 32 LWS_RXPS_04_FRAME_HDR_LEN64_5 LWS_RXPS_04_FRAME_HDR_LEN64_4.
  len_mid_step n 24 LWS_RXPS_04_FRAME_HDR_LEN64_4 LWS_RXPS_04_FRAME_HDR_LEN64_3.
  len_mid_step n 16 LWS_RXPS_04_FRAME_HDR_LEN64_3 LWS_RXPS_04_FRAME_HDR_LEN64_2.
  len_mid_step n 8 LWS_RXPS_04_FRAME_HDR_LEN64_2 LWS_RXPS_04_FRAME_HDR_LEN64_1.
  lazymatch goal with
  | Hr : hdr_run w ?l ?w', He : len_end f _ LWS_RXPS_04_FRAME_HDR_LEN64_1 w ?w',
    Hm : this_frame_masked ?w' = _ |- _ =>
    destruct (len_last f n LWS_RXPS_04_FRAME_HDR_LEN64_1 w') as (wl & Hrl & Hel);
    [lia|apply He|apply He|discriminate|apply He|sm_step|];
    rewrite Hm in Hel; exists wl; split; [exact (hdr_app _ _ _ _ _ Hr Hrl)|];
    exact (len_end_trans _ _ _ _ _ _ _ _ He Hel)
  end.
Qed.

(** ** Delivery of a data frame's payload from the collected buffer (empty) *)

Lemma spill_empty f w : env_ok -> in_frame f w -> data_opc (f_opc f) ->
  exists w', rx_spill E false (set_lws_rx_parse_state LWS_RXPS_NEW w) = (0, w') /\
    ready (negb (f_fin f)) w' /\ trace w' = trace w ++ [Callback LWS_CALLBACK_RECEIVE []].
Proof.
  intros (_ & _ & Hcb) Hf Hd. set (w1 := set_lws_rx_parse_state LWS_RXPS_NEW w).
  pose proof Hf as ((_ & _ & _ & Hst & Hpre & Hh & _ & _ & _ & Hchk) & Ho & _).
  assert (rx_spill E false w1 = rx_deliver E false LWS_CALLBACK_RECEIVE w1) as ->.
  { unfold rx_spill. change (opcode w1) with (opcode w). rewrite Ho. by destruct Hd as [-> | [-> | ->]]. }
  unfold rx_deliver, state_is. change (opcode w1) with (opcode w). change (rx_ubuf_head w1) with (rx_ubuf_head w).
  change (state w1) with (state w). change (check_utf8 w1) with (check_utf8 w).
  rewrite Hh, Hst, Hchk. change (nz 0) with false.
  rewrite !bool_decide_eq_false_2 by discriminate. cbn [andb orb].
  assert (((opcode w =? LWSWSOPC_PONG) && (0 =? 0)) = false) as ->
    by (rewrite Ho; by destruct Hd as [-> | [-> | ->]]).
  change (wsistate_pre_close w1) with (wsistate_pre_close w). rewrite Hpre. cbn [negb].
  unfold user_callback_handle_rxflow. rewrite Hcb. cbv iota zeta.
  assert (collected w1 = []) as ->.
  { unfold collected. change (rx_ubuf_head w1) with (rx_ubuf_head w). by rewrite Hh. }
  eexists. split; [reflexivity|]. split; [|done].
  unfold in_frame, ready, base, w1 in *. ws_cbn. intuition congruence.
Qed.

(** ** The rest of the header *)

(** The first byte of the length in a data frame. *)
Lemma hdr_len_step f (m : bool) k w : in_frame f w -> data_opc (f_opc f) ->
  lws_rx_parse_state w = LWS_RXPS_04_FRAME_HDR_LEN -> 0 <= k < 128 ->
  let w1 := set_this_frame_masked m w in
  let w2 := set_rx_packet_length k w1 in
  lws_ws_rx_sm E false false ((if m then 128 else 0) + k) w =
    Ok (if k =? 126 then (0, set_lws_rx_parse_state LWS_RXPS_04_FRAME_HDR_LEN16_2 w1)
        else if k =? 127 then (0, set_lws_rx_parse_state LWS_RXPS_04_FRAME_HDR_LEN64_8 w1)
        else if m then (0, set_lws_rx_parse_state LWS_RXPS_07_COLLECT_FRAME_KEY_1 w2)
        else if nz k then (0, set_lws_rx_parse_state LWS_RXPS_WS_FRAME_PAYLOAD w2)
        else rx_spill E false (set_lws_rx_parse_state LWS_RXPS_NEW w2)).
Proof.
  intros Hf Hd Hs Hk. destruct (masked_bit m k Hk) as [B1 B2].
  unfold lws_ws_rx_sm, rx_hdr_len. rewrite (frame_unusable f w Hf), Hs, B1, B2.
  cbv zeta. set (w1 := set_this_frame_masked m w). set (w2 := set_rx_packet_length k w1).
  change (opcode w1) with (opcode w). change (this_frame_masked w2) with m.
  change (rx_packet_length w2) with k. destruct Hf as (_ & Ho & _).
  assert (nz (Z.land (opcode w) 8) = false) as ->
    by (rewrite Ho; by destruct Hd as [-> | [-> | ->]]).
  by destruct (k =? 126), (k =? 127), m, (nz k).
Qed.

Lemma len_phase f (m : bool) n w : in_frame f w -> data_opc (f_opc f) ->
  lws_rx_parse_state w = LWS_RXPS_04_FRAME_HDR_LEN -> 0 <= n < 2 ^ 63 -> (m || nz n) = true ->
  exists w', hdr_run w (wire_len m n) w' /\ len_end f n (after_len m) w w'.
Proof.
  intros Hf Hd Hs Hn Hmn.
  pose proof (hdr_len_step f m) as Hstep. unfold wire_len.
  assert (forall st, in_frame f (set_lws_rx_parse_state st (set_this_frame_masked m w))) as Hin
    by (intros st; eapply in_frame_same; [exact Hf|reflexivity..]).
  destruct (Z.ltb_spec n 126) as [H1|H1]; [|destruct (Z.ltb_spec n (2 ^ 16)) as [H2|H2]].
  - specialize (Hstep n w Hf Hd Hs ltac:(lia)). cbv zeta in Hstep.
    rewrite (proj2 (Z.eqb_neq n 126)), (proj2 (Z.eqb_neq n 127)) in Hstep by lia.
    exists (set_lws_rx_parse_state (after_len m) (set_rx_packet_length n (set_this_frame_masked m w))).
    split.
    + eapply hdr_one; [exact Hf|by rewrite Hs|]. rewrite Hstep.
      destruct m; [reflexivity|]. simpl in Hmn. rewrite Hmn. reflexivity.
    + destruct m; (split; [eapply in_frame_same; [exact Hf|reflexivity..]|done]).
  - specialize (Hstep 126 w Hf Hd Hs ltac:(lia)). cbv zeta in Hstep.
    change (126 =? 126) with true in Hstep. cbv iota in Hstep.
    destruct (len16 f n _ ltac:(lia) (Hin LWS_RXPS_04_FRAME_HDR_LEN16_2) eq_refl) as (w' & Hr & He).
    exists w'. split; [|exact He].
    eapply (hdr_app _ [_]); [eapply hdr_one; [exact Hf|by rewrite Hs|exact Hstep]|exact Hr].
  - specialize (Hstep 127 w Hf Hd Hs ltac:(lia)). cbv zeta in Hstep.
    change (127 =? 126) with false in Hstep. change (127 =? 127) with true in Hstep. cbv iota in Hstep.
    destruct (len64 f n _ ltac:(lia) (Hin LWS_RXPS_04_FRAME_HDR_LEN64_8) eq_refl) as (w' & Hr & He).
    exists w'. split; [|exact He].
    eapply (hdr_app _ [_]); [eapply hdr_one; [exact Hf|by rewrite Hs|exact Hstep]|exact Hr].
Qed.

(** A byte of the key: [ks] are the key bytes read before it. *)
Definition key_state (f : frame) (n : Z) (ks : bytes) (st : lws_rx_parse_state_t) (w w' : lws) : Prop :=
  in_frame f w' /\ lws_rx_parse_state w' = st /\ rx_packet_length w' = n /\
  take (length ks) (mask w') = ks /\ all_zero_nonce w' = List.forallb (Z.eqb 0) ks /\ trace w' = trace w.

Lemma key_step f n ks i k st st' w0 w :
  key_state f n ks st w0 w -> i = length ks -> (i < 4)%nat ->
  key_state f n (ks ++ [k]) st' w0 (rx_key i k st' w).
Proof.
  intros (Hf & Hs & Hn & Hk & Hz & Ht) -> Hi. unfold rx_key.
  pose proof Hf as ((_ & _ & _ & _ & _ & _ & _ & _ & Hlen & _) & _).
  assert (take (length (ks ++ [k])) (<[length ks := k]> (mask w)) = ks ++ [k]) as Htake.
  { rewrite length_app. cbn [length]. rewrite <- Hk at 3.
    rewrite Nat.add_1_r. erewrite take_S_r; [|by apply list_lookup_insert_eq; lia].
    f_equal. rewrite take_insert_ge by lia. done. }
  unfold key_state. rewrite List.forallb_app. unfold nz. rewrite (Z.eqb_sym k 0).
  destruct (0 =? k) eqn:Ek; cbn [negb];
    (split; [eapply in_frame_same; [exact Hf|try reflexivity..]; ws_cbn; by rewrite length_insert|]);
    ws_cbn; cbn [List.forallb]; rewrite ?Ek, ?andb_true_r, ?andb_false_r; auto.
Qed.

(** The whole key. *)
Lemma key_phase f n k w : env_ok -> in_frame f w -> data_opc (f_opc f) -> length k = 4%nat ->
  lws_rx_parse_state w = LWS_RXPS_07_COLLECT_FRAME_KEY_1 -> rx_packet_length w = n ->
  all_zero_nonce w = true ->
  exists w', hdr_run w k w' /\
    (n <> 0 -> in_frame f w' /\ lws_rx_parse_state w' = LWS_RXPS_WS_FRAME_PAYLOAD /\
       rx_packet_length w' = n /\ mask w' = k /\ mask_idx w' = 0 /\
       all_zero_nonce w' = List.forallb (Z.eqb 0) k /\ trace w' = trace w) /\
    (n = 0 -> ready (negb (f_fin f)) w' /\
       trace w' = trace w ++ [Callback LWS_CALLBACK_RECEIVE []]).
Proof.
  intros He Hf Hd Hk Hs Hn Hz.
  destruct k as [|k0 [|k1 [|k2 [|k3 [|]]]]]; try discriminate Hk.
  assert (key_state f n [] LWS_RXPS_07_COLLECT_FRAME_KEY_1 w w) as S0 by (unfold key_state; split_and!; done).
  pose proof (key_step _ _ _ 0 k0 _ LWS_RXPS_07_COLLECT_FRAME_KEY_2 _ _ S0 eq_refl ltac:(lia)) as S1.
  pose proof (key_step _ _ _ 1 k1 _ LWS_RXPS_07_COLLECT_FRAME_KEY_3 _ _ S1 eq_refl ltac:(lia)) as S2.
  pose proof (key_step _ _ _ 2 k2 _ LWS_RXPS_07_COLLECT_FRAME_KEY_4 _ _ S2 eq_refl ltac:(lia)) as S3.
  pose proof (key_step _ _ _ 3 k3 _ LWS_RXPS_WS_FRAME_PAYLOAD _ _ S3 eq_refl ltac:(lia)) as S4.
  cbn [app] in S1, S2, S3, S4.
  set (w1 := rx_key 0 k0 _ w) in *. set (w2 := rx_key 1 k1 _ w1) in *.
  set (w3 := rx_key 2 k2 _ w2) in *. set (w4 := rx_key 3 k3 _ w3) in *.
  assert (hdr_run w [k0; k1; k2] w3) as Hr.
  { eapply (hdr_app _ [k0] w1).
    { eapply hdr_one; [exact Hf|by rewrite Hs|]. unfold lws_ws_rx_sm. by rewrite (frame_unusable f w Hf), Hs. }
    destruct S1 as (Hf1 & Hs1 & _). eapply (hdr_app _ [k1] w2).
    { eapply hdr_one; [exact Hf1|by rewrite Hs1|]. unfold lws_ws_rx_sm. by rewrite (frame_unusable f w1 Hf1), Hs1. }
    destruct S2 as (Hf2 & Hs2 & _).
    eapply hdr_one; [exact Hf2|by rewrite Hs2|]. unfold lws_ws_rx_sm. by rewrite (frame_unusable f w2 Hf2), Hs2. }
  destruct S3 as (Hf3 & Hs3 & _). destruct S4 as (Hf4 & Hs4 & Hn4 & Hm4 & Hz4 & Ht4).
  assert (mask w4 = [k0; k1; k2; k3]) as Hmask.
  { rewrite <- Hm4. symmetry. apply take_ge. pose proof Hf4 as ((_ & _ & _ & _ & _ & _ & _ & _ & Hl & _) & _).
    rewrite Hl. simpl. lia. }
  set (w5 := set_mask_idx 0 w4).
  assert (in_frame f w5) as Hf5 by (eapply in_frame_same; [exact Hf4|reflexivity..]).
  assert (lws_ws_rx_sm E false false k3 w3 =
    Ok (if n =? 0 then rx_spill E false (set_lws_rx_parse_state LWS_RXPS_NEW w5) else (0, w5))) as Hlast.
  { unfold lws_ws_rx_sm, rx_key_4. rewrite (frame_unusable f w3 Hf3), Hs3. fold w4. cbv zeta. fold w5.
    change (rx_packet_length w5) with (rx_packet_length w4). by rewrite Hn4. }
  destruct (spill_empty f w5 He Hf5 Hd) as (w6 & Hsp & Hready & Htr).
  exists (if n =? 0 then w6 else w5). split.
  - eapply (hdr_app _ [k0; k1; k2]); [exact Hr|]. eapply hdr_one; [exact Hf3|by rewrite Hs3|].
    rewrite Hlast, Hsp. by destruct (n =? 0).
  - destruct (Z.eqb_spec n 0) as [En|En]; split; intros Hn0; try done.
    split; [done|]. by rewrite Htr, <- Ht4.
Qed.

(** After the header of a data frame the machine is in its payload; an empty
    payload was delivered and the next frame is expected. *)
Lemma header c f w : env_ok -> ready c w -> data_frame c f ->
  exists w', hdr_run w (wire_head f) w' /\
    (f_payload f <> [] -> in_payload f (f_payload f) w' /\
       cipher w' (f_payload f) = wire_body f /\ trace w' = trace w) /\
    (f_payload f = [] -> ready (negb (f_fin f)) w' /\
       trace w' = trace w ++ [Callback LWS_CALLBACK_RECEIVE []]).
Proof.
  intros He Hr Hd. pose proof Hr as ((_ & _ & Hflow & _) & Hs & _).
  assert (data_opc (f_opc f)) as Hopc
    by (destruct Hd as [Hd _]; unfold data_opc; destruct c; intuition).
  destruct (first_byte c f w He Hr Hd) as (w1 & Hstep & Hf1 & Hs1 & Hz1 & Ht1).
  assert (hdr_run w [(if f_fin f then 128 else 0) + f_opc f] w1) as Hr1
    by (econstructor; [by rewrite Hs|done|exact Hstep|constructor]).
  set (n := len (f_payload f)).
  assert (0 <= n < 2 ^ 63) as Hn by (split; [apply len_nonneg|apply Hd]).
  assert (n = 0 <-> f_payload f = []) as Hn0.
  { unfold n, len. destruct (f_payload f); simpl; split; try done; lia. }
  unfold wire_head, is_masked, wire_body. fold n. destruct Hd as (_ & _ & _ & Hkey).
  destruct (f_key f) as [k|].
  - destruct (len_phase f true n w1 Hf1 Hopc Hs1 Hn eq_refl) as (w2 & Hr2 & Hf2 & Hs2 & Hl2 & Hz2 & Ht2).
    destruct (key_phase f n k w2 He Hf2 Hopc) as (w3 & Hr3 & H1 & H0); [apply Hkey|done|done|congruence|].
    exists w3. split; [eapply hdr_app; [exact Hr1|]; eapply hdr_app; [exact Hr2|exact Hr3]|].
    split; intros Hp.
    + destruct H1 as (Hf3 & Hs3 & Hl3 & Hm3 & Hi3 & Hz3 & Ht3); [by rewrite Hn0|].
      split; [unfold in_payload; auto|]. split; [|congruence].
      unfold cipher. rewrite Hz3, Hm3, Hi3. destruct (List.forallb (Z.eqb 0) k) eqn:Ek; [|done].
      symmetry. apply xor_zero. rewrite List.forallb_forall in Ek. apply Forall_forall. intros x Hx.
      apply list_elem_of_In in Hx. by apply Z.eqb_eq, Ek.
    + destruct H0 as [H0 H0']; [by rewrite Hn0|]. split; [done|]. congruence.
  - destruct (decide (n = 0)) as [E0|E0].
    + rewrite E0. change (wire_len false 0) with [0]. cbn [default app].
      pose proof (hdr_len_step f false 0 w1 Hf1 Hopc Hs1 ltac:(lia)) as Hst. cbv zeta in Hst.
      set (w2 := set_rx_packet_length 0 (set_this_frame_masked false w1)) in *.
      assert (in_frame f w2) as Hf2 by (eapply in_frame_same; [exact Hf1|reflexivity..]).
      destruct (spill_empty f w2 He Hf2 Hopc) as (w3 & Hsp & Hready & Htr).
      exists w3. split; [|split; [by intros Hp; destruct Hp; apply Hn0|]].
      * eapply (hdr_app _ [_]); [exact Hr1|]. eapply hdr_one; [exact Hf1|by rewrite Hs1|].
        rewrite <- Hsp. exact Hst.
      * intros _. split; [done|]. rewrite Htr. change (trace w2) with (trace w1). by rewrite Ht1.
    + destruct (len_phase f false n w1 Hf1 Hopc Hs1 Hn) as (w2 & Hr2 & Hf2 & Hs2 & Hl2 & Hz2 & Ht2);
        [by apply nz_true|].
      exists w2. cbn [default]. rewrite app_nil_r. split; [eapply hdr_app; [exact Hr1|exact Hr2]|].
      split; intros Hp; [|by destruct E0; apply Hn0].
      split; [unfold in_payload; auto|]. split; [|congruence].
      unfold cipher. by rewrite Hz2, Hz1.
Qed.

(** ** The payload *)

Lemma cipher_len w p : length (cipher w p) = length p.
Proof. unfold cipher. destruct (all_zero_nonce w); [done|apply xor_len]. Qed.

(** What one round of the bulk path takes. *)
Definition avail (p buf : bytes) : Z := Z.min (rx_buffer_size E) (Z.min (len p) (len buf)).

Lemma bulk_one f p w buf later tail : env_ok -> in_payload f p w -> len p < 2 ^ 63 ->
  p <> [] -> buf <> [] -> buf ++ later = cipher w p ++ tail ->
  let a := avail p buf in
  exists w', lws_ws_frame_rest_is_payload E buf w = (a, drop (Z.to_nat a) buf, w') /\ 0 < a /\
    in_payload f (drop (Z.to_nat a) p) w' /\
    cipher w' (drop (Z.to_nat a) p) = drop (Z.to_nat a) (cipher w p) /\
    trace w' = trace w ++ [Callback LWS_CALLBACK_RECEIVE (take (Z.to_nat a) p)].
Proof.
  intros (Hsize & _ & Hcb) (Hf & Hs & Hl) Hp63 Hp Hbuf Heq a.
  assert (0 < len p) by (unfold len; destruct p; [done|simpl; lia]).
  assert (0 < len buf) by (unfold len; destruct buf; [done|simpl; lia]).
  assert (0 < a) as Ha by (unfold a, avail; lia).
  assert (take (Z.to_nat a) buf = take (Z.to_nat a) (cipher w p)) as Htake.
  { transitivity (take (Z.to_nat a) (buf ++ later)).
    - rewrite take_app_le; [done|]. unfold a, avail, len. lia.
    - rewrite Heq, take_app_le; [done|]. rewrite cipher_len. unfold a, avail, len. lia. }
  unfold lws_ws_frame_rest_is_payload.
  rewrite (proj2 (nz_true (rx_buffer_size E))) by lia. rewrite (u32_small (rx_buffer_size E)) by lia.
  rewrite Hl.
  assert ((if rx_buffer_size E >? len p then u32 (len p) else rx_buffer_size E)
          = Z.min (rx_buffer_size E) (len p)) as ->.
  { destruct (Z.gtb_spec (rx_buffer_size E) (len p)); [rewrite u32_small|]; lia. }
  assert ((if Z.min (rx_buffer_size E) (len p) >? len buf then u32 (len buf)
           else Z.min (rx_buffer_size E) (len p)) = a) as ->.
  { unfold a, avail. destruct (Z.gtb_spec (Z.min (rx_buffer_size E) (len p)) (len buf));
      [rewrite u32_small|]; lia. }
  rewrite (proj2 (Z.eqb_neq a 0)) by lia.
  pose proof Hf as ((_ & _ & _ & _ & Hpre & _ & _ & _ & Hmask & Hchk) & _).
  assert (len (drop (Z.to_nat a) p) = len p - a) as Hdl
    by (unfold a, avail, len; rewrite length_drop; lia).
  assert (u64 (len p - a) = len (drop (Z.to_nat a) p)) as Hu
    by (rewrite Hdl; apply u64_small; unfold a, avail; lia).
  unfold cipher in *. destruct (all_zero_nonce w) eqn:Ez; cbn [negb].
  - cbv zeta. ws_red. rewrite Hchk. cbn [andb]. cbv iota. ws_red. rewrite Hpre. cbn [negb].
    unfold user_callback_handle_rxflow. rewrite Hcb. change (nz 0) with false. cbv iota.
    eexists. split; [reflexivity|]. split; [done|].
    split; [|ws_cbn; rewrite Ez, Htake; done].
    split; [eapply in_frame_same; [exact Hf|reflexivity..]|]. ws_cbn. rewrite Hl. done.
  - rewrite (unmask4_xor (mask w) (mask_idx w) (length buf)) by (rewrite length_take; lia).
    rewrite Htake, xor_take, xor_twice. cbv zeta. ws_red. rewrite Hchk. cbn [andb]. cbv iota. ws_red. rewrite Hpre. cbn [negb].
    unfold user_callback_handle_rxflow. rewrite Hcb. change (nz 0) with false. cbv iota.
    eexists. split; [reflexivity|]. split; [done|].
    split; [split; [eapply in_frame_same; [exact Hf|reflexivity..]|]; ws_cbn; rewrite Hl; done|].
    ws_cbn. rewrite Ez. split; [|done]. rewrite xor_drop.
    apply xor_shift. rewrite land3, Z.mod_mod by lia. f_equal. lia.
Qed.

(** The pieces in which [k] bytes of [p] reach the user. *)
Definition pieces_of (p : bytes) (k : nat) (ps : list bytes) : Prop :=
  concat ps = take k p /\ Forall (fun q => 0 < len q <= rx_buffer_size E) ps /\
  (0 < Z.of_nat k <= rx_buffer_size E -> ps = [take k p]).

Lemma data_opc_test f w : in_frame f w -> data_opc (f_opc f) ->
  (opcode w =? LWSWSOPC_TEXT_FRAME) || (opcode w =? LWSWSOPC_BINARY_FRAME)
  || (opcode w =? LWSWSOPC_CONTINUATION) = true.
Proof. intros (_ & -> & _) [-> | [-> | ->]]; done. Qed.

(** The inner loop takes what there is of the payload. *)
Lemma bulk_all f fuel : env_ok -> data_opc (f_opc f) -> forall p w buf later tail bulk,
  in_payload f p w -> len p < 2 ^ 63 -> (length buf < fuel)%nat ->
  buf ++ later = cipher w p ++ tail ->
  let k := Nat.min (length p) (length buf) in
  exists w' ps, bulk_loop E fuel bulk buf w
      = (match buf with [] => bulk | _ => true end, false, drop k buf, w') /\
    in_payload f (drop k p) w' /\ cipher w' (drop k p) = drop k (cipher w p) /\
    trace w' = trace w ++ map (Callback LWS_CALLBACK_RECEIVE) ps /\ pieces_of p k ps.
Proof.
  intros He Hd. induction fuel as [|fuel IH]; intros p w buf later tail bulk Hp Hp63 Hfuel Heq k; [lia|].
  pose proof Hp as (Hf & Hs & Hl). cbn [bulk_loop].
  rewrite bool_decide_eq_true_2 by exact Hs. rewrite (data_opc_test f w Hf Hd). cbn [andb].
  destruct buf as [|x buf].
  { exists w, []. unfold k. rewrite Nat.min_0_r, !drop_0. cbn [map]. rewrite app_nil_r.
    split; [done|]. split; [done|]. split; [done|]. split; [done|]. split; [done|]. split; [constructor|lia]. }
  set (b := x :: buf) in *. assert (nz (len b) = true) as -> by (apply nz_true; unfold b, len; simpl; lia).
  destruct (decide (p = [])) as [-> |Hne].
  { exists w, []. assert (lws_ws_frame_rest_is_payload E b w = (0, b, w)) as ->.
    { unfold lws_ws_frame_rest_is_payload. destruct He as (Hsz & _).
      rewrite (proj2 (nz_true _)), (u32_small (rx_buffer_size E)), Hl, len_nil by lia.
      destruct (Z.gtb_spec (rx_buffer_size E) 0); [|lia]. change (u32 0) with 0.
      destruct (Z.gtb_spec 0 (len b)); [unfold b, len in *; lia|]. done. }
    change (0 =? 0) with true. cbv iota. unfold k. cbn [length Nat.min]. rewrite !drop_0. cbn [map].
    rewrite app_nil_r. split; [done|]. split; [done|]. split; [done|]. split; [done|].
    split; [done|]. split; [constructor|lia]. }
  destruct (bulk_one f p w b later tail He Hp Hp63 Hne ltac:(done) Heq) as (w1 & -> & Ha & Hp1 & Hc1 & Ht1).
  set (a := avail p b) in *. rewrite (proj2 (Z.eqb_neq a 0)) by lia.
  destruct (Z.ltb_spec a 0); [lia|]. set (n := Z.to_nat a) in *.
  assert (n <= k /\ 0 < n /\ Z.of_nat n = Z.min (rx_buffer_size E) (Z.of_nat k))%nat as (Hnk & Hn0 & Hn).
  { unfold n, k, a, avail, len in *. destruct He as (? & _). lia. }
  destruct (IH (drop n p) w1 (drop n b) later tail true Hp1) as (w2 & ps & Hloop & Hp2 & Hc2 & Ht2 & Hps).
  { unfold len in *. rewrite length_drop. lia. }
  { rewrite length_drop. unfold b in *. simpl in *. lia. }
  { rewrite Hc1. transitivity (drop n (b ++ later)).
    - rewrite drop_app_le; [done|]. unfold k in Hnk. lia.
    - rewrite Heq, drop_app_le; [done|]. rewrite cipher_len. unfold k in Hnk. lia. }
  rewrite !length_drop, !drop_drop in *.
  replace (n + Nat.min (length p - n) (length b - n))%nat with k in * by (unfold k; lia).
  exists w2, (take n p :: ps). rewrite Hloop, Ht2, Ht1, <- app_assoc.
  split; [by destruct (drop n b)|]. split; [exact Hp2|]. split; [rewrite Hc2, Hc1, drop_drop; f_equal; unfold k; lia|].
  split; [done|]. destruct Hps as (Hps1 & Hps2 & Hps3). split; [|split].
  - cbn [concat]. rewrite Hps1. replace (Nat.min (length p - n) (length b - n)) with (k - n)%nat by (unfold k; lia).
    rewrite take_take_drop. f_equal. lia.
  - constructor; [|done]. unfold len. rewrite length_take. unfold k in *. lia.
  - intros Hk. assert (n = k) as -> by lia.
    destruct ps as [|q ps]; [done|]. inversion_clear Hps2 as [|? ? Hq _].
    apply (f_equal length) in Hps1. cbn [concat] in Hps1. rewrite length_app, length_take, length_drop in Hps1.
    unfold len in Hq. unfold k in *. lia.
Qed.

(** What follows the inner loop: the end of the frame, or nothing. *)
Lemma bulk_end f p w : env_ok -> data_opc (f_opc f) -> in_payload f p w ->
  exists w', lws_ws_rx_sm E true true 0 w = Ok (0, w') /\ trace w' = trace w /\
    (p = [] -> ready (negb (f_fin f)) w') /\ (p <> [] -> w' = w).
Proof.
  intros (Hsz & _) Hd (Hf & Hs & Hl).
  pose proof Hf as ((Hu & _ & _ & Hst & Hpre & Hh & Ha & (ub & Hub & _) & _ & Hchk) & Ho & _).
  unfold lws_ws_rx_sm, rx_payload. rewrite Hu, Hs, Hub, Hh, Ha.
  change (u32 (0 + LWS_PRE)) with 16. unfold LWS_PRE.
  destruct (Z.geb_spec 16 (rx_buffer_size E + 16)); [lia|]. cbn [negb]. cbv zeta.
  rewrite Hl, Hh. destruct (Z.eqb_spec (len p) 0) as [E0|E0].
  - set (w1 := set_lws_rx_parse_state LWS_RXPS_NEW w).
    assert (rx_spill E true w1 = rx_deliver E true LWS_CALLBACK_RECEIVE w1) as ->.
    { unfold rx_spill. change (opcode w1) with (opcode w). rewrite Ho. by destruct Hd as [-> | [-> | ->]]. }
    unfold rx_deliver, state_is. change (opcode w1) with (opcode w). change (rx_ubuf_head w1) with (rx_ubuf_head w).
    change (state w1) with (state w). change (check_utf8 w1) with (check_utf8 w).
    rewrite Hh, Hst, Hchk. change (nz 0) with false.
    rewrite !bool_decide_eq_false_2 by discriminate. cbn [andb orb].
    assert (((opcode w =? LWSWSOPC_PONG) && (0 =? 0)) = false) as ->
      by (rewrite Ho; by destruct Hd as [-> | [-> | ->]]).
    change (wsistate_pre_close w1) with (wsistate_pre_close w). rewrite Hpre. cbn [negb]. cbv iota zeta.
    eexists. split; [reflexivity|]. split; [done|]. split.
    + intros _. unfold in_frame, ready, base, w1 in *. ws_cbn. intuition congruence.
    + intros Hp. destruct p; [done|]. unfold len in E0. simpl in E0. lia.
  - exists w. rewrite (proj2 (Z.eqb_neq (rx_buffer_size E) 0)) by lia.
    rewrite (proj2 (nz_true (rx_buffer_size E))) by lia.
    rewrite (proj2 (Z.eqb_neq 0 (rx_buffer_size E))) by lia. cbn [andb negb].
    split; [done|]. split; [done|]. split; [|done]. intros ->. done.
Qed.

(** ** The receive loop *)

(** The connection expects the bytes [rest], after which the user will have
    received [total]: it is between frames, inside a payload, or inside a
    header. *)
Inductive expects : lws -> bytes -> bytes -> Prop :=
| ex_ready c w fs :
    ready c w -> data_seq c fs ->
    expects w (flat_map wire fs) (received (trace w) ++ flat_map f_payload fs)
| ex_payload f p w fs :
    in_payload f p w -> data_opc (f_opc f) -> len p < 2 ^ 63 -> p <> [] ->
    data_seq (negb (f_fin f)) fs ->
    expects w (cipher w p ++ flat_map wire fs) (received (trace w) ++ p ++ flat_map f_payload fs)
| ex_hdr w c l w2 rest total :
    hdr_run w (c :: l) w2 -> expects w2 rest total -> expects w (c :: l ++ rest) total.

Lemma data_frame_opc c f : data_frame c f -> data_opc (f_opc f).
Proof. intros [H _]. unfold data_opc. destruct c; intuition. Qed.

(** A frame to come can be seen as a header to come. *)
Lemma expects_frame c w f fs : env_ok -> ready c w -> data_seq c (f :: fs) ->
  exists w2 x l rest, hdr_run w (x :: l) w2 /\
    expects w2 rest (received (trace w) ++ flat_map f_payload (f :: fs)) /\
    flat_map wire (f :: fs) = x :: l ++ rest.
Proof.
  intros He Hr [Hd Hfs]. destruct (header c f w He Hr Hd) as (w2 & Hrun & H1 & H0).
  destruct (wire_head f) as [|x l] eqn:Eh; [done|].
  exists w2, x, l, (wire_body f ++ flat_map wire fs). split; [done|].
  cbn [flat_map]. unfold wire. rewrite Eh, <- app_assoc.
  destruct (decide (f_payload f = [])) as [Ep|Ep].
  - destruct (H0 Ep) as [Hr2 Ht]. split; [|done].
    assert (wire_body f = []) as -> by (unfold wire_body; rewrite Ep; by destruct (f_key f)).
    rewrite Ep. pose proof (ex_ready _ w2 fs Hr2 Hfs) as H. rewrite Ht, received_app in H.
    cbn [received map concat app] in H. by rewrite app_nil_r in H.
  - destruct (H1 Ep) as (Hp & Hc & Ht). split; [|done].
    rewrite <- Hc, <- Ht. apply (ex_payload f); try done; [by eapply data_frame_opc|apply Hd].
Qed.

Lemma received_pieces ps : received (map (Callback LWS_CALLBACK_RECEIVE) ps) = concat ps.
Proof. unfold received. rewrite map_map. f_equal. apply map_id. Qed.

(** One round of the loop inside a payload. *)
Lemma round_payload f p w fs buf later : env_ok -> in_payload f p w -> data_opc (f_opc f) ->
  len p < 2 ^ 63 -> p <> [] -> buf <> [] -> buf ++ later = cipher w p ++ flat_map wire fs ->
  let k := Nat.min (length p) (length buf) in
  exists w2 ps, trace w2 = trace w ++ map (Callback LWS_CALLBACK_RECEIVE) ps /\ pieces_of p k ps /\
    (forall fuel inside bufin, parse_loop E (S fuel) inside bufin buf w
       = parse_loop E fuel inside bufin (drop k buf) w2) /\
    ((drop k p = [] /\ ready (negb (f_fin f)) w2) \/
     (drop k p <> [] /\ in_payload f (drop k p) w2 /\ cipher w2 (drop k p) = drop k (cipher w p))).
Proof.
  intros He Hp Hd Hp63 Hne Hbuf Heq k. destruct buf as [|x buf]; [done|]. set (b := x :: buf) in *.
  destruct (bulk_all f (S (length b)) He Hd p w b later _ false Hp Hp63 ltac:(lia) Heq)
    as (w1 & ps & Hloop & Hp1 & Hc1 & Ht1 & Hps). fold k in Hloop, Hp1, Hc1, Hps.
  destruct (bulk_end f (drop k p) w1 He Hd Hp1) as (w2 & Hsm & Ht2 & H0 & H1).
  exists w2, ps. split; [by rewrite Ht2, Ht1|]. split; [done|]. split.
  - intros fuel inside bufin. unfold b at 1. cbn [parse_loop]. fold b.
    pose proof Hp as (((_ & _ & Hflow & _) & _) & _). rewrite Hflow. change (nz 0) with false. cbv iota.
    rewrite Hloop. unfold b at 1. cbv iota. cbn [negb]. rewrite Hsm. done.
  - destruct (decide (drop k p = [])) as [Hk|Hk]; [left; auto|]. right. rewrite (H1 Hk). auto.
Qed.

(** One round inside a header. *)
Lemma round_hdr w x w1 buf fuel inside bufin :
  lws_rx_parse_state w <> LWS_RXPS_WS_FRAME_PAYLOAD -> rxflow_bitmap w = 0 ->
  lws_ws_rx_sm E false false x w = Ok (0, w1) ->
  parse_loop E (S fuel) inside bufin (x :: buf) w = parse_loop E fuel inside bufin buf w1.
Proof.
  intros Hs Hflow Hsm. cbn [parse_loop]. rewrite Hflow. change (nz 0) with false. cbv iota.
  cbn [bulk_loop]. rewrite bool_decide_eq_false_2 by done. cbn [andb negb]. rewrite Hsm. done.
Qed.

(** The loop takes the whole input and then expects what follows. *)
Lemma parse_expects fuel : env_ok -> forall inside bufin buf later total w,
  expects w (buf ++ later) total -> (length buf < fuel)%nat ->
  exists w', parse_loop E fuel inside bufin buf w = Ok (0, len bufin, w') /\ expects w' later total.
Proof.
  intros He. induction fuel as [|fuel IH]; intros inside bufin buf later total w Hex Hfuel; [lia|].
  destruct buf as [|x buf]; [by exists w|]. simpl in Hfuel.
  assert (forall c l w2 rest, hdr_run w (c :: l) w2 -> expects w2 rest total ->
    x :: buf ++ later = c :: l ++ rest ->
    exists w', parse_loop E (S fuel) inside bufin (x :: buf) w = Ok (0, len bufin, w') /\
      expects w' later total) as Hhdr.
  { intros c l w2 rest Hrun Hex2 Heq. injection Heq as <- Heq.
    inversion Hrun as [|? ? ? w1 ? Hs Hflow Hsm Hrun1]; subst.
    rewrite (round_hdr w x w1) by done. apply IH; [|lia]. rewrite Heq.
    destruct l as [|c l]; [by inversion Hrun1; subst|]. by apply (ex_hdr w1 c l w2). }
  inversion Hex as [c w0 fs Hr Hfs Hrest Htot | f p w0 fs Hp Hd Hp63 Hne Hfs Hrest Htot
                   | w0 c l w2 rest t Hrun Hex2 Hrest]; subst.
  - destruct fs as [|f fs]; [discriminate|].
    destruct (expects_frame c w f fs He Hr Hfs) as (w2 & y & l & rest & Hrun & Hex2 & E2).
    rewrite E2 in *. by apply (Hhdr y l w2 rest).
  - destruct (round_payload f p w fs (x :: buf) later He Hp Hd Hp63 Hne ltac:(done) ltac:(by symmetry))
      as (w2 & ps & Ht & (Hps & _) & Hloop & Hend).
    rewrite Hloop. set (k := Nat.min (length p) (length (x :: buf))) in *.
    assert (0 < k)%nat as Hk by (unfold k; destruct p; [done|simpl; lia]).
    apply IH; [|rewrite length_drop; simpl; lia].
    assert (drop k (x :: buf) ++ later = drop k (cipher w p) ++ flat_map wire fs) as Erest.
    { rewrite <- !drop_app_le; [|rewrite cipher_len; lia|lia]. f_equal. by symmetry. }
    assert (received (trace w) ++ p ++ flat_map f_payload fs
            = received (trace w2) ++ drop k p ++ flat_map f_payload fs) as ->.
    { rewrite Ht, received_app, received_pieces, Hps, <- app_assoc. f_equal.
      rewrite app_assoc. by rewrite take_drop. }
    rewrite Erest. destruct Hend as [[Ek Hr] | (Ek & Hp2 & Hc2)].
    + rewrite Ek. rewrite drop_ge by (rewrite cipher_len; apply (f_equal length) in Ek;
        rewrite length_drop in Ek; simpl in Ek; lia).
      exact (ex_ready _ w2 fs Hr Hfs).
    + rewrite <- Hc2. apply (ex_payload f); try done.
      unfold len in *. rewrite length_drop. lia.
  - eapply Hhdr; [exact Hrun|exact Hex2|congruence].
Qed.

(** Several reads in a row. *)
Fixpoint parse_reads (reads : list bytes) (w : lws) : res exn (Z * lws) :=
  match reads with
  | [] => Ok (0, w)
  | buf :: reads' =>
    '(r, _, w') ← lws_parse_ws E false buf w;
    if nz r then Ok (r, w') else parse_reads reads' w'
  end.

Lemma reads_expects reads : env_ok -> forall w later total, expects w (concat reads ++ later) total ->
  exists w', parse_reads reads w = Ok (0, w') /\ expects w' later total.
Proof.
  intros He. induction reads as [|buf reads IH]; intros w later total Hex; [by exists w|].
  cbn [concat] in Hex. rewrite <- app_assoc in Hex. cbn [parse_reads]. unfold lws_parse_ws.
  destruct (parse_expects (2 * length buf + 1) He false buf buf _ _ w Hex) as (w1 & -> & Hex1); [lia|].
  cbn [mbind res_bind]. change (nz 0) with false. cbv iota. by apply IH.
Qed.

Lemma expects_end w total : expects w [] total -> exists c, ready c w /\ received (trace w) = total.
Proof.
  intros Hex. remember [] as r eqn:Hrest in Hex.
  destruct Hex as [c w fs Hr Hfs | f p w fs Hp Hd Hp63 Hne Hfs | ]; [| |done].
  - destruct fs as [|f fs]; [|done]. exists c. split; [done|]. cbn. by rewrite app_nil_r.
  - apply app_eq_nil in Hrest as [Hc _]. apply (f_equal length) in Hc. rewrite cipher_len in Hc.
    destruct p; done.
Qed.

End Proof.
End WsRxProof.
