(* ===== verification/WsRxProps.v ===== *)
(** * Properties of the receive path

    The reader of WebSocket frames as a whole: delivery of fragmented input,
    one callback per message that arrives in one read, and the light packets
    of a client end to end, from its frame to the light state of the server. *)

From S2P Require Import Prelude CLib Ini Config Logger Dmx LightPacket MonitorJson Serveri ServeriInv ServeriProps Buflist Utf8 WsState WsRx WsRxProof.

Import Ws WsRx WsRxProof.

(** ** One frame in one or two reads *)

Lemma parse_hdr E w l w2 : hdr_run E w l w2 -> forall fuel inside bufin rest,
  parse_loop E (length l + fuel) inside bufin (l ++ rest) w
  = parse_loop E fuel inside bufin rest w2.
Proof.
  induction 1 as [w|w x l w1 w2 Hs Hflow Hsm _ IH]; intros fuel inside bufin rest; [done|].
  cbn [length Nat.add app]. rewrite (round_hdr E w x w1) by done. apply IH.
Qed.

Lemma parse_done E fuel inside bufin w : parse_loop E (S fuel) inside bufin [] w = Ok (0, len bufin, w).
Proof. reflexivity. Qed.

(** A read that holds the header and the first [k] bytes of the payload. *)
Lemma parse_first E c f w k : env_ok E -> ready E c w -> data_frame c f ->
  (0 < k <= length (f_payload f))%nat -> len (f_payload f) <= rx_buffer_size E ->
  exists w2, lws_parse_ws E false (wire_head f ++ take k (wire_body f)) w
      = Ok (0, len (wire_head f ++ take k (wire_body f)), w2) /\
    trace w2 = trace w ++ [Callback LWS_CALLBACK_RECEIVE (take k (f_payload f))] /\
    (k = length (f_payload f) -> ready E (negb (f_fin f)) w2) /\
    ((k < length (f_payload f))%nat -> in_payload E f (drop k (f_payload f)) w2 /\
       cipher w2 (drop k (f_payload f)) = drop k (wire_body f)).
Proof.
  intros He Hr Hd Hk Hsz. assert (f_payload f <> []) as Hne by (destruct (f_payload f); [simpl in Hk; lia|done]).
  destruct (header E c f w He Hr Hd) as (w1 & Hrun & H1 & _). destruct (H1 Hne) as (Hp & Hc & Ht).
  assert (len (f_payload f) < 2 ^ 63) as H63 by apply Hd.
  assert (length (wire_body f) = length (f_payload f)) as Hlb by (rewrite <- Hc; apply cipher_len).
  set (buf := take k (wire_body f)).
  assert (length buf = k) as Hlen by (unfold buf; rewrite length_take; lia).
  destruct (round_payload E f (f_payload f) w1 [] buf (drop k (wire_body f)) He Hp
    (data_frame_opc c f Hd) H63 Hne) as (w2 & ps & Ht2 & (_ & _ & Hps) & Hloop & Hend).
  { intros E0. rewrite E0 in Hlen. simpl in Hlen. lia. }
  { cbn [flat_map]. rewrite app_nil_r. unfold buf. by rewrite take_drop. }
  rewrite Hlen, Nat.min_r in * by lia.
  assert (drop k buf = []) as Hb0 by (apply drop_ge; lia). rewrite Hb0 in Hloop.
  specialize (Hps ltac:(unfold len in Hsz; lia)). subst ps.
  exists w2. split; [|split; [by rewrite Ht2, Ht|split]].
  - unfold lws_parse_ws.
    replace (2 * length (wire_head f ++ buf) + 1)%nat
      with (length (wire_head f) + S (S (length (wire_head f) + 2 * k - 1)))%nat
      by (rewrite length_app; lia).
    rewrite (parse_hdr E w (wire_head f) w1 Hrun), Hloop. apply parse_done.
  - intros Hk2. destruct Hend as [[_ Hend]|[Hend _]]; [done|]. destruct Hend. apply drop_ge. lia.
  - intros Hk2. destruct Hend as [[Hend _]|(_ & Hend1 & Hend2)].
    + apply (f_equal length) in Hend. rewrite length_drop in Hend. simpl in Hend. lia.
    + rewrite Hend2, Hc. done.
Qed.

(** The read that follows it. *)
Lemma parse_second E f p w : env_ok E -> in_payload E f p w -> data_opc (f_opc f) ->
  len p < 2 ^ 63 -> p <> [] -> len p <= rx_buffer_size E ->
  exists w2, lws_parse_ws E false (cipher w p) w = Ok (0, len (cipher w p), w2) /\
    trace w2 = trace w ++ [Callback LWS_CALLBACK_RECEIVE p] /\ ready E (negb (f_fin f)) w2.
Proof.
  intros He Hp Hd H63 Hne Hsz.
  assert (cipher w p <> []) as Hcne.
  { intros E0. apply (f_equal length) in E0. rewrite cipher_len in E0. by destruct p. }
  destruct (round_payload E f p w [] (cipher w p) [] He Hp Hd H63 Hne Hcne ltac:(done))
    as (w2 & ps & Ht2 & (_ & _ & Hps) & Hloop & Hend).
  rewrite cipher_len, Nat.min_id in *. rewrite (drop_ge (cipher w p)) in Hloop by (rewrite cipher_len; lia).
  rewrite (take_ge p) in Hps by lia.
  assert (0 < length p)%nat by (destruct p; [done|simpl; lia]).
  specialize (Hps ltac:(unfold len in Hsz; lia)). subst ps.
  exists w2. split; [|split; [done|]].
  - unfold lws_parse_ws. rewrite cipher_len.
    replace (2 * length p + 1)%nat with (S (S (2 * length p - 1))) by lia.
    rewrite Hloop. apply parse_done.
  - destruct Hend as [[_ Hend]|[Hend _]]; [done|]. destruct Hend. apply drop_ge. lia.
Qed.

(** A connection as [lws_server_init_wsi_for_ws] leaves it. *)
Definition sample_env : env := mk_env 2048 4096 0 false 10 20 (fun _ _ _ => 0).

Definition sample_conn : lws :=
  mk_lws LWS_RXPS_NEW LRS_ESTABLISHED false false false false false false false 0 [] [] (Some (replicate 2052 0))
    (replicate 125 0) [0; 0; 0; 0] 0 0 2064 0 0 0 0 0 0 0 0 13
    false false false false false false false false false false false false false false false
    false false [].

Lemma sample_env_ok : env_ok sample_env.
Proof. split; [simpl; lia|]. done. Qed.

Lemma sample_conn_ready : ready sample_env false sample_conn.
Proof.
  split; [|done]. unfold base. cbn. split_and!; try done. exists (replicate 2052 0). split; [done|].
  vm_compute. reflexivity.
Qed.

(** C4: the receive path delivers the payload of every well-formed sequence
    of data frames.  For frames with any lengths, masked or not, single or
    fragmented messages, and however their bytes are cut into reads,
    [lws_parse_ws] accepts every read and, after the last, the user callback
    was given exactly the concatenated payloads in order, and the connection
    is ready for the next frame. *)
Theorem ws_rx_delivers E w fs reads :
  env_ok E -> ready E false w -> data_seq false fs -> concat reads = flat_map wire fs ->
  exists c w', parse_reads E reads w = Ok (0, w') /\ ready E c w' /\
    received (trace w') = received (trace w) ++ flat_map f_payload fs.
Proof.
  intros He Hr Hfs Hreads.
  destruct (reads_expects E reads He w [] (received (trace w) ++ flat_map f_payload fs))
    as (w' & Hp & Hex).
  { rewrite app_nil_r, Hreads. by eapply ex_ready. }
  apply expects_end in Hex as (c & Hc & Ht). eauto.
Qed.

Lemma ws_rx_delivers_witness :
  let f1 := mk_frame false 2 (Some [1; 2; 3; 4]) (str "hel") in
  let f2 := mk_frame true 0 None (str "lo") in
  exists c w', parse_reads sample_env [take 5 (wire f1); drop 5 (wire f1) ++ wire f2] sample_conn
      = Ok (0, w') /\
    ready sample_env c w' /\ received (trace w') = str "hello".
Proof.
  intros f1 f2.
  destruct (ws_rx_delivers sample_env sample_conn [f1; f2]
    [take 5 (wire f1); drop 5 (wire f1) ++ wire f2]) as (c & w' & H1 & H2 & H3).
  - exact sample_env_ok.
  - exact sample_conn_ready.
  - cbn. unfold data_frame. cbn. split_and!; try (by left); try (by right); try done;
      apply (bool_decide_unpack _); vm_compute; exact I.
  - reflexivity.
  - exists c, w'. split; [exact H1|]. split; [exact H2|exact H3].
Defined.

(** A message in a read of its own reaches the user callback once and
    whole, provided it fits the protocol's buffer; but a message whose bytes
    arrive in two reads is handed over in two callbacks, one per read. *)
Theorem ws_rx_callbacks E w f k :
  env_ok E -> ready E false w -> data_frame false f ->
  (0 < k < length (f_payload f))%nat -> len (f_payload f) <= rx_buffer_size E ->
  (exists w', lws_parse_ws E false (wire f) w = Ok (0, len (wire f), w') /\
     trace w' = trace w ++ [Callback LWS_CALLBACK_RECEIVE (f_payload f)]) /\
  (exists w', parse_reads E [wire_head f ++ take k (wire_body f); drop k (wire_body f)] w = Ok (0, w') /\
     trace w' = trace w ++ [Callback LWS_CALLBACK_RECEIVE (take k (f_payload f));
                            Callback LWS_CALLBACK_RECEIVE (drop k (f_payload f))]).
Proof.
  intros He Hr Hd Hk Hsz. split.
  - destruct (parse_first E false f w (length (f_payload f)) He Hr Hd ltac:(lia) Hsz)
      as (w2 & Hp & Ht & _).
    exists w2. rewrite (take_ge (f_payload f)) in Ht by lia.
    rewrite (take_ge (wire_body f)) in Hp; [done|].
    unfold wire_body. destruct (f_key f); rewrite ?xor_len; lia.
  - destruct (parse_first E false f w k He Hr Hd ltac:(lia) Hsz) as (w2 & Hp & Ht & _ & Hmid).
    destruct (Hmid ltac:(lia)) as [Hp2 Hc2].
    destruct (parse_second E f (drop k (f_payload f)) w2 He Hp2 (data_frame_opc false f Hd))
      as (w3 & Hp3 & Ht3 & _).
    { destruct Hd as (_ & Hd & _). unfold len in *. rewrite length_drop. lia. }
    { intros E0. apply (f_equal length) in E0. rewrite length_drop in E0. simpl in E0. lia. }
    { unfold len in *. rewrite length_drop. lia. }
    rewrite Hc2 in Hp3. exists w3. cbn [parse_reads]. rewrite Hp. cbn [mbind res_bind].
    change (nz 0) with false. cbv iota. rewrite Hp3. split; [done|].
    rewrite Ht3, Ht, <- app_assoc. done.
Qed.

Lemma ws_rx_callbacks_witness :
  let f := mk_frame true 2 (Some [9; 8; 7; 6]) (str "packet") in
  exists w', lws_parse_ws sample_env false (wire f) sample_conn = Ok (0, len (wire f), w') /\
    trace w' = [Callback LWS_CALLBACK_RECEIVE (str "packet")].
Proof.
  intros f. destruct (ws_rx_callbacks sample_env sample_conn f 2) as [H _];
    [exact sample_env_ok|exact sample_conn_ready| |simpl; lia|vm_compute; discriminate|exact H].
  unfold data_frame. cbn. split_and!; try (by right); try done;
    apply (bool_decide_unpack _); vm_compute; exact I.
Defined.
