(* ===== verification/WsRxErrors.v ===== *)
(** * Illegal frames (libwebsockets lib/roles/ws/ops-ws.c)

    Which first header bytes [lws_ws_rx_sm] accepts in a state between frames,
    what it records of them, and how it fails the connection on the others. *)

From S2P Require Import Prelude CLib Buflist Utf8 WsState WsRx WsRxProof WsRxProps.
Import Ws WsRx WsRxProof.

(** ** What the first header byte may be *)

(** The opcodes a peer may use: outside a fragmented message text and binary,
    inside it continuation, and the three control opcodes. *)
Definition opc_ok (c : bool) (opc : Z) : bool :=
  if opc <? 8 then if c then opc =? 0 else (opc =? 1) || (opc =? 2) else opc <=? 10.

(** The first byte of a frame the code accepts: a permitted opcode, control
    frames unfragmented, RSV2 and RSV3 clear. *)
Definition legal_first (c : bool) (b : Z) : bool :=
  opc_ok c (Z.land b 15) && ((Z.land b 15 <? 8) || Z.testbit b 7) && (Z.land b 48 =? 0).

(** Whether a fragmented message is open behind the frame. *)
Definition continues (c : bool) (b : Z) : bool :=
  if Z.land b 15 <? 8 then negb (Z.testbit b 7) else c.

(** The close code 1002 is in the buffer of the closing handshake. *)
Definition closing_1002 (w : lws) : Prop := take 2 (ping_payload_buf w) = [3; 234].

Lemma protocol_err_1002 text w :
  (2 <= length (ping_payload_buf w))%nat -> closing_1002 (protocol_err text w).
Proof.
  intros Hl. unfold closing_1002, protocol_err, lws_close_reason. ws_cbn.
  set (t := take (Z.to_nat (125 - 2)) (str text)). cbn [app list_inserts].
  pose proof (length_inserts (ping_payload_buf w) 2 t) as Hi.
  destruct (list_inserts 2 t (ping_payload_buf w)) as [|x [|y l]]; simpl in Hi; [lia..|]. reflexivity.
Qed.

Definition nibbles : list Z := [0; 1; 2; 3; 4; 5; 6; 7; 8; 9; 10; 11; 12; 13; 14; 15].

Lemma nibbles_all z : 0 <= z < 16 -> z ∈ nibbles.
Proof. intros. unfold nibbles. rewrite !elem_of_cons. lia. Qed.

Lemma ctl_bit opc : 0 <= opc < 16 -> nz (Z.land opc 8) = negb (opc <? 8).
Proof.
  intros Hr. assert (opc ∈ nibbles) as Hin by by apply nibbles_all.
  repeat (apply elem_of_cons in Hin as [-> | Hin]; [reflexivity|]). by apply elem_of_nil in Hin.
Qed.

(** The members the first byte sets or reads. *)
Definition first_view (w : lws) := (opcode w, rsv w, final w, owed_a_fin w, ping_payload_buf w).

Lemma first_switch_spec E b w c opc :
  opcode w = opc -> 0 <= opc < 16 -> continuation_possible w = c -> (2 <= length (ping_payload_buf w))%nat ->
  exists w', rx_first_switch E b w = (negb (opc_ok c opc), w') /\
    if opc_ok c opc then
      first_view w' = first_view w /\
      continuation_possible w' = (if (opc =? 1) || (opc =? 2) then negb (final w) else c)
    else closing_1002 w'.
Proof.
  intros Hop Hr Hc Hp. unfold rx_first_switch. rewrite Hop.
  assert (opc ∈ nibbles) as Hin by (apply nibbles_all; lia).
  repeat (apply elem_of_cons in Hin as [-> | Hin]); [..|by apply elem_of_nil in Hin];
    cbv delta [LWSWSOPC_TEXT_FRAME LWSWSOPC_BINARY_FRAME LWSWSOPC_CONTINUATION LWSWSOPC_CLOSE];
    cbn [Z.eqb Pos.eqb orb andb negb Z.leb Z.compare Pos.compare Pos.compare_cont]; ws_red;
    rewrite ?Hc; destruct c; cbn [negb]; (eexists; split; [reflexivity|]); cbn [opc_ok];
    first [done | apply protocol_err_1002; exact Hp | split; [reflexivity|]; first [exact Hc|done]].
Qed.

Lemma first_fin_spec w opc c c' :
  opcode w = opc -> owed_a_fin w = c -> continuation_possible w = c' -> opc_ok c opc = true ->
  (opc <? 8) || final w = true -> 0 <= opc < 16 ->
  (2 <= length (ping_payload_buf w))%nat ->
  exists w', rx_first_fin w = (if Z.land (rsv w) 191 =? 0 then 0 else -1, w') /\
    if Z.land (rsv w) 191 =? 0 then
      lws_rx_parse_state w' = LWS_RXPS_04_FRAME_HDR_LEN /\ opcode w' = opc /\ final w' = final w /\
      continuation_possible w' = (if (opc <? 8) && final w then false else c') /\
      owed_a_fin w' = (if opc <? 8 then negb (final w) else c)
    else closing_1002 w'.
Proof.
  intros Hop Ho Hc Hok Hfin Hr Hp. unfold rx_first_fin. rewrite Hop, Ho.
  assert (c && ((opc =? LWSWSOPC_TEXT_FRAME) || (opc =? LWSWSOPC_BINARY_FRAME)) = false) as ->.
  { destruct c; [|done]. unfold opc_ok in Hok. unfold LWSWSOPC_TEXT_FRAME, LWSWSOPC_BINARY_FRAME.
    destruct (Z.ltb_spec opc 8); [apply Z.eqb_eq in Hok; by rewrite Hok|].
    destruct (Z.eqb_spec opc 1), (Z.eqb_spec opc 2); (lia || done). }
  rewrite (ctl_bit opc Hr), negb_involutive.
  set (w1 := if (opc <? 8) && final w then set_owed_a_fin false (set_continuation_possible false w) else w).
  assert (opcode w1 = opc /\ final w1 = final w /\ rsv w1 = rsv w /\ ping_payload_buf w1 = ping_payload_buf w /\
    continuation_possible w1 = (if (opc <? 8) && final w then false else c') /\
    owed_a_fin w1 = (if (opc <? 8) && final w then false else c)) as (H1 & H2 & H3 & H4 & H5 & H6).
  { unfold w1. destruct ((opc <? 8) && final w); by split_and!. }
  clearbody w1. rewrite H2.
  set (w2 := if negb (final w) then set_owed_a_fin true w1 else w1).
  assert (opcode w2 = opc /\ final w2 = final w /\ rsv w2 = rsv w /\ ping_payload_buf w2 = ping_payload_buf w /\
    continuation_possible w2 = (if (opc <? 8) && final w then false else c') /\
    owed_a_fin w2 = (if opc <? 8 then negb (final w) else c)) as (G1 & G2 & G3 & G4 & G5 & G6).
  { unfold w2. destruct (opc <? 8), (final w); cbn [negb andb orb] in *; split_and!; ws_red; done. }
  clearbody w2. ws_red. rewrite G3.
  change (Z.lxor 64 255) with 191.
  assert (nz (rsv w) && nz (Z.land (rsv w) 191) = negb (Z.land (rsv w) 191 =? 0)) as ->.
  { unfold nz. destruct (Z.eqb_spec (rsv w) 0) as [->|]; [done|]. done. }
  destruct (Z.eqb_spec (Z.land (rsv w) 191) 0); cbn [negb]; (eexists; split; [reflexivity|]).
  - ws_red. done.
  - apply protocol_err_1002. ws_red. by rewrite G4.
Qed.

Lemma first_byte_spec E w c b : ready E c w -> is_byte b -> (2 <= length (ping_payload_buf w))%nat ->
  exists r w', lws_ws_rx_sm E false false b w = Ok (r, w') /\
    if legal_first c b then
      r = 0 /\ lws_rx_parse_state w' = LWS_RXPS_04_FRAME_HDR_LEN /\ opcode w' = Z.land b 15 /\
      final w' = Z.testbit b 7 /\ continuation_possible w' = continues c b /\ owed_a_fin w' = continues c b
    else r = -1 /\ closing_1002 w'.
Proof.
  intros Hready Hb Hping. destruct Hready as ((Hb1 & Hb2 & _) & Hps & Hcont & Howed). unfold lws_ws_rx_sm. rewrite Hb1, Hps, Hb2.
  cbn [Z.eqb Pos.eqb]. unfold rx_handle_first.
  set (w2 := set_defeat_check_utf8 false _).
  assert (opcode w2 = Z.land b 15) as Hop by reflexivity.
  assert (rsv w2 = Z.land b 112) as Hrsv by reflexivity.
  assert (final w2 = Z.testbit b 7) as Hfin by reflexivity.
  assert (continuation_possible w2 = c) as Hc2 by exact Hcont.
  assert (owed_a_fin w2 = c) as Ho2 by exact Howed.
  assert (2 <= length (ping_payload_buf w2))%nat as Hp2 by exact Hping.
  clearbody w2.
  assert (0 <= Z.land b 15 < 16) as Hr.
  { change 15 with (Z.ones 4). rewrite Z.land_ones by lia. apply Z.mod_pos_bound. lia. }
  rewrite Hop, Hfin, ctl_bit by done. unfold legal_first, continues. set (opc := Z.land b 15) in *.
  destruct ((opc <? 8) || Z.testbit b 7) eqn:Ectl.
  2: { apply orb_false_iff in Ectl as [-> ->]. cbn [negb andb]. rewrite andb_false_r. eexists _, _.
       split; [reflexivity|]. split; [done|]. by apply protocol_err_1002. }
  assert (negb (opc <? 8) && negb (Z.testbit b 7) = false) as ->.
  { by destruct (opc <? 8), (Z.testbit b 7). }
  destruct (first_switch_spec E b w2 c opc Hop Hr Hc2 Hp2) as (w3 & -> & H3).
  destruct (opc_ok c opc) eqn:Eok; cbn [negb andb]; [|eexists _, _; split; [reflexivity|]; done].
  destruct H3 as [Hv Hc3]. unfold first_view in Hv. injection Hv as V1 V2 V3 V4 V5.
  rewrite Hop in V1. rewrite Hrsv in V2. rewrite Hfin in V3. rewrite Ho2 in V4.
  assert (Z.land (rsv w3) 191 = Z.land b 48) as Hr48.
  { rewrite V2, <- Z.land_assoc. done. }
  destruct (first_fin_spec w3 opc c _ V1 V4 Hc3 Eok) as (w4 & -> & H4).
  - by rewrite V3.
  - done.
  - by rewrite V5.
  - rewrite Hr48 in *. destruct (Z.eqb_spec (Z.land b 48) 0); (eexists _, _; split; [reflexivity|]); [|done].
    destruct H4 as (G1 & G2 & G3 & G4 & G5). rewrite V3 in G3, G4, G5. split_and!; try done.
    rewrite G4. rewrite Hfin. unfold opc_ok in Eok.
    destruct (Z.ltb_spec opc 8); cbn [andb].
    + destruct (Z.testbit b 7); [done|]. cbn [negb]. destruct c; [|by rewrite Eok].
      apply Z.eqb_eq in Eok. rewrite Eok. done.
    + destruct (Z.eqb_spec opc 1), (Z.eqb_spec opc 2); (lia || done).
Qed.

(** What a byte that fails the connection leaves alone. *)
Definition outside_view (w : lws) :=
  (socket_is_permanently_unusable w, ietf_spec_revision w, rxflow_bitmap w, state w, trace w, buflist w, buflist_out w,
   inside_frame w, stashed_write_pending w, role_client w, mask w, rx_ubuf_alloc w, ping_pending_flag w, send_check_ping w).

(** The ways out of the first byte: the close is prepared and nothing else. *)
Definition close_prepared (w w' : lws) : Prop :=
  outside_view w' = outside_view w /\ length (ping_payload_buf w') = length (ping_payload_buf w) /\
  2 <= close_in_ping_buffer_len w' <= 125.

Lemma protocol_err_prepared text w : close_prepared w (protocol_err text w).
Proof.
  unfold close_prepared, protocol_err, lws_close_reason. split; [reflexivity|]. ws_cbn. split; [apply length_inserts|].
  set (t := take _ (str text)). assert (0 <= len t <= 123) as Ht.
  { unfold len, t. rewrite length_take. lia. }
  rewrite len_app. change (len [_; _]) with 2. rewrite u8_small; [lia|]. unfold is_byte. lia.
Qed.

Lemma prepared_after w1 w w' : outside_view w = outside_view w1 -> ping_payload_buf w = ping_payload_buf w1 ->
  close_prepared w w' -> close_prepared w1 w'.
Proof. intros H1 H2 (H3 & H4 & H5). split; [congruence|]. split; [congruence|done]. Qed.

Lemma first_fin_prepared w w' : rx_first_fin w = (-1, w') -> close_prepared w w'.
Proof.
  unfold rx_first_fin. destruct (_ && _); [intros [= <-]; apply protocol_err_prepared|].
  set (w1 := if negb (nz (Z.land (opcode w) 8)) && final w then _ else w).
  assert (outside_view w1 = outside_view w /\ ping_payload_buf w1 = ping_payload_buf w) as [V1 B1]
    by (unfold w1; by destruct (_ && _)).
  clearbody w1. set (w2 := if negb (final w1) then _ else w1).
  assert (outside_view w2 = outside_view w /\ ping_payload_buf w2 = ping_payload_buf w) as [V2 B2]
    by (unfold w2; by destruct (negb _)).
  clearbody w2. cbv zeta. destruct (_ && _); [|done]. intros [= <-].
  apply (prepared_after w (set_lws_rx_parse_state LWS_RXPS_04_FRAME_HDR_LEN w2)); [exact V2|exact B2|apply protocol_err_prepared].
Qed.

Lemma first_switch_prepared E b w :
  match rx_first_switch E b w with
  | (true, w') => close_prepared w w'
  | (false, w') => outside_view w' = outside_view w /\ ping_payload_buf w' = ping_payload_buf w
  end.
Proof.
  unfold rx_first_switch. destruct (_ || _).
  - destruct (continuation_possible _); [|done].
    eapply prepared_after; [| |apply protocol_err_prepared]; reflexivity.
  - destruct (_ =? LWSWSOPC_CONTINUATION); [destruct (negb _); [apply protocol_err_prepared|done]|].
    destruct (_ =? LWSWSOPC_CLOSE); [done|]. destruct (_ || _); [apply protocol_err_prepared|done].
Qed.

Lemma handle_first_prepared E b w w' : rx_handle_first E b w = (-1, w') -> close_prepared w w'.
Proof.
  unfold rx_handle_first. set (w1 := set_defeat_check_utf8 false _).
  intros H. apply (prepared_after w w1); [reflexivity|reflexivity|]. revert H. clearbody w1.
  destruct (_ && _); [intros [= <-]; apply protocol_err_prepared|].
  pose proof (first_switch_prepared E b w1) as Hs. destruct (rx_first_switch E b w1) as [[] w2].
  - by intros [= <-].
  - destruct Hs as [V B]. intros H%first_fin_prepared. by apply (prepared_after w1 w2).
Qed.

(** An illegal first byte: the connection fails with code 1002 prepared. *)
Lemma illegal_first E c w b : ready E c w -> is_byte b -> (2 <= length (ping_payload_buf w))%nat -> legal_first c b = false ->
  exists w', lws_ws_rx_sm E false false b w = Ok (-1, w') /\ closing_1002 w' /\ close_prepared w w'.
Proof.
  intros Hr Hb Hl Hbad. destruct (first_byte_spec E w c b Hr Hb Hl) as (r & w' & E1 & H). rewrite Hbad in H.
  destruct H as [-> Hc]. exists w'. split; [exact E1|]. split; [exact Hc|].
  destruct Hr as ((Hb1 & Hb2 & _) & Hps & _). unfold lws_ws_rx_sm in E1. rewrite Hb1, Hps, Hb2 in E1.
  cbn [Z.eqb Pos.eqb] in E1. injection E1 as E1. apply handle_first_prepared in E1.
  by apply (prepared_after w (set_all_zero_nonce true w)).
Qed.

(** C33: the first byte of a frame.  In a state between frames, inside a
    fragmented message or not, every byte that starts a legal frame is accepted
    and sets opcode, FIN and the fragmentation state as RFC 6455 says, and every
    other byte - an unknown or reserved opcode, a continuation outside or a new
    message inside a fragmented one, a fragmented control frame, RSV2 or RSV3 -
    makes the connection fail with close code 1002.  RSV1 is accepted although
    no extension was negotiated. *)
Theorem ws_first_byte E w c b
    (Hready : ready E c w) (Hb : is_byte b) (Hping : (2 <= length (ping_payload_buf w))%nat) :
  exists r w', lws_ws_rx_sm E false false b w = Ok (r, w') /\
    if legal_first c b then
      r = 0 /\ lws_rx_parse_state w' = LWS_RXPS_04_FRAME_HDR_LEN /\ opcode w' = Z.land b 15 /\
      final w' = Z.testbit b 7 /\ continuation_possible w' = continues c b /\ owed_a_fin w' = continues c b
    else r = -1 /\ closing_1002 w'.
Proof. exact (first_byte_spec E w c b Hready Hb Hping). Qed.

Lemma ws_first_byte_witness :
  exists r w', lws_ws_rx_sm sample_env false false 131 sample_conn = Ok (r, w') /\ r = -1 /\ closing_1002 w'.
Proof.
  destruct (ws_first_byte sample_env sample_conn false 131 sample_conn_ready) as (r & w' & H1 & H2).
  - split; discriminate || reflexivity.
  - apply Nat.leb_le. reflexivity.
  - exists r, w'. split; [exact H1|exact H2].
Defined.
