(* ===== verification/System.v ===== *)
(** * From a client's frame to the light state

    The WebSocket library and the server program together: the callbacks the
    receive path makes, handled by the program's callback, and the messages
    the server sends, framed and read back. *)

From S2P Require Import Prelude CLib Ini Config Logger Dmx LightPacket MonitorJson Serveri ServeriInv ServeriProps Buflist Utf8 WsState WsRx WsRxProof WsRxProps.

Import Ws WsRx WsRxProof.

(** The callback of the light protocol the program registers, for a
    connection [wsi] of the peer [addr]; reasons by their number in
    [enum lws_callback_reasons]. *)
Definition server_reason (addr : bytes) (r : callback_reason) (p : bytes) : light_reason :=
  match r with
  | LWS_CALLBACK_SERVER_WRITEABLE => R_server_writeable
  | LWS_CALLBACK_HTTP_BODY => R_other 13
  | LWS_CALLBACK_HTTP_BODY_COMPLETION => R_other 14
  | LWS_CALLBACK_HTTP_WRITEABLE => R_other 16
  | LWS_CALLBACK_RECEIVE => R_receive addr p
  | LWS_CALLBACK_RECEIVE_PONG => R_other 7
  | LWS_CALLBACK_WS_PEER_INITIATED_CLOSE => R_other 38
  | LWS_CALLBACK_ESTABLISHED => R_established
  | LWS_CALLBACK_HTTP => R_other 12
  | LWS_CALLBACK_FILTER_HTTP_CONNECTION => R_other 18
  | LWS_CALLBACK_HTTP_BIND_PROTOCOL => R_other 49
  | LWS_CALLBACK_HTTP_DROP_PROTOCOL => R_other 50
  end.

Definition server_events (wsi : Z) (addr : bytes) (tr : list event) : list lws_event :=
  flat_map (fun e => match e with
                     | Callback r p => [L_light wsi (server_reason addr r p)]
                     | _ => []
                     end) tr.

(** The events a read adds to the trace. *)
Definition new_events (w w' : lws) : list event := drop (length (trace w)) (trace w').

(** C3: a light packet end to end.  A client sends a packet (NUL-free tag,
    light indices below 128, fitting the receive buffer) as one data frame,
    masked with any key or not.  The server that reads the frame in one read
    is called back once; its handler does not throw, the light state becomes
    that of the packet (tag filtered, lights set, other lights kept), the
    invariant is kept and the lights are marked dirty, so that the round's end
    writes them to the DMX line. *)
Theorem light_packet_end_to_end E w f s p wsi addr :
  env_ok E -> ready E false w -> data_frame false f -> f_payload f = encode_packet p ->
  len (encode_packet p) <= rx_buffer_size E ->
  all_bytes (lp_tag p) -> 0 ∉ lp_tag p -> Forall light_wf (lp_lights p) -> Inv s ->
  exists w' s' es,
    lws_parse_ws E false (wire f) w = Ok (0, len (wire f), w') /\
    for_each handle_event (server_events wsi addr (new_events w w')) s = Ok (s', es) /\
    currentState s' = abs_packet p (currentState s) /\ Inv s' /\ lightsDirty s' = true.
Proof.
  intros He Hr Hd Hf Hsz Ht H0 Hl Hs.
  destruct (parse_first E false f w (length (f_payload f)) He Hr Hd) as (w' & Hp & Htr & _);
    [rewrite Hf; unfold encode_packet; simpl; lia|by rewrite Hf|].
  rewrite (take_ge (f_payload f)), Hf in Htr by lia.
  rewrite (take_ge (wire_body f)) in Hp
    by (unfold wire_body; destruct (f_key f); rewrite ?xor_len; lia).
  assert (input_ok (encode_packet p)) as Hin.
  { split; [by apply encode_bytes|]. destruct He as (He & _). lia. }
  destruct (lightPacket_refines (encode_packet p) s Hin Hs) as (s' & es & E1 & Hh & Hdirty & Hst & _).
  exists w', s'. unfold new_events. rewrite Htr, drop_app_length.
  cbn [server_events flat_map server_reason app for_each handle_event callback].
  unfold andThen. cbn [mbind res_bind]. rewrite E1. cbn [mbind res_bind].
  eexists. split; [exact Hp|]. split; [reflexivity|].
  rewrite Hst, packet_spec_encode by done. split; [done|]. split; [by apply Hh|done].
Qed.

Lemma light_packet_end_to_end_witness :
  let p := mk_LightPacket (str "t") [mk_LightColor 0 (mk_Color 9 8 7)] in
  let f := mk_frame true 2 (Some [17; 34; 51; 68]) (encode_packet p) in
  exists w' s' es,
    lws_parse_ws sample_env false (wire f) sample_conn = Ok (0, len (wire f), w') /\
    for_each handle_event (server_events 1 (str "10.0.0.7") (new_events sample_conn w'))
      sample_serveri = Ok (s', es) /\
    ls_lights (currentState s') !! 0 = Some (mk_Color 9 8 7).
Proof.
  intros p f.
  destruct (light_packet_end_to_end sample_env sample_conn f sample_serveri p 1 (str "10.0.0.7"))
    as (w' & s' & es & H1 & H2 & H3 & _).
  - exact sample_env_ok.
  - exact sample_conn_ready.
  - unfold data_frame. cbn. split_and!; try (by right); try done;
      apply (bool_decide_unpack _); vm_compute; exact I.
  - reflexivity.
  - vm_compute. discriminate.
  - apply (bool_decide_unpack _); vm_compute; exact I.
  - apply (bool_decide_unpack _); vm_compute; exact I.
  - apply (bool_decide_unpack _); vm_compute; exact I.
  - exact sample_serveri_Inv.
  - exists w', s', es. split; [exact H1|]. split; [exact H2|]. rewrite H3. vm_compute. reflexivity.
Defined.
