(* ===== verification/WsTx.v ===== *)
(** * Sending WebSocket frames (libwebsockets lib/core-net/output.c, lib/roles/ws/ops-ws.c)

    [lws_write] of the WebSocket role: the frame header in front of the
    payload, client masking, and [lws_issue_raw], which hands bytes to the
    socket and keeps what the socket does not take on the connection's output
    list.  What the kernel and the random source answer are arguments. *)

From S2P Require Import Prelude CLib Buflist Utf8 WsState WsRx.

Module WsTx.
Import Ws.

(** What [send] does: takes some bytes, would block, or fails. *)
Inductive send_answer := Taken (m : Z) | Again | Fail.

Definition LWS_SSL_CAPABLE_ERROR : Z := -1.
Definition LWS_SSL_CAPABLE_MORE_SERVICE : Z := -4.

(** [lws_ssl_capable_write_no_ssl] on a stream socket. *)
Definition lws_ssl_capable_write_no_ssl (k : send_answer) : Z :=
  match k with
  | Taken m => m
  | Again => LWS_SSL_CAPABLE_MORE_SERVICE
  | Fail => LWS_SSL_CAPABLE_ERROR
  end.

Section Tx.
Context (E : env).

(** [lws_has_buffered_out] *)
Definition lws_has_buffered_out (w : lws) : bool :=
  match buflist_out w with [] => false | _ => true end.

(** The most a single call hands to the socket. *)
Definition send_limit : Z :=
  let n := if nz (tx_packet_size E) then s32 (tx_packet_size E)
           else let n := s32 (rx_buffer_size E) in if n =? 0 then pt_serv_buf_size E else n in
  u32 (n + (LWS_PRE + 4)).

(** From the computation of the send limit on, for the bytes [buf]: the
    argument, or the head of the output list when there is one.  An HTTP
    transaction waiting for its output does not occur in this role. *)
Definition issue_send (k : send_answer) (buf : bytes) (w : lws) : res exn (Z * lws) :=
  let real_len := len buf in
  let n := if send_limit >? real_len then s32 real_len else send_limit in
  let m := lws_ssl_capable_write_no_ssl k in
  let w := match k with Taken m => emit (Issue (take (Z.to_nat m) (take (Z.to_nat n) buf))) w | _ => w end in
  let w := set_could_have_pending true w in
  if m =? LWS_SSL_CAPABLE_ERROR then Ok (-1, set_socket_is_permanently_unusable true w)
  else
    let m := if m =? LWS_SSL_CAPABLE_MORE_SERVICE then 0 else m in
    let m := if m <? 0 then 0 else m in
    if lws_has_buffered_out w then
      w ← (if nz m then
             '(_, l) ← Buflist.lws_buflist_use_segment (buflist_out w) m;
             Ok (set_buflist_out l w)
           else Ok w);
      if negb (lws_has_buffered_out w) then
        if state_is LRS_FLUSHING_BEFORE_CLOSE w then Ok (-1, w)
        else if close_when_buffered_out_drained w
        then Ok (-1, set_close_when_buffered_out_drained false w)
        else Ok (s32 real_len, emit OnWritable w)
      else Ok (m, emit OnWritable w)
    else if m =? real_len then Ok (m, w)
    else
      '(r, l) ← Buflist.lws_buflist_append_segment true (buflist_out w) (drop (Z.to_nat m) buf);
      let w := set_buflist_out l w in
      if r <? 0 then Ok (-1, w) else Ok (s32 real_len, emit OnWritable w).

(** [lws_issue_raw]; [None] is a NULL buffer. *)
Definition lws_issue_raw (k : send_answer) (buf : option bytes) (w : lws) : res exn (Z * lws) :=
  if state_is LRS_FLUSHING_BEFORE_CLOSE w && negb (lws_has_buffered_out w)
  then Ok (s32 (len (default [] buf)), w)
  else
    '(fail, buf, w) ←
      match buf with
      | Some b =>
        if lws_has_buffered_out w then
          '(r, l) ← Buflist.lws_buflist_append_segment true (buflist_out w) b;
          Ok (nz r, None, set_buflist_out l w)
        else Ok (false, buf, w)
      | None => Ok (false, None, w)
      end;
    if fail : bool then Ok (-1, w)
    else
      '(buf, w) ←
        (if lws_has_buffered_out w then
           '(_, b, l) ← Buflist.lws_buflist_next_segment_len (buflist_out w);
           Ok (b, set_buflist_out l w)
         else Ok (buf, w));
      match buf with
      | None => Ok (0, w)
      | Some b => if len b =? 0 then Ok (0, w) else issue_send k b w
      end.

(** ** The WebSocket role's write *)

(** [enum lws_write_protocol] *)
Definition LWS_WRITE_TEXT : Z := 0.
Definition LWS_WRITE_BINARY : Z := 1.
Definition LWS_WRITE_CONTINUATION : Z := 2.
Definition LWS_WRITE_HTTP : Z := 3.
Definition LWS_WRITE_CLOSE : Z := 4.
Definition LWS_WRITE_PING : Z := 5.
Definition LWS_WRITE_PONG : Z := 6.
Definition LWS_WRITE_HTTP_FINAL : Z := 7.
Definition LWS_WRITE_HTTP_HEADERS : Z := 8.
Definition LWS_WRITE_HTTP_HEADERS_CONTINUATION : Z := 9.
Definition LWS_WRITE_NO_FIN : Z := 64.

(** The opcode of a write type. *)
Definition write_opcode (wp : Z) : option Z :=
  let t := Z.land wp 15 in
  if t =? LWS_WRITE_TEXT then Some LWSWSOPC_TEXT_FRAME
  else if t =? LWS_WRITE_BINARY then Some LWSWSOPC_BINARY_FRAME
  else if t =? LWS_WRITE_CONTINUATION then Some LWSWSOPC_CONTINUATION
  else if t =? LWS_WRITE_CLOSE then Some LWSWSOPC_CLOSE
  else if t =? LWS_WRITE_PING then Some LWSWSOPC_PING
  else if t =? LWS_WRITE_PONG then Some LWSWSOPC_PONG
  else None.

(** The header bytes of revision 13 in front of the payload (and of the
    masking key). *)
Definition frame_header (n is_masked_bit length : Z) : bytes :=
  if length <? 126 then [u8 n; u8 (Z.lor length is_masked_bit)]
  else if length <? 65536 then
    [u8 n; Z.lor 126 is_masked_bit; u8 (Z.shiftr length 8); u8 length]
  else
    [u8 n; Z.lor 127 is_masked_bit;
     Z.land (Z.shiftr length 56) 127; u8 (Z.shiftr length 48); u8 (Z.shiftr length 40);
     u8 (Z.shiftr length 32); u8 (Z.shiftr length 24); u8 (Z.shiftr length 16);
     u8 (Z.shiftr length 8); u8 length].

(** The masking loop: the key index runs in a byte. *)
Fixpoint mask_loop (k : bytes) (idx : Z) (l : bytes) : bytes :=
  match l with
  | [] => []
  | x :: l' => Z.lxor x (nth (Z.to_nat (Z.land idx 3)) k 0) :: mask_loop k (u8 (idx + 1)) l'
  end.

(** [lws_0405_frame_mask_generate]: [rnd] is what the random source yields. *)
Definition lws_0405_frame_mask_generate (rnd : bytes) (w : lws) : Z * lws :=
  let w := set_mask (list_inserts 0 (take 4 rnd) (mask w)) w in
  if negb (len (take 4 rnd) =? 4) then (1, w) else (0, set_mask_idx 0 w).

(** [do_more_inside_frame]: the masking of a client's payload.  Whether the
    random source failed, the key put in front of the payload, the payload. *)
Definition mask_payload (rnd payload : bytes) (dropmask : bool) (w : lws)
  : bool * bytes * bytes * lws :=
  if role_client w then
    let '(bad, w) := if negb (inside_frame w) then lws_0405_frame_mask_generate rnd w else (0, w) in
    if nz bad then (true, [], payload, w)
    else if dropmask then
      (false, mask w, mask_loop (mask w) (mask_idx w) payload,
       set_mask_idx (u8 (mask_idx w + len payload)) w)
    else (false, [], payload, w)
  else (false, [], payload, w).

(** From [do_more_inside_frame] to the end: [pre] is the header, the payload
    follows it. *)
Definition write_frame (k : send_answer) (rnd : bytes) (wp : Z) (pre payload : bytes)
    (dropmask : bool) (orig_len : Z) (w : lws) : res exn (Z * lws) :=
  let '(fail, key, payload, w) := mask_payload rnd payload dropmask w in
  if fail : bool then Ok (-1, w)
  else
    let bytes_out := pre ++ key ++ payload in
    let t := Z.land wp 31 in
    if (t =? LWS_WRITE_TEXT) || (t =? LWS_WRITE_BINARY) || (t =? LWS_WRITE_CONTINUATION) then
      '(n, w) ← lws_issue_raw k (Some bytes_out) w;
      let w := set_inside_frame true w in
      if n <=? 0 then Ok (n, w)
      else if n =? len bytes_out then Ok (s32 orig_len, set_inside_frame false w)
      else Ok (n - len (pre ++ key), w)
    else lws_issue_raw k (Some bytes_out) w.

(** [rops_write_role_protocol_ws] on a connection that is not an HTTP/2
    stream. *)
Definition rops_write_role_protocol_ws (k : send_answer) (rnd : bytes) (buf : bytes) (wp : Z)
    (w : lws) : res exn (Z * lws) :=
  let w := if nz (ws_ping_pong_interval E) then sul_ping_insert (ws_ping_pong_interval E) w else w in
  let t := Z.land wp 31 in
  if (t =? LWS_WRITE_HTTP) || (t =? LWS_WRITE_HTTP_FINAL)
     || (t =? LWS_WRITE_HTTP_HEADERS_CONTINUATION) || (t =? LWS_WRITE_HTTP_HEADERS)
  then lws_issue_raw k (Some buf) w
  else if inside_frame w then write_frame k rnd wp [] buf false (len buf) w
  else
    let w := set_clean_buffer true w in
    let '(wp, w) :=
      if (wp =? LWS_WRITE_PING) || (wp =? LWS_WRITE_PONG) || (wp =? LWS_WRITE_CLOSE) then (wp, w)
      else if nz (len buf) && stashed_write_pending w
      then (Z.lor (Z.land wp 192) (stashed_write_type w), set_stashed_write_pending false w)
      else (wp, w) in
    if ietf_spec_revision w =? 13 then
      match write_opcode wp with
      | None => Ok (-1, w)
      | Some n =>
        let is_masked_bit := if role_client w then 128 else 0 in
        let n := if nz (Z.land wp LWS_WRITE_NO_FIN) then n else Z.lor n (Z.shiftl 1 7) in
        write_frame k rnd wp (frame_header n is_masked_bit (len buf)) buf (role_client w) (len buf) w
      end
    else write_frame k rnd wp [] buf false (len buf) w.

(** [lws_write] *)
Definition lws_write (k : send_answer) (rnd : bytes) (buf : bytes) (wp : Z) (w : lws)
  : res exn (Z * lws) :=
  if s32 (len buf) <? 0 then Ok (-1, w) else rops_write_role_protocol_ws k rnd buf wp w.

(** ** POLLOUT of the role *)

Inductive hp_ret := LWS_HP_RET_BAIL_OK | LWS_HP_RET_BAIL_DIE | LWS_HP_RET_USER_SERVICE.

(** [rops_handle_POLLOUT_ws] *)
Definition rops_handle_POLLOUT_ws (k : send_answer) (rnd : bytes) (w : lws) : res exn (hp_ret * lws) :=
  if state_is LRS_WAITING_TO_SEND_CLOSE w then
    let w := set_waiting_to_send_close_frame false w in
    '(n, w) ← lws_write k rnd (take (Z.to_nat (close_in_ping_buffer_len w)) (ping_payload_buf w))
                LWS_WRITE_CLOSE w;
    if n >=? 0 then
      if close_needs_ack w then
        Ok (LWS_HP_RET_BAIL_OK, emit (SetTimeout 5) (set_state LRS_AWAITING_CLOSE_ACK w))
      else Ok (LWS_HP_RET_BAIL_DIE, set_state LRS_RETURNED_CLOSE (set_close_needs_ack false w))
    else Ok (LWS_HP_RET_BAIL_DIE, w)
  else if ping_pending_flag w || (state_is LRS_RETURNED_CLOSE w && payload_is_close w) then
    if negb (payload_is_close w) && wsistate_pre_close w
    then Ok (LWS_HP_RET_BAIL_OK, set_ping_pending_flag false w)
    else
      let write_type := if payload_is_close w then LWS_WRITE_CLOSE else LWS_WRITE_PONG in
      '(n, w) ← lws_write k rnd (take (Z.to_nat (ping_payload_len w)) (ping_payload_buf w)) write_type w;
      if n <? 0 then Ok (LWS_HP_RET_BAIL_DIE, w)
      else
        let w := set_ping_pending_flag false w in
        if payload_is_close w then Ok (LWS_HP_RET_BAIL_DIE, w) else Ok (LWS_HP_RET_BAIL_OK, w)
  else if negb (socket_is_permanently_unusable w) && send_check_ping w && nz (ws_ping_pong_interval E)
  then
    let w := set_send_check_ping false w in
    let w := set_await_pong true w in
    '(n, w) ← lws_write k rnd [] LWS_WRITE_PING w;
    if n <? 0 then Ok (LWS_HP_RET_BAIL_DIE, w)
    else Ok (LWS_HP_RET_BAIL_OK, sul_ping_insert (timeout_secs E) w)
  else Ok (LWS_HP_RET_USER_SERVICE, w).

(** [lws_sul_wsping_cb]; [true]: the connection is closed. *)
Definition lws_sul_wsping_cb (w : lws) : bool * lws :=
  if negb (send_check_ping w) then
    (false, emit OnWritable (emit (SetTimeout (timeout_secs E)) (set_send_check_ping true w)))
  else (await_pong w, w).

(** [rops_close_via_role_protocol_ws]: prepares the close frame. *)
Definition LWS_CLOSE_STATUS_NOSTATUS : Z := 0.
Definition LWS_CLOSE_STATUS_NOSTATUS_CONTEXT_DESTROY : Z := 9999.

Definition rops_close_via_role_protocol_ws (reason : Z) (w : lws) : Z * lws :=
  if (close_in_ping_buffer_len w =? 0)
     && ((reason =? LWS_CLOSE_STATUS_NOSTATUS) || (reason =? LWS_CLOSE_STATUS_NOSTATUS_CONTEXT_DESTROY))
  then (0, w)
  else
    let w :=
      if close_in_ping_buffer_len w =? 0 then
        set_ping_payload_buf
          (list_inserts 0 [Z.land (Z.shiftr reason 8) 255; Z.land reason 255] (ping_payload_buf w))
          (set_close_in_ping_buffer_len 2 w)
      else w in
    let w := set_waiting_to_send_close_frame true w in
    let w := set_close_needs_ack true w in
    let w := set_state LRS_WAITING_TO_SEND_CLOSE w in
    let w := emit (SetTimeout 5) w in
    (1, emit OnWritable w).

(** [rops_close_role_ws]: frees what the role holds. *)
Definition rops_close_role_ws (w : lws) : lws :=
  set_ping_pending_flag false (set_ping_payload_len 0 (set_rx_ubuf None w)).

End Tx.
End WsTx.
