(* ===== verification/WsTxProof.v ===== *)
(** * The send path

    [lws_issue_raw] neither loses, duplicates nor reorders bytes whatever the
    socket takes, [lws_write] produces the frames of RFC 6455, and what a
    client writes the server's receive path delivers. *)

From S2P Require Import Prelude CLib Buflist Utf8 WsState WsRx WsRxProof WsRxProps WsTx.

Import Ws WsRx WsRxProof WsTx Buflist.

(** The bytes the socket has taken. *)
Definition sent (tr : list event) : bytes :=
  concat (map (fun e => match e with Issue b => b | _ => [] end) tr).

Lemma sent_app a b : sent (a ++ b) = sent a ++ sent b.
Proof. unfold sent. by rewrite map_app, concat_app. Qed.

(** What was handed to the connection so far: taken, or on its output list. *)
Definition output (w : lws) : bytes := sent (trace w) ++ queue (buflist_out w).

(** The output list between calls. *)
Definition out_ok (w : lws) : Prop :=
  Forall seg_ok (buflist_out w) /\ (length (buflist_out w) < 1024)%nat.

(** What a call offers to the socket. *)
Definition offered (buf : option bytes) (w : lws) : bytes :=
  match buflist_out w with [] => default [] buf | s :: _ => seg_rest s end.

(** The kernel takes at most what it is offered. *)
Definition kernel_ok (E : env) (k : send_answer) (b : bytes) : Prop :=
  match k with Taken m => 0 <= m <= len b /\ m <= send_limit E | Again => True | Fail => False end.

Lemma send_limit_range E : 0 <= send_limit E < 2 ^ 32.
Proof. apply u32_range. Qed.

(** The members the receive path starts from; sending leaves them alone. *)
Definition rx_view (w : lws) :=
  (lws_rx_parse_state w, socket_is_permanently_unusable w, ietf_spec_revision w, rxflow_bitmap w,
   wsistate_pre_close w, rx_ubuf_head w, mask w, check_utf8 w, continuation_possible w, owed_a_fin w).

Section Tx.
Context (E : env).

(** The answer as an amount. *)
Definition amount (k : send_answer) : Z := match k with Taken m => m | _ => 0 end.

Lemma issue_send_start k b w : kernel_ok E k b -> 0 < len b < 2 ^ 31 ->
  exists tr, sent tr = take (Z.to_nat (amount k)) b /\
  issue_send E k b w =
    let m := amount k in
    let w := set_could_have_pending true (set_trace (trace w ++ tr) w) in
    if lws_has_buffered_out w then
      w ← (if nz m then
             '(_, l) ← lws_buflist_use_segment (buflist_out w) m;
             Ok (set_buflist_out l w)
           else Ok w);
      if negb (lws_has_buffered_out w) then
        if state_is LRS_FLUSHING_BEFORE_CLOSE w then Ok (-1, w)
        else if close_when_buffered_out_drained w
        then Ok (-1, set_close_when_buffered_out_drained false w)
        else Ok (len b, emit OnWritable w)
      else Ok (m, emit OnWritable w)
    else if m =? len b then Ok (m, w)
    else
      '(r, l) ← lws_buflist_append_segment true (buflist_out w) (drop (Z.to_nat m) b);
      let w := set_buflist_out l w in
      if r <? 0 then Ok (-1, w) else Ok (len b, emit OnWritable w).
Proof.
  intros Hk Hb. unfold issue_send. rewrite (s32_small (len b)) by lia.
  pose proof (send_limit_range E) as Hlim.
  destruct k as [m| |]; [|exists []|done]; cbn [kernel_ok amount lws_ssl_capable_write_no_ssl] in *.
  - exists [Issue (take (Z.to_nat m) b)]. split; [cbn; by rewrite app_nil_r|].
    assert (take (Z.to_nat m) (take (Z.to_nat (if send_limit E >? len b then len b else send_limit E)) b)
            = take (Z.to_nat m) b) as ->.
    { rewrite take_take. f_equal. destruct (Z.gtb_spec (send_limit E) (len b)); lia. }
    unfold LWS_SSL_CAPABLE_ERROR, LWS_SSL_CAPABLE_MORE_SERVICE.
    rewrite (proj2 (Z.eqb_neq m (-1))), (proj2 (Z.eqb_neq m (-4))) by lia.
    destruct (Z.ltb_spec m 0); [lia|]. reflexivity.
  - split; [done|]. rewrite app_nil_r. by destruct w.
Qed.

Lemma drop_len m (b : bytes) : 0 <= m <= len b -> len (drop (Z.to_nat m) b) = len b - m.
Proof. unfold len. rewrite length_drop. lia. Qed.

(** Fresh data with nothing waiting. *)
Lemma issue_fresh k b w : buflist_out w = [] -> 0 < len b < 2 ^ 31 -> kernel_ok E k b ->
  state_is LRS_FLUSHING_BEFORE_CLOSE w = false ->
  exists w', lws_issue_raw E k (Some b) w = Ok (len b, w') /\
    output w' = output w ++ b /\ out_ok w' /\ inside_frame w' = inside_frame w /\
    state w' = state w /\ rx_view w' = rx_view w.
Proof.
  intros Hq Hb Hk Hst. unfold lws_issue_raw, lws_has_buffered_out. rewrite Hst, Hq. cbn [andb].
  cbn [mbind res_bind]. rewrite Hq. cbn [mbind res_bind].
  rewrite (proj2 (Z.eqb_neq (len b) 0)) by lia.
  destruct (issue_send_start k b w Hk Hb) as (tr & Htr & ->). cbv zeta.
  set (w1 := set_could_have_pending true (set_trace (trace w ++ tr) w)).
  unfold lws_has_buffered_out. change (buflist_out w1) with (buflist_out w). rewrite Hq.
  assert (0 <= amount k <= len b) as Hm by (destruct k; simpl in *; lia || done).
  unfold output, out_ok. rewrite Hq.
  destruct (Z.eqb_spec (amount k) (len b)) as [Em|Em].
  - exists w1. rewrite Em. split; [done|]. change (trace w1) with (trace w ++ tr).
    change (buflist_out w1) with (buflist_out w). rewrite Hq, sent_app, Htr, Em, !app_nil_r.
    rewrite take_ge by (unfold len; lia). repeat split; [constructor|simpl; lia].
  - pose proof (drop_len _ b Hm) as Hd.
    destruct (append_spec [] (drop (Z.to_nat (amount k)) b)) as (-> & H1 & H2); [constructor|lia|].
    cbn [length Nat.ltb Nat.leb mbind res_bind]. eexists. split; [reflexivity|].
    cbn [app] in *. set (s := mk_seg _ _ _) in *.
    split; [|split; [split; [exact H1|simpl; lia]|done]].
    unfold emit. ws_cbn. change (trace w1) with (trace w ++ tr).
    rewrite !sent_app, Htr, H2. cbn [queue map concat sent app]. rewrite !app_nil_r, <- app_assoc.
    by rewrite take_drop.
Qed.

(** Draining the head of the list. *)
Lemma issue_drain k w s l : buflist_out w = s :: l -> out_ok w -> kernel_ok E k (seg_rest s) ->
  exists r w', issue_send E k (seg_rest s) w = Ok (r, w') /\ output w' = output w /\ out_ok w'.
Proof.
  intros Hq [Hok Hlen] Hk. rewrite Hq in Hok. pose proof Hok as Hs. inversion_clear Hs as [|? ? Hs1 Hs2].
  pose proof (seg_rest_len s Hs1) as Hrest. pose proof Hs1 as (Hs3 & Hs4 & Hs5).
  destruct (issue_send_start k (seg_rest s) w Hk ltac:(lia)) as (tr & Htr & ->). cbv zeta.
  set (w1 := set_could_have_pending true (set_trace (trace w ++ tr) w)).
  unfold lws_has_buffered_out. change (buflist_out w1) with (buflist_out w). rewrite Hq.
  assert (0 <= amount k <= len (seg_rest s)) as Hm by (destruct k; simpl in *; lia || done).
  assert (forall l', queue l' = drop (Z.to_nat (amount k)) (queue (s :: l)) ->
    sent (trace w ++ tr) ++ queue l' = output w) as Hout.
  { intros l' Hl'. unfold output. rewrite Hq, sent_app, Htr, Hl', <- app_assoc. f_equal.
    unfold queue. cbn [map concat]. rewrite drop_app_le by (unfold len in Hm; lia).
    rewrite app_assoc. by rewrite take_drop. }
  destruct (nz (amount k)) eqn:Enz.
  - apply nz_true in Enz.
    destruct (use_spec (s :: l) (amount k) Hok) as (l' & -> & Hl1 & Hl2 & Hl3); [simpl; lia|].
    cbn [mbind res_bind]. set (w2 := set_buflist_out l' w1).
    assert (forall w', buflist_out w' = l' -> sent (trace w') = sent (trace w2) ->
      output w' = output w /\ out_ok w') as Hfin.
    { intros w' Hl' Ht'. unfold output, out_ok. rewrite Hl', Ht'. split; [exact (Hout l' Hl2)|].
      split; [exact Hl1|]. rewrite Hq in Hlen. lia. }
    assert (sent (trace w2 ++ [OnWritable]) = sent (trace w2)) as Hev
      by (rewrite sent_app; apply app_nil_r).
    repeat case_goal; (eexists _, _; split; [reflexivity|]); apply Hfin; done.
  - apply nz_false in Enz. cbn [mbind res_bind].
    change (buflist_out w1) with (buflist_out w). rewrite Hq. cbn [negb].
    eexists _, _. split; [reflexivity|]. split.
    + pose proof (Hout (s :: l) ltac:(by rewrite Enz)) as H0. rewrite <- H0.
      unfold output, emit, w1. ws_cbn. rewrite (sent_app _ [OnWritable]), Hq.
      cbn [sent map concat]. by rewrite app_nil_r.
    + unfold out_ok, w1. ws_cbn. rewrite Hq. split; [done|]. by rewrite Hq in Hlen.
Qed.

End Tx.

(** ** Frames *)

Lemma mask_loop_xor k l : forall i j, i mod 4 = j mod 4 -> mask_loop k i l = xor_from k j l.
Proof.
  induction l as [|x l IH]; intros i j H; [done|]. cbn [mask_loop xor_from].
  rewrite land3, H. f_equal. apply IH. unfold u8.
  rewrite <- (Z.add_mod_idemp_l j), <- H, Z.add_mod_idemp_l by lia.
  rewrite Z.mod_mod_divide; [done|]. by exists 64.
Qed.

Definition data_write (t : Z) : Prop := t = LWS_WRITE_TEXT \/ t = LWS_WRITE_BINARY \/ t = LWS_WRITE_CONTINUATION.
Definition ctl_write (t : Z) : Prop := t = LWS_WRITE_CLOSE \/ t = LWS_WRITE_PING \/ t = LWS_WRITE_PONG.

(** Opcode of a write type. *)
Definition opcode_of (t : Z) : Z := default 0 (write_opcode t).

Lemma header_wire (fin : bool) opc (masked : bool) n :
  0 <= opc < 16 -> 0 <= n < 2 ^ 63 ->
  frame_header (if fin then Z.lor opc (Z.shiftl 1 7) else opc) (if masked then 128 else 0) n
  = [(if fin then 128 else 0) + opc] ++ wire_len masked n.
Proof.
  intros Ho Hn.
  assert (u8 (if fin then Z.lor opc (Z.shiftl 1 7) else opc) = (if fin then 128 else 0) + opc) as Hb.
  { destruct fin; [|rewrite u8_small; [lia|unfold is_byte; lia]].
    assert (Forall (fun o => u8 (Z.lor o (Z.shiftl 1 7)) = 128 + o) (seqZ 0 16)) as H
      by (apply (bool_decide_unpack _); vm_compute; exact I).
    rewrite Forall_forall in H. apply H. apply elem_of_seqZ. lia. }
  assert (forall sh, 0 <= sh -> u8 (Z.shiftr n sh) = n / 2 ^ sh mod 256) as Hsh.
  { intros sh Hs. unfold u8. by rewrite Z.shiftr_div_pow2. }
  unfold frame_header, wire_len. rewrite Hb. change 65536 with (2 ^ 16).
  destruct (Z.ltb_spec n 126); [|destruct (Z.ltb_spec n (2 ^ 16))].
  - cbn [app]. do 2 f_equal. destruct masked; [|rewrite Z.lor_0_r; apply u8_small; unfold is_byte; lia].
    assert (Forall (fun o => u8 (Z.lor o 128) = 128 + o) (seqZ 0 126)) as H'
      by (apply (bool_decide_unpack _); vm_compute; exact I).
    rewrite Forall_forall in H'. apply H'. apply elem_of_seqZ. lia.
  - rewrite Hsh by lia. unfold be16, u8. change (2 ^ 8) with 256. by destruct masked.
  - rewrite !Hsh by lia. unfold be64. change 127 with (Z.ones 7) at 2. rewrite Z.land_ones, Z.shiftr_div_pow2 by lia.
    assert (n / 2 ^ 56 mod 2 ^ 7 = n / 2 ^ 56 mod 256) as ->.
    { assert (0 <= n / 2 ^ 56 < 128) as Hd.
      { split; [apply Z.div_pos; lia|]. apply Z.div_lt_upper_bound; lia. }
      rewrite !Z.mod_small by lia. done. }
    change (u8 n) with (n mod 256). by destruct masked.
Qed.

(** A connection that can start a frame. *)
Definition tx_ready (w : lws) : Prop :=
  buflist_out w = [] /\ inside_frame w = false /\ stashed_write_pending w = false /\
  ietf_spec_revision w = 13 /\ state_is LRS_FLUSHING_BEFORE_CLOSE w = false /\
  length (mask w) = 4%nat.

(** The frame a write stands for. *)
Definition frame_of (client fin : bool) (t : Z) (rnd buf : bytes) : frame :=
  mk_frame fin (opcode_of t) (if client then Some (take 4 rnd) else None) buf.

Definition wp_of (fin : bool) (t : Z) : Z := if fin then t else t + LWS_WRITE_NO_FIN.

(** The write types and the numbers the code derives from them. *)
Lemma wp_cases (fin : bool) t : data_write t \/ ctl_write t /\ fin = true ->
  let wp := wp_of fin t in
  let u := Z.land wp 31 in
  u = t /\
  (u =? LWS_WRITE_HTTP) || (u =? LWS_WRITE_HTTP_FINAL)
    || (u =? LWS_WRITE_HTTP_HEADERS_CONTINUATION) || (u =? LWS_WRITE_HTTP_HEADERS) = false /\
  write_opcode wp = Some (opcode_of t) /\ 0 <= opcode_of t < 16 /\
  nz (Z.land wp LWS_WRITE_NO_FIN) = negb fin /\
  (data_write t -> (u =? LWS_WRITE_TEXT) || (u =? LWS_WRITE_BINARY) || (u =? LWS_WRITE_CONTINUATION) = true) /\
  (ctl_write t -> (u =? LWS_WRITE_TEXT) || (u =? LWS_WRITE_BINARY) || (u =? LWS_WRITE_CONTINUATION) = false).
Proof.
  unfold data_write, ctl_write, LWS_WRITE_TEXT, LWS_WRITE_BINARY, LWS_WRITE_CONTINUATION,
    LWS_WRITE_CLOSE, LWS_WRITE_PING, LWS_WRITE_PONG.
  intros [[-> |[-> | ->]]|[[-> |[-> | ->]] ->]]; try destruct fin; cbv zeta;
    (split_and!; [done|done|done|vm_compute; discriminate|vm_compute; reflexivity|done| |]);
    intros H; repeat destruct H as [H|H]; try discriminate H; try done.
Qed.

(** The bytes of the frame, from header, key and payload. *)
Lemma wire_parts (client fin : bool) t rnd buf : 0 <= opcode_of t < 16 -> len buf < 2 ^ 63 ->
  frame_header (if fin then Z.lor (opcode_of t) (Z.shiftl 1 7) else opcode_of t)
    (if client then 128 else 0) (len buf)
  ++ (if client then take 4 rnd ++ mask_loop (take 4 rnd) 0 buf else buf)
  = wire (frame_of client fin t rnd buf).
Proof.
  intros Ho Hl. rewrite header_wire by (done || (pose proof (len_nonneg buf); lia)).
  unfold wire, wire_head, wire_body, frame_of, is_masked. cbn [f_key f_fin f_opc f_payload].
  destruct client; cbn [default].
  - rewrite (mask_loop_xor _ _ 0 0) by done. by rewrite <- !app_assoc.
  - by rewrite app_nil_r.
Qed.

Lemma wire_length f : (length (default [] (f_key f)) <= 4)%nat ->
  0 < len (wire f) <= len (f_payload f) + 14.
Proof.
  intros Hk. unfold wire, wire_head. rewrite !len_app.
  assert (len (wire_body f) = len (f_payload f)) as ->.
  { unfold wire_body, len. destruct (f_key f); [by rewrite xor_len|done]. }
  assert (1 <= len (wire_len (is_masked f) (len (f_payload f))) <= 9) as Hl.
  { unfold wire_len. repeat case_goal; unfold len; simpl; lia. }
  pose proof (len_nonneg (f_payload f)). pose proof (len_nonneg (default [] (f_key f))).
  assert (len (default [] (f_key f)) <= 4) by (unfold len; lia).
  change (len [_]) with 1. lia.
Qed.

Lemma mask_payload_spec rnd buf w : inside_frame w = false -> length (mask w) = 4%nat ->
  (role_client w = true -> (4 <= length rnd)%nat) ->
  exists w1, mask_payload rnd buf (role_client w) w
      = (false, if role_client w then take 4 rnd else [],
         if role_client w then mask_loop (take 4 rnd) 0 buf else buf, w1) /\
    buflist_out w1 = buflist_out w /\ state w1 = state w /\ trace w1 = trace w.
Proof.
  intros Hin Hmask Hrnd. unfold mask_payload.
  destruct (role_client w); [|by exists w]. rewrite Hin. cbn [negb].
  unfold lws_0405_frame_mask_generate. specialize (Hrnd eq_refl).
  assert (len (take 4 rnd) = 4) as -> by (unfold len; rewrite length_take; lia).
  change (4 =? 4) with true. cbn [negb]. change (nz 0) with false. cbv iota.
  set (w0 := set_mask_idx 0 _).
  assert (mask w0 = take 4 rnd) as ->.
  { unfold w0. ws_cbn. destruct (mask w) as [|m0 [|m1 [|m2 [|m3 [|]]]]]; try discriminate Hmask.
    destruct rnd as [|r0 [|r1 [|r2 [|r3 ?]]]]; try (simpl in Hrnd; lia). done. }
  change (mask_idx w0) with 0. eexists. split; [reflexivity|]. done.
Qed.

(** What [write_frame] sends. *)
Lemma write_frame_spec E k rnd fin t buf w : tx_ready w ->
  data_write t \/ ctl_write t /\ fin = true ->
  0 <= len buf < 2 ^ 31 - 14 -> (role_client w = true -> (4 <= length rnd)%nat) ->
  let f := frame_of (role_client w) fin t rnd buf in
  let n := if fin then Z.lor (opcode_of t) (Z.shiftl 1 7) else opcode_of t in
  kernel_ok E k (wire f) ->
  exists r w', write_frame E k rnd (wp_of fin t)
      (frame_header n (if role_client w then 128 else 0) (len buf)) buf (role_client w) (len buf) w
      = Ok (r, w') /\
    output w' = output w ++ wire f /\ out_ok w' /\
    (data_write t -> r = len buf /\ inside_frame w' = false) /\ (ctl_write t -> r = len (wire f)).
Proof.
  intros (Hq & Hin & Hst & Hrev & Hfl & Hmask) Ht Hlen Hrnd f n Hk.
  destruct (wp_cases fin t Ht) as (_ & _ & _ & Hopc & _ & Hdata & Hctl). cbv zeta in Hdata, Hctl.
  pose proof (wire_parts (role_client w) fin t rnd buf Hopc ltac:(lia)) as Hparts. fold f n in Hparts.
  assert (0 < len (wire f) < 2 ^ 31) as Hwl.
  { pose proof (wire_length f) as Hw. unfold f, frame_of in *. cbn [f_key f_payload] in *.
    destruct (role_client w); simpl default in Hw; [rewrite length_take in Hw|simpl length in Hw]; lia. }
  destruct (mask_payload_spec rnd buf w Hin Hmask Hrnd) as (w1 & Hgen & Hq1 & Hs1 & Ht1).
  unfold write_frame. rewrite Hgen. cbv iota zeta.
  replace (frame_header n (if role_client w then 128 else 0) (len buf) ++
    (if role_client w then take 4 rnd else []) ++
    (if role_client w then mask_loop (take 4 rnd) 0 buf else buf)) with (wire f)
    by (rewrite <- Hparts; by destruct (role_client w)).
  destruct (issue_fresh E k (wire f) w1) as (w2 & -> & Hout & Hok & Hin2 & _);
    [congruence|done|done|unfold state_is in *; by rewrite Hs1|].
  assert (output w1 = output w) as Ho by (unfold output; by rewrite Hq1, Ht1). rewrite Ho in Hout.
  cbn [mbind res_bind].
  destruct Ht as [Ht|[Ht ->]].
  - rewrite (Hdata Ht). destruct (Z.leb_spec (len (wire f)) 0); [lia|]. rewrite Z.eqb_refl.
    rewrite s32_small by lia. eexists _, _. split; [reflexivity|]. split; [exact Hout|].
    split; [exact Hok|]. split; [done|]. intros Hc. exfalso.
    unfold ctl_write, data_write, LWS_WRITE_TEXT, LWS_WRITE_BINARY, LWS_WRITE_CONTINUATION,
      LWS_WRITE_CLOSE, LWS_WRITE_PING, LWS_WRITE_PONG in *. lia.
  - rewrite (Hctl Ht). eexists _, _. split; [reflexivity|]. split; [exact Hout|].
    split; [exact Hok|]. split; [|done]. intros Hc. exfalso.
    unfold ctl_write, data_write, LWS_WRITE_TEXT, LWS_WRITE_BINARY, LWS_WRITE_CONTINUATION,
      LWS_WRITE_CLOSE, LWS_WRITE_PING, LWS_WRITE_PONG in *. lia.
Qed.

Lemma lws_write_spec E k rnd fin t buf w : tx_ready w ->
  data_write t \/ ctl_write t /\ fin = true ->
  len buf < 2 ^ 31 - 14 -> (role_client w = true -> (4 <= length rnd)%nat) ->
  let f := frame_of (role_client w) fin t rnd buf in
  kernel_ok E k (wire f) ->
  exists r w', lws_write E k rnd buf (wp_of fin t) w = Ok (r, w') /\
    output w' = output w ++ wire f /\ out_ok w' /\
    (data_write t -> r = len buf /\ inside_frame w' = false) /\ (ctl_write t -> r = len (wire f)).
Proof.
  intros (Hq & Hin & Hst & Hrev & Hfl & Hmask) Ht Hlen Hrnd f Hk. pose proof (len_nonneg buf).
  unfold lws_write. rewrite s32_small by lia. destruct (Z.ltb_spec (len buf) 0); [lia|].
  unfold rops_write_role_protocol_ws.
  destruct (wp_cases fin t Ht) as (_ & Hraw & Hop & _ & Hfin & _). cbv zeta in Hraw. rewrite Hraw.
  set (w0 := if nz (ws_ping_pong_interval E) then _ else w).
  assert (tx_ready w0 /\ role_client w0 = role_client w /\ output w0 = output w /\
    tx_ready (set_clean_buffer true w0)) as (Hr0 & Hc0 & Ho0 & Hr1).
  { unfold w0, tx_ready, sul_ping_insert, emit, output. destruct (nz (ws_ping_pong_interval E));
      ws_cbn; rewrite ?sent_app; cbn [sent map concat]; rewrite ?app_nil_r; auto 15. }
  clearbody w0. pose proof Hr0 as (_ & Hin0 & Hst0 & Hrev0 & _). rewrite Hin0.
  set (w1 := set_clean_buffer true w0) in *.
  change (stashed_write_pending w1) with (stashed_write_pending w0). rewrite Hst0, andb_false_r.
  replace (if (wp_of fin t =? LWS_WRITE_PING) || (wp_of fin t =? LWS_WRITE_PONG)
              || (wp_of fin t =? LWS_WRITE_CLOSE) then (wp_of fin t, w1) else (wp_of fin t, w1))
    with (wp_of fin t, w1)
    by (by destruct ((wp_of fin t =? LWS_WRITE_PING) || (wp_of fin t =? LWS_WRITE_PONG)
                     || (wp_of fin t =? LWS_WRITE_CLOSE))).
  cbv iota zeta. change (ietf_spec_revision w1) with (ietf_spec_revision w0). rewrite Hrev0.
  change (13 =? 13) with true. cbv iota. rewrite Hop, Hfin.
  replace (if negb fin then opcode_of t else Z.lor (opcode_of t) (Z.shiftl 1 7))
    with (if fin then Z.lor (opcode_of t) (Z.shiftl 1 7) else opcode_of t) by (by destruct fin).
  assert (role_client w1 = role_client w) as Hc1 by done. unfold f in *. rewrite <- Hc1 in *.
  destruct (write_frame_spec E k rnd fin t buf w1 Hr1 Ht ltac:(lia) Hrnd Hk)
    as (r & w' & H1 & H2 & H3). exists r, w'. split; [exact H1|]. split; [|exact H3].
  rewrite H2. f_equal. exact Ho0.
Qed.

(** ** Properties *)

Definition sample_client : lws := set_role_client true sample_conn.

Lemma sample_client_ready : tx_ready sample_client.
Proof. by unfold tx_ready, sample_client. Qed.

(** C6: the send path preserves the byte stream.  On a connection that is not
    flushing before a close, whatever part of the offered bytes the socket
    takes (including none), [lws_issue_raw] leaves the bytes already taken
    followed by those on the output list equal to what they were, extended by
    its argument: nothing is lost, sent twice or reordered, both when data is
    handed over and when the list is drained (NULL argument).  When nothing was
    waiting it reports the whole argument as consumed. *)
Theorem issue_raw_stream E k buf w :
  state_is LRS_FLUSHING_BEFORE_CLOSE w = false ->
  Forall seg_ok (buflist_out w) -> (length (buflist_out w) < 1023)%nat ->
  (match buf with Some b => 0 < len b < 2 ^ 31 | None => True end) ->
  kernel_ok E k (offered buf w) ->
  exists r w', lws_issue_raw E k buf w = Ok (r, w') /\
    output w' = output w ++ default [] buf /\ out_ok w' /\
    (buflist_out w = [] -> r = len (default [] buf)).
Proof.
  intros Hst Hok Hlen Hb Hk. destruct (buflist_out w) as [|s l] eqn:Hq.
  - destruct buf as [b|].
    + unfold offered in Hk. rewrite Hq in Hk.
      destruct (issue_fresh E k b w Hq Hb Hk Hst) as (w' & H1 & H2 & H3 & _). exists (len b), w'. auto.
    + exists 0, w. unfold lws_issue_raw, lws_has_buffered_out. rewrite Hst, Hq. cbn [andb mbind res_bind].
      rewrite Hq. cbn [default]. rewrite app_nil_r. unfold out_ok. rewrite Hq. split; [done|].
      split; [done|]. split; [split; [done|simpl; lia]|done].
  - unfold offered in Hk. rewrite Hq in Hk.
    unfold lws_issue_raw, lws_has_buffered_out. rewrite Hst, Hq. cbn [andb negb].
    destruct buf as [b|].
    + destruct (append_spec (s :: l) b Hok Hb) as (-> & Hok' & Hq').
      destruct (Nat.ltb_spec (length (s :: l)) 1024); [|simpl in *; lia].
      cbn [mbind res_bind]. change (nz 0) with false. cbv iota.
      change (buflist_out (set_buflist_out (?x ++ ?y) w)) with (x ++ y).
      cbn [app]. change (buflist_out (set_buflist_out (?x :: ?y) w)) with (x :: y).
      rewrite next_spec by exact Hok'. cbn [mbind res_bind first_len].
      set (l' := l ++ [mk_seg (len b) 0 b]). set (w1 := set_buflist_out (s :: l') _).
      assert (seg_ok s) as Hs by (by inversion Hok').
      rewrite (proj2 (Z.eqb_neq (len (seg_rest s)) 0))
        by (rewrite seg_rest_len by done; destruct Hs as (? & ? & ?); lia).
      destruct (issue_drain E k w1 s l') as (r & w' & H1 & H2 & H3); [done| |done|].
      { split; [exact Hok'|]. unfold w1, l'. ws_cbn. simpl in *. rewrite length_app. simpl. lia. }
      exists r, w'. split; [exact H1|]. split; [|split; [exact H3|done]].
      rewrite H2. unfold output. change (trace w1) with (trace w). change (buflist_out w1) with ((s :: l) ++ [mk_seg (len b) 0 b]).
      rewrite Hq', Hq, app_assoc. done.
    + cbn [mbind res_bind]. rewrite Hq, next_spec by exact Hok. cbn [mbind res_bind first_len].
      assert (seg_ok s) as Hs by (by inversion Hok).
      rewrite (proj2 (Z.eqb_neq (len (seg_rest s)) 0))
        by (rewrite seg_rest_len by done; destruct Hs as (? & ? & ?); lia).
      destruct (issue_drain E k (set_buflist_out (s :: l) w) s l) as (r & w' & H1 & H2 & H3);
        [done|split; [exact Hok|simpl in *; lia]|done|].
      exists r, w'. split; [exact H1|]. split; [|split; [exact H3|done]].
      rewrite H2. cbn [default]. rewrite app_nil_r. unfold output. by rewrite Hq.
Qed.

Lemma issue_raw_stream_witness :
  exists r w', lws_issue_raw sample_env (Taken 2) (Some (str "hello")) sample_conn = Ok (r, w') /\
    output w' = str "hello" /\ r = 5.
Proof.
  destruct (issue_raw_stream sample_env (Taken 2) (Some (str "hello")) sample_conn)
    as (r & w' & H1 & H2 & _ & H4).
  - reflexivity.
  - constructor.
  - simpl. lia.
  - vm_compute. split; reflexivity.
  - vm_compute. repeat split; discriminate.
  - exists r, w'. split; [exact H1|]. split; [exact H2|exact (H4 eq_refl)].
Defined.

(** C5: what a client writes, the server delivers.  On a client connection
    with nothing pending, [lws_write] of a text or binary message reports the
    whole message as consumed, and the bytes it hands to the connection are the
    RFC 6455 frame of the message masked with the random key; and when these
    bytes, all taken and transmitted, reach a server connection between
    messages, in whatever reads, the server's callback is given exactly the
    message. *)
Theorem ws_message_roundtrip E E' k rnd (t : Z) buf w v reads :
  tx_ready w -> role_client w = true -> t = LWS_WRITE_TEXT \/ t = LWS_WRITE_BINARY ->
  len buf < 2 ^ 31 - 14 -> all_bytes buf -> (4 <= length rnd)%nat -> all_bytes rnd ->
  kernel_ok E k (wire (frame_of true true t rnd buf)) ->
  env_ok E' -> ready E' false v -> concat reads = wire (frame_of true true t rnd buf) ->
  (exists w', lws_write E k rnd buf t w = Ok (len buf, w') /\
     output w' = output w ++ wire (frame_of true true t rnd buf) /\ inside_frame w' = false) /\
  (exists c v', parse_reads E' reads v = Ok (0, v') /\ ready E' c v' /\
     received (trace v') = received (trace v) ++ buf).
Proof.
  intros Hr Hc Ht Hlen Hb Hrnd Hrb Hk He Hv Hreads.
  assert (data_write t) as Hd by (unfold data_write; intuition). split.
  - destruct (lws_write_spec E k rnd true t buf w Hr (or_introl Hd) Hlen (fun _ => Hrnd))
      as (r & w' & H1 & H2 & _ & H4 & _); [by rewrite Hc|].
    destruct (H4 Hd) as [-> H5]. exists w'. rewrite Hc in H2. done.
  - destruct (reads_expects E' reads He v [] (received (trace v) ++ buf)) as (v' & H1 & Hex).
    + rewrite app_nil_r, Hreads.
      replace (wire (frame_of true true t rnd buf)) with (flat_map wire [frame_of true true t rnd buf])
        by (cbn [flat_map]; apply app_nil_r).
      replace (received (trace v) ++ buf)
        with (received (trace v) ++ flat_map f_payload [frame_of true true t rnd buf])
        by (cbn [flat_map]; by rewrite app_nil_r).
      apply (ex_ready E' false); [done|]. split; [|done]. unfold data_frame, frame_of.
      cbn [f_opc f_key f_payload].
      split; [destruct Ht as [-> | ->]; [by left|by right]|]. split; [lia|]. split; [done|].
      rewrite length_take. split; [lia|]. by apply Forall_take.
    + apply expects_end in Hex as (c & Hc' & Ht'). eauto.
Qed.

Lemma ws_message_roundtrip_witness :
  let rnd := [17; 34; 51; 68] in
  exists w', lws_write sample_env (Taken 11) rnd (str "hello") LWS_WRITE_BINARY sample_client
      = Ok (5, w') /\ inside_frame w' = false.
Proof.
  intros rnd.
  destruct (ws_message_roundtrip sample_env sample_env (Taken 11) rnd LWS_WRITE_BINARY (str "hello")
    sample_client sample_conn [wire (frame_of true true LWS_WRITE_BINARY rnd (str "hello"))])
    as [(w' & H1 & _ & H3) _].
  - exact sample_client_ready.
  - reflexivity.
  - by right.
  - vm_compute. reflexivity.
  - apply str_bytes.
  - simpl. lia.
  - apply (bool_decide_unpack _). vm_compute. exact I.
  - vm_compute. repeat split; discriminate.
  - exact sample_env_ok.
  - exact sample_conn_ready.
  - apply app_nil_r.
  - exists w'. split; [exact H1|exact H3].
Defined.
