(* ===== verification/WsFrame.v ===== *)
(** * What receiving leaves alone

    The receive state machine touches neither the queue of unconsumed input
    nor the output nor the flow control nor the size of the receive buffer, and
    of the connection states it only enters the one that answers a close. *)

From S2P Require Import Prelude CLib Buflist Utf8 WsState WsRx WsRxProof WsTx WsTxProof.

Module WsFrame.
Import Ws WsRx WsRxProof.

Definition same_input (w w' : lws) : Prop :=
  buflist w' = buflist w /\ rx_ubuf_alloc w' = rx_ubuf_alloc w /\ rxflow_bitmap w' = rxflow_bitmap w /\
  output w' = output w /\ (state w' = state w \/ state w' = LRS_RETURNED_CLOSE).

Lemma same_refl w : same_input w w.
Proof. split_and!; auto. Qed.

Lemma same_trans w1 w2 w3 : same_input w1 w2 -> same_input w2 w3 -> same_input w1 w3.
Proof.
  intros (H1 & H2 & H3 & H4 & H5) (K1 & K2 & K3 & K4 & K5). split_and!; try congruence.
  destruct K5 as [->|]; auto.
Qed.

(** A case distinction of the code in front of the equation for its result. *)
Ltac step_case :=
  match goal with
  | |- context [if ?b then _ else _] => destruct b
  | |- context [match ?x with Some _ => _ | None => _ end] =>
    lazymatch x with context [match _ with Some _ => _ | None => _ end] => fail | _ => destruct x end
  end.

Definition input_view (w : lws) :=
  (buflist w, rx_ubuf_alloc w, rxflow_bitmap w, trace w, buflist_out w, state w).

Lemma same_via w w1 w2 : input_view w2 = input_view w1 -> same_input w w1 -> same_input w w2.
Proof. unfold same_input, output. intros [= -> -> -> -> -> ->]. done. Qed.

Lemma same_returned w w1 : same_input w w1 -> same_input w (set_state LRS_RETURNED_CLOSE w1).
Proof. intros (H1 & H2 & H3 & H4 & _). split_and!; auto. Qed.

Lemma same_emit w w1 e :
  match e with Issue _ => False | _ => True end -> same_input w w1 -> same_input w (emit e w1).
Proof.
  intros He (H1 & H2 & H3 & H4 & H5). split_and!; [exact H1|exact H2|exact H3| |exact H5].
  rewrite <- H4. unfold output. change (trace (emit e w1)) with (trace w1 ++ [e]).
  change (buflist_out (emit e w1)) with (buflist_out w1). rewrite sent_app. by destruct e; rewrite ?app_nil_r.
Qed.

(** The result is the state with assignments to other members. *)
Ltac same_set :=
  repeat match goal with
  | |- same_input ?w ?w => exact (same_refl w)
  | |- same_input _ (set_state LRS_RETURNED_CLOSE ?w1) => apply (same_returned _ w1)
  | |- same_input _ (emit ?e ?w1) => apply (same_emit _ w1 e I)
  | |- same_input _ (?s ?v ?w1) => apply (same_via _ w1 (s v w1) eq_refl)
  end.
Ltac same_done := try (intros [= _ <-]); same_set.

Section Frame.
Context (E : env).

Lemma close_reason_same st t w : same_input w (lws_close_reason st t w).
Proof. unfold lws_close_reason. same_done. Qed.

Lemma first_fin_same w r w' : rx_first_fin w = (r, w') -> same_input w w'.
Proof. unfold rx_first_fin, protocol_err, lws_close_reason. repeat step_case; same_done. Qed.

Lemma first_switch_same c w r w' : rx_first_switch E c w = (r, w') -> same_input w w'.
Proof. unfold rx_first_switch, protocol_err, lws_close_reason. repeat step_case; same_done. Qed.

Lemma handle_first_same c w r w' : rx_handle_first E c w = (r, w') -> same_input w w'.
Proof.
  unfold rx_handle_first. step_case.
  { unfold protocol_err, lws_close_reason. same_done. }
  match goal with |- context [rx_first_switch E c ?v] => set (w0 := v) end.
  assert (same_input w w0) as H0 by (unfold w0; same_done). clearbody w0.
  destruct (rx_first_switch E c w0) as [bad w1] eqn:E1. apply first_switch_same in E1.
  destruct bad; [intros [= _ <-]; by eapply same_trans|]. intros E2%first_fin_same.
  eapply same_trans; [exact H0|]. by eapply same_trans.
Qed.

Lemma process_as_ping_same w : same_input w (rx_process_as_ping w).
Proof. unfold rx_process_as_ping. step_case; same_done. Qed.

Lemma deliver_same no_cb act w r w' : rx_deliver E no_cb act w = (r, w') -> same_input w w'.
Proof.
  unfold rx_deliver, user_callback_handle_rxflow, store, lws_close_reason.
  repeat step_case; same_done.
Qed.

Lemma close_reply_same w r w' : rx_close_reply E w = (r, w') -> same_input w w'.
Proof.
  unfold rx_close_reply, user_callback_handle_rxflow, rx_process_as_ping, store. repeat step_case; same_done.
Qed.

Lemma close_same w :
  match rx_close E w with inl (_, w') => same_input w w' | inr w' => same_input w w' end.
Proof.
  unfold rx_close. repeat step_case; try (same_set; fail);
    match goal with |- context [rx_close_reply E ?v] => destruct (rx_close_reply E v) as [r w'] eqn:Er end;
    apply close_reply_same in Er; (eapply same_trans; [|exact Er]); same_set.
Qed.

Lemma spill_same no_cb w r w' : rx_spill E no_cb w = (r, w') -> same_input w w'.
Proof.
  unfold rx_spill. destruct (opcode w =? LWSWSOPC_CLOSE).
  { pose proof (close_same w) as H. destruct (rx_close E w) as [[r0 w0]|w0]; [intros [= _ <-]; done|].
    intros H2%deliver_same. by eapply same_trans. }
  destruct (opcode w =? LWSWSOPC_PING).
  { destruct (ping_pending_flag w); [same_done|]. intros [= _ <-]. apply process_as_ping_same. }
  destruct (opcode w =? LWSWSOPC_PONG).
  { intros H%deliver_same. eapply same_trans; [|exact H]. unfold rx_pong, sul_ping_insert. step_case; same_done. }
  destruct (_ || _); [apply deliver_same|same_done].
Qed.

Lemma hdr_len_same no_cb c w r w' : rx_hdr_len E no_cb c w = (r, w') -> same_input w w'.
Proof.
  unfold rx_hdr_len. repeat step_case; try same_done. intros H%spill_same. eapply same_trans; [|exact H]. same_done.
Qed.

Lemma key_same i c n w : same_input w (rx_key i c n w).
Proof. unfold rx_key. step_case; same_done. Qed.

Lemma key_4_same no_cb c w r w' : rx_key_4 E no_cb c w = (r, w') -> same_input w w'.
Proof.
  unfold rx_key_4. pose proof (key_same 3 c LWS_RXPS_WS_FRAME_PAYLOAD w) as H.
  set (w0 := rx_key 3 c LWS_RXPS_WS_FRAME_PAYLOAD w) in *. clearbody w0. step_case.
  - intros H2%spill_same. eapply same_trans; [exact H|]. eapply same_trans; [|exact H2]. same_done.
  - intros [= _ <-]. eapply same_trans; [exact H|]. same_done.
Qed.

Lemma payload_same ic no_cb c w r w' : rx_payload E ic no_cb c w = Ok (r, w') -> same_input w w'.
Proof.
  unfold rx_payload. destruct (rx_ubuf w); [|done]. destruct (_ >=? _); [intros [= _ <-]; apply same_refl|].
  match goal with |- context [rx_packet_length ?v =? 0] => set (w0 := v) end.
  assert (same_input w w0) as H0 by (unfold w0, store; repeat step_case; same_done). clearbody w0.
  repeat step_case; intros [= H]; subst; try exact H0; apply spill_same in H;
    (eapply same_trans; [exact H0|]); first [exact H | eapply same_trans; [|exact H]; same_done].
Qed.

Lemma rx_sm_same ic no_cb c w r w' : lws_ws_rx_sm E ic no_cb c w = Ok (r, w') -> same_input w w'.
Proof.
  unfold lws_ws_rx_sm. destruct (socket_is_permanently_unusable w); [intros [= _ <-]; apply same_refl|].
  destruct (lws_rx_parse_state w); unfold rx_len_end, or_length, rx_key; repeat step_case;
    try (intros [= _ <-]; same_set; fail).
  - intros [= H%handle_first_same]. eapply same_trans; [|exact H]. same_done.
  - intros [= H%handle_first_same]. done.
  - intros [= H%hdr_len_same]. done.
  - intros [= H%key_4_same]. done.
  - apply payload_same.
Qed.

Lemma rest_same buf w m buf' w' : lws_ws_frame_rest_is_payload E buf w = (m, buf', w') -> same_input w w'.
Proof.
  unfold lws_ws_frame_rest_is_payload, user_callback_handle_rxflow, lws_close_reason.
  set (avail := if _ >? len buf then _ else _). clearbody avail. step_case; [intros [= _ _ <-]; apply same_refl|].
  destruct (negb (all_zero_nonce w)); repeat step_case; intros [= _ _ <-]; same_set.
Qed.

Lemma bulk_same fuel : forall bulk buf w b1 b2 buf' w',
  bulk_loop E fuel bulk buf w = (b1, b2, buf', w') -> same_input w w'.
Proof.
  induction fuel as [|fuel IH]; intros bulk buf w b1 b2 buf' w'; cbn [bulk_loop].
  { intros [= _ _ _ <-]. apply same_refl. }
  destruct (_ && _ && _); [|intros [= _ _ _ <-]; apply same_refl].
  destruct (lws_ws_frame_rest_is_payload E buf w) as [[m buf1] w1] eqn:Er. apply rest_same in Er.
  destruct (m =? 0); [intros [= _ _ _ <-]; done|]. destruct (m <? 0); [intros [= _ _ _ <-]; done|].
  intros H%IH. by eapply same_trans.
Qed.

(** With flow control off a read leaves the queue alone. *)
Lemma parse_loop_same fuel inside bufin : forall buf w r u w',
  rxflow_bitmap w = 0 -> parse_loop E fuel inside bufin buf w = Ok (r, u, w') -> same_input w w'.
Proof.
  induction fuel as [|fuel IH]; intros buf w r u w' H0; cbn [parse_loop].
  { intros [= _ _ <-]. apply same_refl. }
  destruct buf as [|c buf]; [intros [= _ _ <-]; apply same_refl|]. rewrite H0. change (nz 0) with false. cbn match.
  destruct (bulk_loop E (S (length (c :: buf))) false (c :: buf) w) as [[[bulk bail] buf'] w1] eqn:Eb.
  apply bulk_same in Eb. destruct bail; [intros [= _ _ <-]; done|].
  destruct (if negb bulk then lws_ws_rx_sm E false false c w else lws_ws_rx_sm E true true 0 w1)
    as [[m w2]|] eqn:Es; [|done]. cbn [mbind res_bind].
  assert (same_input w w2) as H2.
  { destruct bulk; cbn [negb] in Es; apply rx_sm_same in Es; [by eapply same_trans|done]. }
  destruct (m <? 0); [intros [= _ _ <-]; done|]. intros H%IH; [by eapply same_trans|].
  destruct H2 as (_ & _ & -> & _). done.
Qed.

(** While bytes of data frames are expected the connection is open. *)
Lemma expects_open w rest total :
  expects E w rest total ->
  rxflow_bitmap w = 0 /\ state w = LRS_ESTABLISHED /\ rx_ubuf_alloc w = rx_buffer_size E + LWS_PRE.
Proof.
  assert (forall v, base E v ->
    rxflow_bitmap v = 0 /\ state v = LRS_ESTABLISHED /\ rx_ubuf_alloc v = rx_buffer_size E + LWS_PRE) as Hb.
  { intros v (_ & _ & ? & ? & _ & _ & ? & _). done. }
  induction 1 as [c w fs [Hr _] _|f p w fs ((Hr & _) & _) _ _ _ _|w c l w2 rest total Hrun _ IH]; [by apply Hb..|].
  remember (c :: l) as cl eqn:El. clear El c l. induction Hrun as [w|w x l w1 w2 _ _ Hsm _ IHr]; [done|].
  destruct (IHr IH) as (K1 & K2 & K3). destruct (rx_sm_same _ _ _ _ _ _ Hsm) as (_ & <- & <- & _ & Hs).
  split; [done|]. split; [|done]. rewrite K2 in Hs. by destruct Hs.
Qed.

(** ** What receiving does not look at

    The queue and the mark of a pending write play no part in the state
    machine: it commutes with assignments to them. *)

Definition other (l : list Buflist.lws_buflist) (b : bool) (w : lws) : lws :=
  set_could_have_pending b (set_buflist l w).

Definition on_state {A} (g : lws -> lws) (r : A * lws) : A * lws := (r.1, g r.2).

(** Moves the assignment outwards, past projections and other assignments. *)
Ltac push :=
  repeat match goal with
  | |- context [?f ?v (other ?l ?b ?w)] =>
    lazymatch type of (f v (other l b w)) with
    | lws => change (f v (other l b w)) with (other l b (f v w))
    end
  | |- context [?p (other ?l ?b ?w)] =>
    lazymatch p with state_is _ => idtac | _ => is_const p end; change (p (other l b w)) with (p w)
  end.

(** A condition that has no condition inside. *)
Ltac split_one :=
  match goal with
  | |- context [if ?c then _ else _] =>
    lazymatch c with
    | context [if _ then _ else _] => fail
    | context [match _ with Some _ => _ | None => _ end] => fail
    | _ => destruct c
    end
  | |- context [match ?x with Some _ => _ | None => _ end] =>
    lazymatch x with
    | context [match _ with Some _ => _ | None => _ end] => fail
    | context [if _ then _ else _] => fail
    | _ => destruct x
    end
  end.

Ltac commute := cbv zeta; push; repeat (split_one; push); reflexivity.

Lemma first_fin_other l b w : rx_first_fin (other l b w) = on_state (other l b) (rx_first_fin w).
Proof. unfold rx_first_fin, protocol_err, lws_close_reason. commute. Qed.

Lemma first_switch_other c l b w : rx_first_switch E c (other l b w) = on_state (other l b) (rx_first_switch E c w).
Proof. unfold rx_first_switch, protocol_err, lws_close_reason. commute. Qed.

Lemma handle_first_other c l b w : rx_handle_first E c (other l b w) = on_state (other l b) (rx_handle_first E c w).
Proof.
  unfold rx_handle_first. cbv zeta. push. split_one; [unfold protocol_err, lws_close_reason; commute|].
  rewrite first_switch_other. destruct (rx_first_switch E c _) as [[] w1]; [done|]. apply first_fin_other.
Qed.

Lemma deliver_other no_cb act l b w :
  rx_deliver E no_cb act (other l b w) = on_state (other l b) (rx_deliver E no_cb act w).
Proof. unfold rx_deliver, user_callback_handle_rxflow, lws_close_reason. commute. Qed.

Lemma ping_other l b w : rx_process_as_ping (other l b w) = other l b (rx_process_as_ping w).
Proof. unfold rx_process_as_ping. commute. Qed.

Lemma close_reply_other l b w : rx_close_reply E (other l b w) = on_state (other l b) (rx_close_reply E w).
Proof.
  unfold rx_close_reply, user_callback_handle_rxflow.
  set (w1 := if rx_ubuf_head w >=? 2 then _ else w). set (w1' := if rx_ubuf_head (other l b w) >=? 2 then _ else _).
  assert (w1' = other l b w1) as -> by (unfold w1, w1'; commute). clearbody w1. push.
  split_one; [done|]. cbv zeta. push. by rewrite ping_other.
Qed.

Lemma close_other l b w :
  rx_close E (other l b w) =
  match rx_close E w with inl r => inl (on_state (other l b) r) | inr w => inr (other l b w) end.
Proof.
  unfold rx_close. cbv zeta. push. split_one; [done|]. split_one.
  - split_one; [|done]. push. rewrite close_reply_other. commute.
  - push. rewrite close_reply_other. commute.
Qed.

Lemma spill_other no_cb l b w : rx_spill E no_cb (other l b w) = on_state (other l b) (rx_spill E no_cb w).
Proof.
  unfold rx_spill. push. split_one.
  { rewrite close_other. destruct (rx_close E w) as [r|w1]; [done|]. apply deliver_other. }
  split_one; [split_one; push; [done|]; by rewrite ping_other|].
  split_one; [|split_one; [apply deliver_other|done]].
  rewrite <- deliver_other. f_equal. unfold rx_pong, sul_ping_insert. commute.
Qed.

Lemma hdr_len_other no_cb c l b w : rx_hdr_len E no_cb c (other l b w) = on_state (other l b) (rx_hdr_len E no_cb c w).
Proof.
  unfold rx_hdr_len. cbv zeta. push. repeat (split_one; push); try done. apply spill_other.
Qed.

Lemma key_4_other no_cb c l b w : rx_key_4 E no_cb c (other l b w) = on_state (other l b) (rx_key_4 E no_cb c w).
Proof.
  unfold rx_key_4, rx_key. cbv zeta. push. repeat (split_one; push); try done; apply spill_other.
Qed.

Lemma rx_sm_other c l b w r w' :
  lws_rx_parse_state w <> LWS_RXPS_WS_FRAME_PAYLOAD -> lws_ws_rx_sm E false false c w = Ok (r, w') ->
  lws_ws_rx_sm E false false c (other l b w) = Ok (r, other l b w').
Proof.
  unfold lws_ws_rx_sm. push. destruct (socket_is_permanently_unusable w); [by intros _ [= -> ->]|].
  intros Hp. destruct (lws_rx_parse_state w); [..|done]; unfold rx_len_end, or_length, rx_key; cbv zeta; push;
    rewrite ?handle_first_other, ?hdr_len_other, ?key_4_other; repeat (split_one; push); intros [= H];
    subst; rewrite ?H; done.
Qed.

Lemma expects_other l b w rest total : expects E w rest total -> expects E (other l b w) rest total.
Proof.
  induction 1 as [c w fs Hr Hfs|f p w fs Hp Ho Hp63 Hne Hfs|w c s w2 rest total Hrun _ IH].
  - by apply (ex_ready E c (other l b w) fs).
  - by apply (ex_payload E f p (other l b w) fs).
  - eapply ex_hdr; [|exact IH]. clear IH. remember (c :: s) as cs eqn:Ec. clear Ec c s.
    induction Hrun as [w|w x s w1 w2 Hps Hf Hsm _ IHr]; [constructor|].
    econstructor; [exact Hps|exact Hf|by apply rx_sm_other|exact IHr].
Qed.

End Frame.

End WsFrame.
