(* ===== verification/Upgrade.v ===== *)
(** * The WebSocket upgrade (libwebsockets lib/roles/ws/server-ws.c)

    From a parsed HTTP/1 request with its headers to an established WebSocket
    connection: the Connection and Sec-WebSocket-Protocol headers are run
    through the tokenizer, a protocol is chosen, and the handshake response
    with the hash of the client's key is written.  HTTP/2, proxying and
    extensions are not part of this build or program.  What the user callback,
    the allocator, the kernel and the vhost's mounts answer are arguments. *)

From S2P Require Import Prelude CLib Buflist Tokenize Base64 Sha1 WsState WsRx WsTx.

Module Upgrade.
Import Ws WsTx Tokenize.

(** ** Header table (lib/roles/http/server/parsers.c) *)

Inductive hdr := HOST | KEY | VERSION | PROTOCOL | CONNECTION | GET_URI | HTTP_COOKIE.

(** The fragments of each header, one per line of the request it came on. *)
Abbreviation header_table := (hdr -> list bytes).

Definition is_cookie (h : hdr) : bool := match h with HTTP_COOKIE => true | _ => false end.

Fixpoint frags_length (cookie : bool) (fs : list bytes) : Z :=
  match fs with
  | [] => 0
  | f :: fs' =>
    len f + (match fs' with [] => 0 | _ => if cookie then 0 else 1 end) + frags_length cookie fs'
  end.

Definition lws_hdr_total_length (ah : header_table) (h : hdr) : Z := frags_length (is_cookie h) (ah h).

(** The copy loop: [None] when a fragment does not fit. *)
Fixpoint copy_frags (cookie : bool) (fs : list bytes) (size : Z) : option bytes :=
  match fs with
  | [] => Some []
  | f :: fs' =>
    let comma := match fs' with [] => false | _ => negb cookie end in
    if len f + b2z comma >=? size then None
    else
      rest ← copy_frags cookie fs' (size - len f);
      Some (f ++ (if comma then [44] else []) ++ rest)
  end.

(** The return value and the string left in the buffer. *)
Definition lws_hdr_copy (ah : header_table) (size : Z) (h : hdr) : Z * bytes :=
  let toklen := lws_hdr_total_length ah h in
  if toklen =? 0 then (0, [])
  else if toklen >=? size then (-1, [])
  else
    match ah h with
    | [] => (0, [])
    | fs => match copy_frags (is_cookie h) fs size with None => (-1, []) | Some d => (toklen, d) end
    end.

(** The first fragment, as the C string it is stored as. *)
Definition lws_hdr_simple_ptr (ah : header_table) (h : hdr) : option bytes := c_str <$> list.head (ah h).

(** ** Choosing the protocol *)

(** [strncasecmp(a, b, n) == 0] for a C string [b]. *)
Fixpoint strncasecmp0 (a b : bytes) (n : nat) {struct n} : bool :=
  match n with
  | O => true
  | S n =>
    match a, b with
    | x :: a, y :: b => (tolower x =? tolower y) && ((x =? 0) || strncasecmp0 a b n)
    | [], [] => true
    | x :: _, [] => x =? 0
    | [], y :: _ => y =? 0
    end
  end.

(** The scan of the Connection header: [true] when it asks for an upgrade. *)
Fixpoint connection_loop (fuel : nat) (ts : tokenizer) : bool :=
  match fuel with
  | O => false
  | S fuel =>
    match lws_tokenize ts with
    | (TOKEN, ts) =>
      if strncasecmp0 (default [] (token ts)) (str "upgrade") (Z.to_nat (token_len ts)) then true
      else connection_loop fuel ts
    | (DELIMITER, ts) => connection_loop fuel ts
    | _ => false
    end
  end.

(** [lws_vhost_name_to_protocol]: the index of the first protocol of that
    name. *)
Fixpoint lws_vhost_name_to_protocol (protocols : list (option bytes)) (name : bytes) : option nat :=
  match protocols with
  | [] => None
  | p :: ps =>
    match p with
    | Some n => if beqb name n then Some 0%nat else S <$> lws_vhost_name_to_protocol ps name
    | None => S <$> lws_vhost_name_to_protocol ps name
    end
  end.

(** The scan of the protocol list: [None] for [return 1] inside the loop,
    otherwise the last [pcol]. *)
Fixpoint protocol_loop (fuel : nat) (protocols : list (option bytes)) (ts : tokenizer) (pcol : option nat)
  : option (option nat) :=
  match fuel with
  | O => None
  | S fuel =>
    match lws_tokenize ts with
    | (TOKEN, ts) =>
      match lws_tokenize_cstr ts 64 with
      | None => None
      | Some name =>
        match lws_vhost_name_to_protocol protocols name with
        | Some p => Some (Some p)
        | None => protocol_loop fuel protocols ts None
        end
      end
    | (DELIMITER, ts) => protocol_loop fuel protocols ts pcol
    | (ENDED, _) => Some pcol
    | _ => None
    end
  end.

(** The protocol the request is bound to, [None] when it is rejected. *)
Definition choose_protocol (ah : header_table) (protocols : list (option bytes)) (default_protocol_index : Z)
  : option nat :=
  let '(n, buf) := lws_hdr_copy ah 127 CONNECTION in
  if n <=? 0 then None
  else if negb (connection_loop (S (S (length buf))) (lws_tokenize_init buf list_flags)) then None
  else
    let '(n, buf) := lws_hdr_copy ah 127 PROTOCOL in
    if n <? 0 then None
    else if n =? 0 then
      if default_protocol_index >=? Z.of_nat (length protocols) then None
      else Some (Z.to_nat default_protocol_index)
    else
      match protocol_loop (S (S (length buf))) protocols (lws_tokenize_init buf list_flags) None with
      | Some (Some p) => Some p
      | _ => None
      end.

(** ** The handshake *)

Definition MAX_WEBSOCKET_04_KEY_LEN : Z := 128.

Definition crlf : bytes := [13; 10].

Definition websocket_guid : bytes := str "258EAFA5-E914-47DA-95CA-C5AB0DC85B11".

(** [lws_snprintf(p, 128, "%s", s)]: the bytes [p] is advanced over. *)
Definition snprintf_128 (s : bytes) : bytes := if len s >=? 128 then take 127 s ++ [0] else s.

(** What the outside answers during an upgrade. *)
Record answers := mk_answers {
  a_basic_auth : option Z;        (* a status when the vhost's basic auth refuses *)
  a_zalloc : bool;                (* the ws struct could be allocated *)
  a_user_space : bool;            (* so could the user space *)
  a_filter : Z;                   (* the user callback at FILTER_PROTOCOL_CONNECTION *)
  a_add_headers : option bytes;   (* what it appends at ADD_HEADERS; None: it refuses *)
  a_send : send_answer;           (* the kernel at the write *)
  a_pmo : bool;                   (* a mount's callback refuses *)
  a_rx_ubuf : option bytes;       (* the receive buffer *)
  a_setsockopt : bool
}.

Section Handshake.
Context (E : env) (ah : header_table) (A : answers).

(** The response: the accept key, the protocol when the client named one, and
    what the user adds. *)
Definition handshake_response (accept : bytes) (pname : option bytes) (extra : bytes) : bytes :=
  str "HTTP/1.1 101 Switching Protocols" ++ crlf ++
  str "Upgrade: WebSocket" ++ crlf ++
  str "Connection: Upgrade" ++ crlf ++
  str "Sec-WebSocket-Accept: " ++ accept ++
  (match pname with
   | Some (c :: n) =>
     if nz (lws_hdr_total_length ah PROTOCOL)
     then crlf ++ str "Sec-WebSocket-Protocol: " ++ snprintf_128 (c :: n)
     else []
   | _ => []
   end) ++
  crlf ++ extra ++ crlf.

Definition handshake_0405 (pname : option bytes) (w : lws) : res exn (Z * lws) :=
  if (lws_hdr_total_length ah HOST =? 0) || (lws_hdr_total_length ah KEY =? 0) then Ok (-1, w)
  else if lws_hdr_total_length ah KEY >=? MAX_WEBSOCKET_04_KEY_LEN then Ok (-1, w)
  else
    let serv_buf := default [] (lws_hdr_simple_ptr ah KEY) ++ websocket_guid in
    let hash := Sha1.lws_SHA1 serv_buf in
    let '(accept_len, serv_buf) := Base64.lws_b64_encode_string hash (pt_serv_buf_size E) in
    if accept_len <? 0 then Ok (-1, w)
    else if negb (a_user_space A) then Ok (-1, w)
    else
      match a_add_headers A with
      | None => Ok (-1, w)
      | Some extra =>
        let response := handshake_response (c_str serv_buf) pname extra in
        '(n, w) ← lws_write E (a_send A) [] response LWS_WRITE_HTTP_HEADERS w;
        if negb (n =? len response) then Ok (-1, w)
        else
          let w := set_state LRS_ESTABLISHED w in
          let w := set_lws_rx_parse_state LWS_RXPS_NEW w in
          if a_pmo A then Ok (1, w) else Ok (0, w)
      end.

(** What the service buffer holds when the handshake is done: the key with the
    GUID and then its hash at the start, and the response further on, each with
    its NUL. *)
Definition handshake_serv_buf (pname : option bytes) (extra serv_buf : bytes) : bytes :=
  let key := default [] (lws_hdr_simple_ptr ah KEY) ++ websocket_guid in
  let '(_, accept) := Base64.lws_b64_encode_string (Sha1.lws_SHA1 key) (pt_serv_buf_size E) in
  list_inserts (Z.to_nat (MAX_WEBSOCKET_04_KEY_LEN + 256 + LWS_PRE)) (handshake_response (c_str accept) pname extra ++ [0])
    (list_inserts 0 (c_str accept ++ [0]) (list_inserts 0 (key ++ [0]) serv_buf)).

(** [lws_zalloc] of the ws struct: its members are zero, those of [struct lws]
    stay. *)
Definition zalloc_ws (w : lws) : lws :=
  mk_lws (lws_rx_parse_state w) (state w) (socket_is_permanently_unusable w) (wsistate_pre_close w)
    (role_client w) (close_when_buffered_out_drained w) (could_have_pending w)
    (waiting_to_send_close_frame w) (close_needs_ack w) (rxflow_bitmap w) (buflist w) (buflist_out w)
    None (replicate 125 0) [0; 0; 0; 0] 0 0 0 0 0 0 0 0 0 0 0 0
    false false false false false false false false false false false false false false false false false
    (trace w).

Definition lws_process_ws_upgrade2 (pname : option bytes) (w : lws) : res exn (Z * lws) :=
  match a_basic_auth A with
  | Some r => Ok (r, w)
  | None =>
    let w := set_role_client false (set_state LRS_ESTABLISHED w) in
    if negb (a_zalloc A) then Ok (1, w)
    else
      let w := zalloc_ws w in
      let w := if nz (lws_hdr_total_length ah VERSION)
               then set_ietf_spec_revision (u8 (atoi (default [] (lws_hdr_simple_ptr ah VERSION)))) w
               else w in
      if negb (a_user_space A) then Ok (1, w)
      else if nz (a_filter A) then Ok (1, w)
      else
        let w := if ietf_spec_revision w =? 13 then w else set_ietf_spec_revision 13 w in
        '(r, w) ← handshake_0405 pname w;
        if nz r then Ok (1, w)
        else
          let '(_, w) := WsRx.lws_server_init_wsi_for_ws E (a_rx_ubuf A) (a_setsockopt A) w in
          Ok (0, w)
  end.

(** The return value, the protocol bound and the connection. *)
Definition lws_process_ws_upgrade (protocols : list (option bytes)) (default_protocol_index : Z) (w : lws)
  : res exn (Z * option nat * lws) :=
  match choose_protocol ah protocols default_protocol_index with
  | None => Ok (1, None, w)
  | Some p =>
    '(r, w) ← lws_process_ws_upgrade2 (default None (protocols !! p)) w;
    Ok (r, Some p, w)
  end.

End Handshake.

End Upgrade.
