(* ===== verification/UpgradeProof.v ===== *)
(** * The upgrade: header lists, protocol choice and the handshake response

    The tokenizer loops equal a search over the listed names, headers spread
    over several lines are joined as RFC 7230 says, and an accepted request
    leaves a connection ready for frames, with the response RFC 6455 asks for
    as its output. *)

From S2P Require Import Prelude CLib Buflist Tokenize Base64 Sha1 WsState WsRx WsRxProof WsRxProps WsTx WsTxProof Upgrade.
Import Ws WsTx Tokenize Upgrade WsRxProof.

(** ** Headers on several lines *)

Fixpoint join (fs : list bytes) : bytes :=
  match fs with
  | [] => []
  | f :: fs' => f ++ (match fs' with [] => [] | _ => [44] end) ++ join fs'
  end.

Lemma frags_length_join fs : frags_length false fs = len (join fs).
Proof.
  induction fs as [|f fs IH]; [done|]. cbn [frags_length join]. rewrite IH, !len_app.
  destruct fs; rewrite ?len_nil; [lia|]. change (len [44]) with 1. lia.
Qed.

Lemma copy_frags_join fs size : len (join fs) < size -> copy_frags false fs size = Some (join fs).
Proof.
  revert size. induction fs as [|f fs IH]; intros size Hs; [done|]. cbn [copy_frags join] in *.
  rewrite !len_app in Hs. pose proof (len_nonneg (join fs)). rewrite Z.geb_leb.
  destruct (Z.leb_spec size (len f + b2z (match fs with [] => false | _ => negb false end))) as [Hle|Hlt].
  - destruct fs; cbn [negb b2z] in Hle; [rewrite len_nil in Hs|change (len [44]) with 1 in Hs]; lia.
  - pose proof (len_nonneg (match fs with [] => [] | _ => [44] end)).
    rewrite IH by lia. cbn. by destruct fs.
Qed.

Lemma hdr_copy_join ah size h :
  is_cookie h = false -> 0 < len (join (ah h)) < size -> lws_hdr_copy ah size h = (len (join (ah h)), join (ah h)).
Proof.
  intros Hc Hl. unfold lws_hdr_copy, lws_hdr_total_length. rewrite Hc, frags_length_join.
  destruct (Z.eqb_spec (len (join (ah h))) 0); [lia|]. rewrite Z.geb_leb.
  destruct (Z.leb_spec size (len (join (ah h)))); [lia|].
  destruct (ah h) as [|f fs] eqn:Ea; [done|]. by rewrite copy_frags_join by lia.
Qed.

(** A list on several lines is the one list. *)
Lemma join_lists ess :
  Forall (fun es => es <> []) ess -> join (map list_text ess) = list_text (concat ess).
Proof.
  assert (forall es1 es2, es2 <> [] -> list_tail (es1 ++ es2) = list_tail es1 ++ 44 :: list_text es2) as Ht.
  { intros es1 es2 H2. induction es1 as [|e es1 IH]; simpl; [by destruct es2|].
    by rewrite IH, <- app_assoc. }
  induction 1 as [|es ess He Hess IH]; [done|]. cbn [map join concat]. rewrite IH.
  destruct es as [|e es]; [done|]. cbn [list_text app]. rewrite <- app_assoc. f_equal.
  destruct ess as [|es' ess].
  - cbn. by rewrite !app_nil_r.
  - cbn [map]. inversion_clear Hess as [|? ? H1 _]. rewrite (Ht es (concat (es' :: ess))); [done|].
    cbn. by destruct es'.
Qed.

(** ** The loops *)

(** Some prefix of "upgrade", in any case: what the scan accepts. *)
Definition upgrade_word (n : bytes) : bool :=
  bool_decide (map tolower n `prefix_of` str "upgrade").

Lemma strncasecmp0_prefix n q b :
  Forall (fun c => c <> 0) n -> Forall (fun c => c <> 0 /\ tolower c = c) b ->
  strncasecmp0 (n ++ q) b (length n) = bool_decide (map tolower n `prefix_of` b).
Proof.
  intros Hn. revert b. induction Hn as [|x n Hx Hn IH]; intros b Hb.
  - cbn [length map app strncasecmp0]. symmetry. apply bool_decide_eq_true_2. apply prefix_nil.
  - cbn [length app strncasecmp0 map]. destruct b as [|y b].
    + rewrite bool_decide_eq_false_2; [by apply Z.eqb_neq|]. apply prefix_nil_not.
    + apply Forall_cons in Hb as [[Hy0 Hy] Hb]. rewrite Hy, IH by done.
      destruct (Z.eqb_spec x 0); [done|]. cbn [orb].
      destruct (Z.eqb_spec (tolower x) y) as [<-|Hne]; cbn [andb].
      * apply bool_decide_ext. split; [apply prefix_cons|apply prefix_cons_inv_2].
      * symmetry. apply bool_decide_eq_false_2. intros Hp%prefix_cons_inv_1. done.
Qed.

Lemma upgrade_literal : Forall (fun c => c <> 0 /\ tolower c = c) (str "upgrade").
Proof. apply (bool_decide_unpack _). vm_compute. exact I. Qed.

Lemma name_nonzero e : entry_ok e = true -> Forall (fun c => c <> 0) (entry_name e).
Proof.
  destruct e as [[a n] b]. unfold entry_ok, entry_name. cbn [fst snd].
  intros [[_ Hn]%andb_true_iff _]%andb_true_iff. destruct n as [|c n]; [done|].
  unfold name_ok in Hn. apply andb_true_iff in Hn as [_ Hn]. rewrite forallb_forall in Hn. apply Forall_forall.
  intros x Hx. apply list_elem_of_In, Hn, tokchar_spec in Hx as (Hr & _). lia.
Qed.

Lemma connection_loop_spec es : forall e tok tl dl fuel,
  Forall (fun e => entry_ok e = true) (e :: es) -> dl <> NEED_DELIM -> (2 * length es + 1 < fuel)%nat ->
  connection_loop fuel (mk_ts (list_text (e :: es)) tok tl list_flags dl)
  = existsb upgrade_word (map entry_name (e :: es)).
Proof.
  induction es as [|e2 es IH]; intros e tok tl dl fuel Hok Hdl Hf;
    apply Forall_cons in Hok as [He Hok]; (destruct fuel as [|fuel]; [lia|]); cbn [connection_loop list_text];
    (match goal with |- context [list_tail ?x] =>
      destruct (tokenize_entry e (list_tail x) tok tl dl He (list_tail_stops x) Hdl)
        as (ts & -> & _ & Htl & (q & Htok) & Hst & Hfl & Hd) end);
    rewrite Htl, Htok; cbn [from_option]; unfold id, len; rewrite Nat2Z.id;
    rewrite strncasecmp0_prefix by (apply upgrade_literal || by apply name_nonzero);
    fold (upgrade_word (entry_name e)); cbn [map existsb];
    (destruct (upgrade_word (entry_name e)); [done|]); cbn [orb];
    destruct ts as [s0 t0 l0 f0 d0]; cbn [start flags delim] in Hst, Hfl, Hd; subst s0 f0 d0;
    (destruct fuel as [|fuel]; [simpl in Hf; lia|]); cbn [connection_loop].
  - reflexivity.
  - destruct (tokenize_comma (e2 :: es) t0 l0 ltac:(done)) as (ts & -> & Hst & Hfl & Hd).
    destruct ts as [s1 t1 l1 f1 d1]. cbn [start flags delim] in Hst, Hfl, Hd. subst s1 f1 d1.
    apply (IH e2); [done|done|simpl in Hf; lia].
Qed.

(** The first listed name the vhost knows. *)
Fixpoint select (protocols : list (option bytes)) (names : list bytes) : option nat :=
  match names with
  | [] => None
  | n :: ns => match lws_vhost_name_to_protocol protocols n with Some p => Some p | None => select protocols ns end
  end.

Lemma protocol_loop_spec protocols es : forall e tok tl dl fuel pcol,
  Forall (fun e => entry_ok e = true /\ len (entry_name e) < 63) (e :: es) -> dl <> NEED_DELIM ->
  (2 * length es + 1 < fuel)%nat ->
  protocol_loop fuel protocols (mk_ts (list_text (e :: es)) tok tl list_flags dl) pcol
  = Some (select protocols (map entry_name (e :: es))).
Proof.
  induction es as [|e2 es IH]; intros e tok tl dl fuel pcol Hok Hdl Hf;
    apply Forall_cons in Hok as [[He Hlen] Hok]; (destruct fuel as [|fuel]; [lia|]); cbn [protocol_loop list_text];
    (match goal with |- context [list_tail ?x] =>
      destruct (tokenize_entry e (list_tail x) tok tl dl He (list_tail_stops x) Hdl)
        as (ts & -> & Htx & Htl & _ & Hst & Hfl & Hd) end);
    unfold lws_tokenize_cstr; rewrite Htl, Htx, Z.geb_leb;
    (destruct (Z.leb_spec 64 (len (entry_name e) + 1)); [lia|]); cbn [map select];
    (destruct (lws_vhost_name_to_protocol protocols (entry_name e)); [done|]);
    destruct ts as [s0 t0 l0 f0 d0]; cbn [start flags delim] in Hst, Hfl, Hd; subst s0 f0 d0;
    (destruct fuel as [|fuel]; [simpl in Hf; lia|]); cbn [protocol_loop].
  - reflexivity.
  - destruct (tokenize_comma (e2 :: es) t0 l0 ltac:(done)) as (ts & -> & Hst & Hfl & Hd).
    destruct ts as [s1 t1 l1 f1 d1]. cbn [start flags delim] in Hst, Hfl, Hd. subst s1 f1 d1.
    apply (IH e2); [done|done|simpl in Hf; lia].
Qed.

(** A header that lists the names of [es], on one or several lines, short
    enough for the scan buffer. *)
Definition header_lists (ah : header_table) (h : hdr) (es : list entry) : Prop :=
  exists ess, ah h = map list_text ess /\ concat ess = es /\ Forall (fun l => l <> []) ess /\
    es <> [] /\ Forall (fun e => entry_ok e = true) es /\ len (list_text es) < 127.

Lemma entry_text_len e : entry_ok e = true -> (1 <= length (entry_text e))%nat.
Proof.
  destruct e as [[a n] b]. unfold entry_ok, entry_text. intros [[_ Hn]%andb_true_iff _]%andb_true_iff.
  destruct n; [done|]. rewrite !length_app. simpl. lia.
Qed.

Lemma list_text_len es e :
  Forall (fun e => entry_ok e = true) (e :: es) -> (2 * length es + 1 <= length (list_text (e :: es)))%nat.
Proof.
  intros [He Hes]%Forall_cons. cbn [list_text]. rewrite length_app. pose proof (entry_text_len e He).
  enough (2 * length es <= length (list_tail es))%nat by lia. clear e He H.
  induction Hes as [|e es He _ IH]; [done|]. cbn [list_tail length]. rewrite length_app.
  pose proof (entry_text_len e He). lia.
Qed.

Lemma header_lists_copy ah h es :
  is_cookie h = false -> header_lists ah h es ->
  lws_hdr_copy ah 127 h = (len (list_text es), list_text es) /\ 0 < len (list_text es) /\
  lws_hdr_total_length ah h = len (list_text es).
Proof.
  intros Hc (ess & Hah & Hes & Hne & Hnil & Hok & Hlen).
  assert (join (ah h) = list_text es) as Hj by (rewrite Hah, join_lists, Hes by done; done).
  assert (0 < len (list_text es)) as Hpos.
  { destruct es as [|e es]; [done|]. pose proof (list_text_len es e Hok). unfold len. lia. }
  split_and!; [|done|].
  - rewrite hdr_copy_join by (rewrite ?Hj; lia || done). by rewrite Hj.
  - unfold lws_hdr_total_length. by rewrite Hc, frags_length_join, Hj.
Qed.

Lemma connection_scan ah cs :
  header_lists ah CONNECTION cs ->
  connection_loop (S (S (length (list_text cs)))) (lws_tokenize_init (list_text cs) list_flags)
  = existsb upgrade_word (map entry_name cs).
Proof.
  intros (ess & _ & _ & _ & Hnil & Hok & _). destruct cs as [|e es]; [done|].
  apply connection_loop_spec; [done|done|]. pose proof (list_text_len es e Hok). lia.
Qed.

Lemma protocol_scan ah ps protocols pcol :
  header_lists ah PROTOCOL ps -> Forall (fun e => len (entry_name e) < 63) ps ->
  protocol_loop (S (S (length (list_text ps)))) protocols (lws_tokenize_init (list_text ps) list_flags) pcol
  = Some (select protocols (map entry_name ps)).
Proof.
  intros (ess & _ & _ & _ & Hnil & Hok & _) Hlen. destruct ps as [|e es]; [done|].
  apply protocol_loop_spec; [by apply Forall_and|done|]. pose proof (list_text_len es e Hok). lia.
Qed.

Lemma choose_protocol_lists ah protocols d cs ps :
  header_lists ah CONNECTION cs -> header_lists ah PROTOCOL ps -> Forall (fun e => len (entry_name e) < 63) ps ->
  choose_protocol ah protocols d =
  if existsb upgrade_word (map entry_name cs) then select protocols (map entry_name ps) else None.
Proof.
  intros Hcs Hps Hlen. unfold choose_protocol.
  destruct (header_lists_copy ah CONNECTION cs eq_refl Hcs) as (-> & Hpos & _).
  destruct (Z.leb_spec (len (list_text cs)) 0); [lia|]. rewrite (connection_scan _ _ Hcs).
  destruct (existsb upgrade_word (map entry_name cs)); [|done]. cbn [negb].
  destruct (header_lists_copy ah PROTOCOL ps eq_refl Hps) as (-> & Hpos' & _).
  destruct (Z.ltb_spec (len (list_text ps)) 0); [lia|]. destruct (Z.eqb_spec (len (list_text ps)) 0); [lia|].
  rewrite (protocol_scan _ _ _ _ Hps Hlen). by destruct (select protocols (map entry_name ps)).
Qed.

Lemma choose_protocol_default ah protocols d cs :
  header_lists ah CONNECTION cs -> ah PROTOCOL = [] -> 0 <= d ->
  choose_protocol ah protocols d =
  if existsb upgrade_word (map entry_name cs) && (d <? Z.of_nat (length protocols)) then Some (Z.to_nat d) else None.
Proof.
  intros Hcs Hps Hd. unfold choose_protocol.
  destruct (header_lists_copy ah CONNECTION cs eq_refl Hcs) as (-> & Hpos & _).
  destruct (Z.leb_spec (len (list_text cs)) 0); [lia|]. rewrite (connection_scan _ _ Hcs).
  destruct (existsb upgrade_word (map entry_name cs)); [|done]. cbn [negb andb].
  unfold lws_hdr_copy, lws_hdr_total_length. rewrite Hps. cbn [frags_length Z.eqb Z.ltb Z.compare].
  rewrite Z.geb_leb. destruct (Z.leb_spec (Z.of_nat (length protocols)) d), (Z.ltb_spec d (Z.of_nat (length protocols)));
    (lia || done).
Qed.

(** ** The handshake *)

(** The accept key of RFC 6455. *)
Definition accept_key (key : bytes) : bytes :=
  Base64.text Base64.encode_orig (Sha1.fips_sha1 (key ++ websocket_guid)).

Lemma guid_bytes : all_bytes websocket_guid.
Proof. apply str_bytes. Qed.

Lemma accept_key_len key : all_bytes key -> len (accept_key key) = 28.
Proof.
  intros Hk. unfold accept_key. rewrite Base64.text_len. unfold Base64.quads, len.
  destruct (Sha1.lws_SHA1_fips (key ++ websocket_guid)) as [_ ->]; [|done].
  apply Forall_app. split; [done|apply guid_bytes].
Qed.

Lemma accept_key_computed key size :
  all_bytes key -> 29 < size ->
  exists t, Base64.lws_b64_encode_string (Sha1.lws_SHA1 (key ++ websocket_guid)) size = (28, t) /\
    c_str t = accept_key key.
Proof.
  intros Hk Hs. destruct (Sha1.lws_SHA1_fips (key ++ websocket_guid)) as [Hsha _].
  { apply Forall_app. split; [done|apply guid_bytes]. }
  rewrite Hsha. unfold Base64.lws_b64_encode_string. pose proof (accept_key_len key Hk) as Hl.
  unfold accept_key in *. exists (Base64.text Base64.encode_orig (Sha1.fips_sha1 (key ++ websocket_guid)) ++ [0]).
  rewrite Base64.encode_string_spec by lia. rewrite Hl. split; [done|].
  apply c_str_app_nul. apply Base64.text_nonzero; [by left|apply Sha1.fips_sha1_bytes].
Qed.

(** A write of HTTP headers on a connection with nothing waiting. *)
Lemma write_headers E k b w :
  buflist_out w = [] -> 0 < len b < 2 ^ 31 -> kernel_ok E k b -> state_is LRS_FLUSHING_BEFORE_CLOSE w = false ->
  exists w', lws_write E k [] b LWS_WRITE_HTTP_HEADERS w = Ok (len b, w') /\
    output w' = output w ++ b /\ rx_view w' = rx_view w.
Proof.
  intros Hq Hb Hk Hst. unfold lws_write. rewrite s32_small by lia. destruct (Z.ltb_spec (len b) 0); [lia|].
  unfold rops_write_role_protocol_ws. cbn [Z.eqb orb].
  set (w1 := if nz (ws_ping_pong_interval E) then sul_ping_insert (ws_ping_pong_interval E) w else w).
  assert (buflist_out w1 = [] /\ state_is LRS_FLUSHING_BEFORE_CLOSE w1 = false /\ output w1 = output w /\
    rx_view w1 = rx_view w) as (Hq1 & Hst1 & Ho1 & Hv1).
  { unfold w1. destruct (nz (ws_ping_pong_interval E)); [|done]. split_and!; [done|done| |done].
    unfold output, sul_ping_insert, emit. ws_cbn. by rewrite sent_app, app_nil_r. }
  destruct (issue_fresh E k b w1 Hq1 Hb Hk Hst1) as (w' & Hr & Ho & _ & _ & _ & Hv).
  exists w'. rewrite <- Ho1, <- Hv1. split_and!; [exact Hr|done|done].
Qed.

Lemma handshake_response_len ah accept pname extra :
  len (handshake_response ah accept pname extra) <= 97 + len accept + 26 + 128 + 2 + len extra + 2 /\
  0 < len (handshake_response ah accept pname extra).
Proof.
  unfold handshake_response. rewrite !len_app.
  assert (forall c n, len (snprintf_128 (c :: n)) <= 128) as Hs.
  { intros c n. unfold snprintf_128. rewrite Z.geb_leb. destruct (Z.leb_spec 128 (len (c :: n))); [|lia].
    rewrite len_app. unfold len at 1. rewrite length_take. change (len [0]) with 1. lia. }
  change (len crlf) with 2.
  set (x := len (match pname with Some (c :: n) => _ | _ => [] end)).
  assert (0 <= x <= 26 + 128).
  { unfold x. destruct pname as [[|c n]|]; [change (len []) with 0; lia| |change (len []) with 0; lia].
    destruct (nz (lws_hdr_total_length ah PROTOCOL)); [|change (len []) with 0; lia].
    rewrite !len_app. change (len crlf) with 2. change (len (str "Sec-WebSocket-Protocol: ")) with 24.
    pose proof (Hs c n). pose proof (len_nonneg (snprintf_128 (c :: n))). lia. }
  change (len (str "HTTP/1.1 101 Switching Protocols")) with 32. change (len (str "Upgrade: WebSocket")) with 18.
  change (len (str "Connection: Upgrade")) with 19. change (len (str "Sec-WebSocket-Accept: ")) with 22.
  pose proof (len_nonneg accept). pose proof (len_nonneg extra). lia.
Qed.

Lemma handshake_spec E ah A pname w key extra :
  ah KEY = [key] -> 0 < len key < 128 -> all_bytes key -> Forall (fun c => c <> 0) key ->
  lws_hdr_total_length ah HOST <> 0 -> 29 < pt_serv_buf_size E ->
  a_user_space A = true -> a_add_headers A = Some extra -> a_pmo A = false ->
  len extra < 2 ^ 30 ->
  let response := handshake_response ah (accept_key key) pname extra in
  kernel_ok E (a_send A) response ->
  buflist_out w = [] -> state_is LRS_FLUSHING_BEFORE_CLOSE w = false ->
  exists w', handshake_0405 E ah A pname w = Ok (0, set_lws_rx_parse_state LWS_RXPS_NEW (set_state LRS_ESTABLISHED w')) /\
    output w' = output w ++ response /\ rx_view w' = rx_view w.
Proof.
  intros Hkey Hlen Hbytes Hnul Hhost Hserv Huser Hadd Hpmo Hextra response Hk Hq Hst. unfold handshake_0405.
  assert (lws_hdr_total_length ah KEY = len key) as ->.
  { unfold lws_hdr_total_length. rewrite Hkey. cbn. lia. }
  destruct (Z.eqb_spec (lws_hdr_total_length ah HOST) 0); [done|].
  destruct (Z.eqb_spec (len key) 0); [lia|]. cbn [orb]. unfold MAX_WEBSOCKET_04_KEY_LEN. rewrite Z.geb_leb.
  destruct (Z.leb_spec 128 (len key)); [lia|].
  assert (default [] (lws_hdr_simple_ptr ah KEY) = key) as ->.
  { unfold lws_hdr_simple_ptr. rewrite Hkey. cbn. by apply c_str_no_nul. }
  destruct (accept_key_computed key (pt_serv_buf_size E) Hbytes Hserv) as (t & -> & ->).
  cbn [Z.ltb Z.compare]. rewrite Huser, Hadd. cbn [negb]. fold response.
  destruct (handshake_response_len ah (accept_key key) pname extra) as [Hl1 Hl2].
  fold response in Hl1, Hl2. rewrite accept_key_len in Hl1 by done.
  destruct (write_headers E (a_send A) response w Hq ltac:(lia) Hk Hst) as (w' & -> & Ho & Hv).
  cbn [mbind res_bind]. rewrite Z.eqb_refl. cbn [negb]. rewrite Hpmo. by exists w'.
Qed.

(** What the handshake leaves in the service buffer that held [buf]. *)
Definition response_over (key response buf : bytes) : bytes :=
  list_inserts 400 (response ++ [0])
    (list_inserts 0 (accept_key key ++ [0]) (list_inserts 0 ((key ++ websocket_guid) ++ [0]) buf)).

Lemma handshake_serv_buf_spec E ah pname key extra buf :
  ah KEY = [key] -> all_bytes key -> Forall (fun c => c <> 0) key -> 29 < pt_serv_buf_size E ->
  handshake_serv_buf E ah pname extra buf =
    response_over key (handshake_response ah (accept_key key) pname extra) buf.
Proof.
  intros Hkey Hbytes Hnul Hserv. unfold handshake_serv_buf.
  assert (default [] (lws_hdr_simple_ptr ah KEY) = key) as ->.
  { unfold lws_hdr_simple_ptr. rewrite Hkey. cbn. by apply c_str_no_nul. }
  by destruct (accept_key_computed key (pt_serv_buf_size E) Hbytes Hserv) as (t & -> & ->).
Qed.

(** What an upgrade needs from its surroundings to go through. *)
Definition granted (E : env) (A : answers) (extra : bytes) : Prop :=
  a_basic_auth A = None /\ a_zalloc A = true /\ a_user_space A = true /\ a_filter A = 0 /\
  a_add_headers A = Some extra /\ len extra < 2 ^ 30 /\ a_pmo A = false /\
  (exists b, a_rx_ubuf A = Some b /\ len b = rx_buffer_size E + 4) /\ a_setsockopt A = true /\
  29 < pt_serv_buf_size E.

(** A connection that has served its HTTP request. *)
Definition http_done (w : lws) : Prop :=
  socket_is_permanently_unusable w = false /\ rxflow_bitmap w = 0 /\ wsistate_pre_close w = false /\
  buflist_out w = [].

Lemma init_ready E r w w' b :
  env_ok E -> len b = rx_buffer_size E + 4 ->
  rx_view w' = (LWS_RXPS_NEW, false, 13, 0, false, 0, [0; 0; 0; 0], false, false, false) ->
  WsRx.lws_server_init_wsi_for_ws E (Some b) true w' = (r, w) ->
  ready E false w /\ output w = output w' /\ last (trace w) = Some (Callback LWS_CALLBACK_ESTABLISHED []).
Proof.
  intros (Hrx & _ & Hcb) Hb Hv. unfold WsRx.lws_server_init_wsi_for_ws. rewrite Hcb. cbn [negb nz Z.eqb].
  rewrite s32_small by lia. destruct (Z.eqb_spec (rx_buffer_size E) 0); [lia|]. intros Hw.
  set (w1 := if nz (ws_ping_pong_interval E)
             then sul_ping_insert (ws_ping_pong_interval E) (set_state LRS_ESTABLISHED w')
             else set_state LRS_ESTABLISHED w') in Hw.
  assert (rx_view w1 = rx_view w' /\ state w1 = LRS_ESTABLISHED /\ output w1 = output w') as (Hv1 & Hs1 & Ho1).
  { unfold w1. destruct (nz (ws_ping_pong_interval E)); [|done]. split_and!; [done|done|].
    unfold output, sul_ping_insert, emit. ws_cbn. by rewrite sent_app, app_nil_r. }
  injection Hw as _ <-. clearbody w1. rewrite Hv in Hv1. unfold rx_view in Hv1.
  injection Hv1 as H1 H2 H3 H4 H5 H6 H7 H8 H9 H10.
  split_and!.
  - unfold ready, base. unfold emit. ws_cbn. rewrite H7. split_and!; try done. eauto.
  - unfold output, emit. ws_cbn. by rewrite sent_app, app_nil_r.
  - unfold emit. ws_cbn. apply last_snoc.
Qed.

(** A request whose headers ask for an upgrade is accepted. *)
Lemma upgrade_accepted E ah A protocols d cs ps p key extra w
    (HE : env_ok E) (HA : granted E A extra) (Hw : http_done w)
    (Hcon : header_lists ah CONNECTION cs) (Hup : existsb upgrade_word (map entry_name cs) = true)
    (Hpro : header_lists ah PROTOCOL ps) (Hlen : Forall (fun e => len (entry_name e) < 63) ps)
    (Hsel : select protocols (map entry_name ps) = Some p)
    (Hhost : lws_hdr_total_length ah HOST <> 0)
    (Hkey : ah KEY = [key]) (Hkl : 0 < len key < 128) (Hkb : all_bytes key)
    (Hknul : Forall (fun c => c <> 0) key)
    (Hsend : kernel_ok E (a_send A)
       (handshake_response ah (accept_key key) (default None (protocols !! p)) extra)) :
  exists w', lws_process_ws_upgrade E ah A protocols d w = Ok (0, Some p, w') /\
    output w' = output w ++ handshake_response ah (accept_key key) (default None (protocols !! p)) extra /\
    ready E false w' /\ last (trace w') = Some (Callback LWS_CALLBACK_ESTABLISHED []).
Proof.
  unfold lws_process_ws_upgrade. rewrite (choose_protocol_lists ah protocols d cs ps Hcon Hpro Hlen), Hup, Hsel.
  destruct HA as (HA1 & HA2 & HA3 & HA4 & HA5 & HA6 & HA7 & (b & HA8 & Hb) & HA9 & HA10).
  destruct Hw as (Hw1 & Hw2 & Hw3 & Hw4).
  unfold lws_process_ws_upgrade2. rewrite HA1, HA2. cbn [negb].
  set (w1 := zalloc_ws (set_role_client false (set_state LRS_ESTABLISHED w))).
  set (w2 := if nz (lws_hdr_total_length ah VERSION) then _ else w1).
  rewrite HA3, HA4. cbn [negb nz Z.eqb].
  set (w3 := if ietf_spec_revision w2 =? 13 then w2 else set_ietf_spec_revision 13 w2).
  assert (rx_view w3 = (lws_rx_parse_state w, false, 13, 0, false, 0, [0; 0; 0; 0], false, false, false) /\
    buflist_out w3 = [] /\ state w3 = LRS_ESTABLISHED /\ output w3 = output w) as (Hv3 & Hq3 & Hs3 & Ho3).
  { assert (forall v, v = w1 \/ (exists x, v = set_ietf_spec_revision x w1) ->
      (lws_rx_parse_state v, socket_is_permanently_unusable v, rxflow_bitmap v, wsistate_pre_close v,
       rx_ubuf_head v, mask v, check_utf8 v, continuation_possible v, owed_a_fin v, buflist_out v, state v,
       trace v) = (lws_rx_parse_state w, false, 0, false, 0, [0; 0; 0; 0], false, false, false, [],
       LRS_ESTABLISHED, trace w)) as Hview.
    { intros v [->|[x ->]]; unfold w1, zalloc_ws; ws_cbn; by rewrite Hw1, Hw2, Hw3, Hw4. }
    assert (w2 = w1 \/ exists x, w2 = set_ietf_spec_revision x w1) as Hw2'
      by (unfold w2; destruct (nz (lws_hdr_total_length ah VERSION)); eauto).
    pose proof (Hview w2 Hw2') as Hv2. clearbody w2.
    injection Hv2 as V1 V2 V3 V4 V5 V6 V7 V8 V9 V10 V11 V12.
    unfold w3, rx_view, output. destruct (Z.eqb_spec (ietf_spec_revision w2) 13); ws_cbn;
      rewrite V1, V2, V3, V4, V5, V6, V7, V8, V9, V10, V11, V12, Hw4; rewrite ?e; done. }
  clearbody w3.
  destruct (handshake_spec E ah A (default None (protocols !! p)) w3 key extra) as (w4 & Hh & Ho4 & Hv4);
    [done..|unfold state_is; by rewrite Hs3|].
  rewrite Hh. cbn [mbind res_bind nz Z.eqb negb]. rewrite HA8, HA9.
  destruct (WsRx.lws_server_init_wsi_for_ws E (Some b) true
    (set_lws_rx_parse_state LWS_RXPS_NEW (set_state LRS_ESTABLISHED w4))) as [r w5] eqn:E5.
  assert (rx_view (set_lws_rx_parse_state LWS_RXPS_NEW (set_state LRS_ESTABLISHED w4))
    = (LWS_RXPS_NEW, false, 13, 0, false, 0, [0; 0; 0; 0], false, false, false)) as Hv.
  { rewrite Hv3 in Hv4. unfold rx_view in *. ws_cbn. by injection Hv4 as _ -> -> -> -> -> -> -> -> ->. }
  destruct (init_ready E r w5 _ b HE Hb Hv E5) as (Hr & Ho5 & Hlast).
  cbn [mbind res_bind]. exists w5. split_and!; [done| |done|done].
  rewrite Ho5. change (output (set_lws_rx_parse_state LWS_RXPS_NEW (set_state LRS_ESTABLISHED w4))) with (output w4).
  by rewrite Ho4, Ho3.
Qed.

(** ** What the upgrade leaves alone: the input *)

Definition kept (w w' : lws) : Prop := buflist w' = buflist w /\ received (trace w') = received (trace w).

Definition input_kept {A} (w : lws) (r : res exn (A * lws)) : Prop :=
  match r with Ok (_, w') => kept w w' | Err _ => True end.

Lemma kept_trans w1 w2 w3 : kept w1 w2 -> kept w2 w3 -> kept w1 w3.
Proof. unfold kept. intros [] []. split; congruence. Qed.

Lemma kept_emit w w1 e : match e with Callback LWS_CALLBACK_RECEIVE _ => False | _ => True end -> kept w w1 ->
  kept w (emit e w1).
Proof.
  intros He [H1 H2]. split; [exact H1|]. change (trace (emit e w1)) with (trace w1 ++ [e]).
  rewrite received_app, H2. unfold received at 2. cbn. destruct e as [[]| | | |]; cbn; by rewrite ?app_nil_r.
Qed.

Lemma kept_bind {A B} w (r : res exn (A * lws)) (f : A -> lws -> res exn (B * lws)) :
  input_kept w r -> (forall x w', kept w w' -> input_kept w (f x w')) -> input_kept w ('(x, w') ← r; f x w').
Proof. destruct r as [[x w']|e]; cbn; [|done]. auto. Qed.

Lemma kept_from {A} w w1 (r : res exn (A * lws)) : kept w w1 -> input_kept w1 r -> input_kept w r.
Proof. destruct r as [[x w']|e]; [apply kept_trans|done]. Qed.

Lemma issue_send_kept E k b w : input_kept w (issue_send E k b w).
Proof.
  unfold issue_send.
  match goal with |- context [set_could_have_pending true ?v] => set (w0 := set_could_have_pending true v) end.
  assert (kept w w0) as H0.
  { destruct k as [m| |]; [|done..]. by apply (kept_emit w w (Issue _)). }
  clearbody w0. destruct (_ =? LWS_SSL_CAPABLE_ERROR); [exact H0|].
  match goal with |- context [if ?m <? 0 then 0 else ?m] => set (m1 := if m <? 0 then 0 else m) end. clearbody m1.
  assert (forall w1, kept w w1 -> input_kept w
    (if negb (lws_has_buffered_out w1) then
       if state_is LRS_FLUSHING_BEFORE_CLOSE w1 then Ok (-1, w1)
       else if close_when_buffered_out_drained w1 then Ok (-1, set_close_when_buffered_out_drained false w1)
       else Ok (s32 (len b), emit OnWritable w1)
     else Ok (m1, emit OnWritable w1))) as Hend.
  { intros w1 H1. destruct (negb (lws_has_buffered_out w1)); [|by apply kept_emit].
    destruct (state_is _ _); [exact H1|]. destruct (close_when_buffered_out_drained _); [exact H1|by apply kept_emit]. }
  destruct (lws_has_buffered_out w0).
  - destruct (nz m1); [|by apply Hend].
    destruct (Buflist.lws_buflist_use_segment (buflist_out w0) m1) as [[x l]|]; cbn [mbind res_bind]; [|done].
    apply Hend. exact H0.
  - destruct (m1 =? len b); [exact H0|].
    destruct (Buflist.lws_buflist_append_segment _ _ _) as [[x l]|]; cbn [mbind res_bind]; [|done].
    destruct (x <? 0); [exact H0|]. by apply kept_emit.
Qed.

Lemma issue_raw_kept E k b w : input_kept w (lws_issue_raw E k b w).
Proof.
  unfold lws_issue_raw. destruct (_ && _); [done|].
  assert (forall b1 w1, kept w w1 -> input_kept w
    ('(buf, w2) ← (if lws_has_buffered_out w1 then
           '(_, b, l) ← Buflist.lws_buflist_next_segment_len (buflist_out w1); Ok (b, set_buflist_out l w1)
         else Ok (b1, w1));
      match buf with
      | None => Ok (0, w2)
      | Some b => if len b =? 0 then Ok (0, w2) else issue_send E k b w2
      end)) as Hgo.
  { intros b1 w1 H1. apply kept_bind.
    - destruct (lws_has_buffered_out w1); [|exact H1].
      destruct (Buflist.lws_buflist_next_segment_len _) as [[[x y] l]|]; cbn; [exact H1|done].
    - intros [b2|] w2 H2; [|exact H2]. destruct (len b2 =? 0); [exact H2|].
      eapply kept_from; [exact H2|]. apply issue_send_kept. }
  destruct b as [b|]; [|cbn [mbind res_bind]; by apply Hgo].
  destruct (lws_has_buffered_out w); [|cbn [mbind res_bind]; by apply Hgo].
  destruct (Buflist.lws_buflist_append_segment _ _ _) as [[x l]|]; cbn [mbind res_bind]; [|done].
  destruct (nz x); [done|]. by apply Hgo.
Qed.

Lemma write_headers_kept E k rnd b w : input_kept w (lws_write E k rnd b LWS_WRITE_HTTP_HEADERS w).
Proof.
  unfold lws_write. destruct (_ <? 0); [done|]. unfold rops_write_role_protocol_ws.
  change (Z.land LWS_WRITE_HTTP_HEADERS 31) with LWS_WRITE_HTTP_HEADERS.
  change (_ || _ || _ || _) with true. cbn match. destruct (nz (ws_ping_pong_interval E)); [|apply issue_raw_kept].
  eapply kept_from; [apply (kept_emit w w (SulPing (ws_ping_pong_interval E * LWS_USEC_PER_SEC))); done|]. apply issue_raw_kept.
Qed.

Lemma upgrade_kept E t A ps d w :
  match lws_process_ws_upgrade E t A ps d w with Ok (_, _, w') => kept w w' | Err _ => True end.
Proof.
  unfold lws_process_ws_upgrade. destruct (choose_protocol t ps d) as [p|]; [|done].
  enough (input_kept w (lws_process_ws_upgrade2 E t A (default None (ps !! p)) w)) as H.
  { by destruct (lws_process_ws_upgrade2 _ _ _ _ _) as [[r w']|]. }
  unfold lws_process_ws_upgrade2. destruct (a_basic_auth A); [done|]. destruct (negb (a_zalloc A)); [done|].
  set (w1 := if nz (lws_hdr_total_length t VERSION) then _ else _).
  assert (kept w w1) as H1 by (unfold w1; by destruct (nz _)). clearbody w1.
  destruct (negb (a_user_space A)); [exact H1|]. destruct (nz (a_filter A)); [exact H1|].
  set (w2 := if ietf_spec_revision w1 =? 13 then w1 else _).
  assert (kept w w2) as H2 by (unfold w2; by destruct (_ =? _)). clearbody w2.
  apply kept_bind.
  - unfold handshake_0405. destruct (_ || _); [exact H2|]. destruct (_ >=? _); [exact H2|].
    destruct (Base64.lws_b64_encode_string _ _) as [l b]. destruct (l <? 0); [exact H2|].
    destruct (negb (a_user_space A)); [exact H2|]. destruct (a_add_headers A) as [x|]; [|exact H2].
    apply kept_bind; [eapply kept_from; [exact H2|apply write_headers_kept]|].
    intros n w3 H3. destruct (negb _); [exact H3|]. destruct (a_pmo A); exact H3.
  - intros r w3 H3. destruct (nz r); [exact H3|]. unfold WsRx.lws_server_init_wsi_for_ws.
    set (w4 := if nz (ws_ping_pong_interval E) then _ else _).
    assert (kept w w4) as H4.
    { unfold w4. destruct (nz _); [|exact H3]. apply (kept_emit w w3 (SulPing (ws_ping_pong_interval E * LWS_USEC_PER_SEC))); [done|exact H3]. }
    clearbody w4. destruct (a_rx_ubuf A); [|exact H4]. destruct (negb (a_setsockopt A)); [exact H4|].
    apply (kept_emit w _ (Callback LWS_CALLBACK_ESTABLISHED [])); [done|exact H4].
Qed.

(** C19: an upgrade request is accepted.  When the Connection header, on one or
    several lines, lists upgrade, the protocol header lists some protocol the
    server has, Host and a key are present and nobody refuses, the request is
    bound to the first listed protocol the server has; the bytes sent (taken by
    the socket or queued) are exactly the 101 response of RFC 6455 with the
    Base64 of the SHA-1 of key and GUID as its accept key and the protocol's
    name; and the connection is established, its user told, and ready for the
    first frame. *)
Theorem upgrade_accepts E ah A protocols d cs ps p key extra w
    (HE : env_ok E) (HA : granted E A extra) (Hw : http_done w)
    (Hcon : header_lists ah CONNECTION cs) (Hup : existsb upgrade_word (map entry_name cs) = true)
    (Hpro : header_lists ah PROTOCOL ps) (Hlen : Forall (fun e => len (entry_name e) < 63) ps)
    (Hsel : select protocols (map entry_name ps) = Some p)
    (Hhost : lws_hdr_total_length ah HOST <> 0)
    (Hkey : ah KEY = [key]) (Hkl : 0 < len key < 128) (Hkb : all_bytes key)
    (Hknul : Forall (fun c => c <> 0) key)
    (Hsend : kernel_ok E (a_send A)
       (handshake_response ah (accept_key key) (default None (protocols !! p)) extra)) :
  exists w', lws_process_ws_upgrade E ah A protocols d w = Ok (0, Some p, w') /\
    output w' = output w ++ handshake_response ah (accept_key key) (default None (protocols !! p)) extra /\
    ready E false w' /\ last (trace w') = Some (Callback LWS_CALLBACK_ESTABLISHED []).
Proof. by eapply upgrade_accepted. Qed.

(** The request of RFC 6455, section 1.3, to a server with the two protocols. *)
Definition sample_headers (h : hdr) : list bytes :=
  match h with
  | HOST => [str "server.example.com"]
  | KEY => [str "dGhlIHNhbXBsZSBub25jZQ=="]
  | VERSION => [str "13"]
  | PROTOCOL => [str "chat, superchat"]
  | CONNECTION => [str "keep-alive"; str "Upgrade"]
  | GET_URI => [str "/chat"]
  | HTTP_COOKIE => []
  end.

Definition sample_answers : answers :=
  mk_answers None true true 0 (Some []) Again false (Some (replicate 2052 0)) true.

Lemma sample_connection :
  header_lists sample_headers CONNECTION [([], str "keep-alive", []); ([], str "Upgrade", [])].
Proof.
  exists [[([], str "keep-alive", [])]; [([], str "Upgrade", [])]]. split_and!; [reflexivity|reflexivity| | | |].
  - by repeat constructor.
  - done.
  - repeat constructor.
  - reflexivity.
Qed.

Lemma sample_protocol :
  header_lists sample_headers PROTOCOL [([], str "chat", []); ([32], str "superchat", [])].
Proof.
  exists [[([], str "chat", []); ([32], str "superchat", [])]]. split_and!; [reflexivity|reflexivity| | | |].
  - by repeat constructor.
  - done.
  - repeat constructor.
  - reflexivity.
Qed.

Lemma upgrade_accepts_witness :
  accept_key (str "dGhlIHNhbXBsZSBub25jZQ==") = str "s3pPLMBiTxaQ9kYGzzhZRbK+xOo=" /\
  exists w', lws_process_ws_upgrade sample_env sample_headers sample_answers
      [Some (str "http"); Some (str "superchat")] 0 sample_conn = Ok (0, Some 1%nat, w') /\
    ready sample_env false w'.
Proof.
  split; [vm_compute; reflexivity|].
  destruct (upgrade_accepts sample_env sample_headers sample_answers
    [Some (str "http"); Some (str "superchat")] 0 [([], str "keep-alive", []); ([], str "Upgrade", [])]
    [([], str "chat", []); ([32], str "superchat", [])] 1 (str "dGhlIHNhbXBsZSBub25jZQ==") [] sample_conn
    sample_env_ok) as (w' & H1 & _ & H3 & _).
  - unfold granted. split_and!; try reflexivity. exists (replicate 2052 0). split; vm_compute; reflexivity.
  - unfold http_done. split_and!; reflexivity.
  - exact sample_connection.
  - reflexivity.
  - exact sample_protocol.
  - repeat constructor.
  - reflexivity.
  - discriminate.
  - reflexivity.
  - split; reflexivity.
  - apply str_bytes.
  - apply (bool_decide_unpack _). vm_compute. exact I.
  - exact I.
  - exists w'. split; [exact H1|exact H3].
Defined.

(** C29: an upgrade request is refused, with nothing sent and no user told, when
    no token of the Connection header is a prefix of upgrade, when none of the
    listed protocols is known, when no protocol is listed and the default one
    does not exist, when Host or key is missing or the key has 128 bytes or
    more, or when the user callback denies the connection; a token that is only
    a proper prefix of upgrade, like u, passes. *)
Theorem upgrade_refuses E ah A protocols d cs ps w
    (Hcon : header_lists ah CONNECTION cs)
    (Hpro : header_lists ah PROTOCOL ps /\ Forall (fun e => len (entry_name e) < 63) ps \/
            ah PROTOCOL = [] /\ ps = [] /\ 0 <= d)
    (Hbad : existsb upgrade_word (map entry_name cs) = false \/
            select protocols (map entry_name ps) = None /\ (ps = [] -> Z.of_nat (length protocols) <= d) \/
            a_basic_auth A = None /\
            (a_filter A <> 0 \/ lws_hdr_total_length ah HOST = 0 \/ lws_hdr_total_length ah KEY = 0 \/
             128 <= lws_hdr_total_length ah KEY)) :
  (exists p w', lws_process_ws_upgrade E ah A protocols d w = Ok (1, p, w') /\ trace w' = trace w) /\
  upgrade_word (str "u") = true.
Proof.
  split; [|reflexivity]. unfold lws_process_ws_upgrade.
  destruct (choose_protocol ah protocols d) as [p|] eqn:Ep; [|by eexists None, w].
  assert (a_basic_auth A = None /\
            (a_filter A <> 0 \/ lws_hdr_total_length ah HOST = 0 \/ lws_hdr_total_length ah KEY = 0 \/
             128 <= lws_hdr_total_length ah KEY)) as [Hauth Hb].
  { destruct Hbad as [Hup|[[Hsel Hd]|?]]; [..|done]; exfalso;
      destruct Hpro as [[Hpro Hlen]|(Hpro & -> & Hd0)].
    - rewrite (choose_protocol_lists ah protocols d cs ps Hcon Hpro Hlen), Hup in Ep. done.
    - rewrite (choose_protocol_default ah protocols d cs Hcon Hpro Hd0), Hup in Ep. done.
    - rewrite (choose_protocol_lists ah protocols d cs ps Hcon Hpro Hlen), Hsel in Ep.
      by destruct (existsb upgrade_word (map entry_name cs)).
    - rewrite (choose_protocol_default ah protocols d cs Hcon Hpro Hd0) in Ep. specialize (Hd eq_refl).
      destruct (Z.ltb_spec d (Z.of_nat (length protocols))); [lia|]. by rewrite andb_false_r in Ep. }
  unfold lws_process_ws_upgrade2. rewrite Hauth.
  set (w1 := set_role_client false (set_state LRS_ESTABLISHED w)).
  destruct (a_zalloc A); cbn [negb]; [|eexists _, _; split; [reflexivity|done]].
  set (w2 := if nz (lws_hdr_total_length ah VERSION) then _ else zalloc_ws w1).
  assert (trace w2 = trace w) as Ht2 by (unfold w2; by destruct (nz (lws_hdr_total_length ah VERSION))).
  clearbody w2. destruct (a_user_space A); cbn [negb]; [|eexists _, _; split; [reflexivity|done]].
  destruct (nz (a_filter A)) eqn:Ef; [eexists _, _; split; [reflexivity|done]|].
  set (w3 := if ietf_spec_revision w2 =? 13 then w2 else set_ietf_spec_revision 13 w2).
  assert (trace w3 = trace w) as Ht3 by (unfold w3; by destruct (ietf_spec_revision w2 =? 13)). clearbody w3.
  assert (handshake_0405 E ah A (default None (protocols !! p)) w3 = Ok (-1, w3)) as ->.
  { unfold handshake_0405, MAX_WEBSOCKET_04_KEY_LEN. rewrite Z.geb_leb. apply nz_false in Ef.
    destruct Hb as [?|[->|[->|Hl]]]; [done|done|by rewrite orb_true_r|].
    destruct (Z.leb_spec 128 (lws_hdr_total_length ah KEY)); [|lia]. by destruct (_ || _). }
  cbn. eexists _, w3. split; [reflexivity|done].
Qed.

Lemma upgrade_refuses_witness :
  (exists p w', lws_process_ws_upgrade sample_env sample_headers sample_answers
      [Some (str "lights")] 0 sample_conn = Ok (1, p, w') /\ trace w' = trace sample_conn) /\
  upgrade_word (str "u") = true.
Proof.
  apply (upgrade_refuses sample_env sample_headers sample_answers [Some (str "lights")] 0
    [([], str "keep-alive", []); ([], str "Upgrade", [])]
    [([], str "chat", []); ([32], str "superchat", [])] sample_conn sample_connection).
  - left. split; [exact sample_protocol|repeat constructor].
  - right. left. split; [reflexivity|discriminate].
Defined.
