(* ===== verification/WsControl.v ===== *)
(** * Control frames (libwebsockets lib/roles/ws/ops-ws.c, server-ws.c)

    A ping, pong or close frame between data frames or between the fragments of
    a message: it is read byte by byte into the receive buffer, leaves the
    message around it alone, and is answered when the socket takes output. *)

From S2P Require Import Prelude CLib Buflist Utf8 WsState WsRx WsRxProof WsRxProps WsTx WsTxProof Upgrade UpgradeProof.

Module WsControl.
Import Ws WsRx WsRxProof WsTx.

(** ** The frames *)

Definition ctl_opc (z : Z) : Prop := z = 8 \/ z = 9 \/ z = 10.

(** A control frame that fits the receive buffer. *)
Definition ctl_frame (E : env) (f : frame) : Prop :=
  f_fin f = true /\ ctl_opc (f_opc f) /\ len (f_payload f) <= Z.min 125 (rx_buffer_size E) /\
  match f_key f with None => True | Some k => length k = 4%nat end.

(** Its header is two bytes and the key. *)
Lemma ctl_wire_length E f : ctl_frame E f -> 0 < len (wire f) <= len (f_payload f) + 6.
Proof.
  intros (_ & _ & Hmax & Hkey). pose proof (len_nonneg (f_payload f)). unfold wire, wire_head, wire_len.
  destruct (Z.ltb_spec (len (f_payload f)) 126); [|lia]. rewrite !len_app.
  assert (len (wire_body f) = len (f_payload f)) as ->
    by (unfold wire_body, len; destruct (f_key f); [by rewrite xor_len|done]).
  assert (0 <= len (default [] (f_key f)) <= 4) by (unfold len; destruct (f_key f); cbn; lia).
  change (len [_]) with 1. lia.
Qed.

(** The members a control frame leaves alone until it is complete. *)
Definition ctl_view (w : lws) :=
  (socket_is_permanently_unusable w, ietf_spec_revision w, rxflow_bitmap w, state w, wsistate_pre_close w,
   rx_ubuf_alloc w, continuation_possible w, owed_a_fin w, trace w, buflist_out w, inside_frame w,
   stashed_write_pending w, role_client w, ping_pending_flag w, ping_payload_buf w, payload_is_close w,
   peer_has_sent_close w, await_pong w, send_check_ping w).

Section Control.
Context (E : env).

(** A run of the byte-wise path, without a close. *)
Inductive byte_run : lws -> bytes -> lws -> Prop :=
| run_nil w : byte_run w [] w
| run_cons w c l w1 w2 :
    lws_rx_parse_state w <> LWS_RXPS_WS_FRAME_PAYLOAD \/ ctl_opc (opcode w) -> rxflow_bitmap w = 0 ->
    lws_ws_rx_sm E false false c w = Ok (0, w1) -> byte_run w1 l w2 -> byte_run w (c :: l) w2.

Lemma run_app w l w1 l' w2 : byte_run w l w1 -> byte_run w1 l' w2 -> byte_run w (l ++ l') w2.
Proof. induction 1; simpl; [done|]. intros. econstructor; eauto. Qed.

Lemma run_one w c w1 :
  lws_rx_parse_state w <> LWS_RXPS_WS_FRAME_PAYLOAD \/ ctl_opc (opcode w) -> rxflow_bitmap w = 0 ->
  lws_ws_rx_sm E false false c w = Ok (0, w1) -> byte_run w [c] w1.
Proof. intros. econstructor; eauto. constructor. Qed.

(** The loop gives such bytes to the state machine one at a time, and the run
    can be cut into reads anywhere. *)
Lemma run_byte w c fuel inside bufin buf :
  lws_rx_parse_state w <> LWS_RXPS_WS_FRAME_PAYLOAD \/ ctl_opc (opcode w) -> rxflow_bitmap w = 0 ->
  parse_loop E (S fuel) inside bufin (c :: buf) w =
    '(m, w1) ← lws_ws_rx_sm E false false c w;
    if m <? 0 then Ok (-1, len bufin - len buf, w1) else parse_loop E fuel inside bufin buf w1.
Proof.
  intros Hs Hflow. cbn [parse_loop]. rewrite Hflow. change (nz 0) with false. cbv iota. cbn [bulk_loop].
  assert (bool_decide (lws_rx_parse_state w = LWS_RXPS_WS_FRAME_PAYLOAD)
    && ((opcode w =? LWSWSOPC_TEXT_FRAME) || (opcode w =? LWSWSOPC_BINARY_FRAME)
        || (opcode w =? LWSWSOPC_CONTINUATION)) = false) as ->.
  { destruct Hs as [Hs|[-> |[-> | ->]]]; [by rewrite bool_decide_eq_false_2|apply andb_false_r..]. }
  done.
Qed.

Lemma run_round w c w1 fuel inside bufin buf :
  lws_rx_parse_state w <> LWS_RXPS_WS_FRAME_PAYLOAD \/ ctl_opc (opcode w) -> rxflow_bitmap w = 0 ->
  lws_ws_rx_sm E false false c w = Ok (0, w1) ->
  parse_loop E (S fuel) inside bufin (c :: buf) w = parse_loop E fuel inside bufin buf w1.
Proof. intros Hs Hflow Hsm. by rewrite run_byte, Hsm. Qed.

Lemma run_read l : forall w w2 later inside bufin fuel,
  byte_run w (l ++ later) w2 -> (length l < fuel)%nat ->
  exists w1, parse_loop E fuel inside bufin l w = Ok (0, len bufin, w1) /\ byte_run w1 later w2.
Proof.
  induction l as [|c l IH]; intros w w2 later inside bufin fuel Hrun Hfuel; (destruct fuel as [|fuel]; [simpl in Hfuel; lia|]).
  { by exists w. }
  inversion Hrun as [|? ? ? w1 ? Hs Hflow Hsm Hrun1]; subst. rewrite (run_round w c w1) by done.
  apply IH; [done|simpl in Hfuel; lia].
Qed.

Lemma run_reads reads : forall w w2, byte_run w (concat reads) w2 -> parse_reads E reads w = Ok (0, w2).
Proof.
  induction reads as [|b reads IH]; intros w w2 Hrun; cbn [concat parse_reads] in *; [by inversion Hrun|].
  unfold lws_parse_ws. destruct (run_read b w w2 (concat reads) false b (2 * length b + 1) Hrun) as (w1 & -> & H1); [lia|].
  cbn [mbind res_bind]. change (nz 0) with false. cbv iota. by apply IH.
Qed.

(** ** Reading the frame *)

(** [got] of the frame's payload is in the receive buffer. *)
Definition reading (f : frame) (got : bytes) (w0 w : lws) : Prop :=
  ctl_view w = ctl_view w0 /\ opcode w = f_opc f /\ check_utf8 w = false /\ length (mask w) = 4%nat /\
  rx_ubuf_head w = len got /\
  exists b, rx_ubuf w = Some b /\ len b = rx_buffer_size E + 4 /\ take (length got) b = got.

(** It depends on these members only. *)
Lemma reading_same f got w0 w w' :
  reading f got w0 w -> ctl_view w' = ctl_view w -> opcode w' = opcode w -> check_utf8 w' = check_utf8 w ->
  length (mask w') = length (mask w) -> rx_ubuf_head w' = rx_ubuf_head w -> rx_ubuf w' = rx_ubuf w ->
  reading f got w0 w'.
Proof. unfold reading. intros (H1 & H2 & H3 & H4 & H5 & b & H6 & H7) -> -> -> -> -> ->. split_and!; eauto. Qed.

(** The members of an open connection, seen through the view. *)
Lemma ready_open c w0 f got w :
  ready E c w0 -> reading f got w0 w ->
  socket_is_permanently_unusable w = false /\ ietf_spec_revision w = 13 /\ rxflow_bitmap w = 0 /\
  state w = LRS_ESTABLISHED /\ wsistate_pre_close w = false /\ rx_ubuf_alloc w = rx_buffer_size E + LWS_PRE /\
  continuation_possible w = c /\ owed_a_fin w = c.
Proof.
  intros ((H1 & H2 & H3 & H4 & H5 & _ & H6 & _) & _ & H7 & H8) ([= V1 V2 V3 V4 V5 V6 V7 V8 _] & _).
  split_and!; congruence.
Qed.

Lemma ctl_first c f w : ready E c w -> ctl_frame E f ->
  exists w1, lws_ws_rx_sm E false false (128 + f_opc f) w = Ok (0, w1) /\ reading f [] w w1 /\
    lws_rx_parse_state w1 = LWS_RXPS_04_FRAME_HDR_LEN /\ all_zero_nonce w1 = true.
Proof.
  intros ((Hu & Hrev & Hfl & Hst & Hpre & Hh & Hal & (b & Hb & Hbl) & Hm & Hck) & Hs & Hc & Ho) (_ & Hopc & _).
  unfold lws_ws_rx_sm. rewrite Hu, Hs, Hrev. change (13 =? 13) with true. cbv iota.
  set (w0 := set_all_zero_nonce true w). unfold rx_handle_first.
  set (w1 := set_defeat_check_utf8 false _).
  assert (Z.land (128 + f_opc f) 15 = f_opc f /\ Z.land (128 + f_opc f) 112 = 0 /\ Z.testbit (128 + f_opc f) 7 = true)
    as (B1 & B2 & B3) by (by destruct Hopc as [-> |[-> | ->]]).
  change (opcode w1) with (Z.land (128 + f_opc f) 15). change (final w1) with (Z.testbit (128 + f_opc f) 7).
  rewrite B3, andb_false_r.
  assert (exists w2, rx_first_switch E (128 + f_opc f) w1 = (false, w2) /\ ctl_view w2 = ctl_view w /\
    opcode w2 = f_opc f /\ check_utf8 w2 = false /\ mask w2 = mask w /\ rx_ubuf_head w2 = rx_ubuf_head w /\
    rx_ubuf w2 = rx_ubuf w /\ final w2 = true /\ rsv w2 = 0 /\ all_zero_nonce w2 = true) as
    (w2 & -> & V & V1 & V2 & V3 & V4 & V5 & V6 & V7 & V8).
  { unfold rx_first_switch. change (opcode w1) with (Z.land (128 + f_opc f) 15). rewrite B1.
    destruct Hopc as [Ef|[Ef|Ef]]; rewrite Ef; cbn [Z.eqb Pos.eqb orb andb Z.leb Z.compare Pos.compare Pos.compare_cont
      LWSWSOPC_TEXT_FRAME LWSWSOPC_BINARY_FRAME LWSWSOPC_CONTINUATION LWSWSOPC_CLOSE];
      (eexists; split; [reflexivity|]); (split; [reflexivity|]); split_and!; try reflexivity; try done;
      unfold w1; rewrite Ef; done. }
  clearbody w1. unfold rx_first_fin. rewrite V1, V6.
  assert (((f_opc f =? LWSWSOPC_TEXT_FRAME) || (f_opc f =? LWSWSOPC_BINARY_FRAME)) = false) as ->
    by (by destruct Hopc as [-> |[-> | ->]]).
  assert (negb (nz (Z.land (f_opc f) 8)) = false) as -> by (by destruct Hopc as [-> |[-> | ->]]).
  rewrite andb_false_r. cbn [andb negb]. rewrite ?V6. cbn [negb].
  change (rsv (set_lws_rx_parse_state LWS_RXPS_04_FRAME_HDR_LEN w2)) with (rsv w2). rewrite V7.
  eexists. split; [reflexivity|]. split; [|split; [done|exact V8]].
  split; [exact V|]. split; [exact V1|]. split; [exact V2|].
  change (mask (set_lws_rx_parse_state LWS_RXPS_04_FRAME_HDR_LEN w2)) with (mask w2).
  change (rx_ubuf_head (set_lws_rx_parse_state LWS_RXPS_04_FRAME_HDR_LEN w2)) with (rx_ubuf_head w2).
  change (rx_ubuf (set_lws_rx_parse_state LWS_RXPS_04_FRAME_HDR_LEN w2)) with (rx_ubuf w2).
  rewrite V3, V4, V5. split; [done|]. split; [done|]. exists b. done.
Qed.

(** The frame is complete: what is left is what [spill] makes of it. *)
Definition completes (f : frame) (w0 w : lws) (l : bytes) : Prop :=
  exists wN, reading f (f_payload f) w0 wN /\ lws_rx_parse_state wN = LWS_RXPS_NEW /\
    forall w2, rx_spill E false wN = (0, w2) -> byte_run w l w2.

Lemma completes_cons f w0 w c w1 l :
  lws_rx_parse_state w <> LWS_RXPS_WS_FRAME_PAYLOAD \/ ctl_opc (opcode w) -> rxflow_bitmap w = 0 ->
  lws_ws_rx_sm E false false c w = Ok (0, w1) -> completes f w0 w1 l -> completes f w0 w (c :: l).
Proof.
  intros Hs Hf Hsm (wN & H1 & H2 & H3). exists wN. split; [done|]. split; [done|]. intros w2 Hw2.
  econstructor; eauto.
Qed.

Lemma completes_last f w0 w c wN :
  lws_rx_parse_state w <> LWS_RXPS_WS_FRAME_PAYLOAD \/ ctl_opc (opcode w) -> rxflow_bitmap w = 0 ->
  reading f (f_payload f) w0 wN -> lws_rx_parse_state wN = LWS_RXPS_NEW ->
  lws_ws_rx_sm E false false c w = Ok (rx_spill E false wN) -> completes f w0 w [c].
Proof.
  intros Hs Hf Hr HN Hsm. exists wN. split; [done|]. split; [done|]. intros w2 Hw2. rewrite Hw2 in Hsm.
  by apply run_one.
Qed.

(** A byte of the payload. *)
Lemma payload_byte c f got x rest w0 w :
  env_ok E -> ready E c w0 -> reading f got w0 w -> ctl_opc (f_opc f) ->
  lws_rx_parse_state w = LWS_RXPS_WS_FRAME_PAYLOAD -> rx_packet_length w = len (x :: rest) ->
  len (got ++ x :: rest) <= Z.min 125 (rx_buffer_size E) ->
  exists b w1, cipher w (x :: rest) = b :: cipher w1 rest /\ reading f (got ++ [x]) w0 w1 /\
    lws_rx_parse_state w1 = LWS_RXPS_WS_FRAME_PAYLOAD /\ rx_packet_length w1 = len rest /\
    lws_ws_rx_sm E false false b w =
      Ok (if len rest =? 0 then rx_spill E false (set_lws_rx_parse_state LWS_RXPS_NEW w1) else (0, w1)).
Proof.
  intros (Hsz & _) Hrdy Hr Hopc Hs Hl Hmax.
  destruct (ready_open c w0 f got w Hrdy Hr) as (Hu & _ & _ & _ & _ & Hal & _).
  destruct Hr as (HV & Hop & Hck & Hm & Hh & b & Hb & Hbl & Htk).
  pose proof (len_nonneg got). pose proof (len_nonneg rest). rewrite len_app, len_cons in Hmax. rewrite len_cons in Hl.
  set (k := nth (Z.to_nat (Z.land (mask_idx w) 3)) (mask w) 0).
  set (y := if all_zero_nonce w then x else Z.lxor x k).
  set (wa := if all_zero_nonce w then store (len got) y w
             else set_mask_idx (u8 (mask_idx w + 1)) (store (len got) (Z.lxor y k) w)).
  set (w1 := set_rx_packet_length (u64 (rx_packet_length wa - 1)) (set_rx_ubuf_head (u32 (len got + 1)) wa)).
  assert (rx_ubuf wa = Some (<[length got := x]> b) /\ ctl_view wa = ctl_view w /\ opcode wa = opcode w /\
    check_utf8 wa = check_utf8 w /\ mask wa = mask w /\ rx_packet_length wa = rx_packet_length w /\
    all_zero_nonce wa = all_zero_nonce w /\ lws_rx_parse_state wa = lws_rx_parse_state w /\
    (all_zero_nonce w = false -> mask_idx wa = u8 (mask_idx w + 1))) as (A1 & A2 & A3 & A4 & A5 & A6 & A7 & A8 & A9).
  { assert (Z.to_nat (len got) = length got) as Hlg by (unfold len; lia).
    assert (Z.lxor (Z.lxor x k) k = x) as Hx by (rewrite Z.lxor_assoc, Z.lxor_nilpotent; apply Z.lxor_0_r).
    unfold wa, y. destruct (all_zero_nonce w) eqn:Ez; unfold store;
      (split; [ws_cbn; rewrite Hb, Hlg; cbn [fmap option_fmap option_map]; rewrite ?Hx; done|]);
      (split; [reflexivity|]); (split; [reflexivity|]); (split; [reflexivity|]); (split; [reflexivity|]);
      (split; [reflexivity|]); (split; [exact Ez|]); (split; [reflexivity|]); done. }
  exists y, w1. assert (u64 (rx_packet_length wa - 1) = len rest) as Hpl by (rewrite A6, Hl, u64_small; lia).
  split; [|split; [|split; [|split]]].
  - unfold cipher. change (all_zero_nonce w1) with (all_zero_nonce wa). change (mask w1) with (mask wa).
    change (mask_idx w1) with (mask_idx wa). rewrite A7, A5. unfold y, k.
    destruct (all_zero_nonce w) eqn:Ez; [done|]. cbn [xor_from]. rewrite (A9 eq_refl), land3. f_equal.
    apply xor_shift. unfold u8. by rewrite <- (Znumtheory.Zmod_div_mod 4 256) by (try lia; exists 64; lia).
  - split; [exact (eq_trans A2 HV)|]. split; [exact (eq_trans A3 Hop)|]. split; [exact (eq_trans A4 Hck)|].
    change (mask w1) with (mask wa). change (rx_ubuf_head w1) with (u32 (len got + 1)).
    change (rx_ubuf w1) with (rx_ubuf wa). rewrite A5, A1, len_app, u32_small by lia. split; [done|]. split; [done|].
    exists (<[length got := x]> b). split; [done|]. unfold len in *. rewrite length_insert. split; [done|].
    rewrite length_app. cbn [length]. rewrite Nat.add_1_r.
    erewrite take_S_r by (apply list_lookup_insert_eq; lia). by rewrite take_insert_ge, Htk by lia.
  - exact (eq_trans A8 Hs).
  - exact Hpl.
  - unfold lws_ws_rx_sm. rewrite Hu, Hs. unfold rx_payload. rewrite Hb, Hh, Hal.
    rewrite u32_small by (unfold LWS_PRE; lia).
    destruct (Z.geb_spec (len got + LWS_PRE) (rx_buffer_size E + LWS_PRE)); [lia|]. cbn [negb]. cbv zeta.
    fold k. fold wa. change (rx_packet_length (set_rx_ubuf_head (u32 (len got + 1)) wa)) with (rx_packet_length wa).
    fold w1. change (rx_packet_length w1) with (u64 (rx_packet_length wa - 1)). rewrite Hpl.
    destruct (Z.eqb_spec (len rest) 0); [done|]. change (rx_ubuf_head w1) with (u32 (len got + 1)).
    rewrite u32_small by lia. rewrite (proj2 (Z.eqb_neq (rx_buffer_size E) 0)) by lia. cbn [andb].
    rewrite (proj2 (nz_true _)) by lia. rewrite (proj2 (Z.eqb_neq (len got + 1) _)) by lia. done.
Qed.

Lemma payload_run c f w0 : env_ok E -> ready E c w0 -> ctl_opc (f_opc f) -> forall rest got w,
  f_payload f = got ++ rest -> rest <> [] -> len (f_payload f) <= Z.min 125 (rx_buffer_size E) ->
  reading f got w0 w -> lws_rx_parse_state w = LWS_RXPS_WS_FRAME_PAYLOAD -> rx_packet_length w = len rest ->
  completes f w0 w (cipher w rest).
Proof.
  intros He Hrdy Hopc. induction rest as [|x rest IH]; intros got w Hp Hne Hmax Hr Hs Hl; [done|].
  rewrite Hp in Hmax.
  destruct (payload_byte c f got x rest w0 w He Hrdy Hr Hopc Hs Hl Hmax) as (b & w1 & -> & Hr1 & Hs1 & Hl1 & Hsm).
  destruct (ready_open c w0 f got w Hrdy Hr) as (_ & _ & Hfl & _). pose proof Hr as (_ & Hop & _).
  assert (lws_rx_parse_state w <> LWS_RXPS_WS_FRAME_PAYLOAD \/ ctl_opc (opcode w)) as Hcond by (right; by rewrite Hop).
  assert (f_payload f = (got ++ [x]) ++ rest) as Hp1 by (by rewrite <- app_assoc).
  destruct rest as [|x' rest].
  - cbn in Hsm. replace (cipher w1 []) with (@nil Z) by (unfold cipher; by destruct (all_zero_nonce w1)).
    rewrite app_nil_r in Hp1.
    eapply completes_last; [exact Hcond|exact Hfl| | |exact Hsm]; [|done]. rewrite Hp1.
    eapply reading_same; [exact Hr1|reflexivity..].
  - rewrite (proj2 (Z.eqb_neq (len (x' :: rest)) 0)) in Hsm by (rewrite len_cons; pose proof (len_nonneg rest); lia).
    eapply completes_cons; [exact Hcond|exact Hfl|exact Hsm|]. apply (IH (got ++ [x])); try done. by rewrite Hp.
Qed.

(** A byte of the key. *)
Lemma ctl_key f w0 i k st w : reading f [] w0 w ->
  let w1 := rx_key i k st w in
  reading f [] w0 w1 /\ lws_rx_parse_state w1 = st /\ rx_packet_length w1 = rx_packet_length w /\
  mask w1 = <[i := k]> (mask w) /\ all_zero_nonce w1 = all_zero_nonce w && (k =? 0).
Proof.
  intros Hr. unfold rx_key, nz. destruct (k =? 0); cbn [negb];
    (split; [eapply reading_same; [exact Hr|reflexivity|reflexivity|reflexivity|apply length_insert|reflexivity..]|]);
    (split; [reflexivity|]); (split; [reflexivity|]); (split; [reflexivity|]); ws_cbn;
    by rewrite ?andb_true_r, ?andb_false_r.
Qed.

Lemma ctl_keys c f w0 k n w : ready E c w0 -> reading f [] w0 w -> length k = 4%nat ->
  lws_rx_parse_state w = LWS_RXPS_07_COLLECT_FRAME_KEY_1 -> rx_packet_length w = n -> all_zero_nonce w = true ->
  exists w3 w5, byte_run w (take 3 k) w3 /\ lws_rx_parse_state w3 = LWS_RXPS_07_COLLECT_FRAME_KEY_4 /\
    reading f [] w0 w3 /\ reading f [] w0 w5 /\ lws_rx_parse_state w5 = LWS_RXPS_WS_FRAME_PAYLOAD /\
    rx_packet_length w5 = n /\ (forall p, cipher w5 p = xor_from k 0 p) /\
    lws_ws_rx_sm E false false (nth 3 k 0) w3 =
      Ok (if n =? 0 then rx_spill E false (set_lws_rx_parse_state LWS_RXPS_NEW w5) else (0, w5)).
Proof.
  intros Hrdy Hr Hk Hs Hn Hz. destruct k as [|k0 [|k1 [|k2 [|k3 [|]]]]]; try discriminate Hk. clear Hk.
  assert (forall v cc v1, reading f [] w0 v -> lws_rx_parse_state v <> LWS_RXPS_WS_FRAME_PAYLOAD ->
    (socket_is_permanently_unusable v = false -> lws_ws_rx_sm E false false cc v = Ok (0, v1)) -> byte_run v [cc] v1) as Hone.
  { intros v cc v1 Hv Hsv Hsm. destruct (ready_open c w0 f [] v Hrdy Hv) as (Hu & _ & Hfl & _). apply run_one; auto. }
  pose proof Hr as (_ & _ & _ & Hml & _).
  destruct (ctl_key f w0 0 k0 LWS_RXPS_07_COLLECT_FRAME_KEY_2 w Hr) as (R1 & S1 & N1 & M1 & Z1).
  set (w1 := rx_key 0 k0 _ w) in *.
  destruct (ctl_key f w0 1 k1 LWS_RXPS_07_COLLECT_FRAME_KEY_3 w1 R1) as (R2 & S2 & N2 & M2 & Z2).
  set (w2 := rx_key 1 k1 _ w1) in *.
  destruct (ctl_key f w0 2 k2 LWS_RXPS_07_COLLECT_FRAME_KEY_4 w2 R2) as (R3 & S3 & N3 & M3 & Z3).
  set (w3 := rx_key 2 k2 _ w2) in *.
  destruct (ctl_key f w0 3 k3 LWS_RXPS_WS_FRAME_PAYLOAD w3 R3) as (R4 & S4 & N4 & M4 & Z4).
  set (w4 := rx_key 3 k3 _ w3) in *. set (w5 := set_mask_idx 0 w4). cbn [take].
  exists w3, w5. split.
  { apply (run_app w [k0] w1); [|apply (run_app w1 [k1] w2)];
      (eapply Hone; [eassumption|congruence|]); intros Hu; unfold lws_ws_rx_sm; rewrite Hu.
    - by rewrite Hs. - by rewrite S1. - by rewrite S2. }
  split; [exact S3|]. split; [exact R3|]. split; [eapply reading_same; [exact R4|reflexivity..]|]. split; [exact S4|].
  assert (rx_packet_length w5 = n) as Hn5 by (unfold w5; ws_red; congruence). split; [done|]. split.
  - intros p. unfold cipher. change (all_zero_nonce w5) with (all_zero_nonce w4). change (mask w5) with (mask w4).
    change (mask_idx w5) with 0. rewrite M4, M3, M2, M1, Z4, Z3, Z2, Z1, Hz.
    destruct (mask w) as [|? [|? [|? [|? [|]]]]]; try discriminate Hml. cbn [insert list_insert].
    cbn [andb]. clear Z1 Z2 Z3 Z4. destruct (_ && _) eqn:Ez; [|reflexivity]. repeat (apply andb_true_iff in Ez as [Ez ?]). zbool. subst.
    symmetry. apply xor_zero. by repeat constructor.
  - destruct (ready_open c w0 f [] w3 Hrdy R3) as (Hu & _). unfold lws_ws_rx_sm. rewrite Hu, S3. unfold rx_key_4.
    cbn [nth]. fold w4. fold w5. cbv zeta. rewrite Hn5. done.
Qed.

Lemma run_completes f w0 w l w1 l' : byte_run w l w1 -> completes f w0 w1 l' -> completes f w0 w (l ++ l').
Proof. intros Hr (wN & H1 & H2 & H3). exists wN. split_and!; [done..|]. intros w2 Hw. eapply run_app; eauto. Qed.

Lemma ctl_length c f w0 (m : bool) n w : ready E c w0 -> reading f [] w0 w ->
  lws_rx_parse_state w = LWS_RXPS_04_FRAME_HDR_LEN -> 0 <= n <= 125 ->
  let w2 := set_rx_packet_length n (set_this_frame_masked m w) in
  lws_ws_rx_sm E false false ((if m then 128 else 0) + n) w =
    Ok (if m then (0, set_lws_rx_parse_state LWS_RXPS_07_COLLECT_FRAME_KEY_1 w2)
        else if nz n then (0, set_lws_rx_parse_state LWS_RXPS_WS_FRAME_PAYLOAD w2)
        else rx_spill E false (set_lws_rx_parse_state LWS_RXPS_NEW w2)).
Proof.
  intros Hrdy Hr Hs Hn. destruct (masked_bit m n ltac:(lia)) as [B1 B2].
  destruct (ready_open c w0 f [] w Hrdy Hr) as (Hu & _). unfold lws_ws_rx_sm, rx_hdr_len. rewrite Hu, Hs, B1, B2.
  rewrite (proj2 (Z.eqb_neq n 126)), (proj2 (Z.eqb_neq n 127)) by lia. cbv zeta.
  set (w2 := set_rx_packet_length n _). change (this_frame_masked w2) with m. change (rx_packet_length w2) with n.
  by destruct m, (nz n).
Qed.

(** The whole of a control frame. *)
Lemma ctl_completes c f w : env_ok E -> ready E c w -> ctl_frame E f -> completes f w w (wire f).
Proof.
  intros He Hrdy Hf. pose proof Hf as (Hfin & Hopc & Hmax & Hkey).
  destruct (ctl_first c f w Hrdy Hf) as (w1 & Hsm1 & R1 & S1 & Z1).
  pose proof Hrdy as ((_ & _ & Hfl & _) & Hs & _). set (n := len (f_payload f)) in *.
  pose proof (len_nonneg (f_payload f)) as Hn0. fold n in Hn0.
  unfold wire, wire_head. rewrite Hfin. fold n. unfold wire_len. destruct (Z.ltb_spec n 126); [|lia].
  rewrite <- !app_assoc. cbn [app]. eapply completes_cons; [left; by rewrite Hs|done|exact Hsm1|].
  pose proof (ctl_length c f w (is_masked f) n w1 Hrdy R1 S1 ltac:(lia)) as Hsm2. cbv zeta in Hsm2.
  set (w2 := set_rx_packet_length n (set_this_frame_masked (is_masked f) w1)) in *.
  destruct (ready_open c w f [] w1 Hrdy R1) as (_ & _ & Hfl1 & _).
  assert (forall st, reading f [] w (set_lws_rx_parse_state st w2)) as R2
    by (intros st; eapply reading_same; [exact R1|reflexivity..]).
  assert (lws_rx_parse_state w1 <> LWS_RXPS_WS_FRAME_PAYLOAD \/ ctl_opc (opcode w1)) as C1 by (left; by rewrite S1).
  assert (n = 0 -> f_payload f = []) as Hnil.
  { unfold n, len. destruct (f_payload f); [done|]. simpl. lia. }
  unfold is_masked, wire_body in *. destruct (f_key f) as [k|]; cbn [default from_option id].
  - eapply completes_cons; [exact C1|exact Hfl1|exact Hsm2|]. set (w3 := set_lws_rx_parse_state _ w2) in *.
    destruct (ctl_keys c f w k n w3 Hrdy (R2 _) Hkey eq_refl eq_refl Z1) as (wa & wb & Hrun & Sa & Ra & Rb & Sb & Nb & Cb & Hsm).
    replace k with (take 3 k ++ [nth 3 k 0]) at 1
      by (destruct k as [|? [|? [|? [|? [|]]]]]; try discriminate Hkey; done).
    rewrite <- app_assoc. eapply run_completes; [exact Hrun|]. cbn [app].
    destruct (ready_open c w f [] wa Hrdy Ra) as (_ & _ & Hfla & _).
    destruct (Z.eqb_spec n 0) as [E0|E0].
    + rewrite (Hnil E0). eapply completes_last; [left; by rewrite Sa|exact Hfla| | |exact Hsm]; [|done].
      rewrite (Hnil E0). eapply reading_same; [exact Rb|reflexivity..].
    + eapply completes_cons; [left; by rewrite Sa|exact Hfla|exact Hsm|]. rewrite <- Cb.
      apply (payload_run c f w He Hrdy Hopc (f_payload f) [] wb); try done.
      intros Hp. apply E0. unfold n. by rewrite Hp.
  - destruct (nz n) eqn:En.
    + eapply completes_cons; [exact C1|exact Hfl1|exact Hsm2|]. set (w3 := set_lws_rx_parse_state _ w2) in *.
      replace (f_payload f) with (cipher w3 (f_payload f)) by (unfold cipher; change (all_zero_nonce w3) with (all_zero_nonce w1); by rewrite Z1).
      apply nz_true in En. apply (payload_run c f w He Hrdy Hopc (f_payload f) [] w3); try done.
      intros Hp. apply En. unfold n. by rewrite Hp.
    + apply nz_false in En. rewrite (Hnil En). eapply completes_last; [exact C1|exact Hfl1| | |exact Hsm2]; [|done].
      rewrite (Hnil En). apply R2.
Qed.

(** ** What a control write leaves alone *)

Lemma set_trace_id w : set_trace (trace w) w = w.
Proof. by destruct w. Qed.

(** Only the output and the marks of a write have changed. *)
Definition written (w w' : lws) : Prop :=
  exists tr l, w' = set_could_have_pending true (set_buflist_out l (set_clean_buffer true (set_trace tr w))).

Lemma issue_form k b w : buflist_out w = [] -> 0 < len b < 2 ^ 31 -> kernel_ok E k b ->
  state_is LRS_FLUSHING_BEFORE_CLOSE w = false ->
  match lws_issue_raw E k (Some b) w with
  | Ok (_, w') => exists tr l, w' = set_could_have_pending true (set_buflist_out l (set_trace tr w)) /\
                    (amount k = len b -> l = [])
  | Err _ => True
  end.
Proof.
  intros Hq Hb Hk Hst. unfold lws_issue_raw, lws_has_buffered_out. rewrite Hst, Hq. cbn [andb mbind res_bind].
  rewrite Hq. cbn [mbind res_bind]. rewrite (proj2 (Z.eqb_neq (len b) 0)) by lia.
  destruct (issue_send_start E k b w Hk Hb) as (tr & _ & ->). cbv zeta.
  set (w1 := set_could_have_pending true (set_trace (trace w ++ tr) w)).
  unfold lws_has_buffered_out. change (buflist_out w1) with (buflist_out w). rewrite Hq.
  destruct (Z.eqb_spec (amount k) (len b)); [exists (trace w ++ tr), (buflist_out w); split; [reflexivity|done]|].
  destruct (Buflist.lws_buflist_append_segment _ _ _) as [[r l]|]; cbn [mbind res_bind]; [|done].
  destruct (r <? 0); [exists (trace w ++ tr), l; split; [reflexivity|done]|].
  exists ((trace w ++ tr) ++ [OnWritable]), l. split; [reflexivity|done].
Qed.

(** A control frame written by the server. *)
Lemma control_written k rnd t p w : tx_ready w -> role_client w = false -> ctl_write t -> len p <= 125 ->
  kernel_ok E k (wire (mk_frame true (opcode_of t) None p)) ->
  exists r w', lws_write E k rnd p t w = Ok (r, w') /\ 0 < r /\
    output w' = output w ++ wire (mk_frame true (opcode_of t) None p) /\ written w w' /\
    received (trace w') = received (trace w) /\
    (amount k = len (wire (mk_frame true (opcode_of t) None p)) -> buflist_out w' = []).
Proof.
  intros Htx Hcl Ht Hp Hk.
  assert (role_client w = true -> (4 <= length rnd)%nat) as Hrnd by (by rewrite Hcl).
  destruct (lws_write_spec E k rnd true t p w Htx (or_intror (conj Ht eq_refl)) ltac:(lia) Hrnd) as
    (r & w' & Hw & Ho & _ & _ & Hr); [unfold frame_of; by rewrite Hcl|].
  change (wp_of true t) with t in Hw. unfold frame_of in *. rewrite Hcl in *.
  set (f := mk_frame true (opcode_of t) None p) in *. pose proof (wire_length f ltac:(cbn; lia)) as Hwl.
  change (f_payload f) with p in Hwl.
  exists r, w'. split; [done|]. split; [rewrite (Hr Ht); lia|]. split; [done|].
  revert Hw. unfold lws_write. pose proof (len_nonneg p). rewrite s32_small by lia.
  destruct (Z.ltb_spec (len p) 0); [lia|]. unfold rops_write_role_protocol_ws.
  destruct (wp_cases true t (or_intror (conj Ht eq_refl))) as (Hu & Hraw & Hop & Hrange & Hfin & _ & Hctl).
  change (wp_of true t) with t in *. cbv zeta in *. rewrite Hraw.
  set (w0 := if nz (ws_ping_pong_interval E) then _ else w).
  assert (exists tr, w0 = set_trace tr w /\ received tr = received (trace w)) as (tr0 & Hw0 & Htr0).
  { unfold w0, sul_ping_insert, emit. destruct (nz (ws_ping_pong_interval E)); [|exists (trace w); by rewrite set_trace_id].
    eexists. split; [reflexivity|]. rewrite received_app. apply app_nil_r. }
  clearbody w0. subst w0. destruct Htx as (Hq & Hin & Hst & Hrev & Hfl & Hmask).
  set (w1 := set_trace tr0 w). change (inside_frame w1) with (inside_frame w). rewrite Hin. cbv zeta.
  set (w2 := set_clean_buffer true w1).
  assert ((t =? LWS_WRITE_PING) || (t =? LWS_WRITE_PONG) || (t =? LWS_WRITE_CLOSE) = true) as ->
    by (by destruct Ht as [-> |[-> | ->]]).
  change (ietf_spec_revision w2) with (ietf_spec_revision w). rewrite Hrev. change (13 =? 13) with true. cbv iota.
  rewrite Hop, Hfin. cbn [negb]. change (role_client w2) with (role_client w). rewrite Hcl. unfold write_frame, mask_payload.
  change (role_client w2) with (role_client w). rewrite Hcl. cbv iota zeta. rewrite (Hctl Ht).
  pose proof (wire_parts false true t rnd p Hrange ltac:(lia)) as Hparts. unfold frame_of in Hparts. cbv iota in Hparts.
  rewrite app_nil_l, Hparts. fold f. intros Hw.
  pose proof (issue_form k (wire f) w2 Hq ltac:(lia) Hk Hfl) as Hform.
  pose proof (issue_raw_kept E k (Some (wire f)) w2) as Hkept. rewrite Hw in Hform, Hkept.
  destruct Hform as (tr & l & -> & Hl). split; [exists tr, l; reflexivity|].
  destruct Hkept as [_ Hk2]. rewrite Hk2. split; [exact Htr0|exact Hl].
Qed.

(** ** The frame is complete *)

Lemma collected_reading f got w0 w : reading f got w0 w -> collected w = got.
Proof.
  intros (_ & _ & _ & _ & Hh & b & Hb & _ & Ht). unfold collected. rewrite Hh, Hb. cbn [default from_option id].
  by replace (Z.to_nat (len got)) with (length got) by (unfold len; lia).
Qed.

(** What is put into the buffer of the answer. *)
Lemma answer_stored p (l : bytes) : len p <= 125 -> (125 <= length l)%nat ->
  take (Z.to_nat (u8 (len p))) (list_inserts 0 p l) = p.
Proof.
  intros Hp Hl. pose proof (len_nonneg p). unfold u8. rewrite Z.mod_small by lia. unfold len in *. rewrite Nat2Z.id.
  clear H. revert p Hp Hl. enough (forall p (l : bytes), (length p <= length l)%nat -> take (length p) (list_inserts 0 p l) = p) as H
    by (intros p Hp Hl; apply H; lia).
  clear l. intros p l Hl. apply list_eq. intros i. destruct (decide (i < length p)%nat) as [Hi|Hi].
  - rewrite lookup_take_lt by done. rewrite list_lookup_inserts by lia. by rewrite Nat.sub_0_r.
  - rewrite lookup_take_ge by lia. symmetry. apply lookup_ge_None_2. lia.
Qed.

(** The frame with payload [p] waits to be sent back. *)
Definition answer_waits (p : bytes) (w : lws) : Prop :=
  ping_pending_flag w = true /\ take (Z.to_nat (ping_payload_len w)) (ping_payload_buf w) = p.

(** What [process_as_ping] makes of the collected bytes. *)
Lemma process_spec p w : collected w = p -> rx_ubuf_head w = len p -> len p <= 125 ->
  (125 <= length (ping_payload_buf w))%nat ->
  answer_waits p (rx_process_as_ping w) /\ trace (rx_process_as_ping w) = trace w ++ [OnWritable] /\
  exists l n, rx_process_as_ping w = set_rx_ubuf_head 0 (emit OnWritable (set_ping_pending_flag true
    (set_ping_payload_len n (set_ping_payload_buf l w)))).
Proof.
  intros Hc Hh Hp Hl. unfold rx_process_as_ping. rewrite Hh, Hc. destruct (Z.gtb_spec (len p) (128 - 3)); [lia|].
  cbv zeta. change (rx_ubuf_head (set_ping_payload_buf _ w)) with (rx_ubuf_head w). rewrite Hh.
  split; [|split; [reflexivity|eexists _, _; reflexivity]].
  split; [reflexivity|]. ws_cbn. unfold emit. ws_cbn. by apply answer_stored.
Qed.

(** The connection can answer: nothing waits to be sent. *)
Definition can_answer (w : lws) : Prop :=
  tx_ready w /\ role_client w = false /\ ping_pending_flag w = false /\ payload_is_close w = false /\
  peer_has_sent_close w = false /\ (125 <= length (ping_payload_buf w))%nat.

(** A ping waits to be answered, with everything else as it was. *)
Lemma ping_read c f w : env_ok E -> ready E c w -> can_answer w -> ctl_frame E f -> f_opc f = 9 ->
  exists w1, byte_run w (wire f) w1 /\ answer_waits (f_payload f) w1 /\ ready E c w1 /\ tx_ready w1 /\
    role_client w1 = false /\ payload_is_close w1 = false /\ trace w1 = trace w ++ [OnWritable] /\ output w1 = output w /\
    send_check_ping w1 = send_check_ping w.
Proof.
  intros He Hrdy (Htx & Hcl & Hpp & Hpc & Hps & Hbl) Hf Ho.
  destruct (ctl_completes c f w He Hrdy Hf) as (wN & HR & HS & Hrun). pose proof Hf as (_ & _ & Hmax & _).
  destruct (ready_open c w f _ wN Hrdy HR) as (Hu & Hrev & Hfl & Hst & Hpre & Hal & Hc & Hw).
  pose proof (collected_reading _ _ _ _ HR) as Hcol. pose proof HR as (HV & Hop & Hck & Hml & Hh & b & Hb & Hbn & _).
  injection HV as _ _ _ _ _ _ _ _ Vtr Vq Vin Vst Vcl Vpp Vpb Vpc Vps _ Vsc.
  destruct (process_spec (f_payload f) wN Hcol Hh ltac:(lia)) as (Haw & Htr & l & n & Heq); [by rewrite Vpb|].
  exists (rx_process_as_ping wN). split.
  { apply Hrun. unfold rx_spill. rewrite Hop, Ho. cbn [Z.eqb Pos.eqb LWSWSOPC_CLOSE LWSWSOPC_PING].
    by rewrite Vpp, Hpp. }
  split; [done|]. rewrite Htr, Vtr. rewrite Heq in *. clear Heq.
  split; [|split; [|split; [|split; [|split]]]]; try done.
  - split; [|split; [exact HS|split; [exact Hc|exact Hw]]]. unfold base, emit. ws_cbn. split_and!; try done. by exists b.
  - destruct Htx as (T1 & T2 & T3 & T4 & T5 & T6). unfold tx_ready, state_is, emit. ws_cbn.
    rewrite Vq, Vin, Vst, Hst. split_and!; done.
  - unfold emit. ws_cbn. by rewrite Vcl.
  - unfold emit. ws_cbn. by rewrite Vpc.
  - unfold emit. ws_cbn. split; [|exact Vsc]. unfold output. ws_cbn. rewrite Vtr, Vq, sent_app. by rewrite app_nil_r.
Qed.

(** The pong goes out. *)
Lemma pong_sent k rnd c p w : answer_waits p w -> ready E c w -> tx_ready w -> role_client w = false ->
  payload_is_close w = false -> len p <= 125 -> kernel_ok E k (wire (mk_frame true LWSWSOPC_PONG None p)) ->
  exists w', rops_handle_POLLOUT_ws E k rnd w = Ok (LWS_HP_RET_BAIL_OK, w') /\
    output w' = output w ++ wire (mk_frame true LWSWSOPC_PONG None p) /\ ready E c w' /\
    ping_pending_flag w' = false /\ received (trace w') = received (trace w) /\
    written (set_ping_pending_flag false w) w' /\
    (amount k = len (wire (mk_frame true LWSWSOPC_PONG None p)) -> buflist_out w' = []).
Proof.
  intros [Hpp Hbuf] Hrdy Htx Hcl Hpc Hp Hk. pose proof Hrdy as ((_ & _ & _ & Hst & Hpre & _) & _).
  destruct (control_written k rnd LWS_WRITE_PONG p w Htx Hcl) as (r & w2 & Hw & Hr & Ho2 & Hwr & Hrec & Hall);
    [by right; right|lia|exact Hk|].
  exists (set_ping_pending_flag false w2). split.
  - unfold rops_handle_POLLOUT_ws, state_is. rewrite Hst, Hpp, Hpc, Hpre, Hbuf.
    rewrite bool_decide_eq_false_2 by done. cbn [orb negb andb]. rewrite Hw. cbn [mbind res_bind].
    destruct (Z.ltb_spec r 0); [lia|]. destruct Hwr as (tr & l & ->).
    change (payload_is_close (set_ping_pending_flag false _)) with (payload_is_close w). by rewrite Hpc.
  - split; [exact Ho2|]. destruct Hwr as (tr & l & ->). split; [exact Hrdy|]. split; [done|]. split; [exact Hrec|].
    split; [exists tr, l; reflexivity|exact Hall].
Qed.

(** The payload a close frame is answered with: a code a peer must not send is
    replaced. *)
Definition close_echo (p : bytes) : bytes :=
  match p with
  | a :: b :: r => if bad_close_code (Z.lor (Z.shiftl a 8) b) then 3 :: 234 :: r else p
  | _ => p
  end.

Lemma close_echo_length p : length (close_echo p) = length p.
Proof. destruct p as [|a [|b r]]; [done..|]. cbn. by destruct (bad_close_code _). Qed.

(** The check of the code, in the receive buffer. *)
Definition code_checked (w : lws) : lws :=
  if rx_ubuf_head w >=? 2 then
    let pp := collected w in
    let close_code := Z.lor (Z.shiftl (nth 0 pp 0) 8) (nth 1 pp 0) in
    if bad_close_code close_code
    then store 1 (Z.land LWS_CLOSE_STATUS_PROTOCOL_ERR 255)
           (store 0 (Z.land (Z.shiftr LWS_CLOSE_STATUS_PROTOCOL_ERR 8) 255) w)
    else w
  else w.

Lemma close_reply_checked w :
  rx_close_reply E w =
    let w := code_checked w in
    let '(n, w) := user_callback_handle_rxflow E LWS_CALLBACK_WS_PEER_INITIATED_CLOSE (collected w) w in
    if nz n then (-1, w)
    else (0, rx_process_as_ping (set_payload_is_close true (set_state LRS_RETURNED_CLOSE w))).
Proof. reflexivity. Qed.

Lemma close_code_checked f w0 w : reading f (f_payload f) w0 w ->
  collected (code_checked w) = close_echo (f_payload f) /\ exists u, code_checked w = set_rx_ubuf u w.
Proof.
  intros HR. pose proof (collected_reading _ _ _ _ HR) as Hcol. unfold code_checked. rewrite Hcol.
  destruct HR as (_ & _ & _ & _ & Hh & b & Hb & Hbl & Htk). rewrite Hh.
  assert (exists u, w = set_rx_ubuf u w) as Hid by (exists (rx_ubuf w); by destruct w).
  destruct (Z.geb_spec (len (f_payload f)) 2) as [Hge|Hlt]; cbv zeta.
  2: { rewrite Hcol. split; [|done]. destruct (f_payload f) as [|x [|y r]]; [done..|].
       rewrite !len_cons in Hlt. pose proof (len_nonneg r). lia. }
  destruct (f_payload f) as [|x [|y r]]; [rewrite len_nil in Hge; lia|rewrite len_cons, len_nil in Hge; lia|].
  cbn [nth close_echo]. destruct (bad_close_code _); [|done]. split; [|eexists; reflexivity].
  unfold collected, store. ws_cbn. rewrite Hb, Hh. cbn [fmap option_fmap option_map default from_option id].
  destruct b as [|b0 [|b1 b]]; try (cbn in Htk; done).
  replace (Z.to_nat (len (x :: y :: r))) with (S (S (length r))) by (unfold len; simpl; lia).
  cbn in Htk. injection Htk as _ _ Htk. change (3 :: 234 :: take (length r) b = 3 :: 234 :: r). by rewrite Htk.
Qed.

(** A close frame is ready to be sent back. *)
Lemma close_read c f w : env_ok E -> ready E c w -> can_answer w -> ctl_frame E f -> f_opc f = 8 ->
  exists w1, byte_run w (wire f) w1 /\ answer_waits (close_echo (f_payload f)) w1 /\ tx_ready w1 /\
    role_client w1 = false /\ payload_is_close w1 = true /\ state w1 = LRS_RETURNED_CLOSE /\
    trace w1 = trace w ++ [Callback LWS_CALLBACK_WS_PEER_INITIATED_CLOSE (close_echo (f_payload f)); OnWritable] /\
    output w1 = output w.
Proof.
  intros He Hrdy (Htx & Hcl & Hpp & Hpc & Hps & Hbl) Hf Ho. pose proof He as (_ & Hval & Hcb).
  destruct (ctl_completes c f w He Hrdy Hf) as (wN & HR & HS & Hrun). pose proof Hf as (_ & _ & Hmax & _).
  destruct (ready_open c w f _ wN Hrdy HR) as (_ & _ & _ & Hst & _).
  pose proof HR as (HV & Hop & _ & Hml & _).
  injection HV as _ Vrev _ _ _ _ _ _ Vtr Vq Vin Vst Vcl Vpp Vpb Vpc Vps _ _.
  pose proof Htx as (T1 & T2 & T3 & T4 & T5 & T6).
  set (wa := set_utf8 (utf8 wN) (set_peer_has_sent_close true wN)).
  assert (reading f (f_payload f) wa wa) as HRa.
  { destruct HR as (_ & R2 & R3 & R4 & R5 & R6). split; [done|]. split_and!; done. }
  destruct (close_code_checked f wa wa HRa) as [Hcol [u Hu]].
  set (wb := code_checked wa) in *.
  set (wc := set_payload_is_close true (set_state LRS_RETURNED_CLOSE
    (emit (Callback LWS_CALLBACK_WS_PEER_INITIATED_CLOSE (close_echo (f_payload f))) wb))).
  assert (rx_spill E false wN = (0, rx_process_as_ping wc)) as Hspill.
  { unfold rx_spill. rewrite Hop, Ho. cbn [Z.eqb Pos.eqb LWSWSOPC_CLOSE]. unfold rx_close.
    rewrite Vps, Hps, Hval. cbn [andb]. cbv zeta. change (utf8 (set_peer_has_sent_close true wN)) with (utf8 wN). fold wa.
    unfold state_is, lws_partial_buffered. change (state wa) with (state wN). change (buflist_out wa) with (buflist_out wN).
    rewrite Hst, Vq, T1, !bool_decide_eq_false_2 by done.
    rewrite close_reply_checked. fold wb. unfold user_callback_handle_rxflow. rewrite Hcb, Hcol. done. }
  assert (collected wc = close_echo (f_payload f)) as Hcc by exact Hcol.
  assert (rx_ubuf_head wc = len (close_echo (f_payload f))) as Hch.
  { unfold wc, emit. ws_cbn. rewrite Hu. ws_cbn. unfold wa. ws_cbn. destruct HR as (_ & _ & _ & _ & -> & _).
    unfold len. by rewrite close_echo_length. }
  assert (ping_payload_buf wc = ping_payload_buf w) as Hcb'.
  { unfold wc, emit. ws_cbn. rewrite Hu. ws_cbn. unfold wa. ws_cbn. exact Vpb. }
  destruct (process_spec _ wc Hcc Hch) as (Haw & Htr & l & n & Heq);
    [unfold len in *; rewrite close_echo_length; lia|by rewrite Hcb'|].
  exists (rx_process_as_ping wc). split; [by apply Hrun|]. split; [done|].
  assert (trace wc = trace w ++ [Callback LWS_CALLBACK_WS_PEER_INITIATED_CLOSE (close_echo (f_payload f))]) as Hct.
  { unfold wc, emit. ws_cbn. rewrite Hu. ws_cbn. unfold wa. ws_cbn. by rewrite Vtr. }
  rewrite Htr, Hct, <- app_assoc. rewrite Heq. unfold tx_ready, state_is, output, emit. ws_cbn.
  unfold wc, emit. ws_cbn. rewrite Hu. ws_cbn. unfold wa. ws_cbn. rewrite Vq, Vin, Vst, Vrev, Vcl, Vtr.
  split_and!; try done. rewrite !sent_app. cbn [sent map concat app]. by rewrite !app_nil_r.
Qed.

End Control.

(** C8: A ping is answered.  On an open connection with nothing waiting to be
    sent, between messages or between the fragments of one, a ping frame with
    any payload of up to 125 bytes, masked or not and cut into reads in any
    way, is taken without an error and without a call of the user, asks for
    the writable callback, and the next POLLOUT sends exactly one pong frame
    with the same payload.  The connection is then where it was: the message
    that was under way goes on. *)
Theorem ping_answered (E : env) (k : send_answer) (rnd : bytes) (c : bool) (w : lws) (f : frame) (reads : list bytes) :
  env_ok E -> ready E c w -> can_answer w -> ctl_frame E f -> f_opc f = LWSWSOPC_PING -> concat reads = wire f ->
  kernel_ok E k (wire (mk_frame true LWSWSOPC_PONG None (f_payload f))) ->
  exists w1 w2, parse_reads E reads w = Ok (0, w1) /\ trace w1 = trace w ++ [OnWritable] /\
    rops_handle_POLLOUT_ws E k rnd w1 = Ok (LWS_HP_RET_BAIL_OK, w2) /\
    output w2 = output w ++ wire (mk_frame true LWSWSOPC_PONG None (f_payload f)) /\
    ready E c w2 /\ ping_pending_flag w2 = false /\ received (trace w2) = received (trace w).
Proof.
  intros He Hrdy Hca Hf Ho Hcat Hk. pose proof Hf as (_ & _ & Hmax & _).
  destruct (ping_read E c f w He Hrdy Hca Hf Ho) as (w1 & Hrun & Haw & Hr1 & Ht1 & Hcl & Hpc & Htr & Hout & _).
  rewrite <- Hcat in Hrun.
  destruct (pong_sent E k rnd c (f_payload f) w1 Haw Hr1 Ht1 Hcl Hpc ltac:(lia) Hk)
    as (w2 & Hw & Ho2 & Hr2 & Hp2 & Hrec & _).
  exists w1, w2. split; [by apply run_reads|]. split; [done|]. split; [done|]. split; [by rewrite Ho2, Hout|].
  split; [done|]. split; [done|]. rewrite Hrec, Htr, received_app.
  change (received [OnWritable]) with (@nil Z). apply app_nil_r.
Qed.

(** The sample connection with room for a control payload, inside a fragmented
    message. *)
Definition sample_fragmented : lws :=
  set_owed_a_fin true (set_continuation_possible true sample_conn).

Lemma sample_fragmented_ready : ready sample_env true sample_fragmented.
Proof. destruct sample_conn_ready as (Hb & Hs & _). split; [exact Hb|]. split; [exact Hs|done]. Qed.

Lemma sample_can_answer : can_answer sample_fragmented.
Proof. unfold can_answer, tx_ready. cbn. split_and!; (done || lia). Qed.

Lemma ping_answered_witness :
  let f := mk_frame true 9 (Some [1; 2; 3; 4]) (str "are you there") in
  exists w1 w2, parse_reads sample_env [take 4 (wire f); drop 4 (wire f)] sample_fragmented = Ok (0, w1) /\
    rops_handle_POLLOUT_ws sample_env (Taken 6) [] w1 = Ok (LWS_HP_RET_BAIL_OK, w2) /\
    output w2 = wire (mk_frame true 10 None (str "are you there")) /\ ready sample_env true w2.
Proof.
  intros f.
  destruct (ping_answered sample_env (Taken 6) [] true sample_fragmented f [take 4 (wire f); drop 4 (wire f)])
    as (w1 & w2 & H1 & _ & H2 & H3 & H4 & _).
  - exact sample_env_ok.
  - exact sample_fragmented_ready.
  - exact sample_can_answer.
  - split; [done|]. split; [by right; left|]. split; [vm_compute; discriminate|done].
  - done.
  - cbn [concat]. by rewrite app_nil_r, take_drop.
  - vm_compute. split; [split|]; discriminate.
  - exists w1, w2. split; [exact H1|]. split; [exact H2|]. split; [exact H3|exact H4].
Defined.

(** C9: A close is answered.  On an open connection with nothing waiting to be
    sent, a close frame, masked or not and cut into reads in any way, is taken
    without an error; the user is told with its payload; and the next POLLOUT
    sends exactly one close frame back, with the same payload, except that a
    status code a peer must not send is replaced by 1002, and has the
    connection closed. *)
Theorem close_answered (E : env) (k : send_answer) (rnd : bytes) (c : bool) (w : lws) (f : frame) (reads : list bytes) :
  env_ok E -> ready E c w -> can_answer w -> ctl_frame E f -> f_opc f = LWSWSOPC_CLOSE -> concat reads = wire f ->
  kernel_ok E k (wire (mk_frame true LWSWSOPC_CLOSE None (close_echo (f_payload f)))) ->
  exists w1 w2, parse_reads E reads w = Ok (0, w1) /\ state w1 = LRS_RETURNED_CLOSE /\
    trace w1 = trace w ++ [Callback LWS_CALLBACK_WS_PEER_INITIATED_CLOSE (close_echo (f_payload f)); OnWritable] /\
    rops_handle_POLLOUT_ws E k rnd w1 = Ok (LWS_HP_RET_BAIL_DIE, w2) /\ state w2 = LRS_RETURNED_CLOSE /\
    output w2 = output w ++ wire (mk_frame true LWSWSOPC_CLOSE None (close_echo (f_payload f))) /\
    received (trace w2) = received (trace w).
Proof.
  intros He Hrdy Hca Hf Ho Hcat Hk. pose proof Hf as (_ & _ & Hmax & _).
  destruct (close_read E c f w He Hrdy Hca Hf Ho) as (w1 & Hrun & [Hpp Hbuf] & Ht1 & Hcl & Hpc & Hst & Htr & Hout).
  rewrite <- Hcat in Hrun.
  destruct (control_written E k rnd LWS_WRITE_CLOSE (close_echo (f_payload f)) w1 Ht1 Hcl)
    as (r & w2 & Hw & Hr & Ho2 & Hwr & Hrec & _); [by left|unfold len in *; rewrite close_echo_length; lia|exact Hk|].
  exists w1, (set_ping_pending_flag false w2). split; [by apply run_reads|]. split; [done|]. split; [done|]. split.
  - unfold rops_handle_POLLOUT_ws, state_is. rewrite Hst, Hpp, Hpc, Hbuf.
    rewrite bool_decide_eq_false_2 by done. cbn [orb negb andb]. rewrite Hw. cbn [mbind res_bind].
    destruct (Z.ltb_spec r 0); [lia|]. destruct Hwr as (tr & l & ->).
    change (payload_is_close (set_ping_pending_flag false _)) with (payload_is_close w1). by rewrite Hpc.
  - change (output (set_ping_pending_flag false w2)) with (output w2).
    change (trace (set_ping_pending_flag false w2)) with (trace w2). rewrite Ho2, Hout, Hrec, Htr, received_app.
    change (received [_; _]) with (@nil Z). rewrite app_nil_r. destruct Hwr as (tr & l & ->). split; [exact Hst|done].
Qed.

Lemma close_answered_witness :
  let f := mk_frame true 8 None ([3; 237] ++ str "bye") in
  exists w1 w2, parse_reads sample_env [wire f] sample_fragmented = Ok (0, w1) /\ state w1 = LRS_RETURNED_CLOSE /\
    rops_handle_POLLOUT_ws sample_env Again [] w1 = Ok (LWS_HP_RET_BAIL_DIE, w2) /\
    output w2 = wire (mk_frame true 8 None ([3; 234] ++ str "bye")).
Proof.
  intros f.
  destruct (close_answered sample_env Again [] true sample_fragmented f [wire f])
    as (w1 & w2 & H1 & H2 & _ & H3 & _ & H4 & _).
  - exact sample_env_ok.
  - exact sample_fragmented_ready.
  - exact sample_can_answer.
  - split; [done|]. split; [by left|]. split; [vm_compute; discriminate|done].
  - done.
  - apply app_nil_r.
  - exact I.
  - exists w1, w2. split; [exact H1|]. split; [exact H2|]. split; [exact H3|exact H4].
Defined.

End WsControl.
