(* ===== verification/HttpLex.v ===== *)
(** * The header-name table (libwebsockets lib/roles/http/lextable.h, lextable-strings.h)

    The HTTP parser recognises methods and header names with a byte-coded
    trie that a generator made from a list of strings.  Here is the trie as it
    is in the repository, the list, the walk of the parser over the trie, and
    the proof that the trie recognises exactly the strings of the list, each
    with its own index, and that no walk leaves the table. *)

From S2P Require Import Prelude CLib.

Module HttpLex.

(** What the C code can run into that is not a return value. *)
Inductive fault :=
| assert_fails        (* assert(0) *)
| bad_access          (* an access outside an array *)
| no_fuel.            (* a loop did not end within the bound given to it *)

#[global] Instance fault_eq_dec : EqDecision fault.
Proof. solve_decision. Defined.

(** ** The table *)

Definition lextable_0 : bytes :=
  [103; 64; 0; 112; 66; 0; 111; 81; 0; 104; 93; 0; 99; 105; 0; 117; 138; 0; 115; 160; 0; 13; 217; 0; 97; 49;
   1; 105; 112; 1; 100; 25; 2; 114; 34; 2; 58; 86; 2; 101; 232; 2; 102; 4; 3; 108; 38; 3; 109; 73; 3; 116;
   184; 3; 118; 217; 3; 119; 230; 3; 120; 13; 4; 8; 229; 244; 160; 0; 0; 111; 13; 0; 114; 149; 1; 97; 230; 3;
   117; 232; 3; 8; 243; 244; 160; 0; 1; 112; 7; 0; 114; 81; 0; 8; 244; 233; 239; 238; 243; 160; 0; 2; 111;
   10; 0; 116; 191; 0; 101; 5; 4; 8; 243; 244; 186; 0; 3; 111; 7; 0; 97; 114; 1; 8; 110; 7; 0; 111; 135; 1;
   8; 110; 7; 0; 116; 134; 1; 8; 229; 227; 244; 105; 7; 0; 32; 223; 3; 8; 239; 238; 186; 0; 4; 112; 10; 0;
   115; 104; 3; 114; 160; 3; 8; 231; 242; 225; 228; 229; 186; 0; 5; 233; 231; 233; 238; 186; 0; 6; 101; 7; 0;
   116; 28; 3; 8; 99; 10; 0; 114; 5; 3; 116; 8; 3; 8; 173; 247; 229; 226; 243; 239; 227; 235; 229; 244; 173;
   100; 25; 0; 101; 32; 0; 107; 41; 0; 112; 56; 0; 97; 63; 0; 110; 68; 0; 118; 137; 1; 111; 143; 1; 8; 242;
   225; 230; 244; 186; 0; 7; 138; 0; 8; 248; 244; 229; 238; 243; 233; 239; 238; 243; 186; 0; 9; 229; 249; 49;
   10; 0; 50; 10; 0; 58; 98; 1].

Definition lextable_1 : bytes :=
  [8; 186; 0; 10; 186; 0; 11; 242; 239; 244; 239; 227; 239; 236; 186; 0; 12; 227; 227; 229; 240; 244; 186; 0;
   13; 239; 238; 227; 229; 186; 0; 14; 244; 240; 47; 7; 0; 50; 16; 0; 8; 177; 174; 49; 7; 0; 48; 39; 3; 8;
   160; 0; 15; 173; 243; 229; 244; 244; 233; 238; 231; 243; 186; 0; 16; 99; 13; 0; 117; 172; 0; 103; 134; 1;
   108; 135; 1; 8; 227; 229; 112; 7; 0; 115; 14; 0; 8; 244; 58; 7; 0; 45; 89; 0; 8; 0; 17; 243; 173; 227;
   239; 238; 244; 242; 239; 236; 173; 114; 7; 0; 97; 81; 1; 8; 229; 241; 245; 229; 243; 244; 173; 232; 229;
   225; 228; 229; 242; 243; 186; 0; 18; 230; 173; 109; 13; 0; 110; 32; 0; 114; 167; 1; 117; 171; 1; 8; 111;
   7; 0; 97; 151; 1; 8; 228; 233; 230; 233; 229; 228; 173; 243; 233; 238; 227; 229; 186; 0; 19; 239; 238;
   229; 173; 237; 225; 244; 227; 232; 186; 0; 20; 101; 13; 0; 108; 20; 0; 99; 244; 0; 114; 250; 0; 8; 238;
   227; 239; 228; 233; 238].

Definition lextable_2 : bytes :=
  [231; 186; 0; 21; 225; 238; 231; 245; 225; 231; 229; 186; 0; 22; 97; 7; 0; 111; 167; 1; 8; 231; 237; 225;
   186; 0; 23; 227; 232; 229; 173; 227; 239; 238; 244; 242; 239; 236; 186; 0; 24; 244; 232; 239; 242; 233;
   250; 225; 244; 233; 239; 238; 186; 0; 25; 235; 233; 229; 186; 0; 26; 229; 238; 244; 173; 108; 16; 0; 116;
   30; 0; 100; 201; 0; 101; 211; 0; 114; 236; 0; 8; 101; 10; 0; 97; 211; 0; 111; 217; 0; 8; 238; 231; 244;
   232; 186; 0; 27; 249; 240; 229; 186; 0; 28; 97; 7; 0; 101; 255; 1; 8; 244; 229; 186; 0; 29; 97; 7; 0; 101;
   10; 0; 8; 238; 231; 229; 186; 0; 30; 102; 10; 0; 116; 99; 1; 112; 35; 2; 8; 101; 7; 0; 114; 83; 1; 8; 242;
   229; 242; 186; 0; 31; 0; 32; 229; 242; 243; 233; 239; 238; 186; 0; 33; 242; 233; 231; 233; 238; 186; 0;
   34; 97; 13; 0; 109; 20; 0; 112; 24; 0; 115; 32; 0; 8; 245; 244; 232; 239; 242; 233; 244; 249; 0; 35; 229;
   244; 232; 239; 228; 0; 36; 97; 7; 0].

Definition lextable_3 : bytes :=
  [114; 234; 1; 8; 244; 232; 0; 37; 99; 7; 0; 116; 10; 0; 8; 232; 229; 237; 229; 0; 38; 225; 244; 245; 243;
   0; 39; 232; 225; 242; 243; 229; 244; 186; 0; 40; 225; 238; 231; 229; 243; 186; 0; 41; 236; 236; 239; 247;
   173; 239; 242; 233; 231; 233; 238; 186; 0; 42; 229; 186; 0; 43; 236; 239; 247; 186; 0; 44; 233; 243; 240;
   239; 243; 233; 244; 233; 239; 238; 186; 0; 45; 238; 227; 239; 228; 233; 238; 231; 186; 0; 46; 238; 231;
   245; 225; 231; 229; 186; 0; 47; 227; 225; 244; 233; 239; 238; 186; 0; 48; 225; 238; 231; 229; 186; 0; 49;
   116; 7; 0; 120; 9; 0; 8; 225; 231; 186; 0; 50; 240; 101; 7; 0; 105; 9; 0; 8; 227; 244; 186; 0; 51; 242;
   229; 243; 186; 0; 52; 242; 239; 237; 186; 0; 53; 244; 227; 232; 186; 0; 54; 225; 238; 231; 229; 186; 0;
   55; 238; 237; 239; 228; 233; 230; 233].

Definition lextable_4 : bytes :=
  [229; 228; 173; 243; 233; 238; 227; 229; 186; 0; 56; 97; 10; 0; 105; 21; 0; 111; 23; 0; 8; 243; 244; 173;
   237; 239; 228; 233; 230; 233; 229; 228; 186; 0; 57; 238; 235; 186; 0; 58; 227; 225; 244; 233; 239; 238;
   186; 0; 59; 225; 248; 173; 230; 239; 242; 247; 225; 242; 228; 243; 186; 0; 60; 248; 249; 45; 7; 0; 32;
   187; 0; 8; 225; 245; 244; 232; 101; 7; 0; 111; 14; 0; 8; 238; 244; 233; 227; 225; 244; 229; 186; 0; 61;
   242; 233; 250; 225; 244; 233; 239; 238; 186; 0; 62; 229; 243; 232; 186; 0; 63; 242; 249; 173; 225; 230;
   244; 229; 242; 186; 0; 64; 246; 229; 242; 186; 0; 65; 173; 227; 239; 239; 235; 233; 229; 186; 0; 66; 242;
   233; 227; 244; 173; 244; 242; 225; 238; 243; 240; 239; 242; 244; 173; 243; 229; 227; 245; 242; 233; 244;
   249; 186; 0; 67; 114; 7; 0; 101; 136; 0; 8].

Definition lextable_5 : bytes :=
  [225; 238; 243; 230; 229; 242; 173; 229; 238; 227; 239; 228; 233; 238; 231; 186; 0; 68; 229; 242; 173; 225;
   231; 229; 238; 244; 186; 0; 69; 97; 7; 0; 105; 9; 0; 8; 242; 249; 186; 0; 70; 225; 186; 0; 71; 247; 247;
   173; 225; 245; 244; 232; 229; 238; 244; 233; 227; 225; 244; 229; 186; 0; 72; 244; 227; 232; 0; 73; 244; 0;
   74; 236; 229; 244; 229; 0; 75; 233; 173; 225; 242; 231; 243; 0; 76; 0; 77; 173; 114; 10; 0; 102; 19; 0;
   97; 61; 0; 8; 229; 225; 236; 173; 233; 240; 186; 0; 78; 160; 0; 79; 239; 242; 247; 225; 242; 228; 229;
   228; 173; 230; 239; 242; 186; 0; 80; 0; 81; 225; 228; 160; 0; 82; 186; 0; 83; 236; 225; 249; 173; 238;
   239; 238; 227; 229; 186; 0; 84; 239; 244; 239; 227; 239; 236; 0; 85; 245; 244; 232; 173; 244; 239; 235;
   229; 238; 186; 0; 86].

(** The concatenation, as the parser includes it. *)
Definition lextable : bytes :=
  lextable_0 ++ lextable_1 ++ lextable_2 ++ lextable_3 ++ lextable_4 ++ lextable_5.

(** The strings the table was generated from; the position of a string is its
    token index. *)
Definition lex_strings : list bytes :=
  [str "get "; str "post "; str "options "; str "host:"; str "connection:"; str "upgrade:"; str "origin:";
   str "sec-websocket-draft:"; [13; 10]; str "sec-websocket-extensions:"; str "sec-websocket-key1:";
   str "sec-websocket-key2:"; str "sec-websocket-protocol:"; str "sec-websocket-accept:";
   str "sec-websocket-nonce:"; str "http/1.1 "; str "http2-settings:"; str "accept:";
   str "access-control-request-headers:"; str "if-modified-since:"; str "if-none-match:";
   str "accept-encoding:"; str "accept-language:"; str "pragma:"; str "cache-control:"; str "authorization:";
   str "cookie:"; str "content-length:"; str "content-type:"; str "date:"; str "range:"; str "referer:";
   str "sec-websocket-key:"; str "sec-websocket-version:"; str "sec-websocket-origin:"; str ":authority";
   str ":method"; str ":path"; str ":scheme"; str ":status"; str "accept-charset:"; str "accept-ranges:";
   str "access-control-allow-origin:"; str "age:"; str "allow:"; str "content-disposition:";
   str "content-encoding:"; str "content-language:"; str "content-location:"; str "content-range:";
   str "etag:"; str "expect:"; str "expires:"; str "from:"; str "if-match:"; str "if-range:";
   str "if-unmodified-since:"; str "last-modified:"; str "link:"; str "location:"; str "max-forwards:";
   str "proxy-authenticate:"; str "proxy-authorization:"; str "refresh:"; str "retry-after:"; str "server:";
   str "set-cookie:"; str "strict-transport-security:"; str "transfer-encoding:"; str "user-agent:";
   str "vary:"; str "via:"; str "www-authenticate:"; str "patch"; str "put"; str "delete"; str "uri-args";
   str "proxy "; str "x-real-ip:"; str "http/1.0 "; str "x-forwarded-for:"; str "connect "; str "head ";
   str "te:"; str "replay-nonce:"; str ":protocol"; str "x-auth-token:"; []].

Definition FAIL_CHAR : Z := 8.

Definition lex_at (pos : Z) : res fault Z :=
  match (if pos <? 0 then None else lextable !! Z.to_nat pos) with
  | Some b => Ok b
  | None => Err bad_access
  end.

(** ** The walk

    The loop of [WSI_TOKEN_NAME_PART]: where the character [c] leads from
    [pos] (-1: nowhere), and whether the loop stopped because [pos] itself is
    a terminal marker. *)
Fixpoint lex_loop (fuel : nat) (pos c : Z) : res fault (Z * bool) :=
  match fuel with
  | O => Err no_fuel
  | S fuel =>
    b ← lex_at pos;
    if nz (Z.land b 128) then
      if negb (Z.land b 127 =? c) then Ok (-1, false)
      else
        b' ← lex_at (pos + 1);
        if b' =? FAIL_CHAR then Ok (-1, false) else Ok (pos + 1, false)
    else if b =? FAIL_CHAR then Ok (-1, false)
    else if b <? FAIL_CHAR then Ok (pos, true)
    else if b =? c then
      b1 ← lex_at (pos + 1);
      b2 ← lex_at (pos + 2);
      Ok (pos + b1 + Z.shiftl b2 8, false)
    else lex_loop fuel (pos + 3) c
  end.

(** A state of the trie has at most 30 branches ([PARALLEL] of the generator). *)
Definition lex_fuel : nat := 32.

Definition lex_next (pos c : Z) : res fault (Z * bool) := lex_loop lex_fuel pos c.

(** The token of a terminal marker. *)
Definition lex_token (pos : Z) : res fault (option Z) :=
  b ← lex_at pos;
  if b <? FAIL_CHAR then
    b1 ← lex_at (pos + 1);
    Ok (Some (Z.lor (Z.shiftl b 8) b1))
  else Ok None.

(** A whole name walked from [pos]: its token when the terminal marker is
    reached with the last character and not before. *)
Definition lex_step (pos c : Z) : option Z :=
  match lex_token pos, lex_next pos c with
  | Ok None, Ok (p, false) => if p <? 0 then None else Some p
  | _, _ => None
  end.

Definition lex_walk (pos : option Z) (s : bytes) : option Z :=
  fold_left (fun o c => p ← o; lex_step p c) s pos.

Definition lex_word (pos : Z) (s : bytes) : option Z :=
  p ← lex_walk (Some pos) s;
  match lex_token p with Ok t => t | Err _ => None end.

(** ** The words of the trie *)

(** The branches of a state, in the order the loop tries them. *)
Fixpoint children (fuel : nat) (pos : Z) : option (list (Z * Z)) :=
  match fuel with
  | O => None
  | S fuel =>
    match lex_at pos with
    | Err _ => None
    | Ok b =>
      if nz (Z.land b 128) then
        match lex_at (pos + 1) with
        | Err _ => None
        | Ok b' => Some (if b' =? FAIL_CHAR then [] else [(Z.land b 127, pos + 1)])
        end
      else if b =? FAIL_CHAR then Some []
      else if b <? FAIL_CHAR then None
      else
        match lex_at (pos + 1), lex_at (pos + 2) with
        | Ok b1, Ok b2 => rest ← children fuel (pos + 3); Some ((b, pos + b1 + Z.shiftl b2 8) :: rest)
        | _, _ => None
        end
    end
  end.

Fixpoint branch (c : Z) (l : list (Z * Z)) : option Z :=
  match l with
  | [] => None
  | (b, p) :: l => if b =? c then Some p else branch c l
  end.

Definition branches_ok (l : list (Z * Z)) : bool :=
  bool_decide (NoDup l.*1) && forallb (fun p => 0 <=? p.2) l.

(** Every word from [pos] with its token, [None] when the walk could leave
    the table or be too deep. *)
Fixpoint words (fuel : nat) (pos : Z) : option (list (bytes * Z)) :=
  match fuel with
  | O => None
  | S fuel =>
    match lex_token pos with
    | Err _ => None
    | Ok (Some n) => Some [([], n)]
    | Ok None =>
      l ← children lex_fuel pos;
      if branches_ok l then
        wss ← mapM (fun cp => ws ← words fuel cp.2; Some (map (prod_map (cons cp.1) id) ws)) l;
        Some (concat wss)
      else None
    end
  end.

(** ** Lemmas *)

#[local] Opaque lextable.

Lemma children_spec fuel pos l c :
  children fuel pos = Some l -> lex_loop fuel pos c = Ok (default (-1) (branch c l), false).
Proof.
  revert pos l. induction fuel as [|fuel IH]; intros pos l; cbn [children lex_loop]; [done|].
  destruct (lex_at pos) as [b|]; [|done]. cbn [mbind res_bind].
  destruct (nz (Z.land b 128)).
  { destruct (lex_at (pos + 1)) as [b'|]; [|done]. intros [= <-].
    destruct (b' =? FAIL_CHAR) eqn:E, (Z.land b 127 =? c) eqn:E'; cbn [branch negb mbind res_bind];
      rewrite ?E, ?E'; done. }
  destruct (Z.eqb_spec b FAIL_CHAR); [by intros [= <-]|].
  destruct (Z.ltb_spec b FAIL_CHAR); [done|].
  destruct (lex_at (pos + 1)) as [b1|]; [|done]. destruct (lex_at (pos + 2)) as [b2|]; [|done].
  destruct (children fuel (pos + 3)) as [rest|] eqn:Er; cbn [mbind option_bind]; [|done]. intros [= <-].
  cbn [branch mbind res_bind].
  destruct (Z.eqb_spec b c); [done|]. by apply IH.
Qed.

Lemma branch_elem c p l : NoDup l.*1 -> branch c l = Some p <-> (c, p) ∈ l.
Proof.
  induction l as [|[b q] l IH]; cbn; [set_solver|].
  intros [Hb Hl]%NoDup_cons. rewrite elem_of_cons. destruct (Z.eqb_spec b c) as [->|Hne].
  - split; [intros [= ->]; by left|]. intros [[= ->]|Hin]; [done|].
    destruct Hb. apply list_elem_of_fmap. by exists (c, p).
  - rewrite IH by done. split; [by right|]. intros [[= -> ->]|Hin]; done.
Qed.

Lemma lex_next_neg l c p : branches_ok l = true -> branch c l = Some p -> 0 <= p.
Proof.
  intros [Hd Hp]%andb_true_iff Hb. apply bool_decide_eq_true in Hd.
  apply branch_elem in Hb; [|done]. rewrite forallb_forall in Hp.
  apply Z.leb_le. apply (Hp (c, p)). by apply list_elem_of_In.
Qed.

Lemma lex_walk_None s : lex_walk None s = None.
Proof. induction s; done. Qed.

Lemma lex_word_nil pos : lex_word pos [] = match lex_token pos with Ok t => t | Err _ => None end.
Proof. reflexivity. Qed.

Lemma lex_word_cons pos c s : lex_word pos (c :: s) = p ← lex_step pos c; lex_word p s.
Proof.
  unfold lex_word, lex_walk. cbn [fold_left mbind option_bind].
  destruct (lex_step pos c); [done|]. by rewrite (lex_walk_None s : fold_left _ s None = None).
Qed.

(** The words through the branches [ch]. *)
Lemma words_concat (W : Z -> option (list (bytes * Z))) ch wss s n :
  (forall p l s n, W p = Some l -> lex_word p s = Some n <-> (s, n) ∈ l) ->
  Forall2 (fun cp ws => (l ← W cp.2; Some (map (prod_map (cons cp.1) id) l)) = Some ws) ch wss ->
  (s, n) ∈ concat wss <-> exists c p s', s = c :: s' /\ (c, p) ∈ ch /\ lex_word p s' = Some n.
Proof.
  intros HW. induction 1 as [|[c p] ws ch wss Hh _ IHm]; cbn.
  { split; [set_solver|]. intros (c & p & s' & _ & H & _). set_solver. }
  rewrite elem_of_app, IHm. apply bind_Some in Hh as (w & Hw & [= <-]). cbn in Hw. split.
  - intros [H|(c' & p' & s' & -> & H & Hr)].
    + apply list_elem_of_fmap in H as ([s' n'] & [= -> ->] & H). exists c, p, s'.
      split; [done|]. split; [by left|]. by apply (HW p w).
    + exists c', p', s'. split; [done|]. split; [by right|done].
  - intros (c' & p' & s' & -> & [[= -> ->]|H]%elem_of_cons & Hr).
    + left. apply list_elem_of_fmap. exists (s', n). split; [done|]. by apply (HW p w).
    + right. by exists c', p', s'.
Qed.

(** [words] lists the walks that succeed, and only those. *)
Lemma words_spec fuel pos l s n :
  words fuel pos = Some l -> lex_word pos s = Some n <-> (s, n) ∈ l.
Proof.
  revert pos l s n. induction fuel as [|fuel IH]; intros pos l s n; cbn [words]; [done|].
  destruct (lex_token pos) as [[m|]|] eqn:Et; [| |done].
  { intros [= <-]. rewrite list_elem_of_singleton. destruct s as [|c s].
    - rewrite lex_word_nil, Et. split; congruence.
    - rewrite lex_word_cons. unfold lex_step. rewrite Et. split; [done|congruence]. }
  destruct (children lex_fuel pos) as [ch|] eqn:Ec; cbn [mbind option_bind]; [|done].
  destruct (branches_ok ch) eqn:Eb; [|done].
  destruct (mapM _ ch) as [wss|] eqn:Em; cbn [mbind option_bind]; [|done]. intros [= <-].
  apply mapM_Some in Em. pose proof Eb as [Hd _]%andb_true_iff. apply bool_decide_eq_true in Hd.
  rewrite (words_concat (words fuel) ch wss s n IH Em). destruct s as [|c s].
  { rewrite lex_word_nil, Et. split; [done|]. by intros (? & ? & ? & [=] & _). }
  rewrite lex_word_cons. unfold lex_step, lex_next. rewrite Et, (children_spec _ _ _ _ Ec).
  destruct (branch c ch) as [p|] eqn:Ebr; cbn [from_option id].
  - pose proof (lex_next_neg _ _ _ Eb Ebr). destruct (Z.ltb_spec p 0); [lia|].
    split.
    { intros Hr. exists c, p, s. split; [done|]. split; [by apply branch_elem|exact Hr]. }
    intros (c' & p' & s' & [= <- <-] & Hc & Hr). apply branch_elem in Hc; [|done].
    rewrite Ebr in Hc. injection Hc as ->. exact Hr.
  - cbn. split; [done|]. intros (c' & p' & s' & [= <- <-] & Hc & Hr).
    apply branch_elem in Hc; [|done]. congruence.
Qed.

(** ** No walk leaves the table *)

Definition WSI_TOKEN_TABLE : Z := 87.

(** The states below [pos] are all in the table and their tokens are known
    ones. *)
Definition lex_ok (pos : Z) : Prop :=
  0 <= pos /\ exists fuel l, words fuel pos = Some l /\ Forall (fun w => 0 <= w.2 < WSI_TOKEN_TABLE) l.

(** From such a state the loop ends within its bound, at no state or at
    another one of them, and never stops on a terminal marker it started at. *)
Lemma lex_ok_next pos c :
  lex_ok pos -> lex_token pos = Ok None ->
  exists q, lex_next pos c = Ok (q, false) /\ (q = -1 \/ lex_ok q).
Proof.
  intros (Hpos & [|fuel] & l & Hw & Hl) Et; [done|]. cbn [words] in Hw. rewrite Et in Hw.
  destruct (children lex_fuel pos) as [ch|] eqn:Ec; cbn [mbind option_bind] in Hw; [|done].
  destruct (branches_ok ch) eqn:Eb; [|done].
  destruct (mapM _ ch) as [wss|] eqn:Em; cbn [mbind option_bind] in Hw; [|done].
  injection Hw as <-. apply mapM_Some in Em. unfold lex_next. rewrite (children_spec _ _ _ c Ec).
  destruct (branch c ch) as [p|] eqn:Ebr; cbn [from_option id]; [|by exists (-1); auto].
  exists p. split; [done|]. right. pose proof (lex_next_neg _ _ _ Eb Ebr). split; [done|].
  apply andb_true_iff in Eb as [Hd%bool_decide_eq_true _]. apply branch_elem in Ebr; [|done].
  apply list_elem_of_lookup in Ebr as [i Hi].
  destruct (Forall2_lookup_l _ _ _ _ _ Em Hi) as (ws & Hws & Hb).
  apply bind_Some in Hb as (w & Hw & [= <-]). exists fuel, w. split; [exact Hw|].
  apply Forall_concat in Hl. rewrite Forall_lookup in Hl. specialize (Hl _ _ Hws).
  rewrite Forall_map in Hl. eapply Forall_impl; [exact Hl|]. by intros [].
Qed.

Lemma lex_ok_token pos : lex_ok pos -> exists t, lex_token pos = Ok t /\
  match t with Some n => 0 <= n < WSI_TOKEN_TABLE | None => True end.
Proof.
  intros (_ & [|fuel] & l & Hw & Hl); [done|]. cbn [words] in Hw.
  destruct (lex_token pos) as [[n|]|]; [|by exists None|done].
  injection Hw as <-. exists (Some n). split; [done|]. by inversion_clear Hl.
Qed.

#[local] Transparent lextable.

(** The words of the whole table, in the order of the trie. *)
Definition all_words : list (bytes * Z) := Eval vm_compute in default [] (words 40 0).

Lemma all_words_spec : words 40 0 = Some all_words.
Proof. vm_compute. reflexivity. Qed.

Lemma lex_ok_0 : lex_ok 0.
Proof.
  split; [done|]. exists 40%nat, all_words. split; [exact all_words_spec|].
  apply (bool_decide_unpack _). vm_compute. reflexivity.
Qed.

Definition indexed_strings : list (bytes * Z) :=
  filter (fun w => w.1 <> []) (zip lex_strings (Z.of_nat <$> seq 0 (length lex_strings))).

(** C23: the generated trie is equivalent to the list it was generated from:
    walked from its start, it recognises a string as token [n] exactly when
    the string is entry [n] of the list and not empty. *)
Theorem lextable_equiv (s : bytes) (n : Z) :
  lex_word 0 s = Some n <-> 0 <= n /\ lex_strings !! Z.to_nat n = Some s /\ s <> [].
Proof.
  rewrite (words_spec _ _ _ _ _ all_words_spec).
  assert (all_words ⊆ indexed_strings /\ indexed_strings ⊆ all_words) as [H1 H2].
  { split; unfold subseteq, list_subseteq; setoid_rewrite <- Forall_forall;
      apply (bool_decide_unpack _); vm_compute; reflexivity. }
  trans ((s, n) ∈ indexed_strings); [split; [apply H1 | apply H2]|].
  unfold indexed_strings. rewrite list_elem_of_filter, list_elem_of_lookup. cbn [fst].
  setoid_rewrite lookup_zip_Some. setoid_rewrite list_lookup_fmap_Some. setoid_rewrite lookup_seq.
  split.
  - intros (Hne & i & Hi & x & -> & -> & Hx). rewrite Nat2Z.id. split; [lia|done].
  - intros (Hn & Hs & Hne). split; [done|]. exists (Z.to_nat n). split; [done|].
    exists (Z.to_nat n). apply lookup_lt_Some in Hs as Hlt. split; [lia|]. split; [lia|done].
Qed.

End HttpLex.
