(* ===== verification/HttpParse.v ===== *)
(** * The HTTP/1 header parser (libwebsockets lib/roles/http/server/parsers.c)

    The header table of a connection ([struct allocated_headers]) with its data
    area, its fragments and their links, and the character-at-a-time parser
    that fills it: URI unescaping and sanitation, header names through the
    table of HttpLex, values, repeated headers, and headers that are not
    known, which are kept in a list inside the data area.

    Every access to an array is checked: one outside the array is the fault
    [bad_access], a failed [assert] is [assert_fails].  Positions are not
    wrapped at 32 bits; HttpParseSafe shows that they stay within one of the
    size of the data area. *)

From S2P Require Import Prelude CLib HttpLex.

Module HttpParse.
Export HttpLex.

(** ** State *)

Inductive uri_path_states := URIPS_IDLE | URIPS_SEEN_SLASH | URIPS_SEEN_SLASH_DOT | URIPS_SEEN_SLASH_DOT_DOT.
Inductive uri_esc_states := URIES_IDLE | URIES_SEEN_PERCENT | URIES_SEEN_PERCENT_H1.

#[global] Instance uri_path_states_eq_dec : EqDecision uri_path_states.
Proof. solve_decision. Defined.
#[global] Instance uri_esc_states_eq_dec : EqDecision uri_esc_states.
Proof. solve_decision. Defined.

(** [struct lws_fragments]: [nfrag] of the source is [fnext] here, the
    fragment that continues this one, or 0. *)
Record frag := mk_frag { offset : Z; flen : Z; fnext : Z; fflags : Z }.

Definition frag0 : frag := mk_frag 0 0 0 0.
Definition set_flen (v : Z) (f : frag) : frag := mk_frag (offset f) v (fnext f) (fflags f).
Definition set_fnext (v : Z) (f : frag) : frag := mk_frag (offset f) (flen f) v (fflags f).

Record allocated_headers := mk_ah {
  data : bytes;
  frags : list frag;
  frag_index : list Z;
  hdr_token_idx : Z;
  pos : Z;
  http_response : Z;
  current_token_limit : Z;
  unk_pos : Z;
  unk_value_pos : Z;
  unk_ll_head : Z;
  unk_ll_tail : Z;
  lextable_pos : Z;
  nfrag : Z;
  ups : uri_path_states;
  ues : uri_esc_states;
  esc_stash : Z;
  post_literal_equal : bool;
  parser_state : Z
}.

Definition set_data (v : bytes) (a : allocated_headers) : allocated_headers :=
  mk_ah v (frags a) (frag_index a) (hdr_token_idx a) (pos a) (http_response a) (current_token_limit a)
    (unk_pos a) (unk_value_pos a) (unk_ll_head a) (unk_ll_tail a) (lextable_pos a) (nfrag a) (ups a) (ues a)
    (esc_stash a) (post_literal_equal a) (parser_state a).
Definition set_frags (v : list frag) (a : allocated_headers) : allocated_headers :=
  mk_ah (data a) v (frag_index a) (hdr_token_idx a) (pos a) (http_response a) (current_token_limit a)
    (unk_pos a) (unk_value_pos a) (unk_ll_head a) (unk_ll_tail a) (lextable_pos a) (nfrag a) (ups a) (ues a)
    (esc_stash a) (post_literal_equal a) (parser_state a).
Definition set_frag_index (v : list Z) (a : allocated_headers) : allocated_headers :=
  mk_ah (data a) (frags a) v (hdr_token_idx a) (pos a) (http_response a) (current_token_limit a) (unk_pos a)
    (unk_value_pos a) (unk_ll_head a) (unk_ll_tail a) (lextable_pos a) (nfrag a) (ups a) (ues a)
    (esc_stash a) (post_literal_equal a) (parser_state a).
Definition set_hdr_token_idx (v : Z) (a : allocated_headers) : allocated_headers :=
  mk_ah (data a) (frags a) (frag_index a) v (pos a) (http_response a) (current_token_limit a) (unk_pos a)
    (unk_value_pos a) (unk_ll_head a) (unk_ll_tail a) (lextable_pos a) (nfrag a) (ups a) (ues a)
    (esc_stash a) (post_literal_equal a) (parser_state a).
Definition set_pos (v : Z) (a : allocated_headers) : allocated_headers :=
  mk_ah (data a) (frags a) (frag_index a) (hdr_token_idx a) v (http_response a) (current_token_limit a)
    (unk_pos a) (unk_value_pos a) (unk_ll_head a) (unk_ll_tail a) (lextable_pos a) (nfrag a) (ups a) (ues a)
    (esc_stash a) (post_literal_equal a) (parser_state a).
Definition set_http_response (v : Z) (a : allocated_headers) : allocated_headers :=
  mk_ah (data a) (frags a) (frag_index a) (hdr_token_idx a) (pos a) v (current_token_limit a) (unk_pos a)
    (unk_value_pos a) (unk_ll_head a) (unk_ll_tail a) (lextable_pos a) (nfrag a) (ups a) (ues a)
    (esc_stash a) (post_literal_equal a) (parser_state a).
Definition set_current_token_limit (v : Z) (a : allocated_headers) : allocated_headers :=
  mk_ah (data a) (frags a) (frag_index a) (hdr_token_idx a) (pos a) (http_response a) v (unk_pos a)
    (unk_value_pos a) (unk_ll_head a) (unk_ll_tail a) (lextable_pos a) (nfrag a) (ups a) (ues a)
    (esc_stash a) (post_literal_equal a) (parser_state a).
Definition set_unk_pos (v : Z) (a : allocated_headers) : allocated_headers :=
  mk_ah (data a) (frags a) (frag_index a) (hdr_token_idx a) (pos a) (http_response a) (current_token_limit a)
    v (unk_value_pos a) (unk_ll_head a) (unk_ll_tail a) (lextable_pos a) (nfrag a) (ups a) (ues a)
    (esc_stash a) (post_literal_equal a) (parser_state a).
Definition set_unk_value_pos (v : Z) (a : allocated_headers) : allocated_headers :=
  mk_ah (data a) (frags a) (frag_index a) (hdr_token_idx a) (pos a) (http_response a) (current_token_limit a)
    (unk_pos a) v (unk_ll_head a) (unk_ll_tail a) (lextable_pos a) (nfrag a) (ups a) (ues a) (esc_stash a)
    (post_literal_equal a) (parser_state a).
Definition set_unk_ll_head (v : Z) (a : allocated_headers) : allocated_headers :=
  mk_ah (data a) (frags a) (frag_index a) (hdr_token_idx a) (pos a) (http_response a) (current_token_limit a)
    (unk_pos a) (unk_value_pos a) v (unk_ll_tail a) (lextable_pos a) (nfrag a) (ups a) (ues a) (esc_stash a)
    (post_literal_equal a) (parser_state a).
Definition set_unk_ll_tail (v : Z) (a : allocated_headers) : allocated_headers :=
  mk_ah (data a) (frags a) (frag_index a) (hdr_token_idx a) (pos a) (http_response a) (current_token_limit a)
    (unk_pos a) (unk_value_pos a) (unk_ll_head a) v (lextable_pos a) (nfrag a) (ups a) (ues a) (esc_stash a)
    (post_literal_equal a) (parser_state a).
Definition set_lextable_pos (v : Z) (a : allocated_headers) : allocated_headers :=
  mk_ah (data a) (frags a) (frag_index a) (hdr_token_idx a) (pos a) (http_response a) (current_token_limit a)
    (unk_pos a) (unk_value_pos a) (unk_ll_head a) (unk_ll_tail a) v (nfrag a) (ups a) (ues a) (esc_stash a)
    (post_literal_equal a) (parser_state a).
Definition set_nfrag (v : Z) (a : allocated_headers) : allocated_headers :=
  mk_ah (data a) (frags a) (frag_index a) (hdr_token_idx a) (pos a) (http_response a) (current_token_limit a)
    (unk_pos a) (unk_value_pos a) (unk_ll_head a) (unk_ll_tail a) (lextable_pos a) v (ups a) (ues a)
    (esc_stash a) (post_literal_equal a) (parser_state a).
Definition set_ups (v : uri_path_states) (a : allocated_headers) : allocated_headers :=
  mk_ah (data a) (frags a) (frag_index a) (hdr_token_idx a) (pos a) (http_response a) (current_token_limit a)
    (unk_pos a) (unk_value_pos a) (unk_ll_head a) (unk_ll_tail a) (lextable_pos a) (nfrag a) v (ues a)
    (esc_stash a) (post_literal_equal a) (parser_state a).
Definition set_ues (v : uri_esc_states) (a : allocated_headers) : allocated_headers :=
  mk_ah (data a) (frags a) (frag_index a) (hdr_token_idx a) (pos a) (http_response a) (current_token_limit a)
    (unk_pos a) (unk_value_pos a) (unk_ll_head a) (unk_ll_tail a) (lextable_pos a) (nfrag a) (ups a) v
    (esc_stash a) (post_literal_equal a) (parser_state a).
Definition set_esc_stash (v : Z) (a : allocated_headers) : allocated_headers :=
  mk_ah (data a) (frags a) (frag_index a) (hdr_token_idx a) (pos a) (http_response a) (current_token_limit a)
    (unk_pos a) (unk_value_pos a) (unk_ll_head a) (unk_ll_tail a) (lextable_pos a) (nfrag a) (ups a) (ues a)
    v (post_literal_equal a) (parser_state a).
Definition set_post_literal_equal (v : bool) (a : allocated_headers) : allocated_headers :=
  mk_ah (data a) (frags a) (frag_index a) (hdr_token_idx a) (pos a) (http_response a) (current_token_limit a)
    (unk_pos a) (unk_value_pos a) (unk_ll_head a) (unk_ll_tail a) (lextable_pos a) (nfrag a) (ups a) (ues a)
    (esc_stash a) v (parser_state a).
Definition set_parser_state (v : Z) (a : allocated_headers) : allocated_headers :=
  mk_ah (data a) (frags a) (frag_index a) (hdr_token_idx a) (pos a) (http_response a) (current_token_limit a)
    (unk_pos a) (unk_value_pos a) (unk_ll_head a) (unk_ll_tail a) (lextable_pos a) (nfrag a) (ups a) (ues a)
    (esc_stash a) (post_literal_equal a) v.

(** What the parser reads of the wsi's context, role and vhost. *)
Record parse_env := mk_parse_env {
  max_http_header_data : Z;
  token_limits : option (list Z);
  role_h1_server : bool;      (* lwsi_role_h1(wsi) && lwsi_role_server(wsi) *)
  fallback : bool             (* LWS_SERVER_OPTION_FALLBACK_TO_APPLY_LISTEN_ACCEPT_CONFIG *)
}.

(** The members of the wsi the parser changes; [statuses] are the codes given
    to [lws_return_http_status]. *)
Record wsi := mk_wsi {
  ah : allocated_headers;
  rx_frame_type : Z;
  hdr_parsing_completed : bool;
  statuses : list Z
}.

Definition set_ah (v : allocated_headers) (w : wsi) : wsi :=
  mk_wsi v (rx_frame_type w) (hdr_parsing_completed w) (statuses w).

(** Token indexes the code names, and the parser states after them. *)
Definition WSI_TOKEN_GET_URI : Z := 0.
Definition WSI_TOKEN_POST_URI : Z := 1.
Definition WSI_TOKEN_OPTIONS_URI : Z := 2.
Definition WSI_TOKEN_HOST : Z := 3.
Definition WSI_TOKEN_CONNECTION : Z := 4.
Definition WSI_TOKEN_UPGRADE : Z := 5.
Definition WSI_TOKEN_ORIGIN : Z := 6.
Definition WSI_TOKEN_CHALLENGE : Z := 8.
Definition WSI_TOKEN_PROTOCOL : Z := 12.
Definition WSI_TOKEN_HTTP : Z := 15.
Definition WSI_TOKEN_HTTP_COOKIE : Z := 26.
Definition WSI_TOKEN_KEY : Z := 32.
Definition WSI_TOKEN_VERSION : Z := 33.
Definition WSI_TOKEN_SWORIGIN : Z := 34.
Definition WSI_TOKEN_HTTP_USER_AGENT : Z := 69.
Definition WSI_TOKEN_PATCH_URI : Z := 73.
Definition WSI_TOKEN_PUT_URI : Z := 74.
Definition WSI_TOKEN_DELETE_URI : Z := 75.
Definition WSI_TOKEN_HTTP_URI_ARGS : Z := 76.
Definition WSI_TOKEN_CONNECT : Z := 81.
Definition WSI_TOKEN_HEAD_URI : Z := 82.
Definition WSI_TOKEN_COUNT : Z := 95.
Definition WSI_TOKEN_NAME_PART : Z := 96.
Definition WSI_TOKEN_UNKNOWN_VALUE_PART : Z := 97.
Definition WSI_TOKEN_SKIPPING : Z := 98.
Definition WSI_TOKEN_SKIPPING_SAW_CR : Z := 99.
Definition WSI_PARSING_COMPLETE : Z := 100.

Definition LPR_OK : Z := 0.
Definition LPR_FAIL : Z := -1.
Definition LPR_DO_FALLBACK : Z := 2.
Definition LPR_FORBIDDEN : Z := -2.

Definition UHO_NLEN : Z := 0.
Definition UHO_VLEN : Z := 2.
Definition UHO_LL : Z := 4.
Definition UHO_NAME : Z := 8.

(** ** Checked accesses *)

Definition at_index {A} (l : list A) (i : Z) : res fault A :=
  match (if i <? 0 then None else l !! Z.to_nat i) with Some x => Ok x | None => Err bad_access end.

Definition put_index {A} (l : list A) (i : Z) (x : A) : res fault (list A) :=
  if (0 <=? i) && (i <? Z.of_nat (length l)) then Ok (<[Z.to_nat i := x]> l) else Err bad_access.

Definition put (i c : Z) (a : allocated_headers) : res fault allocated_headers :=
  d ← put_index (data a) i c; Ok (set_data d a).

Definition frag_get (n : Z) (a : allocated_headers) : res fault frag := at_index (frags a) n.

Definition frag_set (n : Z) (f : frag) (a : allocated_headers) : res fault allocated_headers :=
  l ← put_index (frags a) n f; Ok (set_frags l a).

Definition index_get (h : Z) (a : allocated_headers) : res fault Z := at_index (frag_index a) h.

Definition index_set (h n : Z) (a : allocated_headers) : res fault allocated_headers :=
  l ← put_index (frag_index a) h n; Ok (set_frag_index l a).

(** [ah->data[ah->pos++] = c] *)
Definition push (c : Z) (a : allocated_headers) : res fault allocated_headers :=
  a ← put (pos a) c a; Ok (set_pos (pos a + 1) a).

(** The big-endian numbers in the entries of unknown headers. *)
Definition lws_un16be_get (i : Z) (a : allocated_headers) : res fault Z :=
  x ← at_index (data a) i; y ← at_index (data a) (i + 1); Ok (Z.lor (Z.shiftl x 8) y).

Definition lws_un16be_set (i v : Z) (a : allocated_headers) : res fault allocated_headers :=
  a ← put i (u8 (Z.shiftr (u16 v) 8)) a; put (i + 1) (u8 v) a.

Definition lws_un32be_get (i : Z) (a : allocated_headers) : res fault Z :=
  p0 ← at_index (data a) i; p1 ← at_index (data a) (i + 1);
  p2 ← at_index (data a) (i + 2); p3 ← at_index (data a) (i + 3);
  Ok (u32 (Z.lor (Z.lor (Z.lor (Z.shiftl p0 24) (Z.shiftl p1 16)) (Z.shiftl p2 8)) p3)).

Definition lws_un32be_set (i v : Z) (a : allocated_headers) : res fault allocated_headers :=
  a ← put i (u8 (Z.shiftr v 24)) a; a ← put (i + 1) (u8 (Z.shiftr v 16)) a;
  a ← put (i + 2) (u8 (Z.shiftr v 8)) a; put (i + 3) (u8 v) a.

(** ** Creating and resetting a header table *)

(** [_lws_create_ah]: a zeroed struct; [d] is what the allocator left in the
    data area. *)
Definition _lws_create_ah (d : bytes) : allocated_headers :=
  mk_ah d (replicate (Z.to_nat WSI_TOKEN_COUNT) frag0) (replicate (Z.to_nat WSI_TOKEN_COUNT) 0)
    0 0 0 0 0 0 0 0 0 0 URIPS_IDLE URIES_IDLE 0 false 0.

Definition _lws_header_table_reset (a : allocated_headers) : allocated_headers :=
  let a := set_frag_index (replicate (Z.to_nat WSI_TOKEN_COUNT) 0) a in
  let a := set_frags (replicate (Z.to_nat WSI_TOKEN_COUNT) frag0) a in
  let a := set_nfrag 0 a in
  let a := set_pos 0 a in
  let a := set_http_response 0 a in
  let a := set_parser_state WSI_TOKEN_NAME_PART a in
  let a := set_lextable_pos 0 a in
  let a := set_unk_pos 0 a in
  let a := set_unk_ll_head 0 a in
  set_unk_ll_tail 0 a.

(** ** Reading a header table *)

(** The string at a position of the data area, up to its NUL. *)
Fixpoint c_string (d : bytes) : res fault bytes :=
  match d with
  | [] => Err bad_access
  | c :: d => if c =? 0 then Ok [] else s ← c_string d; Ok (c :: s)
  end.

Definition string_at (i : Z) (a : allocated_headers) : res fault bytes :=
  if i <? 0 then Err bad_access else c_string (drop (Z.to_nat i) (data a)).

(** A table has fewer than [WSI_TOKEN_COUNT] fragments, which bounds every
    walk along the links. *)
Definition chain_fuel : nat := Z.to_nat WSI_TOKEN_COUNT.

Fixpoint fragment_length_loop (fuel : nat) (n frag_idx : Z) (a : allocated_headers) : res fault Z :=
  match fuel with
  | O => Err no_fuel
  | S fuel =>
    f ← frag_get n a;
    if frag_idx =? 0 then Ok (flen f)
    else if nz (fnext f) then fragment_length_loop fuel (fnext f) (frag_idx - 1) a else Ok 0
  end.

Definition lws_hdr_fragment_length (h frag_idx : Z) (a : allocated_headers) : res fault Z :=
  n ← index_get h a;
  if n =? 0 then Ok 0 else fragment_length_loop chain_fuel n frag_idx a.

Fixpoint total_length_loop (fuel : nat) (n h l : Z) (a : allocated_headers) : res fault Z :=
  match fuel with
  | O => Err no_fuel
  | S fuel =>
    f ← frag_get n a;
    let l := l + flen f in
    if nz (fnext f) then
      total_length_loop fuel (fnext f) h (if negb (h =? WSI_TOKEN_HTTP_COOKIE) then l + 1 else l) a
    else Ok l
  end.

Definition lws_hdr_total_length (h : Z) (a : allocated_headers) : res fault Z :=
  n ← index_get h a;
  if n =? 0 then Ok 0 else total_length_loop chain_fuel n h 0 a.

Definition lws_hdr_simple_ptr (h : Z) (a : allocated_headers) : res fault (option bytes) :=
  n ← index_get h a;
  if n =? 0 then Ok None
  else f ← frag_get n a; s ← string_at (offset f) a; Ok (Some s).

(** [memcpy] out of the data area. *)
Definition data_slice (off l : Z) (a : allocated_headers) : res fault bytes :=
  if (0 <=? off) && (0 <=? l) && (off + l <=? len (data a))
  then Ok (take (Z.to_nat l) (drop (Z.to_nat off) (data a))) else Err bad_access.

Fixpoint nth_fragment (fuel : nat) (f n frag_idx : Z) (a : allocated_headers) : res fault (option Z) :=
  match fuel with
  | O => Err no_fuel
  | S fuel =>
    if n <? frag_idx then
      fr ← frag_get f a;
      if fnext fr =? 0 then Ok None else nth_fragment fuel (fnext fr) (n + 1) frag_idx a
    else Ok (Some f)
  end.

(** The return value and the string left in the destination. *)
Definition lws_hdr_copy_fragment (size h frag_idx : Z) (a : allocated_headers) : res fault (Z * bytes) :=
  f ← index_get h a;
  if f =? 0 then Ok (-1, [])
  else
    o ← nth_fragment (S chain_fuel) f 0 frag_idx a;
    match o with
    | None => Ok (-1, [])
    | Some f =>
      fr ← frag_get f a;
      if flen fr >=? size then Ok (-1, [])
      else d ← data_slice (offset fr) (flen fr) a; Ok (flen fr, d)
    end.

(** [strncpy(dst, src, n)] as far as [dst + n] goes: the source up to its NUL,
    filled up with NULs. *)
Definition strncpy (d : bytes) (n : Z) : bytes :=
  let s := take (Z.to_nat n) (c_str d) in
  s ++ replicate (Z.to_nat n - length s) 0.

Fixpoint hdr_copy_loop (fuel : nat) (n h size : Z) (dst : bytes) (a : allocated_headers)
  : res fault (option bytes) :=
  match fuel with
  | O => Err no_fuel
  | S fuel =>
    f ← frag_get n a;
    let comma := nz (fnext f) && negb (h =? WSI_TOKEN_HTTP_COOKIE) in
    if flen f + b2z comma >=? size then Ok None
    else
      d ← data_slice (offset f) (flen f) a;
      let dst := dst ++ strncpy d (flen f) in
      let dst := if comma then dst ++ [44] else dst in
      if nz (fnext f) then hdr_copy_loop fuel (fnext f) h (size - flen f) dst a else Ok (Some dst)
  end.

Definition lws_hdr_copy (size h : Z) (a : allocated_headers) : res fault (Z * bytes) :=
  toklen ← lws_hdr_total_length h a;
  if toklen =? 0 then Ok (0, [])
  else if toklen >=? size then Ok (-1, [])
  else
    n ← index_get h a;
    if n =? 0 then Ok (0, [])
    else
      o ← hdr_copy_loop chain_fuel n h size [] a;
      match o with None => Ok (-1, []) | Some d => Ok (toklen, d) end.

(** The walk along the list of unknown headers: the entry with that name. *)
Fixpoint custom_loop (fuel : nat) (ll : Z) (name : bytes) (nlen : Z) (a : allocated_headers)
  : res fault (option Z) :=
  match fuel with
  | O => Err no_fuel
  | S fuel =>
    if ll =? 0 then Ok None
    else if ll >=? len (data a) then Ok None
    else
      n ← lws_un16be_get (ll + UHO_NLEN) a;
      d ← (if nlen =? n then data_slice (ll + UHO_NAME) nlen a else Ok []);
      if (nlen =? n) && beqb (c_str (take (Z.to_nat nlen) name)) (c_str d) then Ok (Some ll)
      else
        ll ← lws_un32be_get (ll + UHO_LL) a;
        custom_loop fuel ll name nlen a
  end.

(** Each entry takes more than [UHO_NAME] bytes. *)
Definition custom_fuel (a : allocated_headers) : nat := S (length (data a)).

Definition lws_hdr_custom_length (http2_substream : bool) (name : bytes) (nlen : Z) (a : allocated_headers)
  : res fault Z :=
  if http2_substream then Ok (-1)
  else
    o ← custom_loop (custom_fuel a) (unk_ll_head a) name nlen a;
    match o with None => Ok (-1) | Some ll => lws_un16be_get (ll + UHO_VLEN) a end.

Definition lws_hdr_custom_copy (http2_substream : bool) (size : Z) (name : bytes) (nlen : Z)
  (a : allocated_headers) : res fault (Z * bytes) :=
  if http2_substream then Ok (-1, [])
  else
    o ← custom_loop (custom_fuel a) (unk_ll_head a) name nlen a;
    match o with
    | None => Ok (-1, [])
    | Some ll =>
      n ← lws_un16be_get (ll + UHO_VLEN) a;
      if n + 1 >? size then Ok (-1, [])
      else d ← data_slice (ll + UHO_NAME + nlen) n a; Ok (n, strncpy d n)
    end.

(** ** The parser *)

Section Parse.
Context (E : parse_env).

Definition lws_pos_in_bounds (a : allocated_headers) : res fault Z :=
  if pos a <? max_http_header_data E then Ok 0
  else if pos a =? max_http_header_data E then Ok 1
  else Err assert_fails.

(** A header given as a string by the rest of the library: the copy loop,
    then the whole. *)
Fixpoint simple_create_loop (s : bytes) (a : allocated_headers) : res fault (Z * allocated_headers) :=
  r ← lws_pos_in_bounds a;
  if nz r then Ok (-1, a)
  else
    match s with
    | [] => a ← push 0 a; Ok (0, a)
    | c :: s =>
      a ← push c a;
      f ← frag_get (nfrag a) a;
      a ← frag_set (nfrag a) (set_flen (u16 (flen f + 1)) f) a;
      simple_create_loop s a
    end.

Definition lws_hdr_simple_create (h : Z) (s : bytes) (a : allocated_headers)
  : res fault (Z * allocated_headers) :=
  let a := set_nfrag (u8 (nfrag a + 1)) a in
  if nfrag a =? WSI_TOKEN_COUNT then Ok (-1, a)
  else
    a ← index_set h (nfrag a) a;
    f ← frag_get (nfrag a) a;
    a ← frag_set (nfrag a) (mk_frag (pos a) 0 0 (fflags f)) a;
    simple_create_loop (c_str s) a.

Definition issue_char (c : Z) (a : allocated_headers) : res fault (Z * allocated_headers) :=
  r ← lws_pos_in_bounds a;
  if nz r then Ok (-1, a)
  else
    f ← frag_get (nfrag a) a;
    let frag_len := flen f in
    if (current_token_limit a =? 0) || (frag_len <? current_token_limit a) then
      a ← push c a;
      a ← (if nz c then frag_set (nfrag a) (set_flen (u16 (frag_len + 1)) f) a else Ok a);
      Ok (0, a)
    else if frag_len =? current_token_limit a then
      r ← lws_pos_in_bounds a;
      if nz r then Ok (-1, a) else a ← push 0 a; Ok (1, a)
    else Ok (1, a).

(** [char_to_hex] of lib/core/libwebsockets.c; its argument is a signed
    char. *)
Definition char_to_hex (c : Z) : Z :=
  if (48 <=? c) && (c <=? 57) then c - 48
  else if (97 <=? c) && (c <=? 102) then c - 97 + 10
  else if (65 <=? c) && (c <=? 70) then c - 65 + 10
  else -1.

Inductive lws_parse_urldecode_results :=
| LPUR_CONTINUE | LPUR_SWALLOW | LPUR_FORBID | LPUR_EXCESSIVE | LPUR_FAIL.

(** Backing up one directory level: the [do] loop, entered after one step
    back; each round takes one character off the fragment. *)
Fixpoint backup_loop (fuel : nat) (a : allocated_headers) : res fault allocated_headers :=
  match fuel with
  | O => Err no_fuel
  | S fuel =>
    f ← frag_get (nfrag a) a;
    let a := set_pos (pos a - 1) a in
    a ← frag_set (nfrag a) (set_flen (flen f - 1) f) a;
    if flen f - 1 >? 1 then
      c ← at_index (data a) (pos a);
      if negb (c =? 47) then backup_loop fuel a else Ok a
    else Ok a
  end.

Definition backup (a : allocated_headers) : res fault allocated_headers :=
  f ← frag_get (nfrag a) a;
  if flen f >? 2 then
    let a := set_pos (pos a - 1) a in
    a ← frag_set (nfrag a) (set_flen (flen f - 1) f) a;
    backup_loop (Z.to_nat (flen f)) a
  else Ok a.

(** Moves to the fragment after the one just sealed; the next character goes
    one further than the NUL. *)
Definition next_fragment (a : allocated_headers) : res fault allocated_headers :=
  let a := set_pos (pos a + 1) a in
  f ← frag_get (nfrag a) a;
  frag_set (nfrag a) (mk_frag (pos a) 0 0 (fflags f)) a.

Definition ret_urldecode (r : lws_parse_urldecode_results) (c : Z) (a : allocated_headers)
  : res fault (lws_parse_urldecode_results * Z * allocated_headers) := Ok (r, c, a).

(** After the switches: the start of the URI arguments. *)
Definition urldecode_args (c : Z) (enc : bool) (a : allocated_headers)
  : res fault (lws_parse_urldecode_results * Z * allocated_headers) :=
  ua ← index_get WSI_TOKEN_HTTP_URI_ARGS a;
  if (c =? 63) && negb enc && (ua =? 0) then
    if negb (bool_decide (ues a = URIES_IDLE)) then ret_urldecode LPUR_FORBID c a
    else
      '(r, a) ← issue_char 0 a;
      if r <? 0 then ret_urldecode LPUR_FAIL c a
      else
        let a := set_nfrag (u8 (nfrag a + 1)) a in
        if nfrag a >=? WSI_TOKEN_COUNT then ret_urldecode LPUR_EXCESSIVE c a
        else
          a ← next_fragment a;
          let a := set_post_literal_equal false a in
          a ← index_set WSI_TOKEN_HTTP_URI_ARGS (nfrag a) a;
          ret_urldecode LPUR_SWALLOW c (set_ups URIPS_IDLE a)
  else ret_urldecode LPUR_CONTINUE c a.

(** [URIPS_IDLE] *)
Definition urldecode_idle (c : Z) (enc : bool) (a : allocated_headers)
  : res fault (lws_parse_urldecode_results * Z * allocated_headers) :=
  if c =? 0 then ret_urldecode LPUR_FAIL c a
  else if ((c =? 38) || (c =? 59)) && negb enc then
    '(r, a) ← issue_char 0 a;
    if r <? 0 then ret_urldecode LPUR_FAIL c a
    else
      f ← frag_get (nfrag a) a;
      a ← frag_set (nfrag a) (set_fnext (u8 (nfrag a + 1)) f) a;
      let a := set_nfrag (u8 (nfrag a + 1)) a in
      if nfrag a >=? WSI_TOKEN_COUNT then ret_urldecode LPUR_EXCESSIVE c a
      else a ← next_fragment (set_post_literal_equal false a); ret_urldecode LPUR_SWALLOW c a
  else
    ua ← index_get WSI_TOKEN_HTTP_URI_ARGS a;
    let c := if (c =? 61) && enc && nz ua && negb (post_literal_equal a) then 95 else c in
    let a := if (c =? 61) && negb enc then set_post_literal_equal true a else a in
    let c := if (c =? 43) && negb enc then 32 else c in
    let a := if (c =? 47) && (ua =? 0) then set_ups URIPS_SEEN_SLASH a else a in
    urldecode_args c enc a.

(** [URIPS_SEEN_SLASH] *)
Definition urldecode_slash (c : Z) (enc : bool) (a : allocated_headers)
  : res fault (lws_parse_urldecode_results * Z * allocated_headers) :=
  if c =? 47 then ret_urldecode LPUR_SWALLOW c a
  else if c =? 46 then ret_urldecode LPUR_SWALLOW c (set_ups URIPS_SEEN_SLASH_DOT a)
  else urldecode_args c enc (set_ups URIPS_IDLE a).

(** [URIPS_SEEN_SLASH_DOT] *)
Definition urldecode_dot (c : Z) (enc : bool) (a : allocated_headers)
  : res fault (lws_parse_urldecode_results * Z * allocated_headers) :=
  if c =? 46 then ret_urldecode LPUR_SWALLOW c (set_ups URIPS_SEEN_SLASH_DOT_DOT a)
  else if c =? 47 then ret_urldecode LPUR_SWALLOW c (set_ups URIPS_SEEN_SLASH a)
  else
    '(r, a) ← issue_char 46 (set_ups URIPS_IDLE a);
    if r <? 0 then ret_urldecode LPUR_FAIL c a else urldecode_args c enc a.

(** [URIPS_SEEN_SLASH_DOT_DOT] *)
Definition urldecode_dot_dot (c : Z) (enc : bool) (a : allocated_headers)
  : res fault (lws_parse_urldecode_results * Z * allocated_headers) :=
  if (c =? 47) || (c =? 63) then
    a ← backup a;
    let a := set_ups URIPS_SEEN_SLASH a in
    f ← frag_get (nfrag a) a;
    if flen f >? 1 then urldecode_args c enc a else ret_urldecode LPUR_SWALLOW c a
  else
    '(r, a) ← issue_char 46 a;
    if r <? 0 then ret_urldecode LPUR_FAIL c a
    else
      '(r, a) ← issue_char 46 a;
      if r <? 0 then ret_urldecode LPUR_FAIL c a else urldecode_args c enc (set_ups URIPS_IDLE a).

Definition urldecode_path (c : Z) (enc : bool) (a : allocated_headers)
  : res fault (lws_parse_urldecode_results * Z * allocated_headers) :=
  match ups a with
  | URIPS_IDLE => urldecode_idle c enc a
  | URIPS_SEEN_SLASH => urldecode_slash c enc a
  | URIPS_SEEN_SLASH_DOT => urldecode_dot c enc a
  | URIPS_SEEN_SLASH_DOT_DOT => urldecode_dot_dot c enc a
  end.

(** The result, the character as it is now, and the table. *)
Definition lws_parse_urldecode (c : Z) (a : allocated_headers)
  : res fault (lws_parse_urldecode_results * Z * allocated_headers) :=
  match ues a with
  | URIES_IDLE =>
    if c =? 37 then ret_urldecode LPUR_SWALLOW c (set_ues URIES_SEEN_PERCENT a) else urldecode_path c false a
  | URIES_SEEN_PERCENT =>
    if char_to_hex c <? 0 then ret_urldecode LPUR_FORBID c a
    else ret_urldecode LPUR_SWALLOW c (set_ues URIES_SEEN_PERCENT_H1 (set_esc_stash c a))
  | URIES_SEEN_PERCENT_H1 =>
    if char_to_hex c <? 0 then ret_urldecode LPUR_FORBID c a
    else
      let c := Z.lor (Z.shiftl (char_to_hex (esc_stash a)) 4) (char_to_hex c) in
      urldecode_path c true (set_ues URIES_IDLE a)
  end.

Definition methods : list Z :=
  [WSI_TOKEN_GET_URI; WSI_TOKEN_POST_URI; WSI_TOKEN_OPTIONS_URI; WSI_TOKEN_PUT_URI;
   WSI_TOKEN_PATCH_URI; WSI_TOKEN_DELETE_URI; WSI_TOKEN_CONNECT; WSI_TOKEN_HEAD_URI].

(** How one round of the loop of [lws_parse] ends. *)
Inductive outcome := Break | Ret (r : Z) | Set_parsing_complete | Forbid.

Definition brk (a : allocated_headers) : res fault (outcome * allocated_headers) := Ok (Break, a).

(** [swallow:] *)
Definition at_swallow (a : allocated_headers) : res fault (outcome * allocated_headers) :=
  if parser_state a =? WSI_TOKEN_CHALLENGE then Ok (Set_parsing_complete, a) else brk a.

(** The last fragment of a chain. *)
Fixpoint last_fragment (fuel : nat) (n : Z) (a : allocated_headers) : res fault Z :=
  match fuel with
  | O => Err no_fuel
  | S fuel => f ← frag_get n a; if nz (fnext f) then last_fragment fuel (fnext f) a else Ok n
  end.

(** [excessive:] *)
Definition at_excessive (a : allocated_headers) : res fault (outcome * allocated_headers) :=
  if nfrag a =? WSI_TOKEN_COUNT then Ok (Ret LPR_FAIL, a)
  else
    a ← frag_set (nfrag a) (mk_frag (pos a) 0 0 2) a;
    n ← index_get (parser_state a) a;
    if n =? 0 then
      a ← index_set (parser_state a) (nfrag a) a;
      brk (set_hdr_token_idx (parser_state a) a)
    else
      n ← last_fragment chain_fuel n a;
      f ← frag_get n a;
      a ← frag_set n (set_fnext (nfrag a) f) a;
      '(r, a) ← issue_char 32 a;
      if r <? 0 then Ok (Ret LPR_FAIL, a) else brk a.

(** [start_fragment:] *)
Definition at_start_fragment (a : allocated_headers) : res fault (outcome * allocated_headers) :=
  at_excessive (set_nfrag (u8 (nfrag a + 1)) a).

(** [check_eol:] *)
Definition at_check_eol (c : Z) (a : allocated_headers) : res fault (outcome * allocated_headers) :=
  let eol := negb (parser_state a =? WSI_TOKEN_CHALLENGE) && (c =? 13) in
  if eol && negb (bool_decide (ues a = URIES_IDLE)) then Ok (Forbid, a)
  else
    let '(c, a) := if eol then (0, set_parser_state WSI_TOKEN_SKIPPING_SAW_CR a) else (c, a) in
    '(n, a) ← issue_char c a;
    if n <? 0 then Ok (Ret LPR_FAIL, a)
    else at_swallow (if n >? 0 then set_parser_state WSI_TOKEN_SKIPPING a else a).

(** The URI is over: a space was met in it. *)
Definition end_of_uri (a : allocated_headers) : res fault (outcome * allocated_headers) :=
  f ← frag_get (nfrag a) a;
  '(r, a) ← (if flen f =? 0 then issue_char 47 a else Ok (0, a));
  if r <? 0 then Ok (Ret (-1), a)
  else
    a ← (if bool_decide (ups a = URIPS_SEEN_SLASH_DOT_DOT) then backup a else Ok a);
    '(r, a) ← issue_char 0 a;
    if r <? 0 then Ok (Ret (-1), a)
    else at_start_fragment (set_parser_state WSI_TOKEN_HTTP a).

(** The [default] case: a character of a URI or of a header's value. *)
Definition value_char (c : Z) (a : allocated_headers) : res fault (outcome * allocated_headers) :=
  n ← index_get (parser_state a) a;
  f ← frag_get n a;
  if (flen f =? 0) && (c =? 32) then brk a
  else if negb (bool_decide (parser_state a ∈ methods)) then at_check_eol c a
  else if c =? 32 then end_of_uri a
  else
    '(r, c, a) ← lws_parse_urldecode c a;
    match r with
    | LPUR_CONTINUE => at_check_eol c a
    | LPUR_SWALLOW => at_swallow a
    | LPUR_FORBID => Ok (Forbid, a)
    | LPUR_EXCESSIVE => at_excessive a
    | LPUR_FAIL => Ok (Ret LPR_FAIL, a)
    end.

(** [WSI_TOKEN_UNKNOWN_VALUE_PART] *)
Definition unknown_value_char (c : Z) (a : allocated_headers) : res fault (outcome * allocated_headers) :=
  if c =? 13 then brk a
  else if c =? 10 then
    a ← lws_un16be_set (unk_pos a + 2) (pos a - unk_value_pos a) a;
    brk (set_lextable_pos 0 (set_unk_pos 0 (set_parser_state WSI_TOKEN_NAME_PART a)))
  else if negb (pos a =? unk_value_pos a) || (negb (c =? 32) && negb (c =? 9)) then
    r ← lws_pos_in_bounds a;
    if nz r then Ok (Ret (-1), a) else a ← push c a; brk a
  else brk a.

(** The eight bytes in front of a name; they are left out as soon as the data
    area is full. *)
Fixpoint entry_bytes (k : nat) (a : allocated_headers) : res fault allocated_headers :=
  match k with
  | O => Ok a
  | S k =>
    r ← lws_pos_in_bounds a;
    a ← (if negb (nz r) then push 0 a else Ok a);
    entry_bytes k a
  end.

(** The colon after a name that is not known: the entry is linked into the
    list. *)
Definition register_unknown (a : allocated_headers) : res fault (outcome * allocated_headers) :=
  let a := if unk_ll_head a =? 0 then set_unk_ll_head (unk_pos a) a else a in
  a ← (if nz (unk_ll_tail a) then lws_un32be_set (unk_ll_tail a + UHO_LL) (unk_pos a) a else Ok a);
  let a := set_unk_ll_tail (unk_pos a) a in
  a ← lws_un16be_set (unk_pos a) (pos a - unk_pos a - UHO_NAME) a;
  let a := set_unk_value_pos (pos a) a in
  brk (set_parser_state WSI_TOKEN_UNKNOWN_VALUE_PART a).

(** Whether one of the tokens of [l] has appeared. *)
Fixpoint any_index (l : list Z) (a : allocated_headers) : res fault bool :=
  match l with
  | [] => Ok false
  | m :: l => i ← index_get m a; if nz i then Ok true else any_index l a
  end.

(** A terminal marker of the name table was reached. *)
Definition known_header (n : Z) (a : allocated_headers) : res fault (outcome * allocated_headers) :=
  dup ← any_index (filter (fun m => m = n) methods) a;
  if dup : bool then Ok (Ret LPR_FAIL, a)
  else
    let n := if n =? WSI_TOKEN_SWORIGIN then WSI_TOKEN_ORIGIN else n in
    let a := set_parser_state (u8 (WSI_TOKEN_GET_URI + n)) a in
    let a := set_ups URIPS_IDLE a in
    l ← (match token_limits E with
         | Some tl => at_index tl (parser_state a)
         | None => Ok (max_http_header_data E)
         end);
    let a := set_current_token_limit l a in
    if parser_state a =? WSI_TOKEN_CHALLENGE then Ok (Set_parsing_complete, a) else at_start_fragment a.

(** After the walk: an unknown name, a known one, or more to come. *)
Definition name_walked (a : allocated_headers) : res fault (outcome * allocated_headers) :=
  if (lextable_pos a <? 0) && role_h1_server E then
    had ← any_index methods a;
    if had : bool then brk a
    else if fallback E then Ok (Ret LPR_DO_FALLBACK, a) else Ok (Forbid, a)
  else if lextable_pos a <? 0 then brk a
  else
    t ← lex_token (lextable_pos a);
    match t with Some n => known_header n a | None => brk a end.

(** A character of a name has been stored. *)
Definition name_next (c : Z) (a : allocated_headers) : res fault (outcome * allocated_headers) :=
  let p := lextable_pos a in
  if (p <? 0) && (c =? 58) then register_unknown a
  else if p <? 0 then brk a
  else
    '(q, terminal) ← lex_next p c;
    let a := if terminal : bool then set_unk_pos 0 (set_pos (unk_pos a) a) else a in
    name_walked (set_lextable_pos q a).

(** [WSI_TOKEN_NAME_PART] *)
Definition name_char (c : Z) (a : allocated_headers) : res fault (outcome * allocated_headers) :=
  a ← (if unk_pos a =? 0 then entry_bytes 8 (set_unk_pos (pos a) a) else Ok a);
  r ← lws_pos_in_bounds a;
  if nz r then Ok (Ret (-1), a)
  else a ← push (tolower c) a; name_next (tolower c) a.

Definition skipping_char (c : Z) (a : allocated_headers) : res fault (outcome * allocated_headers) :=
  brk (if c =? 13 then set_parser_state WSI_TOKEN_SKIPPING_SAW_CR a else a).

Definition saw_cr_char (c : Z) (a : allocated_headers) : res fault (outcome * allocated_headers) :=
  if negb (bool_decide (ues a = URIES_IDLE)) then Ok (Forbid, a)
  else if c =? 10 then brk (set_lextable_pos 0 (set_unk_pos 0 (set_parser_state WSI_TOKEN_NAME_PART a)))
  else brk (set_parser_state WSI_TOKEN_SKIPPING a).

(** One round of the loop of [lws_parse]. *)
Definition parse_char (c : Z) (a : allocated_headers) : res fault (outcome * allocated_headers) :=
  if parser_state a =? WSI_TOKEN_UNKNOWN_VALUE_PART then unknown_value_char c a
  else if parser_state a =? WSI_TOKEN_NAME_PART then name_char c a
  else if parser_state a =? WSI_TOKEN_SKIPPING then skipping_char c a
  else if parser_state a =? WSI_TOKEN_SKIPPING_SAW_CR then saw_cr_char c a
  else if parser_state a =? WSI_PARSING_COMPLETE then brk a
  else value_char c a.

(** [forbid:] *)
Definition at_forbid (w : wsi) : Z * wsi :=
  (LPR_FORBIDDEN, mk_wsi (ah w) (rx_frame_type w) (hdr_parsing_completed w) (statuses w ++ [403])).

(** [set_parsing_complete:] *)
Definition at_set_parsing_complete (w : wsi) : res fault (Z * wsi) :=
  let a := ah w in
  if negb (bool_decide (ues a = URIES_IDLE)) then Ok (at_forbid w)
  else
    u ← lws_hdr_total_length WSI_TOKEN_UPGRADE a;
    v ← (if nz u then lws_hdr_total_length WSI_TOKEN_VERSION a else Ok 0);
    s ← (if nz v then lws_hdr_simple_ptr WSI_TOKEN_VERSION a else Ok None);
    Ok (LPR_OK, mk_wsi (set_parser_state WSI_PARSING_COMPLETE a)
                  (match s with Some s => schar (u8 (atoi s)) | None => rx_frame_type w end) true (statuses w)).

(** The return value, the characters not consumed, and the wsi.  The loop
    runs once before it looks at the length: the callers give it at least one
    character. *)
Fixpoint lws_parse (buf : bytes) (w : wsi) : res fault (Z * bytes * wsi) :=
  match buf with
  | [] => Err bad_access
  | c :: buf =>
    '(o, a) ← parse_char c (ah w);
    let w := set_ah a w in
    match o with
    | Break => match buf with [] => Ok (LPR_OK, [], w) | _ => lws_parse buf w end
    | Ret r => Ok (r, buf, w)
    | Set_parsing_complete => '(r, w) ← at_set_parsing_complete w; Ok (r, buf, w)
    | Forbid => let '(r, w) := at_forbid w in Ok (r, buf, w)
    end
  end.

End Parse.

(** ** The parser on concrete requests *)

Definition LWS_DEF_HEADER_LEN : Z := 4096.

Definition env_default : parse_env := mk_parse_env LWS_DEF_HEADER_LEN None true false.

Definition fresh_wsi (n : Z) : wsi :=
  mk_wsi (_lws_header_table_reset (_lws_create_ah (replicate (Z.to_nat n) 170))) 0 false [].

Definition crlf : bytes := [13; 10].

Definition run_request (r : bytes) : res fault (Z * bytes * list (res fault (Z * bytes))) :=
  '(r, rest, w) ← lws_parse env_default r (fresh_wsi LWS_DEF_HEADER_LEN);
  Ok (r, rest, (fun h => lws_hdr_copy 100 h (ah w)) <$> [0; 76; 15; 3; 5; 26]).

Example parse_ex1 :
  run_request (str "GET /a/./b//../c?x=%41+1&y HTTP/1.1" ++ crlf ++ str "Host:  h" ++ crlf ++
               str "X-Odd: zz" ++ crlf ++ str "uPGRADE: websocket" ++ crlf ++ str "Host: i" ++ crlf ++
               crlf ++ str "rest") =
  Ok (0, str "rest", [Ok (4, str "/a/c"); Ok (7, str "x=A 1,y"); Ok (8, str "HTTP/1.1");
                      Ok (5, str "h,  i"); Ok (9, str "websocket"); Ok (0, [])]).
Proof. vm_compute. reflexivity. Qed.

End HttpParse.
