(* ===== verification/HttpParseSafe.v ===== *)
(** * Memory safety of the HTTP/1 header parser

    For any sequence of characters the parser of HttpParse only touches its
    arrays inside their bounds and all its loops end: what remains is a return
    value, or the failed [assert] of [lws_pos_in_bounds].  The invariant says
    where fragments lie in the data area, that the links between them go
    upwards, that finished fragments are terminated by a NUL, and where the
    entries of unknown headers are. *)

From S2P Require Import Prelude CLib HttpLex HttpParse.

Module HttpParseSafe.
Import HttpParse.

(** ** Lists at [Z] positions *)

Definition at_pos {A} (l : list A) (i : Z) (x : A) : Prop := 0 <= i /\ l !! Z.to_nat i = Some x.

Lemma at_pos_range {A} (l : list A) i x : at_pos l i x -> 0 <= i < Z.of_nat (length l).
Proof. intros [? H%lookup_lt_Some]. lia. Qed.

Lemma at_pos_inj {A} (l : list A) i x y : at_pos l i x -> at_pos l i y -> x = y.
Proof. intros [_ H] [_ H']. congruence. Qed.

Lemma at_index_ok {A} (l : list A) i :
  0 <= i < Z.of_nat (length l) -> exists x, at_index l i = Ok x /\ at_pos l i x.
Proof.
  intros H. destruct (lookup_lt_is_Some_2 l (Z.to_nat i)) as [x Hx]; [lia|].
  exists x. unfold at_index, at_pos. destruct (Z.ltb_spec i 0); [lia|]. by rewrite Hx.
Qed.

Lemma at_pos_index {A} (l : list A) i x : at_pos l i x -> at_index l i = Ok x.
Proof. intros [? Hx]. unfold at_index. destruct (Z.ltb_spec i 0); [lia|]. by rewrite Hx. Qed.

Lemma put_index_ok {A} (l : list A) i x :
  0 <= i < Z.of_nat (length l) -> put_index l i x = Ok (<[Z.to_nat i := x]> l).
Proof.
  intros H. unfold put_index.
  destruct (Z.leb_spec 0 i); [|lia]. destruct (Z.ltb_spec i (Z.of_nat (length l))); [done|lia].
Qed.

Lemma at_pos_insert {A} (l : list A) i x j y :
  0 <= i < Z.of_nat (length l) ->
  at_pos (<[Z.to_nat i := x]> l) j y <-> (j = i /\ y = x) \/ (j <> i /\ at_pos l j y).
Proof.
  intros H. unfold at_pos. destruct (Z.eq_dec j i) as [->|Hne].
  - rewrite list_lookup_insert_eq by lia. split; [intros [_ [= ->]]; auto|].
    intros [[_ ->]|[? _]]; [split; [lia|done]|done].
  - split.
    + intros [? Hj]. rewrite list_lookup_insert_ne in Hj by lia. auto.
    + intros [[? _]|[_ [? Hj]]]; [done|]. split; [done|]. by rewrite list_lookup_insert_ne by lia.
Qed.

(** ** The invariant *)

Section Invariant.
Context (E : parse_env).

Let L : Z := max_http_header_data E.

(** A finished fragment ends with a NUL below [u], below every later
    fragment and outside the last entry of the list of unknown headers. *)
Definition terminated (u : Z) (d : bytes) (fr : list frag) (nf tl i : Z) (f : frag) : Prop :=
  exists z, offset f + flen f <= z < u /\ at_pos d z 0 /\
    (forall j g, i < j <= nf -> at_pos fr j g -> z < offset g) /\
    (tl = 0 \/ z < tl \/ tl + UHO_NAME <= offset f).

(** The table with its fragments below [k] finished. *)
Record table_ok (k u : Z) (d : bytes) (fr : list frag) (ix : list Z) (p nf tl : Z) : Prop := {
  ok_data : len d = L;
  ok_frags : Z.of_nat (length fr) = WSI_TOKEN_COUNT;
  ok_ix : Z.of_nat (length ix) = WSI_TOKEN_COUNT;
  ok_pos : 0 <= u <= p /\ p <= L + 1;
  ok_nf : 0 <= nf < WSI_TOKEN_COUNT;
  ok_index : forall h n, at_pos ix h n -> 0 <= n <= nf;
  ok_link : forall i f, i <= nf -> at_pos fr i f -> fnext f = 0 \/ i < fnext f <= nf;
  ok_frag : forall i f, i <= nf -> at_pos fr i f -> 0 <= offset f /\ 0 <= flen f /\ offset f + flen f <= p;
  ok_order : forall i j f g, i < j <= nf -> at_pos fr i f -> at_pos fr j g -> offset f + flen f <= offset g;
  ok_tail : 0 <= tl /\ (tl = 0 \/ tl + UHO_NAME <= p);
  ok_open : forall i f, 1 <= i -> k <= i <= nf -> at_pos fr i f -> tl = 0 \/ tl + UHO_NAME <= offset f;
  ok_closed : forall i f, 1 <= i < k -> i <= nf -> at_pos fr i f -> terminated u d fr nf tl i f
}.

Definition tab (k u : Z) (a : allocated_headers) : Prop :=
  table_ok k u (data a) (frags a) (frag_index a) (pos a) (nfrag a) (unk_ll_tail a).

(** All fragments are finished. *)
Definition all_closed (u : Z) (a : allocated_headers) : Prop := tab (nfrag a + 1) u a.

(** The last fragment is being filled. *)
Definition last_open (a : allocated_headers) : Prop :=
  1 <= nfrag a /\
  exists f, at_pos (frags a) (nfrag a) f /\ tab (nfrag a) (offset f) a /\
    (current_token_limit a = 0 \/ flen f <= current_token_limit a).

Definition env_ok : Prop :=
  0 < L < 2 ^ 16 - 1 /\
  match token_limits E with
  | Some tl => Z.of_nat (length tl) = WSI_TOKEN_COUNT /\ Forall (fun l => 0 <= l) tl
  | None => True
  end.

(** The entry of the name being read: it is above all fragments, and its
    eight bytes and one character of the name are there. *)
Definition entry_ok (a : allocated_headers) : Prop :=
  if unk_pos a =? 0 then all_closed (pos a) a
  else all_closed (unk_pos a) a /\ unk_pos a + UHO_NAME < pos a.

(** A URI or the value of a known header is being read. *)
Definition value_state (s : Z) : Prop := 0 <= s < WSI_TOKEN_TABLE /\ s <> WSI_TOKEN_CHALLENGE.

Definition inv (a : allocated_headers) : Prop :=
  let s := parser_state a in
  (value_state s /\ last_open a) \/
  (s = WSI_TOKEN_NAME_PART /\ entry_ok a /\
   (lextable_pos a = -1 \/ lex_ok (lextable_pos a) /\ lex_token (lextable_pos a) = Ok None)) \/
  (s = WSI_TOKEN_UNKNOWN_VALUE_PART /\ all_closed (unk_pos a) a /\ 0 <= unk_pos a /\
   unk_pos a + UHO_NAME < pos a) \/
  (s ∈ [WSI_TOKEN_SKIPPING; WSI_TOKEN_SKIPPING_SAW_CR; WSI_PARSING_COMPLETE] /\ all_closed (pos a) a).

(** ** Primitive updates keep the table *)

Lemma table_mono k u u' d fr ix p nf tl :
  u <= u' <= p -> table_ok k u d fr ix p nf tl -> table_ok k u' d fr ix p nf tl.
Proof.
  intros Hu []; constructor; auto; [lia|]. intros i f Hi Hn Hf.
  destruct (ok_closed0 i f) as (z & Hz & ?); auto. exists z. split; [lia|done].
Qed.

(** A write at or above [u] outside every finished fragment's NUL. *)
Lemma table_push k u d fr ix p nf tl c :
  table_ok k u d fr ix p nf tl -> p < L ->
  table_ok k u (<[Z.to_nat p := c]> d) fr ix (p + 1) nf tl.
Proof.
  intros [] Hp. unfold len in *. constructor; auto; try lia.
  - unfold len. rewrite length_insert. lia.
  - intros i f Hi Hf. destruct (ok_frag0 i f); auto; lia.
  - intros i f Hi Hn Hf. destruct (ok_closed0 i f) as (z & Hz & Hd & ?); auto.
    exists z. split; [done|]. split; [|done]. apply at_pos_insert; [lia|]. right. split; [lia|done].
Qed.

Lemma table_flen k u d fr ix p nf tl f l :
  table_ok k u d fr ix p nf tl -> k <= nf -> at_pos fr nf f -> 0 <= l -> offset f + l <= p ->
  table_ok k u d (<[Z.to_nat nf := set_flen l f]> fr) ix p nf tl.
Proof.
  intros [] Hk Hf Hl Hp. pose proof (at_pos_range _ _ _ Hf) as Hr.
  constructor; auto; try lia.
  - rewrite length_insert. lia.
  - intros i g Hi [[-> ->]|[_ Hg]]%at_pos_insert; [cbn; eauto|eauto|lia].
  - intros i g Hi [[-> ->]|[_ Hg]]%at_pos_insert; [|eauto|lia].
    cbn. destruct (ok_frag0 nf f); auto; lia.
  - intros i j g h Hij [[-> ->]|[_ Hg]]%at_pos_insert [[-> ->]|[_ Hh]]%at_pos_insert; try lia; cbn; eauto.
  - intros i g H1 Hi [[-> ->]|[_ Hg]]%at_pos_insert; [cbn; eauto|eauto|lia].
  - intros i g Hi Hn [[-> ->]|[_ Hg]]%at_pos_insert; [lia| |lia].
    destruct (ok_closed0 i g) as (z & Hz & Hd & Ho & ?); auto.
    exists z. split; [done|]. split; [done|]. split; [|done].
    intros j h Hj [[-> ->]|[_ Hh]]%at_pos_insert; [cbn; eauto|eauto|lia].
Qed.

(** Pushing a NUL finishes the last fragment. *)
Lemma table_close u d fr ix p nf tl f :
  table_ok nf u d fr ix p nf tl -> at_pos fr nf f -> p < L ->
  table_ok (nf + 1) (p + 1) (<[Z.to_nat p := 0]> d) fr ix (p + 1) nf tl.
Proof.
  intros H Hf Hp. pose proof (table_push _ _ _ _ _ _ _ _ 0 H Hp) as H'.
  destruct H, H'. constructor; auto; try lia.
  intros i g Hi Hn Hg. destruct (Z.eq_dec i nf) as [->|].
  - pose proof (at_pos_inj _ _ _ _ Hg Hf) as ->. exists p. pose proof (ok_frag0 nf f Hn Hf).
    split; [lia|]. split; [apply at_pos_insert; [unfold len in *; lia|auto]|].
    split; [intros; lia|]. destruct (ok_open0 nf f); auto; lia.
  - destruct (ok_closed1 i g) as (z & Hz & ?); auto; [lia|]. exists z. split; [lia|done].
Qed.

(** A new fragment at the end of the data. *)
Lemma table_new u d fr ix p nf tl fl :
  table_ok (nf + 1) u d fr ix p nf tl -> nf + 1 < WSI_TOKEN_COUNT ->
  table_ok (nf + 1) p d (<[Z.to_nat (nf + 1) := mk_frag p 0 0 fl]> fr) ix p (nf + 1) tl.
Proof.
  intros [] Hn. assert (Hr : 0 <= nf + 1 < Z.of_nat (length fr)) by lia.
  constructor; auto; try lia.
  - rewrite length_insert. lia.
  - intros h n Hh. specialize (ok_index0 h n Hh). lia.
  - intros i g Hi [[-> ->]|[? Hg]]%at_pos_insert; [cbn; lia| |done].
    destruct (ok_link0 i g); auto; lia.
  - intros i g Hi [[-> ->]|[? Hg]]%at_pos_insert; [cbn; lia| |done]. apply (ok_frag0 i); [lia|done].
  - intros i j g h Hij [[-> ->]|[_ Hg]]%at_pos_insert [[-> ->]|[? Hh]]%at_pos_insert; try done; try lia.
    + cbn. destruct (ok_frag0 i g); auto; lia.
    + apply (ok_order0 i j); auto; lia.
  - intros i g H1 Hi [[-> ->]|[? Hg]]%at_pos_insert; [cbn; lia|lia|done].
  - intros i g Hi Hi' [[-> ->]|[? Hg]]%at_pos_insert; [lia| |done].
    destruct (ok_closed0 i g) as (z & Hz & Hd & Ho & ?); auto; [lia|]. exists z. split; [lia|].
    split; [done|]. split; [|done].
    intros j h Hj [[-> ->]|[? Hh]]%at_pos_insert; [cbn; lia| |done]. apply (Ho j); [lia|done].
Qed.

(** The position moves past a gap. *)
Lemma table_gap k u d fr ix p nf tl :
  table_ok k u d fr ix p nf tl -> p <= L -> table_ok k u d fr ix (p + 1) nf tl.
Proof.
  intros [] Hp. constructor; auto; try lia. intros i f Hi Hf. destruct (ok_frag0 i f); auto; lia.
Qed.

Lemma table_link k u d fr ix p nf tl i f n :
  table_ok k u d fr ix p nf tl -> at_pos fr i f -> i <= nf -> i < n <= nf ->
  table_ok k u d (<[Z.to_nat i := set_fnext n f]> fr) ix p nf tl.
Proof.
  intros [] Hf Hi Hn. pose proof (at_pos_range _ _ _ Hf) as Hr.
  constructor; auto; try lia.
  - rewrite length_insert. lia.
  - intros j g Hj [[-> ->]|[_ Hg]]%at_pos_insert; [cbn; lia|eauto|lia].
  - intros j g Hj [[-> ->]|[_ Hg]]%at_pos_insert; [cbn; eauto|eauto|lia].
  - intros j m g h Hjm [[-> ->]|[_ Hg]]%at_pos_insert [[-> ->]|[_ Hh]]%at_pos_insert; try lia; cbn; eauto.
  - intros j g H1 Hj [[-> ->]|[_ Hg]]%at_pos_insert; [cbn; eauto|eauto|lia].
  - intros j g H1 Hj Hg'.
    assert (exists g', at_pos fr j g' /\ offset g' = offset g /\ flen g' = flen g) as (g' & Hg & Eg & El).
    { apply at_pos_insert in Hg' as [[-> ->]|[_ Hg]]; [by exists f|by exists g|lia]. }
    destruct (ok_closed0 j g') as (z & Hz & Hd & Ho & Ht); auto. rewrite Eg, El in *.
    exists z. split; [done|]. split; [done|]. split; [|done].
    intros m h Hm [[-> ->]|[_ Hh]]%at_pos_insert; [cbn; eauto|eauto|lia].
Qed.

Lemma table_index k u d fr ix p nf tl h n :
  table_ok k u d fr ix p nf tl -> 0 <= h < WSI_TOKEN_COUNT -> 0 <= n <= nf ->
  table_ok k u d fr (<[Z.to_nat h := n]> ix) p nf tl.
Proof.
  intros [] Hh Hn. constructor; auto.
  - rewrite length_insert. lia.
  - intros h' m [[-> ->]|[_ Hm]]%at_pos_insert; [lia|eauto|lia].
Qed.

(** One character off the last fragment. *)
Lemma table_back k d fr ix p nf tl f :
  table_ok k (offset f) d fr ix p nf tl -> 1 <= nf -> k <= nf -> at_pos fr nf f -> 1 <= flen f ->
  table_ok k (offset f) d (<[Z.to_nat nf := set_flen (flen f - 1) f]> fr) ix (p - 1) nf tl.
Proof.
  intros H Hn Hk Hf Hl. assert (Hp : offset f + flen f <= p) by (destruct H; apply (ok_frag0 nf f); [lia|done]).
  assert (H' := table_flen _ _ _ _ _ _ _ _ f (flen f - 1) H Hk Hf ltac:(lia) ltac:(lia)).
  pose proof (at_pos_range _ _ _ Hf) as Hr. destruct H, H'. constructor; auto; try lia.
  - intros i g Hi [[-> ->]|[? Hg]]%at_pos_insert; [cbn; destruct (ok_frag0 nf f); auto; lia| |done].
    pose proof (ok_order0 i nf g f ltac:(lia) Hg Hf). destruct (ok_frag0 i g); auto; lia.
  - destruct (ok_open0 nf f); auto; lia.
Qed.

(** A write above the finished fragments, or into the last entry of the list
    of unknown headers. *)
Lemma table_write k u d fr ix p nf tl w c :
  table_ok k u d fr ix p nf tl -> 0 <= w < L -> u <= w \/ (tl <> 0 /\ tl <= w < tl + UHO_NAME) ->
  table_ok k u (<[Z.to_nat w := c]> d) fr ix p nf tl.
Proof.
  intros [] Hw Hu. assert (0 <= w < Z.of_nat (length d)) by (unfold len in *; lia).
  constructor; auto; [unfold len in *; by rewrite length_insert|].
  intros i f Hi Hn Hf. destruct (ok_closed0 i f) as (z & Hz & Hd & Ho & Ht); auto.
  exists z. split; [done|]. split; [|done]. apply at_pos_insert; [done|]. right.
  pose proof (ok_frag0 i f Hn Hf). split; [|done]. lia.
Qed.

Lemma table_tail u d fr ix p nf tl t :
  table_ok (nf + 1) u d fr ix p nf tl -> u <= t -> t + UHO_NAME <= p ->
  table_ok (nf + 1) u d fr ix p nf t.
Proof.
  intros [] Hu Ht. constructor; auto; try lia.
  intros i f Hi Hn Hf. destruct (ok_closed0 i f) as (z & Hz & Hd & Ho & _); auto.
  exists z. repeat (split; [done|]). lia.
Qed.

(** ** Operations *)

(** The result satisfies [P], or the assertion failed. *)
Definition safe {A} (P : A -> Prop) (r : res fault A) : Prop :=
  match r with Ok x => P x | Err e => e = assert_fails end.

Lemma safe_bind {A B} (P : A -> Prop) (Q : B -> Prop) m (f : A -> res fault B) :
  safe P m -> (forall x, P x -> safe Q (f x)) -> safe Q (m ≫= f).
Proof. destruct m; cbn; auto. Qed.

Lemma safe_impl {A} (P Q : A -> Prop) r : safe P r -> (forall x, P x -> Q x) -> safe Q r.
Proof. destruct r; cbn; auto. Qed.

(** Only the data, the fragments and the position differ. *)
Definition same_state (a a' : allocated_headers) : Prop :=
  exists d fr p, a' = set_pos p (set_frags fr (set_data d a)).

Lemma same_state_refl a : same_state a a.
Proof. exists (data a), (frags a), (pos a). by destruct a. Qed.

Lemma same_state_frags fr p a : same_state a (set_frags fr (set_pos p a)).
Proof. exists (data a), fr, p. by destruct a. Qed.

Lemma same_state_trans a b c : same_state a b -> same_state b c -> same_state a c.
Proof. intros (d & fr & p & ->) (d' & fr' & p' & ->). by exists d', fr', p'. Qed.

Lemma pos_in_bounds_safe k u a :
  tab k u a ->
  safe (fun r => (r = 0 /\ pos a < L) \/ (r = 1 /\ pos a = L)) (lws_pos_in_bounds E a).
Proof.
  intros H. unfold lws_pos_in_bounds. fold L.
  destruct (Z.ltb_spec (pos a) L); [left; done|]. destruct (Z.eqb_spec (pos a) L); [by right|done].
Qed.

Lemma push_ok k u a c :
  tab k u a -> pos a < L ->
  push c a = Ok (set_pos (pos a + 1) (set_data (<[Z.to_nat (pos a) := c]> (data a)) a)).
Proof.
  intros [] Hp. unfold push, put. rewrite put_index_ok by (unfold len in *; lia). done.
Qed.

Lemma frag_get_ok k u a n :
  tab k u a -> 0 <= n < WSI_TOKEN_COUNT -> exists f, frag_get n a = Ok f /\ at_pos (frags a) n f.
Proof. intros [] Hn. apply at_index_ok. lia. Qed.

Lemma frag_set_ok k u a n f :
  tab k u a -> 0 <= n < WSI_TOKEN_COUNT ->
  frag_set n f a = Ok (set_frags (<[Z.to_nat n := f]> (frags a)) a).
Proof. intros [] Hn. unfold frag_set. rewrite put_index_ok by lia. done. Qed.

Lemma index_get_ok k u a h :
  tab k u a -> 0 <= h < WSI_TOKEN_COUNT -> exists n, index_get h a = Ok n /\ 0 <= n <= nfrag a.
Proof.
  intros [] Hh. destruct (at_index_ok (frag_index a) h) as (n & Hn & Hp); [lia|].
  exists n. split; [done|]. by eapply ok_index0.
Qed.

Lemma index_set_ok k u a h n :
  tab k u a -> 0 <= h < WSI_TOKEN_COUNT ->
  index_set h n a = Ok (set_frag_index (<[Z.to_nat h := n]> (frag_index a)) a).
Proof. intros [] Hh. unfold index_set. rewrite put_index_ok by lia. done. Qed.

Lemma last_open_frag a :
  last_open a -> exists f, frag_get (nfrag a) a = Ok f /\ at_pos (frags a) (nfrag a) f /\
    tab (nfrag a) (offset f) a /\ (current_token_limit a = 0 \/ flen f <= current_token_limit a) /\
    0 <= flen f /\ offset f + flen f <= pos a.
Proof.
  intros (H1 & f & Hf & Ht & Hl). exists f. split; [by apply at_pos_index|].
  pose proof (ok_frag _ _ _ _ _ _ _ _ Ht (nfrag a) f ltac:(lia) Hf). repeat (split; [done|]). lia.
Qed.

(** What a successful [issue_char] promises. *)
Definition issued (c : Z) (a : allocated_headers) (ra : Z * allocated_headers) : Prop :=
  ra.1 < 0 \/
  (0 <= ra.1 /\ last_open ra.2 /\ same_state a ra.2 /\ pos ra.2 <= L /\
   (c = 0 \/ 0 < ra.1 -> all_closed (pos ra.2) ra.2)).

Lemma issue_char_safe c a : env_ok -> last_open a -> safe (issued c a) (issue_char E c a).
Proof.
  intros [[HL HL'] _] Ho. pose proof (last_open_frag a Ho) as (f & Hg & Hf & Ht & Hl & Hf0 & Hfp).
  destruct Ho as [H1 _]. unfold issue_char.
  eapply safe_bind; [by eapply pos_in_bounds_safe|]. intros r [[-> Hp]|[-> _]]; [|by left].
  cbn [nz negb Z.eqb]. rewrite Hg. cbn [mbind res_bind].
  assert (Hnf : 0 <= nfrag a < WSI_TOKEN_COUNT) by (destruct Ht; done).
  destruct ((current_token_limit a =? 0) || (flen f <? current_token_limit a)) eqn:Ec.
  - rewrite (push_ok _ _ _ _ Ht Hp). cbn [mbind res_bind].
    pose proof (table_push _ _ _ _ _ _ _ _ c Ht Hp) as Ht'.
    destruct (nz c) eqn:Enz.
    + erewrite frag_set_ok; [|exact Ht'|exact Hnf]. cbn [mbind res_bind]. right. cbn.
      assert (u16 (flen f + 1) = flen f + 1) as ->.
      { unfold u16. apply Z.mod_small. destruct Ht. lia. }
      pose proof (table_flen _ _ _ _ _ _ _ _ f (flen f + 1) Ht' ltac:(lia) Hf ltac:(lia) ltac:(lia)) as Ht2.
      split; [done|]. split; [|split; [by eexists _, _, _|split; [lia|]]].
      * split; [done|]. exists (set_flen (flen f + 1) f). split; [|split; [exact Ht2|]].
        -- apply at_pos_insert; [by eapply at_pos_range|]. by left.
        -- cbn. apply orb_true_iff in Ec as [Ec%Z.eqb_eq|Ec%Z.ltb_lt]; lia.
      * intros [->|?]; [done|lia].
    + apply nz_false in Enz as ->. cbn [mbind res_bind]. right. cbn.
      split; [done|]. split; [|split; [by exists (<[Z.to_nat (pos a) := 0]> (data a)), (frags a), (pos a + 1); destruct a|split; [lia|]]].
      * split; [done|]. exists f. split; [done|]. split; [exact Ht'|done].
      * intros _. exact (table_close _ _ _ _ _ _ _ _ Ht Hf Hp).
  - apply orb_false_iff in Ec as [Ec%Z.eqb_neq Ec'%Z.ltb_ge].
    destruct (Z.eqb_spec (flen f) (current_token_limit a)); [|lia].
    eapply safe_bind; [by eapply pos_in_bounds_safe|]. intros r [[-> _]|[-> _]]; [|by left].
    cbn [nz negb Z.eqb]. rewrite (push_ok _ _ _ _ Ht Hp). cbn [mbind res_bind]. right. cbn.
    split; [done|]. split; [|split; [by exists (<[Z.to_nat (pos a) := 0]> (data a)), (frags a), (pos a + 1); destruct a|split; [lia|]]].
    + split; [done|]. exists f. split; [done|]. split; [exact (table_push _ _ _ _ _ _ _ _ 0 Ht Hp)|done].
    + intros _. exact (table_close _ _ _ _ _ _ _ _ Ht Hf Hp).
Qed.

Lemma backup_loop_ok fuel a f :
  last_open a -> at_pos (frags a) (nfrag a) f -> 2 <= flen f -> pos a <= L -> (Z.to_nat (flen f) <= fuel)%nat ->
  exists a', backup_loop fuel a = Ok a' /\ last_open a' /\ same_state a a'.
Proof.
  revert a f. induction fuel as [|fuel IH]; intros a f Ho Hf Hl HpL Hfuel; [lia|].
  pose proof (last_open_frag a Ho) as (f' & Hg & Hf' & Ht & Hlim & _ & Hfp).
  pose proof (at_pos_inj _ _ _ _ Hf Hf') as <-. destruct Ho as [H1 _].
  cbn [backup_loop]. rewrite Hg. cbn [mbind res_bind].
  pose proof (table_back _ _ _ _ _ _ _ _ Ht H1 ltac:(lia) Hf ltac:(lia)) as Ht'.
  assert (Hnf : 0 <= nfrag a < WSI_TOKEN_COUNT) by (destruct Ht; done).
  unfold frag_set. cbn. rewrite put_index_ok by (destruct Ht; lia). cbn [mbind res_bind].
  set (a1 := set_frags _ _).
  assert (Hf1 : at_pos (frags a1) (nfrag a1) (set_flen (flen f - 1) f)).
  { apply at_pos_insert; [by eapply at_pos_range|]. by left. }
  assert (Ho1 : last_open a1).
  { split; [done|]. exists (set_flen (flen f - 1) f). split; [done|]. split; [exact Ht'|]. cbn. lia. }
  assert (Hs1 : same_state a a1) by apply same_state_frags.
  destruct (Z.gtb_spec (flen f - 1) 1); [|by exists a1].
  destruct (at_index_ok (data a1) (pos a1)) as (c & -> & _).
  { assert (0 <= offset f) by (destruct Ht; lia). destruct Ht; unfold len in *; cbn. lia. }
  cbn [mbind res_bind]. destruct (negb (c =? 47)); [|by exists a1].
  destruct (IH a1 _ Ho1 Hf1) as (a' & -> & ? & ?); [cbn; lia..|].
  exists a'. split; [done|]. split; [done|]. by apply (same_state_trans _ a1).
Qed.

Lemma backup_ok a :
  last_open a -> exists a', backup a = Ok a' /\ last_open a' /\ same_state a a'.
Proof.
  intros Ho. pose proof (last_open_frag a Ho) as (f & Hg & Hf & Ht & Hlim & _ & Hfp).
  unfold backup. rewrite Hg. cbn [mbind res_bind].
  destruct (Z.gtb_spec (flen f) 2); [|exists a; auto using same_state_refl].
  pose proof Ho as [H1 _]. pose proof (table_back _ _ _ _ _ _ _ _ Ht H1 ltac:(lia) Hf ltac:(lia)) as Ht'.
  assert (Hnf : 0 <= nfrag a < WSI_TOKEN_COUNT) by (destruct Ht; done).
  unfold frag_set. cbn. rewrite put_index_ok by (destruct Ht; lia). cbn [mbind res_bind].
  set (a1 := set_frags _ _).
  assert (Hf1 : at_pos (frags a1) (nfrag a1) (set_flen (flen f - 1) f)).
  { apply at_pos_insert; [by eapply at_pos_range|]. by left. }
  assert (Ho1 : last_open a1).
  { split; [done|]. exists (set_flen (flen f - 1) f). split; [done|]. split; [exact Ht'|]. cbn. lia. }
  destruct (backup_loop_ok (Z.to_nat (flen f)) a1 _ Ho1 Hf1) as (a' & -> & ? & ?);
    [cbn; lia|destruct Ht; cbn; lia|cbn; lia|].
  exists a'. split; [done|]. split; [done|]. apply (same_state_trans _ a1); [apply same_state_frags|done].
Qed.

(** A finished table gets a new fragment one past its end. *)
Lemma next_fragment_ok u a :
  all_closed u a -> pos a <= L -> nfrag a + 1 < WSI_TOKEN_COUNT -> 0 <= current_token_limit a ->
  exists fl, next_fragment (set_nfrag (nfrag a + 1) a) =
    Ok (set_frags (<[Z.to_nat (nfrag a + 1) := mk_frag (pos a + 1) 0 0 fl]> (frags a))
          (set_pos (pos a + 1) (set_nfrag (nfrag a + 1) a))) /\
  table_ok (nfrag a + 1) (pos a + 1) (data a)
    (<[Z.to_nat (nfrag a + 1) := mk_frag (pos a + 1) 0 0 fl]> (frags a))
    (frag_index a) (pos a + 1) (nfrag a + 1) (unk_ll_tail a).
Proof.
  intros Ht Hp Hn Hl. unfold next_fragment, frag_get, frag_set. cbn.
  assert (Hr : 0 <= nfrag a + 1 < Z.of_nat (length (frags a))) by (destruct Ht; lia).
  destruct (at_index_ok (frags a) (nfrag a + 1)) as (f & -> & _); [done|]. cbn [mbind res_bind].
  rewrite put_index_ok by done. cbn [mbind res_bind]. exists (fflags f). split; [done|].
  eapply table_new; [|done]. by apply table_gap.
Qed.

Lemma table_last_open a fl :
  1 <= nfrag a -> 0 <= current_token_limit a ->
  at_pos (frags a) (nfrag a) (mk_frag (pos a) 0 0 fl) -> tab (nfrag a) (pos a) a -> last_open a.
Proof. intros H1 Hl Hf Ht. split; [done|]. eexists. split; [exact Hf|]. split; [exact Ht|]. cbn. lia. Qed.

Lemma index_set_open h n a :
  last_open a -> 0 <= h < WSI_TOKEN_COUNT -> 0 <= n <= nfrag a ->
  exists a', index_set h n a = Ok a' /\ last_open a' /\ parser_state a' = parser_state a.
Proof.
  intros (H1 & f & Hf & Ht & Hl) Hh Hn. erewrite index_set_ok by done. eexists. split; [done|].
  split; [|done]. split; [done|]. exists f. split; [exact Hf|]. split; [|exact Hl].
  by eapply table_index.
Qed.

(** What [lws_parse_urldecode] promises. *)
Definition decoded (s : Z) (x : lws_parse_urldecode_results * Z * allocated_headers) : Prop :=
  match x.1.1 with
  | LPUR_CONTINUE | LPUR_SWALLOW => last_open x.2 /\ parser_state x.2 = s
  | LPUR_EXCESSIVE => nfrag x.2 = WSI_TOKEN_COUNT
  | LPUR_FORBID | LPUR_FAIL => True
  end.

Lemma limit_nonneg a : last_open a -> 0 <= current_token_limit a.
Proof. intros Ho. pose proof (last_open_frag a Ho) as (f & ?). lia. Qed.

Lemma u8_nfrag n : 0 <= n < WSI_TOKEN_COUNT -> u8 (n + 1) = n + 1.
Proof. unfold WSI_TOKEN_COUNT. intros. apply u8_small. unfold is_byte. lia. Qed.

Lemma urldecode_args_safe c enc a :
  env_ok -> last_open a -> safe (decoded (parser_state a)) (urldecode_args E c enc a).
Proof.
  intros He Ho. pose proof (last_open_frag a Ho) as (f & Hg & Hf & Ht & Hlim & _ & Hfp).
  unfold urldecode_args. destruct (index_get_ok _ _ a WSI_TOKEN_HTTP_URI_ARGS Ht ltac:(done)) as (ua & -> & _).
  cbn [mbind res_bind]. destruct ((c =? 63) && negb enc && (ua =? 0)); [|done].
  destruct (negb _); [done|]. eapply safe_bind; [by apply issue_char_safe|].
  intros [r a'] [Hr|(Hr & Ho' & (d & fr & p & Es) & HpL & Hc)]; cbn [fst snd] in *.
  { destruct (Z.ltb_spec r 0); [done|lia]. }
  destruct (Z.ltb_spec r 0); [lia|]. specialize (Hc (or_introl eq_refl)).
  assert (Hps : parser_state a' = parser_state a) by (rewrite Es; done).
  pose proof (limit_nonneg a' Ho') as Hl'.
  assert (Hnf : 0 <= nfrag a' < WSI_TOKEN_COUNT) by (destruct Hc; done).
  rewrite (u8_nfrag _ Hnf). change (nfrag (set_nfrag (nfrag a' + 1) a')) with (nfrag a' + 1). clear Es.
  destruct (Z.geb_spec (nfrag a' + 1) WSI_TOKEN_COUNT); [cbn; lia|].
  destruct (next_fragment_ok _ a' Hc HpL ltac:(lia) Hl') as (fl & -> & Hn). cbn [mbind res_bind].
  set (a2 := set_frags _ _).
  assert (Ho2 : last_open (set_post_literal_equal false a2)).
  { apply (table_last_open _ fl); [cbn; lia|done| |exact Hn]. apply at_pos_insert; [destruct Hc; lia|]. by left. }
  assert (Hp2 : parser_state a2 = parser_state a') by done. clearbody a2.
  destruct (index_set_open WSI_TOKEN_HTTP_URI_ARGS (nfrag a2) _ Ho2) as (a3 & Ha3 & Ho3 & Hp3);
    [done|destruct Ho2; cbn in *; lia|]. cbn [nfrag set_post_literal_equal]. rewrite Ha3. cbn.
  split; [exact Ho3|]. by rewrite Hp3, <- Hps, <- Hp2.
Qed.

(** The case analysis on what [issue_char] returned. *)
Lemma issue_then {B} (Q : B -> Prop) c a (fail : allocated_headers -> res fault B)
  (ok : Z -> allocated_headers -> res fault B) :
  env_ok -> last_open a ->
  (forall a', safe Q (fail a')) ->
  (forall r a', 0 <= r -> issued c a (r, a') -> safe Q (ok r a')) ->
  safe Q ('(r, a) ← issue_char E c a; if r <? 0 then fail a else ok r a).
Proof.
  intros He Ho Hfail Hok. eapply safe_bind; [by apply issue_char_safe|].
  intros [r a'] Hi. destruct (Z.ltb_spec r 0); [apply Hfail|]. by apply (Hok r).
Qed.

Lemma issued_open c a r a' :
  issued c a (r, a') -> 0 <= r -> last_open a' /\ parser_state a' = parser_state a /\ ups a' = ups a /\
    pos a' <= L /\ (c = 0 -> all_closed (pos a') a').
Proof.
  intros [Hr|(_ & Ho & (d & fr & p & Es) & Hp & Hc)]; cbn [fst snd] in *; [lia|]. intros _.
  split; [done|]. rewrite Es at 1 2. split; [done|]. split; [done|]. auto.
Qed.

(** The next fragment of the URI arguments, linked to the one before. *)
Lemma linked_fragment_ok a f :
  all_closed (pos a) a -> pos a <= L -> nfrag a + 1 < WSI_TOKEN_COUNT -> 0 <= current_token_limit a ->
  at_pos (frags a) (nfrag a) f ->
  exists a', next_fragment (set_post_literal_equal false (set_nfrag (nfrag a + 1)
    (set_frags (<[Z.to_nat (nfrag a) := set_fnext (nfrag a + 1) f]> (frags a)) a))) = Ok a' /\
  last_open a' /\ parser_state a' = parser_state a.
Proof.
  intros Hc Hp Hn Hl Hf. pose proof (at_pos_range _ _ _ Hf) as Hr.
  assert (Hlen : Z.of_nat (length (frags a)) = WSI_TOKEN_COUNT) by (destruct Hc; done).
  unfold next_fragment, frag_get, frag_set. cbn.
  set (fr := <[Z.to_nat (nfrag a) := _]> (frags a)).
  assert (Hr' : 0 <= nfrag a + 1 < Z.of_nat (length fr)) by (unfold fr; rewrite length_insert; lia).
  destruct (at_index_ok fr (nfrag a + 1)) as (g & -> & _); [done|]. cbn [mbind res_bind].
  rewrite put_index_ok by done. eexists. split; [done|]. split; [|done].
  pose proof (table_new _ _ _ _ _ _ _ (fflags g) (table_gap _ _ _ _ _ _ _ _ Hc Hp) Hn) as Ht.
  eapply (table_link _ _ _ _ _ _ _ _ (nfrag a) f (nfrag a + 1)) in Ht; [| |lia..].
  2: { apply at_pos_insert; [lia|]. right. split; [lia|done]. }
  rewrite list_insert_insert_ne in Ht by lia. fold fr in Ht.
  apply (table_last_open _ (fflags g)); [cbn; lia|done| |exact Ht]. apply at_pos_insert; [done|]. by left.
Qed.

Lemma urldecode_idle_safe c enc a :
  env_ok -> last_open a -> safe (decoded (parser_state a)) (urldecode_idle E c enc a).
Proof.
  intros He Ho. unfold urldecode_idle. destruct (c =? 0); [done|].
  destruct (((c =? 38) || (c =? 59)) && negb enc).
  - apply issue_then; [done..|].
    intros r a' Hr (Ho' & Hs & _ & HpL & Hc)%issued_open; [|done]. specialize (Hc eq_refl). rewrite <- Hs.
    pose proof (last_open_frag a' Ho') as (f & Hg & Hf & Ht & _). rewrite Hg. cbn [mbind res_bind].
    assert (Hnf : 0 <= nfrag a' < WSI_TOKEN_COUNT) by (destruct Hc; done).
    erewrite frag_set_ok by done. cbn [mbind res_bind].
    change (nfrag (set_frags _ a')) with (nfrag a'). rewrite (u8_nfrag _ Hnf).
    change (nfrag (set_nfrag (nfrag a' + 1) _)) with (nfrag a' + 1).
    destruct (Z.geb_spec (nfrag a' + 1) WSI_TOKEN_COUNT); [cbn; lia|].
    destruct (linked_fragment_ok a' f Hc HpL) as (a2 & -> & Ho2 & Hs2); [lia|by apply limit_nonneg|done|].
    cbn. done.
  - pose proof (last_open_frag a Ho) as (f & Hg & Hf & Ht & _).
    destruct (index_get_ok _ _ a WSI_TOKEN_HTTP_URI_ARGS Ht ltac:(done)) as (ua & -> & _).
    cbn [mbind res_bind]. destruct ((c =? 61) && enc && nz ua && negb (post_literal_equal a)).
    all: repeat match goal with |- context [if ?b then set_post_literal_equal _ _ else _] => destruct b end.
    all: repeat match goal with |- context [if ?b then set_ups _ _ else _] => destruct b end.
    all: match goal with |- safe _ (urldecode_args E ?c ?e ?b) => by apply (urldecode_args_safe c e b) end.
Qed.

Lemma urldecode_slash_safe c enc a :
  env_ok -> last_open a -> safe (decoded (parser_state a)) (urldecode_slash E c enc a).
Proof.
  intros He Ho. unfold urldecode_slash. destruct (c =? 47); [done|]. destruct (c =? 46); [done|].
  by apply (urldecode_args_safe c enc (set_ups URIPS_IDLE a)).
Qed.

Lemma urldecode_dot_safe c enc a :
  env_ok -> last_open a -> safe (decoded (parser_state a)) (urldecode_dot E c enc a).
Proof.
  intros He Ho. unfold urldecode_dot. destruct (c =? 46); [done|]. destruct (c =? 47); [done|].
  apply (issue_then _ 46 (set_ups URIPS_IDLE a)); [done..|].
  intros r a' Hr (Ho' & Hs & _)%issued_open; [|done].
  change (parser_state a) with (parser_state (set_ups URIPS_IDLE a)). rewrite <- Hs.
  by apply urldecode_args_safe.
Qed.

Lemma urldecode_dot_dot_safe c enc a :
  env_ok -> last_open a -> safe (decoded (parser_state a)) (urldecode_dot_dot E c enc a).
Proof.
  intros He Ho. unfold urldecode_dot_dot. destruct ((c =? 47) || (c =? 63)).
  - destruct (backup_ok a Ho) as (a' & -> & Ho' & (d & fr & p & Es)). cbn [mbind res_bind].
    assert (Hs : parser_state a' = parser_state a) by (rewrite Es; done). clear Es. rewrite <- Hs.
    pose proof (last_open_frag a' Ho') as (f & Hg & _).
    change (frag_get _ _) with (frag_get (nfrag a') a'). rewrite Hg. cbn [mbind res_bind].
    destruct (flen f >? 1); [by apply (urldecode_args_safe c enc (set_ups URIPS_SEEN_SLASH a'))|done].
  - apply issue_then; [done..|]. intros r a' Hr (Ho' & Hs & _)%issued_open; [|done]. rewrite <- Hs.
    apply issue_then; [done..|]. intros r2 a2 Hr2 (Ho2 & Hs2 & _)%issued_open; [|done]. rewrite <- Hs2.
    by apply (urldecode_args_safe c enc (set_ups URIPS_IDLE a2)).
Qed.

Lemma urldecode_safe c a :
  env_ok -> last_open a -> safe (decoded (parser_state a)) (lws_parse_urldecode E c a).
Proof.
  intros He Ho.
  assert (Hp : forall c enc a, last_open a -> safe (decoded (parser_state a)) (urldecode_path E c enc a)).
  { clear -He. intros c enc a Ho. unfold urldecode_path. destruct (ups a);
      [by apply urldecode_idle_safe | by apply urldecode_slash_safe | by apply urldecode_dot_safe
      | by apply urldecode_dot_dot_safe]. }
  unfold lws_parse_urldecode. destruct (ues a).
  - destruct (c =? 37); [done|auto].
  - destruct (char_to_hex c <? 0); done.
  - destruct (char_to_hex c <? 0); [done|]. by apply (Hp _ true (set_ues URIES_IDLE a)).
Qed.

(** What one round of the parser promises. *)
Definition stepped (x : outcome * allocated_headers) : Prop :=
  match x.1 with
  | Break => inv x.2
  | Set_parsing_complete => pos x.2 <= L /\ exists u, all_closed u x.2
  | Ret r => r <> LPR_OK
  | Forbid => True
  end.

Lemma last_fragment_ok a b fuel n :
  (forall i f, 0 <= i <= b -> at_pos (frags a) i f -> fnext f = 0 \/ i < fnext f <= b) ->
  0 <= n <= b -> b < Z.of_nat (length (frags a)) -> (Z.to_nat (b - n) < fuel)%nat ->
  exists m f, last_fragment fuel n a = Ok m /\ n <= m <= b /\ at_pos (frags a) m f.
Proof.
  intros Hl. revert n. induction fuel as [|fuel IH]; intros n Hn Hb Hf; [lia|].
  destruct (at_index_ok (frags a) n) as (f & Hg & Hp); [lia|].
  cbn [last_fragment]. unfold frag_get. rewrite Hg. cbn [mbind res_bind].
  destruct (nz (fnext f)) eqn:En; [|by exists n, f; auto with lia].
  apply nz_true in En. destruct (Hl n f) as [|Hlt]; [done|done|done|].
  destruct (IH (fnext f)) as (m & g & ? & ? & ?); [lia..|]. exists m, g. split; [done|]. split; [lia|done].
Qed.

Lemma value_inv a : value_state (parser_state a) -> last_open a -> inv a.
Proof. intros. by left. Qed.

(** A finished table starts a fragment for the header of its state. *)
Lemma start_fragment_safe u a :
  env_ok -> all_closed u a -> value_state (parser_state a) -> 0 <= current_token_limit a ->
  safe stepped (at_start_fragment E a).
Proof.
  intros He Hc [Hs Hs'] Hl. assert (Hnf : 0 <= nfrag a < WSI_TOKEN_COUNT) by (destruct Hc; done).
  unfold at_start_fragment. rewrite (u8_nfrag _ Hnf). unfold at_excessive.
  change (nfrag (set_nfrag _ a)) with (nfrag a + 1).
  destruct (Z.eqb_spec (nfrag a + 1) WSI_TOKEN_COUNT) as [|Hne]; [done|].
  unfold frag_set. cbn [frags set_nfrag].
  assert (Hr : 0 <= nfrag a + 1 < Z.of_nat (length (frags a))) by (destruct Hc; lia).
  rewrite put_index_ok by done. cbn [mbind res_bind].
  pose proof (table_new _ _ _ _ _ _ _ 2 Hc ltac:(lia)) as Ht.
  set (a1 := set_frags _ _).
  assert (Hf1 : at_pos (frags a1) (nfrag a + 1) (mk_frag (pos a1) 0 0 2)).
  { apply at_pos_insert; [done|]. by left. }
  assert (Ho1 : last_open a1) by (apply (table_last_open _ 2); [cbn; lia|done|exact Hf1|exact Ht]).
  assert (Hst1 : parser_state a1 = parser_state a) by done.
  assert (Hn1 : nfrag a1 = nfrag a + 1) by done.
  assert (Hlink : forall i f, 0 <= i <= nfrag a -> at_pos (frags a1) i f -> fnext f = 0 \/ i < fnext f <= nfrag a).
  { intros i f Hi [[-> ->]|[_ Hf]]%at_pos_insert; [lia| |done]. destruct Hc. apply (ok_link0 i); [lia|done]. }
  assert (Hix : exists n, index_get (parser_state a1) a1 = Ok n /\ 0 <= n <= nfrag a).
  { rewrite Hst1. apply (index_get_ok _ _ a _ Hc). unfold WSI_TOKEN_TABLE, WSI_TOKEN_COUNT in *. lia. }
  assert (Hlen1 : nfrag a < Z.of_nat (length (frags a1))) by (cbn; rewrite length_insert; lia).
  change (tab (nfrag a1) (pos a1) a1) in Ht. clearbody a1. clear Hr.
  destruct Hix as (n & -> & Hn). cbn [mbind res_bind]. destruct (Z.eqb_spec n 0).
  - destruct (index_set_open (parser_state a1) (nfrag a1) a1 Ho1) as (a2 & -> & Ho2 & Hst2).
    { rewrite Hst1. unfold WSI_TOKEN_TABLE, WSI_TOKEN_COUNT in *. lia. } { lia. }
    cbn. apply value_inv; [cbn; rewrite Hst2, Hst1; by split|exact Ho2].
  - destruct (last_fragment_ok a1 (nfrag a) chain_fuel n Hlink) as (m & f & -> & Hm & Hfm);
      [lia|done|unfold chain_fuel, WSI_TOKEN_COUNT in *; lia|].
    cbn [mbind res_bind]. unfold frag_get. rewrite (at_pos_index _ _ _ Hfm). cbn [mbind res_bind].
    unfold frag_set. rewrite put_index_ok by by eapply at_pos_range. cbn [mbind res_bind].
    pose proof (table_link _ _ _ _ _ _ _ _ m f (nfrag a1) Ht Hfm ltac:(lia) ltac:(lia)) as Ht2.
    set (a2 := set_frags _ _).
    assert (Ho2 : last_open a2).
    { pose proof Ho1 as (H1 & _). apply (table_last_open _ 2); [done|by apply (limit_nonneg a1)| |exact Ht2].
      cbn. rewrite Hn1. apply at_pos_insert; [by eapply at_pos_range|]. right. split; [lia|done]. }
    assert (Hst2 : parser_state a2 = parser_state a) by done. clearbody a2.
    apply issue_then; [done..|]. intros r a3 Hr (Ho3 & Hs3 & _)%issued_open; [|done].
    apply value_inv; [cbn; by rewrite Hs3, Hst2|done].
Qed.

Lemma closed_inv a :
  parser_state a ∈ [WSI_TOKEN_SKIPPING; WSI_TOKEN_SKIPPING_SAW_CR; WSI_PARSING_COMPLETE] ->
  all_closed (pos a) a -> inv a.
Proof. intros. by right; right; right. Qed.

Lemma check_eol_safe c a :
  env_ok -> value_state (parser_state a) -> last_open a -> safe stepped (at_check_eol E c a).
Proof.
  intros He Hs Ho. unfold at_check_eol.
  destruct (_ && negb (bool_decide (ues a = URIES_IDLE))); [done|].
  destruct (Z.eqb_spec (parser_state a) WSI_TOKEN_CHALLENGE) as [Hch|_]; [by destruct Hs|]. cbn [negb andb].
  assert (Hafter : forall c b r a', last_open b -> issued c b (r, a') -> 0 <= r ->
    (parser_state b = WSI_TOKEN_SKIPPING_SAW_CR /\ c = 0) \/ value_state (parser_state b) ->
    safe stepped (at_swallow (if r >? 0 then set_parser_state WSI_TOKEN_SKIPPING a' else a'))).
  { clear. intros c b r a' Hb Hi Hr Hst.
    pose proof (issued_open _ _ _ _ Hi Hr) as (Ho' & Hs' & _ & _ & Hc).
    destruct (Z.gtb_spec r 0).
    - cbn. apply closed_inv; [set_solver|]. destruct Hi as [|(_ & _ & _ & _ & Hcl)]; cbn in *; [lia|].
      apply Hcl. auto.
    - unfold at_swallow. rewrite Hs'. destruct Hst as [[Est ->]|Hst].
      + rewrite Est. cbn. apply closed_inv; [rewrite Hs', Est; set_solver|]. auto.
      + destruct (Z.eqb_spec (parser_state b) WSI_TOKEN_CHALLENGE); [by destruct Hst|].
        cbn. apply value_inv; [cbn; by rewrite Hs'|done]. }
  destruct (c =? 13).
  - apply (issue_then _ 0 (set_parser_state WSI_TOKEN_SKIPPING_SAW_CR a)); [done..|].
    intros r a' Hr Hi. eapply Hafter; [|exact Hi|done|by left]. exact Ho.
  - apply issue_then; [done..|]. intros r a' Hr Hi. eapply Hafter; [|exact Hi|done|by right]. exact Ho.
Qed.

Lemma methods_values s : s ∈ methods -> value_state s.
Proof.
  unfold methods, value_state. rewrite !elem_of_cons, elem_of_nil. unfold WSI_TOKEN_TABLE, WSI_TOKEN_CHALLENGE.
  intros H. repeat (destruct H as [->|H]; [split; [split|]; done|]). done.
Qed.

Lemma end_of_uri_safe a : env_ok -> last_open a -> safe stepped (end_of_uri E a).
Proof.
  intros He Ho. unfold end_of_uri. pose proof (last_open_frag a Ho) as (f & -> & _). cbn [mbind res_bind].
  assert (Hend : forall b, last_open b -> safe stepped
    (b' ← (if bool_decide (ups b = URIPS_SEEN_SLASH_DOT_DOT) then backup b else Ok b);
     '(r, b') ← issue_char E 0 b';
     if r <? 0 then Ok (Ret (-1), b') else at_start_fragment E (set_parser_state WSI_TOKEN_HTTP b'))).
  { clear -He. intros b Hb.
    assert (exists b', (if bool_decide (ups b = URIPS_SEEN_SLASH_DOT_DOT) then backup b else Ok b) = Ok b' /\
                       last_open b') as (b' & -> & Hb').
    { destruct (bool_decide _); [|by exists b]. destruct (backup_ok b Hb) as (b' & ? & ? & _). by exists b'. }
    cbn [mbind res_bind]. apply issue_then; [done..|].
    intros r b2 Hr (Ho2 & _ & _ & _ & Hc)%issued_open; [|done]. specialize (Hc eq_refl).
    pose proof (limit_nonneg b2 Ho2). eapply (start_fragment_safe _ (set_parser_state WSI_TOKEN_HTTP b2)); done. }
  destruct (flen f =? 0).
  - apply issue_then; [done..|]. intros r a' Hr (Ho' & _)%issued_open; [|done]. by apply Hend.
  - cbn [mbind res_bind Z.ltb]. by apply Hend.
Qed.

Lemma value_char_safe c a :
  env_ok -> value_state (parser_state a) -> last_open a -> safe stepped (value_char E c a).
Proof.
  intros He Hs Ho. pose proof (last_open_frag a Ho) as (f0 & _ & _ & Ht & _).
  assert (Hnf : 0 <= nfrag a < WSI_TOKEN_COUNT) by (destruct Ht; done).
  unfold value_char. destruct (index_get_ok _ _ a (parser_state a) Ht) as (n & -> & Hn).
  { destruct Hs. unfold WSI_TOKEN_TABLE, WSI_TOKEN_COUNT in *. lia. }
  cbn [mbind res_bind]. destruct (frag_get_ok _ _ a n Ht) as (f & -> & _); [lia|]. cbn [mbind res_bind].
  destruct (_ && (c =? 32)); [by apply value_inv|].
  destruct (bool_decide_reflect (parser_state a ∈ methods)) as [Hm|]; cbn [negb];
    [|by apply check_eol_safe].
  destruct (c =? 32); [by apply end_of_uri_safe|].
  eapply safe_bind; [by apply urldecode_safe|]. intros [[r c'] a'] Hd. unfold decoded in Hd.
  destruct r; cbn [fst snd] in Hd; try done.
  - destruct Hd as [Ho' Hs']. apply check_eol_safe; [done|by rewrite Hs'|done].
  - destruct Hd as [Ho' Hs']. unfold at_swallow. rewrite Hs'.
    destruct (Z.eqb_spec (parser_state a) WSI_TOKEN_CHALLENGE); [by destruct Hs|].
    apply value_inv; [cbn; by rewrite Hs'|done].
  - unfold at_excessive. rewrite Hd. done.
Qed.

(** ** Names and unknown headers *)

Lemma put_safe k u a w c :
  tab k u a -> 0 <= w < L -> u <= w \/ (unk_ll_tail a <> 0 /\ unk_ll_tail a <= w < unk_ll_tail a + UHO_NAME) ->
  exists d, put w c a = Ok (set_data d a) /\ tab k u (set_data d a).
Proof.
  intros Ht Hw Hu. unfold put. rewrite put_index_ok by (destruct Ht; unfold len in *; lia).
  eexists. split; [done|]. by apply table_write.
Qed.

Lemma un16be_set_safe k u a w v :
  tab k u a -> 0 <= w -> w + 1 < L -> u <= w ->
  exists d, lws_un16be_set w v a = Ok (set_data d a) /\ tab k u (set_data d a).
Proof.
  intros Ht H0 Hw Hu. unfold lws_un16be_set.
  destruct (put_safe _ _ a w (u8 (Z.shiftr (u16 v) 8)) Ht) as (d & -> & Ht1); [lia|lia|].
  cbn [mbind res_bind]. destruct (put_safe _ _ _ (w + 1) (u8 v) Ht1) as (d2 & -> & Ht2); [lia|lia|].
  by exists d2.
Qed.

Lemma un32be_set_safe k u a v :
  tab k u a -> unk_ll_tail a <> 0 -> unk_ll_tail a + UHO_NAME <= L ->
  exists d, lws_un32be_set (unk_ll_tail a + UHO_LL) v a = Ok (set_data d a) /\ tab k u (set_data d a).
Proof.
  intros Ht Hn HL. assert (0 <= unk_ll_tail a) by (destruct Ht; lia).
  unfold lws_un32be_set, UHO_LL, UHO_NAME in *.
  destruct (put_safe _ _ a (unk_ll_tail a + 4) (u8 (Z.shiftr v 24)) Ht) as (d & -> & Ht1); [lia|unfold UHO_NAME; lia|].
  cbn [mbind res_bind].
  destruct (put_safe _ _ _ (unk_ll_tail a + 4 + 1) (u8 (Z.shiftr v 16)) Ht1) as (d2 & -> & Ht2);
    [lia|unfold UHO_NAME; cbn; lia|]. cbn [mbind res_bind].
  destruct (put_safe _ _ _ (unk_ll_tail a + 4 + 2) (u8 (Z.shiftr v 8)) Ht2) as (d3 & -> & Ht3);
    [lia|unfold UHO_NAME; cbn; lia|]. cbn [mbind res_bind].
  destruct (put_safe _ _ _ (unk_ll_tail a + 4 + 3) (u8 v) Ht3) as (d4 & -> & Ht4);
    [lia|unfold UHO_NAME; cbn; lia|]. by exists d4.
Qed.

Lemma closed_mono u u' a : all_closed u a -> u <= u' <= pos a -> all_closed u' a.
Proof. intros H Hu. by eapply table_mono. Qed.

Lemma closed_pos u a : all_closed u a -> 0 <= u <= pos a.
Proof. intros []. lia. Qed.

Lemma lex_token_0 : lex_token 0 = Ok None.
Proof. vm_compute. reflexivity. Qed.

(** A new line: the parser is ready for a name. *)
Lemma new_name_inv a u :
  all_closed u a -> inv (set_lextable_pos 0 (set_unk_pos 0 (set_parser_state WSI_TOKEN_NAME_PART a))).
Proof.
  intros Hc. right. left. split; [done|]. split.
  - unfold entry_ok. cbn. apply (closed_mono u); [exact Hc|]. pose proof (closed_pos _ _ Hc). cbn. lia.
  - right. split; [exact lex_ok_0|exact lex_token_0].
Qed.

Lemma unknown_value_safe c a :
  parser_state a = WSI_TOKEN_UNKNOWN_VALUE_PART -> inv a -> safe stepped (unknown_value_char E c a).
Proof.
  intros Hs [[[? _] _]|[[? _]|[(_ & Hc & H0 & Hu)|[Hin _]]]];
    [unfold WSI_TOKEN_TABLE, WSI_TOKEN_UNKNOWN_VALUE_PART in *; lia|rewrite Hs in *; done| |].
  2: { rewrite Hs in Hin. exfalso. revert Hin. rewrite !elem_of_cons, elem_of_nil.
       intros [?|[?|[?|?]]]; done. }
  assert (Hinv : inv a) by (right; right; left; done).
  unfold unknown_value_char. destruct (c =? 13); [done|].
  assert (HL : pos a <= L + 1) by (destruct Hc; lia). unfold UHO_NAME in *.
  destruct (c =? 10).
  { destruct (un16be_set_safe _ _ a (unk_pos a + 2) (pos a - unk_value_pos a) Hc) as (d & -> & Ht); [lia..|].
    cbn. by eapply (new_name_inv (set_data d a)). }
  destruct (_ || _); [|done].
  eapply safe_bind; [by eapply pos_in_bounds_safe|]. intros r [[-> Hp]|[-> _]]; [|done].
  cbn [nz negb Z.eqb]. rewrite (push_ok _ _ _ _ Hc Hp). cbn [mbind res_bind].
  right. right. left. split; [done|]. split; [exact (table_push _ _ _ _ _ _ _ _ c Hc Hp)|]. cbn. unfold UHO_NAME. lia.
Qed.

(** The state while a name is read, once its entry exists. *)
Definition naming (a : allocated_headers) : Prop :=
  all_closed (unk_pos a) a /\ 0 <= unk_pos a /\ (pos a < L -> unk_pos a + UHO_NAME <= pos a).

Lemma entry_bytes_safe j k u a :
  tab k u a ->
  safe (fun a' => exists d p, a' = set_pos p (set_data d a) /\ tab k u a' /\ pos a <= p /\
                    (p < L -> p = pos a + Z.of_nat j)) (entry_bytes E j a).
Proof.
  revert a. induction j as [|j IH]; intros a Ht; cbn [entry_bytes].
  { exists (data a), (pos a). split; [by destruct a|]. split; [done|]. lia. }
  eapply safe_bind; [by eapply pos_in_bounds_safe|]. intros r [[-> Hp]|[-> Hp]]; cbn [nz negb Z.eqb].
  - rewrite (push_ok _ _ _ _ Ht Hp). cbn [mbind res_bind].
    eapply safe_impl; [apply IH; exact (table_push _ _ _ _ _ _ _ _ 0 Ht Hp)|].
    cbn. intros a' (d & p & -> & Ht' & Hpp & Hq). exists d, p. split; [done|]. split; [done|]. lia.
  - cbn [mbind res_bind]. eapply safe_impl; [by apply IH|].
    cbn. intros a' (d & p & -> & Ht' & Hpp & Hq). exists d, p. split; [done|]. split; [done|]. lia.
Qed.

Lemma register_unknown_safe a :
  all_closed (unk_pos a) a -> 0 <= unk_pos a -> unk_pos a + UHO_NAME < pos a -> pos a <= L ->
  safe stepped (register_unknown a).
Proof.
  intros Hc H0 Hu HL. unfold register_unknown.
  set (a1 := if unk_ll_head a =? 0 then set_unk_ll_head (unk_pos a) a else a).
  assert (Hv : all_closed (unk_pos a1) a1 /\ unk_pos a1 = unk_pos a /\ pos a1 = pos a)
    by by unfold a1; destruct (unk_ll_head a =? 0).
  clearbody a1. destruct Hv as (Hc1 & Eu & Ep).
  assert (exists d, (if nz (unk_ll_tail a1) then lws_un32be_set (unk_ll_tail a1 + UHO_LL) (unk_pos a1) a1
                     else Ok a1) = Ok (set_data d a1) /\ all_closed (unk_pos a1) (set_data d a1)) as (d & -> & Hc2).
  { destruct (nz (unk_ll_tail a1)) eqn:En; [|exists (data a1); split; [by destruct a1|exact Hc1]].
    apply nz_true in En. apply (un32be_set_safe (nfrag a1 + 1) (unk_pos a1) a1); [done|done|]. destruct Hc1. lia. }
  cbn [mbind res_bind]. unfold UHO_NAME in *.
  assert (Ht3 : all_closed (unk_pos a1) (set_unk_ll_tail (unk_pos a1) (set_data d a1))).
  { eapply table_tail; [exact Hc2|cbn; lia|cbn; unfold UHO_NAME; lia]. }
  cbn [unk_pos set_data set_unk_ll_tail pos].
  set (a3 := set_unk_ll_tail _ _) in *.
  assert (E3 : unk_pos a3 = unk_pos a1 /\ pos a3 = pos a1) by done. clearbody a3. destruct E3 as [Eu3 Ep3].
  destruct (un16be_set_safe _ _ a3 (unk_pos a1) (pos a1 - unk_pos a1 - 8) Ht3) as (d4 & -> & Ht4); [lia..|].
  cbn. right. right. left. split; [done|]. cbn. rewrite Eu3. split; [exact Ht4|]. unfold UHO_NAME. lia.
Qed.

Lemma any_index_ok k u a l :
  tab k u a -> Forall (fun h => 0 <= h < WSI_TOKEN_COUNT) l -> exists b, any_index l a = Ok b.
Proof.
  intros Ht. induction 1 as [|h l Hh _ [b IH]]; cbn [any_index]; [by eexists|].
  destruct (index_get_ok _ _ a h Ht Hh) as (n & -> & _). cbn [mbind res_bind].
  destruct (nz n); [by eexists|by exists b].
Qed.

Lemma methods_range : Forall (fun h => 0 <= h < WSI_TOKEN_COUNT) methods.
Proof. apply (bool_decide_unpack _). vm_compute. reflexivity. Qed.

Lemma known_header_safe n u a :
  env_ok -> all_closed u a -> pos a <= L -> 0 <= n < WSI_TOKEN_TABLE -> safe stepped (known_header E n a).
Proof.
  intros He Hc HL Hn. unfold known_header.
  destruct (any_index_ok _ _ a (filter (fun m => m = n) methods) Hc) as (b & ->).
  { apply Forall_forall. intros h [_ Hh]%list_elem_of_filter. pose proof methods_range as Hm.
    rewrite Forall_forall in Hm. auto. }
  cbn [mbind res_bind]. destruct b; [done|].
  set (n' := if n =? WSI_TOKEN_SWORIGIN then WSI_TOKEN_ORIGIN else n).
  assert (Hn' : 0 <= n' < WSI_TOKEN_TABLE) by (unfold n'; destruct (n =? WSI_TOKEN_SWORIGIN); done).
  clearbody n'. assert (u8 (WSI_TOKEN_GET_URI + n') = n') as ->.
  { unfold WSI_TOKEN_GET_URI, WSI_TOKEN_TABLE in *. apply u8_small. unfold is_byte. lia. }
  assert (exists l, match token_limits E with Some tl => at_index tl n' | None => Ok (max_http_header_data E) end
                    = Ok l /\ 0 <= l) as (l & Hl & Hl0).
  { destruct He as [He1 He2]. destruct (token_limits E) as [tl|]; [|exists (max_http_header_data E); split; [done|unfold L in *; lia]].
    destruct He2 as [Htl Hpos]. destruct (at_index_ok tl n') as (x & Hx & _ & Hx').
    { unfold WSI_TOKEN_TABLE, WSI_TOKEN_COUNT in *. lia. }
    exists x. split; [done|]. by eapply Forall_lookup_1 in Hpos. }
  cbn [parser_state set_ups set_parser_state]. rewrite Hl. cbn [mbind res_bind].
  change (parser_state (set_current_token_limit _ _)) with n'.
  destruct (Z.eqb_spec n' WSI_TOKEN_CHALLENGE).
  - cbn. split; [done|]. exists u. exact Hc.
  - eapply (start_fragment_safe u); [done|exact Hc|by split|done].
Qed.

Lemma name_inv a :
  parser_state a = WSI_TOKEN_NAME_PART -> all_closed (unk_pos a) a -> unk_pos a + UHO_NAME < pos a ->
  lextable_pos a = -1 \/ (lex_ok (lextable_pos a) /\ lex_token (lextable_pos a) = Ok None) -> inv a.
Proof.
  intros Hs Hc Hu Hl. right. left. split; [done|]. split; [|done]. unfold entry_ok.
  destruct (Z.eqb_spec (unk_pos a) 0); [|done]. eapply closed_mono; [done|]. unfold UHO_NAME in *. lia.
Qed.

Lemma name_walked_safe a :
  env_ok -> parser_state a = WSI_TOKEN_NAME_PART -> all_closed (unk_pos a) a ->
  unk_pos a + UHO_NAME < pos a -> pos a <= L ->
  lextable_pos a = -1 \/ lex_ok (lextable_pos a) -> safe stepped (name_walked E a).
Proof.
  intros He Hs Hc Hu HL Hl. unfold name_walked. destruct Hl as [Hl|Hl].
  - rewrite Hl. cbn [Z.ltb Z.compare andb]. assert (inv a) by (apply name_inv; auto).
    destruct (role_h1_server E); [|done].
    destruct (any_index_ok _ _ a methods Hc methods_range) as ([] & ->); cbn [mbind res_bind]; [done|].
    by destruct (fallback E).
  - assert (0 <= lextable_pos a) by by destruct Hl.
    destruct (Z.ltb_spec (lextable_pos a) 0); [lia|]. cbn [andb].
    destruct (lex_ok_token _ Hl) as ([n|] & Ht & Hn); rewrite Ht; cbn [mbind res_bind].
    + by eapply known_header_safe.
    + apply name_inv; auto.
Qed.

Lemma name_char_safe c a :
  env_ok -> parser_state a = WSI_TOKEN_NAME_PART -> entry_ok a ->
  lextable_pos a = -1 \/ (lex_ok (lextable_pos a) /\ lex_token (lextable_pos a) = Ok None) ->
  safe stepped (name_char E c a).
Proof.
  intros He Hs Hen Hl. unfold name_char, name_next. generalize (tolower c). clear c. intros c.
  apply (safe_bind (fun a' => naming a' /\ parser_state a' = WSI_TOKEN_NAME_PART /\
                              lextable_pos a' = lextable_pos a)).
  { unfold entry_ok in Hen. destruct (Z.eqb_spec (unk_pos a) 0).
    - eapply safe_impl; [apply (entry_bytes_safe 8 (nfrag a + 1) (pos a) (set_unk_pos (pos a) a)); exact Hen|].
      cbn. intros a' (d & p & -> & Ht & Hp & Hq). split; [|done]. split; [exact Ht|].
      cbn. unfold UHO_NAME. pose proof (closed_pos _ _ Hen). lia.
    - destruct Hen as [Hc Hu]. cbn. split; [|done]. split; [done|]. pose proof (closed_pos _ _ Hc). lia. }
  intros a1 ((Hc & H0 & Hu) & Hs1 & Hl1).
  eapply safe_bind; [by eapply pos_in_bounds_safe|]. intros r [[-> Hp]|[-> _]]; [|done].
  cbn [nz negb Z.eqb]. rewrite (push_ok _ _ _ _ Hc Hp). cbn [mbind res_bind]. specialize (Hu Hp).
  pose proof (table_push _ _ _ _ _ _ _ _ c Hc Hp) as Ht2. set (a2 := set_pos _ _).
  assert (Hv : all_closed (unk_pos a2) a2 /\ parser_state a2 = WSI_TOKEN_NAME_PART /\
               lextable_pos a2 = lextable_pos a /\ 0 <= unk_pos a2 /\ unk_pos a2 + UHO_NAME < pos a2 /\ pos a2 <= L).
  { split; [exact Ht2|]. split; [done|]. split; [done|]. cbn. lia. }
  clearbody a2. clear Ht2. destruct Hv as (Hc2 & Hs2 & Hl2 & H02 & Hu2 & HL2). rewrite Hl2.
  destruct ((lextable_pos a <? 0) && (c =? 58)); [by apply register_unknown_safe|].
  destruct (Z.ltb_spec (lextable_pos a) 0) as [Hneg|Hpos]; [apply name_inv; cbn; rewrite ?Hl2; auto|].
  destruct Hl as [?|[Hok Htok]]; [lia|].
  destruct (lex_ok_next _ c Hok Htok) as (q & -> & Hq). cbn [mbind res_bind].
  by apply (name_walked_safe (set_lextable_pos q a2)).
Qed.

Lemma parse_char_safe c a : env_ok -> inv a -> safe stepped (parse_char E c a).
Proof.
  intros He Hi. unfold parse_char.
  destruct (Z.eqb_spec (parser_state a) WSI_TOKEN_UNKNOWN_VALUE_PART); [by apply unknown_value_safe|].
  destruct Hi as [[Hs Ho]|[(Hs & Hen & Hl)|[(? & _)|[Hs Hc]]]]; [| |done|].
  - unfold value_state, WSI_TOKEN_TABLE in Hs. unfold WSI_TOKEN_NAME_PART, WSI_TOKEN_SKIPPING,
      WSI_TOKEN_SKIPPING_SAW_CR, WSI_PARSING_COMPLETE.
    repeat (match goal with |- context [parser_state a =? ?n] => destruct (Z.eqb_spec (parser_state a) n); [lia|] end).
    by apply value_char_safe.
  - rewrite Hs. by apply name_char_safe.
  - pose proof Hs as Hs'. rewrite !elem_of_cons, elem_of_nil in Hs'.
    assert (Hk : inv a) by by apply closed_inv.
    destruct Hs' as [Es|[Es|[Es|?]]]; [| | |done]; rewrite Es; cbn.
    + unfold skipping_char. destruct (c =? 13); [|done].
      apply (closed_inv (set_parser_state WSI_TOKEN_SKIPPING_SAW_CR a)); [set_solver|exact Hc].
    + unfold saw_cr_char. destruct (negb _); [done|]. destruct (c =? 10); [by eapply new_name_inv|].
      apply (closed_inv (set_parser_state WSI_TOKEN_SKIPPING a)); [set_solver|exact Hc].
    + done.
Qed.

(** ** Reading the finished table *)

Lemma total_length_ok a b fuel n h l :
  (forall i f, 0 <= i <= b -> at_pos (frags a) i f -> fnext f = 0 \/ i < fnext f <= b) ->
  0 <= n <= b -> b < Z.of_nat (length (frags a)) -> (Z.to_nat (b - n) < fuel)%nat ->
  exists r, total_length_loop fuel n h l a = Ok r.
Proof.
  intros Hl. revert n l. induction fuel as [|fuel IH]; intros n l Hn Hb Hf; [lia|].
  destruct (at_index_ok (frags a) n) as (f & Hg & Hp); [lia|].
  cbn [total_length_loop]. unfold frag_get. rewrite Hg. cbn [mbind res_bind].
  destruct (nz (fnext f)) eqn:En; [|by eexists].
  apply nz_true in En. destruct (Hl n f) as [|Hlt]; [done|done|done|]. apply IH; lia.
Qed.

Lemma hdr_total_length_ok k u a h :
  tab k u a -> 0 <= h < WSI_TOKEN_COUNT -> exists l, lws_hdr_total_length h a = Ok l.
Proof.
  intros Ht Hh. unfold lws_hdr_total_length. destruct (index_get_ok _ _ a h Ht Hh) as (n & -> & Hn).
  cbn [mbind res_bind]. destruct (n =? 0); [by eexists|]. destruct Ht.
  apply (total_length_ok a (nfrag a)); [|lia|lia|unfold chain_fuel, WSI_TOKEN_COUNT in *; lia].
  intros i f Hi Hf. apply (ok_link0 i); [lia|done].
Qed.

Lemma c_string_ok d z : d !! z = Some 0 -> exists s, c_string d = Ok s.
Proof.
  revert z. induction d as [|c d IH]; intros z Hz; [done|]. cbn [c_string].
  destruct (Z.eqb_spec c 0); [by eexists|]. destruct z as [|z]; [cbn in Hz; congruence|].
  destruct (IH z) as [s ->]; [done|]. by eexists.
Qed.

Lemma hdr_simple_ptr_ok u a h :
  all_closed u a -> 0 <= h < WSI_TOKEN_COUNT -> exists s, lws_hdr_simple_ptr h a = Ok s.
Proof.
  intros Ht Hh. unfold lws_hdr_simple_ptr. destruct (index_get_ok _ _ a h Ht Hh) as (n & -> & Hn).
  cbn [mbind res_bind]. destruct (Z.eqb_spec n 0); [by eexists|].
  destruct (frag_get_ok _ _ a n Ht) as (f & -> & Hf); [destruct Ht; lia|]. cbn [mbind res_bind].
  destruct Ht. destruct (ok_closed0 n f) as (z & Hz & [_ Hd] & _); [lia|lia|done|].
  pose proof (ok_frag0 n f ltac:(lia) Hf) as Hfo. unfold string_at.
  destruct (Z.ltb_spec (offset f) 0); [lia|].
  destruct (c_string_ok (drop (Z.to_nat (offset f)) (data a)) (Z.to_nat z - Z.to_nat (offset f))) as [s ->];
    [|by eexists].
  rewrite lookup_drop. rewrite <- Hd. f_equal. lia.
Qed.

(** The invariant of the wsi: the table's, and nothing is said of the rest. *)
Definition wsi_inv (w : wsi) : Prop := inv (ah w).

Lemma set_parsing_complete_safe w :
  pos (ah w) <= L /\ (exists u, all_closed u (ah w)) ->
  exists r w', at_set_parsing_complete w = Ok (r, w') /\ (r = LPR_OK -> wsi_inv w').
Proof.
  intros [_ [u Hc]]. unfold at_set_parsing_complete.
  destruct (negb _); [eexists _, _; split; [done|]; done|].
  destruct (hdr_total_length_ok _ _ _ WSI_TOKEN_UPGRADE Hc ltac:(done)) as [x ->].
  destruct (hdr_total_length_ok _ _ _ WSI_TOKEN_VERSION Hc ltac:(done)) as [y Hy].
  destruct (hdr_simple_ptr_ok _ _ WSI_TOKEN_VERSION Hc ltac:(done)) as [z Hz].
  cbn [mbind res_bind]. rewrite Hy.
  assert (exists v, (if nz x then Ok y else Ok 0) = @Ok fault Z v) as [v ->] by by destruct (nz x); eexists.
  cbn [mbind res_bind]. rewrite Hz.
  assert (exists v', (if nz v then Ok z else Ok None) = @Ok fault _ v') as [v' ->] by by destruct (nz v); eexists.
  cbn [mbind res_bind]. eexists _, _. split; [done|]. intros _.
  apply (closed_inv (set_parser_state WSI_PARSING_COMPLETE (ah w))); [set_solver|].
  pose proof (closed_pos _ _ Hc). eapply closed_mono; [exact Hc|]. cbn. lia.
Qed.

End Invariant.

(** From one call to the next. *)
Lemma lws_parse_inv (E : parse_env) (buf : bytes) (w : wsi) :
  env_ok E -> wsi_inv E w -> buf <> [] ->
  match lws_parse E buf w with
  | Ok (r, rest, w') => suffix rest buf /\ (r = LPR_OK -> wsi_inv E w')
  | Err e => e = assert_fails
  end.
Proof.
  intros He. revert w. induction buf as [|c buf IH]; intros w Hw Hne; [done|]. cbn [lws_parse].
  pose proof (parse_char_safe E c (ah w) He Hw) as Hs.
  destruct (parse_char E c (ah w)) as [[o a]|e]; [|exact Hs]. cbn [mbind res_bind]. cbn in Hs.
  assert (Hsuf : suffix buf (c :: buf)) by by exists [c].
  destruct o as [|r| |].
  - destruct buf as [|c' buf']; [split; [done|by intros _]|].
    specialize (IH (set_ah a w) Hs ltac:(done)).
    destruct (lws_parse E (c' :: buf') (set_ah a w)) as [[[r rest] w']|]; [|done].
    destruct IH as [[x ->] ?]. split; [by exists (c :: x)|done].
  - done.
  - destruct (set_parsing_complete_safe E (set_ah a w) Hs) as (r & w' & -> & Hr). done.
  - done.
Qed.

Lemma lws_parse_keeps E buf w rest w' :
  env_ok E -> wsi_inv E w -> lws_parse E buf w = Ok (LPR_OK, rest, w') -> wsi_inv E w'.
Proof.
  intros He Hw Hp. destruct buf as [|c buf]; [done|].
  pose proof (lws_parse_inv E (c :: buf) w He Hw ltac:(done)) as H. rewrite Hp in H. by apply H.
Qed.

(** C20: whatever the characters and however they arrive in pieces, the parser
    touches only elements of its arrays and every loop of it ends: from any
    table it can have left behind, [lws_parse] returns, or the assertion in
    [lws_pos_in_bounds] fails; if it returns without an error the table is
    again one it can have left behind. *)
Theorem lws_parse_safe (E : parse_env) (buf : bytes) (w : wsi) :
  env_ok E -> wsi_inv E w -> buf <> [] ->
  match lws_parse E buf w with
  | Ok (r, rest, w') => suffix rest buf /\ (r = LPR_OK -> wsi_inv E w')
  | Err e => e = assert_fails
  end.
Proof. apply lws_parse_inv. Qed.

End HttpParseSafe.
