(* ===== verification/HttpParseProof.v ===== *)
(** * What the HTTP/1 header parser makes of a request

    A request is a method, a URI, the HTTP version and header lines.  Fed
    character by character, each header line whose name is known adds one
    fragment with its value to the chain of its token, each other one leaves
    the table's fragments alone, and the empty line completes the parsing. *)

From S2P Require Import Prelude CLib HttpLex HttpParse HttpParseSafe.

Module HttpParseProof.
Import HttpParse HttpParseSafe.

(** ** The table seen as texts *)

Definition frag_text (d : bytes) (f : frag) : bytes :=
  take (Z.to_nat (flen f)) (drop (Z.to_nat (offset f)) d).

(** The fragments linked from [n] on. *)
Fixpoint chain (fr : list frag) (n : Z) (l : list Z) : Prop :=
  match l with
  | [] => n = 0
  | i :: l => n = i /\ i <> 0 /\ exists f, at_pos fr i f /\ chain fr (fnext f) l
  end.

(** [C] gives the fragments of each token, [X] the text of each fragment; all
    of them but, if [open], the last are followed by a NUL. *)
Record reads (open : bool) (d : bytes) (fr : list frag) (ix : list Z) (nf : Z)
  (C : Z -> list Z) (X : Z -> bytes) : Prop := {
  rd_chain : forall h, 0 <= h < WSI_TOKEN_COUNT -> exists n, at_pos ix h n /\ chain fr n (C h);
  rd_range : forall h i, i ∈ C h -> 1 <= i <= nf;
  rd_disj : forall h h' i, i ∈ C h -> i ∈ C h' -> h = h';
  rd_text : forall i f, 1 <= i <= nf -> at_pos fr i f -> frag_text d f = X i /\ len (X i) = flen f;
  rd_nul : forall i f, 1 <= i <= nf -> (open = true -> i < nf) -> at_pos fr i f -> at_pos d (offset f + flen f) 0
}.

Definition view (open : bool) (a : allocated_headers) : (Z -> list Z) -> (Z -> bytes) -> Prop :=
  reads open (data a) (frags a) (frag_index a) (nfrag a).

(** The values of a header, one per line it came on. *)
Definition texts (C : Z -> list Z) (X : Z -> bytes) (h : Z) : list bytes := X <$> C h.

(** A function changed at one place. *)
Definition upd {A} (g : Z -> A) (i : Z) (x : A) : Z -> A := fun j => if j =? i then x else g j.

Lemma upd_eq {A} (g : Z -> A) i x : upd g i x i = x.
Proof. unfold upd. by rewrite Z.eqb_refl. Qed.

Lemma upd_ne {A} (g : Z -> A) i j x : j <> i -> upd g i x j = g j.
Proof. unfold upd. intros. by rewrite (proj2 (Z.eqb_neq j i)). Qed.

(** ** Views under updates *)

Lemma slice_ext (d d' : bytes) (o l : nat) :
  (forall j, (o <= j < o + l)%nat -> d !! j = d' !! j) -> take l (drop o d) = take l (drop o d').
Proof.
  intros H. apply list_eq. intros i. destruct (decide (i < l)%nat).
  - rewrite !lookup_take_lt by done. rewrite !lookup_drop. apply H. lia.
  - by rewrite !lookup_take_ge by lia.
Qed.

Lemma frag_text_ext d d' f :
  0 <= offset f -> 0 <= flen f ->
  (forall j, offset f <= j < offset f + flen f -> d !! Z.to_nat j = d' !! Z.to_nat j) ->
  frag_text d f = frag_text d' f.
Proof.
  intros Ho Hl H. apply slice_ext. intros j Hj. rewrite <- (Nat2Z.id j). apply H. lia.
Qed.

(** A write that does not touch the fragments. *)
Lemma reads_write open d fr ix nf C X w c :
  reads open d fr ix nf C X -> 0 <= w ->
  (forall i f, 1 <= i <= nf -> at_pos fr i f ->
     0 <= offset f /\ 0 <= flen f /\
     (w < offset f \/ offset f + flen f < w \/ (open = true /\ i = nf /\ offset f + flen f <= w))) ->
  reads open (<[Z.to_nat w := c]> d) fr ix nf C X.
Proof.
  intros [] Hw H. constructor; auto.
  - intros i f Hi Hf. destruct (rd_text0 i f Hi Hf) as [<- Hlen].
    destruct (H i f Hi Hf) as (? & ? & Hd). split; [|done].
    symmetry. apply frag_text_ext; [done..|]. intros j Hj. symmetry. apply list_lookup_insert_ne. lia.
  - intros i f Hi Ho Hf. destruct (H i f Hi Hf) as (? & ? & Hd). destruct (rd_nul0 i f Hi Ho Hf) as [? Hn].
    split; [lia|]. rewrite list_lookup_insert_ne; [done|].
    destruct Hd as [?|[?|(-> & -> & ?)]]; [lia..|]. specialize (Ho eq_refl). lia.
Qed.

Lemma chain_ext fr fr' n l :
  (forall i f, i ∈ l -> at_pos fr i f -> exists f', at_pos fr' i f' /\ fnext f' = fnext f) ->
  chain fr n l -> chain fr' n l.
Proof.
  revert n. induction l as [|i l IH]; cbn [chain]; [done|]. intros n H (-> & Hi & f & Hf & Hc).
  destruct (H i f) as (f' & Hf' & En); [by left|done|]. split; [done|]. split; [done|].
  exists f'. split; [done|]. rewrite En. apply IH; [|done]. intros j g Hj. apply H. by right.
Qed.

(** Appending a fragment to a chain by linking its last one. *)
Lemma chain_snoc fr n l m f k g :
  chain fr n (l ++ [m]) -> NoDup (l ++ [m]) -> at_pos fr m f -> k <> 0 -> k ∉ l ++ [m] ->
  at_pos fr k g -> fnext g = 0 ->
  chain (<[Z.to_nat m := set_fnext k f]> fr) n (l ++ [m] ++ [k]).
Proof.
  intros Hc Hnd Hm Hk Hkl Hg Hg0. pose proof (at_pos_range _ _ _ Hm) as Hr. revert n Hc.
  induction l as [|i l IH]; cbn [app chain]; intros n.
  - intros (-> & H0 & f' & Hf' & _). split; [done|]. split; [done|]. exists (set_fnext k f).
    split; [apply at_pos_insert; auto|]. cbn. split; [done|]. split; [done|]. exists g.
    split; [|done]. apply at_pos_insert; [done|]. right. split; [|done]. set_solver.
  - intros (-> & H0 & f' & Hf' & Hc). apply NoDup_cons in Hnd as [Hi Hnd].
    split; [done|]. split; [done|]. exists f'. split.
    + apply at_pos_insert; [done|]. right. split; [|done]. set_solver.
    + apply IH; [done|set_solver|done].
Qed.

Lemma chain_last a fuel n l m :
  chain (frags a) n (l ++ [m]) -> (length l < fuel)%nat -> last_fragment fuel n a = Ok m.
Proof.
  revert n l. induction fuel as [|fuel IH]; intros n l; [lia|].
  destruct l as [|i l]; cbn [app chain last_fragment length].
  - intros (-> & H0 & f & Hf & Hn) _. unfold frag_get. rewrite (at_pos_index _ _ _ Hf).
    cbn [mbind res_bind]. by rewrite Hn.
  - intros (-> & H0 & f & Hf & Hn) Hlt. unfold frag_get. rewrite (at_pos_index _ _ _ Hf).
    cbn [mbind res_bind]. assert (fnext f <> 0) as Hne%nz_true.
    { destruct l as [|j l]; cbn [app chain] in Hn; destruct Hn as (-> & ? & _); done. }
    rewrite Hne. apply (IH _ l); [done|lia].
Qed.

(** With links that go upwards a chain is strictly increasing. *)
Lemma chain_up fr b n l :
  (forall i f, i <= b -> at_pos fr i f -> fnext f = 0 \/ i < fnext f <= b) -> n <= b ->
  chain fr n l -> Forall (fun i => n <= i <= b) l /\ NoDup l /\ (0 < n -> Z.of_nat (length l) <= b - n + 1).
Proof.
  intros Hl. revert n. induction l as [|i l IH]; cbn [chain]; intros n Hb.
  { intros ->. split; [constructor|]. split; [constructor|]. cbn. lia. }
  intros (-> & H0 & f & Hf & Hc). pose proof (at_pos_range _ _ _ Hf) as Hr.
  destruct (Hl i f Hb Hf) as [Hz|Hlt].
  - rewrite Hz in Hc. destruct l as [|j l]; [|cbn [chain] in Hc; destruct Hc as (<- & ? & _); done].
    split; [constructor; [lia|constructor]|]. split; [apply NoDup_singleton|]. cbn. lia.
  - destruct (IH (fnext f)) as (Hf1 & Hnd & Hlen); [lia|done|]. split; [|split].
    + constructor; [lia|]. eapply Forall_impl; [exact Hf1|]. cbn. lia.
    + apply NoDup_cons. split; [|done]. intros Hin. rewrite Forall_forall in Hf1. specialize (Hf1 i Hin). lia.
    + cbn [length]. lia.
Qed.

(** The new fragment becomes the first or the last one of its header. *)
Lemma reads_index d fr ix nf C X h g :
  reads true d fr ix nf C X -> C h = [] -> (forall h', nf ∉ C h') -> at_pos fr nf g -> fnext g = 0 -> 1 <= nf ->
  0 <= h < Z.of_nat (length ix) ->
  reads true d fr (<[Z.to_nat h := nf]> ix) nf (upd C h [nf]) X.
Proof.
  intros [] HC Hfresh Hg Hg0 H1 Hh. constructor; auto.
  - intros h' Hh'. unfold upd. destruct (Z.eqb_spec h' h) as [->|Hne].
    + exists nf. split; [apply at_pos_insert; auto|]. cbn. split; [done|]. split; [lia|]. by exists g.
    + destruct (rd_chain0 h' Hh') as (n & Hn & Hc). exists n. split; [apply at_pos_insert; auto|done].
  - intros h' i. unfold upd. destruct (h' =? h); [|apply rd_range0]. rewrite list_elem_of_singleton. lia.
  - intros h1 h2 i. unfold upd. destruct (Z.eqb_spec h1 h) as [->|], (Z.eqb_spec h2 h) as [->|];
      rewrite ?list_elem_of_singleton; intros Hi1 Hi2; subst; try done.
    + by destruct (Hfresh h2). + by destruct (Hfresh h1). + by eapply rd_disj0.
Qed.

Lemma reads_link d fr ix nf C X h l m f g :
  reads true d fr ix nf C X -> C h = l ++ [m] -> NoDup (l ++ [m]) -> (forall h', nf ∉ C h') ->
  at_pos fr m f -> at_pos fr nf g -> fnext g = 0 -> 1 <= nf ->
  reads true d (<[Z.to_nat m := set_fnext nf f]> fr) ix nf (upd C h (l ++ [m] ++ [nf])) X.
Proof.
  intros [] HC Hnd Hfresh Hf Hg Hg0 H1. pose proof (at_pos_range _ _ _ Hf) as Hr.
  assert (Hother : forall h', h' <> h -> m ∉ C h').
  { intros h' Hne Hm. apply Hne. apply (rd_disj0 h' h m); [done|]. rewrite HC. set_solver. }
  constructor; auto.
  - intros h' Hh'. destruct (rd_chain0 h' Hh') as (n & Hn & Hc). exists n. split; [done|].
    destruct (Z.eq_dec h' h) as [->|Hne].
    + rewrite upd_eq. rewrite HC in Hc. eapply chain_snoc; try done; [lia|]. rewrite <- HC. apply Hfresh.
    + rewrite upd_ne by done. eapply chain_ext; [|exact Hc]. intros i e Hi He. exists e. split; [|done].
      apply at_pos_insert; [done|]. right. split; [|done]. intros ->. by apply (Hother h').
  - intros h' i. destruct (Z.eq_dec h' h) as [->|Hne]; [|rewrite upd_ne by done; apply rd_range0].
    rewrite upd_eq, app_assoc, elem_of_app, list_elem_of_singleton. intros [Hi| ->]; [|lia].
    apply (rd_range0 h). by rewrite HC.
  - assert (Hd : forall h' i, h' <> h -> i ∈ C h' -> i ∈ l ++ [m] ++ [nf] -> False).
    { intros h' i Hne Hi. rewrite app_assoc, elem_of_app, list_elem_of_singleton. intros [Hi'| ->].
      - apply Hne. apply (rd_disj0 h' h i); [done|]. by rewrite HC.
      - by apply (Hfresh h'). }
    intros h1 h2 i. unfold upd. destruct (Z.eqb_spec h1 h) as [->|], (Z.eqb_spec h2 h) as [->|]; intros Hi1 Hi2;
      [done| | |by eapply rd_disj0]; exfalso; by eapply Hd.
  - intros i e Hi [[-> ->]|[_ He]]%at_pos_insert; [|by apply rd_text0|done].
    destruct (rd_text0 m f) as [? ?]; done.
  - intros i e Hi Ho [[-> ->]|[_ He]]%at_pos_insert; [|by eapply rd_nul0|done].
    apply (rd_nul0 m f); done.
Qed.

Section Proof.
Context (E : parse_env).

#[local] Abbreviation L := (max_http_header_data E).

(** A write above [u] or into the last entry, with all fragments finished. *)
Lemma closed_write u a C X w c :
  all_closed E u a -> view false a C X -> 0 <= w ->
  u <= w \/ (unk_ll_tail a <> 0 /\ unk_ll_tail a <= w < unk_ll_tail a + UHO_NAME) ->
  reads false (<[Z.to_nat w := c]> (data a)) (frags a) (frag_index a) (nfrag a) C X.
Proof.
  intros Hc Hv Hw Hu. apply reads_write; [done..|]. intros i f Hi Hf.
  destruct Hc. pose proof (ok_frag0 i f ltac:(lia) Hf).
  destruct (ok_closed0 i f) as (z & Hz & _ & _ & Ht); [lia..|done|]. lia.
Qed.

Lemma chains_ext fr fr' ix (C : Z -> list Z) :
  (forall i f, at_pos fr i f -> exists f', at_pos fr' i f' /\ fnext f' = fnext f) ->
  (forall h, 0 <= h < WSI_TOKEN_COUNT -> exists n, at_pos ix h n /\ chain fr n (C h)) ->
  forall h, 0 <= h < WSI_TOKEN_COUNT -> exists n, at_pos ix h n /\ chain fr' n (C h).
Proof.
  intros H Hc h Hh. destruct (Hc h Hh) as (n & Hn & Hch). exists n. split; [done|].
  eapply chain_ext; [|exact Hch]. intros; by apply H.
Qed.

(** The next character of the last fragment. *)
Lemma view_issue u a C X f c :
  tab E (nfrag a) u a -> view true a C X -> at_pos (frags a) (nfrag a) f -> 1 <= nfrag a ->
  pos a < L -> offset f + flen f = pos a ->
  reads true (<[Z.to_nat (pos a) := c]> (data a)) (<[Z.to_nat (nfrag a) := set_flen (flen f + 1) f]> (frags a))
    (frag_index a) (nfrag a) C (upd X (nfrag a) (X (nfrag a) ++ [c])).
Proof.
  intros Ht Hv Hf H1 HL Hp. pose proof (at_pos_range _ _ _ Hf) as Hr.
  assert (Hfo : 0 <= offset f /\ 0 <= flen f).
  { destruct Ht. pose proof (ok_frag0 (nfrag a) f ltac:(lia) Hf). lia. }
  assert (Hd : Z.of_nat (length (data a)) = L) by (destruct Ht; unfold len in *; done).
  assert (Hw : reads true (<[Z.to_nat (pos a) := c]> (data a)) (frags a) (frag_index a) (nfrag a) C X).
  { apply reads_write; [done|lia|]. intros i g Hi Hg. destruct Ht.
    pose proof (ok_frag0 i g ltac:(lia) Hg). destruct (Z.eq_dec i (nfrag a)) as [->|]; [lia|].
    pose proof (ok_closed0 i g ltac:(lia) ltac:(lia) Hg) as (z & Hz & _ & Ho & _).
    specialize (Ho (nfrag a) f ltac:(lia) Hf). lia. }
  destruct Hw. constructor; auto.
  - eapply chains_ext; [|exact rd_chain0]. intros i g Hg. destruct (Z.eq_dec i (nfrag a)) as [->|].
    + pose proof (at_pos_inj _ _ _ _ Hg Hf) as ->. exists (set_flen (flen f + 1) f).
      split; [apply at_pos_insert; auto|done].
    + exists g. split; [apply at_pos_insert; auto|done].
  - intros i g Hi [[-> ->]|[? Hg]]%at_pos_insert; [| |done].
    + rewrite upd_eq. destruct (rd_text0 _ f Hi Hf) as [<- Hlen]. unfold frag_text in *. cbn.
      split.
      * replace (Z.to_nat (flen f + 1)) with (S (Z.to_nat (flen f))) by lia.
        erewrite take_S_r; [done|]. rewrite lookup_drop.
        replace (Z.to_nat (offset f) + Z.to_nat (flen f))%nat with (Z.to_nat (pos a)) by lia.
        apply list_lookup_insert_eq. lia.
      * rewrite len_app, Hlen. done.
    + rewrite upd_ne by done. by apply rd_text0.
  - intros i g Hi Ho [[-> ->]|[? Hg]]%at_pos_insert; [specialize (Ho eq_refl); lia| |done].
    by apply (rd_nul0 i).
Qed.

(** The NUL that finishes the last fragment. *)
Lemma view_close u a C X f :
  tab E (nfrag a) u a -> view true a C X -> at_pos (frags a) (nfrag a) f -> 1 <= nfrag a ->
  pos a < L -> offset f + flen f = pos a ->
  reads false (<[Z.to_nat (pos a) := 0]> (data a)) (frags a) (frag_index a) (nfrag a) C X.
Proof.
  intros Ht Hv Hf H1 HL Hp.
  assert (Hfo : 0 <= offset f /\ 0 <= flen f).
  { destruct Ht. pose proof (ok_frag0 (nfrag a) f ltac:(lia) Hf). lia. }
  assert (Hd : Z.of_nat (length (data a)) = L) by (destruct Ht; unfold len in *; done).
  assert (Hw : reads true (<[Z.to_nat (pos a) := 0]> (data a)) (frags a) (frag_index a) (nfrag a) C X).
  { apply reads_write; [done|lia|]. intros i g Hi Hg. destruct Ht.
    pose proof (ok_frag0 i g ltac:(lia) Hg). destruct (Z.eq_dec i (nfrag a)) as [->|].
    - pose proof (at_pos_inj _ _ _ _ Hg Hf) as ->. lia.
    - pose proof (ok_closed0 i g ltac:(lia) ltac:(lia) Hg) as (z & Hz & _ & Ho & _).
      specialize (Ho (nfrag a) f ltac:(lia) Hf). lia. }
  destruct Hw. constructor; auto. intros i g Hi _ Hg. destruct (Z.eq_dec i (nfrag a)) as [->|].
  - pose proof (at_pos_inj _ _ _ _ Hg Hf) as ->. rewrite Hp. apply at_pos_insert; [lia|auto].
  - apply (rd_nul0 i); [done|lia|done].
Qed.

(** A new empty fragment, not linked yet. *)
Lemma reads_new d fr ix nf C X p fl :
  reads false d fr ix nf C X -> 0 <= nf -> nf + 1 < Z.of_nat (length fr) -> 0 <= p ->
  reads true d (<[Z.to_nat (nf + 1) := mk_frag p 0 0 fl]> fr) ix (nf + 1) C (upd X (nf + 1) []).
Proof.
  intros [] H0 Hr Hp. constructor; auto.
  - intros h Hh. destruct (rd_chain0 h Hh) as (n & Hn & Hc). exists n. split; [done|].
    eapply chain_ext; [|exact Hc]. intros i f Hi Hf. exists f. split; [|done].
    apply at_pos_insert; [lia|]. right. split; [|done]. specialize (rd_range0 h i Hi). lia.
  - intros h i Hi. specialize (rd_range0 h i Hi). lia.
  - intros i f Hi [[-> ->]|[? Hf]]%at_pos_insert; [|rewrite upd_ne by done; apply rd_text0; [lia|done]|lia].
    rewrite upd_eq. done.
  - intros i f Hi Ho [[-> ->]|[? Hf]]%at_pos_insert; [specialize (Ho eq_refl); lia| |lia].
    apply (rd_nul0 i); [lia|done|done].
Qed.

(** ** States between the characters *)

(** The value of header [h] is being read, all of it is in the last
    fragment. *)
Definition in_value (h : Z) (a : allocated_headers) (C : Z -> list Z) (X : Z -> bytes) : Prop :=
  parser_state a = h /\ value_state h /\ last_open E a /\ view true a C X /\
  (exists f, at_pos (frags a) (nfrag a) f /\ offset f + flen f = pos a) /\
  current_token_limit a = L /\ ues a = URIES_IDLE /\ (exists l, C h = l ++ [nfrag a]).

(** A header name is being read, or starts when [lextable_pos a] is 0. *)
Definition in_name (a : allocated_headers) (C : Z -> list Z) (X : Z -> bytes) : Prop :=
  parser_state a = WSI_TOKEN_NAME_PART /\ entry_ok E a /\ view false a C X /\ ues a = URIES_IDLE.

(** What the name being read will have used of the data area when its entry
    is there: eight bytes, twice of them at the very start of the area, where
    position 0 is taken for no entry. *)
Definition used (a : allocated_headers) : Z :=
  if unk_pos a =? 0 then (if pos a =? 0 then 16 else pos a + 8) else pos a.

(** One character that is part of the last fragment. *)
Lemma in_value_issue h a C X c :
  in_value h a C X -> pos a < L < 2 ^ 16 - 1 -> c <> 0 ->
  exists a', issue_char E c a = Ok (0, a') /\ in_value h a' C (upd X (nfrag a) (X (nfrag a) ++ [c])) /\
    pos a' = pos a + 1 /\ nfrag a' = nfrag a /\ ups a' = ups a.
Proof.
  intros (Hs & Hvs & Ho & Hv & (f & Hf & Hp) & Hlim & Hu & Hl) HL Hc.
  pose proof (last_open_frag E a Ho) as (f' & Hg & Hf' & Ht & _ & Hf0 & _).
  pose proof (at_pos_inj _ _ _ _ Hf' Hf) as ->. pose proof Ho as [H1 _].
  pose proof (at_pos_range _ _ _ Hf) as Hr.
  assert (Hnf : 0 <= nfrag a < WSI_TOKEN_COUNT) by (destruct Ht; done).
  assert (Hof : 0 <= offset f) by (destruct Ht; lia).
  unfold issue_char, lws_pos_in_bounds. destruct (Z.ltb_spec (pos a) L); [|lia].
  cbn [mbind res_bind nz negb Z.eqb]. rewrite Hg. cbn [mbind res_bind]. rewrite Hlim.
  destruct (Z.ltb_spec (flen f) L); [|lia]. rewrite orb_true_r.
  rewrite (push_ok E _ _ _ _ Ht) by lia. cbn [mbind res_bind]. rewrite (proj2 (nz_true c) Hc).
  pose proof (table_push E _ _ _ _ _ _ _ _ c Ht ltac:(lia)) as Ht'.
  unfold frag_set. cbn [frags set_pos set_data nfrag]. rewrite put_index_ok by done. cbn [mbind res_bind].
  assert (u16 (flen f + 1) = flen f + 1) as -> by (unfold u16; apply Z.mod_small; lia).
  pose proof (table_flen E _ _ _ _ _ _ _ _ f (flen f + 1) Ht' ltac:(lia) Hf ltac:(lia) ltac:(lia)) as Ht2.
  pose proof (view_issue _ a C X f c Ht Hv Hf H1 ltac:(lia) Hp) as Hv2.
  set (a' := set_frags _ _). exists a'. split; [done|]. split; [|done].
  split; [done|]. split; [done|].
  assert (Hf2 : at_pos (frags a') (nfrag a') (set_flen (flen f + 1) f)) by (apply at_pos_insert; auto).
  split; [|split; [exact Hv2|split; [exists (set_flen (flen f + 1) f); split; [done|cbn; lia]|done]]].
  split; [done|]. exists (set_flen (flen f + 1) f). split; [done|]. split; [exact Ht2|]. cbn. lia.
Qed.

Lemma in_value_pos h a C X : in_value h a C X -> 0 <= pos a.
Proof. intros (_ & _ & (_ & f & _ & [] & _) & _). lia. Qed.

(** The NUL that ends the last fragment; the state may have been changed
    before. *)
Lemma closing_issue a C X s :
  last_open E a -> view true a C X -> (exists f, at_pos (frags a) (nfrag a) f /\ offset f + flen f = pos a) ->
  current_token_limit a = L -> pos a < L < 2 ^ 16 - 1 ->
  exists a', issue_char E 0 (set_parser_state s a) = Ok (0, a') /\ all_closed E (pos a') a' /\
    view false a' C X /\ pos a' = pos a + 1 /\ nfrag a' = nfrag a /\ parser_state a' = s /\ ues a' = ues a /\
    current_token_limit a' = L /\ ups a' = ups a.
Proof.
  intros Ho Hv (f & Hf & Hp) Hlim HL.
  pose proof (last_open_frag E a Ho) as (f' & Hg & Hf' & Ht & _ & Hf0 & _).
  pose proof (at_pos_inj _ _ _ _ Hf' Hf) as ->. pose proof Ho as [H1 _].
  assert (Hof : 0 <= offset f) by (destruct Ht; lia).
  unfold issue_char, lws_pos_in_bounds. cbn [pos set_parser_state nfrag].
  destruct (Z.ltb_spec (pos a) L); [|lia]. cbn [mbind res_bind nz negb Z.eqb].
  change (frag_get (nfrag a) (set_parser_state s a)) with (frag_get (nfrag a) a). rewrite Hg.
  cbn [mbind res_bind current_token_limit set_parser_state]. rewrite Hlim.
  destruct (Z.ltb_spec (flen f) L); [|lia]. rewrite orb_true_r.
  rewrite (push_ok E (nfrag a) (offset f)) by first [exact Ht | cbn; lia]. cbn [mbind res_bind].
  eexists. split; [done|].
  split; [exact (table_close E _ _ _ _ _ _ _ _ Ht Hf ltac:(lia))|].
  split; [exact (view_close _ a C X f Ht Hv Hf H1 ltac:(lia) Hp)|done].
Qed.

(** ** Runs of characters *)

(** Feeds characters that all end with [Break]. *)
Fixpoint feed (s : bytes) (a : allocated_headers) : option allocated_headers :=
  match s with
  | [] => Some a
  | c :: s => match parse_char E c a with Ok (Break, a) => feed s a | _ => None end
  end.

Lemma feed_app s s' a : feed (s ++ s') a = a' ← feed s a; feed s' a'.
Proof.
  revert a. induction s as [|c s IH]; intros a; cbn [feed app]; [done|].
  destruct (parse_char E c a) as [[[] a']|]; done.
Qed.

Lemma set_ah_twice a a' w : set_ah a (set_ah a' w) = set_ah a w.
Proof. reflexivity. Qed.

Lemma lws_parse_feed s rest w a :
  feed s (ah w) = Some a -> rest <> [] -> lws_parse E (s ++ rest) w = lws_parse E rest (set_ah a w).
Proof.
  revert w. induction s as [|c s IH]; intros w Hf Hr.
  { injection Hf as <-. destruct w. done. }
  cbn [feed] in Hf. cbn [app lws_parse]. destruct (parse_char E c (ah w)) as [[[] a']|]; try done.
  cbn [mbind res_bind]. specialize (IH (set_ah a' w) Hf Hr). rewrite set_ah_twice in IH.
  destruct (s ++ rest) eqn:Es; [|exact IH]. by apply app_nil in Es as [_ ->].
Qed.

(** ** Header values *)

Lemma reads_ext open d fr ix nf C X C' X' :
  (forall h, C h = C' h) -> (forall i, X i = X' i) -> reads open d fr ix nf C X -> reads open d fr ix nf C' X'.
Proof.
  intros HC HX []. constructor; auto.
  - intros h Hh. rewrite <- HC. auto.
  - intros h i. rewrite <- HC. apply rd_range0.
  - intros h h' i. rewrite <- !HC. apply rd_disj0.
  - intros i f. rewrite <- HX. apply rd_text0.
Qed.

Lemma in_value_ext h a C X X' : (forall i, X i = X' i) -> in_value h a C X -> in_value h a C X'.
Proof.
  intros HX (? & ? & ? & Hv & ?). repeat (split; [done|]). split; [|done]. by eapply reads_ext.
Qed.

(** The first fragment of the header whose value is read. *)
Lemma in_value_first h a C X i l :
  in_value h a C X -> C h = i :: l ->
  exists f, index_get h a = Ok i /\ frag_get i a = Ok f /\ flen f = len (X i).
Proof.
  intros (_ & [Hh _] & _ & Hv & _) HC. destruct Hv as [Hch Hrg _ Htx _].
  destruct (Hch h) as (n & Hn & Hc); [unfold WSI_TOKEN_TABLE, WSI_TOKEN_COUNT in *; lia|].
  rewrite HC in Hc. destruct Hc as (-> & _ & f & Hf & _). exists f.
  split; [by apply at_pos_index|]. split; [by apply at_pos_index|].
  destruct (Htx i f) as [_ ->]; [apply (Hrg h); rewrite HC; by left|done|done].
Qed.

(** What the parser keeps of the characters [v] behind [cur]: spaces are
    dropped as long as the first fragment of the header ([first], or this one
    if [same]) is empty. *)
Fixpoint store (first : bytes) (same : bool) (cur v : bytes) : bytes :=
  match v with
  | [] => cur
  | c :: v =>
    if (len (if same then cur else first) =? 0) && (c =? 32) then store first same cur v
    else store first same (cur ++ [c]) v
  end.

Lemma store_same f f' cur v : store f true cur v = store f' true cur v.
Proof. revert cur. induction v as [|c v IH]; intros cur; cbn [store]; [done|]. by rewrite !IH. Qed.

Definition plain (v : bytes) : Prop := Forall (fun c => c <> 0 /\ c <> 13) v.

Lemma parse_char_value c a : value_state (parser_state a) -> parse_char E c a = value_char E c a.
Proof.
  intros [Hs _]. unfold parse_char, WSI_TOKEN_TABLE in *.
  unfold WSI_TOKEN_UNKNOWN_VALUE_PART, WSI_TOKEN_NAME_PART, WSI_TOKEN_SKIPPING,
    WSI_TOKEN_SKIPPING_SAW_CR, WSI_PARSING_COMPLETE.
  repeat (match goal with |- context [parser_state a =? ?n] => destruct (Z.eqb_spec (parser_state a) n); [lia|] end).
  done.
Qed.

(** One character of a value that is not the end of the line. *)
Lemma value_step h a C X i l c :
  in_value h a C X -> h ∉ methods -> C h = i :: l -> pos a < L < 2 ^ 16 - 1 -> c <> 0 -> c <> 13 ->
  exists a' t, parse_char E c a = Ok (Break, a') /\
    t = store (X i) (i =? nfrag a) (X (nfrag a)) [c] /\
    in_value h a' C (upd X (nfrag a) t) /\ pos a' <= pos a + 1 /\ nfrag a' = nfrag a.
Proof.
  intros Hv Hm HC HL H0 H13. pose proof Hv as (Hs & Hvs & _).
  rewrite parse_char_value by by rewrite Hs. unfold value_char. rewrite Hs.
  destruct (in_value_first _ _ _ _ _ _ Hv HC) as (f & -> & Hf & Hl). cbn [mbind res_bind]. rewrite Hf.
  cbn [mbind res_bind]. rewrite Hl. cbn [store].
  assert ((if i =? nfrag a then X (nfrag a) else X i) = X i) as ->.
  { destruct (Z.eqb_spec i (nfrag a)) as [->|]; done. }
  destruct ((len (X i) =? 0) && (c =? 32)).
  { exists a, (X (nfrag a)). split; [done|]. split; [done|]. split; [|lia].
    eapply in_value_ext; [|exact Hv]. intros j. unfold upd. by destruct (Z.eqb_spec j (nfrag a)) as [->|]. }
  rewrite bool_decide_eq_false_2 by done. cbn [negb]. unfold at_check_eol.
  rewrite (proj2 (Z.eqb_neq c 13) H13), andb_false_r. cbn [andb].
  destruct (in_value_issue h a C X c Hv HL H0) as (a' & -> & Hv' & Hp & Hn & _). cbn [mbind res_bind].
  change (0 <? 0) with false. change (0 >? 0) with false. cbn match.
  unfold at_swallow. pose proof Hv' as (Hs' & _). rewrite Hs'. destruct Hvs as [_ Hne].
  rewrite (proj2 (Z.eqb_neq h _) Hne). exists a', (X (nfrag a) ++ [c]).
  split; [done|]. split; [done|]. split; [done|]. lia.
Qed.

Lemma value_run h a C X i l v :
  in_value h a C X -> h ∉ methods -> C h = i :: l -> plain v -> pos a + len v <= L < 2 ^ 16 - 1 ->
  exists a', feed v a = Some a' /\
    in_value h a' C (upd X (nfrag a) (store (X i) (i =? nfrag a) (X (nfrag a)) v)) /\
    pos a' <= pos a + len v /\ nfrag a' = nfrag a.
Proof.
  intros Hv Hm HC Hp. revert a X Hv. induction Hp as [|c v [H0 H13] _ IH]; intros a X Hv HL.
  { exists a. split; [done|]. split; [|rewrite len_nil; lia]. eapply in_value_ext; [|exact Hv].
    intros j. unfold upd. by destruct (Z.eqb_spec j (nfrag a)) as [->|]. }
  rewrite len_cons in *. pose proof (len_nonneg v).
  destruct (value_step h a C X i l c Hv Hm HC ltac:(lia) H0 H13) as (a1 & t & Hc & Et & Hv1 & Hp1 & Hn1).
  destruct (IH a1 _ Hv1 ltac:(lia)) as (a2 & Hf2 & Hv2 & Hp2 & Hn2).
  exists a2. cbn [feed]. rewrite Hc. split; [done|]. split; [|lia].
  eapply in_value_ext; [|exact Hv2]. intros j. rewrite Hn1.
  destruct (Z.eq_dec j (nfrag a)) as [->|Hj]; [|by rewrite !upd_ne].
  rewrite !upd_eq, Et. cbn [store]. destruct (Z.eqb_spec i (nfrag a)) as [->|Hi].
  - rewrite upd_eq. destruct (_ && _); [done|]. apply store_same.
  - rewrite upd_ne by done. by destruct (_ && _).
Qed.

(** The end of a line: the value is finished, a name may start. *)
Definition line_start (a : allocated_headers) (C : Z -> list Z) (X : Z -> bytes) : Prop :=
  in_name a C X /\ unk_pos a = 0 /\ lextable_pos a = 0.

Lemma value_end h a C X :
  in_value h a C X -> h ∉ methods -> pos a < L < 2 ^ 16 - 1 ->
  exists a', feed crlf a = Some a' /\ line_start a' C X /\ pos a' = pos a + 1 /\ nfrag a' = nfrag a.
Proof.
  intros Hv Hm HL. pose proof Hv as (Hs & Hvs & Ho & Hvw & Hsync & Hlim & Hu & (l & HC)).
  unfold crlf. cbn [feed]. rewrite parse_char_value by by rewrite Hs. unfold value_char. rewrite Hs.
  destruct (C h) as [|i l'] eqn:EC; [by destruct l|].
  destruct (in_value_first _ _ _ _ _ _ Hv EC) as (f & -> & Hf & Hl). cbn [mbind res_bind]. rewrite Hf.
  cbn [mbind res_bind]. rewrite andb_false_r, bool_decide_eq_false_2 by done. cbn [negb].
  unfold at_check_eol. rewrite Hs, (proj2 (Z.eqb_neq h _) (proj2 Hvs)), Hu.
  cbn [negb andb bool_decide Z.eqb Pos.eqb]. rewrite bool_decide_eq_true_2 by done. cbn [negb andb].
  destruct (closing_issue a C X WSI_TOKEN_SKIPPING_SAW_CR Ho Hvw Hsync Hlim HL)
    as (a1 & -> & Hc & Hv1 & Hp1 & Hn1 & Hs1 & Hu1 & _). cbn [mbind res_bind].
  change (0 <? 0) with false. change (0 >? 0) with false. cbn match.
  unfold at_swallow. rewrite Hs1. cbn [Z.eqb Pos.eqb WSI_TOKEN_SKIPPING_SAW_CR WSI_TOKEN_CHALLENGE brk].
  unfold parse_char. rewrite Hs1. cbn [Z.eqb Pos.eqb WSI_TOKEN_SKIPPING_SAW_CR WSI_TOKEN_UNKNOWN_VALUE_PART
    WSI_TOKEN_NAME_PART WSI_TOKEN_SKIPPING].
  unfold saw_cr_char. rewrite Hu1, Hu, bool_decide_eq_true_2 by done. cbn [negb Z.eqb Pos.eqb brk].
  eexists. split; [done|]. split; [|done]. split; [|done]. split; [done|].
  split; [exact Hc|]. split; [exact Hv1|]. cbn. by rewrite Hu1.
Qed.

(** ** Header names *)

Lemma entry_bytes_exact u a C X :
  all_closed E u a -> view false a C X -> forall j, pos a + Z.of_nat j <= L ->
  exists d, entry_bytes E j a = Ok (set_pos (pos a + Z.of_nat j) (set_data d a)) /\
    all_closed E u (set_pos (pos a + Z.of_nat j) (set_data d a)) /\
    view false (set_pos (pos a + Z.of_nat j) (set_data d a)) C X.
Proof.
  intros Hc Hv j. revert a Hc Hv. induction j as [|j IH]; intros a Hc Hv HL.
  { exists (data a). replace (pos a + Z.of_nat 0) with (pos a) by lia. by destruct a. }
  cbn [entry_bytes]. unfold lws_pos_in_bounds. destruct (Z.ltb_spec (pos a) L); [|lia].
  cbn [mbind res_bind nz negb Z.eqb]. rewrite (push_ok E _ _ _ _ Hc) by lia. cbn [mbind res_bind].
  set (a1 := set_pos _ _).
  assert (Hc1 : all_closed E u a1) by exact (table_push E _ _ _ _ _ _ _ _ 0 Hc ltac:(lia)).
  assert (Hv1 : view false a1 C X).
  { pose proof (closed_pos _ _ _ Hc). apply (closed_write u a C X (pos a) 0); auto; lia. }
  destruct (IH a1 Hc1 Hv1) as (d & -> & Hc2 & Hv2); [cbn; lia|]. exists d.
  assert (Es : set_pos (pos a1 + Z.of_nat j) (set_data d a1) = set_pos (pos a + Z.of_nat (S j)) (set_data d a)).
  { unfold a1, set_pos, set_data. cbn. f_equal. lia. }
  by rewrite <- Es.
Qed.

(** A character of a name is stored. *)
Definition named (a : allocated_headers) (C : Z -> list Z) (X : Z -> bytes) : Prop :=
  all_closed E (unk_pos a) a /\ 0 <= unk_pos a /\ unk_pos a + UHO_NAME < pos a <= L /\ view false a C X /\
  parser_state a = WSI_TOKEN_NAME_PART /\ ues a = URIES_IDLE.

Lemma name_store c a C X :
  in_name a C X -> used a + 1 <= L ->
  exists a', parse_char E c a = name_next E (tolower c) a' /\ named a' C X /\
    lextable_pos a' = lextable_pos a /\ nfrag a' = nfrag a /\ used a' <= used a + 1.
Proof.
  intros (Hs & Hen & Hv & Hu) HL. unfold parse_char. rewrite Hs.
  cbn [Z.eqb Pos.eqb WSI_TOKEN_UNKNOWN_VALUE_PART WSI_TOKEN_NAME_PART]. unfold name_char.
  assert (exists a1, (if unk_pos a =? 0 then entry_bytes E 8 (set_unk_pos (pos a) a) else Ok a) = Ok a1 /\
    all_closed E (unk_pos a1) a1 /\ 0 <= unk_pos a1 /\ unk_pos a1 + UHO_NAME <= pos a1 /\ view false a1 C X /\
    parser_state a1 = WSI_TOKEN_NAME_PART /\ ues a1 = URIES_IDLE /\ lextable_pos a1 = lextable_pos a /\
    nfrag a1 = nfrag a /\ pos a1 < L /\ used a1 <= used a) as
    (a1 & -> & Hc1 & H01 & Hp1 & Hv1 & Hs1 & Hu1 & Hl1 & Hn1 & HL1 & Hus).
  { unfold entry_ok in Hen. unfold used in *. unfold UHO_NAME in *. destruct (Z.eqb_spec (unk_pos a) 0) as [E0|E0].
    - pose proof (closed_pos _ _ _ Hen) as Hp0.
      assert (HL' : pos a + 9 <= L) by (revert HL; destruct (Z.eqb_spec (pos a) 0); lia).
      destruct (entry_bytes_exact (pos a) (set_unk_pos (pos a) a) C X Hen Hv 8) as (d & -> & Hc & Hv').
      { cbn. lia. }
      eexists. split; [done|]. split; [exact Hc|]. cbn. split; [lia|]. split; [lia|]. split; [exact Hv'|].
      repeat (split; [done|]). split; [lia|]. destruct (Z.eqb_spec (pos a) 0); [|lia].
      change (Z.of_nat 8) with 8. destruct (Z.eqb_spec (pos a + 8) 0); lia.
    - destruct Hen as [Hc Hp]. pose proof (closed_pos _ _ _ Hc).
      exists a. rewrite (proj2 (Z.eqb_neq _ _) E0). repeat (split; [done|]).
      split; [lia|]. split; [lia|]. repeat (split; [done|]). lia. }
  cbn [mbind res_bind]. unfold lws_pos_in_bounds. destruct (Z.ltb_spec (pos a1) L); [|lia].
  cbn [mbind res_bind nz negb Z.eqb]. rewrite (push_ok E _ _ _ _ Hc1) by lia. cbn [mbind res_bind].
  eexists. split; [done|].
  split; [|split; [done|split; [done|]]].
  - split; [exact (table_push E _ _ _ _ _ _ _ _ (tolower c) Hc1 ltac:(lia))|]. cbn. split; [done|].
    split; [lia|]. split; [|done]. apply (closed_write (unk_pos a1) a1 C X (pos a1) (tolower c)); auto; unfold UHO_NAME in *; lia.
  - unfold used in *. cbn. unfold UHO_NAME in *. destruct (Z.eqb_spec (unk_pos a1) 0); [|lia].
    destruct (Z.eqb_spec (pos a1) 0); [lia|]. destruct (Z.eqb_spec (pos a1 + 1) 0); lia.
Qed.

Lemma named_name a C X : named a C X -> in_name a C X.
Proof.
  intros (Hc & H0 & Hp & Hv & Hs & Hu). split; [done|]. split; [|done]. unfold entry_ok.
  destruct (Z.eqb_spec (unk_pos a) 0); [|split; [done|lia]].
  eapply closed_mono; [exact Hc|]. unfold UHO_NAME in *. lia.
Qed.

(** ** Starting a value *)

(** The text a new fragment starts with. *)
Definition start_text (l : list Z) : bytes := match l with [] => [] | _ => [32] end.

(** The table with the new fragment, before it belongs to a header. *)
Definition started (a a1 : allocated_headers) (C : Z -> list Z) (X : Z -> bytes) (h : Z) : Prop :=
  at_pos (frags a1) (nfrag a1) (mk_frag (pos a) 0 0 2) /\ tab E (nfrag a1) (pos a1) a1 /\
  view true a1 C (upd X (nfrag a1) []) /\ nfrag a1 = nfrag a + 1 /\ pos a1 = pos a /\ parser_state a1 = h /\
  current_token_limit a1 = L /\ ues a1 = URIES_IDLE /\ ups a1 = ups a /\ 1 <= nfrag a1.

Lemma start_new u a C X h :
  all_closed E u a -> view false a C X -> parser_state a = h -> current_token_limit a = L ->
  ues a = URIES_IDLE -> nfrag a + 1 < WSI_TOKEN_COUNT ->
  exists a1, at_start_fragment E a =
    (n ← index_get h a1;
     if n =? 0 then
       a2 ← index_set h (nfrag a1) a1; brk (set_hdr_token_idx (parser_state a2) a2)
     else
       n ← last_fragment chain_fuel n a1;
       f ← frag_get n a1;
       a2 ← frag_set n (set_fnext (nfrag a1) f) a1;
       '(r, a2) ← issue_char E 32 a2;
       if r <? 0 then Ok (Ret LPR_FAIL, a2) else brk a2) /\ started a a1 C X h.
Proof.
  intros Hc Hv Hs Hlim Hu Hnf.
  assert (Hn0 : 0 <= nfrag a < WSI_TOKEN_COUNT) by (destruct Hc; done).
  assert (Hlen : Z.of_nat (length (frags a)) = WSI_TOKEN_COUNT) by (destruct Hc; done).
  assert (Hp0 : 0 <= pos a) by (destruct Hc; lia).
  unfold at_start_fragment. rewrite (u8_nfrag E _ Hn0). unfold at_excessive.
  change (nfrag (set_nfrag _ a)) with (nfrag a + 1).
  destruct (Z.eqb_spec (nfrag a + 1) WSI_TOKEN_COUNT) as [|_]; [lia|].
  unfold frag_set at 2. cbn [frags set_nfrag]. rewrite put_index_ok by lia. cbn [mbind res_bind].
  pose proof (table_new E _ _ _ _ _ _ _ 2 Hc ltac:(lia)) as Ht1.
  pose proof (reads_new _ _ _ _ _ _ (pos a) 2 Hv ltac:(lia) ltac:(lia) Hp0) as Hv1.
  set (a1 := set_frags _ _). exists a1.
  change (parser_state a1) with (parser_state a). rewrite Hs. split; [done|].
  split; [apply at_pos_insert; [cbn; lia|auto]|]. split; [exact Ht1|]. split; [exact Hv1|]. cbn.
  split_and!; try done. lia.
Qed.

(** The header has no fragment yet. *)
Lemma start_first u a C X h :
  all_closed E u a -> view false a C X -> parser_state a = h -> value_state h -> current_token_limit a = L ->
  0 <= L -> ues a = URIES_IDLE -> nfrag a + 1 < WSI_TOKEN_COUNT -> C h = [] ->
  exists a', at_start_fragment E a = Ok (Break, a') /\
    in_value h a' (upd C h [nfrag a + 1]) (upd X (nfrag a + 1) []) /\
    nfrag a' = nfrag a + 1 /\ pos a' = pos a /\ ups a' = ups a.
Proof.
  intros Hc Hv Hs Hvs Hlim HL Hu Hnf HC.
  destruct (start_new u a C X h Hc Hv Hs Hlim Hu Hnf)
    as (a1 & -> & Hg & Ht1 & Hv1 & Fn & Fp & Fs & Fl & Fu & Fup & H1).
  assert (Hh : 0 <= h < WSI_TOKEN_COUNT) by (destruct Hvs; unfold WSI_TOKEN_TABLE, WSI_TOKEN_COUNT in *; lia).
  destruct (rd_chain _ _ _ _ _ _ _ Hv1 h Hh) as (n & Hn & Hch). rewrite HC in Hch. cbn in Hch. subst n.
  unfold index_get. rewrite (at_pos_index _ _ _ Hn). cbn [mbind res_bind Z.eqb].
  rewrite (index_set_ok E _ _ _ _ _ Ht1 Hh). cbn [mbind res_bind brk]. rewrite <- Fn.
  eexists. split; [done|]. split; [|cbn; split_and!; done].
  split; [cbn; done|]. split; [done|]. split; [|split; [|split; [|split; [done|split; [done|]]]]].
  - apply (table_last_open E _ 2); [cbn; lia|cbn; lia|cbn; rewrite Fp; exact Hg|].
    eapply table_index; [exact Ht1|done|cbn; lia].
  - eapply reads_index; [exact Hv1|exact HC| |exact Hg|done|cbn; lia|destruct Ht1; cbn; lia].
    intros h' Hi. pose proof (rd_range _ _ _ _ _ _ _ Hv h' _ Hi). cbn in *. lia.
  - eexists. split; [exact Hg|cbn; lia].
  - exists []. rewrite upd_eq. done.
Qed.

(** The header has some: the new one is linked to the last of them. *)
Lemma start_next u a C X h l m :
  all_closed E u a -> view false a C X -> parser_state a = h -> value_state h -> current_token_limit a = L ->
  ues a = URIES_IDLE -> nfrag a + 1 < WSI_TOKEN_COUNT -> pos a < L < 2 ^ 16 - 1 -> C h = l ++ [m] ->
  exists a', at_start_fragment E a = Ok (Break, a') /\
    in_value h a' (upd C h (l ++ [m] ++ [nfrag a + 1])) (upd X (nfrag a + 1) [32]) /\
    nfrag a' = nfrag a + 1 /\ pos a' = pos a + 1 /\ ups a' = ups a.
Proof.
  intros Hc Hv Hs Hvs Hlim Hu Hnf HL EC. assert (Hp0 : 0 <= pos a) by (destruct Hc; lia).
  destruct (start_new u a C X h Hc Hv Hs Hlim Hu Hnf)
    as (a1 & -> & Hg & Ht1 & Hv1 & Fn & Fp & Fs & Fl & Fu & Fup & H1). rewrite <- Fn.
  assert (Hh : 0 <= h < WSI_TOKEN_COUNT) by (destruct Hvs; unfold WSI_TOKEN_TABLE, WSI_TOKEN_COUNT in *; lia).
  destruct (rd_chain _ _ _ _ _ _ _ Hv1 h Hh) as (n & Hn & Hch). rewrite EC in Hch.
  destruct (chain_up (frags a1) (nfrag a1) n (l ++ [m])) as (Hrg & Hnd & Hlenc);
    [by destruct Ht1|destruct Ht1; by eapply ok_index0|done|].
  assert (Hn1 : 0 < n).
  { destruct l as [|j l']; cbn [app chain] in Hch; destruct Hch as (-> & ? & e & He & _);
      pose proof (at_pos_range _ _ _ He); lia. }
  unfold index_get. rewrite (at_pos_index _ _ _ Hn). cbn [mbind res_bind].
  rewrite (proj2 (Z.eqb_neq n 0) ltac:(lia)), (chain_last a1 chain_fuel n l m Hch).
  2: { specialize (Hlenc Hn1). rewrite length_app in Hlenc. cbn in Hlenc.
       destruct Ht1. unfold chain_fuel, WSI_TOKEN_COUNT in *. lia. }
  cbn [mbind res_bind]. assert (Hm : 1 <= m < nfrag a1).
  { pose proof (rd_range _ _ _ _ _ _ _ Hv h m ltac:(rewrite EC; set_solver)). lia. }
  destruct (at_index_ok (frags a1) m) as (f & Hgf & Hf); [destruct Ht1; lia|].
  unfold frag_get, frag_set. rewrite Hgf. cbn [mbind res_bind].
  rewrite put_index_ok by by eapply at_pos_range. cbn [mbind res_bind].
  pose proof (table_link E _ _ _ _ _ _ _ _ m f (nfrag a1) Ht1 Hf ltac:(lia) ltac:(lia)) as Ht2.
  assert (Hfresh : forall h', nfrag a1 ∉ C h').
  { intros h' Hi. pose proof (rd_range _ _ _ _ _ _ _ Hv h' _ Hi). lia. }
  pose proof (reads_link _ _ _ _ _ _ h l m f _ Hv1 EC Hnd Hfresh Hf Hg eq_refl ltac:(lia)) as Hv2.
  set (a2 := set_frags _ _).
  assert (Hg2 : at_pos (frags a2) (nfrag a2) (mk_frag (pos a) 0 0 2)).
  { apply at_pos_insert; [by eapply at_pos_range|]. right. split; [cbn; lia|exact Hg]. }
  assert (Hiv : in_value h a2 (upd C h (l ++ [m] ++ [nfrag a1])) (upd X (nfrag a1) [])).
  { split; [done|]. split; [done|]. split; [|split; [exact Hv2|]].
    - apply (table_last_open E _ 2); [cbn; lia|cbn; lia|cbn; rewrite Fp; exact Hg2|exact Ht2].
    - split; [eexists; split; [exact Hg2|cbn; lia]|]. split; [done|]. split; [done|].
      exists (l ++ [m]). rewrite upd_eq, <- app_assoc. done. }
  assert (F2 : nfrag a2 = nfrag a1 /\ pos a2 = pos a1 /\ ups a2 = ups a1) by done. clearbody a2.
  destruct F2 as (Fn2 & Fp2 & Fup2).
  destruct (in_value_issue h a2 _ _ 32 Hiv ltac:(lia) ltac:(done)) as (a3 & -> & Hiv3 & Hp3 & Hn3 & Hup3).
  cbn [mbind res_bind brk]. change (0 <? 0) with false. cbn match. exists a3. split; [done|].
  split; [|split_and!; [lia|lia|congruence]].
  eapply in_value_ext; [|exact Hiv3]. intros j. rewrite Fn2.
  destruct (Z.eq_dec j (nfrag a1)) as [->|]; [by rewrite !upd_eq|by rewrite !upd_ne].
Qed.

Lemma start_spec u a C X h :
  all_closed E u a -> view false a C X -> parser_state a = h -> value_state h -> current_token_limit a = L ->
  ues a = URIES_IDLE -> nfrag a + 1 < WSI_TOKEN_COUNT -> pos a < L < 2 ^ 16 - 1 ->
  exists a', at_start_fragment E a = Ok (Break, a') /\
    in_value h a' (upd C h (C h ++ [nfrag a + 1])) (upd X (nfrag a + 1) (start_text (C h))) /\
    nfrag a' = nfrag a + 1 /\ pos a' <= pos a + 1 /\ ups a' = ups a.
Proof.
  intros Hc Hv Hs Hvs Hlim Hu Hnf HL. assert (Hp0 : 0 <= pos a) by (destruct Hc; lia).
  destruct (C h) as [|i l] eqn:EC.
  - destruct (start_first u a C X h) as (a' & ? & ? & ? & ? & ?); try done; [lia|].
    exists a'. split_and!; try done. lia.
  - destruct (exists_last (l := i :: l) ltac:(done)) as (l' & m & El). cbn [start_text].
    rewrite El in *. destruct (start_next u a C X h l' m) as (a' & ? & ? & ? & ? & ?); try done.
    exists a'. rewrite <- app_assoc. split_and!; try done. lia.
Qed.

(** ** Whole names *)

Lemma lex_step_inv p c q :
  lex_step p c = Some q -> lex_token p = Ok None /\ lex_next p c = Ok (q, false) /\ 0 <= q.
Proof.
  unfold lex_step. destruct (lex_token p) as [[]|]; try done. destruct (lex_next p c) as [[q' []]|]; try done.
  destruct (Z.ltb_spec q' 0); [done|]. by intros [= ->].
Qed.

Lemma name_next_walk a C X p c q :
  named a C X -> lextable_pos a = p -> 0 <= p -> lex_next p c = Ok (q, false) ->
  name_next E c a = name_walked E (set_lextable_pos q a).
Proof.
  intros _ Hp H0 Hn. unfold name_next. rewrite Hp. destruct (Z.ltb_spec p 0); [lia|]. cbn [andb].
  by rewrite Hn.
Qed.

Lemma name_run a C X p s q :
  in_name a C X -> lextable_pos a = p -> 0 <= p -> lex_walk (Some p) (tolower <$> s) = Some q ->
  lex_token q = Ok None -> used a + len s <= L ->
  exists a', feed s a = Some a' /\ in_name a' C X /\ lextable_pos a' = q /\ nfrag a' = nfrag a /\
    used a' <= used a + len s /\ 0 <= q.
Proof.
  revert a p. induction s as [|c s IH]; intros a p Hin Hp H0 Hw Ht HL.
  { injection Hw as <-. exists a. rewrite len_nil. auto with lia. }
  rewrite len_cons in *. pose proof (len_nonneg s). unfold lex_walk in Hw.
  cbn [fmap list_fmap fold_left mbind option_bind] in Hw.
  destruct (lex_step p (tolower c)) as [p1|] eqn:Es; [|by rewrite (lex_walk_None _ : fold_left _ _ None = None) in Hw].
  apply lex_step_inv in Es as (_ & Hn & Hp1).
  assert (Ht1 : lex_token p1 = Ok None).
  { destruct s as [|c' s]; [by injection Hw as ->|]. cbn [fmap list_fmap fold_left mbind option_bind] in Hw.
    destruct (lex_step p1 (tolower c')) eqn:Es; [by apply lex_step_inv in Es as []|].
    by rewrite (lex_walk_None _ : fold_left _ _ None = None) in Hw. }
  destruct (name_store c a C X Hin ltac:(lia)) as (a1 & Hc & Hnm & Hl1 & Hn1 & Hu1).
  cbn [feed]. rewrite Hc, (name_next_walk a1 C X p _ p1 Hnm ltac:(congruence) H0 Hn).
  unfold name_walked. cbn [lextable_pos set_lextable_pos].
  destruct (Z.ltb_spec p1 0); [lia|]. cbn [andb]. rewrite Ht1. cbn [mbind res_bind brk].
  destruct (IH (set_lextable_pos p1 a1) p1) as (a2 & Hf & Hin2 & Hl2 & Hn2 & Hu2 & H02); try done.
  { exact (named_name _ _ _ Hnm). } { change (used (set_lextable_pos p1 a1)) with (used a1). lia. }
  change (used (set_lextable_pos p1 a1)) with (used a1) in Hu2. change (nfrag (set_lextable_pos p1 a1)) with (nfrag a1) in Hn2.
  exists a2. split; [done|]. split; [done|]. split; [done|]. split; [congruence|]. lia.
Qed.

(** The whole name of token [n] up to its terminal marker. *)
Lemma name_word a C X s n :
  line_start a C X -> lex_word 0 (tolower <$> s) = Some n -> used a + len s <= L -> 0 <= n ->
  exists s0 c a1 a2, s = s0 ++ [c] /\ feed s0 a = Some a1 /\ parse_char E c a1 = known_header E n a2 /\
    named a2 C X /\ nfrag a2 = nfrag a /\ pos a2 <= used a + len s.
Proof.
  intros (Hin & _ & Hl) Hw HL Hn. destruct s as [|c s _] using rev_ind.
  { rewrite lex_word_nil, lex_token_0 in Hw. done. }
  rewrite fmap_app in Hw. cbn [fmap list_fmap] in Hw. unfold lex_word, lex_walk in Hw.
  rewrite fold_left_app in Hw. cbn [fold_left] in Hw. rewrite len_app, len_cons, len_nil in *.
  change (fold_left _ (tolower <$> s) (Some 0)) with (lex_walk (Some 0) (tolower <$> s)) in Hw.
  destruct (lex_walk (Some 0) (tolower <$> s)) as [p|] eqn:Ew; cbn [mbind option_bind] in Hw; [|done].
  destruct (lex_step p (tolower c)) as [q|] eqn:Es; cbn [mbind option_bind] in Hw; [|done].
  apply lex_step_inv in Es as (Ht & Hnx & Hq).
  destruct (name_run a C X 0 s p Hin Hl ltac:(lia) Ew Ht ltac:(lia)) as (a1 & Hf & Hin1 & Hl1 & Hn1 & Hu1 & Hp).
  destruct (name_store c a1 C X Hin1 ltac:(lia)) as (a2 & Hc & Hnm & Hl2 & Hn2 & Hu2).
  exists s, c, a1, (set_lextable_pos q a2). split; [done|]. split; [done|]. split; [|split; [exact Hnm|]].
  - rewrite Hc, (name_next_walk a2 C X p _ q Hnm ltac:(congruence) Hp Hnx).
    unfold name_walked. cbn [lextable_pos set_lextable_pos]. destruct (Z.ltb_spec q 0); [lia|]. cbn [andb].
    destruct (lex_token q) as [[m|]|]; cbn in Hw; [|done|done]. by injection Hw as ->.
  - cbn. split; [congruence|]. destruct Hnm as (_ & ? & ? & _). unfold used in Hu2 at 1. unfold UHO_NAME in *.
    destruct (unk_pos a2 =? 0); [destruct (Z.eqb_spec (pos a2) 0)|]; lia.
Qed.

Lemma any_index_false l a : Forall (fun m => index_get m a = Ok 0) l -> any_index l a = Ok false.
Proof. induction 1 as [|m l Hm _ IH]; cbn [any_index]; [done|]. rewrite Hm. exact IH. Qed.

(** A header whose name is token [n]: its value starts. *)
Lemma known_start a C X s n :
  token_limits E = None -> line_start a C X -> lex_word 0 (tolower <$> s) = Some n ->
  value_state n -> n <> WSI_TOKEN_SWORIGIN -> (n ∈ methods -> C n = []) ->
  nfrag a + 1 < WSI_TOKEN_COUNT -> used a + len s < L < 2 ^ 16 - 1 ->
  exists a', feed s a = Some a' /\
    in_value n a' (upd C n (C n ++ [nfrag a + 1])) (upd X (nfrag a + 1) (start_text (C n))) /\
    nfrag a' = nfrag a + 1 /\ pos a' <= used a + len s + 1 /\ ups a' = URIPS_IDLE.
Proof.
  intros HE Hst Hw Hvs Hsw Hm Hnf HL.
  destruct (name_word a C X s n Hst Hw) as (s0 & c & a1 & a2 & -> & Hf & Hc & Hnm & Hn2 & Hp2);
    [lia|by destruct Hvs as [[]]|].
  rewrite feed_app, Hf. cbn [mbind option_bind feed]. rewrite Hc. unfold known_header.
  destruct Hnm as (Hcl & _ & Hp & Hv & Hs & Hu).
  assert (any_index (filter (fun m => m = n) methods) a2 = Ok false) as ->.
  { apply any_index_false, Forall_forall. intros m [-> Hin]%list_elem_of_filter.
    destruct (rd_chain _ _ _ _ _ _ _ Hv n) as (i & Hi & Hch).
    { destruct Hvs. unfold WSI_TOKEN_TABLE, WSI_TOKEN_COUNT in *. lia. }
    rewrite (Hm Hin) in Hch. cbn in Hch. subst i. by apply at_pos_index. }
  cbn [mbind res_bind]. rewrite (proj2 (Z.eqb_neq _ _) Hsw), HE.
  assert (u8 (WSI_TOKEN_GET_URI + n) = n) as ->.
  { destruct Hvs. unfold WSI_TOKEN_GET_URI, WSI_TOKEN_TABLE in *. apply u8_small. unfold is_byte. lia. }
  cbn [mbind res_bind]. change (parser_state (set_current_token_limit _ _)) with n.
  rewrite (proj2 (Z.eqb_neq _ _) (proj2 Hvs)).
  set (a3 := set_current_token_limit _ _).
  destruct (start_spec (unk_pos a2) a3 C X n) as (a4 & -> & Hv4 & Hn4 & Hp4 & Hup); try done.
  { cbn. lia. } { cbn. lia. }
  change (nfrag a3) with (nfrag a2) in *. change (pos a3) with (pos a2) in *. rewrite Hn2 in *.
  exists a4. split; [done|]. split; [done|]. split; [done|]. split; [lia|done].
Qed.

(** ** A header line *)

Lemma known_line a C X name n v :
  token_limits E = None -> line_start a C X -> lex_word 0 (tolower <$> name) = Some n ->
  value_state n -> n <> WSI_TOKEN_SWORIGIN -> n ∉ methods -> plain v ->
  nfrag a + 1 < WSI_TOKEN_COUNT -> used a + len name + 1 + len v < L < 2 ^ 16 - 1 ->
  exists a' X', feed (name ++ v ++ crlf) a = Some a' /\
    line_start a' (upd C n (C n ++ [nfrag a + 1])) X' /\
    X' (nfrag a + 1) = match C n with [] => store [] true [] v | i :: _ => store (X i) false [32] v end /\
    (forall i, i <> nfrag a + 1 -> X' i = X i) /\
    nfrag a' = nfrag a + 1 /\ pos a' <= used a + len name + len v + 2 /\ 0 < pos a'.
Proof.
  intros HE Hst Hw Hvs Hsw Hm Hpl Hnf HL. pose proof (len_nonneg v).
  destruct (known_start a C X name n HE Hst Hw Hvs Hsw ltac:(done) Hnf ltac:(lia)) as (a1 & Hf1 & Hv1 & Hn1 & Hp1 & _).
  assert (exists i l, upd C n (C n ++ [nfrag a + 1]) n = i :: l /\
    i = match C n with [] => nfrag a + 1 | i :: _ => i end) as (i & l & HC & Hi).
  { rewrite upd_eq. destruct (C n); by eexists _, _. }
  destruct (value_run n a1 _ _ i l v Hv1 Hm HC Hpl ltac:(lia)) as (a2 & Hf2 & Hv2 & Hp2 & Hn2).
  destruct (value_end n a2 _ _ Hv2 Hm ltac:(lia)) as (a3 & Hf3 & Hl3 & Hp3 & Hn3).
  rewrite Hn1 in *. eexists a3, _. split; [by rewrite !feed_app, Hf1; cbn [mbind option_bind]; rewrite feed_app, Hf2|].
  split; [exact Hl3|]. split; [|split; [|split; [lia|split; [lia|]]]].
  - rewrite !upd_eq. subst i. destruct (C n) as [|i l'] eqn:EC; cbn [start_text].
    + rewrite upd_eq, Z.eqb_refl. done.
    + destruct Hst as ((_ & _ & Hv & _) & _). pose proof (rd_range _ _ _ _ _ _ _ Hv n i ltac:(rewrite EC; set_solver)).
      rewrite upd_ne by lia. rewrite (proj2 (Z.eqb_neq i (nfrag a + 1)) ltac:(lia)). done.
  - intros j Hj. by rewrite !upd_ne.
  - pose proof (in_value_pos _ _ _ _ Hv2). lia.
Qed.

(** ** Header lines with unknown names *)

Definition closed_view (u : Z) (a : allocated_headers) (C : Z -> list Z) (X : Z -> bytes) : Prop :=
  all_closed E u a /\ view false a C X.

Lemma put_view u a C X w c :
  closed_view u a C X -> 0 <= w < L ->
  u <= w \/ (unk_ll_tail a <> 0 /\ unk_ll_tail a <= w < unk_ll_tail a + UHO_NAME) ->
  exists d, put w c a = Ok (set_data d a) /\ closed_view u (set_data d a) C X.
Proof.
  intros [Hc Hv] Hw Hu. unfold put. rewrite put_index_ok by (destruct Hc; unfold len in *; lia).
  eexists. split; [done|]. split; [by apply table_write|]. apply (closed_write u a C X w c); auto; lia.
Qed.

Lemma un16be_set_view u a C X w v :
  closed_view u a C X -> 0 <= w -> w + 1 < L -> u <= w ->
  exists d, lws_un16be_set w v a = Ok (set_data d a) /\ closed_view u (set_data d a) C X.
Proof.
  intros Hc H0 Hw Hu. unfold lws_un16be_set.
  destruct (put_view _ a C X w (u8 (Z.shiftr (u16 v) 8)) Hc) as (d & -> & H1); [lia|lia|].
  cbn [mbind res_bind]. destruct (put_view _ _ C X (w + 1) (u8 v) H1) as (d2 & -> & H2); [lia|lia|].
  by exists d2.
Qed.

Lemma un32be_set_view u a C X v :
  closed_view u a C X -> unk_ll_tail a <> 0 -> unk_ll_tail a + UHO_NAME <= L ->
  exists d, lws_un32be_set (unk_ll_tail a + UHO_LL) v a = Ok (set_data d a) /\ closed_view u (set_data d a) C X.
Proof.
  intros Hc Hn HL. assert (0 <= unk_ll_tail a) by (destruct Hc as [[] _]; lia).
  unfold lws_un32be_set, UHO_LL, UHO_NAME in *.
  destruct (put_view _ a C X (unk_ll_tail a + 4) (u8 (Z.shiftr v 24)) Hc) as (d & -> & H1);
    [lia|unfold UHO_NAME; lia|]. cbn [mbind res_bind].
  destruct (put_view _ _ C X (unk_ll_tail a + 4 + 1) (u8 (Z.shiftr v 16)) H1) as (d2 & -> & H2);
    [lia|unfold UHO_NAME; cbn; lia|]. cbn [mbind res_bind].
  destruct (put_view _ _ C X (unk_ll_tail a + 4 + 2) (u8 (Z.shiftr v 8)) H2) as (d3 & -> & H3);
    [lia|unfold UHO_NAME; cbn; lia|]. cbn [mbind res_bind].
  destruct (put_view _ _ C X (unk_ll_tail a + 4 + 3) (u8 v) H3) as (d4 & -> & H4);
    [lia|unfold UHO_NAME; cbn; lia|]. by exists d4.
Qed.

(** The value of an unknown header is being read. *)
Definition in_unknown (a : allocated_headers) (C : Z -> list Z) (X : Z -> bytes) : Prop :=
  parser_state a = WSI_TOKEN_UNKNOWN_VALUE_PART /\ closed_view (unk_pos a) a C X /\ 0 <= unk_pos a /\
  unk_pos a + UHO_NAME < pos a /\ ues a = URIES_IDLE.

Lemma register_view a C X :
  named a C X ->
  exists a', register_unknown a = Ok (Break, a') /\ in_unknown a' C X /\ nfrag a' = nfrag a /\ pos a' = pos a.
Proof.
  intros (Hc & H0 & Hu & Hv & _ & Hue). unfold register_unknown.
  set (a1 := if unk_ll_head a =? 0 then set_unk_ll_head (unk_pos a) a else a).
  assert (Hf : closed_view (unk_pos a1) a1 C X /\ unk_pos a1 = unk_pos a /\ pos a1 = pos a /\
               nfrag a1 = nfrag a /\ ues a1 = URIES_IDLE) by by unfold a1; destruct (unk_ll_head a =? 0).
  clearbody a1. destruct Hf as (Hc1 & Eu & Ep & En & Eue).
  assert (exists d, (if nz (unk_ll_tail a1) then lws_un32be_set (unk_ll_tail a1 + UHO_LL) (unk_pos a1) a1
                     else Ok a1) = Ok (set_data d a1) /\ closed_view (unk_pos a1) (set_data d a1) C X)
    as (d & -> & Hc2).
  { destruct (nz (unk_ll_tail a1)) eqn:Enz; [|exists (data a1); split; [by destruct a1|exact Hc1]].
    apply nz_true in Enz. apply (un32be_set_view _ a1); [done|done|]. destruct Hc1 as [[] _]. lia. }
  cbn [mbind res_bind]. unfold UHO_NAME in *.
  assert (Hc3 : closed_view (unk_pos a1) (set_unk_ll_tail (unk_pos a1) (set_data d a1)) C X).
  { destruct Hc2 as [Hc2 Hv2]. split; [|exact Hv2].
    eapply table_tail; [exact Hc2|cbn; lia|cbn; unfold UHO_NAME; lia]. }
  cbn [unk_pos set_data set_unk_ll_tail pos].
  set (a3 := set_unk_ll_tail _ _) in *.
  assert (E3 : unk_pos a3 = unk_pos a1 /\ pos a3 = pos a1 /\ nfrag a3 = nfrag a1 /\ ues a3 = ues a1) by done.
  clearbody a3. destruct E3 as (Eu3 & Ep3 & En3 & Eue3).
  destruct (un16be_set_view _ a3 C X (unk_pos a1) (pos a1 - unk_pos a1 - 8) Hc3) as (d4 & -> & Hc4); [lia..|].
  cbn [mbind res_bind brk]. eexists. split; [done|]. split; [|cbn; split; lia].
  split; [done|]. cbn. rewrite Eu3. split; [exact Hc4|]. split; [lia|]. unfold UHO_NAME. split; [lia|congruence].
Qed.

Lemma unknown_step a C X c :
  in_unknown a C X -> c <> 10 -> pos a < L ->
  exists a', parse_char E c a = Ok (Break, a') /\ in_unknown a' C X /\ nfrag a' = nfrag a /\ pos a' <= pos a + 1.
Proof.
  intros Hin Hc HL. pose proof Hin as (Hs & [Hcl Hv] & H0 & Hu & Hue). unfold parse_char. rewrite Hs.
  cbn [Z.eqb Pos.eqb WSI_TOKEN_UNKNOWN_VALUE_PART]. unfold unknown_value_char.
  destruct (c =? 13); [exists a; split; [done|]; split; [done|]; lia|].
  rewrite (proj2 (Z.eqb_neq c 10) Hc). destruct (_ || _); [|exists a; split; [done|]; split; [done|]; lia].
  unfold lws_pos_in_bounds. destruct (Z.ltb_spec (pos a) L); [|lia]. cbn [mbind res_bind nz negb Z.eqb].
  rewrite (push_ok E _ _ _ _ Hcl) by lia. cbn [mbind res_bind brk]. eexists. split; [done|].
  split; [|cbn; lia]. split; [done|].
  split; [|cbn; unfold UHO_NAME in *; split; [lia|]; split; [lia|done]].
  split; [exact (table_push E _ _ _ _ _ _ _ _ c Hcl ltac:(lia))|].
  apply (closed_write (unk_pos a) a C X (pos a) c); auto; unfold UHO_NAME in *; lia.
Qed.

Lemma unknown_run a C X v :
  in_unknown a C X -> Forall (fun c => c <> 10) v -> pos a + len v <= L ->
  exists a', feed v a = Some a' /\ in_unknown a' C X /\ nfrag a' = nfrag a /\ pos a' <= pos a + len v.
Proof.
  intros Hin Hv. revert a Hin. induction Hv as [|c v Hc _ IH]; intros a Hin HL.
  { exists a. rewrite len_nil. split; [done|]. split; [done|]. lia. }
  rewrite len_cons in *. pose proof (len_nonneg v).
  destruct (unknown_step a C X c Hin Hc ltac:(lia)) as (a1 & Hs & Hin1 & Hn1 & Hp1).
  destruct (IH a1 Hin1 ltac:(lia)) as (a2 & Hf & Hin2 & Hn2 & Hp2).
  exists a2. cbn [feed]. rewrite Hs. split; [done|]. split; [done|]. lia.
Qed.

Lemma unknown_end a C X :
  in_unknown a C X -> pos a <= L ->
  exists a', feed [10] a = Some a' /\ line_start a' C X /\ nfrag a' = nfrag a /\ pos a' = pos a.
Proof.
  intros (Hs & Hc & H0 & Hu & Hue) HL. cbn [feed]. unfold parse_char. rewrite Hs.
  cbn [Z.eqb Pos.eqb WSI_TOKEN_UNKNOWN_VALUE_PART]. unfold unknown_value_char. cbn [Z.eqb Pos.eqb].
  unfold UHO_NAME in *.
  destruct (un16be_set_view _ a C X (unk_pos a + 2) (pos a - unk_value_pos a) Hc) as (d & -> & [Hc1 Hv1]); [lia..|].
  cbn [mbind res_bind brk]. eexists. split; [done|]. split; [|done]. split; [|done].
  split; [done|]. split; [|split; [exact Hv1|exact Hue]].
  apply (closed_mono E (unk_pos a) (pos a) (set_data d a)); [exact Hc1|]. cbn. lia.
Qed.

(** A name that leaves the table before its colon. *)
Definition unknown_name (s : bytes) : Prop :=
  exists s1 c s2 p, s = s1 ++ [c] ++ s2 ++ [58] /\ lex_walk (Some 0) (tolower <$> s1) = Some p /\
    lex_token p = Ok None /\ lex_next p (tolower c) = Ok (-1, false) /\ Forall (fun c => c <> 58) s2.

Lemma tolower_colon c : tolower c = 58 -> c = 58.
Proof. unfold tolower. destruct (_ && _) eqn:Eb; [|done]. zbool. lia. Qed.

Lemma dead_step a C X c :
  in_name a C X -> lextable_pos a = -1 -> c <> 58 -> used a + 1 <= L ->
  exists a', parse_char E c a = Ok (Break, a') /\ in_name a' C X /\ lextable_pos a' = -1 /\
    nfrag a' = nfrag a /\ used a' <= used a + 1.
Proof.
  intros Hin Hl Hc HL. destruct (name_store c a C X Hin HL) as (a1 & -> & Hnm & Hl1 & Hn1 & Hu1).
  exists a1. unfold name_next. rewrite Hl1, Hl. cbn [Z.ltb Z.compare andb].
  destruct (Z.eqb_spec (tolower c) 58) as [Ht|]; [by apply tolower_colon in Ht|].
  split; [done|]. split; [by apply named_name|done].
Qed.

Lemma dead_run a C X s :
  in_name a C X -> lextable_pos a = -1 -> Forall (fun c => c <> 58) s -> used a + len s <= L ->
  exists a', feed s a = Some a' /\ in_name a' C X /\ lextable_pos a' = -1 /\
    nfrag a' = nfrag a /\ used a' <= used a + len s.
Proof.
  intros Hin Hl Hs. revert a Hin Hl. induction Hs as [|c s Hc _ IH]; intros a Hin Hl HL.
  { exists a. rewrite len_nil. split; [done|]. split; [done|]. split; [done|]. lia. }
  rewrite len_cons in *. pose proof (len_nonneg s).
  destruct (dead_step a C X c Hin Hl Hc ltac:(lia)) as (a1 & Hs1 & Hin1 & Hl1 & Hn1 & Hu1).
  destruct (IH a1 Hin1 Hl1 ltac:(lia)) as (a2 & Hf & Hin2 & Hl2 & Hn2 & Hu2).
  exists a2. cbn [feed]. rewrite Hs1. split; [done|]. split; [done|]. split; [done|]. lia.
Qed.

Lemma any_index_true l a :
  (forall m, m ∈ l -> exists i, index_get m a = Ok i) -> (exists m i, m ∈ l /\ index_get m a = Ok i /\ i <> 0) ->
  any_index l a = Ok true.
Proof.
  induction l as [|m l IH]; intros Hall (m' & i & Hm & Hi & Hne); [set_solver|]. cbn [any_index].
  destruct (Hall m) as (j & Hj); [by left|]. rewrite Hj. cbn [mbind res_bind].
  destruct (nz j) eqn:Ez; [done|]. apply IH; [intros; apply Hall; by right|].
  exists m', i. split; [|done]. apply elem_of_cons in Hm as [->|?]; [|done].
  apply nz_false in Ez. congruence.
Qed.

(** Some method has been seen. *)
Definition had_method (C : Z -> list Z) : Prop := exists m, m ∈ methods /\ C m <> [].

Lemma had_method_index a C X : view false a C X -> had_method C -> any_index methods a = Ok true.
Proof.
  intros Hv (m & Hm & HC). pose proof methods_range as Hr. rewrite Forall_forall in Hr.
  apply any_index_true.
  - intros m' Hm'. destruct (rd_chain _ _ _ _ _ _ _ Hv m' (Hr _ Hm')) as (n & Hn & _).
    exists n. by apply at_pos_index.
  - destruct (rd_chain _ _ _ _ _ _ _ Hv m (Hr _ Hm)) as (n & Hn & Hch). exists m, n. split; [done|].
    split; [by apply at_pos_index|]. destruct (C m); [done|]. destruct Hch as (-> & ? & _). done.
Qed.

Lemma unknown_line a C X name v :
  line_start a C X -> had_method C -> unknown_name name -> Forall (fun c => c <> 10) v ->
  used a + len name + len v + 1 <= L ->
  exists a', feed (name ++ v ++ crlf) a = Some a' /\ line_start a' C X /\
    nfrag a' = nfrag a /\ 0 < pos a' <= used a + len name + len v + 1.
Proof.
  intros (Hin & _ & Hl) Hm (s1 & c & s2 & p & -> & Hw & Ht & Hx & Hs2) Hv HL.
  rewrite !len_app, !len_cons, len_nil in *. pose proof (len_nonneg s2). pose proof (len_nonneg v).
  destruct (name_run a C X 0 s1 p Hin Hl ltac:(lia) Hw Ht ltac:(lia)) as (a1 & Hf1 & Hin1 & Hl1 & Hn1 & Hu1 & Hp).
  destruct (name_store c a1 C X Hin1 ltac:(lia)) as (a2 & Hc2 & Hnm2 & Hl2 & Hn2 & Hu2).
  assert (Hd : parse_char E c a1 = Ok (Break, set_lextable_pos (-1) a2)).
  { rewrite Hc2, (name_next_walk a2 C X p _ (-1) Hnm2 ltac:(congruence) Hp Hx). unfold name_walked.
    cbn [lextable_pos set_lextable_pos Z.ltb Z.compare andb]. destruct (role_h1_server E); [|done].
    assert (any_index methods (set_lextable_pos (-1) a2) = Ok true) as ->; [|done].
    eapply had_method_index; [|exact Hm]. destruct Hnm2 as (_ & _ & _ & Hv2 & _). exact Hv2. }
  destruct (dead_run (set_lextable_pos (-1) a2) C X s2) as (a3 & Hf3 & Hin3 & Hl3 & Hn3 & Hu3); [|done|done| |].
  { exact (named_name _ _ _ Hnm2). } { change (used (set_lextable_pos (-1) a2)) with (used a2). lia. }
  change (used (set_lextable_pos (-1) a2)) with (used a2) in Hu3.
  change (nfrag (set_lextable_pos (-1) a2)) with (nfrag a2) in Hn3.
  destruct (name_store 58 a3 C X Hin3 ltac:(lia)) as (a4 & Hc4 & Hnm4 & Hl4 & Hn4 & Hu4).
  destruct (register_view a4 C X Hnm4) as (a5 & Hr5 & Hin5 & Hn5 & Hp5).
  assert (Hp4 : pos a4 <= used a4).
  { unfold used. destruct (unk_pos a4 =? 0); [|lia]. destruct (Z.eqb_spec (pos a4) 0); lia. }
  destruct (unknown_run a5 C X (v ++ [13]) Hin5) as (a6 & Hf6 & Hin6 & Hn6 & Hp6).
  { apply Forall_app. split; [done|]. by constructor. } { rewrite len_app, len_cons, len_nil. lia. }
  rewrite len_app, len_cons, len_nil in Hp6.
  destruct (unknown_end a6 C X Hin6 ltac:(lia)) as (a7 & Hf7 & Hl7 & Hn7 & Hp7).
  assert (Hp60 : 0 < pos a6) by (destruct Hin6 as (_ & _ & ? & ? & _); unfold UHO_NAME in *; lia).
  exists a7. split; [|split; [done|lia]].
  unfold crlf. change [13; 10] with ([13] ++ [10]). rewrite !feed_app, Hf1. cbn [mbind option_bind].
  rewrite !feed_app. cbn [feed]. rewrite Hd. cbn [mbind option_bind]. rewrite !feed_app, Hf3.
  cbn [mbind option_bind feed]. rewrite Hc4. unfold name_next. rewrite Hl4, Hl3. cbn [Z.ltb Z.compare andb].
  change (tolower 58 =? 58) with true. cbn match. rewrite Hr5. cbn [mbind option_bind].
  rewrite feed_app in Hf6. rewrite feed_app. destruct (feed v a5) as [b|]; [|done]. cbn [mbind option_bind] in *.
  rewrite feed_app, Hf6. exact Hf7.
Qed.

(** ** The request line *)

(** URIs the parser keeps as they are: no escapes, no arguments, and no
    segment that is empty or starts with a dot; [slash] tells that the
    character before was a slash. *)
Fixpoint plain_uri (slash : bool) (u : bytes) : bool :=
  match u with
  | [] => true
  | c :: u =>
    if c =? 47 then negb slash && plain_uri true u
    else if c =? 46 then negb slash && plain_uri false u
    else forallb (fun x => negb (c =? x)) [0; 13; 32; 37; 38; 43; 59; 63] && plain_uri false u
  end.

Definition after_slash (a : allocated_headers) : option bool :=
  match ups a with URIPS_IDLE => Some false | URIPS_SEEN_SLASH => Some true | _ => None end.

Lemma no_args_index a C X b : view b a C X -> C WSI_TOKEN_HTTP_URI_ARGS = [] -> index_get WSI_TOKEN_HTTP_URI_ARGS a = Ok 0.
Proof.
  intros Hv HC. destruct (rd_chain _ _ _ _ _ _ _ Hv WSI_TOKEN_HTTP_URI_ARGS ltac:(done)) as (n & Hn & Hch).
  rewrite HC in Hch. cbn in Hch. subst n. by apply at_pos_index.
Qed.

(** A character of such a URI passes the sanitation unchanged. *)
Lemma urldecode_plain h a C X c u b :
  in_value h a C X -> C WSI_TOKEN_HTTP_URI_ARGS = [] -> after_slash a = Some b -> plain_uri b (c :: u) = true ->
  exists a', lws_parse_urldecode E c a = Ok (LPUR_CONTINUE, c, a') /\ in_value h a' C X /\
    after_slash a' = Some (c =? 47) /\ pos a' = pos a /\ nfrag a' = nfrag a /\
    plain_uri (c =? 47) u = true /\ c <> 32 /\ c <> 13 /\ c <> 0.
Proof.
  intros Hv HC Hb Hp. pose proof Hv as (_ & _ & _ & Hvw & _ & _ & Hu & _).
  assert (Hc : c <> 0 /\ c <> 13 /\ c <> 32 /\ c <> 37 /\ c <> 38 /\ c <> 43 /\ c <> 59 /\ c <> 63 /\
               plain_uri (c =? 47) u = true /\ (b = true -> c <> 47 /\ c <> 46)).
  { cbn [plain_uri] in Hp. destruct (Z.eqb_spec c 47) as [->|]; [apply andb_true_iff in Hp as [? ?]; destruct b; done|].
    destruct (Z.eqb_spec c 46) as [->|]; [apply andb_true_iff in Hp as [? ?]; destruct b; done|].
    cbn [forallb] in Hp. rewrite !andb_true_iff, !negb_true_iff, !Z.eqb_neq in Hp. intuition. }
  destruct Hc as (H0 & H13 & H32 & H37 & H38 & H43 & H59 & H63 & Hpu & Hsl).
  unfold lws_parse_urldecode. rewrite Hu, (proj2 (Z.eqb_neq c 37) H37). unfold urldecode_path, after_slash in *.
  assert (Hargs : forall a', view true a' C X -> urldecode_args E c false a' = Ok (LPUR_CONTINUE, c, a')).
  { intros a' Hv'. unfold urldecode_args. rewrite (no_args_index _ _ _ _ Hv' HC). cbn [mbind res_bind].
    by rewrite (proj2 (Z.eqb_neq c 63) H63). }
  destruct (ups a) eqn:Eup; try discriminate Hb; injection Hb as <-.
  - unfold urldecode_idle.
    rewrite (proj2 (Z.eqb_neq c 0) H0), (proj2 (Z.eqb_neq c 38) H38), (proj2 (Z.eqb_neq c 59) H59).
    cbn [orb andb]. rewrite (no_args_index _ _ _ _ Hvw HC). cbn [mbind res_bind].
    rewrite !andb_false_r. cbn [andb negb Z.eqb]. rewrite !andb_true_r, (proj2 (Z.eqb_neq c 43) H43).
    destruct (c =? 61), (c =? 47) eqn:E47; rewrite Hargs by exact Hvw;
      (eexists; split; [done|]; split; [exact Hv|]; cbn; rewrite ?Eup; done).
  - destruct (Hsl eq_refl) as [H47 H46]. unfold urldecode_slash.
    rewrite (proj2 (Z.eqb_neq c 47) H47), (proj2 (Z.eqb_neq c 46) H46), Hargs by exact Hvw.
    rewrite (proj2 (Z.eqb_neq c 47) H47) in Hpu. eexists. split; [done|]. split; [exact Hv|]. done.
Qed.

Lemma uri_run h a C X u b :
  in_value h a C X -> h ∈ methods -> C h = [nfrag a] -> C WSI_TOKEN_HTTP_URI_ARGS = [] ->
  after_slash a = Some b -> plain_uri b u = true -> pos a + len u <= L < 2 ^ 16 - 1 ->
  exists a', feed u a = Some a' /\ in_value h a' C (upd X (nfrag a) (X (nfrag a) ++ u)) /\
    (exists b', after_slash a' = Some b') /\ pos a' = pos a + len u /\ nfrag a' = nfrag a.
Proof.
  intros Hv Hm HC HA. revert a X b Hv HC. induction u as [|c u IH]; intros a X b Hv HC Hb Hp HL.
  { exists a. rewrite len_nil, app_nil_r. split; [done|]. split; [|split; [by exists b|lia]].
    eapply in_value_ext; [|exact Hv]. intros j. unfold upd. by destruct (Z.eqb_spec j (nfrag a)) as [->|]. }
  rewrite len_cons in *. pose proof (len_nonneg u). pose proof Hv as (Hs & Hvs & _).
  destruct (urldecode_plain h a C X c u b Hv HA Hb Hp) as (a1 & Hd & Hv1 & Hb1 & Hp1 & Hn1 & Hpu & H32 & H13 & H0).
  destruct (in_value_issue h a1 C X c Hv1 ltac:(lia) H0) as (a2 & Hi & Hv2 & Hp2 & Hn2 & Hup2).
  assert (Hc : parse_char E c a = Ok (Break, a2)).
  { rewrite parse_char_value by by rewrite Hs. unfold value_char. rewrite Hs.
    destruct (in_value_first _ _ _ _ _ _ Hv HC) as (f & -> & Hf & _). cbn [mbind res_bind]. rewrite Hf.
    cbn [mbind res_bind]. rewrite (proj2 (Z.eqb_neq c 32) H32), andb_false_r, bool_decide_eq_true_2 by done.
    cbn [negb]. rewrite Hd. cbn [mbind res_bind]. unfold at_check_eol.
    rewrite (proj2 (Z.eqb_neq c 13) H13), andb_false_r. cbn [andb]. rewrite Hi. cbn [mbind res_bind].
    change (0 <? 0) with false. change (0 >? 0) with false. cbn match. unfold at_swallow.
    destruct Hv2 as (-> & [_ Hne] & _). by rewrite (proj2 (Z.eqb_neq h _) Hne). }
  destruct (IH a2 _ (c =? 47) Hv2) as (a3 & Hf & Hv3 & Hb3 & Hp3 & Hn3).
  { congruence. } { unfold after_slash in *. by rewrite Hup2. } { done. } { lia. }
  exists a3. cbn [feed]. rewrite Hc. split; [done|]. split; [|split; [done|lia]].
  eapply in_value_ext; [|exact Hv3]. intros j. rewrite Hn2, Hn1.
  destruct (Z.eq_dec j (nfrag a)) as [->|]; [|by rewrite !upd_ne]. rewrite !upd_eq, <- app_assoc. done.
Qed.

(** The space after the URI. *)
Lemma uri_end h a C X :
  in_value h a C X -> h ∈ methods -> C h = [nfrag a] -> X (nfrag a) <> [] -> (exists b, after_slash a = Some b) ->
  nfrag a + 1 < WSI_TOKEN_COUNT -> pos a + 1 < L < 2 ^ 16 - 1 ->
  exists a', feed [32] a = Some a' /\
    in_value WSI_TOKEN_HTTP a' (upd C WSI_TOKEN_HTTP (C WSI_TOKEN_HTTP ++ [nfrag a + 1]))
      (upd X (nfrag a + 1) (start_text (C WSI_TOKEN_HTTP))) /\
    nfrag a' = nfrag a + 1 /\ pos a' <= pos a + 2.
Proof.
  intros Hv Hm HC Hne (b & Hb) Hnf HL. pose proof Hv as (Hs & Hvs & Ho & Hvw & Hsync & Hlim & Hu & _).
  cbn [feed]. rewrite parse_char_value by by rewrite Hs. unfold value_char. rewrite Hs.
  destruct (in_value_first _ _ _ _ _ _ Hv HC) as (f & -> & Hf & Hl). cbn [mbind res_bind]. rewrite Hf.
  cbn [mbind res_bind].
  assert (Hfl : flen f <> 0) by (rewrite Hl; destruct (X (nfrag a)); [done|rewrite len_cons; pose proof (len_nonneg l); lia]).
  rewrite (proj2 (Z.eqb_neq _ 0) Hfl), bool_decide_eq_true_2 by done. cbn [andb negb Z.eqb Pos.eqb].
  unfold end_of_uri. rewrite Hf. cbn [mbind res_bind]. rewrite (proj2 (Z.eqb_neq _ 0) Hfl). cbn [mbind res_bind Z.ltb Z.compare].
  rewrite bool_decide_eq_false_2 by (unfold after_slash in Hb; by destruct (ups a)). cbn [mbind res_bind].
  destruct (closing_issue a C X (parser_state a) Ho Hvw Hsync Hlim ltac:(lia))
    as (a1 & Hi & Hc & Hv1 & Hp1 & Hn1 & Hs1 & Hu1 & Hl1 & _).
  replace (set_parser_state (parser_state a) a) with a in Hi by by destruct a. rewrite Hi. cbn [mbind res_bind Z.ltb Z.compare].
  destruct (start_spec (pos a1) (set_parser_state WSI_TOKEN_HTTP a1) C X WSI_TOKEN_HTTP)
    as (a2 & -> & Hv2 & Hn2 & Hp2 & _); try done.
  { cbn. congruence. } { cbn. lia. } { cbn. lia. }
  cbn [nfrag pos set_parser_state] in *. rewrite Hn1 in *. exists a2. split; [done|]. split; [done|]. lia.
Qed.

(** ** Requests *)

(** The table of a request: what each token's lines hold. *)
Definition add_header (T : Z -> list bytes) (hv : bytes * bytes) : Z -> list bytes :=
  match lex_word 0 (tolower <$> hv.1) with
  | Some n => upd T n (T n ++ [match T n with [] => store [] true [] hv.2 | t :: _ => store t false [32] hv.2 end])
  | None => T
  end.

Definition request_table (uri : bytes) (hs : list (bytes * bytes)) : Z -> list bytes :=
  fold_left add_header hs (upd (upd (fun _ => []) WSI_TOKEN_GET_URI [uri]) WSI_TOKEN_HTTP [str "HTTP/1.1"]).

Definition header_text (hv : bytes * bytes) : bytes := hv.1 ++ hv.2 ++ crlf.

Definition request_text (uri : bytes) (hs : list (bytes * bytes)) : bytes :=
  str "GET " ++ uri ++ str " HTTP/1.1" ++ crlf ++ concat (header_text <$> hs) ++ crlf.

(** A header line with a known name that is neither a method nor the end of
    the headers, or with an unknown one. *)
Definition header_ok (hv : bytes * bytes) : Prop :=
  plain hv.2 /\
  ((exists n, lex_word 0 (tolower <$> hv.1) = Some n /\ value_state n /\ n <> WSI_TOKEN_SWORIGIN /\ n ∉ methods) \/
   (unknown_name hv.1 /\ Forall (fun c => c <> 10) hv.2)).

Definition header_cost (hv : bytes * bytes) : Z := 8 + len hv.1 + len hv.2 + 2.

Lemma header_cost_nonneg hv : 0 <= header_cost hv.
Proof. unfold header_cost. pose proof (len_nonneg hv.1). pose proof (len_nonneg hv.2). lia. Qed.

(** The room the parser needs in the data area. *)
Definition request_size (uri : bytes) (hs : list (bytes * bytes)) : Z :=
  32 + len uri + foldr (fun hv n => header_cost hv + n) 0 hs + 10.

Lemma unknown_word s : unknown_name s -> lex_word 0 (tolower <$> s) = None.
Proof.
  intros (s1 & c & s2 & p & -> & Hw & Ht & Hx & _). rewrite !fmap_app. cbn [fmap list_fmap].
  unfold lex_word. unfold lex_walk in *. rewrite fold_left_app, Hw. cbn [app fold_left mbind option_bind].
  unfold lex_step at 2. rewrite Ht, Hx. cbn. by rewrite (lex_walk_None _ : fold_left _ _ None = None).
Qed.

(** The texts of the view agree with a table. *)
Definition shows (C : Z -> list Z) (X : Z -> bytes) (T : Z -> list bytes) : Prop := forall h, texts C X h = T h.

Lemma header_line a C X T hv :
  token_limits E = None -> line_start a C X -> shows C X T -> had_method C -> header_ok hv -> 0 < pos a ->
  nfrag a + 1 < WSI_TOKEN_COUNT -> pos a + header_cost hv <= L < 2 ^ 16 - 1 ->
  exists a' C' X', feed (header_text hv) a = Some a' /\ line_start a' C' X' /\ shows C' X' (add_header T hv) /\
    had_method C' /\ 0 < pos a' <= pos a + header_cost hv /\ nfrag a' <= nfrag a + 1.
Proof.
  intros HE Hst Hsh Hm [Hpl Hk] Hp Hnf HL. unfold header_cost, header_text in *.
  assert (Hus : used a = pos a + 8).
  { unfold used. destruct Hst as (_ & -> & _). cbn. by rewrite (proj2 (Z.eqb_neq (pos a) 0) ltac:(lia)). }
  assert (Hrg : forall h i, i ∈ C h -> i <= nfrag a).
  { destruct Hst as ((_ & _ & Hv & _) & _). intros h i Hi. by apply (rd_range _ _ _ _ _ _ _ Hv h i). }
  destruct Hk as [(n & Hw & Hvs & Hsw & Hnm)|[Hun Hlf]].
  - destruct (known_line a C X hv.1 n hv.2 HE Hst Hw Hvs Hsw Hnm Hpl Hnf ltac:(lia))
      as (a' & X' & Hf & Hl & HX & HXo & Hn & Hp' & H0).
    eexists a', _, X'. split; [done|]. split; [exact Hl|]. split; [|split; [|lia]].
    + assert (Hsame : forall h, X' <$> C h = T h).
      { intros h. rewrite <- Hsh. apply list_fmap_ext. intros i x Hi. apply HXo.
        apply list_elem_of_lookup_2 in Hi. specialize (Hrg h x Hi). lia. }
      intros h. unfold texts, add_header. rewrite Hw. unfold upd. destruct (Z.eqb_spec h n) as [->|]; [|apply Hsame].
      rewrite fmap_app, Hsame. cbn. rewrite HX. do 2 f_equal. rewrite <- Hsh. unfold texts. by destruct (C n).
    + destruct Hm as (m & Hm & HC). exists m. split; [done|]. rewrite upd_ne; [done|]. by intros ->.
  - destruct (unknown_line a C X hv.1 hv.2 Hst Hm Hun Hlf ltac:(lia)) as (a' & Hf & Hl & Hn & Hp').
    exists a', C, X. split; [done|]. split; [done|]. unfold add_header. rewrite (unknown_word _ Hun).
    split; [done|]. split; [done|]. lia.
Qed.

Lemma header_lines a C X T hs :
  token_limits E = None -> line_start a C X -> shows C X T -> had_method C -> Forall header_ok hs -> 0 < pos a ->
  nfrag a + Z.of_nat (length hs) < WSI_TOKEN_COUNT ->
  pos a + foldr (fun hv n => header_cost hv + n) 0 hs <= L < 2 ^ 16 - 1 ->
  exists a' C' X', feed (concat (header_text <$> hs)) a = Some a' /\ line_start a' C' X' /\
    shows C' X' (fold_left add_header hs T) /\
    0 < pos a' <= pos a + foldr (fun hv n => header_cost hv + n) 0 hs.
Proof.
  intros HE Hst Hsh Hm Hok. revert a C X T Hst Hsh Hm.
  induction Hok as [|hv hs Hhv Hhs IH]; intros a C X T Hst Hsh Hm Hp Hnf HL.
  { exists a, C, X. split; [done|]. split; [done|]. split; [done|]. cbn. lia. }
  cbn [length foldr] in *.
  assert (Hpos : 0 <= foldr (fun hv n => header_cost hv + n) 0 hs).
  { clear. induction hs as [|hv hs IH]; cbn [foldr]; [lia|]. pose proof (header_cost_nonneg hv). lia. }
  destruct (header_line a C X T hv HE Hst Hsh Hm Hhv Hp ltac:(lia) ltac:(lia))
    as (a1 & C1 & X1 & Hf1 & Hst1 & Hsh1 & Hm1 & Hp1 & Hn1).
  destruct (IH a1 C1 X1 _ Hst1 Hsh1 Hm1) as (a2 & C2 & X2 & Hf2 & Hst2 & Hsh2 & Hp2); [lia..|].
  exists a2, C2, X2. cbn [fmap list_fmap concat fold_left]. rewrite feed_app, Hf1. cbn [mbind option_bind].
  split; [done|]. split; [done|]. split; [done|]. lia.
Qed.

(** The empty table the parser starts with. *)
Definition empty_table (a : allocated_headers) : Prop :=
  line_start a (fun _ => []) (fun _ => []) /\ pos a = 0 /\ nfrag a = 0.

Lemma reset_empty a :
  len (data a) = L -> 0 < L -> ues a = URIES_IDLE -> empty_table (_lws_header_table_reset a).
Proof.
  intros Hd HL Hu. split; [|done]. split; [|done]. split; [done|].
  assert (Hr : forall A (x : A) i y, at_pos (replicate (Z.to_nat WSI_TOKEN_COUNT) x) i y -> y = x).
  { intros A x i y [_ H]. by apply lookup_replicate in H as [-> _]. }
  split; [|split; [|exact Hu]].
  - unfold entry_ok. cbn [unk_pos _lws_header_table_reset set_unk_ll_tail set_unk_ll_head set_unk_pos Z.eqb].
    constructor; cbn; auto; try done; intros;
      repeat match goal with H : at_pos (replicate _ _) _ _ |- _ => apply Hr in H; subst end; cbn; auto with lia.
  - constructor; cbn.
    + intros h Hh. exists 0. split; [|done]. split; [lia|]. apply lookup_replicate_2. lia.
    + set_solver.
    + set_solver.
    + intros. lia.
    + intros. lia.
Qed.

Lemma line_start_inv a C X : line_start a C X -> inv E a.
Proof.
  intros ((Hs & He & _) & _ & Hl). right. left. split; [done|]. split; [done|]. right. rewrite Hl.
  split; [exact lex_ok_0|exact lex_token_0].
Qed.

(** The request line and the first line start after it. *)
Lemma request_line a uri :
  token_limits E = None -> empty_table a -> uri <> [] -> plain_uri false uri = true ->
  32 + len uri <= L < 2 ^ 16 - 1 ->
  exists a' C X, feed (str "GET " ++ uri ++ str " HTTP/1.1" ++ crlf) a = Some a' /\ line_start a' C X /\
    shows C X (upd (upd (fun _ => []) WSI_TOKEN_GET_URI [uri]) WSI_TOKEN_HTTP [str "HTTP/1.1"]) /\
    had_method C /\ 0 < pos a' <= 32 + len uri /\ nfrag a' = 2.
Proof.
  intros HE (Hst & Hp & Hnf) Hne Hpl HL. pose proof (len_nonneg uri).
  assert (Hus : used a = 16) by (unfold used; destruct Hst as (_ & -> & _); by rewrite Hp).
  destruct (known_start a _ _ (str "GET ") WSI_TOKEN_GET_URI HE Hst) as (a1 & Hf1 & Hv1 & Hn1 & Hp1 & Hup1);
    [vm_compute; reflexivity|done|done|done|..].
  { rewrite Hnf. done. } { rewrite Hus. change (len (str "GET ")) with 4. lia. }
  rewrite Hnf in *. rewrite Hus in Hp1. change (len (str "GET ")) with 4 in Hp1.
  change (0 + 1) with 1 in *. cbn [start_text app] in Hv1.
  set (C1 := upd (fun _ : Z => []) WSI_TOKEN_GET_URI [1]) in *.
  destruct (uri_run WSI_TOKEN_GET_URI a1 C1 _ uri false Hv1) as (a2 & Hf2 & Hv2 & Hb2 & Hp2 & Hn2).
  { by left. } { by rewrite Hn1. } { done. } { unfold after_slash. by rewrite Hup1. }
  { done. } { lia. }
  rewrite Hn1, upd_eq in Hv2. cbn [app] in Hv2.
  destruct (uri_end WSI_TOKEN_GET_URI a2 _ _ Hv2) as (a3 & Hf3 & Hv3 & Hn3 & Hp3).
  { by left. } { by rewrite Hn2, Hn1. } { by rewrite Hn2, Hn1, upd_eq. } { done. }
  { by rewrite Hn2, Hn1. } { lia. }
  rewrite Hn2, Hn1 in *. change (1 + 1) with 2 in *. change (C1 WSI_TOKEN_HTTP) with (@nil Z) in Hv3.
  cbn [start_text app] in Hv3.
  destruct (value_run WSI_TOKEN_HTTP a3 _ _ 2 [] (str "HTTP/1.1") Hv3) as (a4 & Hf4 & Hv4 & Hp4 & Hn4).
  { apply (bool_decide_unpack _). vm_compute. reflexivity. } { done. }
  { apply (bool_decide_unpack _). vm_compute. reflexivity. } { change (len (str "HTTP/1.1")) with 8. lia. }
  change (len (str "HTTP/1.1")) with 8 in Hp4.
  destruct (value_end WSI_TOKEN_HTTP a4 _ _ Hv4) as (a5 & Hf5 & Hl5 & Hp5 & Hn5).
  { apply (bool_decide_unpack _). vm_compute. reflexivity. } { lia. }
  pose proof (in_value_pos _ _ _ _ Hv4).
  eexists a5, _, _. split; [|split; [exact Hl5|split; [|split; [|lia]]]].
  - change (str " HTTP/1.1") with ([32] ++ str "HTTP/1.1"). rewrite feed_app, Hf1. cbn [mbind option_bind].
    rewrite feed_app, Hf2. cbn [mbind option_bind]. rewrite <- app_assoc, feed_app, Hf3. cbn [mbind option_bind].
    rewrite feed_app, Hf4. exact Hf5.
  - intros h. unfold texts, C1, upd. destruct (Z.eqb_spec h WSI_TOKEN_HTTP) as [->|].
    + cbn. rewrite Hn3. done.
    + destruct (Z.eqb_spec h WSI_TOKEN_GET_URI) as [->|]; [|done]. cbn. rewrite Hn3. done.
  - exists WSI_TOKEN_GET_URI. split; [by left|done].
Qed.

(** ** The end of the headers *)

Lemma complete_spec u w :
  all_closed E u (ah w) -> ues (ah w) = URIES_IDLE ->
  exists ft, at_set_parsing_complete w =
    Ok (LPR_OK, mk_wsi (set_parser_state WSI_PARSING_COMPLETE (ah w)) ft true (statuses w)).
Proof.
  intros Hc Hu. unfold at_set_parsing_complete. rewrite Hu, bool_decide_eq_true_2 by done. cbn [negb].
  destruct (hdr_total_length_ok E _ _ _ WSI_TOKEN_UPGRADE Hc ltac:(done)) as [x ->]. cbn [mbind res_bind].
  destruct (hdr_total_length_ok E _ _ _ WSI_TOKEN_VERSION Hc ltac:(done)) as [y Hy]. rewrite Hy.
  destruct (hdr_simple_ptr_ok E _ _ WSI_TOKEN_VERSION Hc ltac:(done)) as [z Hz].
  destruct (nz x); cbn [mbind res_bind]; [|by eexists].
  destruct (nz y); [|by eexists]. rewrite Hz. by eexists.
Qed.

Lemma headers_end a C X :
  token_limits E = None -> line_start a C X -> used a + 2 <= L ->
  exists a1 a2, feed [13] a = Some a1 /\ parse_char E 10 a1 = Ok (Set_parsing_complete, a2) /\
    (exists u, all_closed E u a2) /\ view false a2 C X /\ ues a2 = URIES_IDLE /\ pos a2 <= L.
Proof.
  intros HE Hst HL.
  destruct (name_word a C X crlf WSI_TOKEN_CHALLENGE Hst) as (s0 & c & a1 & a2 & Es & Hf & Hc & Hnm & _ & Hp).
  { vm_compute. reflexivity. } { exact HL. } { done. }
  apply (app_inj_tail [13] s0 10 c) in Es as [<- <-].
  destruct Hnm as (Hcl & _ & Hp2 & Hv & _ & Hu).
  exists a1. unfold known_header in Hc.
  assert (any_index (filter (fun m => m = WSI_TOKEN_CHALLENGE) methods) a2 = Ok false) as Ha by reflexivity.
  rewrite Ha in Hc. cbn [mbind res_bind] in Hc.
  change (u8 (WSI_TOKEN_GET_URI + (if WSI_TOKEN_CHALLENGE =? WSI_TOKEN_SWORIGIN then WSI_TOKEN_ORIGIN
    else WSI_TOKEN_CHALLENGE))) with WSI_TOKEN_CHALLENGE in Hc.
  rewrite HE in Hc. cbn [mbind res_bind] in Hc.
  change (parser_state (set_current_token_limit _ _)) with WSI_TOKEN_CHALLENGE in Hc. cbn [Z.eqb Pos.eqb WSI_TOKEN_CHALLENGE] in Hc.
  eexists. split; [done|]. split; [exact Hc|]. split; [exists (unk_pos a2); exact Hcl|].
  split; [exact Hv|]. split; [exact Hu|]. cbn. lia.
Qed.

(** All but the last character of a request are read without an outcome, the
    last one ends the headers. *)
Definition request_init (uri : bytes) (hs : list (bytes * bytes)) : bytes :=
  (str "GET " ++ uri ++ str " HTTP/1.1" ++ crlf) ++ concat (header_text <$> hs) ++ [13].

Lemma request_text_init uri hs : request_text uri hs = request_init uri hs ++ [10].
Proof. unfold request_text, request_init. change crlf with ([13] ++ [10]) at 2. by rewrite <- !app_assoc. Qed.

Lemma request_fed a uri hs :
  token_limits E = None -> empty_table a -> uri <> [] -> plain_uri false uri = true -> Forall header_ok hs ->
  Z.of_nat (length hs) <= 92 -> request_size uri hs <= L < 2 ^ 16 - 1 ->
  exists a1 a2 C X, feed (request_init uri hs) a = Some a1 /\ parse_char E 10 a1 = Ok (Set_parsing_complete, a2) /\
    (exists u, all_closed E u a2) /\ pos a2 <= L /\ view false a2 C X /\ ues a2 = URIES_IDLE /\
    shows C X (request_table uri hs).
Proof.
  intros HE Hem Hne Hpl Hok Hlen HL. unfold request_size in HL.
  assert (Hpos : 0 <= foldr (fun hv n => header_cost hv + n) 0 hs).
  { clear. induction hs as [|hv hs IH]; cbn [foldr]; [lia|]. pose proof (header_cost_nonneg hv). lia. }
  destruct (request_line a uri HE Hem Hne Hpl ltac:(lia)) as (a1 & C1 & X1 & Hf1 & Hst1 & Hsh1 & Hm1 & Hp1 & Hn1).
  destruct (header_lines a1 C1 X1 _ hs HE Hst1 Hsh1 Hm1 Hok) as (a2 & C2 & X2 & Hf2 & Hst2 & Hsh2 & Hp2);
    [lia|unfold WSI_TOKEN_COUNT; lia|lia|].
  destruct (headers_end a2 C2 X2 HE Hst2) as (a3 & a4 & Hf3 & Hc4 & Hcl & Hv & Hu & Hp4).
  { unfold used. destruct Hst2 as (_ & -> & _). cbn. rewrite (proj2 (Z.eqb_neq (pos a2) 0) ltac:(lia)). lia. }
  exists a3, a4, C2, X2. split; [|done].
  unfold request_init. rewrite feed_app, Hf1. cbn [mbind option_bind]. rewrite feed_app, Hf2. exact Hf3.
Qed.

(** A whole request fills the table with its headers. *)
Lemma parse_request_view w uri hs rest :
  token_limits E = None -> empty_table (ah w) -> uri <> [] -> plain_uri false uri = true -> Forall header_ok hs ->
  Z.of_nat (length hs) <= 92 -> request_size uri hs <= L < 2 ^ 16 - 1 ->
  exists a ft C X,
    lws_parse E (request_text uri hs ++ rest) w = Ok (LPR_OK, rest, mk_wsi a ft true (statuses w)) /\
    parser_state a = WSI_PARSING_COMPLETE /\ (exists u, all_closed E u a) /\ pos a <= L /\ view false a C X /\
    shows C X (request_table uri hs).
Proof.
  intros HE Hem Hne Hpl Hok Hlen HL.
  destruct (request_fed (ah w) uri hs HE Hem Hne Hpl Hok Hlen HL)
    as (a3 & a4 & C & X & Hfeed & Hc4 & [u Hcl] & Hp4 & Hv & Hu & Hsh).
  destruct (complete_spec u (set_ah a4 w) Hcl Hu) as (ft & Hft).
  exists (set_parser_state WSI_PARSING_COMPLETE a4), ft, C, X. split; [|split; [done|split; [by exists u|done]]].
  rewrite request_text_init, <- app_assoc, (lws_parse_feed _ _ _ _ Hfeed) by done.
  cbn [app lws_parse ah set_ah]. rewrite Hc4. cbn [mbind res_bind]. rewrite set_ah_twice, Hft. done.
Qed.

(** ** A request in pieces *)

Lemma lws_parse_all s w a : feed s (ah w) = Some a -> s <> [] -> lws_parse E s w = Ok (LPR_OK, [], set_ah a w).
Proof.
  intros Hf Hs. destruct (exists_last Hs) as (s' & c & ->). rewrite feed_app in Hf.
  destruct (feed s' (ah w)) as [a1|] eqn:E1; [|done]. cbn [mbind option_bind feed] in Hf.
  rewrite (lws_parse_feed s' [c] w a1) by done. cbn [lws_parse ah set_ah].
  destruct (parse_char E c a1) as [[[] a2]|]; try done. injection Hf as ->. cbn [mbind res_bind].
  by rewrite set_ah_twice.
Qed.

(** A completed table takes no further character. *)
Lemma feed_complete s a a' : parser_state a = WSI_PARSING_COMPLETE -> feed s a = Some a' -> a' = a.
Proof.
  intros Hs. induction s as [|c s IH]; cbn [feed]; [congruence|]. unfold parse_char. rewrite Hs. exact IH.
Qed.

(** A part of a request leaves a table that is not complete. *)
Lemma request_prefix a uri hs pre suf :
  token_limits E = None -> empty_table a -> uri <> [] -> plain_uri false uri = true -> Forall header_ok hs ->
  Z.of_nat (length hs) <= 92 -> request_size uri hs <= L < 2 ^ 16 - 1 ->
  request_text uri hs = pre ++ suf -> suf <> [] ->
  exists a', feed pre a = Some a' /\ parser_state a' <> WSI_PARSING_COMPLETE.
Proof.
  intros HE Hem Hne Hpl Hok Hlen HL Hsplit Hsuf.
  destruct (request_fed a uri hs HE Hem Hne Hpl Hok Hlen HL) as (a3 & a4 & C & X & Hfeed & Hc4 & _).
  destruct (exists_last Hsuf) as (suf' & c & ->). rewrite request_text_init, app_assoc in Hsplit.
  apply app_inj_tail in Hsplit as [Hi _]. rewrite Hi, feed_app in Hfeed.
  destruct (feed pre a) as [a'|]; [|done]. exists a'. split; [done|]. intros Hs. cbn [mbind option_bind] in Hfeed.
  apply feed_complete in Hfeed; [|done]. subst a3. unfold parse_char in Hc4. by rewrite Hs in Hc4.
Qed.

End Proof.

Lemma fresh_empty n : 0 < n -> empty_table (mk_parse_env n None true false) (ah (fresh_wsi n)).
Proof.
  intros Hn. apply reset_empty; [|done|done]. cbn. unfold len. rewrite length_replicate. lia.
Qed.

Lemma lws_parse_safe_witness :
  match lws_parse env_default (str "GET /%2e./") (fresh_wsi LWS_DEF_HEADER_LEN) with
  | Ok (r, rest, w') => suffix rest (str "GET /%2e./") /\ (r = LPR_OK -> wsi_inv env_default w')
  | Err e => e = assert_fails
  end.
Proof.
  apply (lws_parse_safe env_default (str "GET /%2e./") (fresh_wsi LWS_DEF_HEADER_LEN)).
  - split; [split; reflexivity|exact I].
  - destruct (fresh_empty LWS_DEF_HEADER_LEN eq_refl) as [Hst _]. exact (line_start_inv env_default _ _ _ Hst).
  - discriminate.
Defined.

(** ** The table keeps NULs out *)

Definition no_nul (t : bytes) : Prop := Forall (fun c => c <> 0) t.

Lemma store_no_nul first same cur v : no_nul cur -> plain v -> no_nul (store first same cur v).
Proof.
  intros Hc Hv. revert cur Hc. induction Hv as [|c v [H0 _] _ IH]; intros cur Hc; cbn [store]; [done|].
  destruct (_ && _); [by apply IH|]. apply IH. apply Forall_app. split; [done|]. by constructor.
Qed.

Lemma plain_uri_no_nul b u : plain_uri b u = true -> no_nul u.
Proof.
  revert b. induction u as [|c u IH]; intros b; cbn [plain_uri]; [constructor|].
  destruct (Z.eqb_spec c 47); [intros [_ H]%andb_true_iff; constructor; [lia|by eapply IH]|].
  destruct (Z.eqb_spec c 46); [intros [_ H]%andb_true_iff; constructor; [lia|by eapply IH]|].
  intros [Hc H]%andb_true_iff. constructor; [|by eapply IH].
  cbn [forallb] in Hc. rewrite !andb_true_iff, !negb_true_iff, !Z.eqb_neq in Hc. by destruct Hc.
Qed.

Lemma request_table_no_nul uri hs h t :
  plain_uri false uri = true -> Forall header_ok hs -> t ∈ request_table uri hs h -> no_nul t.
Proof.
  intros Hu Hhs. unfold request_table.
  assert (H0 : forall h t, t ∈ upd (upd (fun _ => []) WSI_TOKEN_GET_URI [uri]) WSI_TOKEN_HTTP [str "HTTP/1.1"] h -> no_nul t).
  { intros h' t'. unfold upd. destruct (h' =? WSI_TOKEN_HTTP).
    - intros ->%list_elem_of_singleton. apply (bool_decide_unpack _). vm_compute. reflexivity.
    - destruct (h' =? WSI_TOKEN_GET_URI); [|set_solver]. intros ->%list_elem_of_singleton. by eapply plain_uri_no_nul. }
  revert H0. generalize (upd (upd (fun _ : Z => []) WSI_TOKEN_GET_URI [uri]) WSI_TOKEN_HTTP [str "HTTP/1.1"]).
  induction Hhs as [|hv hs [Hv _] _ IH]; intros T HT; cbn [fold_left]; [apply HT|].
  apply IH. intros h' t'. unfold add_header. destruct (lex_word 0 (tolower <$> hv.1)) as [n|]; [|apply HT].
  destruct (Z.eq_dec h' n) as [->|]; [|rewrite upd_ne by done; apply HT]. rewrite upd_eq, elem_of_app, list_elem_of_singleton.
  intros [Hin| ->]; [by eapply HT|]. destruct (T n); apply store_no_nul; try done; by constructor.
Qed.

End HttpParseProof.
