(* ===== verification/HttpServer.v ===== *)
(** * From the bytes of a request to the upgrade (libwebsockets lib/roles/http/server/server.c)

    [lws_handshake_server] feeds what arrived to the header parser and, once
    the headers are complete, decides what becomes of the connection.  The
    header table of HttpParse is read through the header functions of Upgrade:
    [table_of] gives the fragments of each header, and the functions of both
    files agree on it.  What the user callback, the vhost selection, the
    fallback roles and the plain HTTP serving answer are arguments. *)

From S2P Require Import Prelude CLib HttpLex HttpParse WsState WsRx WsTx Upgrade.

Module HttpServer.
Module H := HttpParse.
Module U := Upgrade.

Definition token_of (h : U.hdr) : Z :=
  match h with
  | U.HOST => H.WSI_TOKEN_HOST
  | U.KEY => H.WSI_TOKEN_KEY
  | U.VERSION => H.WSI_TOKEN_VERSION
  | U.PROTOCOL => H.WSI_TOKEN_PROTOCOL
  | U.CONNECTION => H.WSI_TOKEN_CONNECTION
  | U.GET_URI => H.WSI_TOKEN_GET_URI
  | U.HTTP_COOKIE => H.WSI_TOKEN_HTTP_COOKIE
  end.

(** The texts of the fragments from [n] on. *)
Fixpoint chain_texts (fuel : nat) (n : Z) (a : H.allocated_headers) : list bytes :=
  match fuel with
  | O => []
  | S fuel =>
    match H.frag_get n a with
    | Ok f =>
      take (Z.to_nat (H.flen f)) (drop (Z.to_nat (H.offset f)) (H.data a)) ::
      (if nz (H.fnext f) then chain_texts fuel (H.fnext f) a else [])
    | Err _ => []
    end
  end.

Definition header_texts (h : Z) (a : H.allocated_headers) : list bytes :=
  match H.index_get h a with
  | Ok n => if n =? 0 then [] else chain_texts H.chain_fuel n a
  | Err _ => []
  end.

Definition table_of (a : H.allocated_headers) : U.header_table := fun h => header_texts (token_of h) a.

(** ** The handshake of the server *)

(** A vhost as far as the upgrade uses it. *)
Record vhost := mk_vhost {
  listen_port : Z;
  v_protocols : list (option bytes);
  default_protocol_index : Z;
  strict_host_check : bool   (* LWS_SERVER_OPTION_VHOST_UPG_STRICT_HOST_CHECK *)
}.

(** What the rest of the library and the user answer. *)
Record server_answers := mk_server_answers {
  s_select_vhost : bytes -> option vhost;          (* lws_select_vhost on the Host header *)
  s_reject_keywords : list (bytes * bytes);        (* context->reject_service_keywords *)
  s_forbidden_ends : bool;       (* lws_return_http_status(403) || lws_http_transaction_completed *)
  s_confirm_upgrade : Z;         (* the callback at LWS_CALLBACK_HTTP_CONFIRM_UPGRADE *)
  s_completed_ends : bool;       (* lws_http_transaction_completed after it answered *)
  s_host_refused : bool;         (* lws_confirm_host_header *)
  s_fallback_fails : bool;       (* lws_http_to_fallback *)
  s_upgrade : U.answers
}.

(** What became of the connection. *)
Inductive handshake_end :=
| More_headers          (* return 0, the headers are not complete *)
| Bail                  (* the header table is dropped, return 1 *)
| Raw_fallback          (* handed to a raw role, return 0 *)
| Answered              (* the callback has answered already, return 0 *)
| After_forbidden       (* 403 was answered and the transaction completed; goes on all the same *)
| Http_action           (* goes on to be served as HTTP *)
| Upgrade_h2c           (* goes on with the upgrade to HTTP/2 *)
| Upgraded_ws.          (* a WebSocket connection, return 0 *)

(** [strcasecmp(a, b) == 0] *)
Definition strcasecmp0 (a b : bytes) : bool := beqb (tolower <$> a) (tolower <$> b).

(** [strstr] *)
Fixpoint strstr (s p : bytes) : bool :=
  beqb (take (length p) s) p || match s with [] => false | _ :: s => strstr s p end.

(** The first keyword in the user agent: the status to answer with. *)
Fixpoint rejected_by (ua : bytes) (ks : list (bytes * bytes)) : option Z :=
  match ks with
  | [] => None
  | (name, value) :: ks => if strstr ua name then Some (atoi value) else rejected_by ua ks
  end.

(** A connection: the parser's part and the WebSocket part of the wsi. *)
Record conn := mk_conn { http : H.wsi; ws : Ws.lws; vh : vhost; protocol : option nat }.

Definition set_http (v : H.wsi) (c : conn) : conn := mk_conn v (ws c) (vh c) (protocol c).

(** No upgrade: the connection stays HTTP. *)
Definition as_http (c : conn) : conn :=
  mk_conn (http c) (Ws.set_state Ws.LRS_ESTABLISHED (ws c)) (vh c) (protocol c).

Definition add_status (s : Z) (w : H.wsi) : H.wsi :=
  H.mk_wsi (H.ah w) (H.rx_frame_type w) (H.hdr_parsing_completed w) (H.statuses w ++ [s]).

Inductive server_fault := parser_fault (e : HttpLex.fault) | program_fault (e : exn).

Definition lift_parse {A} (r : res HttpLex.fault A) : res server_fault A :=
  match r with Ok x => Ok x | Err e => Err (parser_fault e) end.

Definition lift_exn {A} (r : res exn A) : res server_fault A :=
  match r with Ok x => Ok x | Err e => Err (program_fault e) end.

Section Server.
Context (PE : H.parse_env) (E : Ws.env) (A : server_answers).

(** The Upgrade header asks for something. *)
Definition handshake_upgrade (up : bytes) (c : conn) : res server_fault (handshake_end * conn) :=
  let known := strcasecmp0 up (str "websocket") || strcasecmp0 up (str "h2c") in
  let c := if negb known then set_http (add_status 403 (http c)) c else c in
  if negb known then Ok ((if s_forbidden_ends A then Bail else After_forbidden), c)
  else
    let n := s_confirm_upgrade A in
    if n <? 0 then Ok (Bail, c)
    else if n >? 0 then Ok ((if s_completed_ends A then Bail else Answered), c)
    else if strict_host_check (vh c) && s_host_refused A then Ok (Bail, c)
    else if strcasecmp0 up (str "websocket") then
      '(r, p, w) ← lift_exn (U.lws_process_ws_upgrade E (table_of (H.ah (http c))) (s_upgrade A)
                      (v_protocols (vh c)) (default_protocol_index (vh c)) (ws c));
      let c := mk_conn (http c) w (vh c) p in
      Ok ((if nz r then Bail else Upgraded_ws), c)
    else if strcasecmp0 up (str "h2c") then Ok (Upgrade_h2c, c)
    else Ok (Http_action, as_http c).

(** The headers are complete. *)
Definition handshake_complete (c : conn) : res server_fault (handshake_end * conn) :=
  let a := H.ah (http c) in
  lh ← lift_parse (H.lws_hdr_total_length H.WSI_TOKEN_HOST a);
  host ← (if nz (listen_port (vh c)) && nz lh then lift_parse (H.lws_hdr_simple_ptr H.WSI_TOKEN_HOST a) else Ok None);
  let v := match host with Some h => default (vh c) (s_select_vhost A h) | None => vh c end in
  let c := mk_conn (http c) (ws c) v (protocol c) in
  ua ← (match s_reject_keywords A with
        | [] => Ok (0, [])
        | _ => lift_parse (H.lws_hdr_copy 383 H.WSI_TOKEN_HTTP_USER_AGENT a)
        end);
  match (if ua.1 >? 0 then rejected_by (c_str ua.2) (s_reject_keywords A) else None) with
  | Some s => Ok (Bail, set_http (add_status s (http c)) c)
  | None =>
    l ← lift_parse (H.lws_hdr_total_length H.WSI_TOKEN_CONNECT a);
    if nz l then Ok ((if s_fallback_fails A then Bail else Raw_fallback), c)
    else
      let c := mk_conn (http c) (Ws.set_state Ws.LRS_PRE_WS_SERVING_ACCEPT (ws c)) (vh c) (protocol c) in
      u ← lift_parse (H.lws_hdr_total_length H.WSI_TOKEN_UPGRADE a);
      if nz u then
        up ← lift_parse (H.lws_hdr_simple_ptr H.WSI_TOKEN_UPGRADE a);
        handshake_upgrade (default [] up) c
      else Ok (Http_action, as_http c)
  end.

(** The loop over what arrived: how it ended, what was not consumed, and the
    connection.  Each round consumes at least one character. *)
Fixpoint handshake_loop (fuel : nat) (buf : bytes) (c : conn) : res server_fault (handshake_end * bytes * conn) :=
  match fuel with
  | O => Err (parser_fault HttpLex.no_fuel)
  | S fuel =>
    match buf with
    | [] => Ok (More_headers, [], c)
    | _ =>
      '(m, rest, w) ← lift_parse (H.lws_parse PE buf (http c));
      let c := set_http w c in
      if m =? H.LPR_DO_FALLBACK then
        if s_fallback_fails A then Ok (Bail, rest, c) else Ok (Raw_fallback, [], c)
      else if nz m then Ok (Bail, rest, c)
      else if negb (H.parser_state (H.ah w) =? H.WSI_PARSING_COMPLETE) then handshake_loop fuel rest c
      else
        '(e, c) ← handshake_complete c;
        Ok (e, (match e with Raw_fallback => [] | _ => rest end), c)
    end
  end.

Definition lws_handshake_server (buf : bytes) (c : conn) : res server_fault (handshake_end * bytes * conn) :=
  if len buf >=? 10000000 then Err (parser_fault HttpLex.assert_fails)
  else handshake_loop (S (length buf)) buf c.

End Server.

End HttpServer.
