(* ===== verification/HttpServerProof.v ===== *)
(** * A request's bytes become a WebSocket connection

    The header functions answer from the table a request left behind, and the
    server's handshake takes the bytes of an upgrade request to an established
    connection that has sent the 101 response. *)

From S2P Require Import Prelude CLib HttpLex HttpParse HttpParseSafe HttpParseProof WsState WsRx WsRxProof WsRxProps WsTx WsTxProof Tokenize Upgrade UpgradeProof HttpServer.

Module HttpServerProof.
Import HttpParse HttpParseSafe HttpParseProof HttpServer.

(** ** Reading the table *)

(** A finished table that holds the texts [T], none of which has a NUL. *)
Definition holds (E : parse_env) (a : allocated_headers) (T : Z -> list bytes) : Prop :=
  exists u C X, all_closed E u a /\ pos a <= max_http_header_data E /\ view false a C X /\ shows C X T /\
    forall h t, t ∈ T h -> no_nul t.

Lemma c_string_text t d : no_nul t -> c_string (t ++ 0 :: d) = Ok t.
Proof.
  induction 1 as [|c t Hc _ IH]; cbn; [done|]. rewrite (proj2 (Z.eqb_neq c 0) Hc). by rewrite IH.
Qed.

Section Reading.
Context (E : parse_env) (a : allocated_headers) (u : Z) (C : Z -> list Z) (X : Z -> bytes).
Context (Hc : all_closed E u a) (HL : pos a <= max_http_header_data E) (Hv : view false a C X).

Lemma chain_bound h n :
  0 <= h < WSI_TOKEN_COUNT -> at_pos (frag_index a) h n -> chain (frags a) n (C h) ->
  (length (C h) < chain_fuel)%nat.
Proof using Hc.
  intros Hh Hn Hch.
  destruct (chain_up (frags a) (nfrag a) n (C h)) as (_ & _ & Hl); [by destruct Hc| |done|].
  { destruct Hc. by eapply ok_index0. }
  destruct (C h) as [|i l]; [unfold chain_fuel, WSI_TOKEN_COUNT; cbn; lia|].
  destruct Hch as (-> & Hi & f & Hf & _). pose proof (at_pos_range _ _ _ Hf).
  specialize (Hl ltac:(lia)). destruct Hc. unfold chain_fuel, WSI_TOKEN_COUNT in *. lia.
Qed.

Lemma frag_facts i f :
  1 <= i <= nfrag a -> at_pos (frags a) i f ->
  frag_text (data a) f = X i /\ flen f = len (X i) /\ 0 <= offset f /\ offset f + flen f < len (data a) /\
  at_pos (data a) (offset f + flen f) 0.
Proof using Hc HL Hv.
  intros Hi Hf. destruct (rd_text _ _ _ _ _ _ _ Hv i f Hi Hf) as [Ht Hlen].
  pose proof (rd_nul _ _ _ _ _ _ _ Hv i f Hi ltac:(done) Hf) as Hn.
  destruct Hc. pose proof (ok_frag0 i f ltac:(lia) Hf). pose proof (at_pos_range _ _ _ Hn).
  split; [done|]. split; [done|]. split; [lia|]. split; [unfold len; lia|done].
Qed.

Lemma chain_texts_spec fuel n l :
  (forall i, i ∈ l -> 1 <= i <= nfrag a) -> chain (frags a) n l -> n <> 0 -> (length l < fuel)%nat ->
  chain_texts fuel n a = X <$> l.
Proof using Hc HL Hv.
  revert n l. induction fuel as [|fuel IH]; intros n l Hr Hch Hn Hlt; [lia|].
  destruct l as [|i l]; [done|]. destruct Hch as (-> & Hi & f & Hf & Hch). cbn [chain_texts length] in *.
  unfold frag_get. rewrite (at_pos_index _ _ _ Hf). cbn [fmap list_fmap].
  destruct (frag_facts i f) as (<- & _); [apply Hr; by left|done|]. f_equal.
  destruct (nz (fnext f)) eqn:En.
  - apply IH; [intros; apply Hr; by right|done|by apply nz_true|lia].
  - apply nz_false in En. destruct l as [|j l]; [done|]. destruct Hch as (? & ? & _). congruence.
Qed.

Lemma header_texts_spec h : 0 <= h < WSI_TOKEN_COUNT -> header_texts h a = texts C X h.
Proof using Hc HL Hv.
  intros Hh. unfold header_texts, texts. destruct (rd_chain _ _ _ _ _ _ _ Hv h Hh) as (n & Hn & Hch).
  unfold index_get. rewrite (at_pos_index _ _ _ Hn). pose proof (chain_bound h n Hh Hn Hch) as Hb.
  destruct (Z.eqb_spec n 0) as [->|].
  - destruct (C h) as [|i l]; [done|]. by destruct Hch as (<- & ? & _).
  - apply chain_texts_spec; [|done|done|done]. intros i Hi. by apply (rd_range _ _ _ _ _ _ _ Hv h).
Qed.

Lemma total_length_spec fuel n l h acc :
  (forall i, i ∈ l -> 1 <= i <= nfrag a) -> chain (frags a) n l -> n <> 0 -> (length l < fuel)%nat ->
  total_length_loop fuel n h acc a = Ok (acc + Upgrade.frags_length (h =? WSI_TOKEN_HTTP_COOKIE) (X <$> l)).
Proof using Hc HL Hv.
  revert n l acc. induction fuel as [|fuel IH]; intros n l acc Hr Hch Hn Hlt; [lia|].
  destruct l as [|i l]; [done|]. destruct Hch as (-> & Hi & f & Hf & Hch). cbn [total_length_loop length] in *.
  unfold frag_get. rewrite (at_pos_index _ _ _ Hf). cbn [mbind res_bind fmap list_fmap Upgrade.frags_length].
  destruct (frag_facts i f) as (_ & -> & _); [apply Hr; by left|done|].
  destruct (nz (fnext f)) eqn:En.
  - rewrite (IH (fnext f) l) by first [by intros; apply Hr; right | done | by apply nz_true | lia].
    destruct l as [|j l]; [apply nz_true in En; done|]. f_equal. cbn [fmap list_fmap].
    destruct (h =? WSI_TOKEN_HTTP_COOKIE); cbn [negb]; lia.
  - apply nz_false in En. destruct l as [|j l]; [|destruct Hch as (? & ? & _); congruence]. cbn. f_equal. lia.
Qed.

Lemma hdr_total_length_spec h :
  0 <= h < WSI_TOKEN_COUNT ->
  HttpParse.lws_hdr_total_length h a = Ok (Upgrade.frags_length (h =? WSI_TOKEN_HTTP_COOKIE) (texts C X h)).
Proof using Hc HL Hv.
  intros Hh. unfold HttpParse.lws_hdr_total_length, texts.
  destruct (rd_chain _ _ _ _ _ _ _ Hv h Hh) as (n & Hn & Hch).
  unfold index_get. rewrite (at_pos_index _ _ _ Hn). cbn [mbind res_bind].
  pose proof (chain_bound h n Hh Hn Hch) as Hb. destruct (Z.eqb_spec n 0) as [->|].
  - destruct (C h) as [|i l]; [done|]. by destruct Hch as (<- & ? & _).
  - rewrite (total_length_spec _ _ (C h)) by first [done | intros; by apply (rd_range _ _ _ _ _ _ _ Hv h)]. done.
Qed.

Lemma hdr_simple_ptr_spec h :
  0 <= h < WSI_TOKEN_COUNT -> (forall t, t ∈ texts C X h -> no_nul t) ->
  HttpParse.lws_hdr_simple_ptr h a = Ok (list.head (texts C X h)).
Proof using Hc HL Hv.
  intros Hh Hnn. unfold HttpParse.lws_hdr_simple_ptr, texts in *.
  destruct (rd_chain _ _ _ _ _ _ _ Hv h Hh) as (n & Hn & Hch).
  unfold index_get. rewrite (at_pos_index _ _ _ Hn). cbn [mbind res_bind]. destruct (Z.eqb_spec n 0) as [->|].
  { destruct (C h) as [|i l]; [done|]. by destruct Hch as (<- & ? & _). }
  destruct (C h) as [|i l] eqn:EC; [done|]. destruct Hch as (-> & Hi & f & Hf & _).
  unfold frag_get. rewrite (at_pos_index _ _ _ Hf). cbn [mbind res_bind fmap list_fmap list.head].
  destruct (frag_facts i f) as (Ht & Hl & Ho & Hlt & Hnul); [|done|].
  { apply (rd_range _ _ _ _ _ _ _ Hv h). rewrite EC. by left. }
  unfold string_at. destruct (Z.ltb_spec (offset f) 0); [lia|].
  assert (exists d, drop (Z.to_nat (offset f)) (data a) = X i ++ 0 :: d) as [d ->].
  { unfold frag_text in Ht. exists (drop (S (Z.to_nat (offset f + flen f))) (data a)).
    rewrite <- Ht at 1. destruct Hnul as [_ Hnul].
    rewrite <- (take_drop (Z.to_nat (flen f)) (drop (Z.to_nat (offset f)) (data a))) at 1. f_equal.
    rewrite drop_drop. rewrite <- (drop_S _ 0 (Z.to_nat (offset f + flen f))) by done. f_equal.
    pose proof (len_nonneg (X i)). lia. }
  rewrite c_string_text; [done|]. apply Hnn. by left.
Qed.

Lemma strncpy_text t : no_nul t -> strncpy t (len t) = t.
Proof using.
  intros Ht. unfold strncpy, len. rewrite Nat2Z.id, c_str_no_nul by done.
  rewrite take_ge by done. rewrite Nat.sub_diag. apply app_nil_r.
Qed.

Lemma hdr_copy_loop_spec fuel n l h size dst :
  (forall i, i ∈ l -> 1 <= i <= nfrag a /\ no_nul (X i)) -> chain (frags a) n l -> n <> 0 -> (length l < fuel)%nat ->
  hdr_copy_loop fuel n h size dst a =
    Ok (app dst <$> Upgrade.copy_frags (h =? WSI_TOKEN_HTTP_COOKIE) (X <$> l) size).
Proof using Hc HL Hv.
  revert n l size dst. induction fuel as [|fuel IH]; intros n l size dst Hr Hch Hn Hlt; [lia|].
  destruct l as [|i l]; [done|]. destruct Hch as (-> & Hi & f & Hf & Hch). cbn [hdr_copy_loop length] in *.
  destruct (Hr i) as [Hri Hnn]; [by left|].
  unfold frag_get. rewrite (at_pos_index _ _ _ Hf). cbn [mbind res_bind fmap list_fmap Upgrade.copy_frags].
  destruct (frag_facts i f Hri Hf) as (Ht & Hl & Ho & Hlt' & _). rewrite Hl.
  assert (Hnext : nz (fnext f) = match X <$> l with [] => false | _ => true end).
  { destruct l as [|j l]; cbn in Hch; [apply nz_false; done|].
    destruct Hch as (-> & ? & _). apply nz_true; done. }
  assert (match X <$> l with [] => false | _ => negb (h =? WSI_TOKEN_HTTP_COOKIE) end =
          nz (fnext f) && negb (h =? WSI_TOKEN_HTTP_COOKIE)) as ->.
  { rewrite Hnext. by destruct l. }
  destruct (_ >=? size); [done|]. unfold data_slice. pose proof (len_nonneg (X i)).
  destruct (Z.leb_spec 0 (offset f)); [|lia]. destruct (Z.leb_spec 0 (len (X i))); [|lia].
  destruct (Z.leb_spec (offset f + len (X i)) (len (data a))); [|lia]. cbn [andb mbind res_bind].
  unfold frag_text in Ht. rewrite Hl in Ht. rewrite Ht, strncpy_text by done.
  destruct (nz (fnext f)) eqn:En.
  - rewrite (IH (fnext f) l) by first [by intros; apply Hr; right | done | by apply nz_true | lia].
    destruct (Upgrade.copy_frags _ (X <$> l) _) as [d|]; cbn; [|done].
    destruct (negb _); cbn; by rewrite <- ?app_assoc.
  - destruct l as [|j l]; [|done]. cbn. by rewrite app_nil_r.
Qed.

(** [lws_hdr_copy] of the texts [ts]. *)
Definition copy_of (cookie : bool) (size : Z) (ts : list bytes) : Z * bytes :=
  let toklen := Upgrade.frags_length cookie ts in
  if toklen =? 0 then (0, [])
  else if toklen >=? size then (-1, [])
  else match Upgrade.copy_frags cookie ts size with None => (-1, []) | Some d => (toklen, d) end.

Lemma hdr_copy_spec size h :
  0 <= h < WSI_TOKEN_COUNT -> (forall t, t ∈ texts C X h -> no_nul t) ->
  HttpParse.lws_hdr_copy size h a = Ok (copy_of (h =? WSI_TOKEN_HTTP_COOKIE) size (texts C X h)).
Proof using Hc HL Hv.
  intros Hh Hnn. unfold HttpParse.lws_hdr_copy, copy_of. rewrite hdr_total_length_spec by done.
  cbn [mbind res_bind]. destruct (Z.eqb_spec (Upgrade.frags_length (h =? WSI_TOKEN_HTTP_COOKIE) (texts C X h)) 0); [done|].
  destruct (_ >=? size); [done|]. unfold texts in *.
  destruct (rd_chain _ _ _ _ _ _ _ Hv h Hh) as (m & Hm & Hch).
  unfold index_get. rewrite (at_pos_index _ _ _ Hm). cbn [mbind res_bind].
  pose proof (chain_bound h m Hh Hm Hch) as Hb. destruct (Z.eqb_spec m 0) as [->|].
  { destruct (C h) as [|i l]; [done|]. by destruct Hch as (<- & ? & _). }
  rewrite (hdr_copy_loop_spec _ _ (C h)); [|intros i Hi; split|done|done|done].
  - cbn [mbind res_bind]. by destruct (Upgrade.copy_frags _ _ _).
  - by apply (rd_range _ _ _ _ _ _ _ Hv h).
  - apply Hnn. apply list_elem_of_fmap. by exists i.
Qed.

End Reading.

(** The header functions on a table that holds [T]. *)
Lemma holds_functions E a T h :
  holds E a T -> 0 <= h < WSI_TOKEN_COUNT ->
  HttpParse.lws_hdr_total_length h a = Ok (Upgrade.frags_length (h =? WSI_TOKEN_HTTP_COOKIE) (T h)) /\
  HttpParse.lws_hdr_simple_ptr h a = Ok (list.head (T h)) /\
  (forall size, HttpParse.lws_hdr_copy size h a = Ok (copy_of (h =? WSI_TOKEN_HTTP_COOKIE) size (T h))) /\
  header_texts h a = T h.
Proof.
  intros (u & C & X & Hc & HL & Hv & Hsh & Hnn) Hh. rewrite <- Hsh.
  assert (Hn : forall t, t ∈ texts C X h -> no_nul t) by (intros t; rewrite Hsh; apply Hnn).
  split_and!; [by eapply hdr_total_length_spec | by eapply hdr_simple_ptr_spec
              | intros; rewrite <- ?Hsh; by eapply hdr_copy_spec | by eapply header_texts_spec].
Qed.

Lemma parse_request_holds E w uri hs rest :
  token_limits E = None -> empty_table E (ah w) -> uri <> [] -> plain_uri false uri = true -> Forall header_ok hs ->
  Z.of_nat (length hs) <= 92 -> request_size uri hs <= max_http_header_data E < 2 ^ 16 - 1 ->
  exists w', lws_parse E (request_text uri hs ++ rest) w = Ok (LPR_OK, rest, w') /\
    parser_state (ah w') = WSI_PARSING_COMPLETE /\ hdr_parsing_completed w' = true /\ statuses w' = statuses w /\
    holds E (ah w') (request_table uri hs).
Proof.
  intros HE Hem Hne Hpl Hok Hlen HL.
  destruct (parse_request_view E w uri hs rest) as (a & ft & C & X & Hp & Hs & (u & Hc) & HpL & Hv & Hsh); try done.
  eexists. split; [exact Hp|]. split; [done|]. split; [done|]. split; [done|].
  exists u, C, X. split_and!; try done. intros h t. by apply request_table_no_nul.
Qed.

(** C21: a request is read back from the header table.  A GET request with a
    plain URI and at most 92 header lines that fit into the table is parsed in
    one call up to its last character and no further; then every header
    function answers from the request: the total length of a header, its first
    value, and the copy of all its values, which are the lines of the request
    with that name in any case, in order. *)
Theorem parse_request_spec E w uri hs rest
    (HE : token_limits E = None) (Hw : empty_table E (ah w))
    (Hne : uri <> []) (Hpl : plain_uri false uri = true) (Hok : Forall header_ok hs)
    (Hlen : Z.of_nat (length hs) <= 92) (HL : request_size uri hs <= max_http_header_data E < 2 ^ 16 - 1) :
  let T := request_table uri hs in
  exists w', lws_parse E (request_text uri hs ++ rest) w = Ok (LPR_OK, rest, w') /\
    parser_state (ah w') = WSI_PARSING_COMPLETE /\ hdr_parsing_completed w' = true /\ statuses w' = statuses w /\
    forall h, 0 <= h < WSI_TOKEN_COUNT ->
      HttpParse.lws_hdr_total_length h (ah w') = Ok (Upgrade.frags_length (h =? WSI_TOKEN_HTTP_COOKIE) (T h)) /\
      HttpParse.lws_hdr_simple_ptr h (ah w') = Ok (list.head (T h)) /\
      (forall size, HttpParse.lws_hdr_copy size h (ah w') = Ok (copy_of (h =? WSI_TOKEN_HTTP_COOKIE) size (T h))).
Proof.
  intros T. destruct (parse_request_holds E w uri hs rest) as (w' & Hp & Hs & Hc & Hst & Hh); try done.
  exists w'. split_and!; [done..|]. intros h Hr. destruct (holds_functions _ _ _ h Hh Hr) as (H1 & H2 & H3 & _).
  by split_and!.
Qed.

(** The request of RFC 6455, section 1.3, with two Connection lines and a
    header the parser does not know. *)
Definition sample_request : list (bytes * bytes) :=
  [(str "Host:", str " server.example.com"); (str "UPGRADE:", str " WebSocket");
   (str "Connection:", str " keep-alive"); (str "X-Trace:", str " 12:34"); (str "Connection:", str "Upgrade");
   (str "Sec-WebSocket-Key:", str " dGhlIHNhbXBsZSBub25jZQ==");
   (str "Sec-WebSocket-Protocol:", str " chat, superchat"); (str "Sec-WebSocket-Version:", str "13")].

Lemma known_header_ok name v n :
  lex_word 0 (tolower <$> name) = Some n ->
  bool_decide (plain v /\ 0 <= n < WSI_TOKEN_TABLE /\ n <> WSI_TOKEN_CHALLENGE /\ n <> WSI_TOKEN_SWORIGIN /\ n ∉ methods)
    = true -> header_ok (name, v).
Proof.
  intros Hw (Hp & H1 & H2 & H3 & H4)%bool_decide_eq_true. split; [done|]. left. exists n.
  split; [done|]. split; [split; done|]. split; done.
Qed.

Lemma sample_request_ok : Forall header_ok sample_request.
Proof.
  unfold sample_request. repeat apply Forall_cons_2; try apply Forall_nil_2;
    try (eapply known_header_ok; [vm_compute; reflexivity | vm_compute; reflexivity]).
  split; [apply (bool_decide_unpack _); vm_compute; reflexivity|]. right. split.
  - exists (str "X-"), 84, (str "race"). eexists. split; [reflexivity|]. split; [vm_compute; reflexivity|].
    split; [vm_compute; reflexivity|]. split; [vm_compute; reflexivity|].
    apply (bool_decide_unpack _). vm_compute. reflexivity.
  - apply (bool_decide_unpack _). vm_compute. reflexivity.
Qed.

Lemma parse_request_spec_witness :
  exists w', lws_parse env_default (request_text (str "/chat") sample_request ++ str "rest")
      (fresh_wsi LWS_DEF_HEADER_LEN) = Ok (LPR_OK, str "rest", w') /\
    HttpParse.lws_hdr_copy 100 WSI_TOKEN_CONNECTION (ah w') = Ok (19, str "keep-alive, Upgrade").
Proof.
  assert (Hr : 0 <= WSI_TOKEN_CONNECTION < WSI_TOKEN_COUNT) by (split; [discriminate|reflexivity]).
  assert (Hc : copy_of false 100 (request_table (str "/chat") sample_request WSI_TOKEN_CONNECTION) =
               (19, str "keep-alive, Upgrade")) by (vm_compute; reflexivity).
  destruct (parse_request_spec env_default (fresh_wsi LWS_DEF_HEADER_LEN) (str "/chat") sample_request (str "rest"))
    as (w' & H1 & _ & _ & _ & H2).
  - reflexivity.
  - exact (fresh_empty LWS_DEF_HEADER_LEN eq_refl).
  - done.
  - reflexivity.
  - exact sample_request_ok.
  - vm_compute. done.
  - split; vm_compute; done.
  - exists w'. split; [exact H1|]. rewrite (proj2 (proj2 (H2 WSI_TOKEN_CONNECTION Hr)) 100).
    exact (f_equal Ok Hc).
Defined.

(** ** The upgrade, from the bytes of the request *)

Lemma http_not_method : WSI_TOKEN_HTTP ∉ methods.
Proof. apply (bool_decide_unpack _). vm_compute. reflexivity. Qed.

(** A request has no other method than GET. *)
Lemma request_table_method uri hs m :
  Forall header_ok hs -> m ∈ methods -> m <> WSI_TOKEN_GET_URI -> request_table uri hs m = [].
Proof.
  intros Hhs Hm Hne. unfold request_table.
  assert (H0 : upd (upd (fun _ => []) WSI_TOKEN_GET_URI [uri]) WSI_TOKEN_HTTP [str "HTTP/1.1"] m = []).
  { rewrite !upd_ne; [done|done|]. intros ->. by apply http_not_method. }
  revert H0. generalize (upd (upd (fun _ : Z => []) WSI_TOKEN_GET_URI [uri]) WSI_TOKEN_HTTP [str "HTTP/1.1"]).
  induction Hhs as [|hv hs [_ Hk] _ IH]; intros T HT; cbn [fold_left]; [done|]. apply IH. unfold add_header.
  destruct Hk as [(n & -> & _ & _ & Hn)|[Hu _]]; [|by rewrite unknown_word].
  rewrite upd_ne; [done|]. by intros ->.
Qed.

Lemma token_range h : 0 <= token_of h < WSI_TOKEN_COUNT.
Proof. destruct h; split; vm_compute; congruence. Qed.

Lemma table_of_holds E a T h : holds E a T -> table_of a h = T (token_of h).
Proof. intros Hh. apply (holds_functions E a T _ Hh (token_range h)). Qed.

(** The vhost the request is bound to. *)
Definition bound_vhost (A : server_answers) (c : conn) (T : Z -> list bytes) : vhost :=
  if nz (listen_port (vh c)) && nz (Upgrade.frags_length false (T WSI_TOKEN_HOST))
  then match list.head (T WSI_TOKEN_HOST) with Some h => default (vh c) (s_select_vhost A h) | None => vh c end
  else vh c.

Lemma frags_length_nonneg ck ts : 0 <= Upgrade.frags_length ck ts.
Proof.
  induction ts as [|t ts IH]; cbn [Upgrade.frags_length]; [lia|]. pose proof (len_nonneg t).
  destruct ts, ck; lia.
Qed.

(** Complete headers that ask for a WebSocket get as far as the upgrade. *)
Lemma handshake_complete_upgrade PE E A c T up :
  holds PE (ah (http c)) T -> s_reject_keywords A = [] -> T WSI_TOKEN_CONNECT = [] ->
  list.head (T WSI_TOKEN_UPGRADE) = Some up -> up <> [] -> strcasecmp0 up (str "websocket") = true ->
  s_confirm_upgrade A = 0 -> strict_host_check (bound_vhost A c T) && s_host_refused A = false ->
  handshake_complete E A c =
    '(r, p, w) ← lift_exn (Upgrade.lws_process_ws_upgrade E (table_of (ah (http c))) (s_upgrade A)
                    (v_protocols (bound_vhost A c T)) (default_protocol_index (bound_vhost A c T))
                    (Ws.set_state Ws.LRS_PRE_WS_SERVING_ACCEPT (ws c)));
    Ok ((if nz r then Bail else Upgraded_ws), mk_conn (http c) w (bound_vhost A c T) p).
Proof.
  intros Hh Hrej Hcon Hup Hne Hws Hcb Hstrict. unfold handshake_complete.
  destruct (holds_functions _ _ _ WSI_TOKEN_HOST Hh ltac:(done)) as (-> & Hhp & _).
  change (WSI_TOKEN_HOST =? WSI_TOKEN_HTTP_COOKIE) with false. cbn [lift_parse mbind res_bind].
  rewrite Hhp. cbn [lift_parse].
  assert (forall b : bool, (if b then Ok (list.head (T WSI_TOKEN_HOST)) else Ok None) =
          @Ok server_fault _ (if b then list.head (T WSI_TOKEN_HOST) else None)) as -> by by intros [].
  cbn [mbind res_bind].
  assert (match (if nz (listen_port (vh c)) && nz (Upgrade.frags_length false (T WSI_TOKEN_HOST))
                 then list.head (T WSI_TOKEN_HOST) else None) with
          | Some h => default (vh c) (s_select_vhost A h) | None => vh c end = bound_vhost A c T) as ->.
  { unfold bound_vhost.
    by destruct (nz (listen_port (vh c)) && nz (Upgrade.frags_length false (T WSI_TOKEN_HOST))). }
  rewrite Hrej. cbn [mbind res_bind fst Z.gtb Z.compare].
  destruct (holds_functions _ _ _ WSI_TOKEN_CONNECT Hh ltac:(done)) as (-> & _). rewrite Hcon.
  cbn [lift_parse mbind res_bind Upgrade.frags_length nz Z.eqb negb].
  destruct (holds_functions _ _ _ WSI_TOKEN_UPGRADE Hh ltac:(done)) as (-> & -> & _).
  change (WSI_TOKEN_UPGRADE =? WSI_TOKEN_HTTP_COOKIE) with false. cbn [lift_parse mbind res_bind]. rewrite Hup.
  assert (nz (Upgrade.frags_length false (T WSI_TOKEN_UPGRADE)) = true) as ->.
  { apply nz_true. destruct (T WSI_TOKEN_UPGRADE) as [|t ts]; [done|]. injection Hup as ->.
    cbn [Upgrade.frags_length]. pose proof (frags_length_nonneg false ts). pose proof (len_nonneg up).
    assert (len up <> 0) by (destruct up; [done|rewrite len_cons; pose proof (len_nonneg up); lia]).
    destruct ts; lia. }
  cbn [default from_option id]. unfold handshake_upgrade. rewrite Hws, Hcb. cbn [orb negb andb Z.ltb Z.gtb Z.compare vh].
  rewrite Hstrict. cbn [http ws protocol]. by destruct (Upgrade.lws_process_ws_upgrade _ _ _ _ _ _) as [[[r p] w]|].
Qed.

Lemma handshake_response_ext (t t' : Upgrade.header_table) accept pname extra :
  (forall h, t h = t' h) ->
  Upgrade.handshake_response t accept pname extra = Upgrade.handshake_response t' accept pname extra.
Proof. intros Ht. unfold Upgrade.handshake_response, Upgrade.lws_hdr_total_length. by rewrite Ht. Qed.

Lemma header_lists_ext (t t' : Upgrade.header_table) h es :
  (forall h, t h = t' h) -> header_lists t h es -> header_lists t' h es.
Proof. intros Ht (ess & H & ?). exists ess. by rewrite <- Ht. Qed.

(** A request for a WebSocket that nobody refuses: its URI and headers are
    [uri] and [hs], the chosen protocol is number [p] of the vhost, its key is
    [key], and the user adds [extra] to the response. *)

Definition request_headers (uri : bytes) (hs : list (bytes * bytes)) : Upgrade.header_table :=
  fun h => request_table uri hs (token_of h).

Definition offered (A : server_answers) (c : conn) (uri : bytes) (hs : list (bytes * bytes)) : list (option bytes) :=
  v_protocols (bound_vhost A c (request_table uri hs)).

Definition upgrade_response (A : server_answers) (c : conn) (uri : bytes) (hs : list (bytes * bytes)) (p : nat)
    (key extra : bytes) : bytes :=
  Upgrade.handshake_response (request_headers uri hs) (accept_key key)
    (default None (offered A c uri hs !! p)) extra.

Record upgrade_request (PE : parse_env) (E : Ws.env) (A : server_answers) (c : conn) (uri : bytes)
    (hs : list (bytes * bytes)) (p : nat) (key extra : bytes) : Prop := {
  ur_limits : token_limits PE = None;
  ur_table : empty_table PE (ah (http c));
  ur_uri : uri <> [] /\ plain_uri false uri = true;
  ur_headers : Forall header_ok hs /\ Z.of_nat (length hs) <= 92;
  ur_size : request_size uri hs <= max_http_header_data PE < 2 ^ 16 - 1;
  ur_welcome : s_reject_keywords A = [] /\ s_confirm_upgrade A = 0 /\
    strict_host_check (bound_vhost A c (request_table uri hs)) && s_host_refused A = false;
  ur_upgrade : exists up, list.head (request_table uri hs WSI_TOKEN_UPGRADE) = Some up /\
    strcasecmp0 up (str "websocket") = true;
  ur_connection : exists cs, header_lists (request_headers uri hs) Upgrade.CONNECTION cs /\
    existsb upgrade_word (map Tokenize.entry_name cs) = true;
  ur_protocol : exists ps, header_lists (request_headers uri hs) Upgrade.PROTOCOL ps /\
    Forall (fun e => len (Tokenize.entry_name e) < 63) ps /\
    select (offered A c uri hs) (map Tokenize.entry_name ps) = Some p;
  ur_host : Upgrade.frags_length false (request_table uri hs WSI_TOKEN_HOST) <> 0;
  ur_key : request_table uri hs WSI_TOKEN_KEY = [key] /\ 0 < len key < 128 /\ all_bytes key;
  ur_env : WsRxProof.env_ok E /\ granted E (s_upgrade A) extra /\ http_done (ws c);
  ur_send : kernel_ok E (Upgrade.a_send (s_upgrade A)) (upgrade_response A c uri hs p key extra)
}.

(** Once the parser has the whole request, whichever part of it arrived
    last. *)
Lemma upgrade_parsed PE E A c uri hs p key extra b w rest w' :
  upgrade_request PE E A c uri hs p key extra -> b <> [] -> len b < 10000000 ->
  lws_parse PE b w = Ok (LPR_OK, rest, w') -> parser_state (ah w') = WSI_PARSING_COMPLETE ->
  holds PE (ah w') (request_table uri hs) ->
  exists c', lws_handshake_server PE E A b (set_http w c) = Ok (Upgraded_ws, rest, c') /\
    output (ws c') = output (ws c) ++ upgrade_response A c uri hs p key extra /\
    WsRxProof.ready E false (ws c') /\ protocol c' = Some p /\ kept (ws c) (ws c') /\
    http c' = w' /\ v_protocols (vh c') = offered A c uri hs.
Proof.
  intros [] Hb Hlen Hp Hs Hh. unfold lws_handshake_server.
  destruct (Z.geb_spec (len b) 10000000); [lia|]. cbn [handshake_loop].
  destruct b as [|b0 bs]; [done|]. cbn [http set_http].
  rewrite Hp. cbn [lift_parse mbind res_bind]. change (LPR_OK =? LPR_DO_FALLBACK) with false.
  change (nz LPR_OK) with false. cbn match. rewrite Hs. cbn [Z.eqb Pos.eqb negb WSI_PARSING_COMPLETE].
  assert (Ht : forall h, request_headers uri hs h = table_of (ah w') h)
    by (intros h; symmetry; exact (table_of_holds _ _ _ h Hh)).
  destruct ur_upgrade0 as (up & Hup & Hws), ur_welcome0 as (Hrej & Hcb & Hstrict).
  destruct ur_connection0 as (cs & Hcon & Hupw), ur_protocol0 as (ps & Hpro & Hplen & Hsel).
  destruct ur_key0 as (Hkey & Hkl & Hkb), ur_env0 as (HE & HA & Hd), ur_uri0 as [_ Hpl], ur_headers0 as [Hok _].
  change (set_http w' (set_http w c)) with (set_http w' c).
  erewrite (handshake_complete_upgrade PE E A (set_http w' c) (request_table uri hs) up);
    [|exact Hh|done| |done| |done|done|exact Hstrict].
  2: { apply request_table_method; [done|apply (bool_decide_unpack _); vm_compute; reflexivity|done]. }
  2: { intros ->. done. }
  change (bound_vhost A (set_http w' c) (request_table uri hs)) with (bound_vhost A c (request_table uri hs)).
  fold (offered A c uri hs).
  pose proof (upgrade_kept E (table_of (ah w')) (s_upgrade A) (offered A c uri hs)
    (default_protocol_index (bound_vhost A c (request_table uri hs)))
    (Ws.set_state Ws.LRS_PRE_WS_SERVING_ACCEPT (ws c))) as Hq.
  destruct (upgrade_accepted E (table_of (ah w')) (s_upgrade A) (offered A c uri hs)
    (default_protocol_index (bound_vhost A c (request_table uri hs))) cs ps p key extra
    (Ws.set_state Ws.LRS_PRE_WS_SERVING_ACCEPT (ws c))) as (w2 & Hu & Ho & Hr & _); try done.
  - by eapply header_lists_ext.
  - by eapply header_lists_ext.
  - unfold Upgrade.lws_hdr_total_length. rewrite <- Ht. exact ur_host0.
  - rewrite <- Ht. exact Hkey.
  - eapply request_table_no_nul; [exact Hpl|exact Hok|]. rewrite Hkey. by left.
  - by rewrite <- (handshake_response_ext (request_headers uri hs)).
  - cbn [http set_http ws]. rewrite Hu in Hq |- *. cbn [lift_exn mbind res_bind]. eexists. split; [done|].
    cbn [ws protocol http vh]. rewrite Ho, (handshake_response_ext _ (request_headers uri hs)) by done. done.
Qed.

(** The service buffer once the request has been answered. *)
Lemma upgrade_serv_buf PE E A c uri hs p key extra a buf :
  upgrade_request PE E A c uri hs p key extra -> holds PE a (request_table uri hs) ->
  Upgrade.handshake_serv_buf E (table_of a) (default None (offered A c uri hs !! p)) extra buf =
    response_over key (upgrade_response A c uri hs p key extra) buf.
Proof.
  intros [] Hh. destruct ur_key0 as (Hkey & Hkl & Hkb), ur_env0 as (_ & HA & _), ur_uri0 as [_ Hpl], ur_headers0 as [Hok _].
  assert (Ht : forall h, request_headers uri hs h = table_of a h)
    by (intros h; symmetry; exact (table_of_holds _ _ _ h Hh)).
  rewrite (handshake_serv_buf_spec E _ _ key).
  - unfold upgrade_response. by rewrite (handshake_response_ext _ (request_headers uri hs)).
  - rewrite <- Ht. exact Hkey.
  - exact Hkb.
  - eapply request_table_no_nul; [exact Hpl|exact Hok|]. rewrite Hkey. by left.
  - by destruct HA as (_ & _ & _ & _ & _ & _ & _ & _ & _ & ?).
Qed.

(** The bytes of an upgrade request make a WebSocket connection.  When a
    client's GET request, whatever other headers it has, asks for a WebSocket
    with a Connection list, a protocol list and a key, and nobody refuses, the
    server consumes exactly the request, has sent exactly the 101 response with
    the accept key of the request's key and the chosen protocol, and the
    connection is ready for the frames that follow the request. *)
Theorem http_upgrade_end_to_end PE E A c uri hs rest p key extra :
  upgrade_request PE E A c uri hs p key extra -> len (request_text uri hs ++ rest) < 10000000 ->
  exists c', lws_handshake_server PE E A (request_text uri hs ++ rest) c = Ok (Upgraded_ws, rest, c') /\
    output (ws c') = output (ws c) ++ upgrade_response A c uri hs p key extra /\
    WsRxProof.ready E false (ws c') /\ protocol c' = Some p.
Proof.
  intros Hreq Hlen. pose proof Hreq as [? ? [? ?] [? ?] ? ? ? ? ? ? ? ? ?].
  destruct (parse_request_holds PE (http c) uri hs rest) as (w' & Hp & Hs & _ & _ & Hh); try done.
  destruct (upgrade_parsed PE E A c uri hs p key extra (request_text uri hs ++ rest) (http c) rest w')
    as (c' & Hc & Ho & Hr & Hpr & _ & _); try done.
  exists c'. rewrite <- Hc. by destruct c.
Qed.

Definition sample_server : server_answers :=
  mk_server_answers (fun _ => None) [] false 0 false false false sample_answers.

Definition sample_http : conn :=
  mk_conn (fresh_wsi LWS_DEF_HEADER_LEN) sample_conn
    (mk_vhost 8000 [Some (str "http"); Some (str "superchat")] 0 false) None.

Lemma sample_upgrade_request :
  upgrade_request env_default sample_env sample_server sample_http (str "/chat") sample_request 1
    (str "dGhlIHNhbXBsZSBub25jZQ==") [].
Proof.
  constructor.
  - reflexivity.
  - exact (fresh_empty LWS_DEF_HEADER_LEN eq_refl).
  - split; [done|reflexivity].
  - split; [exact sample_request_ok|vm_compute; discriminate].
  - split; vm_compute; [discriminate|reflexivity].
  - split_and!; reflexivity.
  - exists (str "WebSocket"). split; vm_compute; reflexivity.
  - exists [([], str "keep-alive", []); ([32], str "Upgrade", [])]. split; [|reflexivity].
    exists [[([], str "keep-alive", [])]; [([32], str "Upgrade", [])]].
    split_and!; [vm_compute; reflexivity|reflexivity|by repeat constructor|done|repeat constructor|vm_compute; reflexivity].
  - exists [([], str "chat", []); ([32], str "superchat", [])]. split; [|split; [repeat constructor|vm_compute; reflexivity]].
    exists [[([], str "chat", []); ([32], str "superchat", [])]].
    split_and!; [vm_compute; reflexivity|reflexivity|by repeat constructor|done|repeat constructor|vm_compute; reflexivity].
  - vm_compute. discriminate.
  - split; [vm_compute; reflexivity|]. split; [split; vm_compute; reflexivity|apply str_bytes].
  - split; [exact sample_env_ok|]. split; [|unfold http_done; split_and!; reflexivity].
    unfold granted. split_and!; try reflexivity. exists (replicate 2052 0). split; vm_compute; reflexivity.
  - vm_compute. done.
Qed.

Lemma http_upgrade_end_to_end_witness :
  exists c', lws_handshake_server env_default sample_env sample_server
      (request_text (str "/chat") sample_request ++ str "frames") sample_http = Ok (Upgraded_ws, str "frames", c') /\
    WsRxProof.ready sample_env false (ws c') /\ protocol c' = Some 1%nat.
Proof.
  destruct (http_upgrade_end_to_end env_default sample_env sample_server sample_http (str "/chat") sample_request
    (str "frames") 1 (str "dGhlIHNhbXBsZSBub25jZQ==") []) as (c' & H1 & _ & H3 & H4).
  - exact sample_upgrade_request.
  - vm_compute. reflexivity.
  - exists c'. split; [exact H1|]. split; [exact H3|exact H4].
Defined.

End HttpServerProof.
