(* ===== verification/HttpHeader.v ===== *)
(** * Building HTTP responses (libwebsockets lib/roles/http/header.c)

    The functions that put status lines and headers into a buffer with the
    tests on its end, the status page of [lws_return_http_status] and
    [lws_http_redirect], for HTTP/1.  A response is built in the service buffer
    of the thread, so these functions also say what is in that buffer
    afterwards. *)

From S2P Require Import Prelude CLib HttpLex WsState WsRx WsTx.

Module HttpHeader.
Import Ws.

(** [enum http_version], [enum http_conn_type] *)
Definition HTTP_VERSION_1_0 : Z := 0.
Definition HTTP_VERSION_1_1 : Z := 1.

Inductive http_conn_type := HTTP_CONNECTION_CLOSE | HTTP_CONNECTION_KEEP_ALIVE.

#[global] Instance http_conn_type_eq_dec : EqDecision http_conn_type.
Proof. solve_decision. Defined.

(** The members of [struct _lws_http_mode_related] a transaction uses. *)
Record http_tx := mk_http_tx {
  request_version : Z;
  conn_type : http_conn_type;
  tx_content_length : Z;
  tx_content_remain : Z;
  deferred_transaction_completed : bool;
  content_length_explicitly_zero : bool
}.

Definition set_request_version v x := mk_http_tx v (conn_type x) (tx_content_length x) (tx_content_remain x)
  (deferred_transaction_completed x) (content_length_explicitly_zero x).
Definition set_conn_type v x := mk_http_tx (request_version x) v (tx_content_length x) (tx_content_remain x)
  (deferred_transaction_completed x) (content_length_explicitly_zero x).
Definition set_tx_content v x := mk_http_tx (request_version x) (conn_type x) v v
  (deferred_transaction_completed x) (content_length_explicitly_zero x).
Definition set_deferred_transaction_completed v x := mk_http_tx (request_version x) (conn_type x)
  (tx_content_length x) (tx_content_remain x) v (content_length_explicitly_zero x).
Definition set_content_length_explicitly_zero v x := mk_http_tx (request_version x) (conn_type x)
  (tx_content_length x) (tx_content_remain x) (deferred_transaction_completed x) v.

(** What a response takes from the vhost and the context. *)
Record http_site := mk_http_site {
  v_headers : list (bytes * bytes);       (* vhost->headers *)
  v_security : bool;   (* LWS_SERVER_OPTION_HTTP_HEADERS_SECURITY_BEST_PRACTICES_ENFORCE *)
  v_sts : bool;                           (* LWS_SERVER_OPTION_STS *)
  server_string : option bytes;           (* context->server_string *)
  error_document_404 : option bytes
}.

Definition HTTP_STATUS_FOUND : Z := 302.
Definition HTTP_STATUS_FORBIDDEN : Z := 403.
Definition HTTP_STATUS_NOT_FOUND : Z := 404.

Definition LWSAHH_CODE_MASK : Z := 65535.
Definition LWSAHH_FLAG_NO_SERVER_NAME : Z := Z.shiftl 1 30.

Definition WSI_TOKEN_CONNECTION : Z := 4.
Definition WSI_TOKEN_HTTP_CONTENT_LENGTH : Z := 27.
Definition WSI_TOKEN_HTTP_CONTENT_TYPE : Z := 28.
Definition WSI_TOKEN_HTTP_LOCATION : Z := 59.
Definition WSI_TOKEN_HTTP_SERVER : Z := 65.

Definition crlf : bytes := [13; 10].

(** [lws_snprintf(str, size, ...)] that prints [s]: the bytes of the length it
    returns, which counts the terminating NUL when [s] was cut. *)
Definition lws_snprintf (size : Z) (s : bytes) : bytes :=
  if len s >=? size then take (Z.to_nat (size - 1)) s ++ [0] else s.

(** [lws_token_to_string] *)
Definition lws_token_to_string (token : Z) : option bytes :=
  if token <? 0 then None else HttpLex.lex_strings !! Z.to_nat token.

(** ** Appending to a buffer

    [out] is what lies between the start of the buffer and [*p], [room] the
    distance from the start to [end].  Whether the function failed, and the
    new [out]. *)
Definition adder := bytes -> bool * bytes.

Definition and_then (a b : adder) : adder :=
  fun out => let '(failed, out) := a out in if failed then (true, out) else b out.

Declare Scope header_scope.
Notation "a ;;; b" := (and_then a b) (at level 60, right associativity) : header_scope.
#[local] Open Scope header_scope.

Definition done_adding : adder := fun out => (false, out).

Section Add.
Context (room : Z).

Definition lws_add_http_header_by_name (name : option bytes) (value : bytes) : adder := fun out =>
  let '(full, out) :=
    match name with
    | None => (false, out)
    | Some n =>
      let out := out ++ take (Z.to_nat (room - len out)) n in
      if len out =? room then (true, out) else (false, out ++ [32])
    end in
  if full then (true, out)
  else if len out + len value + 3 >=? room then (true, out)
  else (false, out ++ value ++ crlf).

Definition lws_finalize_http_header : adder := fun out =>
  if room - len out <? 3 then (true, out) else (false, out ++ crlf).

Definition lws_add_http_header_by_token (token : Z) (value : bytes) : adder := fun out =>
  match lws_token_to_string token with
  | None => (true, out)
  | Some name => lws_add_http_header_by_name (Some name) value out
  end.

(** [lws_add_http_header_content_length] *)
Definition lws_add_http_header_content_length (content_length : Z) (out : bytes) (x : http_tx)
  : bool * bytes * http_tx :=
  let b := lws_snprintf 23 (to_string (u64 content_length)) in
  let '(failed, out) := lws_add_http_header_by_token WSI_TOKEN_HTTP_CONTENT_LENGTH b out in
  if failed then (true, out, x) else (false, out, set_tx_content (u64 content_length) x).

Definition err400 : list bytes :=
  [str "Bad Request"; str "Unauthorized"; str "Payment Required"; str "Forbidden"; str "Not Found";
   str "Method Not Allowed"; str "Not Acceptable"; str "Proxy Auth Required"; str "Request Timeout";
   str "Conflict"; str "Gone"; str "Length Required"; str "Precondition Failed"; str "Request Entity Too Large";
   str "Request URI too Long"; str "Unsupported Media Type"; str "Requested Range Not Satisfiable";
   str "Expectation Failed"].

Definition err500 : list bytes :=
  [str "Internal Server Error"; str "Not Implemented"; str "Bad Gateway"; str "Service Unavailable";
   str "Gateway Timeout"; str "HTTP Version Not Supported"].

(** [pvo_hsbph], from its last entry along the links to its first. *)
Definition pvo_hsbph : list (bytes * bytes) :=
  [(str "content-security-policy:",
    str "default-src 'none'; img-src 'self' data: ; script-src 'self'; font-src 'self'; style-src 'self'; connect-src 'self'; frame-ancestors 'none'; base-uri 'none';form-action 'self';");
   (str "x-content-type-options:", str "nosniff");
   (str "x-xss-protection:", str "1; mode=block");
   (str "x-frame-options:", str "deny");
   (str "referrer-policy:", str "no-referrer")].

Definition hver : list bytes := [str "HTTP/1.0"; str "HTTP/1.1"; str "HTTP/2"].

(** The reason phrase of a status code. *)
Definition description (code : Z) : bytes :=
  let d := if (400 <=? code) && (code <? 418) then nth (Z.to_nat (code - 400)) err400 [] else [] in
  let d := if (500 <=? code) && (code <? 506) then nth (Z.to_nat (code - 500)) err500 [] else d in
  let d := if code =? 100 then str "Continue" else d in
  let d := if code =? 200 then str "OK" else d in
  if code =? 304 then str "Not Modified"
  else if (300 <=? code) && (code <? 400) then str "Redirect" else d.

(** The status line, as much of it as [code_and_desc] holds. *)
Definition status_line (version code : Z) : bytes :=
  let p1 := nth (Z.to_nat version) hver (str "HTTP/1.0") in
  lws_snprintf 59 (p1 ++ str " " ++ to_string code ++ str " " ++ description code).

Fixpoint add_each (l : list (bytes * bytes)) : adder :=
  match l with
  | [] => done_adding
  | (name, value) :: l => lws_add_http_header_by_name (Some name) value ;;; add_each l
  end.

Definition lws_add_http_header_status (V : http_site) (_code : Z) (x : http_tx) : adder :=
  let code := Z.land (u32 _code) LWSAHH_CODE_MASK in
  lws_add_http_header_by_name None (status_line (request_version x) code) ;;;
  add_each (v_headers V) ;;;
  (if v_security V then add_each pvo_hsbph else done_adding) ;;;
  (match server_string V with
   | Some s => if nz (Z.land _code LWSAHH_FLAG_NO_SERVER_NAME) then done_adding
               else lws_add_http_header_by_token WSI_TOKEN_HTTP_SERVER s
   | None => done_adding
   end) ;;;
  (if v_sts V
   then lws_add_http_header_by_name (Some (str "Strict-Transport-Security:")) (str "max-age=15768000 ; includeSubDomains")
   else done_adding) ;;;
  (fun out => (len out >=? room - 2, out)).

(** [lws_add_http_common_headers]; [None]: LWS_ILLEGAL_HTTP_CONTENT_LEN. *)
Definition lws_add_http_common_headers (V : http_site) (code : Z) (content_type : bytes) (content_len : option Z)
    (out : bytes) (x : http_tx) : bool * bytes * http_tx :=
  let '(failed, out) := (lws_add_http_header_status V code x ;;;
                         lws_add_http_header_by_token WSI_TOKEN_HTTP_CONTENT_TYPE content_type) out in
  if failed then (true, out, x)
  else
    match content_len with
    | Some n => lws_add_http_header_content_length n out x
    | None =>
      let '(failed, out) := lws_add_http_header_by_token WSI_TOKEN_CONNECTION (str "close") out in
      if failed then (true, out, x) else (false, out, set_conn_type HTTP_CONNECTION_CLOSE x)
    end.

End Add.

(** ** Sending *)

Section Send.
Context (E : env) (V : http_site).

(** [rops_write_role_protocol_h1] *)
Definition rops_write_role_protocol_h1 (k : WsTx.send_answer) (buf : bytes) (w : lws) : res exn (Z * lws) :=
  '(n, w) ← WsTx.lws_issue_raw E k (Some buf) w;
  Ok (if n <? 0 then n else s32 (len buf), w).

(** [lws_write] on an HTTP/1 connection. *)
Definition lws_write_h1 (k : WsTx.send_answer) (buf : bytes) (w : lws) : res exn (Z * lws) :=
  if s32 (len buf) <? 0 then Ok (-1, w) else rops_write_role_protocol_h1 k buf w.

(** [lws_finalize_write_http_header]; [out] starts at [start]. *)
Definition lws_finalize_write_http_header (room : Z) (k : WsTx.send_answer) (out : bytes) (w : lws)
  : res exn (Z * bytes * lws) :=
  let '(failed, out) := lws_finalize_http_header room out in
  if failed then Ok (1, out, w)
  else '(n, w) ← lws_write_h1 k out w; Ok (if n =? len out then 0 else 1, out, w).

(** [lws_http_redirect], with nothing in the buffer yet: the return value and
    what the buffer holds. *)
Definition lws_http_redirect (room : Z) (k : WsTx.send_answer) (code : Z) (loc : bytes) (x : http_tx) (w : lws)
  : res exn (Z * bytes * lws) :=
  let '(failed, out) :=
    (lws_add_http_header_status room V code x ;;;
     lws_add_http_header_by_token room WSI_TOKEN_HTTP_LOCATION loc ;;;
     lws_add_http_header_by_token room WSI_TOKEN_HTTP_CONTENT_TYPE (str "text/html") ;;;
     lws_add_http_header_by_token room WSI_TOKEN_HTTP_CONTENT_LENGTH (str "0") ;;;
     lws_finalize_http_header room) [] in
  if failed then Ok (-1, out, w)
  else '(n, w) ← lws_write_h1 k out w; Ok (n, out, w).

(** The page of a status. *)
Definition status_page (code : Z) (html_body : bytes) : bytes :=
  str "<html><head><meta charset=utf-8 http-equiv=" ++ [34] ++ str "Content-Language" ++ [34] ++ str " content=" ++ [34] ++
  str "en" ++ [34] ++ str "/><link rel=" ++ [34] ++ str "stylesheet" ++ [34] ++ str " type=" ++ [34] ++ str "text/css" ++ [34] ++
  str " href=" ++ [34] ++ str "/error.css" ++ [34] ++ str "/></head><body><h1>" ++ to_string (u32 code) ++ str "</h1>" ++
  html_body ++ str "</body></html>".

(** What lies in the service buffer when [b] was written at [i]. *)
Definition write_at (i : Z) (b : bytes) (serv_buf : bytes) : bytes := list_inserts (Z.to_nat i) b serv_buf.

(** [lws_return_http_status] on a connection bound to a vhost that is not
    already serving the error document: the return value, the service buffer
    afterwards, and the connection.  The page is printed 512 bytes before the
    end counted from behind [LWS_PRE] and then copied behind the headers; a
    page that reaches past the buffer's end, and headers that reach into the
    page, have no meaning in C. *)
Definition lws_return_http_status (k : WsTx.send_answer) (code : Z) (html_body : option bytes) (x : http_tx)
    (serv_buf : bytes) (w : lws) : res exn (Z * bytes * lws) :=
  let room := pt_serv_buf_size E - LWS_PRE in
  '(redirected, serv_buf, w) ←
    match error_document_404 V with
    | Some doc =>
      if code =? HTTP_STATUS_NOT_FOUND then
        '(n, out, w) ← lws_http_redirect room k HTTP_STATUS_FOUND doc x w;
        Ok (n >? 0, write_at LWS_PRE out serv_buf, w)
      else Ok (false, serv_buf, w)
    | None => Ok (false, serv_buf, w)
    end;
  if redirected : bool then Ok (0, serv_buf, w)
  else
    let '(failed, out) :=
      (lws_add_http_header_status room V code x ;;;
       lws_add_http_header_by_token room WSI_TOKEN_HTTP_CONTENT_TYPE (str "text/html")) [] in
    if failed then Ok (1, write_at LWS_PRE out serv_buf, w)
    else
      let body := lws_snprintf 510 (status_page code (default [] html_body)) in
      if len body >? 512 - LWS_PRE - 1 then Err contract_violation
      else
        let '(failed, out) :=
          (lws_add_http_header_by_token room WSI_TOKEN_HTTP_CONTENT_LENGTH (lws_snprintf 12 (to_string (len body))) ;;;
           lws_finalize_http_header room) out in
        let serv_buf := write_at (LWS_PRE + pt_serv_buf_size E - 512) (body ++ [0]) serv_buf in
        if failed then Ok (1, write_at LWS_PRE out serv_buf, w)
        else if len out + len body >? pt_serv_buf_size E - 512 then Err contract_violation
        else
          let page := out ++ body in
          '(m, w) ← lws_write_h1 k page w;
          Ok (if m =? len page then 0 else 1, write_at LWS_PRE page serv_buf, w).

End Send.
End HttpHeader.
