(* ===== verification/AhPool.v ===== *)
(** * The pool of header tables (libwebsockets lib/roles/http/server/parsers.c)

    Every connection that parses a request needs a header table, a thread has
    at most [max_http_header_pool] of them, and connections that find none free
    wait on a list.  The lists are linked through the tables and the
    connections, so the memory is a heap of both; a dereference of anything
    that is not there and a failed [assert] are errors.  [lws_service_fd_tsi] and
    [lws_http_client_connect_via_info2], which the operations may call, are
    arguments. *)

From S2P Require Import Prelude HttpLex HttpParse.

Module AhPool.
Module P := HttpParse.

Abbreviation loc := positive.
(** A pointer; [None] is NULL. *)
Abbreviation ptr := (option positive).

Inductive fault := bad_pointer | assert_failed | signed_overflow | out_of_fuel.

#[global] Instance fault_eq_dec : EqDecision fault.
Proof. solve_decision. Defined.

(** What the pool uses of a connection: [http.ah], [http.ah_wait_list], its
    role and state, its place in the poll set and the first segment of its
    queued input. *)
Record wsi := mk_wsi {
  http_ah : ptr;
  http_ah_wait_list : ptr;
  role_http : bool;
  client_unconnected : bool;       (* lwsi_role_client && LRS_UNCONNECTED *)
  in_fds_table : bool;             (* position_in_fds_table != LWS_NO_FDS_POS *)
  events : Z;
  revents : Z;
  next_segment_len : Z;            (* lws_buflist_next_segment_len(&wsi->buflist, NULL) *)
  hdr_parsing_completed : bool;
  ah_timeout : option Z            (* PENDING_TIMEOUT_HOLDING_AH, in seconds *)
}.

(** [struct allocated_headers]: the members of the pool, and those of the parser. *)
Record ah_node := mk_ah_node {
  ah_next : ptr;
  ah_wsi : ptr;
  in_use : bool;
  assigned : Z;
  table : P.allocated_headers
}.

(** The memory, and [struct lws_pt_role_http]. *)
Record pool := mk_pool {
  wsis : gmap loc wsi;
  ahs : gmap loc ah_node;
  ah_list : ptr;
  ah_wait_list : ptr;
  ah_wait_list_length : Z;
  ah_pool_length : Z;
  ah_count_in_use : Z
}.

Definition set_wsis v p := mk_pool v (ahs p) (ah_list p) (ah_wait_list p) (ah_wait_list_length p) (ah_pool_length p)
  (ah_count_in_use p).
Definition set_ahs v p := mk_pool (wsis p) v (ah_list p) (ah_wait_list p) (ah_wait_list_length p) (ah_pool_length p)
  (ah_count_in_use p).
Definition set_ah_list v p := mk_pool (wsis p) (ahs p) v (ah_wait_list p) (ah_wait_list_length p) (ah_pool_length p)
  (ah_count_in_use p).
Definition set_ah_wait_list v p := mk_pool (wsis p) (ahs p) (ah_list p) v (ah_wait_list_length p) (ah_pool_length p)
  (ah_count_in_use p).
Definition set_ah_wait_list_length v p := mk_pool (wsis p) (ahs p) (ah_list p) (ah_wait_list p) v (ah_pool_length p)
  (ah_count_in_use p).
Definition set_ah_pool_length v p := mk_pool (wsis p) (ahs p) (ah_list p) (ah_wait_list p) (ah_wait_list_length p) v
  (ah_count_in_use p).
Definition set_ah_count_in_use v p := mk_pool (wsis p) (ahs p) (ah_list p) (ah_wait_list p) (ah_wait_list_length p)
  (ah_pool_length p) v.

Definition set_http_ah v n := mk_wsi v (http_ah_wait_list n) (role_http n) (client_unconnected n) (in_fds_table n)
  (events n) (revents n) (next_segment_len n) (hdr_parsing_completed n) (ah_timeout n).
Definition set_http_ah_wait_list v n := mk_wsi (http_ah n) v (role_http n) (client_unconnected n) (in_fds_table n)
  (events n) (revents n) (next_segment_len n) (hdr_parsing_completed n) (ah_timeout n).
Definition set_events v n := mk_wsi (http_ah n) (http_ah_wait_list n) (role_http n) (client_unconnected n)
  (in_fds_table n) v (revents n) (next_segment_len n) (hdr_parsing_completed n) (ah_timeout n).
Definition set_revents v n := mk_wsi (http_ah n) (http_ah_wait_list n) (role_http n) (client_unconnected n)
  (in_fds_table n) (events n) v (next_segment_len n) (hdr_parsing_completed n) (ah_timeout n).
Definition set_hdr_parsing_completed v n := mk_wsi (http_ah n) (http_ah_wait_list n) (role_http n)
  (client_unconnected n) (in_fds_table n) (events n) (revents n) (next_segment_len n) v (ah_timeout n).
Definition set_ah_timeout v n := mk_wsi (http_ah n) (http_ah_wait_list n) (role_http n) (client_unconnected n)
  (in_fds_table n) (events n) (revents n) (next_segment_len n) (hdr_parsing_completed n) v.

Definition set_ah_next v a := mk_ah_node v (ah_wsi a) (in_use a) (assigned a) (table a).
Definition set_ah_wsi v a := mk_ah_node (ah_next a) v (in_use a) (assigned a) (table a).
Definition set_in_use v a := mk_ah_node (ah_next a) (ah_wsi a) v (assigned a) (table a).
Definition set_assigned v a := mk_ah_node (ah_next a) (ah_wsi a) (in_use a) v (table a).
Definition set_table v a := mk_ah_node (ah_next a) (ah_wsi a) (in_use a) (assigned a) v.

(** ** Loads and stores *)

Definition wsi_at (p : pool) (w : loc) : res fault wsi :=
  match wsis p !! w with Some n => Ok n | None => Err bad_pointer end.

Definition ah_at (p : pool) (a : loc) : res fault ah_node :=
  match ahs p !! a with Some n => Ok n | None => Err bad_pointer end.

Definition upd_wsi (w : loc) (f : wsi -> wsi) (p : pool) : res fault pool :=
  n ← wsi_at p w; Ok (set_wsis (<[w := f n]> (wsis p)) p).

Definition upd_ah (a : loc) (f : ah_node -> ah_node) (p : pool) : res fault pool :=
  n ← ah_at p a; Ok (set_ahs (<[a := f n]> (ahs p)) p).

(** [int] counters *)
Definition int_op (z : Z) : res fault Z :=
  if (- 2 ^ 31 <=? z) && (z <? 2 ^ 31) then Ok z else Err signed_overflow.

(** ** Walks along a singly linked list through pointers to pointers

    A pointer to a pointer is the head of the list or the link of a node. *)
Inductive slot := Head | Next (x : loc).

#[global] Instance slot_eq_dec : EqDecision slot.
Proof. solve_decision. Defined.

Section Walk.
Context (next : loc -> res fault ptr).

(** The slot that points to [x]; [v] is what [s] holds. *)
Fixpoint find_slot (fuel : nat) (s : slot) (v : ptr) (x : loc) : res fault (option slot) :=
  match v, fuel with
  | None, _ => Ok None
  | Some _, O => Err out_of_fuel
  | Some y, S fuel =>
    if bool_decide (y = x) then Ok (Some s) else n ← next y; find_slot fuel (Next y) n x
  end.

(** The slot of the last node, and the node. *)
Fixpoint last_slot (fuel : nat) (s : slot) (v : ptr) (best : option (slot * loc)) : res fault (option (slot * loc)) :=
  match v, fuel with
  | None, _ => Ok best
  | Some _, O => Err out_of_fuel
  | Some y, S fuel => n ← next y; last_slot fuel (Next y) n (Some (s, y))
  end.
End Walk.

Definition wait_next (p : pool) (w : loc) : res fault ptr := n ← wsi_at p w; Ok (http_ah_wait_list n).
Definition list_next (p : pool) (a : loc) : res fault ptr := n ← ah_at p a; Ok (ah_next n).

Definition wait_fuel (p : pool) : nat := S (size (wsis p)).
Definition list_fuel (p : pool) : nat := S (size (ahs p)).

Definition store_wait (s : slot) (v : ptr) (p : pool) : res fault pool :=
  match s with
  | Head => Ok (set_ah_wait_list v p)
  | Next w => upd_wsi w (set_http_ah_wait_list v) p
  end.

Definition store_list (s : slot) (v : ptr) (p : pool) : res fault pool :=
  match s with
  | Head => Ok (set_ah_list v p)
  | Next a => upd_ah a (set_ah_next v) p
  end.

(** ** What the pool is configured with and what it calls *)

Record config := mk_config {
  max_http_header_pool : Z;
  timeout_secs_ah_idle : Z;
  now : Z;                                          (* time() *)
  alloc_ah : bool;                                  (* lws_zalloc of the struct succeeds *)
  alloc_data : option bytes;                        (* lws_malloc of the data, with what is in it *)
  service_fd : loc -> pool -> res fault pool;       (* lws_service_fd_tsi *)
  client_connect : loc -> pool -> res fault (bool * pool)   (* lws_http_client_connect_via_info2 *)
}.

Definition LWS_POLLIN : Z := 1.

Section Pool.
Context (C : config).

(** [_lws_create_ah]; the allocator gives memory that is not in use. *)
Definition _lws_create_ah (p : pool) : option (loc * pool) :=
  if alloc_ah C then
    match alloc_data C with
    | None => None
    | Some d =>
      let a := fresh (dom (ahs p)) in
      let p := set_ahs (<[a := mk_ah_node (ah_list p) None false 0 (P._lws_create_ah d)]> (ahs p)) p in
      let p := set_ah_list (Some a) p in
      Some (a, set_ah_pool_length (u32 (ah_pool_length p + 1)) p)
    end
  else None.

Definition _lws_destroy_ah (a : loc) (p : pool) : res fault (Z * pool) :=
  r ← find_slot (list_next p) (list_fuel p) Head (ah_list p) a;
  match r with
  | None => Ok (1, p)
  | Some s =>
    n ← ah_at p a;
    p ← store_list s (ah_next n) p;
    let p := set_ah_pool_length (u32 (ah_pool_length p - 1)) p in
    Ok (0, set_ahs (delete a (ahs p)) p)
  end.

(** [_lws_change_pollfd] on the events of a connection. *)
Definition change_pollfd (w : loc) (_and _or : Z) (p : pool) : res fault pool :=
  upd_wsi w (fun n => if in_fds_table n then set_events (Z.lor (Z.ldiff (events n) _and) _or) n else n) p.

Definition __lws_header_table_reset (w : loc) (autoservice : bool) (p : pool) : res fault pool :=
  n ← wsi_at p w;
  match http_ah n with
  | None => Err assert_failed
  | Some a =>
    t ← ah_at p a;
    if negb (bool_decide (ah_wsi t = Some w)) then Err assert_failed
    else
      p ← upd_ah a (fun t => set_table (P._lws_header_table_reset (table t)) t) p;
      p ← upd_wsi w (set_hdr_parsing_completed false) p;
      p ← upd_wsi w (set_ah_timeout (Some (timeout_secs_ah_idle C))) p;
      p ← upd_ah a (set_assigned (now C)) p;
      if in_fds_table n && nz (next_segment_len n) && autoservice then
        p ← upd_wsi w (fun n => set_revents (Z.lor (revents n) LWS_POLLIN) n) p;
        service_fd C w p
      else Ok p
  end.

Definition _lws_header_ensure_we_are_on_waiting_list (w : loc) (p : pool) : res fault pool :=
  r ← find_slot (wait_next p) (wait_fuel p) Head (ah_wait_list p) w;
  match r with
  | Some _ => Ok p
  | None =>
    p ← upd_wsi w (set_http_ah_wait_list (ah_wait_list p)) p;
    let p := set_ah_wait_list (Some w) p in
    l ← int_op (ah_wait_list_length p + 1);
    change_pollfd w LWS_POLLIN 0 (set_ah_wait_list_length l p)
  end.

(** The connection that [s] points to leaves the waiting list. *)
Definition unlink_waiting (s : slot) (w : loc) (p : pool) : res fault pool :=
  n ← wsi_at p w;
  p ← store_wait s (http_ah_wait_list n) p;
  p ← upd_wsi w (set_http_ah_wait_list None) p;
  l ← int_op (ah_wait_list_length p - 1);
  Ok (set_ah_wait_list_length l p).

Definition __lws_remove_from_ah_waiting_list (w : loc) (p : pool) : res fault (Z * pool) :=
  r ← find_slot (wait_next p) (wait_fuel p) Head (ah_wait_list p) w;
  match r with
  | None => Ok (0, p)
  | Some s => p ← unlink_waiting s w p; Ok (1, p)
  end.

(** [lws_header_table_attach]: 0 the connection has a table, 1 it waits, -1 it
    was closed. *)
Definition lws_header_table_attach (w : loc) (autoservice : bool) (p : pool) : res fault (Z * pool) :=
  n ← wsi_at p w;
  if negb (role_http n) then Err assert_failed
  else
    let reset p :=
      p ← __lws_header_table_reset w autoservice p;
      n ← wsi_at p w;
      if client_unconnected n then '(ok, p) ← client_connect C w p; Ok (if ok : bool then 0 else -1, p)
      else Ok (0, p) in
    match http_ah n with
    | Some _ => reset p
    | None =>
      if ah_count_in_use p =? max_http_header_pool C then
        p ← _lws_header_ensure_we_are_on_waiting_list w p; Ok (1, p)
      else
        '(_, p) ← __lws_remove_from_ah_waiting_list w p;
        match _lws_create_ah p with
        | None => p ← _lws_header_ensure_we_are_on_waiting_list w p; Ok (1, p)
        | Some (a, p) =>
          p ← upd_wsi w (set_http_ah (Some a)) p;
          p ← upd_ah a (set_in_use true) p;
          p ← upd_ah a (set_ah_wsi (Some w)) p;
          c ← int_op (ah_count_in_use p + 1);
          p ← change_pollfd w 0 LWS_POLLIN (set_ah_count_in_use c p);
          reset p
        end
    end.

(** [__lws_header_table_detach] *)
Definition __lws_header_table_detach (w : loc) (autoservice : bool) (p : pool) : res fault (Z * pool) :=
  n ← wsi_at p w;
  '(_, p) ← __lws_remove_from_ah_waiting_list w p;
  match http_ah n with
  | None => Ok (0, p)
  | Some a =>
    p ← upd_ah a (set_assigned 0) p;
    if negb (ah_count_in_use p >? 0) then Err assert_failed
    else
      t ← ah_at p a;
      if negb (in_use t) then Err assert_failed
      else
        p ← upd_wsi w (set_http_ah None) p;
        p ← upd_ah a (set_ah_wsi None) p;
        e ← last_slot (wait_next p) (wait_fuel p) Head (ah_wait_list p) None;
        match e with
        | None =>
          '(_, p) ← _lws_destroy_ah a p;
          c ← int_op (ah_count_in_use p - 1);
          Ok (0, set_ah_count_in_use c p)
        | Some (s, o) =>
          p ← upd_wsi o (set_http_ah (Some a)) p;
          p ← upd_ah a (set_ah_wsi (Some o)) p;
          p ← __lws_header_table_reset o autoservice p;
          p ← change_pollfd o 0 LWS_POLLIN p;
          p ← unlink_waiting s o p;
          n ← wsi_at p o;
          if client_unconnected n then
            '(ok, p) ← client_connect C o p; Ok (if ok : bool then 0 else -1, p)
          else if bool_decide (nz (ah_wait_list_length p) = bool_decide (ah_wait_list p <> None)) then Ok (0, p)
          else Err assert_failed
        end
  end.

End Pool.

End AhPool.
