(* ===== verification/AhPoolProof.v ===== *)
(** * The pool of header tables: its theorems

    The heap of [AhPool] represents a map from connections to tables with a
    first-in first-out line, and the operations refine those of the line.  The
    invariant is stated on the shape of the heap, the links and owners without
    what connections and tables carry besides; each step of an operation is a
    lemma on shapes. *)

From S2P Require Import Prelude HttpLex HttpParse AhPool.

Module AhPoolProof.
Import AhPool.
Module P := HttpParse.

(** ** Chains *)

(** The nodes of [l] linked in order from [v] on by the links [m]. *)
Fixpoint chain (m : gmap loc ptr) (v : ptr) (l : list loc) : Prop :=
  match l with
  | [] => v = None
  | x :: l => v = Some x /\ exists n, m !! x = Some n /\ chain m n l
  end.

(** The slot that holds what follows [l] in a list that starts at [s]. *)
Definition slot_after (s : slot) (l : list loc) : slot := match last l with None => s | Some y => Next y end.

Lemma slot_after_cons s x l : slot_after s (x :: l) = slot_after (Next x) l.
Proof. unfold slot_after. rewrite last_cons. by destruct (last l). Qed.

Lemma chain_frame m m' v l : (forall x, x ∈ l -> m' !! x = m !! x) -> chain m v l -> chain m' v l.
Proof.
  revert v. induction l as [|x l IH]; intros v Hm; [done|]. intros (-> & n & Hn & Hc). split; [done|].
  exists n. split; [rewrite Hm by left; done|]. apply IH; [|done]. intros y Hy. apply Hm. by right.
Qed.

Lemma chain_lookup m v l x : chain m v l -> x ∈ l -> is_Some (m !! x).
Proof.
  revert v. induction l as [|y l IH]; intros v Hc Hx; [by apply elem_of_nil in Hx|].
  destruct Hc as (_ & n & Hn & Hc). apply elem_of_cons in Hx as [->|Hx]; eauto.
Qed.

Lemma chain_size m v l : chain m v l -> NoDup l -> (length l <= size m)%nat.
Proof.
  intros Hc Hnd. rewrite <- (size_dom (D := gset loc)), <- (size_list_to_set (C := gset loc)) by done.
  apply subseteq_size. intros x Hx%elem_of_list_to_set. by apply elem_of_dom, (chain_lookup _ _ _ _ Hc).
Qed.

Section Walks.
Context (m : gmap loc ptr) (next : loc -> res fault ptr).
Context (next_ok : forall x n, m !! x = Some n -> next x = Ok n).

Lemma find_slot_in l1 x l2 fuel s v :
  chain m v (l1 ++ x :: l2) -> x ∉ l1 -> (length l1 < fuel)%nat ->
  find_slot next fuel s v x = Ok (Some (slot_after s l1)).
Proof.
  revert fuel s v. induction l1 as [|y l1 IH]; intros [|fuel] s v Hc Hx Hf; simpl in *; try lia.
  - destruct Hc as (-> & _). by rewrite bool_decide_eq_true_2.
  - destruct Hc as (-> & n & Hn & Hc). apply not_elem_of_cons in Hx as [Hxy Hx].
    rewrite bool_decide_eq_false_2 by done. rewrite (next_ok _ _ Hn). simpl.
    rewrite slot_after_cons. apply IH; [done..|lia].
Qed.

Lemma find_slot_out l x fuel s v :
  chain m v l -> x ∉ l -> (length l <= fuel)%nat -> find_slot next fuel s v x = Ok None.
Proof.
  revert fuel s v. induction l as [|y l IH]; intros fuel s v Hc Hx Hf; simpl in *.
  - subst. by destruct fuel.
  - destruct fuel; [lia|]. destruct Hc as (-> & n & Hn & Hc). apply not_elem_of_cons in Hx as [Hxy Hx]. simpl.
    rewrite bool_decide_eq_false_2 by done. rewrite (next_ok _ _ Hn). apply IH; [done..|lia].
Qed.

Lemma last_slot_snoc l o fuel s v best :
  chain m v (l ++ [o]) -> (length l < fuel)%nat -> last_slot next fuel s v best = Ok (Some (slot_after s l, o)).
Proof.
  revert fuel s v best. induction l as [|y l IH]; intros [|fuel] s v best Hc Hf; simpl in *; try lia.
  - destruct Hc as (-> & n & Hn & ->). rewrite (next_ok _ _ Hn). by destruct fuel.
  - destruct Hc as (-> & n & Hn & Hc). rewrite (next_ok _ _ Hn). simpl. rewrite slot_after_cons. apply IH; [done|lia].
Qed.
End Walks.

(** Storing what follows [x] into the slot that points to it. *)
Lemma chain_unlink m hd l1 x l2 n :
  chain m hd (l1 ++ x :: l2) -> NoDup (l1 ++ x :: l2) -> m !! x = Some n ->
  match slot_after Head l1 with
  | Head => chain m n (l1 ++ l2)
  | Next y => y ∈ l1 /\ chain (<[y := n]> m) hd (l1 ++ l2)
  end.
Proof.
  intros Hc Hnd Hn.
  assert (forall l1 s, chain m hd (l1 ++ x :: l2) -> NoDup (l1 ++ x :: l2) ->
    match slot_after s l1 with
    | Head => s = Head /\ l1 = []
    | Next y => (s = Next y /\ l1 = []) \/ y ∈ l1 /\ chain (<[y := n]> m) hd (l1 ++ l2)
    end) as Hgen.
  2: { specialize (Hgen l1 Head Hc Hnd). destruct (slot_after Head l1) eqn:Hs.
       - destruct Hgen as [_ ->]. destruct Hc as (_ & n' & Hn' & Hc). simpl. congruence.
       - by destruct Hgen as [[? _]|?]. }
  clear - Hn. intros l1. revert hd. induction l1 as [|y l1 IH]; intros hd s Hc Hnd.
  - unfold slot_after. simpl. destruct s; auto.
  - rewrite slot_after_cons. simpl in Hc, Hnd. destruct Hc as (-> & k & Hk & Hc).
    apply NoDup_cons in Hnd as [Hy Hnd]. specialize (IH k (Next y) Hc Hnd).
    destruct (slot_after (Next y) l1) as [|z] eqn:Hs.
    + by destruct IH.
    + right. destruct IH as [[[= <-] ->]|[Hz IH]].
      * split; [by left|]. destruct Hc as (-> & n' & Hn' & Hc). simpl in *. split; [done|]. exists n.
        rewrite lookup_insert_eq. split; [done|]. replace n with n' by congruence.
        eapply chain_frame; [|done]. intros w Hw. rewrite lookup_insert_ne; [done|]. intros ->. apply Hy. by right.
      * split; [by right|]. simpl. split; [done|]. exists k. rewrite lookup_insert_ne; [done|].
        intros ->. apply Hy, elem_of_app. by left.
Qed.

(** ** The queue a pool represents

    The connections there are, which of them hold which table, and the
    connections that wait, the oldest first. *)
Record queue := mk_queue { conns : gset loc; held : gmap loc loc; waiting : list loc }.

Definition dequeue (w : loc) (A : queue) : queue := mk_queue (conns A) (held A) (filter (.≠ w) (waiting A)).

Definition enqueue (w : loc) (A : queue) : queue :=
  if bool_decide (w ∈ waiting A) then A else mk_queue (conns A) (held A) (waiting A ++ [w]).

Definition set_held h A := mk_queue (conns A) h (waiting A).

(** The links and counters of the memory, without what the connections and
    tables carry besides. *)
Record shape := mk_shape {
  s_conns : gset loc;
  s_links : gmap loc ptr;
  s_holds : gmap loc ptr;
  s_server : gmap loc bool;
  s_alinks : gmap loc ptr;
  s_owner : gmap loc (ptr * bool);
  s_list : ptr;
  s_wait : ptr;
  s_wlen : Z;
  s_plen : Z;
  s_count : Z
}.

Definition is_server (n : wsi) : bool := role_http n && negb (client_unconnected n).
Definition owner_of (t : ah_node) : ptr * bool := (ah_wsi t, in_use t).

Definition shape_of (p : pool) : shape :=
  mk_shape (dom (wsis p)) (http_ah_wait_list <$> wsis p) (http_ah <$> wsis p) (is_server <$> wsis p)
    (ah_next <$> ahs p) (owner_of <$> ahs p) (ah_list p) (ah_wait_list p) (ah_wait_list_length p) (ah_pool_length p)
    (ah_count_in_use p).

Section Rep.
Context (max : Z).

Record srep (s : shape) (A : queue) : Prop := {
  r_conns : s_conns s = conns A;
  r_few : Z.of_nat (size (conns A)) < 2 ^ 31;
  r_wait : chain (s_links s) (s_wait s) (reverse (waiting A));
  r_nodup : NoDup (waiting A);
  r_known : forall w, w ∈ waiting A -> w ∈ conns A;
  r_off : forall w v, s_links s !! w = Some v -> w ∉ waiting A -> v = None;
  r_wlen : s_wlen s = Z.of_nat (length (waiting A));
  r_server : forall w b, s_server s !! w = Some b -> b = true;
  r_held : forall w a, held A !! w = Some a <-> s_holds s !! w = Some (Some a);
  r_owner : forall w a, held A !! w = Some a -> s_owner s !! a = Some (Some w, true);
  r_owned : forall a x, s_owner s !! a = Some x -> exists w, held A !! w = Some a;
  r_waiter : forall w, w ∈ waiting A -> held A !! w = None;
  r_tables : exists l, chain (s_alinks s) (s_list s) l /\ NoDup l /\ (forall a, is_Some (s_alinks s !! a) <-> a ∈ l) /\
               s_plen s = u32 (Z.of_nat (length l));
  r_count : s_count s = Z.of_nat (size (held A));
  r_max : s_count s <= max
}.

(** The memory [p] represents the queue [A]. *)
Definition rep (p : pool) (A : queue) : Prop := srep (shape_of p) A.

Lemma rep_shape p p' A : shape_of p' = shape_of p -> rep p A -> rep p' A.
Proof. unfold rep. by intros ->. Qed.

End Rep.

(** ** What a store does to the shape *)

Definition set_s_links v s := mk_shape (s_conns s) v (s_holds s) (s_server s) (s_alinks s) (s_owner s) (s_list s)
  (s_wait s) (s_wlen s) (s_plen s) (s_count s).
Definition set_s_holds v s := mk_shape (s_conns s) (s_links s) v (s_server s) (s_alinks s) (s_owner s) (s_list s)
  (s_wait s) (s_wlen s) (s_plen s) (s_count s).
Definition set_s_alinks v s := mk_shape (s_conns s) (s_links s) (s_holds s) (s_server s) v (s_owner s) (s_list s)
  (s_wait s) (s_wlen s) (s_plen s) (s_count s).
Definition set_s_owner v s := mk_shape (s_conns s) (s_links s) (s_holds s) (s_server s) (s_alinks s) v (s_list s)
  (s_wait s) (s_wlen s) (s_plen s) (s_count s).
Definition set_s_wait v s := mk_shape (s_conns s) (s_links s) (s_holds s) (s_server s) (s_alinks s) (s_owner s)
  (s_list s) v (s_wlen s) (s_plen s) (s_count s).
Definition set_s_wlen v s := mk_shape (s_conns s) (s_links s) (s_holds s) (s_server s) (s_alinks s) (s_owner s)
  (s_list s) (s_wait s) v (s_plen s) (s_count s).

Lemma fmap_insert_same {A B} (f : A -> B) (m : gmap loc A) x n n' :
  m !! x = Some n -> f n' = f n -> f <$> <[x := n']> m = f <$> m.
Proof. intros Hn Hf. rewrite fmap_insert. apply insert_id. rewrite lookup_fmap, Hn. simpl. by rewrite Hf. Qed.

Lemma shape_wsi p w n n' :
  wsis p !! w = Some n -> is_server n' = is_server n ->
  shape_of (set_wsis (<[w := n']> (wsis p)) p) =
  set_s_links (<[w := http_ah_wait_list n']> (s_links (shape_of p)))
    (set_s_holds (<[w := http_ah n']> (s_holds (shape_of p))) (shape_of p)).
Proof.
  intros Hn Hs. unfold shape_of, set_wsis, set_s_links, set_s_holds. simpl.
  rewrite (fmap_insert_same is_server _ _ _ _ Hn Hs), !fmap_insert.
  rewrite dom_insert_lookup_L by eauto. reflexivity.
Qed.

Lemma shape_ah p a t t' :
  ahs p !! a = Some t ->
  shape_of (set_ahs (<[a := t']> (ahs p)) p) =
  set_s_alinks (<[a := ah_next t']> (s_alinks (shape_of p)))
    (set_s_owner (<[a := owner_of t']> (s_owner (shape_of p))) (shape_of p)).
Proof. intros _. unfold shape_of, set_ahs, set_s_alinks, set_s_owner. simpl. by rewrite !fmap_insert. Qed.

(** Stores to what the shape does not have. *)
Lemma shape_wsi_same p w n n' :
  wsis p !! w = Some n -> is_server n' = is_server n -> http_ah n' = http_ah n ->
  http_ah_wait_list n' = http_ah_wait_list n ->
  shape_of (set_wsis (<[w := n']> (wsis p)) p) = shape_of p.
Proof.
  intros Hn Hs Hh Hl. rewrite (shape_wsi _ _ _ _ Hn Hs). unfold set_s_links, set_s_holds, shape_of. simpl. f_equal.
  - apply insert_id. rewrite lookup_fmap, Hn. simpl. congruence.
  - apply insert_id. rewrite lookup_fmap, Hn. simpl. congruence.
Qed.

Lemma shape_ah_same p a t t' :
  ahs p !! a = Some t -> ah_next t' = ah_next t -> owner_of t' = owner_of t ->
  shape_of (set_ahs (<[a := t']> (ahs p)) p) = shape_of p.
Proof.
  intros Ht Hn Ho. rewrite (shape_ah _ _ _ _ Ht). unfold set_s_alinks, set_s_owner, shape_of. simpl. f_equal.
  - apply insert_id. rewrite lookup_fmap, Ht. simpl. congruence.
  - apply insert_id. rewrite lookup_fmap, Ht. simpl. congruence.
Qed.

Lemma wsi_at_ok p w n : wsis p !! w = Some n -> wsi_at p w = Ok n.
Proof. intros Hn. unfold wsi_at. by rewrite Hn. Qed.

Lemma ah_at_ok p a t : ahs p !! a = Some t -> ah_at p a = Ok t.
Proof. intros Ht. unfold ah_at. by rewrite Ht. Qed.

Lemma upd_wsi_ok w f p n : wsis p !! w = Some n -> upd_wsi w f p = Ok (set_wsis (<[w := f n]> (wsis p)) p).
Proof. intros Hn. unfold upd_wsi, wsi_at. by rewrite Hn. Qed.

Lemma upd_ah_ok a f p t : ahs p !! a = Some t -> upd_ah a f p = Ok (set_ahs (<[a := f t]> (ahs p)) p).
Proof. intros Ht. unfold upd_ah, ah_at. by rewrite Ht. Qed.

Lemma wait_next_ok p x v : s_links (shape_of p) !! x = Some v -> wait_next p x = Ok v.
Proof.
  simpl. rewrite lookup_fmap. unfold wait_next, wsi_at. destruct (wsis p !! x); [|done]. by intros [= <-].
Qed.

Lemma list_next_ok p x v : s_alinks (shape_of p) !! x = Some v -> list_next p x = Ok v.
Proof.
  simpl. rewrite lookup_fmap. unfold list_next, ah_at. destruct (ahs p !! x); [|done]. by intros [= <-].
Qed.

Lemma int_op_ok z : - 2 ^ 31 <= z < 2 ^ 31 -> int_op z = Ok z.
Proof. intros. unfold int_op. destruct (Z.leb_spec (- 2 ^ 31) z), (Z.ltb_spec z (2 ^ 31)); simpl; try done; lia. Qed.

(** ** The steps of the operations *)

Section Steps.
Context (max : Z).

Lemma rep_wsi p A w : rep max p A -> w ∈ conns A -> exists n, wsis p !! w = Some n /\ is_server n = true.
Proof.
  intros R Hw. rewrite <- (r_conns _ _ _ R) in Hw. simpl in Hw. apply elem_of_dom in Hw as [n Hn]. exists n. split; [done|].
  apply (r_server _ _ _ R w). simpl. by rewrite lookup_fmap, Hn.
Qed.

Lemma rep_wait_fuel p A l : rep max p A -> waiting A ≡ₚ l -> (length l < wait_fuel p)%nat.
Proof.
  intros R Hl. unfold wait_fuel. rewrite <- (map_size_fmap http_ah_wait_list).
  pose proof (chain_size _ _ _ (r_wait _ _ _ R)) as Hs. rewrite length_reverse in Hs.
  rewrite <- Hl. apply Nat.lt_succ_r, Hs. rewrite reverse_Permutation. apply (r_nodup _ _ _ R).
Qed.

Lemma dequeue_out w A : w ∉ waiting A -> dequeue w A = A.
Proof.
  intros Hw. unfold dequeue. rewrite filter_all; [by destruct A|]. apply Forall_forall. by intros x Hx ->.
Qed.

Lemma filter_split (w : loc) l1 l2 : NoDup (l1 ++ w :: l2) -> filter (.≠ w) (l1 ++ w :: l2) = l1 ++ l2.
Proof.
  intros (H1 & H12 & [H2 _]%NoDup_cons)%NoDup_app.
  rewrite filter_app, filter_cons_False by (intros Hn; by apply Hn).
  rewrite !filter_all; [done|apply Forall_forall..]; [by intros x Hx ->|intros x Hx ->].
  apply (H12 w Hx). by left.
Qed.

(** The head of the list or a link, stored. *)
Lemma store_wait_ok p l v : (forall y, slot_after Head l = Next y -> is_Some (wsis p !! y)) ->
  exists p', store_wait (slot_after Head l) v p = Ok p' /\
    wsis p' = match slot_after Head l with
              | Head => wsis p
              | Next y => alter (set_http_ah_wait_list v) y (wsis p)
              end /\ ahs p' = ahs p /\
    shape_of p' = match slot_after Head l with
                  | Head => set_s_wait v (shape_of p)
                  | Next y => set_s_links (<[y := v]> (s_links (shape_of p))) (shape_of p)
                  end.
Proof.
  intros Hy. destruct (slot_after Head l) as [|y] eqn:Hs; simpl; [by eexists; split_and!|].
  destruct (Hy y eq_refl) as [n Hn]. rewrite (upd_wsi_ok _ _ _ _ Hn). eexists. split_and!; [done|..].
  - simpl. apply map_eq. intros z. destruct (decide (z = y)) as [->|Hz].
    + by rewrite lookup_insert_eq, lookup_alter_eq, Hn.
    + by rewrite lookup_insert_ne, lookup_alter_ne by done.
  - done.
  - rewrite (shape_wsi _ _ _ _ Hn) by done. unfold set_s_links, set_s_holds, shape_of. simpl. f_equal.
    apply insert_id. by rewrite lookup_fmap, Hn.
Qed.

Lemma rep_few p A l : rep max p A -> NoDup l -> (forall x, x ∈ l -> x ∈ conns A) -> Z.of_nat (length l) < 2 ^ 31.
Proof.
  intros R Hnd Hl. pose proof (r_few _ _ _ R) as Hf.
  assert (length l <= size (conns A))%nat as Hlen; [|lia].
  rewrite <- (size_list_to_set (C := gset loc)) by done. apply subseteq_size.
  intros x Hx%elem_of_list_to_set. auto.
Qed.

Lemma rep_wlen p A : rep max p A -> Z.of_nat (length (waiting A)) < 2 ^ 31.
Proof. intros R. apply (rep_few p A _ R (r_nodup _ _ _ R)), (r_known _ _ _ R). Qed.

(** Another waiting list. *)
Lemma srep_waiting s A lk wt ws wl :
  srep max s A -> chain lk wt (reverse ws) -> NoDup ws -> (forall w, w ∈ ws -> w ∈ conns A /\ held A !! w = None) ->
  (forall w v, lk !! w = Some v -> w ∉ ws -> v = None) -> wl = Z.of_nat (length ws) ->
  srep max (set_s_wlen wl (set_s_wait wt (set_s_links lk s))) (mk_queue (conns A) (held A) ws).
Proof.
  intros [] Hc Hnd Hws Hoff ->. split; simpl; try done; by intros w Hw; apply Hws.
Qed.

Lemma unlink_ok p l1 w l2 n :
  chain (s_links (shape_of p)) (ah_wait_list p) (l1 ++ w :: l2) -> NoDup (l1 ++ w :: l2) -> wsis p !! w = Some n ->
  ah_wait_list_length p = Z.of_nat (length (l1 ++ w :: l2)) /\ Z.of_nat (length (l1 ++ w :: l2)) < 2 ^ 31 ->
  exists p' lk wt, unlink_waiting (slot_after Head l1) w p = Ok p' /\
    shape_of p' = set_s_wlen (Z.of_nat (length (l1 ++ l2))) (set_s_wait wt (set_s_links lk (shape_of p))) /\
    chain lk wt (l1 ++ l2) /\ lk !! w = Some None /\
    (forall x v, lk !! x = Some v -> x ∉ l1 ++ w :: l2 -> s_links (shape_of p) !! x = Some v) /\
    wsis p' = <[w := set_http_ah_wait_list None n]> (match slot_after Head l1 with
              | Head => wsis p
              | Next y => alter (set_http_ah_wait_list (http_ah_wait_list n)) y (wsis p)
              end) /\ ahs p' = ahs p.
Proof.
  intros Hc Hnd Hn Hlen.
  assert (w ∉ l1) as Hwl1 by (intros Hx; apply NoDup_app in Hnd as (_ & Hd & _); apply (Hd w Hx); by left).
  assert (s_links (shape_of p) !! w = Some (http_ah_wait_list n)) as Hln by (simpl; by rewrite lookup_fmap, Hn).
  pose proof (chain_unlink _ _ _ _ _ _ Hc Hnd Hln) as Hu.
  destruct (store_wait_ok p l1 (http_ah_wait_list n)) as (p1 & Hp1 & Hw1 & Ha1 & Hs1).
  { intros y Hy. rewrite Hy in Hu. destruct Hu as [Hy1 _].
    assert (is_Some (s_links (shape_of p) !! y)) as Hsy.
    { apply (chain_lookup _ _ _ _ Hc), elem_of_app. by left. }
    simpl in Hsy. by rewrite lookup_fmap, fmap_is_Some in Hsy. }
  assert (wsis p1 !! w = Some n) as Hn1.
  { rewrite Hw1. destruct (slot_after Head l1) as [|y]; [done|].
    rewrite lookup_alter_ne; [done|]. intros ->. by destruct Hu. }
  assert (ah_wait_list_length p1 = ah_wait_list_length p) as Hwl.
  { change (s_wlen (shape_of p1) = s_wlen (shape_of p)). rewrite Hs1. by destruct (slot_after Head l1). }
  set (lk := s_links (shape_of p1)) in *. set (wt := ah_wait_list p1).
  eexists _, (<[w := None]> lk), wt. split.
  { unfold unlink_waiting, wsi_at. rewrite Hn. simpl. rewrite Hp1. simpl. rewrite (upd_wsi_ok _ _ _ _ Hn1). simpl.
    rewrite int_op_ok by (rewrite Hwl; lia). reflexivity. }
  split.
  { transitivity (set_s_wlen (ah_wait_list_length p1 - 1)
      (shape_of (set_wsis (<[w := set_http_ah_wait_list None n]> (wsis p1)) p1))); [reflexivity|].
    rewrite (shape_wsi _ _ _ _ Hn1) by done. rewrite Hwl. destruct Hlen as [-> _].
    replace (Z.of_nat (length (l1 ++ w :: l2)) - 1) with (Z.of_nat (length (l1 ++ l2)))
      by (rewrite !length_app; simpl; lia).
    assert (<[w := http_ah n]> (s_holds (shape_of p1)) = s_holds (shape_of p1)) as Hh.
    { apply insert_id. simpl. by rewrite lookup_fmap, Hn1. }
    simpl http_ah. rewrite Hh. subst lk wt. change (ah_wait_list p1) with (s_wait (shape_of p1)). rewrite Hs1.
    by destruct (slot_after Head l1). }
  assert (chain lk wt (l1 ++ l2) /\ forall x v, lk !! x = Some v -> x ∉ l1 ++ w :: l2 -> s_links (shape_of p) !! x = Some v)
    as [Hc1 Hoff].
  { subst lk wt. change (ah_wait_list p1) with (s_wait (shape_of p1)). rewrite Hs1.
    destruct (slot_after Head l1) as [|y]; [done|]. destruct Hu as [Hy Hu]. split; [done|].
    intros x v Hv Hx. cbn [s_links set_s_links] in Hv. rewrite lookup_insert_ne in Hv; [done|].
    intros ->. apply Hx, elem_of_app. by left. }
  split_and!.
  - eapply chain_frame; [|done]. intros x Hx. rewrite lookup_insert_ne; [done|]. intros ->.
    apply NoDup_app in Hnd as (_ & _ & [Hd _]%NoDup_cons). by apply elem_of_app in Hx as [?|?].
  - by rewrite lookup_insert_eq.
  - intros x v Hv Hx. rewrite lookup_insert_ne in Hv; [eauto|]. intros ->. apply Hx, elem_of_app. right. by left.
  - simpl. by rewrite Hw1.
  - done.
Qed.

Lemma remove_ok p A w : rep max p A -> w ∈ conns A ->
  exists r p', __lws_remove_from_ah_waiting_list w p = Ok (r, p') /\ rep max p' (dequeue w A) /\ ahs p' = ahs p.
Proof.
  intros R Hw. unfold __lws_remove_from_ah_waiting_list.
  destruct (decide (w ∈ waiting A)) as [Hin|Hout].
  2: { rewrite (find_slot_out _ _ (wait_next_ok p) _ _ _ _ _ (r_wait _ _ _ R)).
       - simpl. rewrite dequeue_out by done. eexists _, _. by split_and!.
       - by rewrite elem_of_reverse.
       - apply Nat.lt_le_incl, (rep_wait_fuel _ _ _ R). by rewrite reverse_Permutation. }
  apply elem_of_reverse, list_elem_of_split in Hin as (l1 & l2 & Hl).
  pose proof (r_wait _ _ _ R) as Hc. pose proof (r_nodup _ _ _ R) as Hnd.
  rewrite <- reverse_Permutation in Hnd. rewrite Hl in Hc, Hnd.
  assert (waiting A = reverse l2 ++ w :: reverse l1) as Hwl.
  { rewrite <- (reverse_involutive (waiting A)), Hl, reverse_app, reverse_cons, <- app_assoc. done. }
  assert (length (waiting A) = length (l1 ++ w :: l2)) as Hlen by (rewrite <- Hl; by rewrite length_reverse).
  assert (w ∉ l1) as Hwl1 by (intros Hx; apply NoDup_app in Hnd as (_ & Hd & _); apply (Hd w Hx); by left).
  destruct (rep_wsi p A w R Hw) as (n & Hn & _).
  rewrite (find_slot_in _ _ (wait_next_ok p) l1 w l2 _ _ _ Hc Hwl1).
  2: { apply (Nat.lt_trans _ (length (reverse (waiting A)))).
       - rewrite Hl, length_app. simpl. lia.
       - apply (rep_wait_fuel _ _ _ R). by rewrite reverse_Permutation. }
  cbn [mbind res_bind].
  destruct (unlink_ok p l1 w l2 n Hc Hnd Hn) as (p' & lk & wt & -> & Hs & Hc' & Hlw & Hoff & _ & Ha).
  { rewrite <- Hlen, <- (r_wlen _ _ _ R). split; [done|]. pose proof (rep_wlen p A R). by rewrite (r_wlen _ _ _ R). }
  cbn [mbind res_bind]. eexists _, _. split; [done|]. split; [|done].
  unfold rep, dequeue. rewrite Hs, Hwl, filter_split by (rewrite <- Hwl; apply (r_nodup _ _ _ R)).
  assert (forall x, x ∈ reverse l2 ++ reverse l1 <-> x ∈ l1 ++ l2) as Hel.
  { intros x. rewrite !elem_of_app, !elem_of_reverse. tauto. }
  assert (forall x, x ∈ waiting A <-> x ∈ l1 ++ l2 \/ x = w) as Hel'.
  { intros x. rewrite Hwl, !elem_of_app, elem_of_cons, !elem_of_reverse. tauto. }
  apply srep_waiting; [done|..].
  - by rewrite reverse_app, !reverse_involutive.
  - rewrite <- reverse_app, reverse_Permutation. rewrite NoDup_app, NoDup_cons in Hnd. apply NoDup_app.
    destruct Hnd as (? & Hd & ? & ?). split_and!; [done| |done]. intros x Hx Hx2. apply (Hd x Hx). by right.
  - intros x Hx%Hel. split; [apply (r_known _ _ _ R)|apply (r_waiter _ _ _ R)]; apply Hel'; by left.
  - intros x v Hv Hx. destruct (decide (x = w)) as [->|Hxw]; [congruence|].
    apply (r_off _ _ _ R x v); [|rewrite Hel'; by rewrite Hel in Hx; tauto].
    apply Hoff; [done|]. rewrite Hel in Hx. rewrite elem_of_app, elem_of_cons. rewrite elem_of_app in Hx. tauto.
  - rewrite !length_app, !length_reverse. lia.
Qed.
Lemma change_pollfd_ok p w a o n : wsis p !! w = Some n ->
  exists n', change_pollfd w a o p = Ok (set_wsis (<[w := n']> (wsis p)) p) /\
    n' = (if in_fds_table n then set_events (Z.lor (Z.ldiff (events n) a) o) n else n) /\
    shape_of (set_wsis (<[w := n']> (wsis p)) p) = shape_of p.
Proof.
  intros Hn. eexists. split; [by apply upd_wsi_ok|]. split; [done|].
  apply (shape_wsi_same _ _ _ _ Hn); by destruct (in_fds_table n).
Qed.

Lemma ensure_ok p A w : rep max p A -> w ∈ conns A -> held A !! w = None ->
  exists p', _lws_header_ensure_we_are_on_waiting_list w p = Ok p' /\ rep max p' (enqueue w A).
Proof.
  intros R Hw Hh. unfold _lws_header_ensure_we_are_on_waiting_list, enqueue.
  pose proof (r_wait _ _ _ R) as Hc. case_bool_decide as Hin.
  - apply elem_of_reverse, list_elem_of_split in Hin as (l1 & l2 & Hl).
    pose proof (r_nodup _ _ _ R) as Hnd. rewrite <- reverse_Permutation, Hl in Hnd. rewrite Hl in Hc.
    rewrite (find_slot_in _ _ (wait_next_ok p) l1 w l2 _ _ _ Hc).
    + eexists. by split.
    + intros Hx. apply NoDup_app in Hnd as (_ & Hd & _). apply (Hd w Hx). by left.
    + apply (Nat.lt_trans _ (length (reverse (waiting A)))).
      * rewrite Hl, length_app. simpl. lia.
      * apply (rep_wait_fuel _ _ _ R). by rewrite reverse_Permutation.
  - rewrite (find_slot_out _ _ (wait_next_ok p) _ _ _ _ _ Hc).
    2: by rewrite elem_of_reverse.
    2: { apply Nat.lt_le_incl, (rep_wait_fuel _ _ _ R). by rewrite reverse_Permutation. }
    cbn [mbind res_bind]. destruct (rep_wsi p A w R Hw) as (n & Hn & _).
    rewrite (upd_wsi_ok _ _ _ _ Hn). cbn [mbind res_bind].
    assert (NoDup (waiting A ++ [w])) as Hnd.
    { apply NoDup_app. split_and!; [apply (r_nodup _ _ _ R)| |apply NoDup_singleton].
      intros x Hx Hx2%list_elem_of_singleton. congruence. }
    assert (forall x, x ∈ waiting A ++ [w] -> x ∈ conns A /\ held A !! x = None) as Hall.
    { intros x [Hx| ->%list_elem_of_singleton]%elem_of_app; [|done].
      split; [by apply (r_known _ _ _ R)|by apply (r_waiter _ _ _ R)]. }
    pose proof (rep_few p A _ R Hnd (fun x Hx => proj1 (Hall x Hx))) as Hlen. rewrite length_app in Hlen. cbn in Hlen.
    pose proof (r_wlen _ _ _ R) as Hwl. cbn in Hwl.
    rewrite int_op_ok by (cbn; lia). cbn [mbind res_bind].
    set (p1 := set_ah_wait_list_length _ _).
    assert (wsis p1 !! w = Some (set_http_ah_wait_list (ah_wait_list p) n)) as Hn1 by (cbn; by rewrite lookup_insert_eq).
    assert (rep max p1 (mk_queue (conns A) (held A) (waiting A ++ [w]))) as R1.
    { assert (shape_of p1 = set_s_wlen (ah_wait_list_length p + 1) (set_s_wait (Some w)
               (set_s_links (<[w := ah_wait_list p]> (s_links (shape_of p))) (shape_of p)))) as Hs.
      { transitivity (set_s_wlen (ah_wait_list_length p + 1) (set_s_wait (Some w)
          (shape_of (set_wsis (<[w := set_http_ah_wait_list (ah_wait_list p) n]> (wsis p)) p)))); [reflexivity|].
        rewrite (shape_wsi _ _ _ _ Hn) by done.
        assert (<[w := http_ah n]> (s_holds (shape_of p)) = s_holds (shape_of p)) as Hhs.
        { apply insert_id. cbn. by rewrite lookup_fmap, Hn. }
        cbn [http_ah set_http_ah_wait_list http_ah_wait_list]. rewrite Hhs. reflexivity. }
      unfold rep. rewrite Hs. apply srep_waiting; [done|..].
      - rewrite reverse_snoc. split; [done|]. exists (ah_wait_list p). rewrite lookup_insert_eq. split; [done|].
        eapply chain_frame; [|done]. intros x Hx. rewrite lookup_insert_ne; [done|]. intros ->. by apply Hin, elem_of_reverse.
      - done.
      - done.
      - intros x v Hv Hx. rewrite elem_of_app, list_elem_of_singleton in Hx.
        rewrite lookup_insert_ne in Hv by (intros ->; tauto). apply (r_off _ _ _ R x v Hv). tauto.
      - rewrite Hwl, length_app. simpl. lia. }
    destruct (change_pollfd_ok p1 w LWS_POLLIN 0 _ Hn1) as (n' & -> & _ & Hs). eexists. split; [done|].
    by apply (rep_shape _ _ _ _ Hs).
Qed.

(** *** Who holds which table *)

Definition set_s_tables al ow ls pl s := mk_shape (s_conns s) (s_links s) (s_holds s) (s_server s) al ow ls
  (s_wait s) (s_wlen s) pl (s_count s).
Definition set_s_count v s := mk_shape (s_conns s) (s_links s) (s_holds s) (s_server s) (s_alinks s) (s_owner s)
  (s_list s) (s_wait s) (s_wlen s) (s_plen s) v.

Lemma srep_grab s A w a :
  srep max s A -> w ∈ conns A -> held A !! w = None -> w ∉ waiting A -> s_alinks s !! a = None -> s_owner s !! a = None ->
  s_count s < max ->
  srep max (set_s_count (s_count s + 1) (set_s_holds (<[w := Some a]> (s_holds s))
             (set_s_tables (<[a := s_list s]> (s_alinks s)) (<[a := (Some w, true)]> (s_owner s)) (Some a)
                (u32 (s_plen s + 1)) s)))
    (set_held (<[w := a]> (held A)) A).
Proof.
  intros [] Hw Hh Hnw Hal How Hlt. split; cbn; try done.
  - intros w' b. destruct (decide (w' = w)) as [->|Hne].
    + rewrite !lookup_insert_eq. naive_solver.
    + by rewrite !lookup_insert_ne by done.
  - intros w' b. destruct (decide (w' = w)) as [->|Hne].
    + rewrite lookup_insert_eq. intros [= <-]. by rewrite lookup_insert_eq.
    + rewrite lookup_insert_ne by done. intros Hb%r_owner0. rewrite lookup_insert_ne; [done|]. intros ->. congruence.
  - intros b x. destruct (decide (b = a)) as [->|Hne].
    + exists w. by rewrite lookup_insert_eq.
    + rewrite lookup_insert_ne by done. intros [w' Hw']%r_owned0. exists w'. rewrite lookup_insert_ne; [done|].
      intros ->. congruence.
  - intros w' Hw'. rewrite lookup_insert_ne; [auto|]. intros ->. done.
  - destruct r_tables0 as (l & Hc & Hnd & Hl & Hp).
    assert (a ∉ l) as Hal' by (rewrite <- Hl, Hal; by intros [? ?]).
    exists (a :: l). split_and!.
    + split; [done|]. exists (s_list s). rewrite lookup_insert_eq. split; [done|].
      eapply chain_frame; [|done]. intros x Hx. rewrite lookup_insert_ne; [done|]. by intros ->.
    + by apply NoDup_cons.
    + intros b. rewrite elem_of_cons, <- Hl. destruct (decide (b = a)) as [->|Hne].
      * rewrite lookup_insert_eq. naive_solver.
      * rewrite lookup_insert_ne by done. naive_solver.
    + rewrite Hp. cbn [length]. unfold u32. rewrite Zplus_mod_idemp_l. f_equal. lia.
  - rewrite map_size_insert_None by done. lia.
  - lia.
Qed.

Lemma srep_give s A w o a :
  srep max s A -> held A !! w = Some a -> o ∈ conns A -> held A !! o = None -> o ∉ waiting A ->
  srep max (set_s_holds (<[o := Some a]> (<[w := None]> (s_holds s)))
             (set_s_owner (<[a := (Some o, true)]> (s_owner s)) s))
    (set_held (<[o := a]> (delete w (held A))) A).
Proof.
  intros [] Hw Ho Hho How. assert (o <> w) as Hne by congruence.
  assert (forall x b, held A !! x = Some b -> b = a -> x = w) as Hinj.
  { intros x b Hx ->. apply r_owner0 in Hx, Hw. congruence. }
  split; cbn; try done.
  - intros x b. destruct (decide (x = o)) as [->|Hxo].
    + rewrite !lookup_insert_eq. naive_solver.
    + rewrite !(lookup_insert_ne _ o) by done. destruct (decide (x = w)) as [->|Hxw].
      * rewrite lookup_delete_eq, lookup_insert_eq. naive_solver.
      * by rewrite lookup_delete_ne, lookup_insert_ne by done.
  - intros x b. destruct (decide (x = o)) as [->|Hxo].
    + rewrite !lookup_insert_eq. intros [= <-]. by rewrite lookup_insert_eq.
    + rewrite lookup_insert_ne by done. intros [Hxw Hx]%lookup_delete_Some.
      rewrite lookup_insert_ne; [by apply r_owner0|]. intros ->. by apply Hxw, eq_sym, (Hinj _ _ Hx).
  - intros b x. destruct (decide (b = a)) as [->|Hba].
    + exists o. by rewrite lookup_insert_eq.
    + rewrite lookup_insert_ne by done. intros [y Hy]%r_owned0. exists y.
      rewrite lookup_insert_ne by congruence. rewrite lookup_delete_ne; [done|]. congruence.
  - intros x Hx. rewrite lookup_insert_ne by congruence. rewrite lookup_delete_None. auto.
  - rewrite map_size_insert_None by (rewrite lookup_delete_ne by congruence; done).
    rewrite map_size_delete_Some by eauto.
    assert (size (held A) <> 0%nat) by (eapply map_size_ne_0_lookup_2; eauto). lia.
Qed.

Lemma srep_free s A w a al ls l1 l2 :
  srep max s A -> held A !! w = Some a -> chain (s_alinks s) (s_list s) (l1 ++ a :: l2) -> NoDup (l1 ++ a :: l2) ->
  chain al ls (l1 ++ l2) -> (forall b, is_Some (al !! b) <-> is_Some (s_alinks s !! b)) ->
  srep max (set_s_count (s_count s - 1) (set_s_holds (<[w := None]> (s_holds s))
             (set_s_tables (delete a al) (delete a (s_owner s)) ls (u32 (s_plen s - 1)) s)))
    (set_held (delete w (held A)) A).
Proof.
  intros [] Hw Hc Hnd Hc' Hal.
  assert (forall x b, held A !! x = Some b -> b = a -> x = w) as Hinj.
  { intros x b Hx ->. apply r_owner0 in Hx, Hw. congruence. }
  split; cbn; try done.
  - intros x b. destruct (decide (x = w)) as [->|Hxw].
    + rewrite lookup_delete_eq, lookup_insert_eq. naive_solver.
    + by rewrite lookup_delete_ne, lookup_insert_ne by done.
  - intros x b [Hxw Hx]%lookup_delete_Some. rewrite lookup_delete_ne; [by apply r_owner0|].
    intros ->. by apply Hxw, eq_sym, (Hinj _ _ Hx).
  - intros b x [Hba [y Hy]%r_owned0]%lookup_delete_Some. exists y. rewrite lookup_delete_ne; [done|]. congruence.
  - intros x Hx. rewrite lookup_delete_None. auto.
  - destruct r_tables0 as (l & Hcl & Hndl & Hl & Hp).
    assert (l = l1 ++ a :: l2) as ->.
    { clear - Hcl Hc. revert Hcl Hc. generalize (s_list s). generalize (l1 ++ a :: l2). induction l as [|x l IH]; intros k v H1 H2.
      - destruct k; [done|]. destruct H2 as [? _]. cbn in H1. congruence.
      - destruct H1 as (-> & n & Hn & H1). destruct k as [|y k]; [done|]. destruct H2 as ([= <-] & n' & Hn' & H2).
        f_equal. apply (IH _ n); [done|]. congruence. }
    exists (l1 ++ l2). split_and!.
    + eapply chain_frame; [|done]. intros x Hx. rewrite lookup_delete_ne; [done|]. intros <-.
      apply NoDup_app in Hnd as (_ & Hd & [H2 _]%NoDup_cons). apply elem_of_app in Hx as [Hx|Hx]; [|done].
      apply (Hd a Hx). by left.
    + apply NoDup_app in Hnd as (? & Hd & [? ?]%NoDup_cons). apply NoDup_app. split_and!; try done.
      intros x Hx Hx2. apply (Hd x Hx). by right.
    + intros b. destruct (decide (b = a)) as [->|Hba].
      * rewrite lookup_delete_eq. split; [by intros [? ?]|]. intros Hx.
        apply NoDup_app in Hnd as (_ & Hd & [H2 _]%NoDup_cons). apply elem_of_app in Hx as [Hx|Hx]; [|done].
        destruct (Hd a Hx). by left.
      * rewrite lookup_delete_ne, Hal, Hl by done. rewrite !elem_of_app, elem_of_cons. naive_solver.
    + rewrite Hp. unfold u32. rewrite Zminus_mod_idemp_l. f_equal. rewrite !length_app. cbn [length]. lia.
  - rewrite map_size_delete_Some by eauto.
    assert (size (held A) <> 0%nat) by (eapply map_size_ne_0_lookup_2; eauto). lia.
  - lia.
Qed.

Lemma destroy_ok p l1 a l2 t :
  chain (s_alinks (shape_of p)) (ah_list p) (l1 ++ a :: l2) -> NoDup (l1 ++ a :: l2) -> ahs p !! a = Some t ->
  exists p' al ls, _lws_destroy_ah a p = Ok (0, p') /\
    shape_of p' = set_s_tables (delete a al) (delete a (s_owner (shape_of p))) ls (u32 (ah_pool_length p - 1)) (shape_of p) /\
    chain al ls (l1 ++ l2) /\ (forall b, is_Some (al !! b) <-> is_Some (s_alinks (shape_of p) !! b)) /\ wsis p' = wsis p.
Proof.
  intros Hc Hnd Ht.
  assert (a ∉ l1) as Hal1 by (intros Hx; apply NoDup_app in Hnd as (_ & Hd & _); apply (Hd a Hx); by left).
  assert (s_alinks (shape_of p) !! a = Some (ah_next t)) as Hla by (simpl; by rewrite lookup_fmap, Ht).
  pose proof (chain_unlink _ _ _ _ _ _ Hc Hnd Hla) as Hu.
  unfold _lws_destroy_ah. rewrite (find_slot_in _ _ (list_next_ok p) l1 a l2 _ _ _ Hc Hal1).
  2: { pose proof (chain_size _ _ _ Hc Hnd) as Hs. cbn in Hs. rewrite map_size_fmap, length_app in Hs. unfold list_fuel. lia. }
  cbn [mbind res_bind]. unfold ah_at at 1. rewrite Ht. cbn [mbind res_bind].
  destruct (slot_after Head l1) as [|y] eqn:Hsl; cbn [store_list].
  - cbn [mbind res_bind]. eexists _, (s_alinks (shape_of p)), (ah_next t). split; [done|]. split_and!; try done.
    unfold shape_of, set_s_tables. cbn. by rewrite !fmap_delete.
  - destruct Hu as [Hy Hu]. assert (a <> y) by congruence.
    assert (is_Some (ahs p !! y)) as [ty Hty].
    { pose proof (chain_lookup _ _ _ y Hc) as Hsy. cbn in Hsy. rewrite lookup_fmap, fmap_is_Some in Hsy.
      apply Hsy, elem_of_app. by left. }
    rewrite (upd_ah_ok _ _ _ _ Hty). cbn [mbind res_bind].
    eexists _, (<[y := ah_next t]> (s_alinks (shape_of p))), (ah_list p). split; [done|]. split_and!; try done.
    + unfold shape_of, set_s_tables. cbn. rewrite !fmap_delete, !fmap_insert. cbn [ah_next set_ah_next].
      f_equal. f_equal. apply insert_id. by rewrite lookup_fmap, Hty.
    + intros b. destruct (decide (b = y)) as [->|Hby].
      * rewrite lookup_insert_eq. cbn. rewrite lookup_fmap, Hty. cbn. split; eauto.
      * by rewrite lookup_insert_ne.
Qed.

Section Calls.
Context (C : config).
Context (quiet : forall w p, exists p', service_fd C w p = Ok p' /\ shape_of p' = shape_of p).

(** What a reset leaves behind before queued input is served. *)
Definition wsi_reset (n : wsi) : wsi := set_ah_timeout (Some (timeout_secs_ah_idle C)) (set_hdr_parsing_completed false n).
Definition ah_reset (t : ah_node) : ah_node := set_assigned (now C) (set_table (P._lws_header_table_reset (table t)) t).

Lemma reset_exec p w n a t auto :
  wsis p !! w = Some n -> http_ah n = Some a -> ahs p !! a = Some t -> ah_wsi t = Some w ->
  let p1 := set_wsis (<[w := wsi_reset n]> (wsis p)) (set_ahs (<[a := ah_reset t]> (ahs p)) p) in
  __lws_header_table_reset C w auto p =
  (if in_fds_table n && nz (next_segment_len n) && auto then
     p ← upd_wsi w (fun n => set_revents (Z.lor (revents n) LWS_POLLIN) n) p1; service_fd C w p
   else Ok p1) /\
  shape_of p1 = shape_of p.
Proof.
  intros Hn Ha Ht Ho p1. split.
  - unfold __lws_header_table_reset, wsi_at, ah_at. rewrite Hn. cbn [mbind res_bind]. rewrite Ha, Ht. cbn [mbind res_bind].
    rewrite Ho, bool_decide_eq_true_2 by done. cbn [negb]. rewrite (upd_ah_ok _ _ _ _ Ht). cbn [mbind res_bind].
    erewrite (upd_wsi_ok w _ (set_ahs _ p)) by (cbn; exact Hn). cbn [mbind res_bind].
    erewrite (upd_wsi_ok w) by (cbn; apply lookup_insert_eq). cbn [mbind res_bind].
    erewrite (upd_ah_ok a) by (cbn; apply lookup_insert_eq). cbn [mbind res_bind].
    unfold p1, wsi_reset, ah_reset. cbn. rewrite !insert_insert_eq. reflexivity.
  - transitivity (shape_of (set_ahs (<[a := ah_reset t]> (ahs p)) p)).
    + by apply (shape_wsi_same (set_ahs (<[a := ah_reset t]> (ahs p)) p) w n).
    + by apply (shape_ah_same _ _ t).
Qed.

Lemma reset_ok p w n a t auto :
  wsis p !! w = Some n -> http_ah n = Some a -> ahs p !! a = Some t -> ah_wsi t = Some w ->
  exists p', __lws_header_table_reset C w auto p = Ok p' /\ shape_of p' = shape_of p /\
    (auto = false -> wsis p' !! w = Some (wsi_reset n) /\ ahs p' !! a = Some (ah_reset t)).
Proof.
  intros Hn Ha Ht Ho. destruct (reset_exec p w n a t auto Hn Ha Ht Ho) as [-> Hs]. set (p1 := set_wsis _ _) in *.
  destruct (_ && auto) eqn:Hauto.
  - apply andb_true_iff in Hauto as [_ ->]. erewrite (upd_wsi_ok w) by (cbn; apply lookup_insert_eq). cbn [mbind res_bind].
    set (p2 := set_wsis _ p1). destruct (quiet w p2) as (p3 & -> & Hs3). eexists. split; [done|].
    split; [|done]. rewrite Hs3, <- Hs. unfold p2. eapply shape_wsi_same; [cbn; apply lookup_insert_eq|done..].
  - eexists. split; [done|]. split; [done|]. intros _. split; apply lookup_insert_eq.
Qed.

Context (max_is : max_http_header_pool C = max) (max_range : 0 <= max < 2 ^ 31).

(** A connection that holds a table, with the table. *)
Lemma rep_holder p A w a : rep max p A -> held A !! w = Some a ->
  exists n t, wsis p !! w = Some n /\ http_ah n = Some a /\ is_server n = true /\ ahs p !! a = Some t /\
    ah_wsi t = Some w /\ in_use t = true.
Proof.
  intros R Hw. pose proof (proj1 (r_held _ _ _ R w a) Hw) as Hh. pose proof (r_owner _ _ _ R w a Hw) as Ho.
  cbn [s_holds s_owner shape_of] in Hh, Ho. rewrite lookup_fmap in Hh. rewrite lookup_fmap in Ho.
  destruct (wsis p !! w) as [n|] eqn:Hn; [|done].
  destruct (ahs p !! a) as [t|] eqn:Ht; [|done]. injection Hh as Hh. injection Ho as Ho Hi.
  exists n, t. split_and!; try done. apply (r_server _ _ _ R w). cbn. by rewrite lookup_fmap, Hn.
Qed.

Lemma rep_no_ah p A w n : rep max p A -> held A !! w = None -> wsis p !! w = Some n -> http_ah n = None.
Proof.
  intros R Hw Hn. destruct (http_ah n) as [a|] eqn:Ha; [|done].
  enough (held A !! w = Some a) by congruence. apply (r_held _ _ _ R). cbn. rewrite lookup_fmap, Hn. cbn. congruence.
Qed.

(** The reset at the end of an attach. *)
Lemma attach_reset p A w a auto : rep max p A -> held A !! w = Some a ->
  exists p', (p ← __lws_header_table_reset C w auto p;
              n ← wsi_at p w;
              if client_unconnected n then '(ok, p) ← client_connect C w p; Ok (if ok : bool then 0 else -1, p)
              else Ok (0, p)) = Ok (0, p') /\ rep max p' A.
Proof.
  intros R Hw. destruct (rep_holder p A w a R Hw) as (n & t & Hn & Ha & _ & Ht & Ho & _).
  destruct (reset_ok p w n a t auto Hn Ha Ht Ho) as (p' & -> & Hs & _). cbn [mbind res_bind].
  pose proof (rep_shape _ _ _ _ Hs R) as R'. destruct (rep_holder p' A w a R' Hw) as (n' & _ & Hn' & _ & Hsv & _).
  unfold wsi_at. rewrite Hn'. cbn [mbind res_bind]. unfold is_server in Hsv. apply andb_true_iff in Hsv as [_ Hsv].
  destruct (client_unconnected n'); [done|]. eauto.
Qed.

(** What an attach does to the queue; [ok]: the allocations succeed. *)
Definition attached (ok : bool) (a w : loc) (A : queue) : Z * queue :=
  match held A !! w with
  | Some _ => (0, A)
  | None =>
    if Z.of_nat (size (held A)) =? max then (1, enqueue w A)
    else if ok then (0, set_held (<[w := a]> (held A)) (dequeue w A))
    else (1, enqueue w (dequeue w A))
  end.

Definition alloc_ok : bool := alloc_ah C && bool_decide (is_Some (alloc_data C)).

Lemma attach_ok p A w auto : rep max p A -> w ∈ conns A ->
  exists p' a, lws_header_table_attach C w auto p = Ok ((attached alloc_ok a w A).1, p') /\
    rep max p' (attached alloc_ok a w A).2.
Proof.
  intros R Hw. destruct (rep_wsi p A w R Hw) as (n & Hn & Hsv). unfold lws_header_table_attach, attached.
  rewrite (wsi_at_ok _ _ _ Hn). cbn [mbind res_bind]. unfold is_server in Hsv. apply andb_true_iff in Hsv as [-> _].
  cbn [negb]. destruct (held A !! w) as [a|] eqn:Hh.
  { destruct (rep_holder p A w a R Hh) as (n' & t & Hn' & Ha & _). replace n' with n in * by congruence. rewrite Ha.
    destruct (attach_reset p A w a auto R Hh) as (p' & He & R'). exists p', a. by split. }
  rewrite (rep_no_ah p A w n R Hh Hn). pose proof (r_count _ _ _ R) as Hcnt. cbn in Hcnt. rewrite Hcnt, max_is.
  destruct (Z.eqb_spec (Z.of_nat (size (held A))) max) as [Hfull|Hroom].
  { destruct (ensure_ok p A w R Hw Hh) as (p' & -> & R'). exists p', w. by split. }
  destruct (remove_ok p A w R Hw) as (r & p1 & -> & R1 & _). cbn [mbind res_bind].
  assert (w ∈ conns (dequeue w A)) as Hw1 by done. assert (held (dequeue w A) !! w = None) as Hh1 by done.
  unfold _lws_create_ah, alloc_ok. destruct (alloc_ah C); cbn [andb].
  2: { destruct (ensure_ok p1 _ w R1 Hw1 Hh1) as (p' & -> & R'). exists p', w. by split. }
  destruct (alloc_data C) as [d|]; cbn [option_map].
  2: { destruct (ensure_ok p1 _ w R1 Hw1 Hh1) as (p' & -> & R'). exists p', w. by split. }
  rewrite bool_decide_eq_true_2 by eauto.
  set (a := fresh (dom (ahs p1))).
  assert (ahs p1 !! a = None) as Ha by (apply not_elem_of_dom, is_fresh).
  destruct (rep_wsi p1 _ w R1 Hw1) as (n1 & Hn1 & _).
  set (t0 := mk_ah_node _ _ _ _ _). set (q0 := set_ah_pool_length _ _).
  rewrite (upd_wsi_ok w _ q0 n1 Hn1). cbn [mbind res_bind]. set (q1 := set_wsis _ q0).
  rewrite (upd_ah_ok a _ q1 t0) by apply lookup_insert_eq. cbn [mbind res_bind]. set (q2 := set_ahs _ q1).
  rewrite (upd_ah_ok a _ q2 (set_in_use true t0)) by apply lookup_insert_eq. cbn [mbind res_bind].
  set (q3 := set_ahs _ q2).
  pose proof (r_count _ _ _ R1) as Hcnt1. pose proof (r_max _ _ _ R1) as Hmax1. cbn in Hcnt1, Hmax1.
  rewrite int_op_ok by (cbn; lia). cbn [mbind res_bind].
  set (p2 := set_ah_count_in_use _ _).
  assert (rep max p2 (set_held (<[w := a]> (held A)) (dequeue w A))) as R2.
  { change (held A) with (held (dequeue w A)). unfold rep.
    assert (s_alinks (shape_of p1) !! a = None) as Hna by (cbn; by rewrite lookup_fmap, Ha).
    assert (s_owner (shape_of p1) !! a = None) as Hnb by (cbn; by rewrite lookup_fmap, Ha).
    assert (w ∉ waiting (dequeue w A)) as Hnw.
    { unfold dequeue. cbn. rewrite list_elem_of_filter. naive_solver. }
    assert (s_count (shape_of p1) < max) as Hlt by (cbn; cbn in Hcnt1; lia).
    pose proof (srep_grab _ _ w a R1 Hw1 Hh1 Hnw Hna Hnb Hlt) as R2.
    refine (eq_ind_r (fun s => srep max s _) R2 _). unfold p2, q3, q2, q1, q0, t0, shape_of, set_s_count, set_s_holds, set_s_tables. cbn. rewrite !fmap_insert. cbn.
    rewrite dom_insert_lookup_L by eauto. rewrite !insert_insert_eq.
    f_equal.
    - apply insert_id. by rewrite lookup_fmap, Hn1.
    - apply insert_id. by rewrite lookup_fmap, Hn1. }
  assert (wsis p2 !! w = Some (set_http_ah (Some a) n1)) as Hn2 by (cbn; by rewrite lookup_insert_eq).
  destruct (change_pollfd_ok p2 w 0 LWS_POLLIN _ Hn2) as (n' & -> & _ & Hs). cbn [mbind res_bind].
  pose proof (rep_shape _ _ _ _ Hs R2) as R3.
  destruct (attach_reset _ _ w a auto R3) as (p' & He & R'); [by apply lookup_insert_eq|]. exists p', a. by split.
Qed.

(** What a detach does to the queue. *)
Definition detached (w : loc) (A : queue) : queue :=
  let A := dequeue w A in
  match held A !! w with
  | None => A
  | Some a =>
    match waiting A with
    | [] => set_held (delete w (held A)) A
    | o :: q => mk_queue (conns A) (<[o := a]> (delete w (held A))) q
    end
  end.

(** The table without an owner. *)
Definition disowned (w a : loc) (s : shape) : shape :=
  set_s_owner (<[a := (None, true)]> (s_owner s)) (set_s_holds (<[w := None]> (s_holds s)) s).

Lemma disown_shape p w a n t : wsis p !! w = Some n -> ahs p !! a = Some t -> in_use t = true ->
  shape_of (set_ahs (<[a := set_ah_wsi None t]> (ahs p)) (set_wsis (<[w := set_http_ah None n]> (wsis p)) p)) =
  disowned w a (shape_of p).
Proof.
  intros Hn Ht Hi. set (p1 := set_wsis _ p). pose proof (shape_ah p1 a t (set_ah_wsi None t) Ht) as E.
  change (ahs p) with (ahs p1). rewrite E. clear E. unfold p1. rewrite (shape_wsi p w n) by done. unfold disowned, set_s_owner, set_s_alinks, set_s_holds, set_s_links.
  cbn. f_equal.
  - apply insert_id. by rewrite lookup_fmap, Hn.
  - apply insert_id. by rewrite lookup_fmap, Ht.
  - unfold owner_of at 1. cbn. by rewrite Hi.
Qed.

Lemma own_shape p o a n t : wsis p !! o = Some n -> ahs p !! a = Some t -> in_use t = true ->
  shape_of (set_ahs (<[a := set_ah_wsi (Some o) t]> (ahs p)) (set_wsis (<[o := set_http_ah (Some a) n]> (wsis p)) p)) =
  set_s_owner (<[a := (Some o, true)]> (s_owner (shape_of p)))
    (set_s_holds (<[o := Some a]> (s_holds (shape_of p))) (shape_of p)).
Proof.
  intros Hn Ht Hi. set (p1 := set_wsis _ p). pose proof (shape_ah p1 a t (set_ah_wsi (Some o) t) Ht) as E.
  change (ahs p) with (ahs p1). rewrite E. clear E. unfold p1. rewrite (shape_wsi p o n) by done. unfold set_s_owner, set_s_alinks, set_s_holds, set_s_links.
  cbn. f_equal.
  - apply insert_id. by rewrite lookup_fmap, Hn.
  - apply insert_id. by rewrite lookup_fmap, Ht.
  - unfold owner_of at 1. cbn. by rewrite Hi.
Qed.

(** Nobody waits: the table is freed. *)
Lemma free_ok p q A w a t :
  rep max p A -> held A !! w = Some a -> shape_of q = disowned w a (shape_of p) -> ahs q !! a = Some t ->
  exists q', _lws_destroy_ah a q = Ok (0, q') /\
    rep max (set_ah_count_in_use (ah_count_in_use q' - 1) q') (set_held (delete w (held A)) A) /\
    ah_count_in_use q' = ah_count_in_use p.
Proof.
  intros R Hw Hs Ht.
  destruct (r_tables _ _ _ R) as (l & Hc & Hnd & Hl & _).
  assert (a ∈ l) as (l1 & l2 & ->)%list_elem_of_split.
  { apply Hl. destruct (rep_holder _ _ _ _ R Hw) as (_ & t' & _ & _ & _ & Ht' & _). cbn. rewrite lookup_fmap, Ht'. eauto. }
  assert (ah_list q = ah_list p) as Hlq by (change (s_list (shape_of q) = ah_list p); by rewrite Hs).
  assert (ah_pool_length q = ah_pool_length p) as Hpq by (change (s_plen (shape_of q) = ah_pool_length p); by rewrite Hs).
  destruct (destroy_ok q l1 a l2 t) as (q' & al & ls & -> & Hs' & Hc' & Hal & _); [by rewrite Hs, Hlq|done..|].
  assert (ah_count_in_use q' = ah_count_in_use p) as Hcq.
  { change (s_count (shape_of q') = ah_count_in_use p). by rewrite Hs', Hs. }
  exists q'. split; [done|]. split; [|done].
  rewrite Hs in Hal. pose proof (srep_free _ _ _ _ al ls l1 l2 R Hw Hc Hnd Hc' Hal) as R'. unfold rep.
  refine (eq_ind_r (fun s => srep max s _) R' _).
  transitivity (set_s_count (ah_count_in_use q' - 1) (shape_of q')); [reflexivity|].
  rewrite Hcq, Hs', Hs, Hpq. unfold disowned, set_s_owner, set_s_tables, set_s_holds, set_s_count. cbn.
  by rewrite delete_insert_eq.
Qed.

(** The longest waiting connection leaves the list with the table. *)
Lemma give_rep p s A w a o ws lk wt :
  rep max p A -> held A !! w = Some a -> waiting A = o :: ws -> chain lk wt (reverse ws) -> lk !! o = Some None ->
  (forall x v, lk !! x = Some v -> x ∉ reverse ws ++ [o] -> s_links (shape_of p) !! x = Some v) ->
  s = set_s_wlen (Z.of_nat (length (reverse ws))) (set_s_wait wt (set_s_links lk
        (set_s_owner (<[a := (Some o, true)]> (s_owner (disowned w a (shape_of p))))
           (set_s_holds (<[o := Some a]> (s_holds (disowned w a (shape_of p)))) (disowned w a (shape_of p)))))) ->
  srep max s (mk_queue (conns A) (<[o := a]> (delete w (held A))) ws).
Proof.
  intros R Hw Hws Hc5 Hlo Hoff ->. assert (o ∈ waiting A) as Ho by (rewrite Hws; by left).
  pose proof (r_known _ _ _ R o Ho) as Hoc. pose proof (r_waiter _ _ _ R o Ho) as Hoh.
  pose proof (r_nodup _ _ _ R) as Hnd. rewrite Hws in Hnd. apply NoDup_cons in Hnd as [How Hnd].
  assert (srep max (set_s_wlen (Z.of_nat (length (reverse ws))) (set_s_wait wt (set_s_links lk (shape_of p))))
    (mk_queue (conns A) (held A) ws)) as R1.
  { apply srep_waiting; try done.
    - intros x Hx. assert (x ∈ waiting A) by (rewrite Hws; by right).
      split; [by apply (r_known _ _ _ R)|by apply (r_waiter _ _ _ R)].
    - intros x v Hv Hx. destruct (decide (x = o)) as [->|Hxo]; [congruence|]. apply (r_off _ _ _ R x v).
      + apply (Hoff x v Hv). rewrite elem_of_app, elem_of_reverse, list_elem_of_singleton. tauto.
      + rewrite Hws, elem_of_cons. tauto.
    - by rewrite length_reverse. }
  pose proof (srep_give _ _ w o a R1 Hw Hoc Hoh How) as R2. refine (eq_ind_r (fun s => srep max s _) R2 _).
  clear. generalize (shape_of p), (Z.of_nat (length (reverse ws))). intros [] l.
  unfold disowned. cbn [s_conns s_links s_holds s_server s_alinks s_owner s_list s_wait s_wlen s_plen s_count
    set_s_holds set_s_owner set_s_wlen set_s_wait set_s_links]. by rewrite insert_insert_eq.
Qed.

(** The new owner [o] listens for input and, if nothing was served meanwhile,
    starts over with an empty table. *)
Definition handed_over (o a : loc) (old : P.allocated_headers) (auto : bool) (p : pool) : Prop :=
  exists n, wsis p !! o = Some n /\ http_ah n = Some a /\ (in_fds_table n = true -> Z.testbit (events n) 0 = true) /\
    (auto = false -> hdr_parsing_completed n = false /\
                     exists t, ahs p !! a = Some t /\ table t = P._lws_header_table_reset old).

(** The one who has waited longest takes the table over. *)
Lemma give_ok p q A w a t o ws auto :
  rep max p A -> held A !! w = Some a -> shape_of q = disowned w a (shape_of p) ->
  ahs q !! a = Some t -> in_use t = true -> waiting A = o :: ws ->
  exists q',
    (p ← upd_wsi o (set_http_ah (Some a)) q;
     p ← upd_ah a (set_ah_wsi (Some o)) p;
     p ← __lws_header_table_reset C o auto p;
     p ← change_pollfd o 0 LWS_POLLIN p;
     p ← unlink_waiting (slot_after Head (reverse ws)) o p;
     n ← wsi_at p o;
     if client_unconnected n then
       '(ok, p) ← client_connect C o p; Ok (if ok : bool then 0 else -1, p)
     else if bool_decide (nz (ah_wait_list_length p) = bool_decide (ah_wait_list p <> None)) then Ok (0, p)
     else Err assert_failed) = Ok (0, q') /\
    rep max q' (mk_queue (conns A) (<[o := a]> (delete w (held A))) ws) /\ handed_over o a (table t) auto q'.
Proof.
  intros R Hw Hs Ht Hi Hws.
  assert (o ∈ waiting A) as Ho by (rewrite Hws; by left).
  pose proof (r_known _ _ _ R o Ho) as Hoc. pose proof (r_waiter _ _ _ R o Ho) as Hoh.
  pose proof (r_nodup _ _ _ R) as Hnd. rewrite Hws in Hnd. apply NoDup_cons in Hnd as [How Hnd].
  assert (exists n, wsis q !! o = Some n) as [n Hn].
  { rewrite <- (r_conns _ _ _ R) in Hoc. change (s_conns (shape_of p)) with (s_conns (disowned w a (shape_of p))) in Hoc.
    rewrite <- Hs in Hoc. cbn [s_conns shape_of] in Hoc. by apply elem_of_dom in Hoc. }
  rewrite (upd_wsi_ok _ _ _ _ Hn). cbn [mbind res_bind]. set (q1 := set_wsis _ q).
  rewrite (upd_ah_ok _ _ q1 _ Ht). cbn [mbind res_bind]. pose proof (own_shape q o a n t Hn Ht Hi) as Hs2.
  set (q2 := set_ahs _ q1) in *.
  assert (wsis q2 !! o = Some (set_http_ah (Some a) n)) as Hn2 by (cbn; apply lookup_insert_eq).
  assert (ahs q2 !! a = Some (set_ah_wsi (Some o) t)) as Ht2 by (cbn; apply lookup_insert_eq).
  change (shape_of q2 = set_s_owner (<[a := (Some o, true)]> (s_owner (shape_of q)))
    (set_s_holds (<[o := Some a]> (s_holds (shape_of q))) (shape_of q))) in Hs2.
  clearbody q2.
  destruct (reset_ok q2 o _ a _ auto Hn2 eq_refl Ht2 eq_refl) as (q3 & -> & Hs3 & Hf3). cbn [mbind res_bind].
  assert (exists n3, wsis q3 !! o = Some n3) as [n3 Hn3].
  { apply elem_of_dom. change (o ∈ s_conns (shape_of q3)). rewrite Hs3. cbn. apply elem_of_dom. eauto. }
  destruct (change_pollfd_ok q3 o 0 LWS_POLLIN n3 Hn3) as (n4 & -> & Hn4e & Hs4). cbn [mbind res_bind].
  set (q4 := set_wsis _ q3) in *. assert (wsis q4 !! o = Some n4) as Hn4 by (cbn; apply lookup_insert_eq).
  assert (ahs q4 = ahs q3) as Ha4 by done. clearbody q4.
  rewrite Hs3, Hs2, Hs in Hs4.
  assert (ah_wait_list q4 = ah_wait_list p) as Hwq by (change (s_wait (shape_of q4) = ah_wait_list p); by rewrite Hs4).
  assert (ah_wait_list_length q4 = ah_wait_list_length p) as Hlq
    by (change (s_wlen (shape_of q4) = ah_wait_list_length p); by rewrite Hs4).
  pose proof (r_wait _ _ _ R) as Hc. rewrite Hws, reverse_cons in Hc. pose proof (rep_wlen p A R) as Hfew.
  pose proof (r_wlen _ _ _ R) as Hwl. cbn in Hwl.
  assert (length (reverse ws ++ [o]) = length (waiting A)) as Hlen
    by (rewrite Hws, length_app, length_reverse; cbn; lia).
  destruct (unlink_ok q4 (reverse ws) o [] n4) as (q5 & lk & wt & -> & Hs5 & Hc5 & Hlo & Hoff & Hwq5 & Haq5).
  { by rewrite Hs4, Hwq. }
  { rewrite <- reverse_cons, reverse_Permutation. by apply NoDup_cons. }
  { done. }
  { rewrite Hlq, Hwl, Hlen. by split. }
  cbn [mbind res_bind]. rewrite app_nil_r in Hc5, Hs5. rewrite Hs4 in Hs5, Hoff.
  assert (rep max q5 (mk_queue (conns A) (<[o := a]> (delete w (held A))) ws)) as R5.
  { exact (give_rep p _ A w a o ws lk wt R Hw Hws Hc5 Hlo Hoff Hs5). }
  destruct (rep_wsi q5 _ o R5 Hoc) as (n5 & Hn5 & Hsv). rewrite (wsi_at_ok _ _ _ Hn5). cbn [mbind res_bind].
  unfold is_server in Hsv. apply andb_true_iff in Hsv as [_ Hsv]. destruct (client_unconnected n5); [done|].
  assert (handed_over o a (table t) auto q5) as H5.
  { exists (set_http_ah_wait_list None n4). rewrite Hwq5, lookup_insert_eq. split; [done|]. split.
    - assert (s_holds (shape_of q4) !! o = Some (Some a)) as Hh4.
      { rewrite Hs4. unfold disowned, set_s_owner, set_s_holds. cbn. by rewrite lookup_insert_eq. }
      cbn in Hh4. rewrite lookup_fmap, Hn4 in Hh4. by injection Hh4.
    - rewrite Hn4e. split.
      + destruct (in_fds_table n3) eqn:Hfd; [|intros Hx; cbn in Hx; congruence]. intros _. cbn [events set_events set_http_ah_wait_list].
        rewrite Z.lor_spec. by rewrite orb_true_r.
      + intros Hauto. destruct (Hf3 Hauto) as [Hw3 Ht3]. split; [|exists (ah_reset (set_ah_wsi (Some o) t))].
        * replace n3 with (wsi_reset (set_http_ah (Some a) n)) by congruence. cbn. by destruct (in_fds_table n).
        * by rewrite Haq5, Ha4. }
  rewrite bool_decide_eq_true_2; [by eexists|].
  pose proof (r_wlen _ _ _ R5) as Hl5. pose proof (r_wait _ _ _ R5) as Hw5. cbn [waiting s_wait s_wlen shape_of] in Hl5, Hw5.
  rewrite Hl5.
  destruct ws as [|x ws] using rev_ind.
  - change (ah_wait_list q5 = None) in Hw5. rewrite Hw5. by rewrite bool_decide_eq_false_2 by (intros H; by apply H).
  - rewrite reverse_snoc in Hw5. destruct Hw5 as (-> & _). rewrite bool_decide_eq_true_2 by done.
    apply nz_true. rewrite length_app. cbn. lia.
Qed.

Lemma detach_ok p A w auto : rep max p A -> w ∈ conns A ->
  exists p', __lws_header_table_detach C w auto p = Ok (0, p') /\ rep max p' (detached w A) /\
    (forall a t o ws, held A !! w = Some a -> ahs p !! a = Some t -> waiting (dequeue w A) = o :: ws ->
       handed_over o a (table t) auto p').
Proof.
  intros R Hw. destruct (rep_wsi p A w R Hw) as (n & Hn & _). unfold __lws_header_table_detach, detached.
  rewrite (wsi_at_ok _ _ _ Hn). cbn [mbind res_bind].
  destruct (remove_ok p A w R Hw) as (r & p1 & -> & R1 & Hahs). cbn [mbind res_bind].
  assert (held A = held (dequeue w A)) as HA by done. set (A1 := dequeue w A) in *. clearbody A1.
  cbv zeta.
  destruct (held A1 !! w) as [a|] eqn:Hh.
  2: { rewrite (rep_no_ah p A w n R); [|by rewrite HA|done]. eexists. split_and!; [done..|]. intros. congruence. }
  destruct (rep_holder p A w a R) as (n' & _ & Hn' & Ha & _); [by rewrite HA|].
  replace n' with n in * by congruence. rewrite Ha.
  destruct (rep_holder p1 A1 w a R1 Hh) as (n1 & t & Hn1 & Ha1 & _ & Ht & Ho & Hi).
  rewrite (upd_ah_ok _ _ _ _ Ht). cbn [mbind res_bind]. set (p2 := set_ahs _ p1).
  assert (shape_of p2 = shape_of p1) as Hs2 by (by apply (shape_ah_same p1 a t)).
  pose proof (rep_shape _ _ _ _ Hs2 R1) as R2. assert (wsis p2 !! w = Some n1) as Hn2 by done.
  assert (ahs p2 !! a = Some (set_assigned 0 t)) as Ht2 by (cbn; apply lookup_insert_eq). clearbody p2.
  pose proof (r_count _ _ _ R2) as Hcnt. cbn in Hcnt.
  assert (0 < ah_count_in_use p2) as Hpos.
  { rewrite Hcnt. assert (size (held A1) <> 0%nat) by (eapply map_size_ne_0_lookup_2; eauto). lia. }
  rewrite (proj2 (Z.gtb_lt _ _) Hpos), (ah_at_ok _ _ _ Ht2). cbn [mbind res_bind negb in_use set_assigned]. rewrite Hi. cbn [negb].
  rewrite (upd_wsi_ok _ _ _ _ Hn2). cbn [mbind res_bind]. rewrite (upd_ah_ok a _ (set_wsis _ p2) _ Ht2). cbn [mbind res_bind].
  pose proof (disown_shape p2 w a n1 _ Hn2 Ht2 Hi) as Hs3. change (ahs (set_wsis ?x p2)) with (ahs p2). set (q := set_ahs _ _) in *.
  assert (ahs q !! a = Some (set_ah_wsi None (set_assigned 0 t))) as Htq by (cbn; apply lookup_insert_eq).
  assert (wsis q = <[w := set_http_ah None n1]> (wsis p2)) as Hwq by done. clearbody q.
  assert (ah_wait_list q = ah_wait_list p2) as Hwl by (change (s_wait (shape_of q) = ah_wait_list p2); by rewrite Hs3).
  assert (s_links (shape_of q) = s_links (shape_of p2)) as Hlk by (by rewrite Hs3).
  pose proof (r_wait _ _ _ R2) as Hc. change (s_wait (shape_of p2)) with (ah_wait_list p2) in Hc. rewrite <- Hwl, <- Hlk in Hc.
  destruct (waiting A1) as [|o ws] eqn:Hws.
  - cbn in Hc. rewrite Hc. cbn [last_slot wait_fuel mbind res_bind].
    destruct (free_ok p2 q A1 w a _ R2 Hh Hs3 Htq) as (q' & -> & R' & Hcq). cbn [mbind res_bind].
    pose proof (r_max _ _ _ R2) as Hm. cbn in Hm. rewrite int_op_ok by lia. cbn [mbind res_bind]. eexists. by split_and!.
  - rewrite reverse_cons in Hc. rewrite (last_slot_snoc _ _ (wait_next_ok q) _ _ _ _ _ _ Hc).
    2: { pose proof (rep_wait_fuel p2 A1 _ R2 (Permutation_refl _)) as Hf. rewrite Hws in Hf. unfold wait_fuel in *.
         rewrite Hwq, map_size_insert_Some by done. rewrite length_reverse. cbn in Hf. lia. }
    cbn [mbind res_bind]. destruct (give_ok p2 q A1 w a _ o ws auto R2 Hh Hs3 Htq Hi Hws) as (q' & E & R' & Hg).
    exists q'. split_and!; [done..|]. intros a' t' o' ws' Ha' Ht' [= <- <-]. replace a' with a by congruence.
    rewrite <- Hahs in Ht'. by replace t' with t by congruence.
Qed.

End Calls.

End Steps.

(** ** What the pool promises

    At most [max] connections hold a table; the others stand in line, the
    oldest first. *)
Record spec := mk_spec { holders : gset loc; line : list loc }.

Definition leave (w : loc) (Q : spec) : spec := mk_spec (holders Q) (filter (.≠ w) (line Q)).

Definition join (w : loc) (Q : spec) : spec :=
  if bool_decide (w ∈ line Q) then Q else mk_spec (holders Q) (line Q ++ [w]).

(** [ok]: there is memory for a new table. *)
Definition spec_attach (max : Z) (ok : bool) (w : loc) (Q : spec) : Z * spec :=
  if bool_decide (w ∈ holders Q) then (0, Q)
  else if Z.of_nat (size (holders Q)) =? max then (1, join w Q)
  else if ok then (0, mk_spec ({[w]} ∪ holders Q) (line (leave w Q)))
  else (1, join w (leave w Q)).

Definition spec_detach (w : loc) (Q : spec) : spec :=
  let Q := leave w Q in
  if bool_decide (w ∈ holders Q) then
    match line Q with
    | [] => mk_spec (holders Q ∖ {[w]}) []
    | o :: q => mk_spec ({[o]} ∪ holders Q ∖ {[w]}) q
    end
  else Q.

Inductive op := Attach (C : config) (w : loc) (autoservice : bool) | Detach (C : config) (w : loc) (autoservice : bool).

Definition op_config (o : op) : config := match o with Attach C _ _ | Detach C _ _ => C end.
Definition op_wsi (o : op) : loc := match o with Attach _ w _ | Detach _ w _ => w end.

Definition do_op (o : op) : pool -> res fault (Z * pool) :=
  match o with
  | Attach C w auto => lws_header_table_attach C w auto
  | Detach C w auto => __lws_header_table_detach C w auto
  end.

Fixpoint run (ops : list op) (p : pool) : res fault (list Z * pool) :=
  match ops with
  | [] => Ok ([], p)
  | o :: ops => '(r, p) ← do_op o p; '(rs, p) ← run ops p; Ok (r :: rs, p)
  end.

Definition spec_op (max : Z) (o : op) (Q : spec) : Z * spec :=
  match o with
  | Attach C w _ => spec_attach max (alloc_ok C) w Q
  | Detach _ w _ => (0, spec_detach w Q)
  end.

Fixpoint spec_run (max : Z) (ops : list op) (Q : spec) : list Z * spec :=
  match ops with
  | [] => ([], Q)
  | o :: ops => let '(r, Q) := spec_op max o Q in let '(rs, Q) := spec_run max ops Q in (r :: rs, Q)
  end.

Definition valid (max : Z) (cs : gset loc) (o : op) : Prop :=
  max_http_header_pool (op_config o) = max /\ op_wsi o ∈ cs.

(** *** The service of queued input

    With [autoservice], a connection that gets a table while input is queued
    for it is serviced at once.  That service is the whole of the library, and
    it may call the pool again. *)

Definition op_auto (o : op) : bool := match o with Attach _ _ auto | Detach _ _ auto => auto end.

Definition with_service (f : loc -> pool -> res fault pool) (C : config) : config :=
  mk_config (max_http_header_pool C) (timeout_secs_ah_idle C) (now C) (alloc_ah C) (alloc_data C) f (client_connect C).

Definition op_with (f : loc -> pool -> res fault pool) (o : op) : op :=
  match o with
  | Attach C w auto => Attach (with_service f C) w auto
  | Detach C w auto => Detach (with_service f C) w auto
  end.

(** The operation comes to service [w] in the state [q]: whatever the service
    does, it is called there and the operation goes on from what it leaves. *)
Definition serves (o : op) (p : pool) (w : loc) (q : pool) : Prop :=
  exists k, forall f, do_op (op_with f o) p = (q' ← f w q; k q').

(** Serving [w] fails or touches the pool. *)
Definition disturbs (C : config) (w : loc) (q : pool) : Prop :=
  match service_fd C w q with Ok q' => shape_of q' <> shape_of q | Err _ => True end.

(** The operation gives a table to a connection of the poll set that has input
    queued, serves it at once, and that uses the pool. *)
Definition disturbed (o : op) (p : pool) : Prop :=
  op_auto o = true /\ exists w n q, serves o p w q /\ wsis q !! w = Some n /\ is_Some (http_ah n) /\
    in_fds_table n = true /\ next_segment_len n <> 0 /\ disturbs (op_config o) w q.

(** The memory [p] with the connections [cs] is in the state [Q]. *)
Definition represents (max : Z) (p : pool) (cs : gset loc) (Q : spec) : Prop :=
  exists A, rep max p A /\ conns A = cs /\ dom (held A) = holders Q /\ waiting A = line Q.

(** Nobody stands in line while there is a table to have. *)
Definition busy (max : Z) (Q : spec) : Prop := line Q = [] \/ Z.of_nat (size (holders Q)) = max.

(** *** Refinement *)

Definition spec_of (A : queue) : spec := mk_spec (dom (held A)) (waiting A).

Lemma spec_of_enqueue w A : spec_of (enqueue w A) = join w (spec_of A).
Proof. unfold enqueue, join, spec_of. simpl. by case_bool_decide. Qed.

Lemma spec_of_dequeue w A : spec_of (dequeue w A) = leave w (spec_of A).
Proof. done. Qed.

Lemma attach_is_spec max ok a w A :
  ((attached max ok a w A).1, spec_of (attached max ok a w A).2) = spec_attach max ok w (spec_of A).
Proof.
  unfold attached, spec_attach. cbn [holders spec_of]. rewrite size_dom. destruct (held A !! w) as [b|] eqn:Hw.
  - rewrite bool_decide_eq_true_2 by (apply elem_of_dom; eauto). done.
  - rewrite bool_decide_eq_false_2 by (by apply not_elem_of_dom). destruct (_ =? _).
    + cbn. by rewrite spec_of_enqueue.
    + destruct ok; cbn [fst snd].
      * unfold spec_of, leave. cbn. by rewrite dom_insert_L.
      * by rewrite spec_of_enqueue, spec_of_dequeue.
Qed.

Lemma detach_is_spec w A : spec_of (detached w A) = spec_detach w (spec_of A).
Proof.
  unfold detached, spec_detach. rewrite <- spec_of_dequeue. generalize (dequeue w A). clear A. intros A.
  cbn [holders line spec_of]. destruct (held A !! w) as [b|] eqn:Hw.
  - rewrite bool_decide_eq_true_2 by (apply elem_of_dom; eauto).
    destruct (waiting A) eqn:Hws; unfold spec_of; cbn; rewrite ?Hws, ?dom_insert_L, dom_delete_L; done.
  - by rewrite bool_decide_eq_false_2 by (by apply not_elem_of_dom).
Qed.

Lemma represents_spec max p cs Q : represents max p cs Q <-> exists A, rep max p A /\ conns A = cs /\ spec_of A = Q.
Proof.
  unfold represents, spec_of. split; intros (A & ? & ? & HA).
  - destruct HA as [HA1 HA2]. exists A. split_and!; [done..|]. destruct Q. cbn in *. congruence.
  - rewrite <- HA. by exists A.
Qed.

Lemma conns_attached max ok a w A : conns (attached max ok a w A).2 = conns A.
Proof. unfold attached, enqueue. by repeat case_match. Qed.

Lemma conns_detached w A : conns (detached w A) = conns A.
Proof. unfold detached. by repeat case_match. Qed.

(** *** With and without service *)

Lemma upd_wsi_inv w f p p' : upd_wsi w f p = Ok p' ->
  exists n, wsis p !! w = Some n /\ wsis p' !! w = Some (f n).
Proof.
  unfold upd_wsi, wsi_at. destruct (wsis p !! w) as [n|] eqn:Hn; [|done]. intros [= <-]. exists n.
  split; [done|]. apply lookup_insert_eq.
Qed.

Lemma upd_ah_wsis a f p p' : upd_ah a f p = Ok p' -> wsis p' = wsis p.
Proof. unfold upd_ah. destruct (ah_at p a); [|done]. by intros [= <-]. Qed.

Lemma reset_service C w auto p :
  (forall f, __lws_header_table_reset (with_service f C) w auto p = __lws_header_table_reset C w auto p) \/
  auto = true /\ exists n q, wsis q !! w = Some n /\ is_Some (http_ah n) /\ in_fds_table n = true /\
    next_segment_len n <> 0 /\ (forall f, __lws_header_table_reset (with_service f C) w auto p = f w q).
Proof.
  unfold __lws_header_table_reset. destruct (wsi_at p w) as [n|] eqn:E0; cbn [mbind res_bind]; [|by left].
  destruct (http_ah n) as [a|] eqn:Ha; [|by left]. destruct (ah_at p a) as [t|]; cbn [mbind res_bind]; [|by left].
  destruct (negb _); [by left|]. destruct (upd_ah a _ p) as [p1|] eqn:E1; cbn [mbind res_bind]; [|by left].
  destruct (upd_wsi w _ p1) as [p2|] eqn:E2; cbn [mbind res_bind]; [|by left].
  cbn [with_service timeout_secs_ah_idle now service_fd].
  destruct (upd_wsi w _ p2) as [p3|] eqn:E3; cbn [mbind res_bind]; [|by left].
  destruct (upd_ah a _ p3) as [p4|] eqn:E4; cbn [mbind res_bind]; [|by left].
  destruct (_ && auto) eqn:Hauto; [|by left]. apply andb_true_iff in Hauto as [Hq ->].
  apply andb_true_iff in Hq as [Hfd Hq%nz_true].
  destruct (upd_wsi w _ p4) as [p5|] eqn:E5; cbn [mbind res_bind]; [|by left].
  right. split; [done|]. unfold wsi_at in E0. destruct (wsis p !! w) as [n0|] eqn:Hn; [|done]. injection E0 as ->.
  apply upd_ah_wsis in E1, E4. apply upd_wsi_inv in E2 as (n2 & H2 & H2'), E3 as (n3 & H3 & H3'), E5 as (n5 & H5 & H5').
  exists (set_revents (Z.lor (revents n5) LWS_POLLIN) n5), p5.
  assert (n5 = wsi_reset C n) as -> by (unfold wsi_reset; congruence). by split_and!.
Qed.

(** A reset followed by more of an operation. *)
Lemma reset_then C w auto p (D : (loc -> pool -> res fault pool) -> res fault (Z * pool)) rest :
  (forall f, D f = (p' ← __lws_header_table_reset (with_service f C) w auto p; rest p')) ->
  (forall f, D f = (p' ← __lws_header_table_reset C w auto p; rest p')) \/
  auto = true /\ exists w n q, (exists k, forall f, D f = (q' ← f w q; k q')) /\ wsis q !! w = Some n /\
    is_Some (http_ah n) /\ in_fds_table n = true /\ next_segment_len n <> 0.
Proof.
  intros HD. destruct (reset_service C w auto p) as [H|(-> & n & q & Hn & Ha & Hf & Hq & H)].
  - left. intros f. by rewrite HD, H.
  - right. split; [done|]. exists w, n, q. split; [|by split_and!]. exists rest. intros f. by rewrite HD, H.
Qed.

Lemma op_service o p :
  (forall f, do_op (op_with f o) p = do_op o p) \/
  op_auto o = true /\ exists w n q, serves o p w q /\ wsis q !! w = Some n /\ is_Some (http_ah n) /\
    in_fds_table n = true /\ next_segment_len n <> 0.
Proof.
  destruct o as [C w auto|C w auto]; unfold serves; cbn [op_with do_op op_auto].
  - unfold lws_header_table_attach, _lws_create_ah.
    cbn [with_service max_http_header_pool client_connect alloc_ah alloc_data].
    destruct (wsi_at p w) as [n|]; cbn [mbind res_bind]; [|by left]. destruct (negb _); [by left|].
    destruct (http_ah n) as [a|]; [by eapply reset_then|]. destruct (_ =? _); [by left|].
    destruct (__lws_remove_from_ah_waiting_list w p) as [[r p1]|]; cbn [mbind res_bind]; [|by left].
    destruct (alloc_ah C); [|by left]. destruct (alloc_data C) as [d|]; [|by left].
    destruct (upd_wsi w _ _) as [p2|]; cbn [mbind res_bind]; [|by left].
    destruct (upd_ah _ _ p2) as [p3|]; cbn [mbind res_bind]; [|by left].
    destruct (upd_ah _ _ p3) as [p4|]; cbn [mbind res_bind]; [|by left].
    destruct (int_op _) as [c|]; cbn [mbind res_bind]; [|by left].
    destruct (change_pollfd w _ _ _) as [p5|]; cbn [mbind res_bind]; [|by left]. by eapply reset_then.
  - unfold __lws_header_table_detach. cbn [with_service client_connect].
    destruct (wsi_at p w) as [n|]; cbn [mbind res_bind]; [|by left].
    destruct (__lws_remove_from_ah_waiting_list w p) as [[r p1]|]; cbn [mbind res_bind]; [|by left].
    destruct (http_ah n) as [a|]; [|by left].
    destruct (upd_ah a _ p1) as [p2|]; cbn [mbind res_bind]; [|by left]. destruct (negb _); [by left|].
    destruct (ah_at p2 a) as [t|]; cbn [mbind res_bind]; [|by left]. destruct (negb _); [by left|].
    destruct (upd_wsi w _ p2) as [p3|]; cbn [mbind res_bind]; [|by left].
    destruct (upd_ah a _ p3) as [p4|]; cbn [mbind res_bind]; [|by left].
    destruct (last_slot _ _ _ _ _) as [[[s o]|]|]; cbn [mbind res_bind]; [|by left..].
    destruct (upd_wsi o _ p4) as [p5|]; cbn [mbind res_bind]; [|by left].
    destruct (upd_ah a _ p5) as [p6|]; cbn [mbind res_bind]; [|by left]. by eapply reset_then.
Qed.

#[local] Instance shape_eq_dec : EqDecision shape.
Proof. solve_decision. Defined.

(** The service as it is where it leaves the pool alone, and none elsewhere. *)
Definition calm (C : config) (w : loc) (q : pool) : res fault pool :=
  match service_fd C w q with
  | Ok q' => if bool_decide (shape_of q' = shape_of q) then Ok q' else Ok q
  | Err _ => Ok q
  end.

Lemma calm_shape C w q : exists q', calm C w q = Ok q' /\ shape_of q' = shape_of q.
Proof. unfold calm. destruct (service_fd C w q) as [q'|]; [|eauto]. case_bool_decide; eauto. Qed.

Lemma calm_same C w q : calm C w q = service_fd C w q \/ disturbs C w q.
Proof. unfold calm, disturbs. destruct (service_fd C w q) as [q'|]; [|by right]. case_bool_decide; auto. Qed.

Definition calmed (o : op) : op := op_with (calm (op_config o)) o.

Lemma op_with_own o : op_with (service_fd (op_config o)) o = o.
Proof. by destruct o as [[] ? ?|[] ? ?]. Qed.

Lemma op_calm o p : do_op o p = do_op (calmed o) p \/ disturbed o p.
Proof.
  destruct (op_service o p) as [H|(Ha & w & n & q & [k Hk] & Hn)]; [left; symmetry; apply H|].
  destruct (calm_same (op_config o) w q) as [E|Hd].
  - left. transitivity (do_op (op_with (service_fd (op_config o)) o) p); [by rewrite op_with_own|].
    unfold calmed. by rewrite !Hk, E.
  - right. split; [done|]. exists w, n, q. destruct Hn as (? & ? & ? & ?). split_and!; try done. by exists k.
Qed.

Lemma op_ok max cs o p Q : 0 <= max < 2 ^ 31 -> valid max cs o -> represents max p cs Q ->
  (exists p', do_op o p = Ok ((spec_op max o Q).1, p') /\ represents max p' cs (spec_op max o Q).2) \/ disturbed o p.
Proof.
  intros Hm (HC & Hw) (A & R & <- & <-)%represents_spec. destruct (op_calm o p) as [->|]; [left|by right].
  destruct o as [C w auto|C w auto]; cbn in *.
  - destruct (attach_ok max (with_service (calm C) C) (calm_shape C) HC Hm p A w auto R Hw) as (p' & a & -> & R').
    change (alloc_ok (with_service (calm C) C)) with (alloc_ok C) in *.
    rewrite <- (attach_is_spec max (alloc_ok C) a). cbn. exists p'. split; [done|]. apply represents_spec.
    eexists. split; [done|]. by rewrite conns_attached.
  - destruct (detach_ok max (with_service (calm C) C) (calm_shape C) Hm p A w auto R Hw) as (p' & -> & R' & _).
    rewrite <- detach_is_spec. exists p'. split; [done|]. apply represents_spec. eexists. split; [done|].
    by rewrite conns_detached.
Qed.

Lemma represents_disjoint max p cs Q o : represents max p cs Q -> o ∈ line Q -> o ∉ holders Q.
Proof.
  intros (A & R & _ & <- & <-) Ho. apply not_elem_of_dom. by apply (r_waiter _ _ _ R).
Qed.

(** Handing a table over keeps their number. *)
Lemma size_swap (o w : loc) (X : gset loc) : w ∈ X -> o ∉ X -> size ({[o]} ∪ X ∖ {[w]}) = size X.
Proof.
  intros Hw Ho.
  assert ({[w]} ∪ X ∖ {[w]} = X) as E by (symmetry; apply union_difference_L; set_solver).
  transitivity (size ({[w]} ∪ X ∖ {[w]})); [|by rewrite E]. clear E.
  pose proof (size_union {[o]} (X ∖ {[w]})) as ->; [|set_solver].
  pose proof (size_union {[w]} (X ∖ {[w]})) as ->; [|set_solver]. by rewrite !size_singleton.
Qed.

Lemma op_busy max cs o p Q : alloc_ok (op_config o) = true -> represents max p cs Q -> busy max Q ->
  busy max (spec_op max o Q).2.
Proof.
  intros Hok R HB. destruct o as [C w auto|C w auto]; cbn in *.
  - rewrite Hok. unfold spec_attach. case_bool_decide; [done|]. destruct (Z.eqb_spec (Z.of_nat (size (holders Q))) max).
    + right. cbn. unfold join. by case_bool_decide.
    + destruct HB as [HB|]; [|done]. left. cbn. by rewrite HB.
  - unfold spec_detach. cbn [holders leave]. case_bool_decide as Hw.
    + cbn [line leave]. destruct (filter (.≠ w) (line Q)) as [|x q] eqn:Hl; [by left|]. right. cbn.
      assert (x ∈ line Q) as Hx.
      { assert (x ∈ filter (.≠ w) (line Q)) as Hx by (rewrite Hl; by left). by apply list_elem_of_filter in Hx as [_ Hx]. }
      rewrite size_swap; [|done|by eapply represents_disjoint].
      destruct HB as [HB|HB]; [by rewrite HB in Hx; apply elem_of_nil in Hx|done].
    + destruct HB as [HB|HB]; [left; cbn; by rewrite HB|by right].
Qed.

(** What becomes of a sequence: it goes through, or up to an operation whose
    service is in the way. *)
Definition ends_after (ops : list op) (k : nat) (p : pool) : Prop :=
  k = length ops \/ exists o, ops !! k = Some o /\ disturbed o p.

Lemma run_ok max cs ops p Q : 0 <= max < 2 ^ 31 -> Forall (valid max cs) ops -> represents max p cs Q ->
  exists k p', (k <= length ops)%nat /\ run (take k ops) p = Ok ((spec_run max (take k ops) Q).1, p') /\
    represents max p' cs (spec_run max (take k ops) Q).2 /\ ends_after ops k p' /\
    (Forall (fun o => alloc_ok (op_config o) = true) ops -> busy max Q -> busy max (spec_run max (take k ops) Q).2).
Proof.
  intros Hm Hops. revert p Q. induction Hops as [|o ops Ho _ IH]; intros p Q R.
  { exists 0%nat, p. split_and!; [done..|by left|done]. }
  destruct (op_ok max cs o p Q Hm Ho R) as [(p1 & E1 & R1)|Hd].
  2: { exists 0%nat, p. split_and!; [lia|done..| |done]. right. by exists o. }
  assert (HB : alloc_ok (op_config o) = true -> busy max Q -> busy max (spec_op max o Q).2) by (intros; by eapply op_busy).
  destruct (spec_op max o Q) as [r Q1] eqn:EQ. cbn [fst snd] in *. destruct (IH p1 Q1 R1) as (k & p2 & Hk & E2 & R2 & H & HBs).
  exists (S k), p2. cbn [take run spec_run length]. rewrite EQ, E1. cbn [mbind res_bind]. rewrite E2. cbn [mbind res_bind].
  destruct (spec_run max (take k ops) Q1) as [rs Q2]. split_and!; [lia|done..| |].
  - destruct H as [->|H]; [by left|by right].
  - intros [Ha Hal]%Forall_cons HQ. by apply HBs, HB.
Qed.

(** Operations that serve nobody go through. *)
Lemma run_alone max cs ops p Q : 0 <= max < 2 ^ 31 -> Forall (valid max cs) ops -> represents max p cs Q ->
  (forall o q, o ∈ ops -> ~ disturbed o q) ->
  exists p', run ops p = Ok ((spec_run max ops Q).1, p') /\ represents max p' cs (spec_run max ops Q).2.
Proof.
  intros Hm Hops R Hd. destruct (run_ok max cs ops p Q Hm Hops R) as (k & p' & _ & Hr & R' & [->|(o & Ho & Hx)] & _).
  - rewrite firstn_all in Hr, R'. by exists p'.
  - by destruct (Hd o p' (list_elem_of_lookup_2 _ _ _ Ho)).
Qed.

Lemma rep_own max p A w1 w2 n1 n2 a : rep max p A -> wsis p !! w1 = Some n1 -> wsis p !! w2 = Some n2 ->
  http_ah n1 = Some a -> http_ah n2 = Some a -> w1 = w2.
Proof.
  intros R H1 H2 Ha1 Ha2.
  assert (held A !! w1 = Some a) as E1 by (apply (r_held _ _ _ R); cbn; rewrite lookup_fmap, H1; cbn; congruence).
  assert (held A !! w2 = Some a) as E2 by (apply (r_held _ _ _ R); cbn; rewrite lookup_fmap, H2; cbn; congruence).
  apply (r_owner _ _ _ R) in E1, E2. congruence.
Qed.

(** C27: A sequence of attaching and detaching header tables behaves like a
    bounded pool with a first-in first-out line: the memory with its two linked
    lists, its owners and its counters goes on representing the abstract
    state, the return values are the abstract ones, no assert fails, no counter
    overflows and no pointer dangles; at most [max_http_header_pool] tables are
    out, no two connections share one; and while memory lasts nobody stands in
    line when a table could be had.  This holds for the whole sequence, or up to
    an operation that is [disturbed]: one called with [autoservice] that gives a
    table to a connection with queued input and serves that input while the
    connection still stands in line, where the service itself uses the pool.
    The server detaches with [autoservice] when a request ends, so the code can
    get there, and then nothing is claimed ([detach_while_handed_over]: the
    assert can fail).  Of the service nothing is assumed. *)
Theorem ah_pool_refines max cs ops p Q :
  0 <= max < 2 ^ 31 -> Forall (valid max cs) ops -> represents max p cs Q ->
  exists k p', (k <= length ops)%nat /\ run (take k ops) p = Ok ((spec_run max (take k ops) Q).1, p') /\
    represents max p' cs (spec_run max (take k ops) Q).2 /\
    (k = length ops \/ exists o, ops !! k = Some o /\ disturbed o p') /\
    Z.of_nat (size (holders (spec_run max (take k ops) Q).2)) <= max /\
    (forall w1 w2 n1 n2 a, wsis p' !! w1 = Some n1 -> wsis p' !! w2 = Some n2 ->
       http_ah n1 = Some a -> http_ah n2 = Some a -> w1 = w2) /\
    (Forall (fun o => alloc_ok (op_config o) = true) ops -> busy max Q -> busy max (spec_run max (take k ops) Q).2).
Proof.
  intros Hm Hops R. destruct (run_ok max cs ops p Q Hm Hops R) as (k & p' & Hk & Hr & R' & Hend & HB).
  exists k, p'. split_and!; try done.
  - destruct R' as (A & R' & _ & <- & _). rewrite size_dom. pose proof (r_max _ _ _ R') as Hmax.
    by rewrite (r_count _ _ _ R') in Hmax.
  - destruct R' as (A & R' & _). intros w1 w2 n1 n2 a. by apply (rep_own max p' A).
Qed.

(** *** The line moves *)

Lemma spec_detach_holder h Q : h ∈ holders Q -> h ∉ line Q ->
  spec_detach h Q = match line Q with
                    | [] => mk_spec (holders Q ∖ {[h]}) []
                    | o :: q => mk_spec ({[o]} ∪ holders Q ∖ {[h]}) q
                    end.
Proof.
  intros Hh Hl. unfold spec_detach. cbn [holders leave]. rewrite bool_decide_eq_true_2 by done.
  cbn [line leave]. rewrite filter_all; [done|]. apply Forall_forall. by intros x Hx ->.
Qed.

Lemma spec_run_detach max C auto hs Q :
  NoDup hs -> (forall h, h ∈ hs -> h ∈ holders Q) -> (forall o, o ∈ line Q -> o ∉ holders Q) ->
  NoDup (line Q) -> (length hs <= length (line Q))%nat ->
  spec_run max ((fun h => Detach C h auto) <$> hs) Q =
  (replicate (length hs) 0,
   mk_spec (list_to_set (take (length hs) (line Q)) ∪ holders Q ∖ list_to_set hs) (drop (length hs) (line Q))).
Proof.
  revert Q. induction hs as [|h hs IH]; intros Q Hnd Hhs Hd Hl Hlen.
  - cbn. destruct Q as [H l]. cbn. f_equal. rewrite drop_0. f_equal. set_solver.
  - cbn [fmap list_fmap spec_run spec_op]. apply NoDup_cons in Hnd as [Hh Hnd].
    rewrite spec_detach_holder; [|apply Hhs; by left|intros Hx; apply (Hd h Hx), Hhs; by left].
    destruct (line Q) as [|o q] eqn:Hq; [cbn in Hlen; lia|]. apply NoDup_cons in Hl as [Ho Hl].
    rewrite IH; cbn [holders line].
    + cbn [length take drop list_to_set replicate]. f_equal. f_equal. set_solver.
    + done.
    + intros x Hx. assert (x <> h) by congruence. set_solver.
    + intros x Hx. assert (x <> o) by congruence. set_solver.
    + done.
    + cbn in Hlen. lia.
Qed.

(** C28: The pool is fair: when connections that hold tables give them back one
    after the other, as many of those in line as there are tables given back
    hold one afterwards, the ones that have waited longest, and the others keep
    their order.  Where the tables are given back with [autoservice], this holds
    of the first [k] of them, up to one whose heir has queued input that is
    served on the spot and whose service uses the pool; of the service nothing
    is assumed. *)
Theorem ah_pool_in_turn max cs C auto hs p Q :
  0 <= max < 2 ^ 31 -> max_http_header_pool C = max -> represents max p cs Q ->
  NoDup hs -> (forall h, h ∈ hs -> h ∈ holders Q /\ h ∈ cs) -> (length hs <= length (line Q))%nat ->
  exists k p', (k <= length hs)%nat /\
    run ((fun h => Detach C h auto) <$> take k hs) p = Ok (replicate k 0, p') /\
    represents max p' cs
      (mk_spec (list_to_set (take k (line Q)) ∪ holders Q ∖ list_to_set (take k hs)) (drop k (line Q))) /\
    (k = length hs \/ auto = true /\ exists h, hs !! k = Some h /\ disturbed (Detach C h auto) p').
Proof.
  intros Hm HC R Hnd Hhs Hlen.
  assert (Forall (valid max cs) ((fun h => Detach C h auto) <$> hs)) as Hops.
  { apply Forall_fmap, Forall_forall. intros h Hh. split; [done|]. by apply Hhs. }
  destruct (run_ok max cs _ p Q Hm Hops R) as (k & p' & Hk & Hr & R' & Hend & _). rewrite length_fmap in Hk.
  assert (NoDup (line Q)) as Hnl by (destruct R as (A & R & _ & _ & <-); apply (r_nodup _ _ _ R)).
  assert (length (take k hs) = k) as Hlk by (rewrite length_take; lia).
  assert (NoDup (take k hs)) as Hndk by (by apply (sublist_NoDup _ _ Hnd), sublist_take).
  assert (forall h, h ∈ take k hs -> h ∈ holders Q) as Hhk by (intros h Hh; by apply Hhs, (subseteq_take k hs)).
  pose proof (spec_run_detach max C auto (take k hs) Q Hndk Hhk
                (fun o => represents_disjoint max p cs Q o R) Hnl ltac:(lia)) as E.
  rewrite <- fmap_take, E, Hlk in Hr, R'. exists k, p'. split_and!; [done..|]. destruct Hend as [->|(o & Ho & Hd)].
  - left. by rewrite length_fmap.
  - right. apply list_lookup_fmap_Some in Ho as (h & -> & Hh). split; [apply Hd|by exists h].
Qed.

(** A table that is given back while others wait goes to the one that has
    waited longest, without a trace of the old request: it is the same table
    with everything the parser recorded reset, the new owner's headers are not
    complete, and its socket is listened to again. *)
Theorem ah_handover max cs C w p Q a t n o ws :
  0 <= max < 2 ^ 31 -> represents max p cs Q -> w ∈ cs ->
  wsis p !! w = Some n -> http_ah n = Some a -> ahs p !! a = Some t -> line Q = o :: ws ->
  exists p' n' t', __lws_header_table_detach C w false p = Ok (0, p') /\
    wsis p' !! o = Some n' /\ http_ah n' = Some a /\ hdr_parsing_completed n' = false /\
    (in_fds_table n' = true -> Z.testbit (events n') 0 = true) /\
    ahs p' !! a = Some t' /\ table t' = P._lws_header_table_reset (table t).
Proof.
  intros Hm (A & R & <- & _ & HQ) Hw Hn Ha Ht Hl.
  assert (held A !! w = Some a) as Hh by (apply (r_held _ _ _ R); cbn; rewrite lookup_fmap, Hn; cbn; congruence).
  assert (waiting (dequeue w A) = o :: ws) as Hws.
  { rewrite dequeue_out; [congruence|]. intros Hx. apply (r_waiter _ _ _ R) in Hx. congruence. }
  destruct (detach_ok max (with_service (calm C) C) (calm_shape C) Hm p A w false R Hw) as (p' & Hd & _ & Hg).
  change (do_op (calmed (Detach C w false)) p = Ok (0, p')) in Hd.
  destruct (op_calm (Detach C w false) p) as [E|[? _]]; [rewrite <- E in Hd; cbn [do_op] in Hd|done].
  destruct (Hg a t o ws Hh Ht Hws) as (n' & Hn' & Ha' & Hev & Hr). destruct (Hr eq_refl) as (Hc & t' & Ht' & Hres).
  exists p', n', t'. split_and!; [exact Hd|exact Hn'|exact Ha'|exact Hc|exact Hev|exact Ht'|exact Hres].
Qed.

(** ** A pool to start with *)

(** [struct lws_pt_role_http] as the context zeroes it. *)
Definition fresh_pool (m : gmap loc wsi) : pool := mk_pool m ∅ None None 0 0 0.

Definition fresh_wsi (n : wsi) : Prop := http_ah n = None /\ http_ah_wait_list n = None /\ is_server n = true.

Lemma represents_fresh max m : 0 <= max -> map_Forall (fun _ n => fresh_wsi n) m -> Z.of_nat (size (dom m)) < 2 ^ 31 ->
  represents max (fresh_pool m) (dom m) (mk_spec ∅ []).
Proof.
  intros Hm Hf Hs. exists (mk_queue (dom m) ∅ []). split; [|by split_and!].
  assert (forall w {B} (f : wsi -> B) v, (f <$> m) !! w = Some v -> exists n, fresh_wsi n /\ f n = v) as Hfm.
  { intros w B f v. rewrite lookup_fmap. destruct (m !! w) as [n|] eqn:Hn; [|done]. intros [= <-].
    exists n. split; [by apply (Hf w)|done]. }
  split; cbn; try done.
  - constructor.
  - intros w Hw. by apply elem_of_nil in Hw.
  - intros w v (n & (_ & Hv & _) & <-)%Hfm _. done.
  - intros w b (n & (_ & _ & Hb) & <-)%Hfm. done.
  - intros w a. rewrite lookup_empty. split; [done|]. by intros (n & (Hv & _ & _) & E)%Hfm; congruence.
  - exists []. split_and!; [done|constructor| |done]. intros a. rewrite lookup_fmap, lookup_empty.
    split; [by intros [? ?]|by intros ?%elem_of_nil].
Qed.

(** Four connections, three of them in the poll set, one with queued input. *)
Definition sample_wsi (fds : bool) (queued : Z) : wsi := mk_wsi None None true false fds LWS_POLLIN 0 queued true None.

Definition sample_wsis : gmap loc wsi :=
  <[1%positive := sample_wsi true 0]> (<[2%positive := sample_wsi true 5]> (<[3%positive := sample_wsi false 0]>
    (<[4%positive := sample_wsi true 0]> ∅))).

Definition sample_config (max : Z) : config :=
  mk_config max 10 1000 true (Some (replicate 64 170)) (fun _ p => Ok p) (fun _ p => Ok (true, p)).

(** Its service leaves the pool alone. *)
Lemma sample_alone max ops (o : op) q :
  Forall (fun o => op_config o = sample_config max) ops -> o ∈ ops -> ~ disturbed o q.
Proof.
  intros Hops Ho (_ & w & n & q' & _ & _ & _ & _ & _ & Hd). rewrite Forall_forall in Hops.
  unfold disturbs in Hd. by rewrite (Hops o Ho) in Hd.
Qed.

Definition sample_ops : list op :=
  let C := sample_config 1 in
  [Attach C 1 false; Attach C 2 false; Attach C 3 false; Attach C 2 false; Detach C 1 true; Detach C 3 false]%positive.

Example ah_pool_ex1 : spec_run 1 sample_ops (mk_spec ∅ []) = ([0; 1; 1; 1; 0; 0], mk_spec {[2%positive]} []).
Proof. vm_compute. reflexivity. Qed.

Lemma represents_sample max : 0 <= max -> represents max (fresh_pool sample_wsis) (dom sample_wsis) (mk_spec ∅ []).
Proof.
  intros Hm. apply represents_fresh; [done| |vm_compute; reflexivity].
  intros w n Hn. unfold sample_wsis in Hn.
  repeat (rewrite lookup_insert_Some in Hn; destruct Hn as [[<- <-]|[_ Hn]]; [by split_and!|]). done.
Qed.

(** The fifth operation serves the queued input of the second connection. *)
Example ah_pool_refines_witness :
  Forall (valid 1 (dom sample_wsis)) sample_ops /\
  exists p', run sample_ops (fresh_pool sample_wsis) = Ok ([0; 1; 1; 1; 0; 0], p') /\
    represents 1 p' (dom sample_wsis) (mk_spec {[2%positive]} []).
Proof.
  assert (Forall (valid 1 (dom sample_wsis)) sample_ops) as Hv.
  { repeat (apply Forall_cons; split; [split; [done|vm_compute; reflexivity]|]). by apply Forall_nil. }
  split; [exact Hv|].
  destruct (ah_pool_refines 1 (dom sample_wsis) sample_ops (fresh_pool sample_wsis) (mk_spec ∅ []) ltac:(lia) Hv
              (represents_sample 1 ltac:(lia))) as (k & p' & _ & Hr & R' & [->|(o & Ho & Hd)] & _).
  - rewrite firstn_all in Hr, R'. exists p'. rewrite ah_pool_ex1 in Hr, R'. split; [exact Hr|exact R'].
  - exfalso. apply list_elem_of_lookup_2 in Ho. revert Ho Hd. apply (sample_alone 1). unfold sample_ops.
    repeat (apply Forall_cons; split; [reflexivity|]). by apply Forall_nil.
Defined.

(** Two tables, four connections that want one. *)
Definition crowd : list op :=
  let C := sample_config 2 in [Attach C 1 false; Attach C 2 false; Attach C 3 false; Attach C 4 false]%positive.

Lemma crowd_served : exists p, run crowd (fresh_pool sample_wsis) = Ok ([0; 0; 1; 1], p) /\
  represents 2 p (dom sample_wsis) (mk_spec {[1%positive; 2%positive]} [3; 4]%positive).
Proof.
  destruct (run_alone 2 (dom sample_wsis) crowd (fresh_pool sample_wsis) (mk_spec ∅ [])) as (p & Hr & R);
    [lia| |by apply represents_sample| |].
  - repeat (apply Forall_cons; split; [split; [done|vm_compute; reflexivity]|]). by apply Forall_nil.
  - intros o q. apply (sample_alone 2). unfold crowd. repeat (apply Forall_cons; split; [reflexivity|]). by apply Forall_nil.
  - exists p. assert (spec_run 2 crowd (mk_spec ∅ []) = ([0; 0; 1; 1], mk_spec {[1%positive; 2%positive]} [3; 4]%positive)) as E
      by (vm_compute; reflexivity). rewrite E in Hr, R. by split.
Qed.

Example ah_pool_in_turn_witness : exists p p',
  run crowd (fresh_pool sample_wsis) = Ok ([0; 0; 1; 1], p) /\
  run ((fun h => Detach (sample_config 2) h false) <$> [2; 1]%positive) p = Ok ([0; 0], p') /\
  represents 2 p' (dom sample_wsis) (mk_spec {[3%positive; 4%positive]} []).
Proof.
  destruct crowd_served as (p & Hr & R). exists p.
  destruct (ah_pool_in_turn 2 (dom sample_wsis) (sample_config 2) false [2; 1]%positive p _ ltac:(lia) eq_refl R)
    as (k & p' & _ & Hd & R' & [->|[? _]]).
  - by apply (bool_decide_unpack _); vm_compute.
  - intros h [->| ->%list_elem_of_singleton]%elem_of_cons; split; set_solver.
  - done.
  - exists p'. rewrite firstn_all in Hd, R'. split; [exact Hr|]. split; [exact Hd|].
    assert (mk_spec {[3%positive; 4%positive]} [] =
      mk_spec (list_to_set (take 2 [3; 4]%positive) ∪ {[1%positive; 2%positive]} ∖ list_to_set [2; 1]%positive)
        (drop 2 [3; 4]%positive)) as -> by (vm_compute; reflexivity). exact R'.
  - discriminate.
Defined.

Example ah_handover_witness : exists p a p' n' t',
  run crowd (fresh_pool sample_wsis) = Ok ([0; 0; 1; 1], p) /\
  __lws_header_table_detach (sample_config 2) 2 false p = Ok (0, p') /\
  wsis p' !! 3%positive = Some n' /\ http_ah n' = Some a /\ hdr_parsing_completed n' = false /\ ahs p' !! a = Some t'.
Proof.
  destruct crowd_served as (p & Hr & R). pose proof R as (A & RA & _ & HA & _).
  assert (2%positive ∈ dom (held A)) as [a Ha]%elem_of_dom by (rewrite HA; cbn; set_solver).
  destruct (rep_holder 2 p A 2%positive a RA Ha) as (n & t & Hn & Hna & _ & Ht & _).
  destruct (ah_handover 2 (dom sample_wsis) (sample_config 2) 2%positive p _ a t n 3%positive [4%positive] ltac:(lia)
              R ltac:(vm_compute; reflexivity) Hn Hna Ht eq_refl)
    as (p' & n' & t' & Hd & Hn' & Ha' & Hc & _ & Ht' & _).
  exists p, a, p', n', t'. exact (conj Hr (conj Hd (conj Hn' (conj Ha' (conj Hc Ht'))))).

Defined.

(** ** Detaching while a table is handed over

    The new owner is still in the waiting list while its queued input is
    served.  When serving it gives the table back, which an upgrade or a closing
    does, it leaves the list twice: the length goes below zero and the assert
    on it fails. *)
Definition detaching_config : config :=
  mk_config 1 10 1000 true (Some (replicate 64 170))
    (fun w p => '(_, p) ← __lws_header_table_detach (sample_config 1) w false p; Ok p) (fun _ p => Ok (true, p)).

Example detach_while_handed_over :
  run [Attach (sample_config 1) 1 false; Attach (sample_config 1) 2 false]%positive (fresh_pool sample_wsis) ≫=
    (fun r => __lws_header_table_detach detaching_config 1%positive true r.2) = Err assert_failed.
Proof. vm_compute. reflexivity. Qed.

End AhPoolProof.
