(* ===== verification/Service.v ===== *)
(** * Servicing a connection (libwebsockets lib/core-net/service.c, lib/roles/h1/ops-h1.c, lib/roles/ws/ops-ws.c)

    What happens when poll reports a server connection ready: the dispatch
    [lws_service_fd_tsi], the POLLIN handlers of the HTTP/1 and the WebSocket
    role with [lws_read_h1] between them and the parsers, the queue of bytes
    that were read and not consumed, receive flow control, and POLLOUT.  The
    socket is the list of what will arrive on it; reading takes from its front,
    so the order and the cutting of the input are explicit.

    What the rest of the library and the user do is an argument: serving plain
    HTTP, completing a transaction, the pool of header tables, the user's
    writing in its writable callback. *)

From S2P Require Import Prelude CLib Buflist HttpLex HttpParse WsState WsRx WsTx Upgrade HttpServer HttpHeader.

Module Service.
Import Ws.
Module S := HttpServer.

Inductive role_t := ROLE_H1 | ROLE_WS | ROLE_H2 | ROLE_RAW.

#[global] Instance role_eq_dec : EqDecision role_t.
Proof. solve_decision. Defined.

(** [LWS_POLLIN], [LWS_POLLOUT], [LWS_POLLHUP] of include/libwebsockets.h *)
Definition LWS_POLLIN : Z := 1.
Definition LWS_POLLOUT : Z := 4.
Definition LWS_POLLHUP : Z := 24.

(** What a handler of POLLIN answers; [LWS_HPI_RET_minus_one] is the bare -1
    one of them returns. *)
Inductive hpi_ret :=
| LWS_HPI_RET_WSI_ALREADY_DIED | LWS_HPI_RET_HANDLED | LWS_HPI_RET_PLEASE_CLOSE_ME | LWS_HPI_RET_minus_one.

(** The members of a server connection the service functions use, around
    those of the parsers. *)
Record swsi := mk_swsi {
  conn : S.conn;
  role : role_t;
  ah_attached : bool;              (* wsi->http.ah *)
  favoured_pollin : bool;
  seen_zero_length_recv : bool;
  handling_pollout : bool;
  leave_pollout_active : bool;
  on_buflist_list : bool;          (* wsi->dll_buflist is in its list *)
  rxflow_change_to : Z;
  rx_content_length : Z;
  rx_content_remain : Z;
  htx : HttpHeader.http_tx;
  serv_buf : bytes;                (* pt->serv_buf *)
  events : Z;                      (* of its entry in the poll set *)
  closed : bool                    (* lws_close_free_wsi was called *)
}.

Definition wsw (s : swsi) : lws := S.ws (conn s).
Definition wstate (s : swsi) : lwsi_state_t := state (wsw s).

(** Assignment to one member. *)
Ltac ssetter proj :=
  let e := constr:(fun s : swsi =>
    mk_swsi (conn s) (role s) (ah_attached s) (favoured_pollin s) (seen_zero_length_recv s)
      (handling_pollout s) (leave_pollout_active s) (on_buflist_list s) (rxflow_change_to s)
      (rx_content_length s) (rx_content_remain s) (htx s) (serv_buf s) (events s) (closed s)) in
  let g := eval pattern proj in e in
  match g with ?f _ => let r := eval cbv beta in (fun v s => f (fun _ => v) s) in exact r end.

Definition set_conn : S.conn -> swsi -> swsi := ltac:(ssetter conn).
Definition set_role : role_t -> swsi -> swsi := ltac:(ssetter role).
Definition set_ah_attached : bool -> swsi -> swsi := ltac:(ssetter ah_attached).
Definition set_favoured_pollin : bool -> swsi -> swsi := ltac:(ssetter favoured_pollin).
Definition set_seen_zero_length_recv : bool -> swsi -> swsi := ltac:(ssetter seen_zero_length_recv).
Definition set_handling_pollout : bool -> swsi -> swsi := ltac:(ssetter handling_pollout).
Definition set_leave_pollout_active : bool -> swsi -> swsi := ltac:(ssetter leave_pollout_active).
Definition set_on_buflist_list : bool -> swsi -> swsi := ltac:(ssetter on_buflist_list).
Definition set_rxflow_change_to : Z -> swsi -> swsi := ltac:(ssetter rxflow_change_to).
Definition set_rx_content_length : Z -> swsi -> swsi := ltac:(ssetter rx_content_length).
Definition set_rx_content_remain : Z -> swsi -> swsi := ltac:(ssetter rx_content_remain).
Definition set_htx : HttpHeader.http_tx -> swsi -> swsi := ltac:(ssetter htx).
Definition set_serv_buf : bytes -> swsi -> swsi := ltac:(ssetter serv_buf).
Definition set_events : Z -> swsi -> swsi := ltac:(ssetter events).
Definition set_closed : bool -> swsi -> swsi := ltac:(ssetter closed).

Definition set_ws (w : lws) (s : swsi) : swsi :=
  let c := conn s in set_conn (S.mk_conn (S.http c) w (S.vh c) (S.protocol c)) s.

Definition set_hdr_parsing_completed (b : bool) (s : swsi) : swsi :=
  let c := conn s in let h := S.http c in
  set_conn (S.set_http (HttpParse.mk_wsi (HttpParse.ah h) (HttpParse.rx_frame_type h) b (HttpParse.statuses h)) c) s.

Definition hdr_parsing_completed (s : swsi) : bool := HttpParse.hdr_parsing_completed (S.http (conn s)).

(** The state values carry a bit for the states in which POLLOUT is handled:
    [lwsi_state_can_handle_POLLOUT]. *)
Definition lwsi_state_can_handle_POLLOUT (s : swsi) : bool :=
  match wstate s with
  | LRS_H2_AWAIT_SETTINGS | LRS_H2_CLIENT_SEND_SETTINGS | LRS_H2_WAITING_TO_SEND_HEADERS | LRS_DEFERRING_ACTION
  | LRS_ESTABLISHED | LRS_DOING_TRANSACTION | LRS_WAITING_TO_SEND_CLOSE | LRS_RETURNED_CLOSE
  | LRS_AWAITING_CLOSE_ACK | LRS_FLUSHING_BEFORE_CLOSE => true
  | _ => false
  end.

(** ** The socket *)

(** What arrives: bytes, the end of the stream, or a failing read. *)
Inductive arrival := Arrived (b : bytes) | Peer_closed | Recv_failed (again : bool).

#[global] Instance arrival_eq_dec : EqDecision arrival.
Proof. solve_decision. Defined.

Definition LWS_SSL_CAPABLE_ERROR : Z := -1.
Definition LWS_SSL_CAPABLE_MORE_SERVICE : Z := -4.

(** [recv] of at most [n] bytes: the return value and what was read. *)
Definition recv (n : Z) (sock : list arrival) : Z * bool * bytes * list arrival :=
  match sock with
  | [] => (-1, true, [], [])
  | Arrived b :: l =>
    let t := take (Z.to_nat n) b in
    (len t, false, t, match drop (Z.to_nat n) b with [] => l | d => Arrived d :: l end)
  | Peer_closed :: _ => (0, false, [], sock)
  | Recv_failed again :: l => (-1, again, [], l)
  end.

(** [lws_ssl_capable_read_no_ssl]; the end of the stream is an error. *)
Definition lws_ssl_capable_read_no_ssl (n : Z) (sock : list arrival) : Z * bytes * list arrival :=
  let '(n, again, b, sock) := recv n sock in
  if n >=? 0 then if n =? 0 then (LWS_SSL_CAPABLE_ERROR, [], sock) else (n, b, sock)
  else ((if again then LWS_SSL_CAPABLE_MORE_SERVICE else LWS_SSL_CAPABLE_ERROR), [], sock).

(** ** The arguments *)

Record answers := mk_answers {
  an_parse : HttpParse.parse_env;
  an_env : env;
  an_server : S.server_answers;
  an_serve_http : S.handshake_end -> swsi -> res S.server_fault (Z * swsi);   (* lws_http_action, the h2c upgrade *)
  an_transaction_completed : swsi -> res S.server_fault (Z * swsi);   (* lws_http_transaction_completed *)
  an_file_fragment : swsi -> Z * swsi;                    (* lws_serve_http_file_fragment *)
  an_attach : option bytes;       (* the pool gives a header table; what the allocator left in its data *)
  an_ah_idle : Z;                 (* vhost->timeout_secs_ah_idle *)
  an_change_mode : bool;          (* protocol 0 accepts LWS_CALLBACK_CHANGE_MODE_POLL_FD *)
  an_send : WsTx.send_answer;          (* the kernel at a write *)
  an_random : bytes;              (* the random source *)
  an_writeable : lws -> res exn (Z * lws);  (* the user's writable callback, with what it writes *)
  an_other_role : Z -> Z -> list arrival -> swsi -> res S.server_fault (hpi_ret * list arrival * swsi)
                                  (* handle_POLLIN of the other roles *)
}.

Definition lift {A} (r : res exn A) : res S.server_fault A := S.lift_exn r.

Section Serve.
Context (A : answers).

#[local] Abbreviation E := (an_env A).

(** ** The poll set entry *)

(** [_lws_change_pollfd] on a connection that is in the poll set, in the
    service thread. *)
Definition _lws_change_pollfd (_and _or : Z) (s : swsi) : Z * swsi :=
  if handling_pollout s && (_and =? 0) && (_or =? LWS_POLLOUT) then (0, set_leave_pollout_active true s)
  else
    let s := set_events (Z.lor (Z.ldiff (events s) _and) _or) s in
    (if an_change_mode A then 0 else -1, s).

(** [lws_callback_on_writable] *)
Definition lws_callback_on_writable (s : swsi) : Z * swsi :=
  if bool_decide (wstate s = LRS_SHUTDOWN) then (0, s)
  else if socket_is_permanently_unusable (wsw s) then (0, s)
  else let '(r, s) := _lws_change_pollfd 0 LWS_POLLOUT s in (if nz r then -1 else 1, s).

(** A function of the role has run on the connection: its requests for the
    writable callback reach the poll set. *)
Definition on_writable_requests (tr : list event) (s : swsi) : swsi :=
  fold_left (fun s e => match e with OnWritable => (lws_callback_on_writable s).2 | _ => s end) tr s.

Definition ran (w : lws) (s : swsi) : swsi :=
  on_writable_requests (drop (length (trace (wsw s))) (trace w)) (set_ws w s).

(** ** Receive flow control *)

Definition LWS_RXFLOW_ALLOW : Z := 1.
Definition LWS_RXFLOW_PENDING_CHANGE : Z := 2.
Definition LWS_RXFLOW_REASON_USER_BOOL : Z := 1.
Definition LWS_RXFLOW_REASON_APPLIES : Z := 16384.
Definition LWS_RXFLOW_REASON_APPLIES_ENABLE_BIT : Z := 8192.
Definition LWS_RXFLOW_REASON_FLAG_PROCESS_NOW : Z := 4096.

Definition lws_is_flowcontrolled (s : swsi) : bool := nz (rxflow_bitmap (wsw s)).

(** The length of the head of the queue of unconsumed input. *)
Definition buflist_len (s : swsi) : res S.server_fault (Z * option bytes * swsi) :=
  '(n, b, l) ← lift (Buflist.lws_buflist_next_segment_len (buflist (wsw s)));
  Ok (n, b, set_ws (set_buflist l (wsw s)) s).

(** [__lws_rx_flow_control] on a connection without children. *)
Definition __lws_rx_flow_control (s : swsi) : res S.server_fault (Z * swsi) :=
  if negb (nz (Z.land (rxflow_change_to s) LWS_RXFLOW_PENDING_CHANGE)) then Ok (0, s)
  else
    '(n, _, s) ← buflist_len s;
    let s := if nz n then (lws_callback_on_writable s).2 else s in
    let s := set_rxflow_change_to (Z.ldiff (rxflow_change_to s) LWS_RXFLOW_PENDING_CHANGE) s in
    let '(r, s) := if nz (Z.land (rxflow_change_to s) LWS_RXFLOW_ALLOW)
                   then _lws_change_pollfd 0 LWS_POLLIN s else _lws_change_pollfd LWS_POLLIN 0 s in
    Ok (if nz r then -1 else 0, s).

(** [lws_rx_flow_control], outside of a user callback. *)
Definition lws_rx_flow_control (_enable : Z) (s : swsi) : res S.server_fault (Z * swsi) :=
  let en :=
    if negb (nz (Z.land _enable LWS_RXFLOW_REASON_APPLIES)) then
      Z.lor (Z.lor LWS_RXFLOW_REASON_APPLIES LWS_RXFLOW_REASON_USER_BOOL)
        (if nz (Z.land _enable 1) then LWS_RXFLOW_REASON_APPLIES_ENABLE_BIT else 0)
    else _enable in
  let bm := rxflow_bitmap (wsw s) in
  let bm := if nz (Z.land en LWS_RXFLOW_REASON_APPLIES_ENABLE_BIT)
            then Z.ldiff bm (Z.land en 255) else Z.lor bm (Z.land en 255) in
  let s := set_ws (set_rxflow_bitmap bm (wsw s)) s in
  let to := Z.lor LWS_RXFLOW_PENDING_CHANGE (if nz bm then 0 else 1) in
  if to =? rxflow_change_to s then Ok (0, s) else __lws_rx_flow_control (set_rxflow_change_to to s).

(** ** Input that was read and not consumed

    What is read from the socket is in the service buffer, at its start; what
    is left of it is taken from there when it is needed, by which time a
    response may have been built over it. *)

Definition load (b : bytes) (s : swsi) : swsi := set_serv_buf (list_inserts 0 b (serv_buf s)) s.

(** The bytes behind the first [used] of the input [b], which is the head of
    the queue when [buffered]. *)
Definition remaining (buffered : bool) (b : bytes) (used : Z) (s : swsi) : bytes :=
  drop (Z.to_nat used) (if buffered then b else take (length b) (serv_buf s)).

(** [lws_buflist_aware_read]: the return value, [ebuf->len], [ebuf->token]. *)
Definition lws_buflist_aware_read (sock : list arrival) (s : swsi)
  : res S.server_fault (Z * Z * bytes * list arrival * swsi) :=
  '(prior, _, s) ← buflist_len s;
  let '(n, b, sock) := lws_ssl_capable_read_no_ssl (pt_serv_buf_size E) sock in
  let s := load b s in
  let from_buflist s :=
    '(n, b, s) ← buflist_len s; Ok (1, s32 n, default [] b, sock, s) in
  if (n =? LWS_SSL_CAPABLE_MORE_SERVICE) && nz prior then from_buflist s
  else if n <=? 0 then Ok (0, n, b, sock, s)
  else if negb (nz prior) then Ok (0, n, b, sock, s)
  else
    '(m, l) ← lift (Buflist.lws_buflist_append_segment true (buflist (wsw s)) b);
    let s := set_ws (set_buflist l (wsw s)) s in
    if m <? 0 then Ok (-1, n, b, sock, s)
    else from_buflist (if nz m then set_on_buflist_list true s else s).

(** [lws_buflist_aware_consume]; [b] is what [ebuf] holds. *)
Definition lws_buflist_aware_consume (b : bytes) (used : Z) (buffered : bool) (s : swsi)
  : res S.server_fault (Z * swsi) :=
  if (used =? 0) && buffered then Ok (0, s)
  else if nz used && buffered then
    '(m, l) ← lift (Buflist.lws_buflist_use_segment (buflist (wsw s)) used);
    let s := set_ws (set_buflist l (wsw s)) s in
    Ok (0, if nz m then s else set_on_buflist_list false s)
  else if negb (used =? len b) then
    '(m, l) ← lift (Buflist.lws_buflist_append_segment true (buflist (wsw s)) (remaining false b used s));
    let s := set_ws (set_buflist l (wsw s)) s in
    if m <? 0 then Ok (1, s) else Ok (0, if nz m then set_on_buflist_list true s else s)
  else Ok (0, s).

(** ** Reading *)

(** [lws_close_free_wsi], as far as the callers see. *)
Definition lws_close_free_wsi (s : swsi) : swsi := set_closed true s.

(** [bail:] of [lws_read_h1] *)
Definition read_bail (s : swsi) : res S.server_fault (Z * swsi) := Ok (-1, lws_close_free_wsi s).

(** [__lws_header_table_reset], without service of queued input. *)
Definition header_table_reset (s : swsi) : swsi :=
  let c := conn s in
  let s := set_conn (S.set_http (HttpParse.set_ah (HttpParse._lws_header_table_reset (HttpParse.ah (S.http c))) (S.http c)) c) s in
  let s := set_hdr_parsing_completed false s in
  set_ws (emit (SetTimeout (an_ah_idle A)) (wsw s)) s.

(** [lws_header_table_attach] without service of queued input, as far as this
    connection is concerned: its table is new, or it has to wait for one. *)
Definition lws_header_table_attach (s : swsi) : Z * swsi :=
  if ah_attached s then (0, header_table_reset s)
  else
    match an_attach A with
    | None => (1, (_lws_change_pollfd LWS_POLLIN 0 s).2)
    | Some d =>
      let c := conn s in
      let s := set_conn (S.set_http (HttpParse.set_ah (HttpParse._lws_create_ah d) (S.http c)) c) (set_ah_attached true s) in
      (0, header_table_reset (_lws_change_pollfd 0 LWS_POLLIN s).2)
    end.

(** A callback of the user outside of the WebSocket role. *)
Definition callback (r : callback_reason) (p : bytes) (s : swsi) : Z * swsi :=
  let '(n, w) := (user_callback E (trace (wsw s)) r p, emit (Callback r p) (wsw s)) in (n, set_ws w s).

(** [postbody_completion:] *)
Definition postbody_completion (used : Z) (s : swsi) : res S.server_fault (Z * swsi) :=
  let s := set_ws (emit (SetTimeout 0) (wsw s)) s in
  if bool_decide (wstate s = LRS_DISCARD_BODY) then
    '(n, s) ← an_transaction_completed A s; if nz n then Ok (-1, s) else Ok (used, s)
  else
    let '(n, s) := callback LWS_CALLBACK_HTTP_BODY_COMPLETION [] s in
    if nz n then read_bail s else Ok (used, s).

(** [http_postbody:], with [used] bytes of the input gone and [buf] left. *)
Definition http_postbody (used : Z) (buf : bytes) (s : swsi) : res S.server_fault (Z * swsi) :=
  if rx_content_remain s =? 0 then postbody_completion used s
  else if len buf =? 0 then Ok (used, s)
  else
    let body_chunk_len := Z.min (rx_content_remain s) (len buf) in
    let s := set_rx_content_remain (rx_content_remain s - body_chunk_len) s in
    let '(n, s) := if negb (bool_decide (wstate s = LRS_DISCARD_BODY))
                   then callback LWS_CALLBACK_HTTP_BODY (take (Z.to_nat body_chunk_len) buf) s else (0, s) in
    if nz n then read_bail s
    else
      let used := used + body_chunk_len in
      if nz (rx_content_remain s) then Ok (used, set_ws (emit (SetTimeout (timeout_secs E)) (wsw s)) s)
      else postbody_completion used s.

(** [ws_mode:]; [inside]: [buf] is the head of the queue. *)
Definition ws_mode (inside : bool) (buf : bytes) (s : swsi) : res S.server_fault (Z * swsi) :=
  if bool_decide (role s = ROLE_WS) then
    '(r, used, w) ← lift (WsRx.lws_parse_ws E inside buf (wsw s));
    let s := ran w s in
    if r <? 0 then read_bail s else Ok (used, s)
  else Ok (0, s).

(** The role after the handshake, and the response it built in the service
    buffer. *)
Definition handshake_role (e : S.handshake_end) (s : swsi) : swsi :=
  match e with
  | S.Upgraded_ws =>
    let c := conn s in let U := S.s_upgrade (an_server A) in
    let pname := match S.protocol c with Some p => default None (S.v_protocols (S.vh c) !! p) | None => None end in
    set_serv_buf (Upgrade.handshake_serv_buf E (S.table_of (HttpParse.ah (S.http c))) pname
                    (default [] (Upgrade.a_add_headers U)) (serv_buf s)) (set_role ROLE_WS s)
  | S.Raw_fallback => set_role ROLE_RAW s
  | _ => s
  end.

(** [LRS_HEADERS]: the bytes are a request. *)
Definition read_headers (inside : bool) (buf : bytes) (s : swsi) : res S.server_fault (Z * swsi) :=
  if negb (ah_attached s) then Err (S.program_fault assertion_failed)
  else
    '(e, rest, c) ← S.lws_handshake_server (an_parse A) E (an_server A) buf (conn s);
    let s := handshake_role e (on_writable_requests (drop (length (trace (wsw s))) (trace (S.ws c))) (set_conn c s)) in
    let used := len buf - len rest in
    match e with
    | S.Bail => read_bail (set_ah_attached false s)
    | S.Raw_fallback => Ok (len buf, s)
    | _ =>
      '(n, s) ← match e with
                | S.Http_action | S.Upgrade_h2c | S.After_forbidden => an_serve_http A e s
                | _ => Ok (0, s)
                end;
      if nz n then read_bail s
      else if negb (hdr_parsing_completed s) then Ok (used, s)
      else if bool_decide (wstate s ∈ [LRS_DISCARD_BODY; LRS_BODY]) then
        let s := set_rx_content_remain (rx_content_length s) s in
        if nz (rx_content_remain s) then http_postbody used (remaining inside buf used s) s
        else postbody_completion used s
      else Ok (used, s)
    end.

(** [lws_read_h1] on a server connection: the number of bytes consumed, or -1
    and the connection closed. *)
Definition lws_read_h1 (inside : bool) (buf : bytes) (s : swsi) : res S.server_fault (Z * swsi) :=
  match wstate s with
  | LRS_ISSUING_FILE => Ok (0, s)
  | LRS_ESTABLISHED =>
    if bool_decide (role s = ROLE_WS) then ws_mode inside buf s
    else read_headers inside buf (set_hdr_parsing_completed false s)
  | LRS_HEADERS => read_headers inside buf s
  | LRS_DISCARD_BODY | LRS_BODY => http_postbody 0 buf s
  | LRS_RETURNED_CLOSE | LRS_AWAITING_CLOSE_ACK | LRS_WAITING_TO_SEND_CLOSE | LRS_SHUTDOWN => ws_mode inside buf s
  | LRS_DEFERRING_ACTION | LRS_SSL_ACK_PENDING => Ok (0, s)
  | LRS_DEAD_SOCKET => read_bail s
  | _ => Err (S.program_fault assertion_failed)
  end.

(** ** POLLOUT of a WebSocket connection *)

Definition pollout_done (r : Z) (s : swsi) : res S.server_fault (Z * swsi) :=
  Ok (r, set_leave_pollout_active false (set_handling_pollout false s)).

(** After the role had nothing to write: one-shot POLLOUT and the user. *)
Definition pollout_user (s : swsi) : res S.server_fault (Z * swsi) :=
  let eff := leave_pollout_active s in
  let '(r, s) := if negb eff then _lws_change_pollfd LWS_POLLOUT 0 s else (0, s) in
  if nz r then pollout_done (-1) s
  else
    let s := set_handling_pollout false s in
    let '(r, s) := if negb eff && leave_pollout_active s then _lws_change_pollfd 0 LWS_POLLOUT s else (0, s) in
    if nz r then pollout_done (-1) s
    else
      let s := set_leave_pollout_active false s in
      '(n, w) ← lift (an_writeable A (wsw s));
      let s := ran w s in
      '(n, s) ← (if n =? 0 then __lws_rx_flow_control s else Ok (n, s));
      let s := set_handling_pollout false s in
      let '(r, s) := if leave_pollout_active s then _lws_change_pollfd 0 LWS_POLLOUT s else (0, s) in
      if nz r then pollout_done (-1) s else Ok (n, s).

(** [lws_handle_POLLOUT_event] with a poll set entry. *)
Definition lws_handle_POLLOUT_event (s : swsi) : res S.server_fault (Z * swsi) :=
  let s := set_handling_pollout true (set_leave_pollout_active false s) in
  let s := set_ws (set_could_have_pending false (wsw s)) s in
  if WsTx.lws_has_buffered_out (wsw s) then
    '(n, w) ← lift (WsTx.lws_issue_raw E (an_send A) None (wsw s));
    pollout_done (if n <? 0 then -1 else 0) (ran w s)
  else if bool_decide (wstate s = LRS_FLUSHING_BEFORE_CLOSE) then
    pollout_done (-1) (set_ws (set_socket_is_permanently_unusable true (wsw s)) s)
  else
    '(r, w) ← lift (WsTx.rops_handle_POLLOUT_ws E (an_send A) (an_random A) (wsw s));
    let s := ran w s in
    match r with
    | WsTx.LWS_HP_RET_BAIL_OK => pollout_done 0 s
    | WsTx.LWS_HP_RET_BAIL_DIE => pollout_done (-1) s
    | WsTx.LWS_HP_RET_USER_SERVICE => pollout_user s
    end.

(** ** POLLIN and POLLOUT of an HTTP/1 server connection *)

(** [fail:] of [lws_h1_server_socket_service] *)
Definition h1_fail (sock : list arrival) (s : swsi) : res S.server_fault (hpi_ret * list arrival * swsi) :=
  Ok (LWS_HPI_RET_WSI_ALREADY_DIED, sock, lws_close_free_wsi s).

Definition handled (sock : list arrival) (s : swsi) : res S.server_fault (hpi_ret * list arrival * swsi) :=
  Ok (LWS_HPI_RET_HANDLED, sock, s).

(** [lws_issue_raw] on what is queued for output: a transaction that was
    completed while output was queued is completed when the last of it has
    gone, in place of asking for another callback. *)
Definition issue_queued (s : swsi) : res S.server_fault (Z * swsi) :=
  '(n, w) ← lift (WsTx.lws_issue_raw E (an_send A) None (wsw s));
  if HttpHeader.deferred_transaction_completed (htx s) && negb (WsTx.lws_has_buffered_out w) && (0 <=? n) then
    let s := set_htx (HttpHeader.set_deferred_transaction_completed false (htx s)) s in
    '(r, s) ← an_transaction_completed A (ran (set_trace (removelast (trace w)) w) s);
    Ok (if nz r then -1 else n, s)
  else Ok (n, ran w s).

(** [try_pollout:] *)
Definition try_pollout (revents : Z) (sock : list arrival) (s : swsi)
  : res S.server_fault (hpi_ret * list arrival * swsi) :=
  if negb (nz (Z.land revents LWS_POLLOUT)) then handled sock s
  else
    let '(r, s) := _lws_change_pollfd LWS_POLLOUT 0 s in
    if nz r then h1_fail sock s
    else
      let s := set_ws (set_could_have_pending false (wsw s)) s in
      let '(r, s) := if bool_decide (wstate s = LRS_DEFERRING_ACTION)
                     then _lws_change_pollfd LWS_POLLOUT 0 (set_ws (set_state LRS_ESTABLISHED (wsw s)) s)
                     else (0, s) in
      if nz r then h1_fail sock s
      else if negb (hdr_parsing_completed s) then handled sock s
      else if negb (bool_decide (wstate s = LRS_ISSUING_FILE)) then
        if WsTx.lws_has_buffered_out (wsw s) then
          '(n, s) ← issue_queued s;
          if n <? 0 then h1_fail sock s else handled sock s
        else
          let '(n, s) := callback LWS_CALLBACK_HTTP_WRITEABLE [] s in
          '(n, s) ← (if n =? 0 then __lws_rx_flow_control s else Ok (n, s));
          if n <? 0 then h1_fail sock s else handled sock s
      else
        let '(n, s) := an_file_fragment A s in
        if n <? 0 then h1_fail sock s else handled sock s.

(** From the read on: [b] was read or comes from the queue. *)
Definition h1_serve (revents : Z) (buffered : Z) (b : bytes) (sock : list arrival) (s : swsi)
  : res S.server_fault (hpi_ret * list arrival * swsi) :=
  let inside := nz buffered in
  if bool_decide (wstate s = LRS_FLUSHING_BEFORE_CLOSE) then try_pollout revents sock s
  else if bool_decide (wstate s = LRS_ISSUING_FILE) then
    '(r, s) ← lws_buflist_aware_consume b 0 inside s;
    if nz r then Ok (LWS_HPI_RET_PLEASE_CLOSE_ME, sock, s) else try_pollout revents sock s
  else
    '(n, s) ← lws_read_h1 inside b s;
    if n <? 0 then Ok (LWS_HPI_RET_WSI_ALREADY_DIED, sock, s)
    else
      '(r, s) ← lws_buflist_aware_consume b n inside s;
      if nz r then Ok (LWS_HPI_RET_PLEASE_CLOSE_ME, sock, s)
      else
        let s := if ah_attached s && negb (bool_decide (role s ∈ [ROLE_H1; ROLE_H2]))
                 then set_ah_attached false s else s in
        handled sock (if nz (Z.land revents LWS_POLLOUT) then set_favoured_pollin true s else s).

(** [lws_h1_server_socket_service]; [pevents] and [revents] are those of the
    poll set entry it is given. *)
Definition lws_h1_server_socket_service (pevents revents : Z) (sock : list arrival) (s : swsi)
  : res S.server_fault (hpi_ret * list arrival * swsi) :=
  if bool_decide (wstate s = LRS_DEFERRING_ACTION) then try_pollout revents sock s
  else if negb (nz (Z.land (Z.land revents pevents) LWS_POLLIN)) then try_pollout revents sock s
  else if favoured_pollin s && nz (Z.land (Z.land revents pevents) LWS_POLLOUT)
  then try_pollout revents sock (set_favoured_pollin false s)
  else if bool_decide (wstate s = LRS_SSL_ACK_PENDING) then handled sock s
  else if bool_decide (wstate s ∈ [LRS_ESTABLISHED; LRS_ISSUING_FILE; LRS_HEADERS; LRS_DISCARD_BODY; LRS_BODY]) then
    let '(r, s) := if ah_attached s then (0, s) else lws_header_table_attach s in
    if nz r then try_pollout revents sock s
    else
      '(buffered, n, b, sock, s) ← lws_buflist_aware_read sock s;
      if n =? 0 then
        let '(_, s) := _lws_change_pollfd LWS_POLLIN 0 (set_seen_zero_length_recv true s) in h1_fail sock s
      else if n =? LWS_SSL_CAPABLE_ERROR then h1_fail sock s
      else if n =? LWS_SSL_CAPABLE_MORE_SERVICE then try_pollout revents sock s
      else h1_serve revents buffered b sock s
  else
    try_pollout revents sock (if nz (Z.land revents LWS_POLLOUT) then set_favoured_pollin true s else s).

(** [rops_handle_POLLIN_h1] on a server connection. *)
Definition rops_handle_POLLIN_h1 (pevents revents : Z) (sock : list arrival) (s : swsi)
  : res S.server_fault (hpi_ret * list arrival * swsi) :=
  let '(rlen, _, sock) := if bool_decide (wstate s = LRS_IDLING)
                          then lws_ssl_capable_read_no_ssl 1 sock else (0, [], sock) in
  if rlen =? LWS_SSL_CAPABLE_ERROR then Ok (LWS_HPI_RET_PLEASE_CLOSE_ME, sock, s)
  else if lws_is_flowcontrolled s then handled sock s
  else lws_h1_server_socket_service pevents revents sock s.

(** ** POLLIN of a WebSocket connection *)

(** [drain:] to the end. *)
Definition ws_drain (buffered : bool) (b : bytes) (sock : list arrival) (s : swsi)
  : res S.server_fault (hpi_ret * list arrival * swsi) :=
  '(n, s) ← lws_read_h1 buffered b s;
  if n <? 0 then Ok (LWS_HPI_RET_WSI_ALREADY_DIED, sock, s)
  else
    '(r, s) ← lws_buflist_aware_consume b n buffered s;
    if nz r then Ok (LWS_HPI_RET_PLEASE_CLOSE_ME, sock, s)
    else
      let s := set_ah_attached false s in
      if buffered then
        '(n, _, s) ← buflist_len s;
        s ← (if n =? 0 then '(_, s) ← __lws_rx_flow_control s; Ok s else Ok s);
        handled sock s
      else handled sock s.

(** [read:] *)
Definition ws_read (pevents revents : Z) (sock : list arrival) (s : swsi)
  : res S.server_fault (hpi_ret * list arrival * swsi) :=
  '(n, b, s) ← buflist_len s;
  if nz (s32 n) then ws_drain true (default [] b) sock s
  else if negb (nz (Z.land (Z.land revents pevents) LWS_POLLIN)) && negb (ah_attached s) then handled sock s
  else
    let want := if u32 (rx_ubuf_alloc (wsw s)) >? pt_serv_buf_size E
                then pt_serv_buf_size E else rx_ubuf_alloc (wsw s) in
    let '(n, b, sock) := lws_ssl_capable_read_no_ssl want sock in
    let s := load b s in
    if n =? 0 then Ok (LWS_HPI_RET_PLEASE_CLOSE_ME, sock, s)
    else if n =? LWS_SSL_CAPABLE_MORE_SERVICE then handled sock s
    else if n =? LWS_SSL_CAPABLE_ERROR then Ok (LWS_HPI_RET_PLEASE_CLOSE_ME, sock, s)
    else ws_drain false b sock s.

(** [rops_handle_POLLIN_ws] on a server connection. *)
Definition rops_handle_POLLIN_ws (pevents revents : Z) (sock : list arrival) (s : swsi)
  : res S.server_fault (hpi_ret * list arrival * swsi) :=
  if bool_decide (wstate s = LRS_PRE_WS_SERVING_ACCEPT) then
    Ok (LWS_HPI_RET_PLEASE_CLOSE_ME, sock, set_ws (set_socket_is_permanently_unusable true (wsw s)) s)
  else
    '(n, s) ← (if nz (Z.land revents LWS_POLLOUT) && lwsi_state_can_handle_POLLOUT s
               then lws_handle_POLLOUT_event s else Ok (0, s));
    if nz n then
      let s := if bool_decide (wstate s = LRS_RETURNED_CLOSE)
               then set_ws (set_state LRS_FLUSHING_BEFORE_CLOSE (wsw s)) s else s in
      Ok (LWS_HPI_RET_PLEASE_CLOSE_ME, sock, s)
    else
      s ← (if bool_decide (wstate s ∈ [LRS_RETURNED_CLOSE; LRS_WAITING_TO_SEND_CLOSE])
           then '(_, s) ← lws_rx_flow_control 1 s; Ok s else Ok s);
      if nz (Z.land revents LWS_POLLIN) && lws_is_flowcontrolled s then
        let '(r, s) := _lws_change_pollfd LWS_POLLIN 0 s in
        Ok (if nz r then LWS_HPI_RET_minus_one else LWS_HPI_RET_HANDLED, sock, s)
      else if lws_is_flowcontrolled s then handled sock s
      else ws_read pevents revents sock s.

(** ** The dispatch *)

Definition handle_POLLIN (pevents revents : Z) (sock : list arrival) (s : swsi)
  : res S.server_fault (hpi_ret * list arrival * swsi) :=
  match role s with
  | ROLE_H1 => rops_handle_POLLIN_h1 pevents revents sock s
  | ROLE_WS => rops_handle_POLLIN_ws pevents revents sock s
  | ROLE_H2 | ROLE_RAW => an_other_role A pevents revents sock s
  end.

(** [lws_service_fd_tsi] for the connection of a descriptor, with what poll
    returned for it: the return value. *)
Definition lws_service_fd_tsi (revents : Z) (sock : list arrival) (s : swsi)
  : res S.server_fault (Z * list arrival * swsi) :=
  if negb (nz (Z.land (Z.land revents (events s)) LWS_POLLIN)) && nz (Z.land revents LWS_POLLHUP) then
    Ok (1, sock, lws_close_free_wsi (set_ws (set_socket_is_permanently_unusable true (wsw s)) s))
  else
    let s := set_ws (set_could_have_pending false (wsw s)) s in
    '(r, sock, s) ← handle_POLLIN (events s) revents sock s;
    match r with
    | LWS_HPI_RET_WSI_ALREADY_DIED => Ok (1, sock, s)
    | LWS_HPI_RET_HANDLED => Ok (0, sock, s)
    | LWS_HPI_RET_PLEASE_CLOSE_ME => Ok (1, sock, lws_close_free_wsi s)
    | LWS_HPI_RET_minus_one => Err (S.program_fault assertion_failed)
    end.

(** [lws_service_do_ripe_rxflow], as far as this connection is concerned. *)
Definition lws_service_do_ripe_rxflow (sock : list arrival) (s : swsi)
  : res S.server_fault (list arrival * swsi) :=
  if negb (on_buflist_list s) then Ok (sock, s)
  else if lws_is_flowcontrolled s || bool_decide (wstate s = LRS_DEFERRING_ACTION) then Ok (sock, s)
  else
    '(r, sock, s) ← handle_POLLIN LWS_POLLIN LWS_POLLIN sock s;
    Ok (sock, match r with LWS_HPI_RET_PLEASE_CLOSE_ME => lws_close_free_wsi s | _ => s end).

(** [lws_service_adjust_timeout]: whether to wait in poll, by this
    connection. *)
Definition lws_service_adjust_timeout (timeout_ms : Z) (s : swsi) : Z :=
  if on_buflist_list s && negb (lws_is_flowcontrolled s) && negb (bool_decide (wstate s = LRS_DEFERRING_ACTION))
  then 0 else timeout_ms.

End Serve.

End Service.
