(* ===== verification/HttpAction.v ===== *)
(** * Serving a plain HTTP request (libwebsockets lib/roles/http/server/server.c)

    What follows a request without an upgrade: [lws_http_action] with the
    methods, the content length and the kind of connection, the mounts,
    [lws_http_transaction_completed], and the callback the library gives to
    protocols without one (core-net/dummy-callback.c).  What a mount serves is
    an argument. *)

From S2P Require Import Prelude CLib Buflist HttpLex HttpParse WsState WsRx WsTx Upgrade HttpServer HttpHeader Service.

Module HttpAction.
Import Ws HttpHeader Service.
Module P := HttpParse.

(** [WSI_TOKEN_HTTP_COLON_PATH] *)
Definition WSI_TOKEN_HTTP_COLON_PATH : Z := 37.

(** [methods] of server.c *)
Definition action_methods : list Z :=
  [P.WSI_TOKEN_GET_URI; P.WSI_TOKEN_POST_URI; P.WSI_TOKEN_OPTIONS_URI; P.WSI_TOKEN_PUT_URI; P.WSI_TOKEN_PATCH_URI;
   P.WSI_TOKEN_DELETE_URI; P.WSI_TOKEN_CONNECT; P.WSI_TOKEN_HEAD_URI; WSI_TOKEN_HTTP_COLON_PATH].

(** The methods the table has, with their numbers. *)
Fixpoint methods_present (n : Z) (ms : list Z) (a : P.allocated_headers) : res HttpLex.fault (list (Z * Z)) :=
  match ms with
  | [] => Ok []
  | m :: ms =>
    l ← P.lws_hdr_total_length m a;
    r ← methods_present (n + 1) ms a;
    Ok (if nz l then (n, m) :: r else r)
  end.

(** [lws_http_get_uri_and_method] on a connection that is not HTTP/2: the
    number of the method, the URI and its length. *)
Definition lws_http_get_uri_and_method (a : P.allocated_headers) : res HttpLex.fault (Z * option bytes * Z) :=
  r ← methods_present 0 action_methods a;
  match r with
  | [(n, m)] => p ← P.lws_hdr_simple_ptr m a; l ← P.lws_hdr_total_length m a; Ok (n, p, l)
  | _ => Ok (-1, None, 0)
  end.

(** ** Mounts *)

(** [enum lws_mount_protocols] *)
Inductive lws_mount_protocols :=
| LWSMPRO_HTTP | LWSMPRO_HTTPS | LWSMPRO_FILE | LWSMPRO_CGI | LWSMPRO_REDIR_HTTP | LWSMPRO_REDIR_HTTPS | LWSMPRO_CALLBACK.

#[global] Instance lws_mount_protocols_eq_dec : EqDecision lws_mount_protocols.
Proof. solve_decision. Defined.

Record lws_http_mount := mk_mount {
  mountpoint : bytes;
  mountpoint_len : Z;
  origin_protocol : lws_mount_protocols;
  mount_protocol : option bytes
}.

(** The URI begins with the mount point and ends there or goes on with a
    slash; [uri] has its NUL. *)
Definition mount_matches (uri : bytes) (uri_len : Z) (m : lws_http_mount) : bool :=
  let n := mountpoint_len m in
  let c := nth (Z.to_nat n) (uri ++ [0]) 0 in
  (n <=? uri_len) && beqb (take (Z.to_nat n) uri) (take (Z.to_nat n) (mountpoint m)) &&
  ((c =? 0) || (c =? 47) || (n =? 1)).

(** [lws_find_mount]; [by_method]: the request has one of the methods GET, POST
    and HEAD. *)
Fixpoint find_mount (by_method : bool) (uri : bytes) (uri_len : Z) (ms : list lws_http_mount) (best : Z)
    (hit : option lws_http_mount) : option lws_http_mount :=
  match ms with
  | [] => hit
  | m :: ms =>
    if mount_matches uri uri_len m &&
       (bool_decide (origin_protocol m = LWSMPRO_CALLBACK) ||
        ((bool_decide (origin_protocol m = LWSMPRO_CGI) || by_method || bool_decide (is_Some (mount_protocol m))) &&
         (mountpoint_len m >? best)))
    then find_mount by_method uri uri_len ms (mountpoint_len m) (Some m)
    else find_mount by_method uri uri_len ms best hit
  end.

Definition lws_find_mount (uri : bytes) (uri_len : Z) (ms : list lws_http_mount) (a : P.allocated_headers)
  : res HttpLex.fault (option lws_http_mount) :=
  g ← P.lws_hdr_total_length P.WSI_TOKEN_GET_URI a;
  p ← P.lws_hdr_total_length P.WSI_TOKEN_POST_URI a;
  h ← P.lws_hdr_total_length P.WSI_TOKEN_HEAD_URI a;
  Ok (find_mount (nz g || nz p || nz h) uri uri_len ms 0 None).

(** ** What the request says of its body and of the connection *)

(** [rx_content_length] before the callbacks, whether it is an explicit zero,
    and [rx_content_remain] when the header sets it. *)
Definition content_length (a : P.allocated_headers) : res HttpLex.fault (Z * bool * option Z) :=
  post ← P.lws_hdr_total_length P.WSI_TOKEN_POST_URI a;
  patch ← P.lws_hdr_total_length P.WSI_TOKEN_PATCH_URI a;
  put ← P.lws_hdr_total_length P.WSI_TOKEN_PUT_URI a;
  let dflt := if nz post || nz patch || nz put then 100 * 1024 * 1024 else 0 in
  l ← P.lws_hdr_total_length HttpHeader.WSI_TOKEN_HTTP_CONTENT_LENGTH a;
  if nz l then
    '(n, s) ← P.lws_hdr_copy 31 HttpHeader.WSI_TOKEN_HTTP_CONTENT_LENGTH a;
    if n >? 0 then let v := u64 (atoll (c_str s)) in Ok (v, v =? 0, Some v) else Ok (dflt, false, None)
  else Ok (dflt, false, None).

(** [request_version]; [http_version_str] holds 12 characters. *)
Definition http_version (a : P.allocated_headers) : res HttpLex.fault Z :=
  l ← P.lws_hdr_total_length P.WSI_TOKEN_HTTP a;
  if l >? 7 then
    '(n, s) ← P.lws_hdr_copy 11 P.WSI_TOKEN_HTTP a;
    Ok (if (n >? 0) && (nth 5 s 0 =? 49) && (nth 7 s 0 =? 49) then HTTP_VERSION_1_1 else HTTP_VERSION_1_0)
  else Ok HTTP_VERSION_1_0.

(** [conn_type] *)
Definition connection_type (version : Z) (a : P.allocated_headers) : res HttpLex.fault http_conn_type :=
  let t := if version =? HTTP_VERSION_1_1 then HTTP_CONNECTION_KEEP_ALIVE else HTTP_CONNECTION_CLOSE in
  l ← P.lws_hdr_total_length P.WSI_TOKEN_CONNECTION a;
  if nz l then
    '(n, s) ← P.lws_hdr_copy 24 P.WSI_TOKEN_CONNECTION a;
    Ok (if n >? 0 then
          if S.strcasecmp0 (c_str s) (str "keep-alive") then HTTP_CONNECTION_KEEP_ALIVE
          else if S.strcasecmp0 (c_str s) (str "close") then HTTP_CONNECTION_CLOSE
          else t
        else t)
  else Ok t.

(** ** The action *)

Record http_answers := mk_http_answers {
  ha_site : http_site;
  ha_mounts : list lws_http_mount;                 (* vhost->http.mount_list *)
  ha_user_space : bool;                            (* lws_ensure_user_space succeeds *)
  ha_http : bytes -> swsi -> res S.server_fault (Z * swsi);   (* the user's callback at LWS_CALLBACK_HTTP *)
  ha_serve_mount : lws_http_mount -> bytes -> Z -> swsi -> res S.server_fault (Z * swsi);  (* from a mount hit on *)
  ha_keepalive_timeout : Z                         (* vhost->keepalive_timeout *)
}.

Section Action.
Context (A : answers) (H : http_answers).

#[local] Abbreviation E := (an_env A).

Definition table (s : swsi) : P.allocated_headers := P.ah (S.http (conn s)).

Definition set_state_s (st : lwsi_state_t) (s : swsi) : swsi := set_ws (set_state st (wsw s)) s.

Definition set_timeout (secs : Z) (s : swsi) : swsi := set_ws (emit (SetTimeout secs) (wsw s)) s.

(** [lws_bind_protocol] to protocol [p] of the vhost; a connection with a
    protocol has been told of it.  The list of the connections of a protocol
    is left out. *)
Definition lws_bind_protocol (p : nat) (s : swsi) : Z * swsi :=
  let s := match S.protocol (conn s) with
           | Some _ => (callback A LWS_CALLBACK_HTTP_DROP_PROTOCOL [] s).2
           | None => s
           end in
  let c := conn s in
  let s := set_conn (S.mk_conn (S.http c) (S.ws c) (S.vh c) (Some p)) s in
  if negb (ha_user_space H) then (1, s)
  else let '(n, s) := callback A LWS_CALLBACK_HTTP_BIND_PROTOCOL [] s in (if nz n then 1 else 0, s).

(** [lws_return_http_status], with its writes into the service buffer. *)
Definition return_http_status (code : Z) (s : swsi) : res S.server_fault (Z * swsi) :=
  '(n, b, w) ← lift (lws_return_http_status E (ha_site H) (an_send A) code None (htx s) (serv_buf s) (wsw s));
  Ok (n, ran A w (set_serv_buf b s)).

(** [lws_http_transaction_completed] on an HTTP/1 connection; detaching the
    header table may serve others, but not this one. *)
Definition lws_http_transaction_completed (s : swsi) : res S.server_fault (Z * swsi) :=
  if WsTx.lws_has_buffered_out (wsw s) then
    Ok (0, (lws_callback_on_writable A (set_htx (set_deferred_transaction_completed true (htx s)) s)).2)
  else if nz (rx_content_length s) && nz (rx_content_remain s) then
    if bool_decide (wstate s = LRS_DISCARD_BODY) then Ok (-1, s) else Ok (0, set_state_s LRS_DISCARD_BODY s)
  else if negb (hdr_parsing_completed s) then Ok (0, s)
  else if seen_zero_length_recv s then Ok (1, s)
  else if negb (bool_decide (conn_type (htx s) = HTTP_CONNECTION_KEEP_ALIVE)) then Ok (1, s)
  else
    let '(r, s) := lws_bind_protocol 0 s in
    if nz r then Ok (1, s)
    else
      let s := set_state_s LRS_DEFERRING_ACTION s in
      let s := set_htx (set_tx_content 0 (htx s)) s in
      let s := set_hdr_parsing_completed false s in
      let s := set_timeout (ha_keepalive_timeout H) s in
      '(n, _, s) ← buflist_len s;
      let s :=
        if ah_attached s then
          if n =? 0 then set_ah_attached false s
          else
            let s := set_timeout (ha_keepalive_timeout H) (header_table_reset A s) in
            let c := conn s in
            set_conn (S.set_http (P.set_ah (P.set_ues P.URIES_IDLE (P.ah (S.http c))) (S.http c)) c) s
        else if n =? 0 then s else (lws_header_table_attach A s).2 in
      Ok (0, (lws_callback_on_writable A s).2).

(** [lws_callback_http_dummy], for the reasons of a transaction. *)
Definition lws_callback_http_dummy_http (s : swsi) : res S.server_fault (Z * swsi) :=
  '(n, s) ← return_http_status HTTP_STATUS_NOT_FOUND s;
  if nz n then Ok (-1, s)
  else '(n, s) ← lws_http_transaction_completed s; Ok (if nz n then -1 else 0, s).

(** [bail_nuke_ah:] *)
Definition bail_nuke_ah (s : swsi) : res S.server_fault (Z * swsi) := Ok (1, set_ah_attached false s).

(** The queue is given to [lws_read_h1] until it is empty. *)
Fixpoint deal_body_queue (fuel : nat) (s : swsi) : res S.server_fault (Z * swsi) :=
  match fuel with
  | O => Err (S.parser_fault HttpLex.no_fuel)
  | S fuel =>
    '(n, b, s) ← buflist_len s;
    if s32 n =? 0 then Ok (0, s)
    else
      '(m, s) ← lws_read_h1 A true (default [] b) s;
      if m <? 0 then Ok (-1, s)
      else
        '(r, s) ← lws_buflist_aware_consume (default [] b) m true s;
        if nz r then Ok (-1, s) else deal_body_queue fuel s
  end.

(** [after:], with the callback's answer [m]. *)
Definition action_after (fuel : nat) (m : Z) (s : swsi) : res S.server_fault (Z * swsi) :=
  if nz m then Ok (1, s)
  else if bool_decide (wstate s = LRS_ISSUING_FILE) then Ok (0, s)
  else
    post ← (if ah_attached s then S.lift_parse (P.lws_hdr_total_length P.WSI_TOKEN_POST_URI (table s)) else Ok 0);
    if content_length_explicitly_zero (htx s) && nz post then
      let '(n, s) := callback A LWS_CALLBACK_HTTP_BODY [] s in
      if nz n then Ok (1, s)
      else
        let '(n, s) := callback A LWS_CALLBACK_HTTP_BODY_COMPLETION [] s in
        Ok (if nz n then 1 else 0, s)
    else if rx_content_length s >? 0 then
      let s := if bool_decide (wstate s = LRS_DISCARD_BODY) then s else set_state_s LRS_BODY s in
      deal_body_queue fuel (set_rx_content_remain (rx_content_length s) s)
    else Ok (0, s).

(** [lws_http_action] on an HTTP/1 connection without TLS. *)
Definition lws_http_action (fuel : nat) (s : swsi) : res S.server_fault (Z * swsi) :=
  let a := table s in
  '(meth, uri_ptr, uri_len) ← S.lift_parse (lws_http_get_uri_and_method a);
  if meth <? 0 then bail_nuke_ah s
  else
    match uri_ptr with
    | Some ((47 :: _) as uri) =>
      if negb (ha_user_space H) then bail_nuke_ah s
      else
        '(cl, explicit_zero, remain) ← S.lift_parse (content_length a);
        let s := set_rx_content_length cl s in
        let s := match remain with Some v => set_rx_content_remain v s | None => s end in
        let s := set_htx (set_content_length_explicitly_zero explicit_zero (htx s)) s in
        version ← S.lift_parse (http_version a);
        ct ← S.lift_parse (connection_type version a);
        let s := set_htx (set_conn_type ct (set_request_version version (htx s))) s in
        let '(n, s) := callback A LWS_CALLBACK_FILTER_HTTP_CONNECTION uri s in
        if nz n then Ok (1, s)
        else
          let s := set_timeout (timeout_secs E) s in
          hit ← S.lift_parse (lws_find_mount uri uri_len (ha_mounts H) a);
          match hit with
          | Some m => ha_serve_mount H m uri uri_len s
          | None =>
            let '(r, s) := lws_bind_protocol 0 s in
            if nz r then Ok (1, s)
            else
              '(m, s) ← ha_http H uri (set_state_s LRS_DOING_TRANSACTION s);
              action_after fuel m s
          end
    | _ => '(_, s) ← return_http_status HTTP_STATUS_FORBIDDEN s; bail_nuke_ah s
    end.

End Action.

(** The answers of a library that serves plain HTTP as above: the arguments of
    [Service] that stand for it are its definitions.  The callback at
    LWS_CALLBACK_HTTP may use what completes transactions. *)
Definition completing (A : answers) (H : http_answers) : answers :=
  mk_answers (an_parse A) (an_env A) (an_server A) (an_serve_http A) (lws_http_transaction_completed A H)
    (an_file_fragment A) (an_attach A) (an_ah_idle A) (an_change_mode A) (an_send A) (an_random A) (an_writeable A)
    (an_other_role A).

Definition serving_http (A : answers) (H : http_answers) (fuel : nat) : answers :=
  let A := completing A H in
  mk_answers (an_parse A) (an_env A) (an_server A)
    (fun e s => match e with S.Http_action => lws_http_action A H fuel s | _ => an_serve_http A e s end)
    (an_transaction_completed A) (an_file_fragment A) (an_attach A) (an_ah_idle A) (an_change_mode A) (an_send A)
    (an_random A) (an_writeable A) (an_other_role A).

End HttpAction.
