(* ===== verification/ServiceProof.v ===== *)
(** * A connection served to the end

    The bytes of an upgrade request and of the frames behind it, cut into
    arrivals in any way, served by the POLLIN handlers: the request becomes a
    WebSocket connection, what was read beyond it is queued, and every payload
    reaches the user in order. *)

From S2P Require Import Prelude CLib Buflist HttpLex HttpParse HttpParseSafe HttpParseProof WsState WsRx WsRxProof WsRxProps WsTx WsTxProof WsFrame Tokenize Upgrade UpgradeProof HttpServer HttpServerProof HttpHeader Service.

Module ServiceProof.
Import HttpParseProof HttpServerProof Ws WsRxProof WsFrame Service.

(** ** The poll set entry *)

(** What a request for the writable callback leaves alone: everything but the
    POLLOUT bit. *)
Definition no_pollout (s : swsi) :=
  (conn s, role s, ah_attached s, on_buflist_list s, rxflow_change_to s, closed s, Z.odd (events s)).

Lemma writable_same A tr s : no_pollout (on_writable_requests A tr s) = no_pollout s.
Proof.
  revert s. induction tr as [|e tr IH]; intros s; [done|]. unfold on_writable_requests in *. cbn [fold_left].
  rewrite IH. destruct e; try done. unfold lws_callback_on_writable, _lws_change_pollfd.
  destruct (bool_decide _); [done|]. destruct (socket_is_permanently_unusable _); [done|].
  destruct (_ && _ && _); [done|]. unfold no_pollout. cbn -[Z.odd Z.lor Z.ldiff]. f_equal.
  by rewrite <- !Z.bit0_odd, Z.lor_spec, Z.ldiff_spec, orb_false_r, andb_true_r.
Qed.

Lemma writable_serv_buf A tr s : serv_buf (on_writable_requests A tr s) = serv_buf s.
Proof.
  revert s. induction tr as [|e tr IH]; intros s; [done|]. unfold on_writable_requests in *. cbn [fold_left].
  rewrite IH. destruct e; try done. unfold lws_callback_on_writable, _lws_change_pollfd.
  destruct (bool_decide _); [done|]. destruct (socket_is_permanently_unusable _); [done|].
  by destruct (_ && _ && _).
Qed.

(** POLLIN is reported when it is asked for. *)
Lemma pollin_reported ev : Z.odd ev = true -> nz (Z.land (Z.land LWS_POLLIN ev) LWS_POLLIN) = true.
Proof.
  rewrite <- Z.bit0_odd. intros H. apply nz_true. intros H0. apply (f_equal (fun z => Z.testbit z 0)) in H0.
  rewrite !Z.land_spec, H in H0. done.
Qed.

(** ** Reading what arrived *)

(** Bytes that arrive in pieces, none of them empty. *)
Definition arrivals (chunks : list bytes) : list arrival := Arrived <$> chunks.

Definition pieces (chunks : list bytes) : Prop := Forall (fun b => b <> []) chunks.

(** The first piece, when [b] of it is left. *)
Definition rest_of (b : bytes) (l : list bytes) : list bytes := match b with [] => l | _ => b :: l end.

Lemma rest_of_pieces b l : pieces l -> pieces (rest_of b l).
Proof. intros Hl. destruct b; [done|]. by constructor. Qed.

Lemma concat_rest_of b l : concat (rest_of b l) = b ++ concat l.
Proof. by destruct b. Qed.

Lemma read_piece n b l :
  0 < n -> b <> [] ->
  exists t b', lws_ssl_capable_read_no_ssl n (arrivals (b :: l)) = (len t, t, arrivals (rest_of b' l)) /\
    t <> [] /\ 0 < len t <= n /\ b = t ++ b' /\ (len b <= n -> b' = []).
Proof.
  intros Hn Hb. unfold lws_ssl_capable_read_no_ssl. cbn [arrivals fmap list_fmap recv].
  set (t := take (Z.to_nat n) b).
  assert (t <> []) as Ht.
  { unfold t. destruct b as [|c b]; [done|]. replace (Z.to_nat n) with (S (Z.to_nat (n - 1))) by lia. done. }
  assert (0 < len t) by (destruct t; [done|rewrite len_cons; pose proof (len_nonneg t); lia]).
  destruct (Z.geb_spec (len t) 0); [|lia]. destruct (Z.eqb_spec (len t) 0); [lia|].
  exists t, (drop (Z.to_nat n) b). assert (len t <= n) by (unfold t, len; rewrite length_take; lia).
  split; [by destruct (drop _ b)|]. split_and!; [done..|by rewrite <- (take_drop (Z.to_nat n) b) at 1|].
  intros Hbn. apply drop_ge. unfold len in Hbn. lia.
Qed.

Lemma read_arrived n b l :
  0 < n -> pieces (b :: l) ->
  exists t l', lws_ssl_capable_read_no_ssl n (arrivals (b :: l)) = (len t, t, arrivals l') /\
    t <> [] /\ len t <= n /\ pieces l' /\ t ++ concat l' = concat (b :: l) /\ (len b <= n -> l' = l).
Proof.
  intros Hn Hp. apply Forall_cons in Hp as [Hb Hl].
  destruct (read_piece n b l Hn Hb) as (t & b' & -> & Ht & Htl & -> & Hall). exists t, (rest_of b' l).
  split; [done|]. split; [done|]. split; [lia|]. split; [by apply rest_of_pieces|]. rewrite concat_rest_of.
  split; [by rewrite app_assoc|]. intros Hle. by rewrite Hall.
Qed.

(** Serving: poll reports the descriptor as long as something is there. *)
Fixpoint poll_rounds (A : answers) (n : nat) (sock : list arrival) (s : swsi)
  : res HttpServer.server_fault (list arrival * swsi) :=
  match n with
  | O => Ok (sock, s)
  | S n =>
    match sock with
    | [] => Ok (sock, s)
    | _ => '(_, sock, s) ← lws_service_fd_tsi A LWS_POLLIN sock s;
           if closed s then Ok (sock, s) else poll_rounds A n sock s
    end
  end.

Lemma upgrade_request_ws PE E SA c w uri hs p key extra :
  http_done w -> upgrade_request PE E SA c uri hs p key extra ->
  upgrade_request PE E SA (HttpServer.mk_conn (HttpServer.http c) w (HttpServer.vh c) (HttpServer.protocol c))
    uri hs p key extra.
Proof. intros Hd [? ? ? ? ? ? ? ? ? ? ? (H1 & H2 & _) ?]. by constructor. Qed.

(** What a read left over goes into the empty queue, as it is by then. *)
Lemma leave_rest b used s :
  buflist (wsw s) = [] -> used <> len b -> len b < 2 ^ 31 -> remaining false b used s <> [] ->
  exists l, lws_buflist_aware_consume b used false s =
      Ok (0, set_on_buflist_list true (set_ws (set_buflist l (wsw s)) s)) /\
    Buflist.queue l = remaining false b used s.
Proof.
  intros Hb Hu Hl Hne. unfold lws_buflist_aware_consume. rewrite !andb_false_r.
  destruct (Z.eqb_spec used (len b)); [done|]. cbn [negb]. rewrite Hb. set (r := remaining false b used s) in *.
  assert (0 < len r < 2 ^ 31) as Hr.
  { split; [destruct r; [done|rewrite len_cons; pose proof (len_nonneg r); lia]|].
    unfold r, remaining, len. rewrite length_drop, length_take. unfold len in Hl. lia. }
  destruct (Buflist.append_spec [] r) as (-> & Hok & Hq); [constructor|lia|].
  cbn [length Nat.ltb Nat.leb lift HttpServer.lift_exn mbind res_bind app] in *.
  by exists [Buflist.mk_seg (len r) 0 r].
Qed.

Lemma response_over_length key resp buf : length (response_over key resp buf) = length buf.
Proof. unfold response_over. by rewrite !length_inserts. Qed.

Lemma response_over_in key resp buf i :
  (400 <= i < 400 + length resp)%nat -> (i < length buf)%nat -> response_over key resp buf !! i = resp !! (i - 400)%nat.
Proof.
  intros Hi Hb. unfold response_over. rewrite list_lookup_inserts; [|rewrite length_app; lia|by rewrite !length_inserts].
  by rewrite lookup_app_l by lia.
Qed.

Lemma response_over_out key resp buf i :
  all_bytes key -> (length key + 37 <= i)%nat -> (i < 400 \/ 400 + length resp < i)%nat ->
  response_over key resp buf !! i = buf !! i.
Proof.
  intros Hk Hi Hout. unfold response_over. pose proof (accept_key_len key Hk) as Hl. unfold len in Hl.
  transitivity ((list_inserts 0 (accept_key key ++ [0]) (list_inserts 0 ((key ++ Upgrade.websocket_guid) ++ [0]) buf)) !! i).
  { destruct Hout; [by rewrite list_lookup_inserts_lt|rewrite list_lookup_inserts_ge; [done|rewrite length_app; cbn; lia]]. }
  rewrite !list_lookup_inserts_ge; [done| |]; rewrite !length_app; cbn [length];
    try change (length Upgrade.websocket_guid) with 36%nat; lia.
Qed.

(** What holds of the service members throughout. *)
Definition served (s : swsi) : Prop :=
  Z.odd (events s) = true /\ closed s = false /\ rxflow_change_to s = 0.

(** ** POLLIN in the headers *)

(** The connection reads a request and nothing is in its queue. *)
Definition reading_headers (s : swsi) : Prop :=
  served s /\ role s = ROLE_H1 /\ ah_attached s = true /\ wstate s = LRS_HEADERS /\ buflist (wsw s) = [] /\
  rxflow_bitmap (wsw s) = 0.

(** The connection when [t] of the input has been read. *)
Definition has_read (t : bytes) (s : swsi) : swsi := load t (set_ws (set_could_have_pending false (wsw s)) s).

(** When the table is not used any more. *)
Definition detached (s : swsi) : swsi :=
  if ah_attached s && negb (bool_decide (role s ∈ [ROLE_H1; ROLE_H2])) then set_ah_attached false s else s.

Lemma buflist_len_ok s :
  Forall Buflist.seg_ok (buflist (wsw s)) ->
  buflist_len s = Ok (Buflist.first_len (buflist (wsw s)),
    match buflist (wsw s) with [] => None | x :: _ => Some (Buflist.seg_rest x) end, s).
Proof.
  intros H. unfold buflist_len. rewrite Buflist.next_spec by done. cbn [lift HttpServer.lift_exn mbind res_bind].
  do 2 f_equal. destruct s as [[h w v q] ? ? ? ? ? ? ? ? ? ? ? ? ? ?]. unfold wsw, set_ws, set_conn. cbn. f_equal.
  by destruct w.
Qed.

(** The handler reads and gives what it read to [lws_read_h1]. *)
Lemma headers_pollin A b l s :
  0 < pt_serv_buf_size (an_env A) -> reading_headers s -> b <> [] ->
  exists t b', b = t ++ b' /\ t <> [] /\ 0 < len t <= pt_serv_buf_size (an_env A) /\
    (len b <= pt_serv_buf_size (an_env A) -> b' = []) /\
    forall n s1 s2, lws_read_h1 A false t (has_read t s) = Ok (n, s1) -> 0 <= n ->
      lws_buflist_aware_consume t n false s1 = Ok (0, s2) ->
      lws_service_fd_tsi A LWS_POLLIN (arrivals (b :: l)) s = Ok (0, arrivals (rest_of b' l), detached s2).
Proof.
  intros Hserv (Hs & Hr & Ha & Hst & Hb & Hfl) Hne.
  destruct (read_piece (pt_serv_buf_size (an_env A)) b l Hserv Hne) as (t & b' & Hrd & Ht & Htl & -> & Hall).
  exists t, b'. split; [done|]. split; [done|]. split; [done|]. split; [done|]. intros n s1 s2 Hread Hn Hcons.
  pose proof (pollin_reported _ (proj1 Hs)) as Hin. unfold lws_service_fd_tsi. rewrite Hin. cbn [negb andb].
  set (s0 := set_ws _ s). unfold handle_POLLIN. change (role s0) with (role s). rewrite Hr.
  unfold rops_handle_POLLIN_h1, lws_h1_server_socket_service, lws_is_flowcontrolled.
  change (wstate s0) with (wstate s). change (rxflow_bitmap (wsw s0)) with (rxflow_bitmap (wsw s)). rewrite Hst, Hfl.
  rewrite !bool_decide_eq_false_2 by done. change (nz 0) with false. change (0 =? LWS_SSL_CAPABLE_ERROR) with false.
  cbv iota. change (events s0) with (events s). rewrite Hin. cbn [negb].
  assert (nz (Z.land (Z.land LWS_POLLIN (events s)) LWS_POLLOUT) = false) as ->.
  { apply nz_false. rewrite <- Z.land_assoc, (Z.land_comm (events s)), Z.land_assoc. done. }
  rewrite andb_false_r, bool_decide_eq_true_2 by set_solver. change (ah_attached s0) with (ah_attached s). rewrite Ha.
  change (nz 0) with false. cbv iota. unfold lws_buflist_aware_read.
  assert (buflist (wsw s0) = []) as Hb0 by exact Hb.
  rewrite buflist_len_ok by (rewrite Hb0; constructor). rewrite Hb0.
  cbn [mbind res_bind Buflist.first_len]. change (nz 0) with false. rewrite Hrd.
  rewrite andb_false_r. destruct (Z.leb_spec (len t) 0); [lia|]. cbn [negb mbind res_bind].
  unfold LWS_SSL_CAPABLE_MORE_SERVICE, LWS_SSL_CAPABLE_ERROR.
  destruct (Z.eqb_spec (len t) 0); [lia|]. destruct (Z.eqb_spec (len t) (-1)); [lia|].
  destruct (Z.eqb_spec (len t) (-4)); [lia|]. unfold h1_serve. change (load t s0) with (has_read t s).
  change (wstate (has_read t s)) with (wstate s). rewrite Hst.
  rewrite !bool_decide_eq_false_2 by done. change (nz 0) with false. rewrite Hread. cbn [mbind res_bind].
  destruct (Z.ltb_spec n 0); [lia|]. rewrite Hcons. done.
Qed.

Lemma consume_all t s : lws_buflist_aware_consume t (len t) false s = Ok (0, s).
Proof. unfold lws_buflist_aware_consume. by rewrite !andb_false_r, Z.eqb_refl. Qed.

Section Served.
Context (A : answers) (c0 : HttpServer.conn) (uri : bytes) (hs : list (bytes * bytes)) (p : nat) (key extra : bytes).
Context (fs : list frame).

#[local] Abbreviation E := (an_env A).
#[local] Abbreviation PE := (an_parse A).
#[local] Abbreviation SA := (an_server A).
#[local] Abbreviation out := (output (HttpServer.ws c0) ++ upgrade_response SA c0 uri hs p key extra).
#[local] Abbreviation total := (received (trace (HttpServer.ws c0)) ++ flat_map f_payload fs).

Context (Hreq : upgrade_request PE E SA c0 uri hs p key extra).
Context (Hfs : data_seq false fs).
Context (Hserv : 0 < pt_serv_buf_size E < 10000000).

(** The connection with what it was given so far of the request in the table. *)
Definition conn_at (a : HttpParse.allocated_headers) (w : lws) : HttpServer.conn :=
  HttpServer.mk_conn (HttpParse.set_ah a (HttpServer.http c0)) w (HttpServer.vh c0) (HttpServer.protocol c0).

(** The headers are being read: [pre] of the request is in the table and [suf]
    is still to come. *)
Definition in_headers (s : swsi) (suf : bytes) : Prop :=
  served s /\ role s = ROLE_H1 /\ ah_attached s = true /\
  exists a w pre, conn s = conn_at a w /\
    feed PE pre (HttpParse.ah (HttpServer.http c0)) = Some a /\
    request_text uri hs = pre ++ suf /\ suf <> [] /\
    http_done w /\ state w = LRS_HEADERS /\ buflist w = [] /\
    output w = output (HttpServer.ws c0) /\ received (trace w) = received (trace (HttpServer.ws c0)).

(** The request has been answered and no frame read. *)
Definition upgraded (s : swsi) : Prop :=
  served s /\ role s = ROLE_WS /\ buflist (wsw s) = [] /\ ready E false (wsw s) /\ output (wsw s) = out /\
  received (trace (wsw s)) = received (trace (HttpServer.ws c0)).

(** The connection is a WebSocket with nothing in its queue, and what arrives
    are the frames still to come. *)
Definition in_frames (s : swsi) (stream : bytes) : Prop :=
  served s /\ role s = ROLE_WS /\ buflist (wsw s) = [] /\ expects E (wsw s) stream total /\ output (wsw s) = out.

Lemma served_eq s s' : no_pollout s' = no_pollout s -> served s -> served s'.
Proof. unfold served. by intros [= _ _ _ _ -> -> ->]. Qed.

(** ** A read of a WebSocket connection *)

(** What is left of the connection when a function of the role has run. *)
Lemma ran_same w s :
  wsw (ran A w s) = w /\ role (ran A w s) = role s /\ on_buflist_list (ran A w s) = on_buflist_list s /\
  (served s -> served (ran A w s)).
Proof.
  unfold ran. pose proof (writable_same A (drop (length (trace (wsw s))) (trace w)) (set_ws w s)) as H.
  set (s' := on_writable_requests _ _ _) in *. clearbody s'. pose proof H as [= H1 H2 H3 H4 H5 H6 H7].
  split; [unfold wsw; by rewrite H1|]. split; [done|]. split; [done|]. intros Hs.
  apply (served_eq (set_ws w s)); [exact H|exact Hs].
Qed.

(** The frames expected in [b], read by [lws_read_h1]. *)
Lemma read_frames inside b later s :
  env_ok E -> served s -> role s = ROLE_WS -> expects E (wsw s) (b ++ later) total ->
  exists s', lws_read_h1 A inside b s = Ok (len b, s') /\ served s' /\ role s' = ROLE_WS /\
    on_buflist_list s' = on_buflist_list s /\ buflist (wsw s') = buflist (wsw s) /\
    output (wsw s') = output (wsw s) /\ expects E (wsw s') later total.
Proof.
  intros He Hs Hr Hex. destruct (expects_open E _ _ _ Hex) as (Hf & Hst & _).
  unfold lws_read_h1, wstate. rewrite Hst, Hr. cbn match. rewrite bool_decide_eq_true_2 by done.
  unfold ws_mode. rewrite Hr, bool_decide_eq_true_2 by done. unfold WsRx.lws_parse_ws.
  destruct (parse_expects E (2 * length b + 1) He inside b b later total _ Hex ltac:(lia)) as (w' & Hp & Hex').
  pose proof (parse_loop_same E _ _ _ _ _ _ _ _ Hf Hp) as (Hq & _ & _ & Ho & _).
  rewrite Hp. cbn [lift HttpServer.lift_exn mbind res_bind Z.ltb Z.compare].
  destruct (ran_same w' s) as (Hw & Hr' & Hl' & Hs'). eexists. split; [done|]. rewrite Hw, Hr', Hl'. auto 8.
Qed.

Lemma pending_cleared s stream :
  in_frames s stream -> in_frames (set_ws (set_could_have_pending false (wsw s)) s) stream.
Proof.
  intros (Hs & Hr & Hq & Hex & Ho). split; [exact Hs|]. split; [exact Hr|]. split; [exact Hq|]. split; [|exact Ho].
  exact (expects_other E (buflist (wsw s)) false (wsw s) _ _ Hex).
Qed.

(** What the POLLIN handler of the role does while frames are expected. *)
Lemma pollin_frames pev sock s stream :
  in_frames s stream -> nz (Z.land (Z.land LWS_POLLIN pev) LWS_POLLIN) = true ->
  rops_handle_POLLIN_ws A pev LWS_POLLIN sock s = ws_read A pev LWS_POLLIN sock s.
Proof.
  intros (Hs & Hr & Hq & Hex & Ho) Hin. destruct (expects_open E _ _ _ Hex) as (Hf & Hst & _).
  unfold rops_handle_POLLIN_ws, wstate, lws_is_flowcontrolled. rewrite Hst.
  rewrite bool_decide_eq_false_2 by done. change (nz (Z.land LWS_POLLIN LWS_POLLOUT)) with false.
  cbn [andb mbind res_bind]. change (nz 0) with false. cbv iota. rewrite Hst, bool_decide_eq_false_2 by set_solver.
  cbn [mbind res_bind]. rewrite Hf. done.
Qed.

(** Frames read from the socket. *)
Lemma read_socket pev b l s :
  in_frames s (concat (b :: l)) -> pieces (b :: l) ->
  nz (Z.land (Z.land LWS_POLLIN pev) LWS_POLLIN) = true ->
  exists l' s', ws_read A pev LWS_POLLIN (arrivals (b :: l)) s = Ok (LWS_HPI_RET_HANDLED, arrivals l', s') /\
    in_frames s' (concat l') /\ pieces l' /\ (length (concat l') < length (concat (b :: l)))%nat.
Proof.
  intros (Hs & Hr & Hq & Hex & Ho) Hp Hin. pose proof (proj1 (ur_env _ _ _ _ _ _ _ _ _ Hreq)) as He.
  destruct (expects_open E _ _ _ Hex) as (_ & _ & Hu).
  unfold ws_read. rewrite (buflist_len_ok s), Hq by (rewrite Hq; constructor). cbn [mbind res_bind Buflist.first_len].
  change (nz (s32 0)) with false. cbv iota. rewrite Hin. cbn [negb andb].
  set (want := if _ >? _ then _ else _).
  assert (0 < want) as Hw.
  { unfold want. rewrite Hu. destruct He as (? & _). unfold LWS_PRE. clear want. destruct (u32 _ >? _); lia. }
  clearbody want. destruct (read_arrived want b l Hw Hp) as (t & l' & -> & Ht & _ & Hp' & Hcat & _).
  assert (0 < len t) as Hlt by (destruct t; [done|rewrite len_cons; pose proof (len_nonneg t); lia]).
  unfold LWS_SSL_CAPABLE_MORE_SERVICE, LWS_SSL_CAPABLE_ERROR.
  destruct (Z.eqb_spec (len t) 0); [lia|]. destruct (Z.eqb_spec (len t) (-4)); [lia|].
  destruct (Z.eqb_spec (len t) (-1)); [lia|]. unfold ws_drain. rewrite <- Hcat in Hex.
  destruct (read_frames false t (concat l') (load t s) He Hs Hr Hex) as (s1 & -> & Hs1 & Hr1 & Hl1 & Hb1 & Ho1 & Hex1).
  cbn [mbind res_bind]. destruct (Z.ltb_spec (len t) 0); [lia|]. unfold lws_buflist_aware_consume.
  rewrite !andb_false_r, Z.eqb_refl. cbn [negb mbind res_bind]. change (nz 0) with false. cbv iota.
  exists l', (set_ah_attached false s1). split; [done|].
  change (wsw (load t s)) with (wsw s) in *. rewrite Hq in Hb1. split; [|split; [done|]].
  - split; [exact Hs1|]. split; [exact Hr1|]. split; [exact Hb1|]. split; [exact Hex1|].
    change (wsw (set_ah_attached false s1)) with (wsw s1). by rewrite Ho1.
  - rewrite <- Hcat, length_app. unfold len in Hlt. lia.
Qed.

(** One round of a WebSocket connection. *)
Lemma frames_round b l s :
  in_frames s (concat (b :: l)) -> pieces (b :: l) ->
  exists l' s', lws_service_fd_tsi A LWS_POLLIN (arrivals (b :: l)) s = Ok (0, arrivals l', s') /\
    in_frames s' (concat l') /\ pieces l' /\ (length (concat l') < length (concat (b :: l)))%nat.
Proof.
  intros H Hp. pose proof (pollin_reported _ (proj1 (proj1 H))) as Hin. unfold lws_service_fd_tsi. rewrite Hin.
  cbn [negb andb]. apply pending_cleared in H. set (s0 := set_ws _ s) in *. change (events s) with (events s0) in Hin.
  clearbody s0. clear s. unfold handle_POLLIN. pose proof H as (_ & -> & _). rewrite (pollin_frames _ _ _ _ H Hin).
  destruct (read_socket (events s0) b l s0 H Hp Hin) as (l' & s' & -> & H'). by exists l', s'.
Qed.

(** ** A read of the request *)

(** The rest of the request is still to come. *)
Lemma handshake_more a w pre t suf :
  feed PE pre (HttpParse.ah (HttpServer.http c0)) = Some a -> request_text uri hs = pre ++ t ++ suf ->
  t <> [] -> suf <> [] -> len t < 10000000 ->
  exists a', feed PE (pre ++ t) (HttpParse.ah (HttpServer.http c0)) = Some a' /\
    HttpServer.lws_handshake_server PE E SA t (conn_at a w) = Ok (HttpServer.More_headers, [], conn_at a' w).
Proof.
  intros Hf Ht Hne Hsuf Hlen. destruct Hreq as [Hlim Htab [Hu Hpl] [Hok Hn] Hsz _ _ _ _ _ _ _ _].
  rewrite app_assoc in Ht.
  destruct (request_prefix PE _ uri hs (pre ++ t) suf Hlim Htab Hu Hpl Hok Hn Hsz Ht Hsuf) as (a' & Hf' & Hst).
  exists a'. split; [done|]. rewrite feed_app, Hf in Hf'. cbn [mbind option_bind] in Hf'.
  unfold HttpServer.lws_handshake_server. destruct (Z.geb_spec (len t) 10000000); [lia|].
  destruct t as [|c t]; [done|]. cbn [HttpServer.handshake_loop length]. unfold conn_at. cbn [HttpServer.http].
  rewrite (lws_parse_all PE (c :: t) (HttpParse.set_ah a (HttpServer.http c0)) a' Hf') by done.
  cbn [HttpServer.lift_parse mbind res_bind]. change (HttpParse.LPR_OK =? HttpParse.LPR_DO_FALLBACK) with false.
  change (nz HttpParse.LPR_OK) with false. cbn [HttpParse.ah HttpParse.set_ah].
  destruct (Z.eqb_spec (HttpParse.parser_state a') HttpParse.WSI_PARSING_COMPLETE); [done|].
  cbn [negb HttpServer.handshake_loop]. done.
Qed.

(** The rest of the request has arrived, with [r] behind it. *)
Lemma handshake_last a w pre suf r :
  feed PE pre (HttpParse.ah (HttpServer.http c0)) = Some a -> request_text uri hs = pre ++ suf -> suf <> [] ->
  len (suf ++ r) < 10000000 -> http_done w ->
  exists c', HttpServer.lws_handshake_server PE E SA (suf ++ r) (conn_at a w) = Ok (HttpServer.Upgraded_ws, r, c') /\
    output (HttpServer.ws c') = output w ++ upgrade_response SA c0 uri hs p key extra /\
    ready E false (HttpServer.ws c') /\ kept w (HttpServer.ws c') /\ HttpServer.protocol c' = Some p /\
    forall buf, Upgrade.handshake_serv_buf E (HttpServer.table_of (HttpParse.ah (HttpServer.http c')))
      (default None (HttpServer.v_protocols (HttpServer.vh c') !! p))
      (default [] (Upgrade.a_add_headers (HttpServer.s_upgrade SA))) buf =
      response_over key (upgrade_response SA c0 uri hs p key extra) buf.
Proof.
  intros Hf Ht Hsuf Hlen Hd. pose proof Hreq as [Hlim Htab [Hu Hpl] [Hok Hn] Hsz _ _ _ _ _ _ (_ & HA & _) _].
  destruct (parse_request_holds PE (HttpServer.http c0) uri hs r) as (h & Hp & Hs & _ & _ & Hh); try done.
  assert (suf ++ r <> []) as Hne by (destruct suf; done).
  rewrite Ht, <- app_assoc, (lws_parse_feed PE pre (suf ++ r) _ a Hf Hne) in Hp.
  destruct (upgrade_parsed PE E SA _ uri hs p key extra (suf ++ r) _ r h (upgrade_request_ws _ _ _ c0 w _ _ _ _ _ Hd Hreq)
    Hne Hlen Hp Hs Hh) as (c' & Hc & Ho & Hr & Hpr & Hk & Hhttp & Hvp).
  exists c'. split; [exact Hc|]. split; [exact Ho|]. split; [exact Hr|]. split; [exact Hk|]. split; [exact Hpr|].
  intros buf. destruct HA as (_ & _ & _ & _ & -> & _). rewrite Hhttp, Hvp.
  exact (upgrade_serv_buf PE E SA c0 uri hs p key extra _ buf Hreq Hh).
Qed.

(** A read that stays inside of the request. *)
Lemma read_request_more t suf s :
  in_headers s (t ++ suf) -> t <> [] -> suf <> [] -> len t < 10000000 ->
  exists s', lws_read_h1 A false t s = Ok (len t, s') /\ in_headers s' suf.
Proof.
  intros (Hs & Hr & Ha & a & w & pre & Hc & Hf & Ht & _ & Hd & Hst & Hb & Ho & Hrec) Hne Hsuf Hlen.
  unfold lws_read_h1, wstate, wsw. rewrite Hc. cbn [conn_at HttpServer.ws]. rewrite Hst. unfold read_headers.
  rewrite Ha, Hc. cbn [negb].
  destruct (handshake_more a w pre t suf Hf Ht Hne Hsuf Hlen) as (a' & Hf' & ->).
  replace (wsw s) with w by (unfold wsw; by rewrite Hc).
  cbn [mbind res_bind HttpServer.ws conn_at]. rewrite drop_all. cbn [on_writable_requests fold_left handshake_role].
  eexists. split.
  { rewrite Z.sub_0_r. change (nz 0) with false. cbv iota. destruct (hdr_parsing_completed _); [|reflexivity].
    unfold wstate, wsw. cbn [negb conn set_conn HttpServer.ws conn_at].
    rewrite Hst, bool_decide_eq_false_2 by set_solver. reflexivity. }
  split; [exact Hs|]. split; [exact Hr|]. split; [exact Ha|]. exists a', w, (pre ++ t).
  rewrite <- app_assoc. by split_and!.
Qed.

(** A read that ends the request: the response lies over what was read. *)
Lemma read_request_last r suf s :
  in_headers s suf -> len (suf ++ r) < 10000000 ->
  exists s', lws_read_h1 A false (suf ++ r) s = Ok (len suf, s') /\ upgraded s' /\
    serv_buf s' = response_over key (upgrade_response SA c0 uri hs p key extra) (serv_buf s).
Proof.
  intros (Hs & Hr & Ha & a & w & pre & Hc & Hf & Ht & Hsuf & Hd & Hst & Hb & Ho & Hrec) Hlen.
  unfold lws_read_h1, wstate, wsw. rewrite Hc. cbn [conn_at HttpServer.ws]. rewrite Hst. unfold read_headers.
  rewrite Ha, Hc. cbn [negb].
  destruct (handshake_last a w pre suf r Hf Ht Hsuf Hlen Hd) as (c' & -> & Ho' & Hrdy & [Hkb Hkr] & Hpr & Hbuf).
  cbn [mbind res_bind].
  match goal with |- context [on_writable_requests A ?tr ?v] =>
    pose proof (writable_same A tr v) as Hw; pose proof (writable_serv_buf A tr v) as Hw';
    set (s1 := on_writable_requests A tr v) in * end.
  clearbody s1. pose proof Hw as [= Hw1 Hw2 _ _ _ _ _]. cbn [conn set_conn] in Hw1. change (serv_buf s1 = serv_buf s) in Hw'.
  set (s2 := handshake_role A HttpServer.Upgraded_ws s1).
  assert (wsw s2 = HttpServer.ws c') as Hw2' by (unfold s2, wsw, handshake_role; cbn [conn set_serv_buf set_role]; by rewrite Hw1).
  exists s2. split.
  { change (nz 0) with false. cbv iota. replace (len (suf ++ r) - len r) with (len suf) by (rewrite len_app; lia).
    destruct (hdr_parsing_completed _); [|done]. unfold wstate. rewrite Hw2'. pose proof Hrdy as ((_ & _ & _ & -> & _) & _).
    rewrite bool_decide_eq_false_2 by set_solver. done. }
  split.
  - split; [exact (served_eq (set_conn c' s) s1 Hw Hs)|]. split; [done|]. rewrite Hw2'. split_and!; [congruence|done| |congruence].
    by rewrite Ho', Ho.
  - unfold s2, handshake_role. cbn [serv_buf set_serv_buf conn set_role]. rewrite Hw1, Hpr, Hw'. apply Hbuf.
Qed.

Lemma upgraded_in_frames s : upgraded s -> in_frames s (flat_map wire fs).
Proof.
  intros (Hs & Hr & Hb & Hrdy & Ho & Hrec). split; [done|]. split; [done|]. split; [done|]. split; [|done].
  rewrite <- Hrec. by apply ex_ready with (c := false).
Qed.

Lemma in_headers_reading s suf : in_headers s suf -> reading_headers s.
Proof.
  intros (Hs & Hr & Ha & a & w & pre & Hc & _ & _ & _ & (_ & Hfl & _) & Hst & Hb & _).
  unfold reading_headers, wstate, wsw. by rewrite Hc.
Qed.

Lemma in_headers_read t s suf : in_headers s suf -> in_headers (has_read t s) suf.
Proof.
  intros (Hs & Hr & Ha & a & w & pre & Hc & Hf & Ht & Hsuf & Hd & Hst & Hb & Ho & Hrec).
  split; [exact Hs|]. split; [exact Hr|]. split; [exact Ha|]. exists a, (set_could_have_pending false w), pre.
  unfold has_read, load, set_ws, wsw. cbn [conn set_conn set_serv_buf]. rewrite Hc. by split_and!.
Qed.

(** One round of a connection that is still in its headers; the pieces [ps]
    are those behind the request. *)
Lemma headers_round b l ps s :
  in_headers s (concat (b :: l)) -> pieces (b :: l) ->
  exists l' s', lws_service_fd_tsi A LWS_POLLIN (arrivals (b :: l ++ ps)) s = Ok (0, arrivals (l' ++ ps), s') /\
    (l' <> [] /\ in_headers s' (concat l') \/ l' = [] /\ upgraded s') /\
    pieces l' /\ (length (concat l') < length (concat (b :: l)))%nat.
Proof.
  intros H Hp. apply Forall_cons in Hp as [Hb Hl].
  destruct (headers_pollin A b (l ++ ps) s (proj1 Hserv) (in_headers_reading _ _ H) Hb) as (t & b' & -> & Ht & Htl & _ & Hgo).
  apply (in_headers_read t) in H as H0. set (s0 := has_read t s) in *.
  exists (rest_of b' l). rewrite concat_rest_of. cbn [concat] in *.
  assert (rest_of b' (l ++ ps) = rest_of b' l ++ ps) as Erest by (by destruct b'). rewrite Erest in Hgo.
  pose proof (rest_of_pieces b' l Hl) as Hp'. rewrite !length_app. unfold len in Htl.
  destruct (decide (rest_of b' l = [])) as [Hnil|Hsome].
  - assert (b' = [] /\ l = []) as [-> ->] by (by destruct b', l). cbn [concat] in H0. rewrite app_nil_r in H0.
    destruct (read_request_last [] (t ++ []) s0 H0) as (s1 & Hr & Hup & _); [rewrite !app_nil_r; unfold len; lia|].
    rewrite !app_nil_r in Hr. rewrite (Hgo _ _ _ Hr (len_nonneg t) (consume_all t s1)). eexists. split; [done|].
    split; [|cbn; lia || (split; [done|cbn; lia])]. right. split; [done|]. unfold detached. destruct (_ && _); exact Hup.
  - rewrite <- app_assoc in H0. destruct (read_request_more t (b' ++ concat l) s0 H0 Ht) as (s1 & Hr & H1).
    { rewrite <- concat_rest_of. intros Hc. apply Hsome. destruct (rest_of b' l) as [|x y]; [done|].
      apply Forall_cons in Hp' as [Hx _]. by destruct x. }
    { unfold len. lia. }
    rewrite (Hgo _ _ _ Hr (len_nonneg t) (consume_all t s1)). eexists. split; [done|].
    split; [|split; [done|lia]]. left. split; [done|].
    pose proof H1 as (_ & Hr1 & Ha1 & _). unfold detached. rewrite Hr1, bool_decide_eq_true_2 by set_solver.
    by rewrite andb_false_r.
Qed.

(** ** To the end *)

Lemma served_open s : served s -> closed s = false.
Proof. by intros (_ & ? & _). Qed.

Lemma frames_rounds n : forall l s,
  in_frames s (concat l) -> pieces l -> (length (concat l) <= n)%nat ->
  exists s', poll_rounds A n (arrivals l) s = Ok ([], s') /\ in_frames s' [].
Proof.
  induction n as [|n IH]; intros l s H Hp Hn.
  { destruct l as [|b l]; [by exists s|]. apply Forall_cons in Hp as [Hb _]. destruct b; [done|]. cbn in Hn. lia. }
  destruct l as [|b l]; [by exists s|]. cbn [poll_rounds arrivals fmap list_fmap].
  destruct (frames_round b l s H Hp) as (l' & s' & Hr & H' & Hp' & Hd).
  cbn [arrivals fmap list_fmap] in Hr. rewrite Hr. cbn [mbind res_bind].
  rewrite (served_open s') by apply H'. apply IH; [done..|lia].
Qed.

Lemma headers_rounds n : forall l ps s,
  in_headers s (concat l) -> pieces l -> pieces ps -> concat ps = flat_map wire fs ->
  (length (concat l) + length (concat ps) <= n)%nat ->
  exists s', poll_rounds A n (arrivals (l ++ ps)) s = Ok ([], s') /\ in_frames s' [].
Proof.
  induction n as [|n IH]; intros l ps s H Hl Hps Hc Hn.
  all: destruct l as [|b l]; [by destruct H as (_ & _ & _ & a & w & pre & _ & _ & _ & [] & _)|].
  { apply Forall_cons in Hl as [Hb _]. destruct b; [done|]. cbn in Hn. lia. }
  destruct (headers_round b l ps s H Hl) as (l' & s' & Hr & H' & Hp' & Hd).
  change (poll_rounds A (S n) (arrivals ((b :: l) ++ ps)) s) with
    ('(_, sock, s) ← lws_service_fd_tsi A LWS_POLLIN (arrivals (b :: l ++ ps)) s;
     if closed s then Ok (sock, s) else poll_rounds A n sock s).
  rewrite Hr. cbn [mbind res_bind]. destruct H' as [[Hne H']|[-> H']]; rewrite (served_open s') by apply H'.
  - apply IH; [done..|lia].
  - cbn [app]. apply frames_rounds; [rewrite Hc; by apply upgraded_in_frames|done|lia].
Qed.

End Served.

(** A server connection that waits for its first request. *)
Definition waits_for_request (s : swsi) : Prop :=
  served s /\ role s = ROLE_H1 /\ ah_attached s = true /\ wstate s = LRS_HEADERS /\ buflist (wsw s) = [].

Lemma waits_in_headers A s uri hs p key extra :
  upgrade_request (an_parse A) (an_env A) (an_server A) (conn s) uri hs p key extra -> waits_for_request s ->
  in_headers A (conn s) uri hs s (request_text uri hs).
Proof.
  intros [_ _ _ _ _ _ _ _ _ _ _ (_ & _ & Hd) _] (Hs & Hr & Ha & Hst & Hb).
  split; [exact Hs|]. split; [exact Hr|]. split; [exact Ha|].
  exists (HttpParse.ah (HttpServer.http (conn s))), (wsw s), [].
  split_and!; try done. unfold conn_at, wsw. by destruct (conn s) as [[] ? ? ?].
Qed.

(** C7: A connection served to the end.  The bytes of an upgrade request that
    nobody refuses arrive on a fresh server connection, cut into non-empty
    pieces in any way, and behind them the bytes of data frames, cut in any way
    again; the client has waited with the frames, as it must, so no piece has
    bytes of both.  Serving POLLIN with [lws_service_fd_tsi], for at most one
    round per byte, ends with all of the input read, the connection open in the
    WebSocket role and between frames, nothing left in the queue, the 101
    response of the request the only output, and exactly the payloads of the
    frames, in order, handed to the user. *)
Theorem connection_served (A : answers) (s : swsi) (uri : bytes) (hs : list (bytes * bytes)) (p : nat)
    (key extra : bytes) (fs : list frame) (rs ps : list bytes) :
  upgrade_request (an_parse A) (an_env A) (an_server A) (conn s) uri hs p key extra ->
  data_seq false fs -> 0 < pt_serv_buf_size (an_env A) < 10000000 -> waits_for_request s ->
  pieces rs -> concat rs = request_text uri hs -> pieces ps -> concat ps = flat_map wire fs ->
  exists s', poll_rounds A (length (concat (rs ++ ps))) (arrivals (rs ++ ps)) s = Ok ([], s') /\
    role s' = ROLE_WS /\ closed s' = false /\ buflist (wsw s') = [] /\
    (exists c, ready (an_env A) c (wsw s')) /\
    output (wsw s') = output (wsw s) ++ upgrade_response (an_server A) (conn s) uri hs p key extra /\
    received (trace (wsw s')) = received (trace (wsw s)) ++ flat_map f_payload fs.
Proof.
  intros Hreq Hfs Hserv Hw Hrs Hrc Hps Hpc.
  destruct (headers_rounds A (conn s) uri hs p key extra fs Hreq Hfs Hserv (length (concat (rs ++ ps))) rs ps s)
    as (s1 & H1 & (Hs1 & Hr1 & Hq & Hex & Ho)); [|done..| |].
  - rewrite Hrc. by eapply waits_in_headers.
  - by rewrite concat_app, length_app.
  - exists s1. apply expects_end in Hex as (c & Hc & Ht). pose proof (served_open s1 Hs1). split_and!; eauto.
Qed.

(** C39: What comes with the request is spoiled and waits.  When bytes [x]
    arrive in the same read as the end of an upgrade request, the request is
    answered and the connection is a WebSocket, but none of [x] is handed to
    the user: it is queued, and it is queued as the service buffer holds it
    after the response has been built there.  Its bytes from position 400 of
    the read on are those of the response, up to the response's end, and the
    others are as they came.  poll has nothing more to report, so a loop that
    only serves what poll reports, as [Serveri::run] does, leaves the queue
    there until the peer sends something else; [lws_service_adjust_timeout],
    which such a loop is to call, says not to wait. *)
Theorem frames_with_request (A : answers) (s : swsi) (uri : bytes) (hs : list (bytes * bytes)) (p : nat)
    (key extra x : bytes) :
  upgrade_request (an_parse A) (an_env A) (an_server A) (conn s) uri hs p key extra ->
  0 < pt_serv_buf_size (an_env A) < 10000000 -> len (serv_buf s) = pt_serv_buf_size (an_env A) ->
  waits_for_request s -> x <> [] -> len (request_text uri hs ++ x) <= pt_serv_buf_size (an_env A) ->
  let response := upgrade_response (an_server A) (conn s) uri hs p key extra in
  let n := length (request_text uri hs) in
  exists s' q, lws_service_fd_tsi A LWS_POLLIN [Arrived (request_text uri hs ++ x)] s = Ok (0, [], s') /\
    role s' = ROLE_WS /\ closed s' = false /\ output (wsw s') = output (wsw s) ++ response /\
    received (trace (wsw s')) = received (trace (wsw s)) /\
    Buflist.queue (buflist (wsw s')) = q /\ length q = length x /\
    (forall i, (n <= i < n + length x)%nat -> (400 <= i < 400 + length response)%nat ->
      q !! (i - n)%nat = response !! (i - 400)%nat) /\
    (forall i, (n <= i < n + length x)%nat -> (length key + 37 <= i)%nat -> (i < 400 \/ 400 + length response < i)%nat ->
      q !! (i - n)%nat = x !! (i - n)%nat) /\
    forall m, poll_rounds A m [] s' = Ok ([], s') /\ lws_service_adjust_timeout (Z.of_nat m) s' = 0.
Proof.
  intros Hreq Hserv Hbuf Hw Hx Hlen response n. set (b := request_text uri hs ++ x) in *.
  assert (b <> []) as Hb by (unfold b; by destruct (request_text uri hs)).
  assert (0 < length x)%nat as Hlx by (destruct x; [done|cbn; lia]).
  assert (length b = n + length x)%nat as Hlb by (unfold b, n; by rewrite length_app).
  pose proof (waits_in_headers _ _ _ _ _ _ _ Hreq Hw) as Hin.
  destruct (headers_pollin A b [] s (proj1 Hserv) (in_headers_reading _ _ _ _ _ _ Hin) Hb) as (t & b' & Hbt & _ & _ & Hall & Hgo). rewrite (Hall Hlen), app_nil_r in Hbt. subst t.
  rewrite (Hall Hlen) in Hgo. clear Hall b'. apply (in_headers_read _ _ _ _ b) in Hin as H0. set (s0 := has_read b s) in *.
  assert (serv_buf s0 = list_inserts 0 b (serv_buf s)) as Hsb by done.
  destruct (read_request_last A (conn s) uri hs p key extra [] Hreq I Hserv x _ s0 H0) as (s1 & Hread & Hup & Hsb1);
    [fold b; lia|]. fold b in Hread. fold response in Hsb1.
  pose proof Hup as ((Hev & Hcl & Hrx) & Hrole & Hb1 & Hrdy & Ho & Hrec).
  assert (forall j, (n <= j < n + length x)%nat ->
    remaining false b (len (request_text uri hs)) s1 !! (j - n)%nat = response_over key response (list_inserts 0 b (serv_buf s)) !! j) as Hrem.
  { intros j Hj. unfold remaining, len. rewrite Nat2Z.id, lookup_drop. fold n. replace (n + (j - n))%nat with j by lia.
    rewrite lookup_take_lt by lia. by rewrite Hsb1, Hsb. }
  assert (forall j, (j < length b)%nat -> list_inserts 0 b (serv_buf s) !! j = b !! j) as Hover.
  { intros j Hj. rewrite list_lookup_inserts; [by rewrite Nat.sub_0_r|lia|unfold len in *; lia]. }
  assert (length (remaining false b (len (request_text uri hs)) s1) = length x) as Hlr.
  { unfold remaining, len. rewrite Nat2Z.id, length_drop, length_take, Hsb1, response_over_length, Hsb, length_inserts.
    unfold len in *. fold n. lia. }
  destruct (leave_rest b (len (request_text uri hs)) s1 Hb1) as (l & Hcons & Hq); [unfold len; fold n; lia|lia| |].
  { intros Hnil. rewrite Hnil in Hlr. cbn in Hlr. lia. }
  pose proof (Hgo _ _ _ Hread (len_nonneg _) Hcons) as Hsvc. cbn [rest_of arrivals fmap list_fmap] in Hsvc.
  set (s2 := set_on_buflist_list true _) in *. exists (detached s2), (Buflist.queue l).
  assert (wsw (detached s2) = set_buflist l (wsw s1) /\ role (detached s2) = role s1 /\ closed (detached s2) = closed s1 /\
    on_buflist_list (detached s2) = true) as (Ew & Er & Ec & El) by (unfold detached; by destruct (_ && _)).
  rewrite Ew, Er, Ec. split; [exact Hsvc|]. split; [done|]. split; [done|]. split; [exact Ho|]. split; [exact Hrec|].
  split; [done|]. rewrite Hq. split; [done|]. split; [|split].
  - intros i Hi Hr. rewrite Hrem by done. apply response_over_in; [done|]. rewrite length_inserts. unfold len in *. lia.
  - intros i Hi Hk Hr. pose proof Hreq as [_ _ _ _ _ _ _ _ _ _ (_ & _ & Hkb) _ _].
    rewrite Hrem, response_over_out, Hover by (done || lia). unfold b. by rewrite lookup_app_r by (unfold n in *; lia).
  - intros m. split; [by destruct m|]. pose proof Hrdy as ((_ & _ & Hf & Hst & _) & _).
    unfold lws_service_adjust_timeout, lws_is_flowcontrolled, wstate. rewrite El, Ew.
    change (rxflow_bitmap (set_buflist l (wsw s1))) with (rxflow_bitmap (wsw s1)).
    change (state (set_buflist l (wsw s1))) with (state (wsw s1)). by rewrite Hf, Hst.
Qed.

Definition sample_serving : answers :=
  mk_answers HttpParse.env_default WsRxProps.sample_env sample_server (fun _ s => Ok (0, s)) (fun s => Ok (0, s))
    (fun s => (0, s)) (Some (replicate 4096 0)) 10 true (WsTx.Taken 4096) [] (fun w => Ok (0, w)) (fun _ _ l s => Ok (LWS_HPI_RET_HANDLED, l, s)).

(** The members of a transaction that has not begun. *)
Definition sample_transaction : HttpHeader.http_tx :=
  HttpHeader.mk_http_tx HttpHeader.HTTP_VERSION_1_0 HttpHeader.HTTP_CONNECTION_CLOSE 0 0 false false.

Definition sample_waiting : swsi :=
  mk_swsi (HttpServer.mk_conn (HttpServer.http sample_http) (set_state LRS_HEADERS (HttpServer.ws sample_http))
      (HttpServer.vh sample_http) (HttpServer.protocol sample_http))
    ROLE_H1 true false false false false false 0 0 0 sample_transaction (replicate 4096 0) LWS_POLLIN false.

Definition sample_frame_1 : frame := mk_frame false 2 (Some [1; 2; 3; 4]) (str "hel").
Definition sample_frame_2 : frame := mk_frame true 0 None (str "lo").

Definition sample_frames : list frame := [sample_frame_1; sample_frame_2].

Definition sample_text : bytes := request_text (str "/chat") sample_request.

Lemma sample_waiting_request :
  upgrade_request HttpParse.env_default WsRxProps.sample_env sample_server (conn sample_waiting) (str "/chat")
    sample_request 1 (str "dGhlIHNhbXBsZSBub25jZQ==") [].
Proof. apply (upgrade_request_ws _ _ _ sample_http); [by unfold http_done|exact sample_upgrade_request]. Qed.

Lemma sample_frames_ok : data_seq false sample_frames.
Proof.
  cbn. unfold data_frame. cbn. split_and!; try (by left); try (by right); try done;
    apply (bool_decide_unpack _); vm_compute; exact I.
Qed.

Lemma connection_served_witness :
  exists s', poll_rounds sample_serving (length (sample_text ++ flat_map wire sample_frames))
      (arrivals [take 50 sample_text; drop 50 sample_text; wire sample_frame_1; wire sample_frame_2]) sample_waiting =
      Ok ([], s') /\
    role s' = ROLE_WS /\ received (trace (wsw s')) = str "hello".
Proof.
  destruct (connection_served sample_serving sample_waiting (str "/chat") sample_request 1
    (str "dGhlIHNhbXBsZSBub25jZQ==") [] sample_frames [take 50 sample_text; drop 50 sample_text]
    [wire sample_frame_1; wire sample_frame_2]) as (s1 & H1 & H3 & _ & _ & _ & _ & H8).
  - exact sample_waiting_request.
  - exact sample_frames_ok.
  - split; reflexivity.
  - done.
  - apply Forall_cons; split; [|apply Forall_cons; split; [|constructor]]; vm_compute; discriminate.
  - cbn [concat]. by rewrite app_nil_r, take_drop.
  - by repeat constructor.
  - reflexivity.
  - exists s1. split; [exact H1|]. split; [exact H3|exact H8].
Defined.

(** A frame of 300 bytes that comes with the request: at position 400 of the
    read its payload is replaced by the first letter of the response. *)
Lemma frames_with_request_witness :
  let x := wire (mk_frame true 2 None (replicate 300 7)) in
  exists s' q, lws_service_fd_tsi sample_serving LWS_POLLIN [Arrived (sample_text ++ x)] sample_waiting = Ok (0, [], s') /\
    role s' = ROLE_WS /\ Buflist.queue (buflist (wsw s')) = q /\
    q !! (400 - length sample_text)%nat = Some 72 /\ x !! (400 - length sample_text)%nat = Some 7.
Proof.
  cbv zeta. set (x := wire (mk_frame true 2 None (replicate 300 7))).
  destruct (frames_with_request sample_serving sample_waiting (str "/chat") sample_request 1
    (str "dGhlIHNhbXBsZSBub25jZQ==") [] x) as (s' & q & H1 & H2 & _ & _ & _ & H3 & _ & H4 & _).
  - exact sample_waiting_request.
  - split; reflexivity.
  - reflexivity.
  - done.
  - discriminate.
  - vm_compute. discriminate.
  - exists s', q. split; [exact H1|]. split; [exact H2|]. split; [exact H3|]. split; [|reflexivity].
    fold sample_text in H4. rewrite H4; [vm_compute; reflexivity|apply (bool_decide_unpack _); vm_compute; exact I|
      apply (bool_decide_unpack _); vm_compute; exact I].
Defined.

End ServiceProof.
