(* ===== verification/HttpActionProof.v ===== *)
(** * Plain HTTP requests served and not served

    What becomes of a GET request without an upgrade, from the bytes on the
    socket on: with a callback that answers nothing the connection stays behind
    and is never read again. *)

From S2P Require Import Prelude CLib Buflist HttpLex HttpParse HttpParseSafe HttpParseProof WsState WsRx WsRxProof WsRxProps WsTx WsTxProof WsFrame Upgrade UpgradeProof HttpServer HttpServerProof HttpHeader Service HttpAction ServiceProof.

Module HttpActionProof.
Import HttpParse HttpParseProof HttpServer HttpServerProof Ws WsRxProof Service ServiceProof HttpAction.

(** ** The request *)

(** A GET request without an upgrade and without a body, whose path begins
    with a slash. *)
Record plain_request (PE : parse_env) (SA : server_answers) (c : HttpServer.conn) (uri : bytes) (hs : list (bytes * bytes)) : Prop := {
  pr_limits : token_limits PE = None;
  pr_table : empty_table PE (HttpParse.ah (http c));
  pr_uri : (exists u, uri = 47 :: u) /\ plain_uri false uri = true;
  pr_headers : Forall header_ok hs /\ Z.of_nat (length hs) <= 92;
  pr_size : request_size uri hs <= max_http_header_data PE < 2 ^ 16 - 1;
  pr_keywords : s_reject_keywords SA = [];
  pr_absent : Forall (fun h => request_table uri hs h = [])
    [WSI_TOKEN_UPGRADE; HttpHeader.WSI_TOKEN_HTTP_CONTENT_LENGTH; WSI_TOKEN_HTTP_COLON_PATH]
}.

Lemma request_table_get uri hs : Forall header_ok hs -> request_table uri hs WSI_TOKEN_GET_URI = [uri].
Proof.
  intros Hhs. unfold request_table.
  assert (H0 : upd (upd (fun _ => []) WSI_TOKEN_GET_URI [uri]) WSI_TOKEN_HTTP [str "HTTP/1.1"] WSI_TOKEN_GET_URI = [uri]).
  { rewrite upd_ne by (intros [=]). apply upd_eq. }
  revert H0. generalize (upd (upd (fun _ : Z => []) WSI_TOKEN_GET_URI [uri]) WSI_TOKEN_HTTP [str "HTTP/1.1"]).
  induction Hhs as [|hv hs [_ Hk] _ IH]; intros T HT; cbn [fold_left]; [done|]. apply IH. unfold add_header.
  destruct Hk as [(n & -> & _ & _ & Hn)|[Hu _]]; [|by rewrite unknown_word].
  rewrite upd_ne; [done|]. intros <-. by apply Hn; left.
Qed.

Lemma lengths_one (c : bool) u : u <> [] -> nz (Upgrade.frags_length c [u]) = true.
Proof.
  intros Hu. apply nz_true. cbn [Upgrade.frags_length].
  assert (0 < len u) by (destruct u; [done|rewrite len_cons; pose proof (len_nonneg u); lia]). lia.
Qed.

(** The headers are complete and nothing asks for an upgrade. *)
Lemma handshake_complete_plain PE E SA c T :
  holds PE (HttpParse.ah (http c)) T -> s_reject_keywords SA = [] -> T WSI_TOKEN_CONNECT = [] -> T WSI_TOKEN_UPGRADE = [] ->
  HttpServer.handshake_complete E SA c = Ok (Http_action, as_http (mk_conn (http c)
    (Ws.set_state Ws.LRS_PRE_WS_SERVING_ACCEPT (ws c)) (bound_vhost SA c T) (protocol c))).
Proof.
  intros Hh Hrej Hcon Hup. unfold handshake_complete.
  destruct (holds_functions _ _ _ WSI_TOKEN_HOST Hh ltac:(done)) as (-> & -> & _).
  change (WSI_TOKEN_HOST =? WSI_TOKEN_HTTP_COOKIE) with false. cbn [lift_parse mbind res_bind].
  assert (forall X (k : option bytes -> res server_fault X),
    (x ← (if nz (listen_port (vh c)) && nz (Upgrade.frags_length false (T WSI_TOKEN_HOST))
          then Ok (list.head (T WSI_TOKEN_HOST)) else Ok None); k x) =
    k (if nz (listen_port (vh c)) && nz (Upgrade.frags_length false (T WSI_TOKEN_HOST))
       then list.head (T WSI_TOKEN_HOST) else None)) as Hm by (intros X k; by destruct (_ && _)).
  rewrite Hm. clear Hm. cbn [http ws HttpServer.vh HttpServer.protocol].
  assert (match (if nz (listen_port (vh c)) && nz (Upgrade.frags_length false (T WSI_TOKEN_HOST))
                 then list.head (T WSI_TOKEN_HOST) else None) with
          | Some h => default (vh c) (s_select_vhost SA h) | None => vh c end = bound_vhost SA c T) as ->.
  { unfold bound_vhost.
    by destruct (nz (listen_port (vh c)) && nz (Upgrade.frags_length false (T WSI_TOKEN_HOST))). }
  rewrite Hrej. cbn [mbind res_bind fst Z.gtb Z.compare].
  destruct (holds_functions _ _ _ WSI_TOKEN_CONNECT Hh ltac:(done)) as (-> & _). rewrite Hcon.
  cbn [lift_parse mbind res_bind Upgrade.frags_length nz Z.eqb negb].
  destruct (holds_functions _ _ _ WSI_TOKEN_UPGRADE Hh ltac:(done)) as (-> & _). by rewrite Hup.
Qed.

Lemma plain_parsed PE E SA c uri hs x :
  plain_request PE SA c uri hs -> len (request_text uri hs ++ x) < 10000000 ->
  exists h, lws_handshake_server PE E SA (request_text uri hs ++ x) c =
      Ok (Http_action, x, mk_conn h (Ws.set_state Ws.LRS_ESTABLISHED (Ws.set_state Ws.LRS_PRE_WS_SERVING_ACCEPT (ws c)))
        (bound_vhost SA c (request_table uri hs)) (protocol c)) /\
    HttpParse.hdr_parsing_completed h = true /\ holds PE (HttpParse.ah h) (request_table uri hs).
Proof.
  intros [Hlim Htab [(u & Hu) Hpl] [Hok Hn] Hsz Hrej Habs] Hlen.
  destruct (parse_request_holds PE (http c) uri hs x) as (h & Hp & Hs & Hd & _ & Hh); try done; [by subst|].
  exists h. split; [|done]. unfold lws_handshake_server. destruct (Z.geb_spec (len (request_text uri hs ++ x)) 10000000); [lia|].
  assert (exists b bs, request_text uri hs ++ x = b :: bs) as (b & bs & Eb) by (by eexists _, _).
  rewrite Eb in *. cbn [handshake_loop]. rewrite Hp. cbn [lift_parse mbind res_bind].
  change (LPR_OK =? LPR_DO_FALLBACK) with false. change (nz LPR_OK) with false. cbv iota. rewrite Hs.
  cbn [Z.eqb Pos.eqb negb WSI_PARSING_COMPLETE].
  apply Forall_cons in Habs as [Hup _].
  rewrite (handshake_complete_plain PE E SA (set_http h c) (request_table uri hs)); [done|done|done| |done].
  apply request_table_method; [done|apply (bool_decide_unpack _); vm_compute; reflexivity|done].
Qed.

(** ** The action with a callback that does nothing *)

(** What the user's answers to the callbacks of a plain request leave to the
    library: nothing is refused, nothing sent and nothing mounted.  This is how
    [Serveri.callback] answers them. *)
Definition inert (A : answers) (H : http_answers) : Prop :=
  ha_user_space H = true /\ ha_mounts H = [] /\
  (forall u s, ha_http H u s = Ok (callback A LWS_CALLBACK_HTTP u s)) /\
  forall tr r p, user_callback (an_env A) tr r p = 0.

(** What such a request leaves alone. *)
Definition io (s : swsi) :=
  (role s, ah_attached s, favoured_pollin s, events s, closed s, rxflow_change_to s, buflist (wsw s), buflist_out (wsw s),
   rxflow_bitmap (wsw s), output (wsw s), hdr_parsing_completed s).

Lemma io_emit e s : (forall b, e <> Issue b) -> io (set_ws (emit e (wsw s)) s) = io s.
Proof.
  intros He. unfold io. change (wsw (set_ws (emit e (wsw s)) s)) with (emit e (wsw s)).
  assert (output (emit e (wsw s)) = output (wsw s)) as ->; [|done].
  unfold output, emit. change (trace (set_trace (trace (wsw s) ++ [e]) (wsw s))) with (trace (wsw s) ++ [e]).
  rewrite sent_app. destruct e as [| | | |b]; try (by rewrite app_nil_r). by destruct (He b).
Qed.

Lemma callback_inert A r p s :
  (forall tr r p, user_callback (an_env A) tr r p = 0) ->
  exists s', callback A r p s = (0, s') /\ io s' = io s /\ wstate s' = wstate s /\ table s' = table s /\
    rx_content_length s' = rx_content_length s /\ htx s' = htx s /\ serv_buf s' = serv_buf s.
Proof.
  intros Hu. unfold callback. rewrite Hu. eexists. split; [done|]. split; [by apply io_emit|done].
Qed.

Lemma bind_inert A H p s :
  inert A H ->
  exists s', lws_bind_protocol A H p s = (0, s') /\ io s' = io s /\ wstate s' = wstate s /\ table s' = table s /\
    rx_content_length s' = rx_content_length s /\ htx s' = htx s /\ serv_buf s' = serv_buf s.
Proof.
  intros (Hus & _ & _ & Hu). unfold lws_bind_protocol. rewrite Hus. cbn [negb].
  set (s1 := match HttpServer.protocol (conn s) with Some _ => _ | None => s end).
  assert (io s1 = io s /\ wstate s1 = wstate s /\ table s1 = table s /\ rx_content_length s1 = rx_content_length s /\
    htx s1 = htx s /\ serv_buf s1 = serv_buf s) as (H1 & H2 & H3 & H4 & H5 & H6).
  { unfold s1. destruct (HttpServer.protocol (conn s)); [|done].
    by destruct (callback_inert A LWS_CALLBACK_HTTP_DROP_PROTOCOL [] s Hu) as (s' & -> & ?). }
  clearbody s1. set (s2 := set_conn _ s1).
  destruct (callback_inert A LWS_CALLBACK_HTTP_BIND_PROTOCOL [] s2 Hu) as (s' & -> & E1 & E2 & E3 & E4 & E5 & E6).
  exists s'. rewrite E1, E2, E3, E4, E5, E6, <- H1, <- H2, <- H3, <- H4, <- H5, <- H6. done.
Qed.

(** A GET request has no other method. *)
Lemma other_methods PE a uri hs :
  holds PE a (request_table uri hs) -> Forall header_ok hs ->
  Forall (fun m => lws_hdr_total_length m a = Ok 0) ([WSI_TOKEN_POST_URI; WSI_TOKEN_OPTIONS_URI; WSI_TOKEN_PUT_URI; WSI_TOKEN_PATCH_URI; WSI_TOKEN_DELETE_URI;
     WSI_TOKEN_CONNECT; WSI_TOKEN_HEAD_URI]).
Proof.
  intros Hh Hok. apply Forall_forall. intros m Hm.
  assert (m ∈ methods /\ m <> WSI_TOKEN_GET_URI /\ 0 <= m < WSI_TOKEN_COUNT) as (H1 & H2 & H3).
  { split; [by right|]. revert Hm. rewrite !elem_of_cons, elem_of_nil.
    intros Hm. destruct_or?; subst; try done; split; done. }
  destruct (holds_functions _ _ _ m Hh H3) as (-> & _). by rewrite request_table_method.
Qed.

(** The method and the URI of a plain request. *)
Lemma plain_method PE a uri hs :
  holds PE a (request_table uri hs) -> Forall header_ok hs -> uri <> [] ->
  request_table uri hs WSI_TOKEN_HTTP_COLON_PATH = [] ->
  exists l, lws_http_get_uri_and_method a = Ok (0, Some uri, l).
Proof.
  intros Hh Hok Hne Hcp. unfold lws_http_get_uri_and_method, action_methods. cbn [methods_present].
  pose proof (other_methods PE a uri hs Hh Hok) as Hno.
  destruct (holds_functions _ _ _ WSI_TOKEN_GET_URI Hh ltac:(done)) as (Hl & Hp & _).
  rewrite request_table_get in Hl, Hp by done. rewrite Hl. cbn [mbind res_bind].
  repeat (rewrite (Forall_inv Hno); apply Forall_inv_tail in Hno). cbn [mbind res_bind].
  destruct (holds_functions _ _ _ WSI_TOKEN_HTTP_COLON_PATH Hh ltac:(done)) as (-> & _).
  rewrite Hcp. cbn [mbind res_bind]. change (nz (Upgrade.frags_length _ [])) with false. cbv iota.
  rewrite lengths_one by done. rewrite Hp, Hl. cbn [mbind res_bind list.head]. eauto.
Qed.

Lemma plain_no_body PE a uri hs :
  holds PE a (request_table uri hs) -> Forall header_ok hs ->
  request_table uri hs HttpHeader.WSI_TOKEN_HTTP_CONTENT_LENGTH = [] ->
  content_length a = Ok (0, false, None).
Proof.
  intros Hh Hok Hcl. unfold content_length.
  pose proof (other_methods PE a uri hs Hh Hok) as Hno.
  rewrite (proj1 (Forall_forall _ _) Hno WSI_TOKEN_POST_URI), (proj1 (Forall_forall _ _) Hno WSI_TOKEN_PATCH_URI),
    (proj1 (Forall_forall _ _) Hno WSI_TOKEN_PUT_URI) by set_solver. cbn [mbind res_bind].
  destruct (holds_functions _ _ _ HttpHeader.WSI_TOKEN_HTTP_CONTENT_LENGTH Hh ltac:(done)) as (-> & _).
  by rewrite Hcl.
Qed.

(** The version and the kind of connection are always found. *)
Lemma version_found PE a T : holds PE a T -> exists v, http_version a = Ok v.
Proof.
  intros Hh. unfold http_version. destruct (holds_functions _ _ _ WSI_TOKEN_HTTP Hh ltac:(done)) as (-> & _ & Hc & _).
  cbn [mbind res_bind]. destruct (_ >? 7); [|eauto]. rewrite Hc. destruct (copy_of _ _ _) as [n b].
  cbn [mbind res_bind]. eauto.
Qed.

Lemma connection_found PE a T v : holds PE a T -> exists t, connection_type v a = Ok t.
Proof.
  intros Hh. unfold connection_type. destruct (holds_functions _ _ _ WSI_TOKEN_CONNECTION Hh ltac:(done)) as (-> & _ & Hc & _).
  cbn [mbind res_bind]. destruct (nz _); [|eauto]. rewrite Hc. destruct (copy_of _ _ _) as [n b].
  cbn [mbind res_bind]. eauto.
Qed.

Lemma no_mount uri l a PE T : holds PE a T -> lws_find_mount uri l [] a = Ok None.
Proof.
  intros Hh. unfold lws_find_mount.
  destruct (holds_functions _ _ _ WSI_TOKEN_GET_URI Hh ltac:(done)) as (-> & _).
  destruct (holds_functions _ _ _ WSI_TOKEN_POST_URI Hh ltac:(done)) as (-> & _).
  by destruct (holds_functions _ _ _ WSI_TOKEN_HEAD_URI Hh ltac:(done)) as (-> & _).
Qed.

(** The request is given to the user and nothing comes of it. *)
Lemma action_plain A H PE SA c fuel uri hs s :
  inert A H -> plain_request PE SA c uri hs -> holds PE (table s) (request_table uri hs) ->
  exists s', lws_http_action A H fuel s = Ok (0, s') /\ io s' = io s /\ wstate s' = LRS_DOING_TRANSACTION /\
    serv_buf s' = serv_buf s.
Proof.
  intros Hi [_ _ [(u & Hu) _] [Hok _] _ _ Habs] Hh. pose proof Hi as (Hus & Hm & Hcb & Hu0).
  apply Forall_cons in Habs as [_ Habs]. apply Forall_cons in Habs as [Hcl Habs]. apply Forall_cons in Habs as [Hcp _].
  unfold lws_http_action. destruct (plain_method PE (table s) uri hs Hh Hok ltac:(by subst) Hcp) as (l & ->).
  cbn [lift_parse mbind res_bind Z.ltb Z.compare]. subst uri. cbn match. set (uri := 47 :: u) in *. rewrite Hus. cbn [negb].
  rewrite (plain_no_body PE (table s) uri hs Hh Hok Hcl). cbn [lift_parse mbind res_bind].
  destruct (version_found _ _ _ Hh) as (v & Hv). rewrite Hv. cbn [lift_parse mbind res_bind].
  destruct (connection_found _ _ _ v Hh) as (t & Ht). rewrite Ht. cbn [lift_parse mbind res_bind].
  set (s1 := set_htx _ _). assert (io s1 = io s /\ rx_content_length s1 = 0 /\
    HttpHeader.content_length_explicitly_zero (htx s1) = false /\ serv_buf s1 = serv_buf s /\ table s1 = table s) as (I1 & C1 & Z1 & B1 & T1) by done.
  clearbody s1. destruct (callback_inert A LWS_CALLBACK_FILTER_HTTP_CONNECTION uri s1 Hu0) as (s2 & -> & I2 & _ & T2 & C2 & Z2 & B2).
  change (nz 0) with false. cbv iota. rewrite Hm, (no_mount uri l (table s) PE _ Hh). cbn [lift_parse mbind res_bind].
  set (s3 := set_timeout _ s2). assert (io s3 = io s2) as I3 by (by apply io_emit).
  assert (rx_content_length s3 = rx_content_length s2 /\ htx s3 = htx s2 /\ serv_buf s3 = serv_buf s2 /\
    table s3 = table s2) as (C3 & Z3 & B3 & T3) by done.
  clearbody s3. destruct (bind_inert A H 0 s3 Hi) as (s4 & -> & I4 & _ & T4 & C4 & Z4 & B4).
  change (nz 0) with false. cbv iota. set (s5 := set_state_s LRS_DOING_TRANSACTION s4).
  assert (io s5 = io s4 /\ wstate s5 = LRS_DOING_TRANSACTION /\ rx_content_length s5 = rx_content_length s4 /\
    htx s5 = htx s4 /\ serv_buf s5 = serv_buf s4 /\ table s5 = table s4) as (I5 & S5 & C5 & Z5 & B5 & T5) by done. clearbody s5.
  rewrite Hcb. destruct (callback_inert A LWS_CALLBACK_HTTP uri s5 Hu0) as (s6 & -> & I6 & S6 & T6 & C6 & Z6 & B6).
  cbn [mbind res_bind]. exists s6. split; [|split; [congruence|split; congruence]].
  unfold action_after. change (nz 0) with false. cbv iota. rewrite S6, S5, bool_decide_eq_false_2 by done.
  assert (exists q, (if ah_attached s6 then lift_parse (lws_hdr_total_length WSI_TOKEN_POST_URI (table s6)) else Ok 0) = Ok q) as (q & ->).
  { rewrite T6, T5, T4, T3, T2, T1. destruct (holds_functions _ _ _ WSI_TOKEN_POST_URI Hh ltac:(done)) as (-> & _).
    destruct (ah_attached s6); cbn [lift_parse]; eauto. }
  cbn [mbind res_bind]. rewrite Z6, Z5, Z4, Z3, Z2, Z1. cbn [andb]. by rewrite C6, C5, C4, C3, C2, C1.
Qed.

(** ** A connection nobody reads any more *)

(** What poll may report of a connection that has not asked for POLLOUT: input,
    with or without an error or the end of the stream. *)
Definition input_reported (r : Z) : Prop := Z.testbit r 0 = true /\ Z.testbit r 2 = false.

(** Serving a sequence of reports. *)
Fixpoint serve_reports (A : answers) (rs : list Z) (sock : list arrival) (s : swsi)
  : res HttpServer.server_fault (list arrival * swsi) :=
  match rs with
  | [] => Ok (sock, s)
  | r :: rs => '(_, sock, s) ← lws_service_fd_tsi A r sock s;
               if closed s then Ok (sock, s) else serve_reports A rs sock s
  end.

(** The connection is in the middle of a transaction nothing will end. *)
Definition stuck (s : swsi) : Prop :=
  role s = ROLE_H1 /\ wstate s = LRS_DOING_TRANSACTION /\ rxflow_bitmap (wsw s) = 0 /\ Z.odd (events s) = true /\
  closed s = false.

Lemma no_pollout_bit r x : Z.testbit r 2 = false -> nz (Z.land (Z.land r x) LWS_POLLOUT) = false.
Proof.
  intros Hr. apply nz_false. apply Z.bits_inj_iff'. intros n Hn. rewrite !Z.land_spec, Z.bits_0.
  change LWS_POLLOUT with (2 ^ 2). rewrite Z.pow2_bits_eqb by lia. destruct (Z.eqb_spec 2 n) as [<-|]; [by rewrite Hr|].
  by rewrite andb_false_r.
Qed.

Lemma stuck_round A r sock s :
  stuck s -> input_reported r ->
  lws_service_fd_tsi A r sock s = Ok (0, sock, set_ws (set_could_have_pending false (wsw s)) s).
Proof.
  intros (Hr & Hst & Hfl & Hev & Hcl) [H0 H2]. unfold lws_service_fd_tsi.
  assert (nz (Z.land (Z.land r (events s)) LWS_POLLIN) = true) as Hin.
  { apply nz_true. intros Hz. apply (f_equal (fun z => Z.testbit z 0)) in Hz.
    rewrite !Z.land_spec, H0, (Z.bit0_odd (events s)), Hev in Hz. done. }
  rewrite Hin. cbn [negb andb]. set (s0 := set_ws _ s). unfold handle_POLLIN. change (role s0) with (role s). rewrite Hr.
  unfold rops_handle_POLLIN_h1, lws_h1_server_socket_service, lws_is_flowcontrolled.
  change (wstate s0) with (wstate s). change (rxflow_bitmap (wsw s0)) with (rxflow_bitmap (wsw s)). rewrite Hst, Hfl.
  rewrite !bool_decide_eq_false_2 by (done || set_solver). change (nz 0) with false.
  change (0 =? LWS_SSL_CAPABLE_ERROR) with false. cbv iota. change (events s0) with (events s). rewrite Hin. cbn [negb].
  rewrite no_pollout_bit by done. rewrite andb_false_r.
  pose proof (no_pollout_bit r (-1) H2) as Hno. rewrite Z.land_m1_r in Hno. unfold try_pollout. rewrite Hno.
  cbn [negb]. done.
Qed.

Lemma stuck_forever A rs : forall sock s,
  stuck s -> Forall input_reported rs ->
  exists s', serve_reports A rs sock s = Ok (sock, s') /\ closed s' = false /\ output (wsw s') = output (wsw s) /\
    buflist (wsw s') = buflist (wsw s).
Proof.
  induction rs as [|r rs IH]; intros sock s Hs Hrs; [exists s; by destruct Hs as (_ & _ & _ & _ & ?)|].
  apply Forall_cons in Hrs as [Hr Hrs]. cbn [serve_reports]. rewrite stuck_round by done. cbn [mbind res_bind].
  set (s0 := set_ws _ s). assert (stuck s0) as Hs0 by exact Hs. assert (closed s0 = false) as -> by apply Hs.
  destruct (IH sock s0 Hs0 Hrs) as (s' & H1 & H2 & H3 & H4). by exists s'.
Qed.

(** C11: A plain HTTP request hangs the connection and then the loop.  A GET
    request without an upgrade, read in one piece, on a server whose callback
    answers 0 to what it does not know, as [Serveri.callback] does, and that
    has nothing mounted: nothing is sent, and the connection is left in
    LRS_DOING_TRANSACTION.  From then on it is never read: whatever input poll
    reports for it, the end of the stream and errors included, is still there
    after any number of rounds, so poll reports it at once again; nothing is
    ever sent and the connection is never closed. *)
Theorem plain_request_hangs (A : answers) (H : http_answers) (fuel : nat) (s : swsi) (uri : bytes)
    (hs : list (bytes * bytes)) :
  inert A H -> plain_request (an_parse A) (an_server A) (conn s) uri hs -> waits_for_request s ->
  rxflow_bitmap (wsw s) = 0 -> len (request_text uri hs) <= pt_serv_buf_size (an_env A) < 10000000 ->
  let A' := serving_http A H fuel in
  exists s1, lws_service_fd_tsi A' LWS_POLLIN [Arrived (request_text uri hs)] s = Ok (0, [], s1) /\
    wstate s1 = LRS_DOING_TRANSACTION /\ output (wsw s1) = output (wsw s) /\
    forall rs sock, Forall input_reported rs ->
      exists s2, serve_reports A' rs sock s1 = Ok (sock, s2) /\ closed s2 = false /\ output (wsw s2) = output (wsw s).
Proof.
  intros Hi Hreq (Hs & Hr & Ha & Hst & Hb) Hfl Hlen A'. set (b := request_text uri hs) in *.
  assert (0 < len b) as Hb0 by (unfold b, request_text; unfold len; cbn; lia).
  assert (b <> []) as Hne by (by intros Hbn; rewrite Hbn in Hb0).
  destruct (headers_pollin A' b [] s) as (t & b' & Hbt & _ & _ & Hall & Hgo);
    [change (an_env A') with (an_env A); lia|by unfold reading_headers|done|].
  change (an_env A') with (an_env A) in Hall. rewrite (Hall ltac:(lia)), app_nil_r in Hbt. subst t.
  rewrite (Hall ltac:(lia)) in Hgo. clear Hall b'. set (s0 := has_read b s) in *.
  destruct (plain_parsed (an_parse A) (an_env A) (an_server A) (conn s0) uri hs []) as (h & Hhs & Hd & Hh).
  { destruct Hreq. constructor; done. }
  { rewrite app_nil_r. fold b. lia. }
  rewrite app_nil_r in Hhs. fold b in Hhs. set (c' := mk_conn h _ _ _) in Hhs. set (s1 := set_conn c' s0).
  destruct (action_plain (completing A H) H _ _ _ fuel uri hs s1 Hi Hreq Hh) as (s2 & Hact & I2 & S2 & B2).
  injection I2 as J1 J2 J3 J4 J5 J6 J7 J8 J9 J10 J11.
  assert (lws_read_h1 A' false b s0 = Ok (len b, s2)) as Hread.
  { unfold lws_read_h1. change (wstate s0) with (wstate s). rewrite Hst. unfold read_headers.
    change (ah_attached s0) with (ah_attached s). rewrite Ha. cbn [negb].
    change (an_parse A') with (an_parse A). change (an_env A') with (an_env A). change (an_server A') with (an_server A).
    rewrite Hhs. cbn [mbind res_bind].
    assert (drop (length (trace (wsw s0))) (trace (HttpServer.ws c')) = []) as -> by apply drop_all.
    cbn [on_writable_requests fold_left handshake_role]. fold s1.
    change (an_serve_http A' Http_action s1) with (lws_http_action (completing A H) H fuel s1). rewrite Hact.
    cbn [mbind res_bind]. change (nz 0) with false. cbv iota. rewrite J11. change (hdr_parsing_completed s1) with (HttpParse.hdr_parsing_completed h).
    rewrite Hd. cbn [negb]. rewrite S2, bool_decide_eq_false_2 by set_solver. by rewrite Z.sub_0_r. }
  specialize (Hgo _ _ _ Hread (len_nonneg b) (consume_all b s2)).
  assert (detached s2 = s2) as Hdet.
  { unfold detached. rewrite J1. change (role s1) with (role s). rewrite Hr, bool_decide_eq_true_2 by set_solver.
    by rewrite andb_false_r. }
  rewrite Hdet in Hgo. exists s2. split; [exact Hgo|]. split; [done|]. split; [rewrite J10; done|].
  intros rs sock Hrs. destruct (stuck_forever A' rs sock s2) as (s3 & E1 & E2 & E3 & _); [|done|].
  - destruct Hs as (Hev & Hcl & _). split; [by rewrite J1|]. split; [done|]. split; [by rewrite J9|]. split; [by rewrite J4|by rewrite J5].
  - exists s3. split; [done|]. split; [done|]. rewrite E3, J10. done.
Qed.

(** ** Samples *)

Definition plain_headers : list (bytes * bytes) := [(str "Host:", str "lights"); (str "Accept:", str "*/*")].

Lemma plain_headers_ok : Forall header_ok plain_headers.
Proof. repeat apply Forall_cons_2; try apply Forall_nil_2; (eapply known_header_ok; [vm_compute; reflexivity..]). Qed.

Definition sample_site : HttpHeader.http_site := HttpHeader.mk_http_site [] false false (Some (str "libwebsockets")) None.

Definition sample_plain : http_answers :=
  mk_http_answers sample_site [] true (fun u s => Ok (callback sample_serving LWS_CALLBACK_HTTP u s))
    (fun _ _ _ s => Ok (0, s)) 5.

Lemma sample_plain_request :
  plain_request (an_parse sample_serving) (an_server sample_serving) (conn sample_waiting) (str "/") plain_headers.
Proof.
  constructor.
  - reflexivity.
  - exact (fresh_empty LWS_DEF_HEADER_LEN eq_refl).
  - split; [by eexists|done].
  - split; [exact plain_headers_ok|done].
  - split; vm_compute; congruence.
  - reflexivity.
  - by repeat constructor.
Qed.

Lemma plain_request_hangs_witness :
  let A := serving_http sample_serving sample_plain 10 in
  exists s1, lws_service_fd_tsi A LWS_POLLIN [Arrived (request_text (str "/") plain_headers)] sample_waiting = Ok (0, [], s1) /\
    output (wsw s1) = [] /\
    exists s2, serve_reports A [1; 17; 25; 1] [Peer_closed] s1 = Ok ([Peer_closed], s2) /\ closed s2 = false.
Proof.
  cbv zeta. destruct (plain_request_hangs sample_serving sample_plain 10 sample_waiting (str "/") plain_headers)
    as (s1 & H1 & _ & H2 & H3).
  - by split_and!.
  - exact sample_plain_request.
  - done.
  - done.
  - split; vm_compute; congruence.
  - exists s1. split; [exact H1|]. split; [rewrite H2; done|].
    assert (Forall input_reported [1; 17; 25; 1]) as Hrs by (repeat (apply Forall_cons; split; [split; reflexivity|]); constructor).
    destruct (H3 [1; 17; 25; 1] [Peer_closed] Hrs) as (s2 & E1 & E2 & _). exists s2. split; [exact E1|exact E2].
Defined.

End HttpActionProof.
