(* ===== verification/ServiceControl.v ===== *)
(** * A ping served, and what comes of it

    Control frames at the level of the poll loop: the ping is read when POLLIN
    is reported and answered when POLLOUT is, and since the handler that sends
    the pong leaves POLLOUT on, the next round asks the user to write. *)

From S2P Require Import Prelude CLib Buflist WsState WsRx WsRxProof WsRxProps WsTx WsTxProof WsFrame UpgradeProof WsControl HttpParse HttpServer HttpServerProof HttpHeader Service ServiceProof Config Dmx Serveri ServeriInv ServeriProps.

Module ServiceControl.
Import Ws WsRx WsRxProof WsTx WsControl Service ServiceProof.

Section Ping.
Context (A : answers).

#[local] Abbreviation E := (an_env A).

(** While POLLOUT is handled requests for it are only noted. *)
Lemma noted_writable tr s : handling_pollout s = true ->
  exists b, on_writable_requests A tr s = set_leave_pollout_active b s.
Proof.
  intros Hh. assert (forall b, exists b', on_writable_requests A tr (set_leave_pollout_active b s) =
    set_leave_pollout_active b' s) as H.
  { unfold on_writable_requests. induction tr as [|e tr IH]; intros b; [by exists b|]. cbn [fold_left].
    destruct e; try apply IH. unfold lws_callback_on_writable, wstate, wsw, _lws_change_pollfd.
    cbn [conn handling_pollout set_leave_pollout_active]. rewrite Hh. cbn [andb Z.eqb Pos.eqb LWS_POLLOUT].
    destruct (bool_decide _); [apply IH|]. destruct (socket_is_permanently_unusable _); [apply IH|].
    apply (IH true). }
  destruct (H (leave_pollout_active s)) as (b' & Hb'). exists b'. rewrite <- Hb'. f_equal. by destruct s.
Qed.

(** A WebSocket connection between frames that is up to date. *)
Definition idle (c : bool) (s : swsi) : Prop :=
  served s /\ role s = ROLE_WS /\ ah_attached s = false /\ buflist (wsw s) = [] /\ handling_pollout s = false /\
  ready E c (wsw s).

Lemma idle_state c s : idle c s -> state (wsw s) = LRS_ESTABLISHED /\ rxflow_bitmap (wsw s) = 0.
Proof. by intros (_ & _ & _ & _ & _ & (_ & _ & H1 & H2 & _) & _). Qed.

(** The bytes of one read. *)
Lemma read_run c b s w' : idle c s -> byte_run E (wsw s) b w' ->
  ws_drain A false b [] s =
    Ok (LWS_HPI_RET_HANDLED, [], set_ah_attached false (ran A w' s)).
Proof.
  intros Hi Hrun. destruct (idle_state c s Hi) as [Hst Hfl]. destruct Hi as (Hs & Hr & _).
  unfold ws_drain, lws_read_h1, wstate. rewrite Hst, Hr, bool_decide_eq_true_2 by done.
  unfold ws_mode, WsRx.lws_parse_ws. rewrite Hr, bool_decide_eq_true_2 by done.
  destruct (run_read E b (wsw s) w' [] false b (2 * length b + 1)) as (w1 & -> & Hend); [by rewrite app_nil_r|lia|].
  inversion Hend; subst w1. cbn [lift HttpServer.lift_exn mbind res_bind Z.ltb Z.compare].
  pose proof (len_nonneg b). destruct (Z.ltb_spec (len b) 0); [lia|]. unfold lws_buflist_aware_consume.
  rewrite !andb_false_r, Z.eqb_refl. done.
Qed.

Lemma pollout_set ev : nz (Z.land (Z.lor (Z.ldiff ev 0) LWS_POLLOUT) LWS_POLLOUT) = true.
Proof.
  apply nz_true. intros H0. apply (f_equal (fun z => Z.testbit z 2)) in H0.
  rewrite Z.land_spec, Z.lor_spec, orb_true_r in H0. done.
Qed.

(** POLLOUT is asked for by the connection's last event. *)
Lemma asked_pollout w s : handling_pollout s = false -> state w = LRS_ESTABLISHED ->
  socket_is_permanently_unusable w = false -> trace w = trace (wsw s) ++ [OnWritable] -> an_change_mode A = true ->
  ran A w s = set_events (Z.lor (Z.ldiff (events s) 0) LWS_POLLOUT) (set_ws w s).
Proof.
  intros Hh Hst Hu Ht Hcm. unfold ran. rewrite Ht, drop_app_length. unfold on_writable_requests. cbn [fold_left].
  unfold lws_callback_on_writable, wstate. change (wsw (set_ws w s)) with w. rewrite Hst, Hu.
  rewrite bool_decide_eq_false_2 by done. unfold _lws_change_pollfd.
  change (handling_pollout (set_ws w s)) with (handling_pollout s). rewrite Hh. cbn [andb]. rewrite Hcm. done.
Qed.

Lemma run_same w l w' : byte_run E w l w' -> WsFrame.same_input w w'.
Proof.
  induction 1 as [w|w c l w1 w2 _ _ Hsm _ IH]; [apply WsFrame.same_refl|].
  eapply WsFrame.same_trans; [|exact IH]. exact (WsFrame.rx_sm_same E _ _ _ _ _ _ Hsm).
Qed.

Lemma read_all n b : 0 < len b <= n -> lws_ssl_capable_read_no_ssl n [Arrived b] = (len b, b, []).
Proof.
  intros Hb. unfold lws_ssl_capable_read_no_ssl. cbn [recv].
  rewrite take_ge, drop_ge by (unfold len in Hb; lia).
  destruct (Z.geb_spec (len b) 0); [|lia]. by rewrite (proj2 (Z.eqb_neq (len b) 0)) by lia.
Qed.

(** POLLIN of an idle connection goes to the read. *)
Lemma idle_pollin c pev rev sock s : idle c s -> nz (Z.land rev LWS_POLLOUT) = false ->
  rops_handle_POLLIN_ws A pev rev sock s = ws_read A pev rev sock s.
Proof.
  intros Hi Hrev. destruct (idle_state c s Hi) as [Hst Hfl].
  unfold rops_handle_POLLIN_ws, wstate, lws_is_flowcontrolled. rewrite Hst, Hrev.
  rewrite bool_decide_eq_false_2 by done. cbn [andb mbind res_bind]. change (nz 0) with false. cbv iota.
  rewrite Hst, bool_decide_eq_false_2 by set_solver. cbn [mbind res_bind]. rewrite Hfl. change (nz 0) with false.
  rewrite andb_false_r. done.
Qed.

Lemma idle_cleared c s : idle c s -> idle c (set_ws (set_could_have_pending false (wsw s)) s).
Proof. intros (H1 & H2 & H3 & H4 & H5 & H6). split_and!; done. Qed.

(** What arrives at an idle connection in one piece is read at once. *)
Lemma idle_reads c b s : env_ok E -> idle c s -> 0 < len b -> len b <= rx_buffer_size E + LWS_PRE ->
  len b <= pt_serv_buf_size E ->
  lws_service_fd_tsi A LWS_POLLIN [Arrived b] s =
    '(r, sock, s) ← ws_drain A false b [] (load b (set_ws (set_could_have_pending false (wsw s)) s));
    match r with
    | LWS_HPI_RET_WSI_ALREADY_DIED => Ok (1, sock, s)
    | LWS_HPI_RET_HANDLED => Ok (0, sock, s)
    | LWS_HPI_RET_PLEASE_CLOSE_ME => Ok (1, sock, lws_close_free_wsi s)
    | LWS_HPI_RET_minus_one => Err (HttpServer.program_fault assertion_failed)
    end.
Proof.
  intros He Hi H0 Hrx Hsz. pose proof (pollin_reported _ (proj1 (proj1 Hi))) as Hin.
  unfold lws_service_fd_tsi. rewrite Hin. cbn [negb andb]. apply idle_cleared in Hi.
  set (w0 := set_could_have_pending false (wsw s)) in *. set (s0 := set_ws w0 s) in *.
  pose proof Hi as (_ & Hr & _ & Hb & _ & Hrdy). unfold handle_POLLIN. rewrite Hr.
  rewrite (idle_pollin c _ _ _ _ Hi) by done. unfold ws_read.
  rewrite buflist_len_ok by (rewrite Hb; constructor). rewrite Hb. cbn [mbind res_bind Buflist.first_len].
  change (nz (s32 0)) with false. cbv iota. change (events s0) with (events s). rewrite Hin. cbn [negb andb].
  change (wsw s0) with w0 in *. pose proof Hrdy as ((_ & _ & _ & _ & _ & _ & Hal & _) & _). rewrite Hal.
  set (want := if _ >? _ then _ else _).
  assert (len b <= want) as Hwant by (unfold want; destruct (_ >? _); lia).
  clearbody want. rewrite (read_all want b) by lia.
  destruct (Z.eqb_spec (len b) 0); [lia|]. unfold LWS_SSL_CAPABLE_MORE_SERVICE, LWS_SSL_CAPABLE_ERROR.
  destruct (Z.eqb_spec (len b) (-4)); [lia|]. destruct (Z.eqb_spec (len b) (-1)); [lia|]. done.
Qed.

(** A ping that arrives in one piece. *)
Lemma ping_in c f s : env_ok E -> idle c s -> can_answer (wsw s) -> ctl_frame E f -> f_opc f = LWSWSOPC_PING ->
  an_change_mode A = true -> len (wire f) <= pt_serv_buf_size E ->
  exists w1, lws_service_fd_tsi A LWS_POLLIN [Arrived (wire f)] s =
      Ok (0, [], set_ah_attached false (set_events (Z.lor (Z.ldiff (events s) 0) LWS_POLLOUT) (load (wire f) (set_ws w1 s)))) /\
    answer_waits (f_payload f) w1 /\ ready E c w1 /\ tx_ready w1 /\ role_client w1 = false /\
    payload_is_close w1 = false /\ output w1 = output (wsw s) /\ send_check_ping w1 = send_check_ping (wsw s) /\
    buflist w1 = [].
Proof.
  intros He Hi Hca Hf Hop Hcm Hsz. pose proof (ctl_wire_length E f Hf) as Hwl.
  pose proof Hf as (_ & _ & Hmax & Hkey).
  rewrite (idle_reads c (wire f) s He Hi) by (destruct He as (Hrb & _); unfold LWS_PRE; lia).
  apply idle_cleared in Hi. set (w0 := set_could_have_pending false (wsw s)) in *. set (s0 := set_ws w0 s) in *.
  pose proof Hi as (Hs & Hr & Hah & Hb & Hh & Hrdy). change (wsw s0) with w0 in *.
  destruct (ping_read E c f w0 He Hrdy Hca Hf Hop) as (w1 & Hrun & Haw & Hr1 & Ht1 & Hcl & Hpc & Htr & Hout & Hsc).
  rewrite (read_run c (wire f) (load (wire f) s0) w1 Hi Hrun). cbn [mbind res_bind].
  pose proof Hr1 as ((Hu1 & _ & Hfl1 & Hst1 & _) & _).
  exists w1. rewrite (asked_pollout w1 (load (wire f) s0) Hh Hst1 Hu1 Htr Hcm). split; [done|].
  split_and!; try done. destruct (run_same _ _ _ Hrun) as (-> & _). exact Hb.
Qed.

(** What a round of service leaves of a connection besides the role's own state. *)
Definition kept_by_pollout (s s' : swsi) : Prop :=
  events s' = events s /\ role s' = role s /\ ah_attached s' = ah_attached s /\ closed s' = closed s /\
  rxflow_change_to s' = rxflow_change_to s /\ handling_pollout s' = false /\
  HttpServer.protocol (conn s') = HttpServer.protocol (conn s).

(** The states in which POLLOUT is for the role or the user. *)
Lemma writing_state s : wstate s ∈ [LRS_ESTABLISHED; LRS_WAITING_TO_SEND_CLOSE; LRS_AWAITING_CLOSE_ACK] ->
  bool_decide (wstate s = LRS_PRE_WS_SERVING_ACCEPT) = false /\ lwsi_state_can_handle_POLLOUT s = true /\
  bool_decide (wstate s = LRS_FLUSHING_BEFORE_CLOSE) = false.
Proof.
  unfold lwsi_state_can_handle_POLLOUT. intros H.
  repeat (apply elem_of_cons in H as [-> |H]; [done|]). by apply elem_of_nil in H.
Qed.

(** POLLOUT that the role uses for a control frame stays on. *)
Lemma pollout_written w2 s : role s = ROLE_WS -> ah_attached s = false ->
  wstate s ∈ [LRS_ESTABLISHED; LRS_WAITING_TO_SEND_CLOSE] -> buflist_out (wsw s) = [] ->
  rops_handle_POLLOUT_ws E (an_send A) (an_random A) (set_could_have_pending false (wsw s)) = Ok (LWS_HP_RET_BAIL_OK, w2) ->
  state w2 ∉ [LRS_RETURNED_CLOSE; LRS_WAITING_TO_SEND_CLOSE] -> rxflow_bitmap w2 = 0 -> buflist w2 = [] ->
  exists s2, lws_service_fd_tsi A LWS_POLLOUT [] s = Ok (0, [], s2) /\ wsw s2 = w2 /\ kept_by_pollout s s2.
Proof.
  intros Hr Hah Hst Hq Hw2 Hst2 Hfl2 Hb2. unfold lws_service_fd_tsi.
  change (nz (Z.land LWS_POLLOUT LWS_POLLHUP)) with false. rewrite andb_false_r.
  set (w0 := set_could_have_pending false (wsw s)) in *. set (s0 := set_ws w0 s).
  unfold handle_POLLIN. change (role s0) with (role s). rewrite Hr. unfold rops_handle_POLLIN_ws.
  destruct (writing_state s) as (Hp & Hc & Hnf); [clear - Hst; set_solver|].
  change (wstate s0) with (wstate s). change (lwsi_state_can_handle_POLLOUT s0) with (lwsi_state_can_handle_POLLOUT s).
  rewrite Hp, Hc.
  change (nz (Z.land LWS_POLLOUT LWS_POLLOUT)) with true. cbn [andb]. unfold lws_handle_POLLOUT_event.
  set (s1 := set_ws _ (set_handling_pollout true _)). change (wsw s1) with w0. unfold lws_has_buffered_out.
  change (buflist_out w0) with (buflist_out (wsw s)). rewrite Hq. change (wstate s1) with (wstate s). rewrite Hnf.
  rewrite Hw2. cbn [lift HttpServer.lift_exn mbind res_bind].
  destruct (noted_writable (drop (length (trace (wsw s1))) (trace w2)) (set_ws w2 s1) eq_refl) as (b & Hn).
  unfold ran. rewrite Hn. unfold pollout_done. cbn [mbind res_bind]. change (nz 0) with false. cbv iota.
  set (s2 := set_leave_pollout_active false _). change (wstate s2) with (state w2).
  rewrite bool_decide_eq_false_2 by exact Hst2. cbn [mbind res_bind].
  change (nz (Z.land LWS_POLLOUT LWS_POLLIN)) with false. unfold lws_is_flowcontrolled. change (wsw s2) with w2.
  rewrite Hfl2. change (nz 0) with false. cbn [andb]. unfold ws_read.
  rewrite (buflist_len_ok s2); change (wsw s2) with w2; rewrite Hb2; [|constructor]. cbn [mbind res_bind Buflist.first_len].
  change (nz (s32 0)) with false. cbv iota.
  assert (nz (Z.land (Z.land LWS_POLLOUT (events s0)) LWS_POLLIN) = false) as ->.
  { apply nz_false. rewrite <- Z.land_assoc, (Z.land_comm (events s0)), Z.land_assoc. done. }
  change (ah_attached s2) with (ah_attached s). rewrite Hah. cbn [negb andb handled mbind res_bind].
  exists s2. split; [done|]. split; [done|]. split_and!; done.
Qed.

(** The pong goes out, and POLLOUT stays on. *)
Lemma pong_out c p s : served s -> role s = ROLE_WS -> ah_attached s = false -> buflist (wsw s) = [] ->
  answer_waits p (wsw s) -> ready E c (wsw s) -> tx_ready (wsw s) -> role_client (wsw s) = false ->
  payload_is_close (wsw s) = false -> len p <= 125 ->
  let pong := wire (mk_frame true LWSWSOPC_PONG None p) in
  an_send A = Taken (len pong) -> len pong <= send_limit E ->
  exists s2, lws_service_fd_tsi A LWS_POLLOUT [] s = Ok (0, [], s2) /\ events s2 = events s /\ idle c s2 /\
    output (wsw s2) = output (wsw s) ++ pong /\ received (trace (wsw s2)) = received (trace (wsw s)) /\
    buflist_out (wsw s2) = [] /\ ping_pending_flag (wsw s2) = false /\ payload_is_close (wsw s2) = false /\
    send_check_ping (wsw s2) = send_check_ping (wsw s).
Proof.
  intros Hs Hr Hah Hb Haw Hrdy Htx Hcl Hpc Hp pong Hsend Hlim. pose proof Hrdy as ((_ & _ & _ & Hst & _) & _).
  assert (kernel_ok E (an_send A) pong) as Hk.
  { rewrite Hsend. split; [pose proof (len_nonneg pong); lia|exact Hlim]. }
  destruct (pong_sent E (an_send A) (an_random A) c p (set_could_have_pending false (wsw s)) Haw Hrdy Htx Hcl Hpc Hp Hk)
    as (w2 & Hw2 & Ho2 & Hr2 & Hp2 & Hrec & Hwr & Hall).
  pose proof Hr2 as ((_ & _ & Hfl2 & Hst2 & _) & _).
  assert (buflist w2 = []) as Hb2 by (destruct Hwr as (tr & l & ->); exact Hb).
  destruct (pollout_written w2 s Hr Hah) as (s2 & H2 & Hws & He2 & Hr2' & Hah2 & Hc2 & Hx2 & Hh2 & _);
    [unfold wstate; rewrite Hst; by left|exact (proj1 Htx)|exact Hw2|rewrite Hst2; set_solver|done|done|].
  destruct Hs as (Hs1 & Hs2 & Hs3). exists s2. rewrite Hws. split; [exact H2|]. split; [exact He2|]. split.
  { split; [split; [by rewrite He2|split; congruence]|]. rewrite Hws. split_and!; (done || congruence). }
  split; [exact Ho2|]. split; [exact Hrec|].
  assert (amount (an_send A) = len pong) as Ham by (by rewrite Hsend). split; [exact (Hall Ham)|]. split; [exact Hp2|].
  destruct Hwr as (tr & l & ->). split; [exact Hpc|done].
Qed.

(** With nothing to send, POLLOUT is for the user. *)
Lemma user_asked s e : role s = ROLE_WS -> wstate s ∈ [LRS_ESTABLISHED; LRS_AWAITING_CLOSE_ACK] ->
  buflist_out (wsw s) = [] -> ping_pending_flag (wsw s) = false ->
  send_check_ping (wsw s) = false -> an_change_mode A = true -> (forall w, an_writeable A w = Err e) ->
  lws_service_fd_tsi A LWS_POLLOUT [] s = Err (HttpServer.program_fault e).
Proof.
  intros Hr Hst Hq Hpp Hsc Hcm Hu.
  unfold lws_service_fd_tsi. change (nz (Z.land LWS_POLLOUT LWS_POLLHUP)) with false. rewrite andb_false_r.
  set (w0 := set_could_have_pending false (wsw s)). set (s0 := set_ws w0 s).
  unfold handle_POLLIN. change (role s0) with (role s). rewrite Hr. unfold rops_handle_POLLIN_ws.
  destruct (writing_state s) as (Hp & Hc & Hnf); [clear - Hst; set_solver|].
  change (wstate s0) with (wstate s). change (lwsi_state_can_handle_POLLOUT s0) with (lwsi_state_can_handle_POLLOUT s).
  rewrite Hp, Hc. change (nz (Z.land LWS_POLLOUT LWS_POLLOUT)) with true. cbn [andb].
  unfold lws_handle_POLLOUT_event. set (s1 := set_ws _ (set_handling_pollout true _)).
  unfold lws_has_buffered_out. change (buflist_out (wsw s1)) with (buflist_out (wsw s)). rewrite Hq.
  change (wstate s1) with (wstate s). rewrite Hnf.
  assert (rops_handle_POLLOUT_ws E (an_send A) (an_random A) (wsw s1) = Ok (LWS_HP_RET_USER_SERVICE, wsw s1)) as ->.
  { unfold rops_handle_POLLOUT_ws, state_is. change (state (wsw s1)) with (wstate s).
    change (ping_pending_flag (wsw s1)) with (ping_pending_flag (wsw s)).
    change (send_check_ping (wsw s1)) with (send_check_ping (wsw s)). rewrite Hpp, Hsc.
    apply elem_of_cons in Hst as [-> | ->%list_elem_of_singleton]; rewrite !bool_decide_eq_false_2 by done;
      cbn [orb andb]; by rewrite andb_false_r. }
  cbn [lift HttpServer.lift_exn mbind res_bind]. unfold ran. rewrite drop_all.
  cbn [on_writable_requests fold_left]. unfold pollout_user.
  change (leave_pollout_active (set_ws (wsw s1) s1)) with false. cbn [negb andb]. unfold _lws_change_pollfd.
  change (LWS_POLLOUT =? 0) with false. rewrite andb_false_r. cbn [andb]. rewrite Hcm. change (nz 0) with false. cbv iota.
  match goal with |- context [if leave_pollout_active ?v then _ else _] =>
    change (leave_pollout_active v) with false end. cbv iota. rewrite Hu. done.
Qed.

End Ping.

(** The writable callback of the light protocol of [Serveri.callback], which
    writes nothing. *)
Definition light_writeable (wsi : Z) (sv : Serveri) (w : lws) : res exn (Z * lws) :=
  '(_, _) ← Serveri.callback wsi R_server_writeable sv; Ok (0, emit (Callback LWS_CALLBACK_SERVER_WRITEABLE []) w).

(** C10: A ping ends the server.  A client of the light protocol with an open,
    idle connection sends one ping frame, which any WebSocket peer may do.  The
    round that reads it asks for POLLOUT; the next POLLOUT sends the pong, as
    it should, and leaves POLLOUT on; so the POLLOUT after it reaches the
    writable callback of the program, which asserts that it is never called. *)
Theorem ping_ends_server (A : answers) (s : swsi) (c : bool) (f : frame) (wsi : Z) (sv : Serveri) :
  env_ok (an_env A) -> idle A c s -> can_answer (wsw s) -> send_check_ping (wsw s) = false ->
  ctl_frame (an_env A) f -> f_opc f = LWSWSOPC_PING -> len (wire f) <= pt_serv_buf_size (an_env A) ->
  an_change_mode A = true -> (forall w, an_writeable A w = light_writeable wsi sv w) ->
  let pong := wire (mk_frame true LWSWSOPC_PONG None (f_payload f)) in
  an_send A = Taken (len pong) -> len pong <= send_limit (an_env A) ->
  exists s1 s2, lws_service_fd_tsi A LWS_POLLIN [Arrived (wire f)] s = Ok (0, [], s1) /\
    nz (Z.land (events s1) LWS_POLLOUT) = true /\
    lws_service_fd_tsi A LWS_POLLOUT [] s1 = Ok (0, [], s2) /\ output (wsw s2) = output (wsw s) ++ pong /\
    nz (Z.land (events s2) LWS_POLLOUT) = true /\
    lws_service_fd_tsi A LWS_POLLOUT [] s2 = Err (HttpServer.program_fault assertion_failed).
Proof.
  intros He Hi Hca Hsc Hf Hop Hsz Hcm Hu pong Hsend Hlim.
  destruct (ping_in A c f s He Hi Hca Hf Hop Hcm Hsz) as (w1 & H1 & Haw & Hr1 & Ht1 & Hcl & Hpc & Ho1 & Hsc1 & Hb1).
  set (s1 := set_ah_attached false _) in H1. pose proof Hi as ((Hev & Hclo & Hrx) & Hr & _).
  assert (served s1) as Hs1.
  { split; [|done]. change (events s1) with (Z.lor (Z.ldiff (events s) 0) LWS_POLLOUT).
    rewrite <- Z.bit0_odd in *. by rewrite Z.lor_spec, Z.ldiff_spec, Hev. }
  pose proof (pollout_set (events s)) as Hev1. change (nz (Z.land (events s1) LWS_POLLOUT) = true) in Hev1.
  pose proof Hf as (_ & _ & Hmax & _).
  destruct (pong_out A c (f_payload f) s1 Hs1 Hr eq_refl Hb1 Haw Hr1 Ht1 Hcl Hpc ltac:(lia) Hsend Hlim)
    as (s2 & H2 & He2 & Hi2 & Ho2 & _ & Hq2 & Hpp2 & _ & Hsc2).
  exists s1, s2. split; [exact H1|]. split; [exact Hev1|]. split; [exact H2|]. split; [by rewrite Ho2; f_equal|].
  split; [by rewrite He2|]. apply (user_asked A s2 assertion_failed).
  - exact (proj1 (proj2 Hi2)).
  - unfold wstate. rewrite (proj1 (idle_state A c s2 Hi2)). by left.
  - done.
  - done.
  - rewrite Hsc2. exact (eq_trans Hsc1 Hsc).
  - done.
  - intros w. rewrite Hu. done.
Qed.

Definition sample_ping : frame := mk_frame true 9 (Some [1; 2; 3; 4]) [].

Definition sample_light_client : answers :=
  mk_answers HttpParse.env_default WsRxProps.sample_env HttpServerProof.sample_server (fun _ s => Ok (0, s)) (fun s => Ok (0, s))
    (fun s => (0, s)) (Some (replicate 4096 0)) 10 true (Taken 2) [] (light_writeable 1 sample_serveri)
    (fun _ _ l s => Ok (LWS_HPI_RET_HANDLED, l, s)).

Definition sample_idle : swsi :=
  mk_swsi (HttpServer.mk_conn (HttpServer.http HttpServerProof.sample_http) sample_conn (HttpServer.vh HttpServerProof.sample_http) (Some 0%nat))
    ROLE_WS false false false false false false 0 0 0 sample_transaction (replicate 4096 0) LWS_POLLIN false.

Lemma ping_ends_server_witness :
  exists s1 s2, lws_service_fd_tsi sample_light_client LWS_POLLIN [Arrived (wire sample_ping)] sample_idle =
      Ok (0, [], s1) /\
    lws_service_fd_tsi sample_light_client LWS_POLLOUT [] s1 = Ok (0, [], s2) /\
    lws_service_fd_tsi sample_light_client LWS_POLLOUT [] s2 = Err (HttpServer.program_fault assertion_failed).
Proof.
  destruct (ping_ends_server sample_light_client sample_idle false sample_ping 1 sample_serveri)
    as (s1 & s2 & H1 & _ & H2 & _ & _ & H3).
  - exact WsRxProps.sample_env_ok.
  - split; [split; done|]. split_and!; try done. exact sample_conn_ready.
  - unfold can_answer, tx_ready. cbn. split_and!; (done || lia).
  - done.
  - split; [done|]. split; [by right; left|]. split; [vm_compute; discriminate|done].
  - done.
  - vm_compute. discriminate.
  - done.
  - done.
  - reflexivity.
  - vm_compute. discriminate.
  - exists s1, s2. split; [exact H1|]. split; [exact H2|exact H3].
Defined.

End ServiceControl.
