(* ===== verification/FdTable.v ===== *)
(** * The table of descriptors (libwebsockets lib/core-net/pollfd.c,
    lib/plat/unix/unix-fds.c)

    The array of [struct pollfd] a thread polls, the array that finds the
    connection of a descriptor, and the place in the table every connection
    remembers; how connections enter and leave it and change what they wait
    for; how the listening sockets are switched off when the table is nearly
    full; and what protocol 0 of the vhost is told about all of it, which is
    all a program with a poll loop of its own knows.  One thread, no thread
    inside [poll].  A connection is a number, its members used here are in a
    map; a dereference of anything else, an index out of bounds and a failed
    [assert] are errors, those that only a build with [_DEBUG], as this one is,
    makes among them. *)

From S2P Require Import Prelude HttpLex HttpParse WsState.

Module FdTable.

Inductive fault := bad_pointer | out_of_bounds | assert_failed.

#[global] Instance fault_eq_dec : EqDecision fault.
Proof. solve_decision. Defined.

(** [struct lws_pollfd] *)
Record lws_pollfd := mk_pollfd { fd : Z; events : Z; revents : Z }.

Definition LWS_POLLIN : Z := 1.
Definition LWS_POLLOUT : Z := 4.
Definition LWS_NO_FDS_POS : Z := -1.
Definition LWS_SOCK_INVALID : Z := -1.

(** What the callback of protocol 0 is told, with what it gets of
    [struct lws_pollargs]. *)
Inductive poll_reason :=
| GET_THREAD_ID
| ADD_POLL_FD (fd events : Z)
| DEL_POLL_FD (fd : Z)
| CHANGE_MODE_POLL_FD (fd events prev_events : Z)
| LOCK_POLL
| UNLOCK_POLL.

#[global] Instance poll_reason_eq_dec : EqDecision poll_reason.
Proof. solve_decision. Defined.

(** The members of [struct lws] the table uses. *)
Record wsi := mk_wsi {
  sockfd : Z;                         (* desc.sockfd *)
  position_in_fds_table : Z;
  vhost : bool;                       (* wsi->vhost != NULL *)
  protocol : option Z;                (* its number in the vhost *)
  event_pipe : bool;
  handling_pollout : bool;
  leave_pollout_active : bool;
  state : Ws.lwsi_state_t;
  socket_is_permanently_unusable : bool
}.

Definition set_position v x := mk_wsi (sockfd x) v (vhost x) (protocol x) (event_pipe x) (handling_pollout x)
  (leave_pollout_active x) (state x) (socket_is_permanently_unusable x).
Definition set_protocol v x := mk_wsi (sockfd x) (position_in_fds_table x) (vhost x) v (event_pipe x)
  (handling_pollout x) (leave_pollout_active x) (state x) (socket_is_permanently_unusable x).
Definition set_leave_pollout_active v x := mk_wsi (sockfd x) (position_in_fds_table x) (vhost x) (protocol x)
  (event_pipe x) (handling_pollout x) v (state x) (socket_is_permanently_unusable x).

(** The context and its thread, with the callbacks made so far. *)
Record context := mk_context {
  max_fds : Z;
  max_fds_unrelated_to_ulimit : bool;
  fd_limit_per_thread : Z;
  being_destroyed : bool;
  lws_lookup : list (option Z);
  fds : list lws_pollfd;
  fds_count : Z;
  count_conns : Z;
  service_tid : Z;
  lserv_wsis : list (option Z);       (* lserv_wsi of the vhosts *)
  same_vh_protocol : gmap Z (list Z); (* connections by number of the protocol *)
  wsis : gmap Z wsi;
  cancels : nat;                      (* bytes written to the event pipe *)
  calls : list (Z * poll_reason)
}.

Definition set_lws_lookup v c := mk_context (max_fds c) (max_fds_unrelated_to_ulimit c) (fd_limit_per_thread c)
  (being_destroyed c) v (fds c) (fds_count c) (count_conns c) (service_tid c) (lserv_wsis c) (same_vh_protocol c)
  (wsis c) (cancels c) (calls c).
Definition set_fds v c := mk_context (max_fds c) (max_fds_unrelated_to_ulimit c) (fd_limit_per_thread c)
  (being_destroyed c) (lws_lookup c) v (fds_count c) (count_conns c) (service_tid c) (lserv_wsis c)
  (same_vh_protocol c) (wsis c) (cancels c) (calls c).
Definition set_fds_count v c := mk_context (max_fds c) (max_fds_unrelated_to_ulimit c) (fd_limit_per_thread c)
  (being_destroyed c) (lws_lookup c) (fds c) v (count_conns c) (service_tid c) (lserv_wsis c) (same_vh_protocol c)
  (wsis c) (cancels c) (calls c).
Definition set_count_conns v c := mk_context (max_fds c) (max_fds_unrelated_to_ulimit c) (fd_limit_per_thread c)
  (being_destroyed c) (lws_lookup c) (fds c) (fds_count c) v (service_tid c) (lserv_wsis c) (same_vh_protocol c)
  (wsis c) (cancels c) (calls c).
Definition set_lserv_wsis v c := mk_context (max_fds c) (max_fds_unrelated_to_ulimit c) (fd_limit_per_thread c)
  (being_destroyed c) (lws_lookup c) (fds c) (fds_count c) (count_conns c) (service_tid c) v (same_vh_protocol c)
  (wsis c) (cancels c) (calls c).
Definition set_same_vh_protocol v c := mk_context (max_fds c) (max_fds_unrelated_to_ulimit c) (fd_limit_per_thread c)
  (being_destroyed c) (lws_lookup c) (fds c) (fds_count c) (count_conns c) (service_tid c) (lserv_wsis c) v
  (wsis c) (cancels c) (calls c).
Definition set_wsis v c := mk_context (max_fds c) (max_fds_unrelated_to_ulimit c) (fd_limit_per_thread c)
  (being_destroyed c) (lws_lookup c) (fds c) (fds_count c) (count_conns c) (service_tid c) (lserv_wsis c)
  (same_vh_protocol c) v (cancels c) (calls c).
Definition set_cancels v c := mk_context (max_fds c) (max_fds_unrelated_to_ulimit c) (fd_limit_per_thread c)
  (being_destroyed c) (lws_lookup c) (fds c) (fds_count c) (count_conns c) (service_tid c) (lserv_wsis c)
  (same_vh_protocol c) (wsis c) v (calls c).
Definition set_calls v c := mk_context (max_fds c) (max_fds_unrelated_to_ulimit c) (fd_limit_per_thread c)
  (being_destroyed c) (lws_lookup c) (fds c) (fds_count c) (count_conns c) (service_tid c) (lserv_wsis c)
  (same_vh_protocol c) (wsis c) (cancels c) v.

(** ** Loads and stores *)

Definition wsi_at (w : Z) (c : context) : res fault wsi :=
  match wsis c !! w with Some x => Ok x | None => Err bad_pointer end.

Definition upd_wsi (w : Z) (f : wsi -> wsi) (c : context) : res fault context :=
  x ← wsi_at w c; Ok (set_wsis (<[w := f x]> (wsis c)) c).

Definition arr_get {A} (l : list A) (i : Z) : res fault A :=
  match l !! Z.to_nat i with
  | Some a => if 0 <=? i then Ok a else Err out_of_bounds
  | None => Err out_of_bounds
  end.

Definition arr_set {A} (l : list A) (i : Z) (a : A) : res fault (list A) :=
  _ ← arr_get l i; Ok (<[Z.to_nat i := a]> l).

(** ** From descriptors to connections (unix-fds.c) *)

(** The loop over the lookup array: the first slot [p] on which [test] is
    true, or [done]. *)
Fixpoint find_slot (test : option Z -> res fault bool) (i : Z) (l : list (option Z)) : res fault (option (Z * option Z)) :=
  match l with
  | [] => Ok None
  | p :: l => b ← test p; if b : bool then Ok (Some (i, p)) else find_slot test (i + 1) l
  end.

(** [*p && ( *p)->desc.sockfd == fd] *)
Definition has_fd (c : context) (d : Z) (p : option Z) : res fault bool :=
  match p with None => Ok false | Some w => x ← wsi_at w c; Ok (sockfd x =? d) end.

Definition is_empty (p : option Z) : res fault bool := Ok (bool_decide (p = None)).

Definition is_wsi (w : Z) (p : option Z) : res fault bool := Ok (bool_decide (p = Some w)).

Definition wsi_from_fd (c : context) (d : Z) : res fault (option Z) :=
  if negb (max_fds_unrelated_to_ulimit c) then arr_get (lws_lookup c) d
  else
    r ← find_slot (has_fd c d) 0 (lws_lookup c);
    Ok (match r with Some (_, p) => p | None => None end).

Definition insert_wsi (w : Z) (c : context) : res fault (Z * context) :=
  if negb (max_fds_unrelated_to_ulimit c) then
    x ← wsi_at w c;
    o ← arr_get (lws_lookup c) (sockfd x);
    if negb (bool_decide (o = None)) then Err assert_failed
    else
      l ← arr_set (lws_lookup c) (sockfd x) (Some w);
      Ok (0, set_lws_lookup l c)
  else
    (* confirm it doesn't already exist *)
    r ← find_slot (is_wsi w) 0 (lws_lookup c);
    if negb (bool_decide (r = None)) then Err assert_failed
    else
      (* confirm fd doesn't already exist *)
      x ← wsi_at w c;
      r ← find_slot (has_fd c (sockfd x)) 0 (lws_lookup c);
      if negb (bool_decide (r = None)) then Err assert_failed
      else
        r ← find_slot is_empty 0 (lws_lookup c);
        match r with
        | None => Ok (1, c)
        | Some (i, _) => l ← arr_set (lws_lookup c) i (Some w); Ok (0, set_lws_lookup l c)
        end.

Definition delete_from_fd (d : Z) (c : context) : res fault context :=
  if negb (max_fds_unrelated_to_ulimit c) then
    l ← arr_set (lws_lookup c) d None; Ok (set_lws_lookup l c)
  else
    r ← find_slot (has_fd c d) 0 (lws_lookup c);
    c ← match r with
        | None => Ok c
        | Some (i, _) => l ← arr_set (lws_lookup c) i None; Ok (set_lws_lookup l c)
        end;
    r ← find_slot (has_fd c d) 0 (lws_lookup c);
    if negb (bool_decide (r = None)) then Err assert_failed else Ok c.

Definition lws_plat_insert_socket_into_fds (c : context) : res fault context :=
  p ← arr_get (fds c) (fds_count c);
  l ← arr_set (fds c) (fds_count c) (mk_pollfd (fd p) (events p) 0);
  Ok (set_fds_count (fds_count c + 1) (set_fds l c)).

Definition lws_plat_delete_socket_from_fds (c : context) : context := set_fds_count (fds_count c - 1) c.

(** ** Changes (pollfd.c) *)

Section Operations.
Context (answer : list (Z * poll_reason) -> Z).

(** [wsi->vhost->protocols[0].callback] *)
Definition call (w : Z) (r : poll_reason) (c : context) : Z * context :=
  (answer (calls c ++ [(w, r)]), set_calls (calls c ++ [(w, r)]) c).

(** [if (wsi->vhost && ... callback(...))] *)
Definition call_if (b : bool) (w : Z) (r : poll_reason) (c : context) : Z * context :=
  if b then call w r c else (0, c).

(** [lws_cancel_service_pt] *)
Definition lws_cancel_service_pt (c : context) : context := set_cancels (S (cancels c)) c.

Definition _lws_change_pollfd (w : Z) (_and _or : Z) (c : context) : res fault (Z * context) :=
  x ← wsi_at w c;
  let m := position_in_fds_table x in
  if negb ((m =? LWS_NO_FDS_POS) || (0 <=? m)) then Err assert_failed
  else if m =? LWS_NO_FDS_POS then Ok (0, c)
  else if handling_pollout x && (_and =? 0) && (_or =? LWS_POLLOUT) then
    c ← upd_wsi w (set_leave_pollout_active true) c; Ok (0, c)
  else if negb (m <? fds_count c) then Err assert_failed
  else
    pfd ← arr_get (fds c) m;
    let ev := Z.lor (Z.ldiff (events pfd) _and) _or in
    l ← arr_set (fds c) m (mk_pollfd (fd pfd) ev (revents pfd));
    let '(n, c) := call_if (vhost x) w (CHANGE_MODE_POLL_FD (sockfd x) ev (events pfd)) (set_fds l c) in
    if nz n then Ok (-1, c)
    else if events pfd =? ev then Ok (0, c)
    else if nz (service_tid c) && vhost x then
      let '(tid, c) := call w GET_THREAD_ID c in
      if tid =? -1 then Ok (-1, c)
      else Ok (0, if tid =? service_tid c then c else lws_cancel_service_pt c)
    else Ok (0, c).

Fixpoint accept_modulation (vhosts : list (option Z)) (allow : bool) (c : context) : res fault context :=
  match vhosts with
  | [] => Ok c
  | None :: vhosts => accept_modulation vhosts allow c
  | Some w :: vhosts =>
    '(_, c) ← (if allow then _lws_change_pollfd w 0 LWS_POLLIN c else _lws_change_pollfd w LWS_POLLIN 0 c);
    accept_modulation vhosts allow c
  end.

Definition lws_accept_modulation (allow : bool) (c : context) : res fault context :=
  accept_modulation (lserv_wsis c) allow c.

Definition __lws_change_pollfd (w : Z) (_and _or : Z) (c : context) : res fault (Z * context) :=
  x ← wsi_at w c;
  if (bool_decide (protocol x = None) && negb (event_pipe x)) || (position_in_fds_table x =? LWS_NO_FDS_POS) then Ok (0, c)
  else
    let '(n, c) := call_if (vhost x) w LOCK_POLL c in
    if nz n then Ok (-1, c)
    else
      '(ret, c) ← _lws_change_pollfd w _and _or c;
      let '(n, c) := call_if (vhost x) w UNLOCK_POLL c in
      Ok (if nz n then -1 else ret, c).

Definition lws_callback_on_writable (w : Z) (c : context) : res fault (Z * context) :=
  x ← wsi_at w c;
  if bool_decide (state x = Ws.LRS_SHUTDOWN) then Ok (0, c)
  else if socket_is_permanently_unusable x then Ok (0, c)
  else if position_in_fds_table x =? LWS_NO_FDS_POS then Ok (-1, c)
  else
    '(r, c) ← __lws_change_pollfd w 0 LWS_POLLOUT c;
    Ok (if nz r then -1 else 1, c).

(** ** The connections of a protocol *)

Definition __lws_same_vh_protocol_remove (w : Z) (x : wsi) (c : context) : context :=
  if vhost x then set_same_vh_protocol (filter (fun v => v <> w) <$> same_vh_protocol c) c else c.

Definition lws_same_vh_protocol_insert (w n : Z) (c : context) : context :=
  let owners := filter (fun v => v <> w) <$> same_vh_protocol c in
  set_same_vh_protocol (<[n := w :: default [] (owners !! n)]> owners) c.

(** The loop over them, which changes none of the links. *)
Fixpoint on_writable_each (n : Z) (l : list Z) (c : context) : res fault context :=
  match l with
  | [] => Ok c
  | w :: l =>
    x ← wsi_at w c;
    if negb (bool_decide (protocol x = Some n)) then Err assert_failed
    else '(_, c) ← lws_callback_on_writable w c; on_writable_each n l c
  end.

Definition lws_callback_on_writable_all_protocol_vhost (n : Z) (c : context) : res fault context :=
  on_writable_each n (default [] (same_vh_protocol c !! n)) c.

(** ** Entering and leaving the table *)

Definition __insert_wsi_socket_into_fds (w : Z) (c : context) : res fault (Z * context) :=
  if fd_limit_per_thread c <=? fds_count c then Ok (1, c)
  else
    x ← wsi_at w c;
    if negb (max_fds_unrelated_to_ulimit c) && (max_fds c <=? sockfd x) then Ok (1, c)
    else if negb (event_pipe x || vhost x) then Err assert_failed
    else if sockfd x =? LWS_SOCK_INVALID then Err assert_failed
    else
      let '(n, c) := call_if (vhost x) w LOCK_POLL c in
      if nz n then Ok (-1, c)
      else
        '(n, c) ← insert_wsi w c;
        if nz n then Ok (-1, c)
        else
          c ← upd_wsi w (set_position (fds_count c)) (set_count_conns (count_conns c + 1) c);
          p ← arr_get (fds c) (fds_count c);
          l ← arr_set (fds c) (fds_count c) (mk_pollfd (sockfd x) LWS_POLLIN (revents p));
          c ← lws_plat_insert_socket_into_fds (set_fds l c);
          let '(n, c) := call_if (vhost x) w (ADD_POLL_FD (sockfd x) LWS_POLLIN) c in
          let ret := if nz n then -1 else 0 in
          c ← (if fds_count c =? u32 (fd_limit_per_thread c - 1) then lws_accept_modulation false c else Ok c);
          let '(n, c) := call_if (vhost x) w UNLOCK_POLL c in
          Ok (if nz n then -1 else ret, c).

(** The connection [w] in slot [m] leaves, the last one takes its place. *)
Definition vacate (w : Z) (x : wsi) (m : Z) (c : context) : res fault context :=
  if negb (nz (fds_count c) && negb (m =? fds_count c)) then Err assert_failed
  else
    c ← delete_from_fd (sockfd x) c;
    let fixup := negb (m =? u32 (fds_count c - 1)) in
    lastp ← arr_get (fds c) (fds_count c - 1);
    l ← (if fixup then arr_set (fds c) m lastp else Ok (fds c));
    lastp ← arr_get l (fds_count c - 1);
    l ← arr_set l (fds_count c - 1) (mk_pollfd (-1) (events lastp) (revents lastp));
    let c := lws_plat_delete_socket_from_fds (set_fds l c) in
    let c := set_count_conns (count_conns c - 1) c in
    c ← (if fixup then
           p ← arr_get (fds c) m;
           end_wsi ← wsi_from_fd c (fd p);
           match end_wsi with None => Err assert_failed | Some v => upd_wsi v (set_position m) c end
         else Ok c);
    upd_wsi w (set_position LWS_NO_FDS_POS) c.

Definition __remove_wsi_socket_from_fds (w : Z) (c : context) : res fault (Z * context) :=
  x ← wsi_at w c;
  if negb (max_fds_unrelated_to_ulimit c) && (max_fds c <? sockfd x) then Ok (1, c)
  else
    let '(n, c) := call_if (vhost x) w LOCK_POLL c in
    if nz n then Ok (-1, c)
    else
      let c := __lws_same_vh_protocol_remove w x c in
      let m := position_in_fds_table x in
      if negb ((m =? LWS_NO_FDS_POS) || ((0 <=? m) && (m <? fds_count c))) then Err assert_failed
      else
        c ← (if negb (m =? LWS_NO_FDS_POS) then vacate w x m c else Ok c);
        let '(n, c) := call_if (negb (sockfd x =? LWS_SOCK_INVALID) && vhost x) w (DEL_POLL_FD (sockfd x)) c in
        let ret := if nz n then -1 else 0 in
        c ← (if negb (being_destroyed c) && (fds_count c <? u32 (fd_limit_per_thread c - 1))
             then lws_accept_modulation true c else Ok c);
        let '(n, c) := call_if (vhost x) w UNLOCK_POLL c in
        Ok (if nz n then -1 else ret, c).

(** ** Any use of the table

    The rest of the library also allocates, changes and frees connections. *)
Inductive op :=
| Insert (w : Z) | Remove (w : Z) | Change (w _and _or : Z) | On_writable (w : Z) | On_writable_all (n : Z)
| Bind (w n : Z) | Become (w : Z) (x : wsi) | Free (w : Z) | Close (w : Z) | Listen (v : nat) (w : Z).

(** What is left of a freed connection. *)
Definition freed (w : Z) (c : context) : context :=
  let c := set_same_vh_protocol (filter (fun v => v <> w) <$> same_vh_protocol c) c in
  let c := set_lserv_wsis ((fun o => if decide (o = Some w) then None else o) <$> lserv_wsis c) c in
  set_wsis (delete w (wsis c)) c.

(** The table's part of [__lws_close_free_wsi] (close.c), which does not look
    at what the removal returns. *)
Definition close (w : Z) (c : context) : res fault context :=
  x ← wsi_at w c;
  c ← (if negb (sockfd x =? LWS_SOCK_INVALID) then '(_, c) ← __remove_wsi_socket_from_fds w c; Ok c
       else Ok (__lws_same_vh_protocol_remove w x c));
  Ok (freed w c).

Definition exec (o : op) (c : context) : res fault context :=
  match o with
  | Insert w => '(_, c) ← __insert_wsi_socket_into_fds w c; Ok c
  | Remove w => '(_, c) ← __remove_wsi_socket_from_fds w c; Ok c
  | Change w a b => '(_, c) ← __lws_change_pollfd w a b c; Ok c
  | On_writable w => '(_, c) ← lws_callback_on_writable w c; Ok c
  | On_writable_all n => lws_callback_on_writable_all_protocol_vhost n c
  | Bind w n => c ← upd_wsi w (set_protocol (Some n)) c; Ok (lws_same_vh_protocol_insert w n c)
  | Become w x => Ok (set_wsis (<[w := x]> (wsis c)) c)
  | Free w => Ok (freed w c)
  | Close w => close w c
  | Listen v w => Ok (set_lserv_wsis (<[v := Some w]> (lserv_wsis c)) c)
  end.

Fixpoint run (ops : list op) (c : context) : res fault context :=
  match ops with [] => Ok c | o :: ops => c ← exec o c; run ops c end.

End Operations.

(** The context before its first connection. *)
Definition new_context (max_fds : Z) (unrelated : bool) (limit : Z) (service_tid : Z) (vhosts : nat) : context :=
  mk_context max_fds unrelated limit false (replicate (Z.to_nat max_fds) None)
    (replicate (Z.to_nat limit) (mk_pollfd 0 0 0)) 0 0 service_tid (replicate vhosts None) ∅ ∅ 0 [].

End FdTable.
