(* ===== verification/FdTableProof.v ===== *)
(** * The table of descriptors: its theorems

    The array of slots, the places the connections remember and the lookup
    array agree after any use of the table, and a poll loop that follows the
    callbacks has the same descriptors with the same events; the program's
    own poll set is such a one.  The table is related to the list of its
    entries, operation by operation. *)

From S2P Require Import Prelude HttpLex HttpParse WsState FdTable.

Module FdTableProof.
Import FdTable.

(** ** The entries *)

Record id := mk_id { i_wsi : Z; i_fd : Z; i_vhost : bool }.

(** What is in the slots: a connection and the events it waits for. *)
Abbreviation table := (list (id * Z)).

Section Table.

(** What the program polls besides; the library's descriptors are others. *)
Context (V0 : list (Z * Z)).

Record slots_ok (c : context) (T : table) : Prop := {
  s_count : fds_count c = Z.of_nat (length T);
  s_len : length (fds c) = Z.to_nat (fd_limit_per_thread c);
  s_max : Z.of_nat (length T) <= fd_limit_per_thread c;
  s_limit : 0 < fd_limit_per_thread c < 2 ^ 31;
  s_slots : forall i t, T !! i = Some t -> exists r, fds c !! i = Some (mk_pollfd (i_fd t.1) t.2 r)
}.

Record conns_ok (c : context) (I : list id) : Prop := {
  k_in : forall i t, I !! i = Some t -> exists x,
    wsis c !! i_wsi t = Some x /\ position_in_fds_table x = Z.of_nat i /\ sockfd x = i_fd t /\ vhost x = i_vhost t;
  k_pos : forall w x, wsis c !! w = Some x -> position_in_fds_table x = LWS_NO_FDS_POS \/
    exists i t, position_in_fds_table x = Z.of_nat i /\ I !! i = Some t /\ i_wsi t = w;
  k_own : forall w w' x x', wsis c !! w = Some x -> wsis c !! w' = Some x' -> sockfd x = sockfd x' ->
    sockfd x = LWS_SOCK_INVALID \/ w = w';
  k_fd : forall w x, wsis c !! w = Some x -> -1 <= sockfd x /\ sockfd x ∉ V0.*1;
  k_valid : forall t, t ∈ I -> 0 <= i_fd t;
  k_lserv : forall w, Some w ∈ lserv_wsis c -> is_Some (wsis c !! w);
  k_bound : forall n l w, same_vh_protocol c !! n = Some l -> w ∈ l ->
    exists x, wsis c !! w = Some x /\ protocol x = Some n
}.

(** The lookup array, indexed by the descriptor or searched. *)
Definition lookup_ok (c : context) (I : list id) : Prop :=
  0 <= max_fds c /\ length (lws_lookup c) = Z.to_nat (max_fds c) /\
  if max_fds_unrelated_to_ulimit c then
    fd_limit_per_thread c <= max_fds c /\ omap (fun p => p) (lws_lookup c) ≡ₚ i_wsi <$> I
  else
    (forall t, t ∈ I -> i_fd t < max_fds c) /\
    forall d w, 0 <= d -> (lws_lookup c !! Z.to_nat d = Some (Some w) <-> exists t, t ∈ I /\ i_fd t = d /\ i_wsi t = w).

Definition base (c : context) (T : table) : Prop :=
  slots_ok c T /\ conns_ok c T.*1 /\ lookup_ok c T.*1.

(** ** What the callbacks tell *)

(** A poll set that follows the callbacks. *)
Definition tell (V : list (Z * Z)) (r : poll_reason) : list (Z * Z) :=
  match r with
  | ADD_POLL_FD d e => V ++ [(d, e)]
  | DEL_POLL_FD d => filter (fun q => q.1 <> d) V
  | CHANGE_MODE_POLL_FD d e _ => (fun q => if q.1 =? d then (q.1, e) else q) <$> V
  | GET_THREAD_ID | LOCK_POLL | UNLOCK_POLL => V
  end.

Definition replay (cs : list (Z * poll_reason)) (V : list (Z * Z)) : list (Z * Z) :=
  fold_left (fun V k => tell V k.2) cs V.

(** The entries protocol 0 is told about. *)
Definition view (T : table) : list (Z * Z) := (fun t => (i_fd t.1, t.2)) <$> filter (fun t => i_vhost t.1 = true) T.

Definition synced (c : context) (T : table) : Prop := replay (calls c) V0 ≡ₚ V0 ++ view T.

Definition rep (c : context) (T : table) : Prop := base c T /\ synced c T.

#[export] Instance tell_proper : Proper ((≡ₚ) ==> eq ==> (≡ₚ)) tell.
Proof. intros V V' HV r ? <-. destruct r; cbn; by rewrite ?HV. Qed.

Lemma replay_app cs cs' V : replay (cs ++ cs') V = replay cs' (replay cs V).
Proof. apply fold_left_app. Qed.

(** ** Derived facts *)

Lemma ids_nodup c I : conns_ok c I -> NoDup (i_wsi <$> I).
Proof.
  intros K. apply NoDup_alt. intros i j w Hi Hj.
  rewrite list_lookup_fmap, fmap_Some in Hi, Hj.
  destruct Hi as (t & Hi & ->), Hj as (t' & Hj & Heq).
  destruct (k_in _ _ K i t Hi) as (x & Hx & Hp & _), (k_in _ _ K j t' Hj) as (x' & Hx' & Hp' & _).
  rewrite Heq, Hx' in Hx. injection Hx as <-. lia.
Qed.

Lemma same_fd c I t t' : conns_ok c I -> t ∈ I -> t' ∈ I -> i_fd t = i_fd t' -> i_wsi t = i_wsi t'.
Proof.
  intros K (i & Hi)%list_elem_of_lookup (j & Hj)%list_elem_of_lookup Heq.
  assert (0 <= i_fd t) by (apply (k_valid _ _ K), list_elem_of_lookup; eauto).
  destruct (k_in _ _ K i t Hi) as (x & Hx & _ & Hf & _), (k_in _ _ K j t' Hj) as (x' & Hx' & _ & Hf' & _).
  destruct (k_own _ _ K _ _ x x' Hx Hx') as [Hn|]; [congruence| |done]. unfold LWS_SOCK_INVALID in Hn. lia.
Qed.

Lemma wsi_of_entry c I w x t : conns_ok c I -> wsis c !! w = Some x -> t ∈ I -> i_wsi t = w ->
  i_fd t = sockfd x /\ i_vhost t = vhost x.
Proof.
  intros K Hx (i & Hi)%list_elem_of_lookup Hw. destruct (k_in _ _ K i t Hi) as (x' & Hx' & _ & Hf & Hv).
  rewrite Hw, Hx in Hx'. injection Hx' as <-. done.
Qed.

Lemma fds_length_limit c T : slots_ok c T -> (length T <= length (fds c))%nat.
Proof. intros S. rewrite (s_len _ _ S). pose proof (s_max _ _ S). lia. Qed.

Lemma arr_get_ok {A} (l : list A) (i : nat) a : l !! i = Some a -> arr_get l (Z.of_nat i) = Ok a.
Proof. intros H. unfold arr_get. rewrite Nat2Z.id, H. by rewrite (proj2 (Z.leb_le 0 _)) by lia. Qed.

Lemma arr_set_ok {A} (l : list A) (i : nat) a : (i < length l)%nat -> arr_set l (Z.of_nat i) a = Ok (<[i := a]> l).
Proof.
  intros (b & H)%lookup_lt_is_Some. unfold arr_set. rewrite (arr_get_ok _ _ _ H). cbn. by rewrite Nat2Z.id.
Qed.

Lemma arr_set_Z {A} (l : list A) (i : Z) a : 0 <= i < Z.of_nat (length l) -> arr_set l i a = Ok (<[Z.to_nat i := a]> l).
Proof. intros Hi. pose proof (arr_set_ok l (Z.to_nat i) a) as H. rewrite Z2Nat.id in H by lia. apply H. lia. Qed.

(** ** What the table does not depend on *)

(** A connection but for the mark of a deferred change. *)
Definition core (x : wsi) : wsi := set_leave_pollout_active false x.

Record alike (c c' : context) : Prop := {
  al_max : max_fds c' = max_fds c;
  al_unrelated : max_fds_unrelated_to_ulimit c' = max_fds_unrelated_to_ulimit c;
  al_limit : fd_limit_per_thread c' = fd_limit_per_thread c;
  al_lookup : lws_lookup c' = lws_lookup c;
  al_lserv : lserv_wsis c' = lserv_wsis c;
  al_vh : same_vh_protocol c' = same_vh_protocol c;
  al_destroyed : being_destroyed c' = being_destroyed c;
  al_count : fds_count c' = fds_count c;
  al_wsis : forall w, core <$> wsis c' !! w = core <$> wsis c !! w
}.

#[export] Instance alike_preorder : PreOrder alike.
Proof.
  split; [by intros c; constructor|]. intros c1 c2 c3 [] []. constructor; try congruence.
Qed.

Lemma alike_wsi c c' w x : alike c c' -> wsis c !! w = Some x -> exists x', wsis c' !! w = Some x' /\ core x' = core x.
Proof.
  intros L Hx. pose proof (al_wsis _ _ L w) as H. rewrite Hx in H.
  destruct (wsis c' !! w) as [x'|] eqn:E; [|done]. exists x'. split; [done|]. exact (inj Some _ _ H).
Qed.

Lemma alike_wsi_back c c' w x' : alike c c' -> wsis c' !! w = Some x' -> exists x, wsis c !! w = Some x /\ core x' = core x.
Proof.
  intros L Hx. pose proof (al_wsis _ _ L w) as H. rewrite Hx in H.
  destruct (wsis c !! w) as [x|] eqn:E; [|done]. exists x. split; [done|]. exact (inj Some _ _ H).
Qed.

(** The members of a connection are those of its core. *)
Lemma core_eq x x' : core x' = core x ->
  sockfd x' = sockfd x /\ position_in_fds_table x' = position_in_fds_table x /\ vhost x' = vhost x /\
  protocol x' = protocol x /\ event_pipe x' = event_pipe x /\ handling_pollout x' = handling_pollout x.
Proof. destruct x, x'. unfold core, set_leave_pollout_active. cbn. intros [=]. by subst. Qed.

Lemma conns_alike c c' I : alike c c' -> conns_ok c I -> conns_ok c' I.
Proof.
  intros L K. constructor.
  - intros i t Hi. destruct (k_in _ _ K i t Hi) as (x & Hx & H1 & H2 & H3).
    destruct (alike_wsi _ _ _ _ L Hx) as (x' & Hx' & Hc). destruct (core_eq _ _ Hc) as (E1 & E2 & E3 & _).
    exists x'. by rewrite E1, E2, E3.
  - intros w x' Hx'. destruct (alike_wsi_back _ _ _ _ L Hx') as (x & Hx & Hc).
    destruct (core_eq _ _ Hc) as (_ & -> & _). by apply (k_pos _ _ K).
  - intros w w' x1' x2' H1' H2' Heq.
    destruct (alike_wsi_back _ _ _ _ L H1') as (x1 & H1 & Hc1), (alike_wsi_back _ _ _ _ L H2') as (x2 & H2 & Hc2).
    destruct (core_eq _ _ Hc1) as (E1 & _), (core_eq _ _ Hc2) as (E2 & _). rewrite E1.
    apply (k_own _ _ K w w' x1 x2 H1 H2). congruence.
  - intros w x' Hx'. destruct (alike_wsi_back _ _ _ _ L Hx') as (x & Hx & Hc).
    destruct (core_eq _ _ Hc) as (-> & _). by apply (k_fd _ _ K w).
  - apply (k_valid _ _ K).
  - intros w. rewrite (al_lserv _ _ L). intros (x & Hx)%(k_lserv _ _ K).
    destruct (alike_wsi _ _ _ _ L Hx) as (x' & Hx' & _). by exists x'.
  - intros n l w. rewrite (al_vh _ _ L). intros Hl Hw. destruct (k_bound _ _ K n l w Hl Hw) as (x & Hx & Hp).
    destruct (alike_wsi _ _ _ _ L Hx) as (x' & Hx' & Hc). destruct (core_eq _ _ Hc) as (_ & _ & _ & E & _).
    exists x'. by rewrite E.
Qed.

Lemma lookup_alike c c' I : alike c c' -> lookup_ok c I -> lookup_ok c' I.
Proof. intros L. unfold lookup_ok. by rewrite (al_max _ _ L), (al_lookup _ _ L), (al_unrelated _ _ L), (al_limit _ _ L). Qed.

Lemma base_alike c c' T T' : alike c c' -> T'.*1 = T.*1 -> slots_ok c' T' -> base c T -> base c' T'.
Proof.
  intros L HT S (_ & K & N). split; [done|]. rewrite HT. split; [by apply (conns_alike c)|by apply (lookup_alike c)].
Qed.

(** ** Calls *)

Section Operations.
Context (answer : list (Z * poll_reason) -> Z).

Lemma alike_calls v c : alike c (set_calls v c).
Proof. by constructor. Qed.

Lemma slots_calls v c T : slots_ok c T -> slots_ok (set_calls v c) T.
Proof. intros []. by constructor. Qed.

Lemma base_calls v c T : base c T -> base (set_calls v c) T.
Proof. intros B. apply (base_alike c _ T); [apply alike_calls|done| |done]. apply slots_calls, B. Qed.

(** What follows the callback of one connection. *)
Definition told_fd (r : poll_reason) : option Z :=
  match r with ADD_POLL_FD d _ | DEL_POLL_FD d | CHANGE_MODE_POLL_FD d _ _ => Some d | _ => None end.

Lemma tell_own V r : (forall d, told_fd r = Some d -> d ∉ V0.*1) -> tell (V0 ++ V) r = V0 ++ tell V r.
Proof.
  assert (forall d q, d ∉ V0.*1 -> q ∈ V0 -> q.1 <> d) as Hne
    by (intros d q Hd Hq <-; by apply Hd, list_elem_of_fmap_2).
  destruct r as [|d e|d|d e e'| |]; cbn; intros H; [done|by rewrite app_assoc| | |done|done].
  - rewrite filter_app. f_equal. apply filter_all, Forall_forall. intros q Hq. by apply (Hne d q (H d eq_refl)).
  - rewrite fmap_app. f_equal. rewrite <- (list_fmap_id V0) at 2. apply list_fmap_ext. intros i q Hq.
    rewrite (proj2 (Z.eqb_neq _ _)); [done|]. apply (Hne d q (H d eq_refl)), list_elem_of_lookup. by exists i.
Qed.

Lemma call_synced b w r c T T' : (forall d, told_fd r = Some d -> d ∉ V0.*1) ->
  (b = true -> tell (view T) r ≡ₚ view T') -> (b = false -> view T ≡ₚ view T') -> synced c T ->
  synced (call_if answer b w r c).2 T'.
Proof.
  unfold synced. intros Ho Ht Hf Hs. destruct b; cbn.
  - rewrite replay_app. cbn. rewrite Hs, tell_own by done. by rewrite Ht.
  - rewrite Hs. by rewrite Hf.
Qed.

Lemma call_alike b w r c : alike c (call_if answer b w r c).2.
Proof. destruct b; [apply alike_calls|reflexivity]. Qed.

Lemma call_base b w r c T : base c T -> base (call_if answer b w r c).2 T.
Proof. destruct b; [apply base_calls|done]. Qed.

Definition quiet (r : poll_reason) : Prop := r = LOCK_POLL \/ r = UNLOCK_POLL \/ r = GET_THREAD_ID.

Lemma call_quiet b w r c T : quiet r -> rep c T -> rep (call_if answer b w r c).2 T.
Proof.
  intros Hq [B S]. split; [by apply call_base|]. apply (call_synced _ _ _ _ T); [|intros _|done|done];
    [by destruct Hq as [->|[->| ->]]|]. by destruct Hq as [->|[->| ->]].
Qed.

(** ** Changing what an entry waits for *)

(** The events of the connection [w]. *)
Definition changed (w : Z) (_and _or : Z) (T : table) : table :=
  (fun t => if i_wsi t.1 =? w then (t.1, Z.lor (Z.ldiff t.2 _and) _or) else t) <$> T.

Lemma changed_ids w a o T : (changed w a o T).*1 = T.*1.
Proof. unfold changed. rewrite <- list_fmap_compose. apply list_fmap_ext. intros i t _. cbn. by destruct (_ =? w). Qed.

Lemma changed_same w a o T : (forall t, t ∈ T -> i_wsi t.1 <> w) -> changed w a o T = T.
Proof.
  intros H. unfold changed. rewrite <- (list_fmap_id T) at 2. apply list_fmap_ext. intros i t Ht.
  destruct (Z.eqb_spec (i_wsi t.1) w) as [E|]; [|done]. destruct (H t); [|done]. by apply list_elem_of_lookup; exists i.
Qed.

Lemma view_changed w a o T d prev :
  (forall t, t ∈ T -> (i_fd t.1 = d <-> i_wsi t.1 = w) /\ (i_wsi t.1 = w -> t.2 = prev)) ->
  tell (view T) (CHANGE_MODE_POLL_FD d (Z.lor (Z.ldiff prev a) o) prev) = view (changed w a o T).
Proof.
  unfold tell, view, changed. induction T as [|t T IH]; intros H; [done|].
  destruct (H t ltac:(left)) as [H1 H2]. rewrite fmap_cons, !filter_cons.
  specialize (IH (fun u Hu => H u (list_elem_of_further _ _ _ Hu))).
  destruct (Z.eqb_spec (i_wsi t.1) w) as [E|E].
  - cbn [fst]. destruct (decide (i_vhost t.1 = true)); [|exact IH]. rewrite !fmap_cons, IH. f_equal.
    cbn [fst snd]. rewrite (proj2 (Z.eqb_eq _ _)) by (by apply H1). by rewrite H2.
  - destruct (decide (i_vhost t.1 = true)); [|exact IH]. rewrite !fmap_cons, IH. f_equal.
    cbn [fst snd]. rewrite (proj2 (Z.eqb_neq _ _)) by (by rewrite H1). done.
Qed.

Lemma view_deaf w a o T : (forall t, t ∈ T -> i_wsi t.1 = w -> i_vhost t.1 = false) -> view (changed w a o T) = view T.
Proof.
  unfold view, changed. induction T as [|t T IH]; intros H; [done|]. rewrite fmap_cons, !filter_cons.
  specialize (IH (fun u Hu => H u (list_elem_of_further _ _ _ Hu))).
  destruct (Z.eqb_spec (i_wsi t.1) w) as [E|E]; cbn [fst].
  - rewrite (H t) by (done || left). done.
  - destruct (decide (i_vhost t.1 = true)); [|exact IH]. by rewrite !fmap_cons, IH.
Qed.

(** The slot of a connection that is in the table. *)
Lemma in_table c T w x : base c T -> wsis c !! w = Some x -> position_in_fds_table x <> LWS_NO_FDS_POS ->
  exists i t r, position_in_fds_table x = Z.of_nat i /\ T !! i = Some t /\ i_wsi t.1 = w /\
    i_fd t.1 = sockfd x /\ i_vhost t.1 = vhost x /\ (i < length T)%nat /\
    fds c !! i = Some (mk_pollfd (sockfd x) t.2 r) /\
    (forall j u, T !! j = Some u -> (i_fd u.1 = sockfd x <-> i_wsi u.1 = w) /\ (i_wsi u.1 = w -> j = i /\ u = t)).
Proof.
  intros (S & K & _) Hx Hp. destruct (k_pos _ _ K w x Hx) as [?|(i & t1 & Hi & Ht & Hw)]; [done|].
  rewrite list_lookup_fmap, fmap_Some in Ht. destruct Ht as (t & Ht & ->).
  assert (forall j u, T !! j = Some u -> T.*1 !! j = Some u.1) as Hfst by (intros j u Hj; by rewrite list_lookup_fmap, Hj).
  assert (forall j u, T !! j = Some u -> u.1 ∈ T.*1) as Hin by (intros j u Hj; apply list_elem_of_lookup; eauto).
  destruct (wsi_of_entry _ _ w x t.1 K Hx (Hin _ _ Ht) Hw) as [Hf Hv].
  destruct (s_slots _ _ S i t Ht) as (r & Hr). exists i, t, r. rewrite <- Hf. split_and!; try done.
  { by apply lookup_lt_Some in Ht. }
  intros j u Hj. split; [split|].
  - intros E. rewrite <- Hw. by apply (same_fd c T.*1); eauto.
  - intros E. destruct (wsi_of_entry _ _ w x u.1 K Hx (Hin _ _ Hj) E) as [Hf' _]. congruence.
  - intros E. assert (j = i) as ->; [|split; [done|congruence]].
    eapply (NoDup_lookup (i_wsi <$> T.*1)); [by apply (ids_nodup c)|..].
    + by rewrite list_lookup_fmap, (Hfst _ _ Hj).
    + rewrite list_lookup_fmap, (Hfst _ _ Ht). cbn. by rewrite Hw, E.
Qed.

Lemma not_in_table c T w x : base c T -> wsis c !! w = Some x -> position_in_fds_table x = LWS_NO_FDS_POS ->
  forall t, t ∈ T -> i_wsi t.1 <> w.
Proof.
  intros (_ & K & _) Hx Hp t (i & Hi)%list_elem_of_lookup Hw.
  destruct (k_in _ _ K i t.1) as (x' & Hx' & Hp' & _); [by rewrite list_lookup_fmap, Hi|].
  rewrite Hw, Hx in Hx'. injection Hx' as <-. unfold LWS_NO_FDS_POS in Hp. lia.
Qed.

Lemma slots_changed c T i t r w a o : slots_ok c T -> T !! i = Some t ->
  (forall j u, T !! j = Some u -> i_wsi u.1 = w <-> j = i) ->
  slots_ok (set_fds (<[i := mk_pollfd (i_fd t.1) (Z.lor (Z.ldiff t.2 a) o) r]> (fds c)) c) (changed w a o T).
Proof.
  intros S Ht Hw. pose proof (fds_length_limit _ _ S) as Hl. pose proof (lookup_lt_Some _ _ _ Ht) as Hlt.
  assert (length (changed w a o T) = length T) as Hlen by apply length_fmap.
  constructor; cbn; rewrite ?Hlen.
  - apply (s_count _ _ S).
  - rewrite length_insert. apply (s_len _ _ S).
  - apply (s_max _ _ S).
  - apply (s_limit _ _ S).
  - intros j u Hj. unfold changed in Hj. rewrite list_lookup_fmap, fmap_Some in Hj. destruct Hj as (v & Hv & ->).
    specialize (Hw j v Hv). destruct (Z.eqb_spec (i_wsi v.1) w) as [E|E].
    + apply Hw in E as ->. rewrite Ht in Hv. injection Hv as <-. exists r. by rewrite list_lookup_insert_eq by lia.
    + rewrite list_lookup_insert_ne by (intros ->; by apply E, Hw). by apply (s_slots _ _ S).
Qed.

Lemma alike_fds v c : alike c (set_fds v c).
Proof. by constructor. Qed.

Lemma alike_cancel c : alike c (lws_cancel_service_pt c).
Proof. by constructor. Qed.

Lemma rep_cancel c T : rep c T -> rep (lws_cancel_service_pt c) T.
Proof.
  intros [B S]. split; [|done]. apply (base_alike c _ T); [apply alike_cancel|done| |done].
  destruct (proj1 B). by constructor.
Qed.

(** When the change is left to the end of the writable callback. *)
Definition deferred (x : wsi) (_and _or : Z) : bool :=
  handling_pollout x && (_and =? 0) && (_or =? LWS_POLLOUT).

Lemma change_ok w a o c T x : rep c T -> wsis c !! w = Some x ->
  exists n c', _lws_change_pollfd answer w a o c = Ok (n, c') /\ alike c c' /\
    rep c' (if deferred x a o then T else changed w a o T).
Proof.
  intros [B S] Hx. unfold _lws_change_pollfd, wsi_at. rewrite Hx. cbn [mbind res_bind].
  destruct (Z.eqb_spec (position_in_fds_table x) LWS_NO_FDS_POS) as [Hp|Hp].
  { cbn [orb negb]. exists 0, c. split; [done|]. split; [reflexivity|].
    rewrite changed_same by (by apply (not_in_table c T w x)). by destruct (deferred x a o). }
  destruct (in_table c T w x B Hx Hp) as (i & t & r & Hpi & Ht & Hw & Hf & Hv & Hlt & Hfd & Hu).
  rewrite Hpi. cbn [orb]. rewrite (proj2 (Z.leb_le _ _)) by lia. cbn [negb].
  change (handling_pollout x && (a =? 0) && (o =? LWS_POLLOUT)) with (deferred x a o).
  destruct (deferred x a o).
  { unfold upd_wsi, wsi_at. rewrite Hx. cbn [mbind res_bind]. exists 0. eexists. split; [reflexivity|].
    assert (alike c (set_wsis (<[w:=set_leave_pollout_active true x]> (wsis c)) c)) as L.
    { constructor; try done. intros v. cbn. destruct (decide (v = w)) as [->|];
        [by rewrite lookup_insert_eq, Hx|by rewrite lookup_insert_ne]. }
    split; [done|]. split; [|done]. apply (base_alike c _ T); [done|done| |done]. destruct (proj1 B). by constructor. }
  rewrite (s_count _ _ (proj1 B)). rewrite (proj2 (Z.ltb_lt _ _)) by lia. cbn [negb].
  rewrite (arr_get_ok _ _ _ Hfd). cbn [mbind res_bind fd events revents].
  rewrite arr_set_ok by (by apply lookup_lt_Some in Hfd). cbn [mbind res_bind].
  set (c1 := set_fds _ c). assert (alike c c1) as L1 by apply alike_fds.
  assert (base c1 (changed w a o T)) as B1.
  { apply (base_alike c _ T); [done|apply changed_ids| |done]. subst c1. rewrite <- Hf.
    apply slots_changed; [apply B|done|]. intros j u Hj. split; [intros E; by destruct (proj2 (Hu j u Hj) E)|intros ->].
    rewrite Ht in Hj. by injection Hj as <-. }
  assert (synced (call_if answer (vhost x) w (CHANGE_MODE_POLL_FD (sockfd x) (Z.lor (Z.ldiff t.2 a) o) t.2) c1).2
            (changed w a o T)) as S1.
  { apply (call_synced _ _ _ _ T); [| | |exact S].
    - intros d [= <-]. by apply (k_fd _ _ (proj1 (proj2 B)) w).
    - intros _. rewrite (view_changed w a o T (sockfd x) t.2); [done|].
      intros u (j & Hj)%list_elem_of_lookup. split; [apply (Hu j u Hj)|]. intros E. by destruct (proj2 (Hu j u Hj) E) as [_ ->].
    - intros Hvf. rewrite view_deaf; [done|]. intros u (j & Hj)%list_elem_of_lookup E.
      destruct (proj2 (Hu j u Hj) E) as [_ ->]. congruence. }
  pose proof (call_base (vhost x) w (CHANGE_MODE_POLL_FD (sockfd x) (Z.lor (Z.ldiff t.2 a) o) t.2) c1 _ B1) as B2.
  pose proof (call_alike (vhost x) w (CHANGE_MODE_POLL_FD (sockfd x) (Z.lor (Z.ldiff t.2 a) o) t.2) c1) as L2.
  clearbody c1. destruct (call_if answer (vhost x) w _ c1) as [n c2]. cbn [snd] in *.
  assert (alike c c2) as L by (by transitivity c1). assert (rep c2 (changed w a o T)) as R by done.
  destruct (nz n); [by eexists _, _|]. destruct (t.2 =? _); [by eexists _, _|].
  destruct (nz (service_tid c2) && vhost x); [|by eexists _, _].
  pose proof (call_quiet true w GET_THREAD_ID c2 _ ltac:(by right; right) R) as R3. cbn [call_if] in R3.
  pose proof (call_alike true w GET_THREAD_ID c2) as L3. cbn [call_if] in L3.
  destruct (call answer w GET_THREAD_ID c2) as [tid c3]. cbn [snd] in *.
  assert (alike c c3) as L4 by (by transitivity c2).
  destruct (tid =? -1); [by eexists _, _|]. eexists _, _. split; [reflexivity|].
  destruct (tid =? service_tid c3); [done|]. split; [|by apply rep_cancel]. transitivity c3; [done|apply alike_cancel].
Qed.

(** ** The listening sockets *)

Definition modulated (vhosts : list (option Z)) (allow : bool) (T : table) : table :=
  fold_left (fun T v => match v with
                        | Some w => if allow then changed w 0 LWS_POLLIN T else changed w LWS_POLLIN 0 T
                        | None => T end) vhosts T.

Lemma modulated_ids vs allow T : (modulated vs allow T).*1 = T.*1.
Proof.
  unfold modulated. revert T. induction vs as [|[w|] vs IH]; intros T; [done| |apply IH]. cbn [fold_left].
  rewrite IH. destruct allow; apply changed_ids.
Qed.

Lemma accept_modulation_ok vs allow c T : rep c T -> (forall w, Some w ∈ vs -> is_Some (wsis c !! w)) ->
  exists c', accept_modulation answer vs allow c = Ok c' /\ alike c c' /\ rep c' (modulated vs allow T).
Proof.
  revert c T. induction vs as [|[w|] vs IH]; intros c T R Hvs; [by exists c| |].
  2: { apply IH; [done|]. intros w Hw. apply Hvs. by right. }
  destruct (Hvs w ltac:(left)) as [x Hx].
  assert (exists n c1, (if allow then _lws_change_pollfd answer w 0 LWS_POLLIN c
                        else _lws_change_pollfd answer w LWS_POLLIN 0 c) = Ok (n, c1) /\ alike c c1 /\
            rep c1 (if allow then changed w 0 LWS_POLLIN T else changed w LWS_POLLIN 0 T)) as (n & c1 & E & L & R1).
  { destruct allow.
    - destruct (change_ok w 0 LWS_POLLIN c T x R Hx) as (n & c1 & E & L & R1). exists n, c1. split; [done|]. split; [done|].
      unfold deferred in R1. by rewrite andb_false_r in R1.
    - destruct (change_ok w LWS_POLLIN 0 c T x R Hx) as (n & c1 & E & L & R1). exists n, c1. split; [done|]. split; [done|].
      unfold deferred in R1. by rewrite andb_false_r in R1. }
  cbn [accept_modulation]. rewrite E. cbn [mbind res_bind].
  destruct (IH c1 _ R1) as (c2 & E2 & L2 & R2).
  { intros v Hv. destruct (Hvs v ltac:(by right)) as [y Hy]. destruct (alike_wsi _ _ _ _ L Hy) as (y' & Hy' & _). by exists y'. }
  exists c2. split; [exact E2|]. split; [by transitivity c1|exact R2].
Qed.

Lemma modulation_ok allow c T : rep c T ->
  exists c', lws_accept_modulation answer allow c = Ok c' /\ alike c c' /\ rep c' (modulated (lserv_wsis c) allow T).
Proof. intros R. apply accept_modulation_ok; [done|]. apply (k_lserv _ _ (proj1 (proj2 (proj1 R)))). Qed.

(** ** The guarded forms *)

(** The same connections, whatever they wait for. *)
Definition same_ids (c c' : context) (T : table) : Prop := exists T', rep c' T' /\ alike c c' /\ T'.*1 = T.*1.

Lemma guarded_ok w a o c T x : rep c T -> wsis c !! w = Some x ->
  exists n c', __lws_change_pollfd answer w a o c = Ok (n, c') /\ same_ids c c' T.
Proof.
  intros R Hx. unfold __lws_change_pollfd, wsi_at. rewrite Hx. cbn [mbind res_bind].
  destruct (_ || _); [exists 0, c; split; [done|]; by exists T|].
  pose proof (call_quiet (vhost x) w LOCK_POLL c _ ltac:(by left) R) as R1.
  pose proof (call_alike (vhost x) w LOCK_POLL c) as L1. destruct (call_if answer (vhost x) w LOCK_POLL c) as [n c1].
  cbn [snd] in *. destruct (nz n); [exists (-1), c1; split; [done|]; by exists T|].
  destruct (alike_wsi _ _ _ _ L1 Hx) as (x1 & Hx1 & _).
  destruct (change_ok w a o c1 T x1 R1 Hx1) as (n2 & c2 & -> & L2 & R2). cbn [mbind res_bind].
  pose proof (call_quiet (vhost x) w UNLOCK_POLL c2 _ ltac:(by right; left) R2) as R3.
  pose proof (call_alike (vhost x) w UNLOCK_POLL c2) as L3. destruct (call_if answer (vhost x) w UNLOCK_POLL c2) as [n3 c3].
  cbn [snd] in *. eexists _, _. split; [reflexivity|]. eexists. split; [exact R3|].
  split; [by transitivity c1; [|transitivity c2]|]. destruct (deferred x1 a o); [done|apply changed_ids].
Qed.

Lemma on_writable_ok w c T x : rep c T -> wsis c !! w = Some x ->
  exists n c', lws_callback_on_writable answer w c = Ok (n, c') /\ same_ids c c' T.
Proof.
  intros R Hx. unfold lws_callback_on_writable, wsi_at. rewrite Hx. cbn [mbind res_bind].
  assert (same_ids c c T) as H0 by (by exists T).
  destruct (bool_decide _); [by eexists _, _|]. destruct (socket_is_permanently_unusable x); [by eexists _, _|].
  destruct (_ =? _); [by eexists _, _|]. destruct (guarded_ok w 0 LWS_POLLOUT c T x R Hx) as (n & c' & -> & H).
  cbn [mbind res_bind]. by eexists _, _.
Qed.

Lemma same_ids_trans c1 c2 c3 T1 : same_ids c1 c2 T1 -> (forall T2, rep c2 T2 -> same_ids c2 c3 T2) -> same_ids c1 c3 T1.
Proof.
  intros (T2 & R2 & L2 & E2) H. destruct (H T2 R2) as (T3 & R3 & L3 & E3). exists T3. split; [done|].
  split; [by transitivity c2|congruence].
Qed.

Lemma on_writable_each_ok n l c T : rep c T -> (forall w, w ∈ l -> exists x, wsis c !! w = Some x /\ protocol x = Some n) ->
  exists c', on_writable_each answer n l c = Ok c' /\ same_ids c c' T.
Proof.
  revert c T. induction l as [|w l IH]; intros c T R Hl; [exists c; split; [done|]; by exists T|].
  destruct (Hl w ltac:(left)) as (x & Hx & Hp). cbn [on_writable_each]. unfold wsi_at. rewrite Hx. cbn [mbind res_bind].
  rewrite bool_decide_eq_true_2 by done. cbn [negb].
  destruct (on_writable_ok w c T x R Hx) as (m & c1 & -> & T1 & R1 & L1 & E1). cbn [mbind res_bind].
  destruct (IH c1 T1 R1) as (c2 & -> & T2 & R2 & L2 & E2).
  { intros v Hv. destruct (Hl v ltac:(by right)) as (y & Hy & Hpy). destruct (alike_wsi _ _ _ _ L1 Hy) as (y' & Hy' & Hc).
    exists y'. split; [done|]. destruct (core_eq _ _ Hc) as (_ & _ & _ & -> & _). done. }
  exists c2. split; [done|]. exists T2. split; [done|]. split; [by transitivity c1|congruence].
Qed.

(** ** The lookup array *)

(** The connections of the lookup array are there, under their descriptors. *)
Definition named_ok (c : context) (I : list id) : Prop :=
  (forall t, t ∈ I -> 0 <= i_fd t /\ exists x, wsis c !! i_wsi t = Some x /\ sockfd x = i_fd t) /\
  (forall t t', t ∈ I -> t' ∈ I -> i_fd t = i_fd t' -> i_wsi t = i_wsi t').

Lemma conns_named c I : conns_ok c I -> named_ok c I.
Proof.
  intros K. split; [|intros t t'; by apply (same_fd c)]. intros t Ht. split; [by apply (k_valid _ _ K)|].
  apply list_elem_of_lookup in Ht as (i & Hi). destruct (k_in _ _ K i t Hi) as (x & Hx & _ & Hf & _). by exists x.
Qed.

Lemma elem_omap_id (l : list (option Z)) w : w ∈ omap (fun p => p) l <-> Some w ∈ l.
Proof. rewrite list_elem_of_omap. split; [by intros (? & ? & ->)|eauto]. Qed.

Lemma find_fd c d l i : (forall w, Some w ∈ l -> is_Some (wsis c !! w)) ->
  (find_slot (has_fd c d) i l = Ok None /\ forall w x, Some w ∈ l -> wsis c !! w = Some x -> sockfd x <> d) \/
  exists (k : nat) w x, find_slot (has_fd c d) i l = Ok (Some (i + Z.of_nat k, Some w)) /\ l !! k = Some (Some w) /\
    wsis c !! w = Some x /\ sockfd x = d.
Proof.
  revert i. induction l as [|p l IH]; intros i H; [left; split; [done|]; by intros w x ?%elem_of_nil|].
  specialize (IH (i + 1) (fun w Hw => H w (list_elem_of_further _ _ _ Hw))). cbn [find_slot].
  assert ((exists w x, p = Some w /\ wsis c !! w = Some x /\ sockfd x = d) \/
          (has_fd c d p = Ok false /\ forall w x, p = Some w -> wsis c !! w = Some x -> sockfd x <> d))
    as [(w & x & -> & Hx & Hd)|[Hno Hne]].
  { destruct p as [w|]; [|by right]. destruct (H w ltac:(left)) as [x Hx]. unfold has_fd, wsi_at. rewrite Hx. cbn.
    destruct (Z.eqb_spec (sockfd x) d) as [E|E]; [left; by exists w, x|]. right. split; [done|].
    intros w' x' [= <-] Hx'. congruence. }
  - right. exists 0%nat, w, x. unfold has_fd, wsi_at. rewrite Hx. cbn. rewrite (proj2 (Z.eqb_eq _ _) Hd).
    split_and!; try done. by rewrite Z.add_0_r.
  - rewrite Hno. cbn [mbind res_bind]. destruct IH as [[-> Hall]|(k & w & x & -> & Hk & Hx)].
    + left. split; [done|]. intros w x [Hw|Hw]%elem_of_cons; [by apply Hne|by apply Hall].
    + right. exists (S k), w, x. split; [do 3 f_equal; lia|]. done.
Qed.

Lemma wsi_from_fd_ok c I t : lookup_ok c I -> named_ok c I -> t ∈ I -> wsi_from_fd c (i_fd t) = Ok (Some (i_wsi t)).
Proof.
  intros (Hm & Hl & H) (Hn & Hu) Ht. destruct (Hn t Ht) as (H0 & x & Hx & Hf). unfold wsi_from_fd.
  destruct (max_fds_unrelated_to_ulimit c); cbn [negb].
  - destruct H as [_ Hp]. destruct (find_fd c (i_fd t) (lws_lookup c) 0) as [[_ Hall]|(k & w & y & -> & Hk & Hy & Hd)].
    + intros w Hw%elem_omap_id. rewrite Hp, list_elem_of_fmap in Hw. destruct Hw as (u & -> & Hin).
      destruct (Hn u Hin) as (_ & y & Hy & _). by exists y.
    + exfalso. apply (Hall (i_wsi t) x); [|done|done]. rewrite <- elem_omap_id, Hp. by apply list_elem_of_fmap_2.
    + cbn. do 2 f_equal. assert (Some w ∈ lws_lookup c) as Hin by (apply list_elem_of_lookup; eauto).
      rewrite <- elem_omap_id, Hp, list_elem_of_fmap in Hin. destruct Hin as (u & -> & Hin).
      destruct (Hn u Hin) as (_ & y' & Hy' & Hfu). apply Hu; [done..|]. congruence.
  - destruct H as [Hb Hw]. unfold arr_get. rewrite (proj2 (Hw (i_fd t) (i_wsi t) H0)) by (by exists t).
    by rewrite (proj2 (Z.leb_le _ _)).
Qed.

Lemma wsi_from_fd_none c I d : lookup_ok c I -> named_ok c I -> 0 <= d ->
  (max_fds_unrelated_to_ulimit c = false -> d < max_fds c) -> (forall t, t ∈ I -> i_fd t <> d) -> wsi_from_fd c d = Ok None.
Proof.
  intros (Hm & Hl & H) (Hn & Hu) H0 Hd Hno. unfold wsi_from_fd.
  destruct (max_fds_unrelated_to_ulimit c); cbn [negb].
  - destruct H as [_ Hp].
    assert (forall w, Some w ∈ lws_lookup c -> exists u x, u ∈ I /\ w = i_wsi u /\ wsis c !! w = Some x /\ sockfd x = i_fd u) as Hin.
    { intros w Hw%elem_omap_id. rewrite Hp, list_elem_of_fmap in Hw. destruct Hw as (u & -> & Hin).
      destruct (Hn u Hin) as (_ & y & Hy & Hf). by exists u, y. }
    destruct (find_fd c d (lws_lookup c) 0) as [[-> _]|(k & w & y & _ & Hk & Hy & Hdy)]; [|done|].
    + intros w Hw. destruct (Hin w Hw) as (u & x & _ & _ & Hx & _). by exists x.
    + destruct (Hin w) as (u & x & Hu1 & -> & Hx & Hf); [apply list_elem_of_lookup; eauto|].
      destruct (Hno u Hu1). congruence.
  - destruct H as [Hb Hw]. unfold arr_get. destruct (lookup_lt_is_Some_2 (lws_lookup c) (Z.to_nat d)) as [o Ho];
      [specialize (Hd eq_refl); lia|].
    rewrite Ho, (proj2 (Z.leb_le _ _)) by done. destruct o as [w|]; [|done].
    apply Hw in Ho as (t & Ht & Hf & _); [|done]. by destruct (Hno t Ht).
Qed.

(** The searches that confirm an absence. *)
Lemma find_wsi_none w l i : Some w ∉ l -> find_slot (is_wsi w) i l = Ok None.
Proof.
  revert i. induction l as [|p l IH]; intros i Hw; [done|]. apply not_elem_of_cons in Hw as [Hne Hw].
  cbn [find_slot is_wsi mbind res_bind]. rewrite bool_decide_eq_false_2 by congruence. by apply IH.
Qed.

Lemma find_fd_none c d l i : (forall w, Some w ∈ l -> exists x, wsis c !! w = Some x /\ sockfd x <> d) ->
  find_slot (has_fd c d) i l = Ok None.
Proof.
  intros H. destruct (find_fd c d l i) as [[-> _]|(k & w & x & _ & Hk & Hx & Hd)]; [|done|].
  - intros w (x & Hx & _)%H. by exists x.
  - destruct (H w) as (y & Hy & Hne); [apply list_elem_of_lookup; eauto|congruence].
Qed.

Lemma outside_ids c I w x t : conns_ok c I -> wsis c !! w = Some x -> position_in_fds_table x = LWS_NO_FDS_POS ->
  t ∈ I -> i_wsi t <> w.
Proof.
  intros K Hx Hp (i & Hi)%list_elem_of_lookup E. destruct (k_in _ _ K i t Hi) as (y & Hy & Hpy & _).
  rewrite E, Hx in Hy. injection Hy as <-. unfold LWS_NO_FDS_POS in Hp. lia.
Qed.

Lemma find_empty l i : (length (omap (fun p : option Z => p) l) < length l)%nat ->
  exists k : nat, find_slot is_empty i l = Ok (Some (i + Z.of_nat k, None)) /\ l !! k = Some None.
Proof.
  revert i. induction l as [|[w|] l IH]; intros i Hl; [cbn in Hl; lia| |].
  - cbn in Hl. destruct (IH (i + 1)) as (k & E & Hk); [lia|]. exists (S k). split; [|done].
    cbn [find_slot is_empty mbind res_bind]. rewrite bool_decide_eq_false_2 by done. rewrite E. do 3 f_equal. lia.
  - exists 0%nat. split; [|done]. cbn. by rewrite Z.add_0_r.
Qed.

Lemma omap_insert_some (l : list (option Z)) (k : nat) w : l !! k = Some None ->
  omap (fun p => p) (<[k := Some w]> l) ≡ₚ w :: omap (fun p => p) l.
Proof.
  intros Hk. rewrite insert_take_drop by (by apply lookup_lt_Some in Hk). rewrite <- (take_drop_middle l k None Hk) at 3.
  rewrite !omap_app. cbn. by rewrite Permutation_middle.
Qed.

Lemma omap_insert_none (l : list (option Z)) (k : nat) w : l !! k = Some (Some w) ->
  w :: omap (fun p => p) (<[k := None]> l) ≡ₚ omap (fun p => p) l.
Proof.
  intros Hk. rewrite insert_take_drop by (by apply lookup_lt_Some in Hk). rewrite <- (take_drop_middle l k (Some w) Hk) at 3.
  rewrite !omap_app. cbn. by rewrite Permutation_middle.
Qed.

Lemma insert_wsi_ok c I w x : conns_ok c I -> lookup_ok c I -> wsis c !! w = Some x ->
  position_in_fds_table x = LWS_NO_FDS_POS -> 0 <= sockfd x -> Z.of_nat (length I) < fd_limit_per_thread c ->
  (max_fds_unrelated_to_ulimit c = false -> sockfd x < max_fds c) ->
  exists lk, insert_wsi w c = Ok (0, set_lws_lookup lk c) /\
    lookup_ok (set_lws_lookup lk c) (I ++ [mk_id w (sockfd x) (vhost x)]).
Proof.
  intros K (Hm & Hl & H) Hx Hp Hfd Hlim Hmax. unfold insert_wsi, lookup_ok. cbn.
  destruct (max_fds_unrelated_to_ulimit c); cbn [negb].
  - destruct H as [Hle HP].
    assert (forall v, Some v ∈ lws_lookup c -> exists t, t ∈ I /\ i_wsi t = v) as Hin.
    { intros v Hv%elem_omap_id. rewrite HP, list_elem_of_fmap in Hv. destruct Hv as (t & -> & Ht). by exists t. }
    rewrite find_wsi_none by (intros (t & Ht & Ew)%Hin; by apply (outside_ids c I w x t K Hx Hp Ht)).
    unfold wsi_at. rewrite Hx. cbn [mbind res_bind]. rewrite bool_decide_eq_true_2 by done. cbn [negb].
    rewrite find_fd_none.
    2: { intros v (t & Ht & <-)%Hin. destruct (conns_named c I K) as [Hn _]. destruct (Hn t Ht) as (_ & y & Hy & Hf).
         exists y. split; [done|]. intros E. apply (outside_ids c I w x t K Hx Hp Ht). symmetry.
         destruct (k_own _ _ K w (i_wsi t) x y Hx Hy) as [Ei|]; [congruence|unfold LWS_SOCK_INVALID in Ei; lia|done]. }
    cbn [mbind res_bind]. rewrite bool_decide_eq_true_2 by done. cbn [negb].
    destruct (find_empty (lws_lookup c) 0) as (k & -> & Hk).
    { rewrite (Permutation_length HP), length_fmap. lia. }
    cbn [mbind res_bind]. rewrite Z.add_0_l, arr_set_ok by (by apply lookup_lt_Some in Hk). cbn [mbind res_bind].
    eexists. split; [reflexivity|]. split_and!; [done|by rewrite length_insert|done|].
    rewrite omap_insert_some, HP, fmap_app by done. cbn. by rewrite Permutation_cons_append.
  - destruct H as [Hb HI]. unfold wsi_at. rewrite Hx. cbn [mbind res_bind]. specialize (Hmax eq_refl).
    destruct (lookup_lt_is_Some_2 (lws_lookup c) (Z.to_nat (sockfd x))) as [o Ho]; [lia|].
    assert (o = None) as ->.
    { destruct o as [v|]; [|done]. apply HI in Ho as (t & Ht & Hf & Hv); [|done].
      apply list_elem_of_lookup in Ht as (i & Hi). destruct (k_in _ _ K i t Hi) as (y & Hy & Hpy & Hfy & _).
      destruct (k_own _ _ K _ _ x y Hx Hy) as [E|E]; [congruence|unfold LWS_SOCK_INVALID in E; lia|].
      rewrite <- E, Hx in Hy. injection Hy as <-. unfold LWS_NO_FDS_POS in Hp. lia. }
    pose proof (arr_get_ok _ _ _ Ho) as Hg. rewrite Z2Nat.id in Hg by done. rewrite Hg. cbn [mbind res_bind].
    rewrite bool_decide_eq_true_2 by done. cbn [negb]. rewrite arr_set_Z by lia. cbn [mbind res_bind].
    eexists. split; [reflexivity|]. split_and!; [done|by rewrite length_insert|..].
    + intros t [Ht|Ht%list_elem_of_singleton]%elem_of_app; [by apply Hb|]. by subst t.
    + intros d v Hd. setoid_rewrite elem_of_app. setoid_rewrite list_elem_of_singleton.
      destruct (decide (d = sockfd x)) as [->|Hne].
      * rewrite list_lookup_insert_eq by lia. split.
        -- intros [= ->]. eexists. split; [by right|done].
        -- intros (t & [Ht|Ht] & Hf & Hv); [|by subst].
           exfalso. assert (lws_lookup c !! Z.to_nat (sockfd x) = Some (Some v)) as E by (apply HI; [done|by exists t]).
           congruence.
      * rewrite list_lookup_insert_ne by lia. rewrite HI by done. split; [intros (t & ? & ?); exists t; auto|].
        intros (t & [Ht|Ht] & Hf & Hv); [by exists t|]. subst t. cbn in Hf. congruence.
Qed.

Lemma delete_from_fd_ok c I t I' : lookup_ok c I -> named_ok c I -> NoDup (i_wsi <$> I) -> I ≡ₚ t :: I' ->
  exists lk, delete_from_fd (i_fd t) c = Ok (set_lws_lookup lk c) /\ lookup_ok (set_lws_lookup lk c) I'.
Proof.
  intros (Hm & Hl & H) (Hn & Hu) Hnd HI.
  assert (t ∈ I) as Ht by (rewrite HI; left). destruct (Hn t Ht) as (H0 & x & Hx & Hf). unfold delete_from_fd, lookup_ok. cbn.
  destruct (max_fds_unrelated_to_ulimit c); cbn [negb].
  - destruct H as [Hle HP]. destruct (find_fd c (i_fd t) (lws_lookup c) 0) as [[_ Hall]|(k & w & y & -> & Hk & Hy & Hd)].
    + intros w Hw%elem_omap_id. rewrite HP, list_elem_of_fmap in Hw. destruct Hw as (u & -> & Hin).
      destruct (Hn u Hin) as (_ & y & Hy & _). by exists y.
    + exfalso. apply (Hall (i_wsi t) x); [|done|done]. rewrite <- elem_omap_id, HP. by apply list_elem_of_fmap_2.
    + assert (w = i_wsi t) as ->.
      { assert (Some w ∈ lws_lookup c) as Hin by (apply list_elem_of_lookup; eauto).
        rewrite <- elem_omap_id, HP, list_elem_of_fmap in Hin. destruct Hin as (u & -> & Hin).
        destruct (Hn u Hin) as (_ & y' & Hy' & Hfu). apply Hu; [done..|]. congruence. }
      cbn [mbind res_bind]. rewrite Z.add_0_l, arr_set_ok by (by apply lookup_lt_Some in Hk). cbn [mbind res_bind].
      assert (omap (fun p => p) (<[k := None]> (lws_lookup c)) ≡ₚ i_wsi <$> I') as HP'.
      { apply (Permutation_cons_inv (a := i_wsi t)). rewrite omap_insert_none, HP, HI by done. done. }
      change (lws_lookup (set_lws_lookup ?l c)) with l. rewrite find_fd_none.
      { eexists. split; [reflexivity|]. by split_and!; [done|rewrite length_insert|done|]. }
      intros v Hv%elem_omap_id. rewrite HP', list_elem_of_fmap in Hv. destruct Hv as (u & -> & Hin).
      assert (u ∈ I) as HuI by (rewrite HI; by right). destruct (Hn u HuI) as (_ & z & Hz & Hfu). exists z. split; [done|].
      rewrite HI in Hnd. apply NoDup_cons in Hnd as [Hnot _]. intros E. apply Hnot. rewrite (Hu t u); [|done|done|congruence].
      by apply list_elem_of_fmap_2.
  - destruct H as [Hb HIl]. pose proof (Hb t Ht) as Hlt. rewrite arr_set_Z by lia. cbn [mbind res_bind]. eexists. split; [reflexivity|].
    split_and!; [done|by rewrite length_insert|..].
    + intros u Hin. apply Hb. rewrite HI. by right.
    + intros d v Hd. destruct (decide (d = i_fd t)) as [->|Hne].
      * rewrite list_lookup_insert_eq by lia. split; [done|]. intros (u & Hin & Hfu & _). exfalso.
        rewrite HI in Hnd. apply NoDup_cons in Hnd as [Hnot _]. apply Hnot. rewrite (Hu t u); [|done| |done].
        -- by apply list_elem_of_fmap_2.
        -- rewrite HI. by right.
      * rewrite list_lookup_insert_ne by lia. rewrite HIl by done. setoid_rewrite HI. setoid_rewrite elem_of_cons. split.
        -- intros (u & [->|Hin] & Hfu & Hv); [done|by exists u].
        -- intros (u & Hin & Hfu). exists u. auto.
Qed.

(** ** Entering *)

(** A connection but for its place. *)
Definition placeless (x : wsi) : wsi := set_position 0 x.

Lemma placeless_eq x x' : placeless x' = placeless x ->
  sockfd x' = sockfd x /\ vhost x' = vhost x /\ protocol x' = protocol x /\ event_pipe x' = event_pipe x.
Proof. destruct x, x'. unfold placeless, set_position. cbn. intros [=]. by subst. Qed.

Record moved (c c' : context) : Prop := {
  mv_limit : fd_limit_per_thread c' = fd_limit_per_thread c;
  mv_lserv : lserv_wsis c' = lserv_wsis c;
  mv_vh : same_vh_protocol c' = same_vh_protocol c;
  mv_destroyed : being_destroyed c' = being_destroyed c;
  mv_calls : calls c' = calls c;
  mv_wsis : forall w, placeless <$> wsis c' !! w = placeless <$> wsis c !! w
}.

Lemma moved_wsi c c' w x : moved c c' -> wsis c !! w = Some x -> exists x', wsis c' !! w = Some x' /\ placeless x' = placeless x.
Proof.
  intros L Hx. pose proof (mv_wsis _ _ L w) as H. rewrite Hx in H.
  destruct (wsis c' !! w) as [x'|] eqn:E; [|done]. exists x'. split; [done|]. exact (inj Some _ _ H).
Qed.

Lemma moved_wsi_back c c' w x' : moved c c' -> wsis c' !! w = Some x' -> exists x, wsis c !! w = Some x /\ placeless x' = placeless x.
Proof.
  intros L Hx. pose proof (mv_wsis _ _ L w) as H. rewrite Hx in H.
  destruct (wsis c !! w) as [x|] eqn:E; [|done]. exists x. split; [done|]. exact (inj Some _ _ H).
Qed.

Lemma conns_moved c c' I I' : moved c c' -> conns_ok c I ->
  (forall i t, I' !! i = Some t -> exists x, wsis c !! i_wsi t = Some x /\ sockfd x = i_fd t /\ vhost x = i_vhost t /\
     0 <= i_fd t /\ position_in_fds_table <$> wsis c' !! i_wsi t = Some (Z.of_nat i)) ->
  (forall w x, wsis c' !! w = Some x -> position_in_fds_table x = LWS_NO_FDS_POS \/
    exists i t, position_in_fds_table x = Z.of_nat i /\ I' !! i = Some t /\ i_wsi t = w) ->
  conns_ok c' I'.
Proof.
  intros L K Hin Hpos. constructor; [|exact Hpos|..].
  - intros i t Hi. destruct (Hin i t Hi) as (x & Hx & H1 & H2 & _ & H3).
    destruct (moved_wsi _ _ _ _ L Hx) as (x' & Hx' & Hc). rewrite Hx' in H3. injection H3 as H3.
    destruct (placeless_eq _ _ Hc) as (E1 & E2 & _). exists x'. by rewrite E1, E2.
  - intros w w' x1' x2' H1' H2' Heq.
    destruct (moved_wsi_back _ _ _ _ L H1') as (x1 & H1 & Hc1), (moved_wsi_back _ _ _ _ L H2') as (x2 & H2 & Hc2).
    destruct (placeless_eq _ _ Hc1) as (E1 & _), (placeless_eq _ _ Hc2) as (E2 & _). rewrite E1.
    apply (k_own _ _ K w w' x1 x2 H1 H2). congruence.
  - intros w x' Hx'. destruct (moved_wsi_back _ _ _ _ L Hx') as (x & Hx & Hc).
    destruct (placeless_eq _ _ Hc) as (-> & _). by apply (k_fd _ _ K w).
  - intros t (i & Hi)%list_elem_of_lookup. by destruct (Hin i t Hi) as (x & _ & _ & _ & ? & _).
  - intros w. rewrite (mv_lserv _ _ L). intros (x & Hx)%(k_lserv _ _ K).
    destruct (moved_wsi _ _ _ _ L Hx) as (x' & Hx' & _). by exists x'.
  - intros n l w. rewrite (mv_vh _ _ L). intros Hl Hw. destruct (k_bound _ _ K n l w Hl Hw) as (x & Hx & Hp).
    destruct (moved_wsi _ _ _ _ L Hx) as (x' & Hx' & Hc). destruct (placeless_eq _ _ Hc) as (_ & _ & E & _).
    exists x'. by rewrite E.
Qed.

Lemma moved_position c c' w x v : wsis c !! w = Some x -> wsis c' = <[w := set_position v x]> (wsis c) ->
  forall u, placeless <$> wsis c' !! u = placeless <$> wsis c !! u.
Proof.
  intros Hx -> u. destruct (decide (u = w)) as [->|]; [by rewrite lookup_insert_eq, Hx|by rewrite lookup_insert_ne].
Qed.

Lemma conns_entered c c' I w x : conns_ok c I -> moved c c' -> wsis c !! w = Some x ->
  position_in_fds_table x = LWS_NO_FDS_POS -> 0 <= sockfd x ->
  wsis c' = <[w := set_position (Z.of_nat (length I)) x]> (wsis c) ->
  conns_ok c' (I ++ [mk_id w (sockfd x) (vhost x)]).
Proof.
  intros K L Hx Hp Hfd Hw. apply (conns_moved c c' I); [done|done|..].
  - intros i t [Hi|[Hge Hi]]%lookup_app_Some.
    + destruct (k_in _ _ K i t Hi) as (y & Hy & Hpy & Hf & Hv). exists y. split_and!; try done.
      * apply (k_valid _ _ K), list_elem_of_lookup. by exists i.
      * rewrite Hw, lookup_insert_ne, Hy; [by cbn; rewrite Hpy|]. intros E. rewrite <- E, Hx in Hy. injection Hy as <-.
        unfold LWS_NO_FDS_POS in Hp. lia.
    + apply list_lookup_singleton_Some in Hi as [Hi <-]. exists x. split_and!; try done.
      rewrite Hw, lookup_insert_eq. cbn. do 2 f_equal. lia.
  - intros v y Hy. rewrite Hw in Hy. destruct (decide (v = w)) as [->|Hne].
    + rewrite lookup_insert_eq in Hy. injection Hy as <-. right. exists (length I), (mk_id w (sockfd x) (vhost x)).
      split_and!; try done. by rewrite lookup_app_r, Nat.sub_diag by done.
    + rewrite lookup_insert_ne in Hy by done. destruct (k_pos _ _ K v y Hy) as [?|(i & t & H1 & H2 & H3)]; [by left|].
      right. exists i, t. split_and!; try done. by apply lookup_app_l_Some.
Qed.

Lemma slots_entered c T i r : slots_ok c T -> Z.of_nat (length T) < fd_limit_per_thread c ->
  slots_ok (set_fds_count (fds_count c + 1) (set_fds (<[length T := mk_pollfd (i_fd i) LWS_POLLIN r]> (fds c)) c))
    (T ++ [(i, LWS_POLLIN)]).
Proof.
  intros S Hlt. constructor; cbn; rewrite ?length_app; cbn [length].
  - rewrite (s_count _ _ S). lia.
  - rewrite length_insert. apply (s_len _ _ S).
  - lia.
  - apply (s_limit _ _ S).
  - intros j t [Hj|[Hge Hj]]%lookup_app_Some.
    + rewrite list_lookup_insert_ne by (apply lookup_lt_Some in Hj; lia). by apply (s_slots _ _ S).
    + apply list_lookup_singleton_Some in Hj as [Hj <-]. exists r. replace j with (length T) by lia.
      rewrite list_lookup_insert_eq by (rewrite (s_len _ _ S); lia). done.
Qed.

Lemma view_app T T' : view (T ++ T') = view T ++ view T'.
Proof. unfold view. by rewrite filter_app, fmap_app. Qed.

Lemma plat_insert_ok c n d e r : fds_count c = Z.of_nat n -> (n < length (fds c))%nat ->
  lws_plat_insert_socket_into_fds (set_fds (<[n := mk_pollfd d e r]> (fds c)) c) =
  Ok (set_fds_count (fds_count c + 1) (set_fds (<[n := mk_pollfd d e 0]> (fds c)) c)).
Proof.
  intros Hc Hn. unfold lws_plat_insert_socket_into_fds. cbn [fds fds_count set_fds]. rewrite Hc.
  rewrite (arr_get_ok _ n (mk_pollfd d e r)) by (by rewrite list_lookup_insert_eq). cbn [mbind res_bind fd events].
  rewrite arr_set_ok by (by rewrite length_insert). cbn [mbind res_bind]. by rewrite list_insert_insert_eq.
Qed.

(** The table after [w] entered it. *)
Definition entered (c : context) (w : Z) (x : wsi) (T : table) : table :=
  let T1 := T ++ [(mk_id w (sockfd x) (vhost x), LWS_POLLIN)] in
  if Z.of_nat (length T1) =? fd_limit_per_thread c - 1 then modulated (lserv_wsis c) false T1 else T1.

Definition room (c : context) (x : wsi) (T : table) : bool :=
  (Z.of_nat (length T) <? fd_limit_per_thread c) && (max_fds_unrelated_to_ulimit c || (sockfd x <? max_fds c)).

(** Protocol 0 does not give the lock. *)
Definition locked_out (b : bool) (w : Z) (c : context) : bool := b && nz (answer (calls c ++ [(w, LOCK_POLL)])).

Lemma limit_less_one c T : slots_ok c T -> u32 (fd_limit_per_thread c - 1) = fd_limit_per_thread c - 1.
Proof. intros S. pose proof (s_limit _ _ S). apply u32_small. lia. Qed.

Lemma call_if_fst b w r c : (call_if answer b w r c).1 = if b then answer (calls c ++ [(w, r)]) else 0.
Proof. by destruct b. Qed.

Lemma entering_ok c T w x : rep c T -> wsis c !! w = Some x -> position_in_fds_table x = LWS_NO_FDS_POS ->
  event_pipe x || vhost x = true -> 0 <= sockfd x ->
  exists n c', __insert_wsi_socket_into_fds answer w c = Ok (n, c') /\
    if negb (room c x T) then n = 1 /\ c' = c
    else if locked_out (vhost x) w c then n = -1 /\ rep c' T /\ alike c c'
    else rep c' (entered c w x T).
Proof.
  intros R Hx Hp Hv Hfd. pose proof R as [B _]. pose proof B as (S & _ & _). unfold __insert_wsi_socket_into_fds, room.
  rewrite (s_count _ _ S).
  destruct (Z.ltb_spec (Z.of_nat (length T)) (fd_limit_per_thread c)) as [Hlt|Hge]; cbn [andb].
  2: { rewrite (proj2 (Z.leb_le _ _)) by lia. by eexists _, _. }
  rewrite (proj2 (Z.leb_gt _ _)) by lia. unfold wsi_at. rewrite Hx. cbn [mbind res_bind].
  assert (negb (max_fds_unrelated_to_ulimit c || (sockfd x <? max_fds c)) =
          negb (max_fds_unrelated_to_ulimit c) && (max_fds c <=? sockfd x)) as ->.
  { rewrite Z.leb_antisym. by destruct (max_fds_unrelated_to_ulimit c), (sockfd x <? max_fds c). }
  destruct (negb (max_fds_unrelated_to_ulimit c) && (max_fds c <=? sockfd x)) eqn:Hmax; [by eexists _, _|].
  rewrite Hv. cbn [negb]. unfold LWS_SOCK_INVALID. rewrite (proj2 (Z.eqb_neq _ _)) by lia.
  pose proof (call_quiet (vhost x) w LOCK_POLL c _ ltac:(by left) R) as R1.
  pose proof (call_alike (vhost x) w LOCK_POLL c) as L1.
  pose proof (call_if_fst (vhost x) w LOCK_POLL c) as Hn.
  destruct (call_if answer (vhost x) w LOCK_POLL c) as [n c1]. cbn [fst snd] in *.
  assert (nz n = locked_out (vhost x) w c) as -> by (rewrite Hn; by destruct (vhost x)).
  destruct (locked_out (vhost x) w c); [by eexists _, _|].
  destruct (alike_wsi _ _ _ _ L1 Hx) as (x1 & Hx1 & Hc1). destruct (core_eq _ _ Hc1) as (Ef & Ep & Ev & _ & _ & _).
  pose proof R1 as ((S1 & K1 & N1) & Sy1).
  destruct (insert_wsi_ok c1 T.*1 w x1 K1 N1 Hx1) as (lk & -> & N2); [congruence|congruence|..].
  { rewrite length_fmap, (al_limit _ _ L1). done. }
  { rewrite (al_unrelated _ _ L1), (al_max _ _ L1), Ef. intros Hu. rewrite Hu in Hmax. cbn in Hmax. lia. }
  cbn [mbind res_bind]. change (nz 0) with false. cbv iota.
  unfold upd_wsi, wsi_at. cbn [wsis set_lws_lookup set_count_conns]. rewrite Hx1. cbn [mbind res_bind].
  assert (fds_count c1 = Z.of_nat (length T)) as Hcnt by apply (s_count _ _ S1).
  assert (length T < length (fds c1))%nat as Hlen.
  { rewrite (s_len _ _ S1), (al_limit _ _ L1). lia. }
  change (fds_count (set_lws_lookup lk c1)) with (fds_count c1). rewrite Hcnt.
  match goal with |- context [set_wsis ?a ?b] => set (c1' := set_wsis a b) end.
  change (fds c1') with (fds c1). change (fds_count c1') with (fds_count c1).
  rewrite Hcnt.
  destruct (lookup_lt_is_Some_2 _ _ Hlen) as [p Hpl]. rewrite (arr_get_ok _ _ _ Hpl). cbn [mbind res_bind].
  rewrite arr_set_ok by done. cbn [mbind res_bind].
  pose proof (plat_insert_ok c1' (length T) (sockfd x) LWS_POLLIN (revents p) Hcnt Hlen) as Hpi.
  change (fds c1') with (fds c1) in Hpi. rewrite Hpi. cbn [mbind res_bind]. clear Hpi.
  match goal with |- context [call_if answer (vhost x) w (ADD_POLL_FD _ _) ?c] => set (c2 := c) end.
  assert (base c2 (T ++ [(mk_id w (sockfd x) (vhost x), LWS_POLLIN)])) as B2.
  { rewrite <- Ef, <- Ev. split; [|rewrite fmap_app; split].
    - pose proof (slots_entered c1 T (mk_id w (sockfd x1) (vhost x1)) 0 S1) as S2. rewrite (al_limit _ _ L1) in S2.
      specialize (S2 Hlt). subst c2. rewrite <- Ef. destruct S2 as [a1 a2 a3 a4 a5]. cbn in a1, a2, a3, a4, a5. constructor; cbn; try done. 
    - apply (conns_entered c1); [done| |done|congruence|congruence|subst c2; cbn; by rewrite length_fmap].
      constructor; try done. exact (moved_position c1 c2 w x1 _ Hx1 eq_refl).
    - exact N2. }
  assert (rep (call_if answer (vhost x) w (ADD_POLL_FD (sockfd x) LWS_POLLIN) c2).2
              (T ++ [(mk_id w (sockfd x) (vhost x), LWS_POLLIN)])) as R3.
  { split; [by apply call_base|]. apply (call_synced _ _ _ _ T); [|intros E..|exact Sy1];
      [intros d [= <-]; rewrite <- Ef; by apply (k_fd _ _ K1 w)|..]; rewrite view_app, E; cbn; [done|].
    by rewrite app_nil_r. }
  pose proof (call_alike (vhost x) w (ADD_POLL_FD (sockfd x) LWS_POLLIN) c2) as L3.
  assert (lserv_wsis c2 = lserv_wsis c /\ fd_limit_per_thread c2 = fd_limit_per_thread c) as [Hls Hlim].
  { split; [apply (al_lserv _ _ L1)|apply (al_limit _ _ L1)]. }
  clearbody c2. destruct (call_if answer (vhost x) w (ADD_POLL_FD (sockfd x) LWS_POLLIN) c2) as [n3 c3]. cbn [snd] in *.
  rewrite (s_count _ _ (proj1 (proj1 R3))), (limit_less_one _ _ (proj1 (proj1 R3))), (al_limit _ _ L3), Hlim.
  unfold entered. rewrite <- Hls, <- (al_lserv _ _ L3).
  assert (exists c4, (if Z.of_nat (length (T ++ [(mk_id w (sockfd x) (vhost x), LWS_POLLIN)])) =? fd_limit_per_thread c - 1
                      then lws_accept_modulation answer false c3 else Ok c3) = Ok c4 /\
            rep c4 (if Z.of_nat (length (T ++ [(mk_id w (sockfd x) (vhost x), LWS_POLLIN)])) =? fd_limit_per_thread c - 1
                    then modulated (lserv_wsis c3) false (T ++ [(mk_id w (sockfd x) (vhost x), LWS_POLLIN)])
                    else T ++ [(mk_id w (sockfd x) (vhost x), LWS_POLLIN)])) as (c4 & -> & R4).
  { destruct (_ =? _); [|by exists c3]. destruct (modulation_ok false c3 _ R3) as (c4 & -> & _ & R4). by exists c4. }
  cbn [mbind res_bind]. pose proof (call_quiet (vhost x) w UNLOCK_POLL c4 _ ltac:(by right; left) R4) as R5.
  destruct (call_if answer (vhost x) w UNLOCK_POLL c4) as [n5 c5]. cbn [snd] in R5. by eexists _, _.
Qed.

(** ** Leaving *)

(** The last entry takes the place of the entry [i]. *)
Definition without {A} (i : nat) (T : list A) : list A :=
  match last T with Some l => take (pred (length T)) (<[i := l]> T) | None => [] end.

Lemma without_last {A} (T : list A) l : without (length T) (T ++ [l]) = T.
Proof.
  unfold without. rewrite last_snoc, length_app. cbn. rewrite Nat.add_1_r. cbn.
  rewrite insert_app_r_alt, Nat.sub_diag by done. cbn. by rewrite take_app_length.
Qed.

Lemma without_mid {A} (T : list A) i l : (i < length T)%nat -> without i (T ++ [l]) = <[i := l]> T.
Proof.
  intros Hi. unfold without. rewrite last_snoc, length_app. cbn. rewrite Nat.add_1_r. cbn.
  rewrite insert_app_l by done. apply take_app_length'. by rewrite length_insert.
Qed.

Lemma without_cases {A} (T : list A) i t : T !! i = Some t ->
  exists T0 l, T = T0 ++ [l] /\
    ((i = length T0 /\ l = t /\ without i T = T0) \/
     ((i < length T0)%nat /\ T0 !! i = Some t /\ without i T = <[i := l]> T0)).
Proof.
  intros Hi. pose proof (lookup_lt_Some _ _ _ Hi) as Hlt.
  induction T as [|l T0 _] using rev_ind; [cbn in Hlt; lia|]. exists T0, l. split; [done|].
  rewrite length_app in Hlt. cbn in Hlt. destruct (decide (i = length T0)) as [->|Hne].
  - left. rewrite lookup_app_r, Nat.sub_diag in Hi by done. injection Hi as ->. split_and!; [done..|apply without_last].
  - right. rewrite lookup_app_l in Hi by lia. split_and!; [lia|done|]. apply without_mid. lia.
Qed.

Lemma without_perm {A} (T : list A) i t : T !! i = Some t -> T ≡ₚ t :: without i T.
Proof.
  intros Hi. destruct (without_cases T i t Hi) as (T0 & l & -> & [(-> & -> & ->)|(Hlt & H0 & ->)]).
  - by rewrite <- Permutation_cons_append.
  - rewrite insert_take_drop by done. rewrite <- (take_drop_middle T0 i t H0) at 1.
    rewrite <- Permutation_cons_append, <- !Permutation_middle. apply Permutation_swap.
Qed.

Lemma without_fmap {A B} (f : A -> B) (T : list A) i : f <$> without i T = without i (f <$> T).
Proof.
  unfold without. rewrite fmap_last. destruct (last T); [|done]. cbn.
  by rewrite fmap_take, list_fmap_insert, length_fmap.
Qed.

Lemma without_length {A} (T : list A) i t : T !! i = Some t -> S (length (without i T)) = length T.
Proof. intros Hi. by rewrite (Permutation_length (without_perm T i t Hi)). Qed.

Lemma wsi_index c I j k a b : conns_ok c I -> I !! j = Some a -> I !! k = Some b -> i_wsi a = i_wsi b -> j = k.
Proof.
  intros K Ha Hb E. apply (NoDup_lookup (i_wsi <$> I) j k (i_wsi a) (ids_nodup c I K)); rewrite list_lookup_fmap.
  - by rewrite Ha.
  - by rewrite Hb, E.
Qed.

Lemma conns_left c c' I0 l i t w : conns_ok c (I0 ++ [l]) -> moved c c' -> (I0 ++ [l]) !! i = Some t -> i_wsi t = w ->
  position_in_fds_table <$> wsis c' !! w = Some LWS_NO_FDS_POS ->
  (forall v, v <> w -> position_in_fds_table <$> wsis c' !! v =
     if decide (v = i_wsi l) then Some (Z.of_nat i) else position_in_fds_table <$> wsis c !! v) ->
  conns_ok c' (without i (I0 ++ [l])).
Proof.
  intros K L Hi Hw Hpw Hpos.
  assert (forall j u, without i (I0 ++ [l]) !! j = Some u ->
    exists k, (I0 ++ [l]) !! k = Some u /\ k <> i /\ ((j = i /\ u = l) \/ (j = k /\ k <> length I0))) as Hwo.
  { intros j u Hj. destruct (without_cases _ i t Hi) as (I1 & l1 & E & H1).
    apply app_inj_tail in E as [<- <-]. destruct H1 as [(-> & _ & E)|(Hlt & H0 & E)]; rewrite E in Hj.
    - exists j. pose proof (lookup_lt_Some _ _ _ Hj). split; [by rewrite lookup_app_l|]. split; [lia|right; lia].
    - destruct (decide (j = i)) as [->|Hne].
      + rewrite list_lookup_insert_eq in Hj by done. injection Hj as <-. exists (length I0).
        rewrite lookup_app_r, Nat.sub_diag by done. split; [done|]. split; [lia|by left].
      + rewrite list_lookup_insert_ne in Hj by done. pose proof (lookup_lt_Some _ _ _ Hj). exists j.
        rewrite lookup_app_l by done. split; [done|]. split; [lia|right; lia]. }
  assert ((I0 ++ [l]) !! length I0 = Some l) as Hl by (by rewrite lookup_app_r, Nat.sub_diag by done).
  apply (conns_moved c c' (I0 ++ [l])); [done|done|..].
  - intros j u Hj. destruct (Hwo j u Hj) as (k & Hk & Hki & Hjk). destruct (k_in _ _ K k u Hk) as (y & Hy & Hpy & Hf & Hv).
    exists y. split_and!; try done; [apply (k_valid _ _ K), list_elem_of_lookup; by exists k|].
    rewrite Hpos by (rewrite <- Hw; intros E; exact (Hki (wsi_index _ _ _ _ _ _ K Hk Hi E))).
    destruct Hjk as [[-> ->]|[-> Hkl]]; [by rewrite decide_True|].
    rewrite decide_False by (intros E; exact (Hkl (wsi_index _ _ _ _ _ _ K Hk Hl E))). by rewrite Hy, <- Hpy.
  - intros v y Hy. destruct (decide (v = w)) as [->|Hvw]; [left; rewrite Hy in Hpw; by injection Hpw|].
    specialize (Hpos v Hvw). rewrite Hy in Hpos. destruct (without_cases _ i t Hi) as (I1 & l1 & E & H1).
    apply app_inj_tail in E as [<- <-]. destruct (decide (v = i_wsi l)) as [->|Hvl].
    + injection Hpos as Hpos. right. exists i, l. destruct H1 as [(_ & -> & _)|(Hlt & _ & ->)]; [done|].
      by rewrite list_lookup_insert_eq.
    + destruct (wsis c !! v) as [z|] eqn:Hz; [|done]. injection Hpos as Hpos. rewrite Hpos.
      destruct (k_pos _ _ K v z Hz) as [?|(j & u & Hpj & Hj & Hu)]; [by left|]. right. exists j, u.
      split; [done|]. split; [|done]. assert (j <> i) by (intros ->; congruence).
      apply lookup_app_Some in Hj as [Hj|[Hge Hj]].
      * destruct H1 as [(_ & _ & ->)|(Hlt & _ & ->)]; [done|]. by rewrite list_lookup_insert_ne.
      * apply list_lookup_singleton_Some in Hj as [_ <-]. congruence.
Qed.

Lemma slots_left c T0 l i r1 r2 : slots_ok c (T0 ++ [l]) -> (i <= length T0)%nat ->
  slots_ok (set_fds_count (fds_count c - 1) (set_fds
     (<[length T0 := mk_pollfd (-1) l.2 r2]> (<[i := mk_pollfd (i_fd l.1) l.2 r1]> (fds c))) c)) (without i (T0 ++ [l])).
Proof.
  intros S Hi. pose proof (s_count _ _ S) as Hc. pose proof (s_max _ _ S) as Hm. pose proof (s_len _ _ S) as Hl.
  rewrite length_app in Hc, Hm. cbn in Hc, Hm.
  assert (length (without i (T0 ++ [l])) = length T0) as Hlen.
  { destruct (lookup_lt_is_Some_2 (T0 ++ [l]) i) as [t Ht]; [rewrite length_app; cbn; lia|].
    pose proof (without_length _ i t Ht) as H. rewrite length_app in H. cbn in H. lia. }
  constructor; cbn; rewrite ?Hlen.
  - lia.
  - by rewrite !length_insert.
  - lia.
  - apply (s_limit _ _ S).
  - intros j u Hj. pose proof (lookup_lt_Some _ _ _ Hj) as Hlt. rewrite Hlen in Hlt.
    rewrite list_lookup_insert_ne by lia. destruct (decide (i = length T0)) as [->|Hne].
    + rewrite without_last in Hj. rewrite list_lookup_insert_ne by lia. apply (s_slots _ _ S). by rewrite lookup_app_l.
    + rewrite without_mid in Hj by lia. destruct (decide (i = j)) as [<-|Hij].
      * rewrite list_lookup_insert_eq in Hj by lia. injection Hj as <-. exists r1. rewrite list_lookup_insert_eq by lia. done.
      * rewrite list_lookup_insert_ne in Hj by done. rewrite list_lookup_insert_ne by done. apply (s_slots _ _ S). by rewrite lookup_app_l.
Qed.

Lemma vacate_ok c T w x i t : base c T -> wsis c !! w = Some x -> T !! i = Some t -> i_wsi t.1 = w -> i_fd t.1 = sockfd x ->
  exists c', vacate w x (Z.of_nat i) c = Ok c' /\ base c' (without i T) /\ moved c c'.
Proof.
  intros (S & K & N) Hx Ht Hw Hf. destruct (without_cases T i t Ht) as (T0 & l & -> & Hcase).
  assert (i <= length T0)%nat as Hi by lia. pose proof (s_count _ _ S) as Hc. rewrite length_app in Hc. cbn in Hc.
  pose proof (s_max _ _ S) as Hm. rewrite length_app in Hm. cbn in Hm. pose proof (s_limit _ _ S) as Hlim.
  unfold vacate. rewrite (proj2 (nz_true _)) by lia. rewrite (proj2 (Z.eqb_neq _ _)) by lia. cbn [andb negb].
  assert ((T0 ++ [l]).*1 ≡ₚ t.1 :: (without i (T0 ++ [l])).*1) as HP by (rewrite (without_perm _ _ _ Ht) at 1; done).
  destruct (delete_from_fd_ok c _ t.1 _ N (conns_named _ _ K) (ids_nodup _ _ K) HP) as (lk & Hdel & N1).
  rewrite <- Hf, Hdel. cbn [mbind res_bind]. cbn [fds fds_count set_lws_lookup].
  destruct (s_slots _ _ S (length T0) l) as (r & Hr); [by rewrite lookup_app_r, Nat.sub_diag by done|].
  assert (fds_count c - 1 = Z.of_nat (length T0)) as Hcnt by lia. rewrite Hcnt.
  rewrite u32_small by lia. rewrite (arr_get_ok _ _ _ Hr). cbn [mbind res_bind].
  pose proof (lookup_lt_Some _ _ _ Hr) as Hlt.
  set (c2 := set_count_conns (count_conns c - 1) (set_fds_count (fds_count c - 1) (set_fds
     (<[length T0 := mk_pollfd (-1) l.2 r]> (<[i := mk_pollfd (i_fd l.1) l.2 r]> (fds c))) (set_lws_lookup lk c)))).
  assert (slots_ok c2 (without i (T0 ++ [l]))) as S2.
  { pose proof (slots_left c T0 l i r r S Hi) as [a1 a2 a3 a4 a5]. cbn in a1, a2. by constructor. }
  assert (forall m, (forall v, placeless <$> m !! v = placeless <$> wsis c !! v) ->
    position_in_fds_table <$> m !! w = Some LWS_NO_FDS_POS ->
    (forall v, v <> w -> position_in_fds_table <$> m !! v =
       if decide (v = i_wsi l.1) then Some (Z.of_nat i) else position_in_fds_table <$> wsis c !! v) ->
    base (set_wsis m c2) (without i (T0 ++ [l])) /\ moved c (set_wsis m c2)) as Hend.
  { intros m Hm1 Hm2 Hm3. assert (moved c (set_wsis m c2)) as L by (by constructor). split; [|done].
    split; [destruct S2; by constructor|]. split; [|exact N1]. rewrite without_fmap, fmap_app. cbn [fmap list_fmap].
    apply (conns_left c _ T0.*1 l.1 i t.1 w); try done; [by rewrite fmap_app in K|].
    change (T0.*1 ++ [l.1]) with (T0.*1 ++ [l].*1). by rewrite <- fmap_app, list_lookup_fmap, Ht. }
  destruct Hcase as [(-> & -> & _)|(Hlt0 & H0 & Hwo)].
  - rewrite Z.eqb_refl. cbn [negb mbind res_bind]. rewrite (arr_get_ok _ _ _ Hr). cbn [mbind res_bind].
    rewrite arr_set_ok by done. cbn [mbind res_bind events revents]. unfold upd_wsi, wsi_at. cbn. rewrite Hx. cbn.
    eexists. split; [reflexivity|]. subst c2. rewrite list_insert_insert_eq in Hend.
    apply (Hend (<[w:=set_position LWS_NO_FDS_POS x]> (wsis c))).
    + exact (moved_position c (set_wsis (<[w:=set_position LWS_NO_FDS_POS x]> (wsis c)) c) w x LWS_NO_FDS_POS Hx eq_refl).
    + by rewrite lookup_insert_eq.
    + intros v Hv. rewrite lookup_insert_ne by done. by rewrite decide_False by congruence.
  - rewrite (proj2 (Z.eqb_neq _ _)) by lia. cbn [negb]. rewrite arr_set_ok by lia. cbn [mbind res_bind].
    rewrite (arr_get_ok _ (length T0) (mk_pollfd (i_fd l.1) l.2 r)) by (by rewrite list_lookup_insert_ne by lia).
    cbn [mbind res_bind]. rewrite arr_set_ok by (by rewrite length_insert). cbn [mbind res_bind events revents].
    change (set_count_conns _ (lws_plat_delete_socket_from_fds _)) with c2. cbn [fds set_fds].
    change (fds c2) with (<[length T0 := mk_pollfd (-1) l.2 r]> (<[i := mk_pollfd (i_fd l.1) l.2 r]> (fds c))).
    rewrite (arr_get_ok _ i (mk_pollfd (i_fd l.1) l.2 r)) by (rewrite list_lookup_insert_ne, list_lookup_insert_eq by lia; done).
    cbn [mbind res_bind fd].
    assert ((T0 ++ [l]) !! length T0 = Some l) as Hl by (by rewrite lookup_app_r, Nat.sub_diag by done).
    destruct (k_in _ _ K (length T0) l.1) as (y & Hy & Hpy & _); [by rewrite list_lookup_fmap, Hl|].
    assert (i_wsi l.1 <> w) as Hlw.
    { intros E. assert (i = length T0); [|lia]. rewrite <- E in Hw.
      apply (wsi_index c (T0 ++ [l]).*1 i (length T0) t.1 l.1 K); [by rewrite list_lookup_fmap, Ht|by rewrite list_lookup_fmap, Hl|done]. }
    rewrite (wsi_from_fd_ok c2 (without i (T0 ++ [l])).*1 l.1 N1).
    2: { split; [intros u Hu; apply (conns_named _ _ K); rewrite HP; by right|].
         intros u u' Hu Hu'. apply (conns_named _ _ K); rewrite HP; by right. }
    2: { rewrite Hwo. apply list_elem_of_fmap_2, list_elem_of_lookup. exists i. by rewrite list_lookup_insert_eq. }
    cbn [mbind res_bind]. unfold upd_wsi, wsi_at. cbn [wsis c2 set_count_conns set_fds_count set_fds set_lws_lookup].
    change (wsis c2) with (wsis c). rewrite Hy. cbn [mbind res_bind wsis set_wsis]. rewrite lookup_insert_ne, Hx by done.
    cbn [mbind res_bind]. eexists. split; [reflexivity|].
    apply (Hend (<[w:=set_position LWS_NO_FDS_POS x]> (<[i_wsi l.1:=set_position (Z.of_nat i) y]> (wsis c)))).
    + intros v. destruct (decide (v = w)) as [->|]; [by rewrite lookup_insert_eq, Hx|rewrite lookup_insert_ne by done].
      destruct (decide (v = i_wsi l.1)) as [->|]; [by rewrite lookup_insert_eq, Hy|by rewrite lookup_insert_ne].
    + by rewrite lookup_insert_eq.
    + intros v Hv. rewrite lookup_insert_ne by done. destruct (decide (v = i_wsi l.1)) as [->|];
        [by rewrite lookup_insert_eq|by rewrite lookup_insert_ne].
Qed.

(** The same table, members of a protocol's list leaving it. *)
Lemma base_fewer c T m : base c T ->
  (forall n l w, m !! n = Some l -> w ∈ l -> exists l', same_vh_protocol c !! n = Some l' /\ w ∈ l') ->
  base (set_same_vh_protocol m c) T.
Proof.
  intros (S & K & N) Hm. split; [destruct S; by constructor|]. split; [|done]. destruct K. constructor; try done.
  intros n l w Hl Hw. destruct (Hm n l w Hl Hw) as (l' & Hl' & Hw'). eauto.
Qed.

Lemma fewer_lists (owners : gmap Z (list Z)) (w n : Z) l v :
  ((filter (fun v => v <> w)) <$> owners : gmap Z (list Z)) !! n = Some l -> v ∈ l ->
  v <> w /\ exists l', owners !! n = Some l' /\ v ∈ l'.
Proof.
  rewrite lookup_fmap, fmap_Some. intros (l' & Hl' & ->) Hv. apply list_elem_of_filter in Hv as [? Hv]. eauto.
Qed.

Lemma unbound_base w x c T : base c T -> base (__lws_same_vh_protocol_remove w x c) T.
Proof.
  intros B. unfold __lws_same_vh_protocol_remove. destruct (vhost x); [|done]. apply base_fewer; [done|].
  intros n l v Hl Hv. by destruct (fewer_lists _ _ _ _ _ Hl Hv).
Qed.

(** The table after [w] left it. *)
Definition departed (x : wsi) (T : table) : table :=
  if position_in_fds_table x =? LWS_NO_FDS_POS then T else without (Z.to_nat (position_in_fds_table x)) T.

Definition left_table (c : context) (x : wsi) (T : table) : table :=
  if negb (being_destroyed c) && (Z.of_nat (length (departed x T)) <? fd_limit_per_thread c - 1)
  then modulated (lserv_wsis c) true (departed x T) else departed x T.

Lemma view_perm T T' : T ≡ₚ T' -> view T ≡ₚ view T'.
Proof. intros H. unfold view. by rewrite H. Qed.

Lemma view_other T d : (forall t, t ∈ T -> i_fd t.1 <> d) -> filter (fun q => q.1 <> d) (view T) = view T.
Proof.
  intros H. apply filter_all, Forall_forall. intros q Hq. unfold view in Hq. apply list_elem_of_fmap in Hq as (t & -> & Ht).
  apply list_elem_of_filter in Ht as [_ Ht]. by apply H.
Qed.

Lemma view_cons t T : view (t :: T) = (if i_vhost t.1 then [(i_fd t.1, t.2)] else []) ++ view T.
Proof. unfold view. rewrite filter_cons. by destruct (i_vhost t.1). Qed.

(** What protocol 0 is told of the departure. *)
Lemma departed_view c T w x : base c T -> wsis c !! w = Some x ->
  let b := negb (sockfd x =? LWS_SOCK_INVALID) && vhost x in
  (b = true -> tell (view T) (DEL_POLL_FD (sockfd x)) ≡ₚ view (departed x T)) /\
  (b = false -> view T ≡ₚ view (departed x T)).
Proof.
  intros B Hx b. unfold departed. destruct (Z.eqb_spec (position_in_fds_table x) LWS_NO_FDS_POS) as [Hp|Hp].
  - split; [|done]. intros [Hs _]%andb_true_iff. cbn. rewrite view_other; [done|]. intros t Ht Hf.
    pose proof (not_in_table c T w x B Hx Hp t Ht) as Hne. destruct B as (_ & K & _).
    apply list_elem_of_lookup in Ht as (i & Hi). destruct (k_in _ _ K i t.1) as (y & Hy & _ & Hfy & _);
      [by rewrite list_lookup_fmap, Hi|].
    destruct (k_own _ _ K _ _ x y Hx Hy) as [E|E]; [congruence|by rewrite E in Hs|congruence].
  - destruct (in_table c T w x B Hx Hp) as (i & t & r & -> & Ht & Hw & Hf & Hv & _ & _ & Hu).
    rewrite Nat2Z.id. pose proof (without_perm T i t Ht) as HP. rewrite (view_perm _ _ HP), view_cons, Hv, Hf.
    destruct B as (_ & K & _).
    assert (0 <= sockfd x) as Hs.
    { rewrite <- Hf. apply (k_valid _ _ K), list_elem_of_lookup. exists i. by rewrite list_lookup_fmap, Ht. }
    subst b. unfold LWS_SOCK_INVALID. rewrite (proj2 (Z.eqb_neq _ _)) by lia. cbn [negb andb].
    split; intros ->; cbn [app tell]; [|done]. rewrite filter_cons_False by (cbn; auto). rewrite view_other; [done|].
    intros u Hin Hfu.
    assert (i_wsi u.1 = w) as Huw.
    { assert (u ∈ T) as (j & Hj)%list_elem_of_lookup by (rewrite HP; by right). by apply (Hu j u Hj). }
    pose proof (ids_nodup _ _ K) as Hnd. rewrite HP in Hnd. cbn in Hnd. apply NoDup_cons in Hnd as [Hnot _].
    apply Hnot. rewrite Hw, <- Huw. by apply list_elem_of_fmap_2, list_elem_of_fmap_2.
Qed.

Lemma departed_ok c T w x : base c T -> wsis c !! w = Some x ->
  exists c', (if negb (position_in_fds_table x =? LWS_NO_FDS_POS) then vacate w x (position_in_fds_table x) c else Ok c) = Ok c' /\
    base c' (departed x T) /\ moved c c'.
Proof.
  intros B Hx. unfold departed. destruct (Z.eqb_spec (position_in_fds_table x) LWS_NO_FDS_POS) as [Hp|Hp].
  - exists c. split; [done|]. split; [done|]. by constructor.
  - destruct (in_table c T w x B Hx Hp) as (i & t & r & -> & Ht & Hw & Hf & Hv & _ & _ & Hu). rewrite Nat2Z.id.
    by apply (vacate_ok c T w x i t).
Qed.

Lemma place_valid c T w x : base c T -> wsis c !! w = Some x ->
  (position_in_fds_table x =? LWS_NO_FDS_POS) ||
  ((0 <=? position_in_fds_table x) && (position_in_fds_table x <? fds_count c)) = true.
Proof.
  intros B Hx. destruct (Z.eqb_spec (position_in_fds_table x) LWS_NO_FDS_POS) as [Hp|Hp]; [done|].
  destruct (in_table c T w x B Hx Hp) as (i & t & r & -> & _ & _ & _ & _ & Hlt & _). destruct B as (S & _).
  rewrite (s_count _ _ S), (proj2 (Z.leb_le _ _)), (proj2 (Z.ltb_lt _ _)) by lia. done.
Qed.

Lemma leaving_ok c T w x : rep c T -> wsis c !! w = Some x ->
  exists n c', __remove_wsi_socket_from_fds answer w c = Ok (n, c') /\
    if negb (max_fds_unrelated_to_ulimit c) && (max_fds c <? sockfd x) then n = 1 /\ c' = c
    else if locked_out (vhost x) w c then n = -1 /\ rep c' T /\ alike c c'
    else rep c' (left_table c x T).
Proof.
  intros R Hx. unfold __remove_wsi_socket_from_fds, wsi_at. rewrite Hx. cbn [mbind res_bind].
  destruct (negb (max_fds_unrelated_to_ulimit c) && (max_fds c <? sockfd x)); [by eexists _, _|].
  pose proof (call_quiet (vhost x) w LOCK_POLL c _ ltac:(by left) R) as R1.
  pose proof (call_alike (vhost x) w LOCK_POLL c) as L1.
  pose proof (call_if_fst (vhost x) w LOCK_POLL c) as Hn.
  assert (wsis (call_if answer (vhost x) w LOCK_POLL c).2 = wsis c) as Hws by (by destruct (vhost x)).
  destruct (call_if answer (vhost x) w LOCK_POLL c) as [n c1]. cbn [fst snd] in *.
  assert (nz n = locked_out (vhost x) w c) as -> by (rewrite Hn; by destruct (vhost x)).
  destruct (locked_out (vhost x) w c); [by eexists _, _|]. rewrite <- Hws in Hx.
  set (c2 := __lws_same_vh_protocol_remove w x c1).
  assert (wsis c2 = wsis c1 /\ calls c2 = calls c1 /\ fds_count c2 = fds_count c1 /\ lserv_wsis c2 = lserv_wsis c1 /\
    fd_limit_per_thread c2 = fd_limit_per_thread c1 /\ being_destroyed c2 = being_destroyed c1) as (E1 & E2 & _ & E4 & E5 & E6).
  { subst c2. unfold __lws_same_vh_protocol_remove. by destruct (vhost x). }
  destruct R1 as [B1 Sy1]. assert (base c2 T) as B2 by (by apply unbound_base). rewrite <- E1 in Hx. clearbody c2.
  rewrite (place_valid c2 T w x B2 Hx). cbn [negb].
  destruct (departed_ok c2 T w x B2 Hx) as (c3 & -> & B3 & L3). cbn [mbind res_bind].
  destruct (departed_view c2 T w x B2 Hx) as [V1 V2]. cbv zeta in V1, V2.
  set (b := negb (sockfd x =? LWS_SOCK_INVALID) && vhost x) in *. clearbody b.
  assert (rep (call_if answer b w (DEL_POLL_FD (sockfd x)) c3).2 (departed x T)) as R4.
  { split; [by apply call_base|]. apply (call_synced _ _ _ _ T); [|done|done|].
    - intros d [= <-]. by apply (k_fd _ _ (proj1 (proj2 B2)) w).
    - unfold synced. by rewrite (mv_calls _ _ L3), E2. }
  pose proof (call_alike b w (DEL_POLL_FD (sockfd x)) c3) as L4.
  destruct (call_if answer b w (DEL_POLL_FD (sockfd x)) c3) as [n4 c4]. cbn [snd] in *.
  assert (being_destroyed c4 = being_destroyed c) as -> by (rewrite (al_destroyed _ _ L4), (mv_destroyed _ _ L3), E6; apply L1).
  rewrite (s_count _ _ (proj1 (proj1 R4))), (limit_less_one _ _ (proj1 (proj1 R4))).
  assert (fd_limit_per_thread c4 = fd_limit_per_thread c) as -> by (rewrite (al_limit _ _ L4), (mv_limit _ _ L3), E5; apply L1).
  assert (lserv_wsis c4 = lserv_wsis c) as El by (rewrite (al_lserv _ _ L4), (mv_lserv _ _ L3), E4; apply L1).
  unfold left_table. rewrite <- El. set (T1 := departed x T) in *.
  assert (exists c5, (if negb (being_destroyed c) && (Z.of_nat (length T1) <? fd_limit_per_thread c - 1)
                      then lws_accept_modulation answer true c4 else Ok c4) = Ok c5 /\
            rep c5 (if negb (being_destroyed c) && (Z.of_nat (length T1) <? fd_limit_per_thread c - 1)
                    then modulated (lserv_wsis c4) true T1 else T1)) as (c5 & -> & R5).
  { destruct (_ && _); [|by exists c4]. destruct (modulation_ok true c4 _ R4) as (c5 & -> & _ & R5). by exists c5. }
  cbn [mbind res_bind]. pose proof (call_quiet (vhost x) w UNLOCK_POLL c5 _ ltac:(by right; left) R5) as R6.
  destruct (call_if answer (vhost x) w UNLOCK_POLL c5) as [n6 c6]. cbn [snd] in R6. by eexists _, _.
Qed.

(** ** Any use of the table *)

Definition unbound (c : context) (w : Z) : Prop := map_Forall (fun _ l => w ∉ l) (same_vh_protocol c).

(** The connection is in the table and would stay there on closing: protocol 0
    does not give the lock. *)
Definition stuck (w : Z) (x : wsi) (c : context) : Prop :=
  position_in_fds_table x <> LWS_NO_FDS_POS /\ locked_out (vhost x) w c = true.

(** What the rest of the library keeps to: a connection enters once and with
    a valid descriptor of its own, its descriptor, its vhost and its place are
    not touched while it is in the table, and it is freed outside of it; no
    connection is closed that would stay in it. *)
Definition legal (o : op) (c : context) : Prop :=
  match o with
  | Insert w =>
    match wsis c !! w with
    | Some x => position_in_fds_table x = LWS_NO_FDS_POS /\ event_pipe x || vhost x = true /\ 0 <= sockfd x
    | None => False
    end
  | Remove w | Change w _ _ | On_writable w | Bind w _ | Listen _ w => is_Some (wsis c !! w)
  | On_writable_all _ => True
  | Become w x' =>
    match wsis c !! w with
    | Some x => position_in_fds_table x' = position_in_fds_table x /\
        (position_in_fds_table x <> LWS_NO_FDS_POS -> sockfd x' = sockfd x /\ vhost x' = vhost x) /\
        (unbound c w \/ protocol x' = protocol x)
    | None => position_in_fds_table x' = LWS_NO_FDS_POS
    end /\ -1 <= sockfd x' /\ sockfd x' ∉ V0.*1 /\
    (sockfd x' = LWS_SOCK_INVALID \/ map_Forall (fun v y => v <> w -> sockfd y <> sockfd x') (wsis c))
  | Free w => match wsis c !! w with Some x => position_in_fds_table x = LWS_NO_FDS_POS | None => True end
  | Close w => match wsis c !! w with Some x => ~ stuck w x c | None => False end
  end.

#[global] Instance legal_dec o c : Decision (legal o c).
Proof.
  destruct o as [w|w|w a b|w|n|w n|w x'|w|w|v w]; cbn; unfold unbound, stuck; try destruct (wsis c !! w); apply _.
Defined.

Fixpoint legal_run (ops : list op) (c : context) : Prop :=
  match ops with
  | [] => True
  | o :: ops => legal o c /\ match exec answer o c with Ok c => legal_run ops c | Err _ => True end
  end.

#[global] Instance legal_run_dec ops c : Decision (legal_run ops c).
Proof.
  revert c. induction ops as [|o ops IH]; intros c; cbn; [apply _|]. destruct (exec answer o c); apply _.
Defined.

Lemma entering_exec c T w : rep c T -> legal (Insert w) c -> exists c' T', exec answer (Insert w) c = Ok c' /\ rep c' T'.
Proof.
  intros R Hl. cbn in Hl. destruct (wsis c !! w) as [x|] eqn:Hx; [|done]. destruct Hl as (Hp & Hv & Hf).
  destruct (entering_ok c T w x R Hx Hp Hv Hf) as (n & c' & E & H).
  cbn [exec]. rewrite E. cbn. destruct (negb (room c x T)); [destruct H as [_ ->]; by exists c, T|].
  destruct (locked_out (vhost x) w c); eexists _, _; (split; [reflexivity|]); [exact (proj1 (proj2 H))|exact H].
Qed.

Lemma leaving_exec c T w : rep c T -> legal (Remove w) c -> exists c' T', exec answer (Remove w) c = Ok c' /\ rep c' T'.
Proof.
  intros R (x & Hx). destruct (leaving_ok c T w x R Hx) as (n & c' & E & H).
  cbn [exec]. rewrite E. cbn. destruct (negb _ && _); [destruct H as [_ ->]; by exists c, T|].
  destruct (locked_out (vhost x) w c); eexists _, _; (split; [reflexivity|]); [exact (proj1 (proj2 H))|exact H].
Qed.

(** The table when a connection is replaced by a version of itself. *)
Lemma become_base c T w x' : base c T -> legal (Become w x') c -> base (set_wsis (<[w := x']> (wsis c)) c) T.
Proof.
  intros (S & K & N) (Hw & Hfd & Hv0 & Hown). split; [destruct S; by constructor|]. split; [|done].
  assert (forall i t, T.*1 !! i = Some t -> i_wsi t = w -> exists x, wsis c !! w = Some x /\
    position_in_fds_table x' = Z.of_nat i /\ sockfd x' = i_fd t /\ vhost x' = i_vhost t) as Hin.
  { intros i t Hi E. destruct (k_in _ _ K i t Hi) as (x & Hx & H1 & H2 & H3). rewrite E in Hx. exists x. rewrite Hx in Hw.
    destruct Hw as (Ep & Es & _). destruct Es as [E1 E2]; [unfold LWS_NO_FDS_POS; lia|]. split_and!; congruence. }
  constructor; cbn.
  - intros i t Hi. destruct (decide (i_wsi t = w)) as [E|E].
    + destruct (Hin i t Hi E) as (x & _ & H). exists x'. by rewrite E, lookup_insert_eq.
    + rewrite lookup_insert_ne by done. by apply (k_in _ _ K).
  - intros v y. destruct (decide (v = w)) as [->|E].
    + rewrite lookup_insert_eq. intros [= <-]. destruct (wsis c !! w) as [x|] eqn:Hx; [|by left; apply Hw].
      destruct Hw as (-> & _). by apply (k_pos _ _ K w x).
    + rewrite lookup_insert_ne by done. apply (k_pos _ _ K).
  - intros v v' y y'. destruct (decide (v = w)) as [->|E], (decide (v' = w)) as [->|E'];
      rewrite ?lookup_insert_eq, ?lookup_insert_ne by done.
    + by right.
    + intros [= <-] Hy' Heq. destruct Hown as [|Hown]; [by left|]. by destruct (Hown v' y' Hy' E').
    + intros Hy [= <-] Heq. destruct Hown as [Hi|Hown]; [left; congruence|]. by destruct (Hown v y Hy E).
    + apply (k_own _ _ K).
  - intros v y. destruct (decide (v = w)) as [->|E]; [rewrite lookup_insert_eq; by intros [= <-]|].
    rewrite lookup_insert_ne by done. apply (k_fd _ _ K).
  - apply (k_valid _ _ K).
  - intros v Hv. rewrite lookup_insert_is_Some. destruct (decide (w = v)); [by left|right; split; [done|by apply (k_lserv _ _ K)]].
  - intros n l v Hl Hv. destruct (k_bound _ _ K n l v Hl Hv) as (x & Hx & Hp). destruct (decide (v = w)) as [->|E].
    + exists x'. rewrite lookup_insert_eq. split; [done|]. rewrite Hx in Hw. destruct Hw as (_ & _ & [Hu| ->]); [by destruct (Hu n l Hl)|done].
    + exists x. by rewrite lookup_insert_ne.
Qed.

Lemma bind_base c T w x n : base c T -> wsis c !! w = Some x ->
  base (lws_same_vh_protocol_insert w n (set_wsis (<[w := set_protocol (Some n) x]> (wsis c)) c)) T.
Proof.
  intros B Hx. unfold lws_same_vh_protocol_insert. cbn [same_vh_protocol set_wsis].
  set (owners := filter (fun v => v <> w) <$> same_vh_protocol c).
  assert (base (set_same_vh_protocol owners c) T) as B1.
  { apply base_fewer; [done|]. intros m l v Hl Hv. by destruct (fewer_lists _ _ _ _ _ Hl Hv). }
  assert (unbound (set_same_vh_protocol owners c) w) as Hnb.
  { intros m l Hl Hv. by destruct (fewer_lists _ _ _ _ _ Hl Hv). }
  assert (base (set_wsis (<[w := set_protocol (Some n) x]> (wsis c)) (set_same_vh_protocol owners c)) T) as (S & K & N).
  { apply (become_base (set_same_vh_protocol owners c) T w (set_protocol (Some n) x)); [done|]. cbn. rewrite Hx. destruct B as (_ & K & _). destruct (k_fd _ _ K w x Hx) as [H1 H2].
    split; [split_and!; [done|done|by left]|]. split_and!; [done|done|].
    destruct (decide (sockfd x = LWS_SOCK_INVALID)); [by left|right]. intros v y Hy Hv E.
    by destruct (k_own _ _ K v w y x Hy Hx E) as [?|?]; [congruence|]. }
  split; [destruct S; by constructor|]. split; [|done]. destruct K as [k1 k2 k3 k4 k5 k6 k7]. constructor; try done.
  intros m l v Hl Hv. cbn in Hl. destruct (decide (m = n)) as [->|Hne].
  - rewrite lookup_insert_eq in Hl. injection Hl as <-. cbn.
    apply elem_of_cons in Hv as [->|Hv]; [exists (set_protocol (Some n) x); by rewrite lookup_insert_eq|].
    destruct (owners !! n) as [l|] eqn:El; [|by apply elem_of_nil in Hv]. exact (k7 n l v El Hv).
  - rewrite lookup_insert_ne in Hl by done. exact (k7 m l v Hl Hv).
Qed.

Lemma free_base c T w : base c T -> legal (Free w) c -> base (freed w c) T.
Proof.
  intros B Hl.
  assert (base (set_same_vh_protocol (filter (fun v => v <> w) <$> same_vh_protocol c) c) T) as (S & K & N).
  { apply base_fewer; [done|]. intros m l v Hl' Hv. by destruct (fewer_lists _ _ _ _ _ Hl' Hv). }
  split; [destruct S; by constructor|]. split; [|done]. cbn in Hl. constructor; cbn.
  - intros i t Hi. destruct (k_in _ _ K i t Hi) as (x & Hx & H). exists x. split; [|done].
    rewrite lookup_delete_ne; [done|]. intros E. change (wsis c !! i_wsi t = Some x) in Hx. rewrite E, Hx in Hl. rewrite Hl in H. unfold LWS_NO_FDS_POS in H. lia.
  - intros v y [_ Hy]%lookup_delete_Some. by apply (k_pos _ _ K v y).
  - intros v v' y y' [_ Hy]%lookup_delete_Some [_ Hy']%lookup_delete_Some. by apply (k_own _ _ K).
  - intros v y [_ Hy]%lookup_delete_Some. by apply (k_fd _ _ K v y).
  - apply (k_valid _ _ K).
  - intros v Hv. apply list_elem_of_fmap in Hv as (o & E & Ho). destruct (decide (o = Some w)) as [->|Hne]; [done|]. subst o.
    rewrite lookup_delete_ne by congruence. by apply (k_lserv _ _ K).
  - intros n l v Hl' Hv. destruct (k_bound _ _ K n l v Hl' Hv) as (x & Hx & Hp). exists x. split; [|done].
    rewrite lookup_delete_ne; [done|]. intros <-. by destruct (fewer_lists _ _ _ _ _ Hl' Hv).
Qed.

(** A connection that left is in no slot. *)
Lemma departed_gone c T w x : base c T -> wsis c !! w = Some x -> forall t, t ∈ departed x T -> i_wsi t.1 <> w.
Proof.
  intros B Hx. unfold departed. destruct (Z.eqb_spec (position_in_fds_table x) LWS_NO_FDS_POS) as [Hp|Hp].
  - by apply (not_in_table c T w x).
  - destruct (in_table c T w x B Hx Hp) as (i & t & r & -> & Ht & Hw & _). rewrite Nat2Z.id. intros u Hu E.
    destruct B as (_ & K & _). pose proof (ids_nodup _ _ K) as Hnd. rewrite (without_perm T i t Ht) in Hnd.
    cbn in Hnd. apply NoDup_cons in Hnd as [Hnot _]. apply Hnot. rewrite Hw, <- E.
    by apply list_elem_of_fmap_2, list_elem_of_fmap_2.
Qed.

Lemma gone_place c T w : base c T -> (forall t, t ∈ T -> i_wsi t.1 <> w) -> legal (Free w) c.
Proof.
  intros (_ & K & _) Hno. cbn. destruct (wsis c !! w) as [x|] eqn:Hx; [|done].
  destruct (k_pos _ _ K w x Hx) as [|(i & t1 & _ & Ht & Hw)]; [done|]. exfalso.
  rewrite list_lookup_fmap in Ht. destruct (T !! i) as [t|] eqn:Hi; [|done]. injection Ht as <-.
  by apply (Hno t (list_elem_of_lookup_2 _ _ _ Hi)).
Qed.

Lemma left_gone c0 c T w x : base c T -> wsis c !! w = Some x -> forall t, t ∈ left_table c0 x T -> i_wsi t.1 <> w.
Proof.
  intros B Hx t Ht. assert (t.1 ∈ (departed x T).*1) as Hin.
  { apply (list_elem_of_fmap_2 fst) in Ht. unfold left_table in Ht. destruct (_ && _); [by rewrite modulated_ids in Ht|done]. }
  apply list_elem_of_fmap in Hin as (u & -> & Hu). by apply (departed_gone c T w x).
Qed.

Lemma freed_rep c T w : rep c T -> legal (Free w) c -> exists c' T', Ok (E := fault) (freed w c) = Ok c' /\ rep c' T'.
Proof. intros [B Sy] Hl. exists (freed w c), T. split; [done|]. split; [by apply free_base|exact Sy]. Qed.

Lemma alike_gone c c' w x : alike c c' -> wsis c !! w = Some x -> position_in_fds_table x = LWS_NO_FDS_POS ->
  legal (Free w) c'.
Proof.
  intros L Hx Hp. cbn. destruct (alike_wsi _ _ _ _ L Hx) as (y & -> & Hc). by destruct (core_eq _ _ Hc) as (_ & -> & _).
Qed.

(** Closing takes a connection out of the table and frees it, except where it
    is stuck. *)
Lemma closing_exec c T w x : rep c T -> wsis c !! w = Some x ->
  (exists c' T', exec answer (Close w) c = Ok c' /\ rep c' T') \/ stuck w x c.
Proof.
  intros R Hx. pose proof R as [B Sy]. cbn [exec]. unfold close. unfold wsi_at. rewrite Hx. cbn [mbind res_bind].
  destruct (negb (sockfd x =? LWS_SOCK_INVALID)) eqn:Hs; cbn [mbind res_bind].
  - destruct (leaving_ok c T w x R Hx) as (n & c' & E & H). rewrite E. cbn [mbind res_bind].
    destruct (negb _ && _) eqn:Hm; [|destruct (locked_out (vhost x) w c) eqn:Hlo].
    + left. destruct H as [_ ->]. apply (freed_rep c T w R). cbn. rewrite Hx.
      destruct (decide (position_in_fds_table x = LWS_NO_FDS_POS)) as [|Hp]; [done|exfalso].
      destruct (in_table c T w x B Hx Hp) as (i & t & r & _ & Ht & _ & Hf & _). destruct B as (_ & _ & _ & _ & N).
      apply andb_true_iff in Hm as [Hu%negb_true_iff Hlt]. rewrite Hu in N. destruct N as [N _].
      specialize (N t.1 (list_elem_of_fmap_2 fst _ _ (list_elem_of_lookup_2 _ _ _ Ht))). lia.
    + destruct (decide (position_in_fds_table x = LWS_NO_FDS_POS)) as [Hp|Hp]; [left|by right].
      destruct H as (_ & R' & L). apply (freed_rep c' T w R'). by apply (alike_gone c c' w x).
    + left. apply (freed_rep c' _ w H), (gone_place c' (left_table c x T)); [apply H|]. by apply (left_gone c c).
  - left. apply negb_false_iff, Z.eqb_eq in Hs.
    apply (freed_rep (__lws_same_vh_protocol_remove w x c) T w); [split; [by apply unbound_base|]|].
    + unfold __lws_same_vh_protocol_remove. by destruct (vhost x).
    + cbn. assert (wsis (__lws_same_vh_protocol_remove w x c) = wsis c) as ->
        by (unfold __lws_same_vh_protocol_remove; by destruct (vhost x)).
      rewrite Hx. destruct (decide (position_in_fds_table x = LWS_NO_FDS_POS)) as [|Hp]; [done|exfalso].
      destruct (in_table c T w x B Hx Hp) as (i & t & r & _ & Ht & _ & Hf & _). destruct B as (_ & K & _).
      pose proof (k_valid _ _ K t.1 (list_elem_of_fmap_2 fst _ _ (list_elem_of_lookup_2 _ _ _ Ht))) as H0.
      rewrite Hf, Hs in H0. unfold LWS_SOCK_INVALID in H0. lia.
Qed.

Lemma exec_ok o c T : rep c T -> legal o c -> exists c' T', exec answer o c = Ok c' /\ rep c' T'.
Proof.
  intros R Hl. pose proof R as [B Sy]. destruct o as [w|w|w a b|w|n|w n|w x'|w|w|v w].
  - by apply (entering_exec c T).
  - by apply (leaving_exec c T).
  - destruct Hl as [x Hx]. destruct (guarded_ok w a b c T x R Hx) as (m & c' & E & T' & R' & _). cbn [exec]. rewrite E. by exists c', T'.
  - destruct Hl as [x Hx]. destruct (on_writable_ok w c T x R Hx) as (m & c' & E & T' & R' & _). cbn [exec]. rewrite E. by exists c', T'.
  - cbn [exec]. unfold lws_callback_on_writable_all_protocol_vhost.
    destruct (on_writable_each_ok n (default [] (same_vh_protocol c !! n)) c T R) as (c' & -> & T' & R' & _); [|by exists c', T'].
    intros w Hw. destruct (same_vh_protocol c !! n) as [l|] eqn:El; [|by apply elem_of_nil in Hw].
    exact (k_bound _ _ (proj1 (proj2 B)) n l w El Hw).
  - destruct Hl as [x Hx]. cbn [exec]. unfold upd_wsi, wsi_at. rewrite Hx. cbn [mbind res_bind].
    eexists _, T. split; [reflexivity|]. split; [|exact Sy]. by apply bind_base.
  - eexists _, T. split; [reflexivity|]. split; [|exact Sy]. by apply become_base.
  - exists (freed w c), T. split; [done|]. split; [by apply free_base|exact Sy].
  - cbn in Hl. destruct (wsis c !! w) as [x|] eqn:Hx; [|done]. destruct (closing_exec c T w x R Hx) as [H|]; [exact H|done].
  - eexists _, T. split; [reflexivity|]. split; [|exact Sy]. destruct B as (S & K & N). split; [destruct S; by constructor|].
    split; [|done]. destruct K as [k1 k2 k3 k4 k5 k6 k7]. constructor; try done. cbn. intros u Hu.
    apply list_elem_of_lookup in Hu as (i & Hi). apply list_lookup_insert_Some in Hi as [(_ & [= <-] & _)|(_ & Hi)]; [done|].
    apply k6, list_elem_of_lookup. by exists i.
Qed.

Lemma table_run_ok ops c T : rep c T -> legal_run ops c -> exists c' T', run answer ops c = Ok c' /\ rep c' T'.
Proof.
  revert c T. induction ops as [|o ops IH]; intros c T R; [by exists c, T|]. intros [Hl Hr]. cbn [run].
  destruct (exec_ok o c T R Hl) as (c1 & T1 & E & R1). rewrite E in Hr |- *. by apply (IH c1 T1).
Qed.

(** The same, and a connection may be closed that is stuck. *)
Definition allowed (o : op) (c : context) : Prop :=
  match o with Close w => is_Some (wsis c !! w) | _ => legal o c end.

(** The operation closes a stuck connection. *)
Definition sticks (o : op) (c : context) : Prop :=
  match o with
  | Close w => match wsis c !! w with Some x => stuck w x c | None => False end
  | _ => False
  end.

#[global] Instance allowed_dec o c : Decision (allowed o c).
Proof. destruct o; cbn [allowed]; apply _. Defined.

#[global] Instance sticks_dec o c : Decision (sticks o c).
Proof. destruct o as [w|w|w a b|w|n|w n|w x'|w|w|v w]; cbn; unfold stuck; try destruct (wsis c !! w); apply _. Defined.

(** What is kept to until a stuck connection is closed. *)
Fixpoint allowed_run (ops : list op) (c : context) : Prop :=
  match ops with
  | [] => True
  | o :: ops => allowed o c /\ (~ sticks o c -> match exec answer o c with Ok c => allowed_run ops c | Err _ => True end)
  end.

#[global] Instance allowed_run_dec ops c : Decision (allowed_run ops c).
Proof.
  revert c. induction ops as [|o ops IH]; intros c; cbn [allowed_run]; [apply _|]. destruct (exec answer o c); apply _.
Defined.

Lemma allowed_legal o c : allowed o c -> ~ sticks o c -> legal o c.
Proof. destruct o as [w|w|w a b|w|n|w n|w x'|w|w|v w]; try done. cbn. intros [x ->]. done. Qed.

Lemma allowed_run_ok ops c T : rep c T -> allowed_run ops c ->
  exists k c' T', (k <= length ops)%nat /\ run answer (take k ops) c = Ok c' /\ rep c' T' /\
    (k = length ops \/ exists o, ops !! k = Some o /\ sticks o c').
Proof.
  revert c T. induction ops as [|o ops IH]; intros c T R Hr; [exists 0%nat, c, T; split_and!; auto|].
  destruct Hr as [Ha Hr]. destruct (decide (sticks o c)) as [Hs|Hs].
  { exists 0%nat, c, T. split_and!; [lia|done|done|]. right. by exists o. }
  specialize (Hr Hs). destruct (exec_ok o c T R (allowed_legal o c Ha Hs)) as (c1 & T1 & E & R1). rewrite E in Hr.
  destruct (IH c1 T1 R1 Hr) as (k & c2 & T2 & Hk & E2 & R2 & H). exists (S k), c2, T2. cbn [take run length]. rewrite E.
  cbn [mbind res_bind]. split_and!; [lia|done|done|]. destruct H as [->|H]; [by left|by right].
Qed.

Lemma new_rep maxf unrelated limit tid vhosts : 0 < limit < 2 ^ 31 -> 0 <= maxf -> (unrelated = true -> limit <= maxf) ->
  rep (new_context maxf unrelated limit tid vhosts) [].
Proof.
  intros Hl Hm Hu. split; [split; [|split]|].
  - constructor; cbn; try lia; [by rewrite length_replicate|done].
  - constructor; cbn; [done|..].
    + by intros w x ?%lookup_empty_Some.
    + by intros w w' x x' ?%lookup_empty_Some.
    + by intros w x ?%lookup_empty_Some.
    + by intros t ?%elem_of_nil.
    + by intros w Hw%elem_of_replicate_inv.
    + by intros n l w ?%lookup_empty_Some.
  - unfold lookup_ok. cbn. rewrite length_replicate. split; [done|]. split; [done|]. destruct unrelated.
    + split; [by apply Hu|]. generalize (Z.to_nat maxf) as n. by intros n; induction n.
    + split; [by intros t ?%elem_of_nil|]. intros d w Hd. split; [|by intros (t & ?%elem_of_nil & _)].
      intros [? _]%lookup_replicate. done.
  - unfold synced. cbn. by rewrite app_nil_r.
Qed.

End Operations.
End Table.

(** ** What the agreement means *)

(** The places of the connections, the slots and the lookup array agree. *)
Record consistent (c : context) : Prop := {
  cs_place : forall w x, wsis c !! w = Some x -> position_in_fds_table x <> LWS_NO_FDS_POS ->
    0 <= position_in_fds_table x < fds_count c /\
    exists p, fds c !! Z.to_nat (position_in_fds_table x) = Some p /\ fd p = sockfd x /\
      wsi_from_fd c (sockfd x) = Ok (Some w);
  cs_slot : forall i p, Z.of_nat i < fds_count c -> fds c !! i = Some p -> exists w x,
    wsi_from_fd c (fd p) = Ok (Some w) /\ wsis c !! w = Some x /\ position_in_fds_table x = Z.of_nat i /\ sockfd x = fd p;
  cs_absent : forall d, 0 <= d -> (max_fds_unrelated_to_ulimit c = false -> d < max_fds c) ->
    (forall w x, wsis c !! w = Some x -> sockfd x = d -> position_in_fds_table x = LWS_NO_FDS_POS) ->
    wsi_from_fd c d = Ok None;
  cs_room : 0 <= fds_count c <= fd_limit_per_thread c
}.

(** The descriptors a program with its own poll loop is to poll: the slots of
    the connections that have a vhost. *)
Definition told_slot (c : context) (p : lws_pollfd) : option (Z * Z) :=
  match wsi_from_fd c (fd p) with
  | Ok (Some w) => match wsis c !! w with
                   | Some x => if vhost x then Some (fd p, events p) else None
                   | None => None
                   end
  | _ => None
  end.

Definition poll_set (c : context) : list (Z * Z) := omap (told_slot c) (take (Z.to_nat (fds_count c)) (fds c)).

Lemma entry_facts V0 c T i t : base V0 c T -> T !! i = Some t -> exists x,
  wsis c !! i_wsi t.1 = Some x /\ position_in_fds_table x = Z.of_nat i /\ sockfd x = i_fd t.1 /\ vhost x = i_vhost t.1 /\
  wsi_from_fd c (i_fd t.1) = Ok (Some (i_wsi t.1)).
Proof.
  intros (S & K & N) Hi. assert (T.*1 !! i = Some t.1) as H1 by (by rewrite list_lookup_fmap, Hi).
  destruct (k_in _ _ _ K i t.1 H1) as (x & Hx & Hp & Hf & Hv). exists x. split_and!; try done.
  apply (wsi_from_fd_ok c T.*1); [done|by apply (conns_named V0)|]. apply list_elem_of_lookup. by exists i.
Qed.

Lemma base_consistent V0 c T : base V0 c T -> consistent c.
Proof.
  intros B. pose proof B as (S & K & N). constructor.
  - intros w x Hx Hp. destruct (in_table V0 c T w x B Hx Hp) as (i & t & r & -> & Ht & Hw & Hf & _ & Hlt & Hr & _).
    rewrite (s_count _ _ S). split; [lia|]. rewrite Nat2Z.id. eexists. split; [exact Hr|]. split; [done|].
    destruct (entry_facts V0 c T i t B Ht) as (y & _ & _ & _ & _ & H). by rewrite <- Hf, <- Hw.
  - intros i p Hi Hp. rewrite (s_count _ _ S) in Hi. destruct (lookup_lt_is_Some_2 T i) as [t Ht]; [lia|].
    destruct (s_slots _ _ S i t Ht) as (r & Hr). rewrite Hr in Hp. injection Hp as <-. cbn.
    destruct (entry_facts V0 c T i t B Ht) as (y & Hy & Hpy & Hf & _ & H). by exists (i_wsi t.1), y.
  - intros d H0 Hm Hno. apply (wsi_from_fd_none c T.*1); [done|by apply (conns_named V0)|done|done|].
    intros t (i & Hi)%list_elem_of_lookup Hf. destruct (k_in _ _ _ K i t Hi) as (x & Hx & Hp & Hfx & _).
    rewrite (Hno _ x Hx) in Hp by congruence. unfold LWS_NO_FDS_POS in Hp. lia.
  - rewrite (s_count _ _ S). pose proof (s_max _ _ S). lia.
Qed.

Lemma view_omap T : view T = omap (fun t => if i_vhost t.1 then Some (i_fd t.1, t.2) else None) T.
Proof.
  unfold view. induction T as [|t T IH]; [done|]. rewrite filter_cons. cbn [omap list_omap]. cbn.
  destruct (i_vhost t.1); cbn; [|exact IH]. by rewrite <- IH.
Qed.

Lemma omap_Forall2 {A B C} (f : A -> option C) (g : B -> option C) l k :
  Forall2 (fun a b => f a = g b) l k -> omap f l = omap g k.
Proof. induction 1 as [|a b l k H _ IH]; [done|]. cbn. by rewrite H, IH. Qed.

Lemma poll_set_view V0 c T : base V0 c T -> poll_set c = view T.
Proof.
  intros B. pose proof B as (S & _). unfold poll_set. rewrite view_omap, (s_count _ _ S), Nat2Z.id.
  apply omap_Forall2, Forall2_same_length_lookup. split.
  - rewrite length_take. pose proof (fds_length_limit _ _ S). lia.
  - intros i p t Hp Ht. apply lookup_take_Some in Hp as [Hp _]. destruct (s_slots _ _ S i t Ht) as (r & Hr).
    rewrite Hr in Hp. injection Hp as <-. unfold told_slot. cbn [fd events].
    destruct (entry_facts V0 c T i t B Ht) as (x & Hx & _ & _ & Hv & ->). by rewrite Hx, Hv.
Qed.

(** The bit of the events the accepting depends on. *)
Definition waits_for_input (e : Z) : bool := Z.testbit e 0.

Lemma changed_bit allow v T t : t ∈ changed v (if allow : bool then 0 else LWS_POLLIN) (if allow then LWS_POLLIN else 0) T ->
  (i_wsi t.1 = v -> waits_for_input t.2 = allow) /\ (i_wsi t.1 <> v -> t ∈ T).
Proof.
  unfold changed, waits_for_input. intros (u & -> & Hu)%list_elem_of_fmap.
  destruct (Z.eqb_spec (i_wsi u.1) v) as [E|E]; cbn [fst snd]; (split; [intros E2|by intros]); [|congruence].
  rewrite Z.lor_spec, Z.ldiff_spec. destruct allow; cbn; [by rewrite orb_true_r|by rewrite andb_false_r].
Qed.

Lemma modulated_bit vs allow T t : t ∈ modulated vs allow T -> Some (i_wsi t.1) ∈ vs -> waits_for_input t.2 = allow.
Proof.
  intros Ht Hv.
  assert (forall T, t ∈ modulated vs allow T ->
    (forall u, u ∈ T -> u.1 = t.1 -> waits_for_input u.2 = allow) \/ Some (i_wsi t.1) ∈ vs -> waits_for_input t.2 = allow) as H.
  { clear. induction vs as [|[v|] vs IH]; intros T Ht [H|H].
    - by apply H.
    - by apply elem_of_nil in H.
    - apply (IH _ Ht). left. intros u Hu E. destruct allow.
      + destruct (changed_bit true v T u Hu) as [H1 H2]. destruct (decide (i_wsi u.1 = v)); [by apply H1|]. apply H; [by apply H2|done].
      + destruct (changed_bit false v T u Hu) as [H1 H2]. destruct (decide (i_wsi u.1 = v)); [by apply H1|]. apply H; [by apply H2|done].
    - apply elem_of_cons in H as [[= H]|H]; [|by apply (IH _ Ht); right]. apply (IH _ Ht). left. intros u Hu E. destruct allow.
      + by apply (proj1 (changed_bit true v T u Hu)); rewrite E.
      + by apply (proj1 (changed_bit false v T u Hu)); rewrite E.
    - apply (IH _ Ht). by left.
    - apply elem_of_cons in H as [?|H]; [done|]. apply (IH _ Ht). by right. }
  apply (H T); [done|by right].
Qed.

(** The listening sockets among [vs] that are in the table wait for input, or
    none of them does. *)
Definition listening (vs : list (option Z)) (c : context) (allow : bool) : Prop :=
  forall v x p, Some v ∈ vs -> wsis c !! v = Some x -> position_in_fds_table x <> LWS_NO_FDS_POS ->
    fds c !! Z.to_nat (position_in_fds_table x) = Some p -> waits_for_input (events p) = allow.

Lemma modulated_listening V0 vs c T allow : base V0 c (modulated vs allow T) -> listening vs c allow.
Proof.
  intros B v x p Hv Hx Hp Hfd. destruct (in_table V0 c _ v x B Hx Hp) as (i & t & r & E & Ht & Hw & _ & _ & _ & Hr & _).
  rewrite E, Nat2Z.id, Hr in Hfd. injection Hfd as <-. cbn. apply (modulated_bit vs allow T); [|by rewrite Hw].
  apply list_elem_of_lookup. by exists i.
Qed.

Lemma modulated_length vs allow T : length (modulated vs allow T) = length T.
Proof. rewrite <- (length_fmap fst), modulated_ids. apply length_fmap. Qed.

(** C17: The table of descriptors is consistent after any use of it.  Whatever
    the callbacks answer, entering, leaving, changing what is waited for,
    binding, replacing, closing and freeing connections in any order never
    reads or writes outside an array and trips no assertion, neither those of
    the table nor those a [_DEBUG] build makes on the lookup array, and
    afterwards every connection in the table finds its descriptor in its slot
    and is found by it, every slot belongs to such a connection, no other
    descriptor finds one, and the table has not outgrown its array.  The rest
    of the library is taken to keep to [allowed]: a connection enters once, with
    a valid descriptor of its own, keeps it, its vhost and its place while it is
    in the table, and is freed outside of it or by closing.  There is one way to
    leave the table inconsistent, and the run is followed up to it: closing a
    connection of the table for which protocol 0 refuses the lock, which frees
    it where it is ([freed_in_the_table]). *)
Theorem fd_table_consistent (V0 : list (Z * Z)) (answer : list (Z * poll_reason) -> Z) (ops : list op)
    (maxf limit tid : Z) (unrelated : bool) (vhosts : nat) :
  0 < limit < 2 ^ 31 -> 0 <= maxf -> (unrelated = true -> limit <= maxf) ->
  allowed_run V0 answer ops (new_context maxf unrelated limit tid vhosts) ->
  exists k c, (k <= length ops)%nat /\
    run answer (take k ops) (new_context maxf unrelated limit tid vhosts) = Ok c /\ consistent c /\
    (k = length ops \/ exists w x, ops !! k = Some (Close w) /\ wsis c !! w = Some x /\
       position_in_fds_table x <> LWS_NO_FDS_POS /\ vhost x = true /\ answer (calls c ++ [(w, LOCK_POLL)]) <> 0).
Proof.
  intros Hl Hm Hu Hr.
  destruct (allowed_run_ok V0 answer ops _ [] (new_rep V0 _ _ _ tid vhosts Hl Hm Hu) Hr) as (k & c & T & Hk & E & [B _] & H).
  exists k, c. split_and!; [done|done|exact (base_consistent V0 c T B)|]. destruct H as [|(o & Ho & Hs)]; [by left|right].
  destruct o as [| | | | | | | |w|]; try done. cbn in Hs. destruct (wsis c !! w) as [x|] eqn:Hx; [|done].
  destruct Hs as [Hp [Hv Hn%nz_true]%andb_true_iff]. by exists w, x.
Qed.

(** A program that polls for itself misses nothing.  However the table is
    used and whatever the callbacks answer, the poll set one has by following
    the callbacks, starting from descriptors of one's own, is those and one
    entry for every connection with a vhost in the table, with the events it
    waits for. *)
Theorem told_poll_set (V0 : list (Z * Z)) (answer : list (Z * poll_reason) -> Z) (ops : list op)
    (maxf limit tid : Z) (unrelated : bool) (vhosts : nat) :
  0 < limit < 2 ^ 31 -> 0 <= maxf -> (unrelated = true -> limit <= maxf) ->
  legal_run V0 answer ops (new_context maxf unrelated limit tid vhosts) ->
  exists c, run answer ops (new_context maxf unrelated limit tid vhosts) = Ok c /\
    replay (calls c) V0 ≡ₚ V0 ++ poll_set c.
Proof.
  intros Hl Hm Hu Hr. destruct (table_run_ok V0 answer ops _ [] (new_rep V0 _ _ _ tid vhosts Hl Hm Hu) Hr) as (c & T & E & [B S]).
  exists c. split; [exact E|]. rewrite (poll_set_view V0 c T B). exact S.
Qed.

(** C18: Connections are accepted while there is room.  When an entry leaves one
    free slot, no listening socket in the table waits for connections any
    more; when a departure leaves more, all of them do again. *)
Theorem accept_gate (V0 : list (Z * Z)) (answer : list (Z * poll_reason) -> Z) (ops : list op)
    (maxf limit tid : Z) (unrelated : bool) (vhosts : nat) (c c' : context) (w : Z) :
  0 < limit < 2 ^ 31 -> 0 <= maxf -> (unrelated = true -> limit <= maxf) ->
  legal_run V0 answer ops (new_context maxf unrelated limit tid vhosts) ->
  run answer ops (new_context maxf unrelated limit tid vhosts) = Ok c ->
  (legal V0 answer (Insert w) c -> exec answer (Insert w) c = Ok c' -> fds_count c < fds_count c' ->
   fds_count c' = fd_limit_per_thread c - 1 -> listening (lserv_wsis c) c' false) /\
  (legal V0 answer (Remove w) c -> exec answer (Remove w) c = Ok c' -> fds_count c' < fds_count c -> being_destroyed c = false ->
   fds_count c' < fd_limit_per_thread c - 1 -> listening (lserv_wsis c) c' true).
Proof.
  intros Hl Hm Hu Hr Hc. destruct (table_run_ok V0 answer ops _ [] (new_rep V0 _ _ _ tid vhosts Hl Hm Hu) Hr) as (c1 & T & E & R).
  rewrite Hc in E. injection E as <-. split.
  - intros Hl0 He Hlt Hcnt. cbn in Hl0. destruct (wsis c !! w) as [x|] eqn:Hx; [|done]. destruct Hl0 as (Hp & Hv & Hf). destruct (entering_ok V0 answer c T w x R Hx Hp Hv Hf) as (n & c2 & E & H).
    cbn [exec] in He. rewrite E in He. cbn in He. injection He as <-.
    destruct (negb (room c x T)); [destruct H as [_ ->]; lia|].
    destruct (locked_out answer (vhost x) w c); [destruct H as (_ & _ & L); rewrite (al_count _ _ L) in Hlt; lia|].
    destruct H as [B _]. pose proof (s_count _ _ (proj1 B)) as Hn. unfold entered in B, Hn.
    destruct (Z.eqb_spec (Z.of_nat (length (T ++ [(mk_id w (sockfd x) (vhost x), LWS_POLLIN)]))) (fd_limit_per_thread c - 1)) as [E1|E1].
    + exact (modulated_listening V0 _ _ _ _ B).
    + congruence.
  - intros (x & Hx) He Hlt Hd Hroom. destruct (leaving_ok V0 answer c T w x R Hx) as (n & c2 & E & H).
    cbn [exec] in He. rewrite E in He. cbn in He. injection He as <-.
    destruct (negb _ && _); [destruct H as [_ ->]; lia|].
    destruct (locked_out answer (vhost x) w c); [destruct H as (_ & _ & L); rewrite (al_count _ _ L) in Hlt; lia|].
    destruct H as [B _]. pose proof (s_count _ _ (proj1 B)) as Hn. unfold left_table in B, Hn. rewrite Hd in B, Hn.
    cbn [negb andb] in B, Hn.
    destruct (Z.ltb_spec (Z.of_nat (length (departed x T))) (fd_limit_per_thread c - 1)) as [E1|E1].
    + exact (modulated_listening V0 _ _ _ _ B).
    + lia.
Qed.

(** A listening socket, a pipe and clients that come and go, at four slots. *)
Definition sample_wsi (d : Z) (vh : bool) : wsi :=
  mk_wsi d LWS_NO_FDS_POS vh (if vh then Some 0 else None) (negb vh) false false Ws.LRS_ESTABLISHED false.

Definition sample_ops : list op :=
  [Become 1 (sample_wsi 4 false); Insert 1; Become 2 (sample_wsi 5 true); Listen 0 2; Insert 2;
   Become 3 (sample_wsi 6 true); Insert 3; Bind 3 0; On_writable 3].

Definition sample_context (unrelated : bool) : context := new_context 1024 unrelated 4 0 1.

Definition nobody (_ : list (Z * poll_reason)) : Z := 0.

Lemma sample_legal unrelated : legal_run [(3, 9)] nobody sample_ops (sample_context unrelated).
Proof. destruct unrelated; (eapply bool_decide_unpack; vm_compute; reflexivity). Defined.

(** The table with the pipe and the listening socket, and with a client. *)
Definition sample_before : context :=
  match run nobody (take 6 sample_ops) (sample_context false) with Ok c => c | Err _ => sample_context false end.

Definition sample_after : context :=
  match exec nobody (Insert 3) sample_before with Ok c => c | Err _ => sample_context false end.

Definition sample_again : context :=
  match exec nobody (Remove 3) sample_after with Ok c => c | Err _ => sample_context false end.

(** A user that does not give the lock when connection 3 is to leave. *)
Definition refuses (h : list (Z * poll_reason)) : Z :=
  match last h with Some (3, LOCK_POLL) => if decide (length h = 4%nat) then 0 else 1 | _ => 0 end.

(** Closing frees the connection all the same; its descriptor still finds it. *)
Example freed_in_the_table :
  match run refuses (take 7 sample_ops ++ [Close 3]) (sample_context false) with
  | Ok c => (fds_count c, wsi_from_fd c 6, wsis c !! 3)
  | Err _ => (0, Ok None, None)
  end = (3, Ok (Some 3), None).
Proof. vm_compute. reflexivity. Qed.

(** The searched lookup array, with the client closed in the end. *)
Lemma sample_allowed : allowed_run [(3, 9)] nobody (sample_ops ++ [Close 3]) (sample_context true).
Proof. eapply bool_decide_unpack; vm_compute; reflexivity. Defined.

Lemma fd_table_consistent_witness :
  exists c, run nobody (sample_ops ++ [Close 3]) (sample_context true) = Ok c /\ consistent c.
Proof.
  destruct (fd_table_consistent [(3, 9)] nobody (sample_ops ++ [Close 3]) 1024 4 0 true 1)
    as (k & c & _ & Hr & Hc & [->|(w & x & _ & _ & _ & _ & Ha)]); [lia|lia|lia|exact sample_allowed|..].
  - rewrite firstn_all in Hr. exists c. exact (conj Hr Hc).
  - exfalso. exact (Ha eq_refl).
Defined.

Lemma told_poll_set_witness :
  exists c, run nobody sample_ops (sample_context false) = Ok c /\
    replay (calls c) [(3, 9)] ≡ₚ [(3, 9)] ++ poll_set c /\ poll_set c = [(5, 0); (6, 5)].
Proof.
  destruct (told_poll_set [(3, 9)] nobody sample_ops 1024 4 0 false 1) as (c & H1 & H2); [lia|lia|lia|exact (sample_legal false)|].
  exists c. split; [exact H1|]. split; [exact H2|].
  assert (match run nobody sample_ops (sample_context false) with Ok c => poll_set c | Err _ => [] end = [(5, 0); (6, 5)]) as H
    by (vm_compute; reflexivity).
  unfold sample_context in H. rewrite H1 in H. exact H.
Defined.

Lemma accept_gate_witness :
  fds_count sample_after = 3 /\ listening (lserv_wsis sample_before) sample_after false /\
  fds_count sample_again = 2 /\ listening (lserv_wsis sample_after) sample_again true.
Proof.
  split; [vm_compute; reflexivity|]. split; [|split; [vm_compute; reflexivity|]].
  - apply (accept_gate [(3, 9)] nobody (take 6 sample_ops) 1024 4 0 false 1 sample_before sample_after 3);
      try lia; (vm_compute; reflexivity) || (eapply bool_decide_unpack; vm_compute; reflexivity).
  - apply (accept_gate [(3, 9)] nobody (take 7 sample_ops) 1024 4 0 false 1 sample_after sample_again 3);
      try lia; (vm_compute; reflexivity) || (eapply bool_decide_unpack; vm_compute; reflexivity).
Defined.

End FdTableProof.
