(* ===== verification/PollSet.v ===== *)
(** * The poll set of the server (serveri.cpp over core-net/pollfd.c)

    The server polls for libwebsockets: its callback gets the changes of the
    library's table of descriptors and keeps [pollfds].  The two composed: the
    callbacks the table makes, delivered to the server. *)

From S2P Require Import Prelude Dmx Serveri FdTable FdTableProof.

Module PollSet.
Import FdTableProof.
Module F := FdTable.

(** The reason, as the switch of [callback] sees it. *)
Definition light_reason_of (r : F.poll_reason) : light_reason :=
  match r with
  | F.GET_THREAD_ID => R_other 31
  | F.ADD_POLL_FD d e => R_add_poll_fd d e
  | F.DEL_POLL_FD d => R_del_poll_fd d
  | F.CHANGE_MODE_POLL_FD d e _ => R_change_mode_poll_fd d e
  | F.LOCK_POLL => R_other 35
  | F.UNLOCK_POLL => R_other 36
  end.

(** Protocol 0 of the vhost is the light protocol. *)
Definition delivered (calls : list (Z * F.poll_reason)) : list lws_event :=
  (fun k => L_light k.1 (light_reason_of k.2)) <$> calls.

(** The answer of [callback]. *)
Definition always_0 (_ : list (Z * F.poll_reason)) : Z := 0.

Definition polled (s : Serveri) : list (Z * Z) := (fun p => (p_fd p, p_events p)) <$> pollfds s.

Lemma erase_fd_polled d ps :
  (fun p => (p_fd p, p_events p)) <$> erase_fd d ps = filter (fun q => q.1 <> d) ((fun p => (p_fd p, p_events p)) <$> ps).
Proof.
  induction ps as [|p ps IH]; [done|]. cbn [erase_fd]. rewrite fmap_cons. destruct (Z.eqb_spec (p_fd p) d) as [E|E].
  - by rewrite filter_cons_False by (cbn; auto).
  - by rewrite filter_cons_True, fmap_cons, IH.
Qed.

Lemma set_fd_events_polled d e ps : (fun p => (p_fd p, p_events p)) <$> set_fd_events d e ps =
  (fun q : Z * Z => if q.1 =? d then (q.1, e) else q) <$> ((fun p => (p_fd p, p_events p)) <$> ps).
Proof.
  induction ps as [|p ps IH]; [done|]. cbn [set_fd_events]. rewrite !fmap_cons, IH. f_equal. cbn. by destruct (p_fd p =? d).
Qed.

(** One callback: the poll set follows, and nothing else changes. *)
Lemma delivered_one w r s : exists s' es, callback w (light_reason_of r) s = Ok (s', es) /\
  polled s' = tell (polled s) r /\ set_pollfds [] s' = set_pollfds [] s.
Proof.
  destruct r; cbn; eexists _, _; (split; [reflexivity|]); (split; [|by destruct s]); unfold polled; cbn [pollfds set_pollfds]; try done.
  - by rewrite fmap_app.
  - apply erase_fd_polled.
  - apply set_fd_events_polled.
Qed.

Lemma delivered_all cs s : exists s' es, for_each handle_event (delivered cs) s = Ok (s', es) /\
  polled s' = replay cs (polled s) /\ set_pollfds [] s' = set_pollfds [] s.
Proof.
  revert s. induction cs as [|[w r] cs IH]; intros s; [by exists s, []|].
  destruct (delivered_one w r s) as (s1 & e1 & E1 & P1 & F1). destruct (IH s1) as (s2 & e2 & E2 & P2 & F2).
  exists s2, (e1 ++ e2). cbn [delivered fmap list_fmap for_each]. cbn [handle_event fst snd]. unfold andThen. rewrite E1. cbn [mbind res_bind].
  change ((fun k : Z * F.poll_reason => L_light k.1 (light_reason_of k.2)) <$> cs) with (delivered cs). rewrite E2.
  split; [done|]. split; [by rewrite P2, P1|congruence].
Qed.

(** C16: The server polls what libwebsockets wants polled.  Whatever the library
    does with its table of descriptors, delivering the callbacks to the
    server never throws, changes nothing of the server but its poll set, and
    leaves in it what was there before, the UDP socket, and exactly the
    descriptors of the connections and listening sockets of the library's
    table, with the events the library waits for. *)
Theorem server_poll_set (s : Serveri) (ops : list F.op) (maxf limit tid : Z) (unrelated : bool) (vhosts : nat) :
  0 < limit < 2 ^ 31 -> 0 <= maxf -> (unrelated = true -> limit <= maxf) ->
  legal_run (polled s) always_0 ops (F.new_context maxf unrelated limit tid vhosts) ->
  exists c s' es, F.run always_0 ops (F.new_context maxf unrelated limit tid vhosts) = Ok c /\
    for_each handle_event (delivered (F.calls c)) s = Ok (s', es) /\
    polled s' ≡ₚ polled s ++ poll_set c /\ set_pollfds [] s' = set_pollfds [] s.
Proof.
  intros Hl Hm Hu Hr.
  destruct (table_run_ok (polled s) always_0 ops _ [] (new_rep (polled s) _ _ _ tid vhosts Hl Hm Hu) Hr) as (c & T & E & [B S]).
  destruct (delivered_all (F.calls c) s) as (s' & es & E' & P & Hf). exists c, s', es.
  split; [exact E|]. split; [exact E'|]. split; [|exact Hf]. rewrite P, (poll_set_view _ c T B). exact S.
Qed.

(** A server without lights, with its UDP socket. *)
Definition sample_server : Serveri :=
  mk_Serveri 3 (mk_DMX 4 [] (mk_LightsConfig ∅)) ∅ (mk_LightState [] ∅) 2048 ∅ [] [mk_pollfd 3 9 0] true.

Lemma server_poll_set_witness :
  exists s' es, for_each handle_event (delivered (match F.run always_0 sample_ops (sample_context false) with
    | Ok c => F.calls c | Err _ => [] end)) sample_server = Ok (s', es) /\ polled s' ≡ₚ [(3, 9); (5, 0); (6, 5)].
Proof.
  destruct (server_poll_set sample_server sample_ops 1024 4 0 false 1) as (c & s' & es & H1 & H2 & H3 & _);
    [lia|lia|lia|exact (sample_legal false)|].
  unfold sample_context. rewrite H1. exists s', es. split; [exact H2|]. rewrite H3.
  assert (match F.run always_0 sample_ops (sample_context false) with Ok c => poll_set c | Err _ => [] end = [(5, 0); (6, 5)]) as H
    by (vm_compute; reflexivity).
  unfold sample_context in H. rewrite H1 in H. rewrite H. reflexivity.
Defined.

End PollSet.
