(* ===== verification/Close.v ===== *)
(** * Closing a connection (libwebsockets lib/core-net/close.c)

    [lws_close_free_wsi] on a server connection of the HTTP/1 or WebSocket role
    without children: the stages that may put the end off (output still
    queued, a close frame to send), then the end itself with everything that
    is told to the user on the way, the socket, the header table and the
    memory.  The connection is that of [Service]; what closing adds to it and
    the order of its effects are a record around it. *)

From S2P Require Import Prelude CLib Buflist HttpLex HttpParse WsState WsRx WsTx Upgrade HttpServer HttpHeader Service.

Module Close.
Import Ws Service.

(** Reasons of the user callback on the way out. *)
Inductive reason :=
| LWS_CALLBACK_CLOSED | LWS_CALLBACK_CLOSED_HTTP
| LWS_CALLBACK_HTTP_DROP_PROTOCOL | LWS_CALLBACK_WS_SERVER_DROP_PROTOCOL
| LWS_CALLBACK_WSI_DESTROY
| LWS_CALLBACK_LOCK_POLL | LWS_CALLBACK_UNLOCK_POLL | LWS_CALLBACK_DEL_POLL_FD (fd : Z).

#[global] Instance reason_eq_dec : EqDecision reason.
Proof. solve_decision. Defined.

(** What closing does to the outside, in order.  A callback goes to the
    protocol of the connection or to the first one of the vhost. *)
Inductive effect :=
| To_protocol (r : reason)
| To_protocol_0 (r : reason)
| Shutdown_wr (fd : Z)
| Close_fd (fd : Z)
| Table_detached
| Freed.

#[global] Instance effect_eq_dec : EqDecision effect.
Proof. solve_decision. Defined.

Inductive fault := use_after_free | service_fault (e : S.server_fault).

(** The members of [struct lws] that only closing uses. *)
Record life := mk_life {
  sw : swsi;
  state_pre_close : lwsi_state_t;       (* lwsi_state_PRE_CLOSE *)
  told_user_closed : bool;
  protocol_bind_balance : bool;
  user_space : bool;                    (* wsi->user_space != NULL *)
  sockfd : Z;                           (* desc.sockfd; -1 is LWS_SOCK_INVALID *)
  in_fds_table : bool;                  (* position_in_fds_table != LWS_NO_FDS_POS *)
  freed : bool;
  effects : list effect
}.

Definition set_sw v s := mk_life v (state_pre_close s) (told_user_closed s) (protocol_bind_balance s) (user_space s)
  (sockfd s) (in_fds_table s) (freed s) (effects s).
Definition set_state_pre_close v s := mk_life (sw s) v (told_user_closed s) (protocol_bind_balance s) (user_space s)
  (sockfd s) (in_fds_table s) (freed s) (effects s).
Definition set_told_user_closed v s := mk_life (sw s) (state_pre_close s) v (protocol_bind_balance s) (user_space s)
  (sockfd s) (in_fds_table s) (freed s) (effects s).
Definition set_protocol_bind_balance v s := mk_life (sw s) (state_pre_close s) (told_user_closed s) v (user_space s)
  (sockfd s) (in_fds_table s) (freed s) (effects s).
Definition set_sockfd v s := mk_life (sw s) (state_pre_close s) (told_user_closed s) (protocol_bind_balance s)
  (user_space s) v (in_fds_table s) (freed s) (effects s).
Definition set_in_fds_table v s := mk_life (sw s) (state_pre_close s) (told_user_closed s) (protocol_bind_balance s)
  (user_space s) (sockfd s) v (freed s) (effects s).
Definition set_freed v s := mk_life (sw s) (state_pre_close s) (told_user_closed s) (protocol_bind_balance s)
  (user_space s) (sockfd s) (in_fds_table s) v (effects s).

(** Something happens outside. *)
Definition happens (e : effect) (s : life) : life :=
  mk_life (sw s) (state_pre_close s) (told_user_closed s) (protocol_bind_balance s) (user_space s) (sockfd s)
    (in_fds_table s) (freed s) (effects s ++ [e]).

Definition lstate (s : life) : lwsi_state_t := wstate (sw s).
Definition upd_ws (f : lws -> lws) (s : life) : life := set_sw (set_ws (f (wsw (sw s))) (sw s)) s.
Definition unusable (s : life) : bool := socket_is_permanently_unusable (wsw (sw s)).
Definition has_protocol (s : life) : bool := bool_decide (is_Some (S.protocol (conn (sw s)))).

(** [lwsi_state_est]: the states without [LWSIFS_NOT_EST]. *)
Definition lwsi_state_est (st : lwsi_state_t) : bool :=
  negb (bool_decide (st ∈
    [LRS_UNCONNECTED; LRS_WAITING_CONNECT; LRS_WAITING_PROXY_REPLY; LRS_WAITING_SSL; LRS_WAITING_SOCKS_GREETING_REPLY;
     LRS_WAITING_SOCKS_CONNECT_REPLY; LRS_WAITING_SOCKS_AUTH_REPLY; LRS_SSL_INIT; LRS_SSL_ACK_PENDING;
     LRS_PRE_WS_SERVING_ACCEPT; LRS_WAITING_SERVER_REPLY; LRS_H2_AWAIT_PREFACE; LRS_H2_AWAIT_SETTINGS])).

(** [close_cb] and [protocol_unbind_cb] of the roles, server side. *)
Definition close_cb (s : life) : reason :=
  match role (sw s) with ROLE_WS => LWS_CALLBACK_CLOSED | _ => LWS_CALLBACK_CLOSED_HTTP end.
Definition protocol_unbind_cb (s : life) : reason :=
  match role (sw s) with ROLE_WS => LWS_CALLBACK_WS_SERVER_DROP_PROTOCOL | _ => LWS_CALLBACK_HTTP_DROP_PROTOCOL end.

(** What the user answers and how the context is set up. *)
Record closing := mk_closing {
  cl_answer : list effect -> reason -> Z;         (* a callback, after what happened so far *)
  cl_max_fds : Z;
  cl_max_fds_unrelated_to_ulimit : bool
}.

Definition LRS_closing (st : lwsi_state_t) : bool :=
  bool_decide (st ∈ [LRS_WAITING_TO_SEND_CLOSE; LRS_AWAITING_CLOSE_ACK; LRS_RETURNED_CLOSE]).

Section Close.
Context (A : answers) (L : closing).

(** [protocol_unbind_cb], once per binding. *)
Definition unbind (s : life) : life :=
  if negb (told_user_closed s) && user_space s && protocol_bind_balance s && has_protocol s
  then set_protocol_bind_balance false (happens (To_protocol (protocol_unbind_cb s)) s)
  else s.

(** [__remove_wsi_socket_from_fds], as far as this connection is concerned. *)
Definition __remove_wsi_socket_from_fds (s : life) : life :=
  if negb (cl_max_fds_unrelated_to_ulimit L) && (sockfd s >? cl_max_fds L) then s
  else
    let n := cl_answer L (effects s) LWS_CALLBACK_LOCK_POLL in
    let s := happens (To_protocol_0 LWS_CALLBACK_LOCK_POLL) s in
    if nz n then s
    else
      let s := set_in_fds_table false s in
      let s := if negb (sockfd s =? -1) then happens (To_protocol_0 (LWS_CALLBACK_DEL_POLL_FD (sockfd s))) s else s in
      happens (To_protocol_0 LWS_CALLBACK_UNLOCK_POLL) s.

(** [__lws_free_wsi]; the header table goes back to the pool. *)
Definition __lws_free_wsi (s : life) : life :=
  let s := upd_ws (fun w => set_buflist [] (set_buflist_out [] w)) s in
  let s := happens Table_detached (set_sw (set_ah_attached false (sw s)) s) in
  set_freed true (happens Freed s).

(** [__lws_close_free_wsi_final], without TLS. *)
Definition __lws_close_free_wsi_final (s : life) : life :=
  let s := if negb (sockfd s =? -1) then set_sockfd (-1) (happens (Close_fd (sockfd s)) s) else s in
  __lws_free_wsi (happens (To_protocol_0 LWS_CALLBACK_WSI_DESTROY) s).

(** The shutdown of the sending side before the end.  The flag it sets is
    what the wait for the peer tests next, so there is no wait. *)
Definition staged_shutdown (reason : Z) (s : life) : life * bool :=
  if negb (bool_decide (lstate s = LRS_SHUTDOWN)) && negb (bool_decide (lstate s = LRS_UNCONNECTED)) &&
     negb (reason =? WsTx.LWS_CLOSE_STATUS_NOSTATUS_CONTEXT_DESTROY) && negb (unusable s) then
    let s :=
      if negb (unusable s) && negb (sockfd s =? -1)
      then happens (Shutdown_wr (sockfd s)) (upd_ws (set_socket_is_permanently_unusable true) s) else s in
    if negb (unusable s) && negb (sockfd s =? -1) && negb (bool_decide (lstate s = LRS_SHUTDOWN)) then
      let s := if in_fds_table s && has_protocol s
               then set_sw (_lws_change_pollfd A LWS_POLLOUT LWS_POLLIN (sw s)).2 s else s in
      let s := upd_ws (set_state LRS_SHUTDOWN) s in
      (upd_ws (emit (SetTimeout (timeout_secs (an_env A)))) s, true)
    else (s, false)
  else (s, false).

(** From [just_kill_connection:] on. *)
Definition just_kill_connection (reason : Z) (s : life) : life :=
  let s := unbind s in
  let '(s, waits) := staged_shutdown reason s in
  if waits : bool then s
  else
    let s := if negb (sockfd s =? -1) then __remove_wsi_socket_from_fds s else s in
    let s := upd_ws (fun w => set_buflist [] (set_state LRS_DEAD_SOCKET w)) s in
    let s := set_sw (set_on_buflist_list false (sw s)) s in
    let s := match role (sw s) with ROLE_WS => upd_ws WsTx.rops_close_role_ws s | _ => s end in
    let s :=
      if (lwsi_state_est (state_pre_close s) || bool_decide (state_pre_close s = LRS_WAITING_SERVER_REPLY)) &&
         negb (told_user_closed s)
      then set_told_user_closed true
             (happens (if has_protocol s then To_protocol (close_cb s) else To_protocol_0 (close_cb s)) s)
      else s in
    __lws_close_free_wsi_final (upd_ws (set_socket_is_permanently_unusable true) s).

(** The polite part of [__lws_close_free_wsi]: [None] when the connection is
    to be killed, and otherwise the connection that closes later. *)
Definition close_later (reason : Z) (s : life) : option life * life :=
  match lstate s with
  | LRS_WAITING_TO_SEND_CLOSE | LRS_AWAITING_CLOSE_ACK | LRS_RETURNED_CLOSE => (None, s)
  | LRS_FLUSHING_BEFORE_CLOSE =>
    if WsTx.lws_has_buffered_out (wsw (sw s))
    then (Some (set_sw (lws_callback_on_writable A (sw s)).2 s), s) else (None, s)
  | st =>
    if WsTx.lws_has_buffered_out (wsw (sw s)) then
      (Some (upd_ws (fun w => emit (SetTimeout 5) (set_state LRS_FLUSHING_BEFORE_CLOSE w)) s), s)
    else if bool_decide (st ∈ [LRS_WAITING_CONNECT; LRS_H1C_ISSUE_HANDSHAKE]) then (None, s)
    else
      let s := unbind s in
      match role (sw s) with
      | ROLE_WS =>
        let '(n, w) := WsTx.rops_close_via_role_protocol_ws reason (wsw (sw s)) in
        if nz n then (Some (set_sw (ran A w (sw s)) s), s) else (None, s)
      | _ => (None, s)
      end
  end.

(** [__lws_close_free_wsi] *)
Definition __lws_close_free_wsi (reason : Z) (s : life) : res fault life :=
  if freed s then Err use_after_free
  else
    let s := upd_ws (set_wsistate_pre_close true) (set_state_pre_close (lstate s) s) in
    if bool_decide (lstate s = LRS_DEAD_SOCKET) then Ok s
    else if unusable s || (reason =? WsTx.LWS_CLOSE_STATUS_NOSTATUS_CONTEXT_DESTROY) ||
            bool_decide (lstate s = LRS_SHUTDOWN)
    then Ok (just_kill_connection reason s)
    else
      match close_later reason s with
      | (Some s, _) => Ok s
      | (None, s) => Ok (just_kill_connection reason s)
      end.

(** ** A connection in the poll loop

    The service functions mark the connection they close as their last act. *)
Definition serviced (r : res S.server_fault (Z * list arrival * swsi)) (s : life) : res fault (list arrival * life) :=
  match r with
  | Err e => Err (service_fault e)
  | Ok (_, sock, w) =>
    let s := set_sw (set_closed false w) s in
    if closed w then s ← __lws_close_free_wsi WsTx.LWS_CLOSE_STATUS_NOSTATUS s; Ok (sock, s) else Ok (sock, s)
  end.

(** [lws_service_fd_tsi] with the closing. *)
Definition service_fd (revents : Z) (sock : list arrival) (s : life) : res fault (list arrival * life) :=
  if freed s then Err use_after_free
  else serviced (lws_service_fd_tsi A revents sock (sw s)) s.

End Close.
End Close.
