(* ===== verification/CloseProof.v ===== *)
(** * Closing a connection: its theorems

    What each call of [lws_close_free_wsi] does, by the state it finds; and that
    along any life of a connection everything is done and told once, and the
    freeing last. *)

From S2P Require Import Prelude CLib Buflist HttpLex HttpParse WsState WsRx WsTx Upgrade HttpServer HttpHeader Service ServiceControl Close.

Module CloseProof.
Import Ws Service Close.

(** ** The verdict *)

Inductive verdict_t := Already_dead | Flush_first | Still_flushing | Send_close_first | End_now.

Section Verdict.
Context (L : closing).

Definition context_destroyed (reason : Z) : bool := reason =? WsTx.LWS_CLOSE_STATUS_NOSTATUS_CONTEXT_DESTROY.

(** The peer must not or need not hear anything any more. *)
Definition beyond_manners (reason : Z) (s : life) : bool :=
  unusable s || context_destroyed reason ||
  bool_decide (lstate s ∈ [LRS_SHUTDOWN; LRS_WAITING_TO_SEND_CLOSE; LRS_AWAITING_CLOSE_ACK; LRS_RETURNED_CLOSE]).

(** There is something to say in a close frame. *)
Definition close_to_send (reason : Z) (s : life) : bool :=
  bool_decide (role (sw s) = ROLE_WS) &&
  negb (bool_decide (lstate s ∈ [LRS_FLUSHING_BEFORE_CLOSE; LRS_WAITING_CONNECT; LRS_H1C_ISSUE_HANDSHAKE])) &&
  negb ((close_in_ping_buffer_len (wsw (sw s)) =? 0) && (reason =? 0)).

Definition verdict (reason : Z) (s : life) : verdict_t :=
  if bool_decide (lstate s = LRS_DEAD_SOCKET) then Already_dead
  else if beyond_manners reason s then End_now
  else if WsTx.lws_has_buffered_out (wsw (sw s)) then
    if bool_decide (lstate s = LRS_FLUSHING_BEFORE_CLOSE) then Still_flushing else Flush_first
  else if close_to_send reason s then Send_close_first
  else End_now.

(** ** The effects *)

(** The end of the binding to the protocol. *)
Definition parting (s : life) : list effect :=
  if negb (told_user_closed s) && user_space s && protocol_bind_balance s && has_protocol s
  then [To_protocol (protocol_unbind_cb s)] else [].

(** Everything at the end, in order. *)
Definition farewell (reason : Z) (s : life) : list effect :=
  (if bool_decide (lstate s ∈ [LRS_SHUTDOWN; LRS_UNCONNECTED]) || context_destroyed reason || unusable s
   then [] else [Shutdown_wr (sockfd s)]) ++
  [To_protocol_0 LWS_CALLBACK_LOCK_POLL; To_protocol_0 (LWS_CALLBACK_DEL_POLL_FD (sockfd s));
   To_protocol_0 LWS_CALLBACK_UNLOCK_POLL] ++
  (if (lwsi_state_est (lstate s) || bool_decide (lstate s = LRS_WAITING_SERVER_REPLY)) && negb (told_user_closed s)
   then [if has_protocol s then To_protocol (close_cb s) else To_protocol_0 (close_cb s)] else []) ++
  [Close_fd (sockfd s); To_protocol_0 LWS_CALLBACK_WSI_DESTROY; Table_detached; Freed].

(** A server connection in the poll loop, with a user that lets the library
    take the lock on the poll set. *)
Definition open_conn (s : life) : Prop :=
  freed s = false /\ role (sw s) ∈ [ROLE_H1; ROLE_WS] /\ sockfd s <> -1 /\
  (cl_max_fds_unrelated_to_ulimit L = true \/ sockfd s <= cl_max_fds L).

Definition obliging : Prop := forall h, cl_answer L h LWS_CALLBACK_LOCK_POLL = 0.

(** Nothing of the connection is left. *)
Definition gone (s : life) : Prop :=
  freed s = true /\ sockfd s = -1 /\ in_fds_table s = false /\ ah_attached (sw s) = false /\
  lstate s = LRS_DEAD_SOCKET /\ buflist (wsw (sw s)) = [] /\ buflist_out (wsw (sw s)) = [].

Lemma unbind_effects s : effects (unbind s) = effects s ++ parting s.
Proof. unfold unbind, parting. destruct (_ && _); [done|]. by rewrite app_nil_r. Qed.

(** All but the binding and the effects is as before. *)
Definition same_conn (s s' : life) : Prop :=
  sw s' = sw s /\ state_pre_close s' = state_pre_close s /\ told_user_closed s' = told_user_closed s /\
  user_space s' = user_space s /\ sockfd s' = sockfd s /\ in_fds_table s' = in_fds_table s /\ freed s' = freed s.

Lemma unbind_same s : same_conn s (unbind s).
Proof. unfold unbind. by destruct (_ && _). Qed.

Lemma unbind_twice s : parting (unbind s) = [].
Proof.
  unfold unbind. destruct (negb _ && _ && _ && _) eqn:E.
  - unfold parting. cbn [protocol_bind_balance set_protocol_bind_balance]. rewrite andb_false_r. done.
  - unfold parting. by rewrite E.
Qed.

Context (Hlock : obliging).

Lemma poll_removed s : sockfd s <> -1 -> (cl_max_fds_unrelated_to_ulimit L = true \/ sockfd s <= cl_max_fds L) ->
  __remove_wsi_socket_from_fds L s =
  set_in_fds_table false (mk_life (sw s) (state_pre_close s) (told_user_closed s) (protocol_bind_balance s) (user_space s)
    (sockfd s) (in_fds_table s) (freed s)
    (effects s ++ [To_protocol_0 LWS_CALLBACK_LOCK_POLL; To_protocol_0 (LWS_CALLBACK_DEL_POLL_FD (sockfd s));
                   To_protocol_0 LWS_CALLBACK_UNLOCK_POLL])).
Proof.
  intros Hfd Hmax. unfold __remove_wsi_socket_from_fds.
  assert (negb (cl_max_fds_unrelated_to_ulimit L) && (sockfd s >? cl_max_fds L) = false) as ->.
  { destruct Hmax as [-> |Hm]; [done|]. destruct (Z.gtb_spec (sockfd s) (cl_max_fds L)); [lia|]. by rewrite andb_false_r. }
  rewrite Hlock. change (nz 0) with false. cbv iota zeta. unfold set_in_fds_table, happens. cbn.
  rewrite (proj2 (Z.eqb_neq (sockfd s) (-1))) by done. cbn. by rewrite <- !app_assoc.
Qed.

(** There is no wait for the peer: the flag that says the socket is shut down
    is the one the wait asks to be clear. *)
Lemma no_linger A reason s : sockfd s <> -1 ->
  exists s', staged_shutdown A reason s = (s', false) /\
    effects s' = effects s ++ (if bool_decide (lstate s ∈ [LRS_SHUTDOWN; LRS_UNCONNECTED]) || context_destroyed reason ||
                                 unusable s then [] else [Shutdown_wr (sockfd s)]) /\
    (sw s' = sw s \/ sw s' = set_ws (set_socket_is_permanently_unusable true (wsw (sw s))) (sw s)) /\
    state_pre_close s' = state_pre_close s /\ told_user_closed s' = told_user_closed s /\ sockfd s' = sockfd s.
Proof.
  intros Hfd. unfold staged_shutdown, context_destroyed.
  assert (bool_decide (lstate s ∈ [LRS_SHUTDOWN; LRS_UNCONNECTED]) =
    bool_decide (lstate s = LRS_SHUTDOWN) || bool_decide (lstate s = LRS_UNCONNECTED)) as ->.
  { apply Bool.eq_iff_eq_true. rewrite orb_true_iff, !bool_decide_eq_true. set_solver. }
  destruct (bool_decide (lstate s = LRS_SHUTDOWN)), (bool_decide (lstate s = LRS_UNCONNECTED)),
    (reason =? WsTx.LWS_CLOSE_STATUS_NOSTATUS_CONTEXT_DESTROY), (unusable s); cbn [negb andb orb];
    try (eexists; split; [reflexivity|]; rewrite app_nil_r; split_and!; (done || by left)).
  rewrite (proj2 (Z.eqb_neq (sockfd s) (-1))) by done. cbn [negb andb].
  eexists. split; [reflexivity|]. split_and!; (done || by right).
Qed.

Lemma kill_spec A reason s : sockfd s <> -1 -> (cl_max_fds_unrelated_to_ulimit L = true \/ sockfd s <= cl_max_fds L) ->
  state_pre_close s = lstate s -> role (sw s) ∈ [ROLE_H1; ROLE_WS] ->
  gone (just_kill_connection A L reason s) /\
  effects (just_kill_connection A L reason s) = effects s ++ parting s ++ farewell reason s.
Proof.
  intros Hfd Hmax Hpre Hrole. unfold just_kill_connection.
  pose proof (unbind_effects s) as He. destruct (unbind_same s) as (U1 & U2 & U3 & U4 & U5 & U6 & U7).
  set (s1 := unbind s) in *. clearbody s1. destruct (no_linger A reason s1) as (s2 & -> & He2 & Hsw & P2 & T2 & F2); [by rewrite U5|].
  unfold lstate, unusable in He2. rewrite U1, U5 in He2. rewrite U1 in Hsw. rewrite U5 in F2. rewrite U2 in P2. rewrite U3 in T2.
  assert (role (sw s2) = role (sw s) /\ has_protocol s2 = has_protocol s) as [Hr2 Hp2].
  { unfold has_protocol. by destruct Hsw as [-> | ->]. }
  rewrite F2, (proj2 (Z.eqb_neq (sockfd s) (-1))) by done. cbn [negb].
  rewrite poll_removed by (rewrite F2; done). rewrite F2.
  set (s3 := set_in_fds_table _ _). set (s4 := set_sw _ (upd_ws _ s3)).
  assert (role (sw s4) = role (sw s)) as Hr4 by exact Hr2.
  set (s5 := match role (sw s4) with ROLE_WS => _ | _ => _ end).
  assert (effects s5 = effects s3 /\ told_user_closed s5 = told_user_closed s /\ sockfd s5 = sockfd s /\
    in_fds_table s5 = false /\ state_pre_close s5 = lstate s /\ has_protocol s5 = has_protocol s /\
    close_cb s5 = close_cb s /\ lstate s5 = LRS_DEAD_SOCKET) as (E5 & T5 & F5 & I5 & P5 & HP5 & C5 & S5).
  { unfold s5, close_cb. rewrite Hr4. destruct (role (sw s)) eqn:Hr;
      (split; [done|]; split; [exact T2|]; split; [done|]; split; [done|]; split; [by rewrite <- Hpre, <- P2|];
       split; [exact Hp2|]; split; [|done]; change (role (sw _)) with (role (sw s2)); by rewrite Hr2). }
  clearbody s5. rewrite P5, T5, HP5, C5. set (b := _ && _). set (s6 := if b then _ else s5).
  assert (effects s6 = effects s5 ++ (if b then [if has_protocol s then To_protocol (close_cb s) else To_protocol_0 (close_cb s)] else []) /\
    sockfd s6 = sockfd s /\ in_fds_table s6 = false /\ sw s6 = sw s5) as (E6 & F6 & I6 & W6).
  { unfold s6. destruct b; [done|]. rewrite app_nil_r. done. }
  clearbody s6. unfold __lws_close_free_wsi_final. change (sockfd (upd_ws _ s6)) with (sockfd s6).
  rewrite F6, (proj2 (Z.eqb_neq (sockfd s) (-1))) by done. cbn [negb]. split.
  - split_and!; try done. change (wstate (sw s6) = LRS_DEAD_SOCKET). rewrite W6. exact S5.
  - cbn [__lws_free_wsi set_freed happens effects upd_ws set_sw set_sockfd]. rewrite E6, E5. unfold s3. cbn [effects set_in_fds_table].
    rewrite He2, He. unfold farewell, lstate, unusable. fold b. rewrite <- !app_assoc. done.
Qed.

(** What a call does that only prepares the end. *)
Definition flushing (s s' : life) : Prop :=
  effects s' = effects s /\ lstate s' = LRS_FLUSHING_BEFORE_CLOSE /\
  buflist_out (wsw (sw s')) = buflist_out (wsw (sw s)) /\ told_user_closed s' = told_user_closed s.

(** A close frame waits for the next POLLOUT: the prepared reason, or the
    given one as its two bytes. *)
Definition close_waits (reason : Z) (s s' : life) : Prop :=
  effects s' = effects s ++ parting s /\ lstate s' = LRS_WAITING_TO_SEND_CLOSE /\
  waiting_to_send_close_frame (wsw (sw s')) = true /\ close_needs_ack (wsw (sw s')) = true /\
  (close_in_ping_buffer_len (wsw (sw s)) <> 0 ->
     close_in_ping_buffer_len (wsw (sw s')) = close_in_ping_buffer_len (wsw (sw s)) /\
     ping_payload_buf (wsw (sw s')) = ping_payload_buf (wsw (sw s))) /\
  (close_in_ping_buffer_len (wsw (sw s)) = 0 ->
     close_in_ping_buffer_len (wsw (sw s')) = 2 /\
     ping_payload_buf (wsw (sw s')) =
       list_inserts 0 [Z.land (Z.shiftr reason 8) 255; Z.land reason 255] (ping_payload_buf (wsw (sw s)))).

(** The connection lives on as what it was; a binding that was ended is. *)
Definition carries_on (s s' : life) : Prop :=
  freed s' = false /\ role (sw s') = role (sw s) /\ sockfd s' = sockfd s /\ told_user_closed s' = told_user_closed s /\
  protocol_bind_balance s' = protocol_bind_balance s && bool_decide (effects s' = effects s).

Definition outcome (reason : Z) (s s' : life) : Prop :=
  match verdict reason s with
  | Already_dead => carries_on s s' /\ effects s' = effects s /\ lstate s' = LRS_DEAD_SOCKET
  | Flush_first | Still_flushing => carries_on s s' /\ flushing s s'
  | Send_close_first => carries_on s s' /\ close_waits reason s s'
  | End_now => gone s' /\ effects s' = effects s ++ parting s ++ farewell reason s
  end.

(** Asking for POLLOUT changes the poll set entry only. *)
Lemma on_writable_wsw A s : wsw (lws_callback_on_writable A s).2 = wsw s.
Proof.
  unfold lws_callback_on_writable, _lws_change_pollfd. destruct (bool_decide _); [done|].
  destruct (socket_is_permanently_unusable _); [done|]. destruct (_ && _); [done|]. by destruct (an_change_mode A).
Qed.

Lemma carries_same s s' : freed s' = false -> role (sw s') = role (sw s) -> sockfd s' = sockfd s ->
  told_user_closed s' = told_user_closed s -> protocol_bind_balance s' = protocol_bind_balance s ->
  effects s' = effects s -> carries_on s s'.
Proof. intros. split_and!; try done. rewrite bool_decide_eq_true_2 by done. by rewrite andb_true_r. Qed.

Lemma on_writable_role A s : role (lws_callback_on_writable A s).2 = role s.
Proof.
  unfold lws_callback_on_writable, _lws_change_pollfd. destruct (bool_decide _); [done|].
  destruct (socket_is_permanently_unusable _); [done|]. destruct (_ && _); [done|]. by destruct (an_change_mode A).
Qed.

Lemma ran_role A w s : role (ran A w s) = role s.
Proof.
  unfold ran, on_writable_requests. change (role s) with (role (set_ws w s)). generalize (set_ws w s).
  induction (drop _ _) as [|e l IH]; intros s0; [done|]. cbn [fold_left]. rewrite IH.
  destruct e; try done. apply on_writable_role.
Qed.

Lemma unbind_balance s :
  protocol_bind_balance (unbind s) = protocol_bind_balance s && bool_decide (effects (unbind s) = effects s).
Proof.
  rewrite unbind_effects. unfold unbind, parting. destruct (negb _ && _ && _ && _).
  - cbn [protocol_bind_balance set_protocol_bind_balance]. rewrite bool_decide_eq_false_2; [by rewrite andb_false_r|].
    intros H. apply (f_equal length) in H. rewrite length_app in H. cbn in H. lia.
  - rewrite app_nil_r, bool_decide_eq_true_2 by done. by rewrite andb_true_r.
Qed.

Lemma ran_wsw A w s : wsw (ran A w s) = w.
Proof.
  unfold ran, on_writable_requests. change w with (wsw (set_ws w s)) at 3. generalize (set_ws w s).
  induction (drop _ _) as [|e l IH]; intros s0; [done|]. cbn [fold_left]. rewrite IH.
  destruct e; try done. apply on_writable_wsw.
Qed.

Lemma not_flushing (st : lwsi_state_t) :
  st ∉ [LRS_WAITING_TO_SEND_CLOSE; LRS_AWAITING_CLOSE_ACK; LRS_RETURNED_CLOSE] -> st <> LRS_FLUSHING_BEFORE_CLOSE ->
  st ∉ [LRS_WAITING_TO_SEND_CLOSE; LRS_AWAITING_CLOSE_ACK; LRS_RETURNED_CLOSE; LRS_FLUSHING_BEFORE_CLOSE].
Proof. set_solver. Qed.

(** The branch of the states in which the connection works. *)
Lemma polite A reason s :
  lstate s ∉ [LRS_WAITING_TO_SEND_CLOSE; LRS_AWAITING_CLOSE_ACK; LRS_RETURNED_CLOSE; LRS_FLUSHING_BEFORE_CLOSE] ->
  close_later A reason s =
  (if WsTx.lws_has_buffered_out (wsw (sw s)) then
     (Some (upd_ws (fun w => emit (SetTimeout 5) (set_state LRS_FLUSHING_BEFORE_CLOSE w)) s), s)
   else if bool_decide (lstate s ∈ [LRS_WAITING_CONNECT; LRS_H1C_ISSUE_HANDSHAKE]) then (None, s)
   else
     let s := unbind s in
     match role (sw s) with
     | ROLE_WS =>
       let '(n, w) := WsTx.rops_close_via_role_protocol_ws reason (wsw (sw s)) in
       if nz n then (Some (set_sw (ran A w (sw s)) s), s) else (None, s)
     | _ => (None, s)
     end).
Proof. intros Hst. unfold close_later. destruct (lstate s); (reflexivity || (exfalso; apply Hst; set_solver)). Qed.

Lemma tried A reason s : lstate s ∈ [LRS_WAITING_TO_SEND_CLOSE; LRS_AWAITING_CLOSE_ACK; LRS_RETURNED_CLOSE] ->
  close_later A reason s = (None, s).
Proof.
  intros H. unfold close_later.
  repeat (apply elem_of_cons in H as [H|H]; [by rewrite H|]). by apply elem_of_nil in H.
Qed.

Lemma unbound_kill A reason s : open_conn s -> state_pre_close s = lstate s ->
  gone (just_kill_connection A L reason (unbind s)) /\
  effects (just_kill_connection A L reason (unbind s)) = effects s ++ parting s ++ farewell reason s.
Proof.
  intros (Hf & Hr & Hfd & Hmax) Hpre. pose proof (unbind_effects s) as He.
  pose proof (unbind_twice s) as Ht. destruct (unbind_same s) as (U1 & U2 & U3 & U4 & U5 & U6 & U7).
  set (s1 := unbind s) in *. assert (farewell reason s1 = farewell reason s) as Hfw.
  { unfold farewell, lstate, unusable, has_protocol, close_cb. by rewrite U1, U3, U5. }
  destruct (kill_spec A reason s1) as [H1 H2]; [by rewrite U5|by rewrite U5|unfold lstate; by rewrite U2, U1|by rewrite U1|].
  split; [exact H1|]. by rewrite H2, He, Ht, Hfw, <- app_assoc.
Qed.

(** The role has a close frame to send or not. *)
Lemma via_role A reason s : state_pre_close s = lstate s -> open_conn s ->
  (reason =? WsTx.LWS_CLOSE_STATUS_NOSTATUS_CONTEXT_DESTROY) = false ->
  lstate s ∉ [LRS_FLUSHING_BEFORE_CLOSE; LRS_WAITING_CONNECT; LRS_H1C_ISSUE_HANDSHAKE] ->
  exists s', match (match role (sw (unbind s)) with
                    | ROLE_WS =>
                      let '(n, w) := WsTx.rops_close_via_role_protocol_ws reason (wsw (sw (unbind s))) in
                      if nz n then (Some (set_sw (ran A w (sw (unbind s))) (unbind s)), unbind s) else (None, unbind s)
                    | _ => (None, unbind s)
                    end) with
             | (Some s, _) => Ok s
             | (None, s) => Ok (just_kill_connection A L reason s)
             end = Ok s' (E := fault) /\
    if close_to_send reason s then carries_on s s' /\ close_waits reason s s'
    else gone s' /\ effects s' = effects s ++ parting s ++ farewell reason s.
Proof.
  intros Hpre Ho Hctx Hst. pose proof (unbound_kill A reason s Ho Hpre) as Hk. pose proof (unbind_effects s) as He.
  pose proof (unbind_balance s) as Hbal.
  destruct Ho as (Hf & Hr & _). destruct (unbind_same s) as (U1 & _ & U3 & _ & U5 & _ & U7). set (s1 := unbind s) in *.
  clearbody s1. rewrite U1. unfold close_to_send. rewrite (bool_decide_eq_false_2 _ Hst). cbn [negb].
  apply elem_of_cons in Hr as [Hr|Hr%list_elem_of_singleton]; rewrite Hr; [by eexists|].
  rewrite bool_decide_eq_true_2 by done. cbn [andb]. unfold WsTx.rops_close_via_role_protocol_ws.
  rewrite Hctx, orb_false_r. unfold WsTx.LWS_CLOSE_STATUS_NOSTATUS.
  destruct ((_ =? 0) && (reason =? 0)) eqn:E; cbn [negb]; [by eexists|]. change (nz 1) with true. cbv iota.
  eexists. split; [reflexivity|]. split.
  { split; [by rewrite <- Hf, <- U7|]. split; [apply ran_role|]. done. }
  unfold close_waits, lstate, wstate. cbn [sw set_sw].
  rewrite ran_wsw. split; [by rewrite <- He|]. split; [done|]. split; [done|]. split; [done|].
  destruct (Z.eqb_spec (close_in_ping_buffer_len (wsw (sw s))) 0); split; intros; (done || congruence).
Qed.

Lemma close_outcome A reason s : open_conn s ->
  exists s', __lws_close_free_wsi A L reason s = Ok s' /\ outcome reason s s'.
Proof.
  intros Ho. pose proof Ho as (Hf & Hr & Hfd & Hmax). unfold __lws_close_free_wsi. rewrite Hf.
  set (s0 := upd_ws (set_wsistate_pre_close true) (set_state_pre_close (lstate s) s)).
  pose proof (kill_spec A reason s0 Hfd Hmax eq_refl Hr) as Hkill.
  unfold outcome, verdict, beyond_manners, context_destroyed.
  destruct (decide (lstate s = LRS_DEAD_SOCKET)) as [Hd|Hd].
  { rewrite !bool_decide_eq_true_2 by done. exists s0. split; [done|]. split; [by apply carries_same|done]. }
  change (unusable s0) with (unusable s). change (lstate s0) with (lstate s).
  rewrite (bool_decide_eq_false_2 (lstate s = LRS_DEAD_SOCKET)) by done.
  destruct (unusable s); [by eexists|]. cbn [orb].
  destruct (reason =? WsTx.LWS_CLOSE_STATUS_NOSTATUS_CONTEXT_DESTROY) eqn:Hctx; [by eexists|]. cbn [orb].
  destruct (decide (lstate s = LRS_SHUTDOWN)) as [Hs|Hs].
  { rewrite Hs. by eexists. }
  rewrite (bool_decide_eq_false_2 (lstate s = LRS_SHUTDOWN)) by done.
  destruct (decide (lstate s ∈ [LRS_WAITING_TO_SEND_CLOSE; LRS_AWAITING_CLOSE_ACK; LRS_RETURNED_CLOSE])) as [Hc|Hc].
  { rewrite (bool_decide_eq_true_2 (lstate s ∈ _)) by (by right).
    rewrite (tried A reason s0 Hc). by eexists. }
  rewrite (bool_decide_eq_false_2 (lstate s ∈ _)) by (apply not_elem_of_cons; by split).
  change (WsTx.lws_has_buffered_out (wsw (sw s))) with (WsTx.lws_has_buffered_out (wsw (sw s0))).
  destruct (decide (lstate s = LRS_FLUSHING_BEFORE_CLOSE)) as [Hfl|Hfl].
  { rewrite (bool_decide_eq_true_2 (lstate s = LRS_FLUSHING_BEFORE_CLOSE)) by done.
    assert (close_to_send reason s = false) as ->.
    { unfold close_to_send. rewrite Hfl. rewrite andb_false_r. done. }
    unfold close_later. change (lstate s0) with (lstate s). rewrite Hfl.
    destruct (WsTx.lws_has_buffered_out (wsw (sw s0))); [|by eexists].
    eexists. split; [reflexivity|]. split; [apply carries_same; try done; exact (on_writable_role A (sw s0))|]. unfold flushing, lstate, wstate. cbn [sw set_sw].
    rewrite on_writable_wsw. split_and!; try done. }
  rewrite (bool_decide_eq_false_2 (lstate s = LRS_FLUSHING_BEFORE_CLOSE)) by done.
  rewrite polite by (apply not_flushing; done). change (lstate s0) with (lstate s).
  destruct (WsTx.lws_has_buffered_out (wsw (sw s0))).
  { eexists. split; [reflexivity|]. split; [by apply carries_same|done]. }
  destruct (decide (lstate s ∈ [LRS_WAITING_CONNECT; LRS_H1C_ISSUE_HANDSHAKE])) as [Hw|Hw].
  { rewrite bool_decide_eq_true_2 by done. assert (close_to_send reason s = false) as ->.
    { unfold close_to_send. rewrite (bool_decide_eq_true_2 (lstate s ∈ _)) by (by right). by rewrite andb_false_r. }
    by eexists. }
  rewrite bool_decide_eq_false_2 by done.
  cbv zeta.
  destruct (via_role A reason s0 eq_refl Ho Hctx) as (s' & -> & H');
    [apply not_elem_of_cons; by split|].
  exists s'. split; [done|]. change (close_to_send reason s0) with (close_to_send reason s) in H'.
  destruct (close_to_send reason s); exact H'.
Qed.

(** ** Along the life of a connection *)

Inductive step := Call_close (A : answers) (reason : Z) | Serve (w : swsi).

(** The library closes the connection in any state for any reason, or serves
    it with any effect on what service knows; it does not touch freed memory. *)
Fixpoint run (steps : list step) (s : life) : res fault life :=
  match steps with
  | [] => Ok s
  | k :: steps =>
    if freed s then Ok s
    else
      s ← match k with
          | Call_close A reason => __lws_close_free_wsi A L reason s
          | Serve w => Ok (set_sw w s)
          end;
      run steps s
  end.

Definition served_role (k : step) : Prop :=
  match k with Serve w => role w ∈ [ROLE_H1; ROLE_WS] | Call_close _ _ => True end.

Definition is_drop (e : effect) : Prop :=
  e = To_protocol LWS_CALLBACK_HTTP_DROP_PROTOCOL \/ e = To_protocol LWS_CALLBACK_WS_SERVER_DROP_PROTOCOL.

(** Until it is freed the user has heard of the end of the binding at most. *)
Definition alive (fd : Z) (s : life) : Prop :=
  open_conn s /\ sockfd s = fd /\ told_user_closed s = false /\
  (effects s = [] \/ exists e, effects s = [e] /\ is_drop e /\ protocol_bind_balance s = false).

Definition dead (fd : Z) (s : life) : Prop :=
  gone s /\ NoDup (effects s) /\ last (effects s) = Some Freed /\
  (exists l, effects s = l ++ [Close_fd fd; To_protocol_0 LWS_CALLBACK_WSI_DESTROY; Table_detached; Freed] /\
             To_protocol_0 (LWS_CALLBACK_DEL_POLL_FD fd) ∈ l).

Lemma parting_drop s e : e ∈ parting s -> is_drop e.
Proof.
  unfold parting. destruct (_ && _); [|by intros ?%elem_of_nil]. intros ->%list_elem_of_singleton. unfold protocol_unbind_cb.
  destruct (role (sw s)); [by left|by right|by left..].
Qed.

Lemma parting_one s : parting s = [] \/ exists e, parting s = [e] /\ is_drop e.
Proof.
  destruct (parting s) as [|e l] eqn:E; [by left|]. right. exists e. split.
  - unfold parting in E. destruct (_ && _); [|done]. by injection E as <- <-.
  - apply (parting_drop s). rewrite E. by left.
Qed.

Lemma farewell_nodup reason s : NoDup (farewell reason s) /\ forall e, is_drop e -> e ∉ farewell reason s.
Proof.
  unfold farewell, close_cb. split.
  - destruct (_ || _), (_ && _), (has_protocol s), (role (sw s)); cbn [app];
      (repeat (apply NoDup_cons; split; [rewrite ?not_elem_of_cons; split_and!; (done || apply not_elem_of_nil)|]));
      apply NoDup_singleton.
  - intros e [-> | ->]; destruct (_ || _), (_ && _), (has_protocol s), (role (sw s)); cbn;
      rewrite ?not_elem_of_cons; split_and!; (done || apply not_elem_of_nil).
Qed.

Lemma alive_open fd s : alive fd s -> open_conn s.
Proof. by intros [? _]. Qed.

Lemma alive_step fd A reason s : alive fd s ->
  exists s', __lws_close_free_wsi A L reason s = Ok s' /\ (alive fd s' \/ dead fd s').
Proof.
  intros (Ho & Hfd & Ht & He). destruct (close_outcome A reason s Ho) as (s' & -> & H). exists s'. split; [done|].
  pose proof Ho as (Hf & Hr & Hn & Hm).
  assert (forall e, is_drop e -> protocol_bind_balance s = false -> e ∉ parting s) as Honce.
  { intros e _ Hb. unfold parting. rewrite Hb, andb_false_r. apply not_elem_of_nil. }
  assert (carries_on s s' -> effects s' = effects s ++ parting s \/ effects s' = effects s -> alive fd s') as Hon.
  { intros (C1 & C2 & C3 & C4 & C5) Hp. split; [split_and!; [done|by rewrite C2|by rewrite C3|by rewrite C3]|].
    split; [by rewrite C3|]. split; [by rewrite C4|].
    destruct Hp as [Hp|Hp]; [destruct (parting_one s) as [Hp1|(e & Hp1 & Hd)]|].
    - rewrite Hp1, app_nil_r in Hp. rewrite Hp, bool_decide_eq_true_2, andb_true_r in C5 by done. rewrite Hp, C5. exact He.
    - destruct He as [He|(e' & He & Hd' & Hb)].
      + right. exists e. rewrite Hp, He, Hp1. split; [done|]. split; [done|]. rewrite C5, Hp, He, Hp1.
        rewrite bool_decide_eq_false_2 by done. by rewrite andb_false_r.
      + destruct (Honce e Hd Hb). rewrite Hp1. by left.
    - rewrite Hp, bool_decide_eq_true_2, andb_true_r in C5 by done. rewrite Hp, C5. exact He. }
  unfold outcome in H. destruct (verdict reason s).
  - left. apply Hon; [apply H|]. right. apply H.
  - left. apply Hon; [apply H|]. right. apply H.
  - left. apply Hon; [apply H|]. right. apply H.
  - left. apply Hon; [apply H|]. left. apply H.
  - right. destruct H as [Hg Heff]. split; [done|]. destruct (farewell_nodup reason s) as [Hnd Hdis].
    assert (exists d, effects s ++ parting s = d /\ NoDup d /\ forall e, e ∈ d -> is_drop e) as (d & Hd & Hnd2 & Hall).
    { eexists. split; [done|]. destruct He as [-> |(e' & -> & Hd' & Hb)]; [destruct (parting_one s) as [-> |(e & -> & Hd)]|].
      - split; [constructor|]. by intros e ?%elem_of_nil.
      - split; [apply NoDup_singleton|]. by intros e' ->%list_elem_of_singleton.
      - destruct (parting_one s) as [-> |(e & Hp & Hd)].
        + split; [apply NoDup_singleton|]. by intros e ->%list_elem_of_singleton.
        + destruct (Honce e Hd Hb). rewrite Hp. by left. }
    rewrite app_assoc, Hd in Heff. rewrite Heff. split_and!.
    + apply NoDup_app. split_and!; [done| |done]. intros e Hin. apply Hdis. by apply Hall.
    + unfold farewell. by rewrite !app_assoc, last_app.
    + unfold farewell. rewrite !app_assoc, Hfd. eexists. split; [reflexivity|].
      rewrite !elem_of_app. left. right. right. by left.
Qed.

Lemma run_life fd steps s : alive fd s -> Forall served_role steps ->
  exists s', run steps s = Ok s' /\ (alive fd s' \/ dead fd s').
Proof.
  intros Ha Hs. revert s Ha. induction Hs as [|k steps Hk _ IH]; intros s Ha; [exists s; by auto|].
  cbn [run]. pose proof Ha as ((Hf & Hr & Hn & Hm) & Hrest). rewrite Hf. destruct k as [A reason|w].
  - destruct (alive_step fd A reason s Ha) as (s1 & -> & [H1|H1]); cbn [mbind res_bind]; [by apply IH|].
    exists s1. split; [|by right]. destruct steps; [done|]. cbn [run]. destruct H1 as ((-> & _) & _). done.
  - cbn [mbind res_bind]. apply IH. split; [|done]. split_and!; done.
Qed.

End Verdict.

(** C14: What closing a connection does depends on what is still owed to the
    peer.  With output queued the end is put off until it is flushed; with
    something to say the close frame is prepared first (with the reason
    that was prepared, or the two bytes of the given one) and the connection
    waits for POLLOUT; otherwise, and whenever the peer was told already or
    cannot be, the connection ends at once: it is unbound from its protocol,
    the sending side is shut down, the poll set and the user are told, the
    socket is closed, the header table goes back, the memory is freed, each
    once and in this order, and nothing of the connection is left. *)
Theorem close_spec (A : answers) (L : closing) (reason : Z) (s : life) :
  obliging L -> open_conn L s ->
  exists s', __lws_close_free_wsi A L reason s = Ok s' /\ outcome reason s s'.
Proof. intros HL Ho. exact (close_outcome L HL A reason s Ho). Qed.

(** C15: A connection ends once.  Along any life of a connection, served in any
    way and closed any number of times for any reasons, no effect of closing
    happens twice.  Until the memory is freed the user has heard of the end of
    the protocol binding at most; when it is, the poll set was told to forget
    the descriptor, the socket was closed, and the freeing is the last effect. *)
Theorem closed_once (L : closing) (steps : list step) (s : life) :
  obliging L -> open_conn L s -> told_user_closed s = false -> effects s = [] -> Forall served_role steps ->
  exists s', run L steps s = Ok s' /\ NoDup (effects s') /\
    if freed s' then
      last (effects s') = Some Freed /\ Close_fd (sockfd s) ∈ effects s' /\
      To_protocol_0 (LWS_CALLBACK_DEL_POLL_FD (sockfd s)) ∈ effects s' /\ gone s'
    else (forall e, e ∈ effects s' -> is_drop e) /\ sockfd s' = sockfd s /\ told_user_closed s' = false.
Proof.
  intros HL Ho Ht He Hs.
  destruct (run_life L HL (sockfd s) steps s) as (s' & Hrun & H); [by split_and!; [..|left]|done|].
  exists s'. split; [done|]. destruct H as [((Hf & _) & Hfd & Ht' & Heff)|(Hg & Hnd & Hl & l & Hel & Hdel)].
  - rewrite Hf. destruct Heff as [-> |(e & -> & Hd & _)].
    + split; [constructor|]. split; [by intros e ?%elem_of_nil|done].
    + split; [apply NoDup_singleton|]. split; [by intros e' ->%list_elem_of_singleton|done].
  - pose proof Hg as (-> & _). split; [done|]. split; [done|]. rewrite Hel. split; [|split; [|done]].
    + apply elem_of_app. right. by left.
    + apply elem_of_app. by left.
Qed.

(** The idle connection of a client of the light protocol. *)
Definition sample_life : life :=
  mk_life ServiceControl.sample_idle LRS_UNCONNECTED false true true 7 true false [].

Definition sample_closing : closing := mk_closing (fun _ _ => 0) 1024 false.

Lemma sample_open : open_conn sample_closing sample_life.
Proof. split_and!; try done; [by right; left|]. right. done. Qed.

Lemma close_spec_witness :
  exists s', __lws_close_free_wsi ServiceControl.sample_light_client sample_closing 0 sample_life = Ok s' /\ gone s' /\
    effects s' = [To_protocol LWS_CALLBACK_WS_SERVER_DROP_PROTOCOL; Shutdown_wr 7; To_protocol_0 LWS_CALLBACK_LOCK_POLL;
      To_protocol_0 (LWS_CALLBACK_DEL_POLL_FD 7); To_protocol_0 LWS_CALLBACK_UNLOCK_POLL; To_protocol LWS_CALLBACK_CLOSED;
      Close_fd 7; To_protocol_0 LWS_CALLBACK_WSI_DESTROY; Table_detached; Freed].
Proof.
  destruct (close_spec ServiceControl.sample_light_client sample_closing 0 sample_life) as (s' & H1 & H2);
    [done|exact sample_open|].
  assert (verdict 0 sample_life = End_now) as Hv by (vm_compute; reflexivity). unfold outcome in H2. rewrite Hv in H2.
  destruct H2 as [Hg He]. exists s'. split; [exact H1|]. split; [exact Hg|]. rewrite He. vm_compute. reflexivity.
Defined.

Lemma closed_once_witness :
  exists s', run sample_closing [Call_close ServiceControl.sample_light_client 1001; Serve ServiceControl.sample_idle;
                                 Call_close ServiceControl.sample_light_client 0] sample_life = Ok s' /\
    NoDup (effects s') /\ freed s' = true /\ last (effects s') = Some Freed.
Proof.
  destruct (closed_once sample_closing [Call_close ServiceControl.sample_light_client 1001; Serve ServiceControl.sample_idle;
              Call_close ServiceControl.sample_light_client 0] sample_life) as (s' & H1 & H2 & H3).
  - done.
  - exact sample_open.
  - done.
  - done.
  - repeat constructor.
  - exists s'. split; [exact H1|]. split; [exact H2|].
    assert (match run sample_closing [Call_close ServiceControl.sample_light_client 1001; Serve ServiceControl.sample_idle;
              Call_close ServiceControl.sample_light_client 0] sample_life with Ok s => freed s | Err _ => false end = true) as Hf
      by (vm_compute; reflexivity).
    rewrite H1 in Hf. rewrite Hf in H3. split; [exact Hf|exact (proj1 H3)].
Defined.

End CloseProof.
