(* ===== verification/CloseService.v ===== *)
(** * A connection that ends, from the poll loop to the server

    The service of [Service], the closing of [Close] and the server of
    [Serveri] composed: the other side goes away or breaks the protocol, the
    library ends the connection, and the callbacks it makes on the way reach
    the program's two protocols. *)

From S2P Require Import Prelude CLib Buflist HttpParse HttpServer HttpServerProof WsState WsRx WsRxProof WsRxProps WsRxErrors WsTx WsTxProof WsFrame WsControl Service ServiceProof ServiceControl Dmx Serveri FdTable FdTableProof PollSet Close CloseProof.

Module CloseService.
Import Ws Service ServiceProof ServiceControl Close CloseProof PollSet.

(** ** The callbacks of closing, delivered *)















(** ** The other side goes away *)




(** *** The protocol of a connection outlives a close that is put off *)







Section Leave.
Context (A : answers) (L : closing) (HL : obliging L).














(** Nothing is owed to the peer. *)
Definition nothing_owed (w : lws) : Prop :=
  state w = LRS_ESTABLISHED /\ buflist_out w = [] /\ close_in_ping_buffer_len w = 0.

(** The connection of a WebSocket client between two frames. *)
Definition in_use (c : bool) (s : life) : Prop :=
  open_conn L s /\ idle A c (sw s) /\ told_user_closed s = false /\ has_protocol s = true /\ nothing_owed (wsw (sw s)).

End Leave.







(** ** A frame the protocol forbids *)

Section Illegal.
Context (A : answers).

#[local] Abbreviation E := (an_env A).

(** The read ends at the first byte, with the reason for the close prepared. *)
Lemma illegal_read c b rest s : WsRxProof.env_ok E -> idle A c s -> is_byte b -> WsRxErrors.legal_first c b = false ->
  (2 <= length (ping_payload_buf (wsw s)))%nat -> len (b :: rest) <= rx_buffer_size E + LWS_PRE ->
  len (b :: rest) <= pt_serv_buf_size E ->
  exists w1, lws_service_fd_tsi A LWS_POLLIN [Arrived (b :: rest)] s =
      Ok (1, [], lws_close_free_wsi (load (b :: rest) (set_ws w1 s))) /\
    WsRxErrors.closing_1002 w1 /\ WsRxErrors.close_prepared (wsw s) w1.
Proof.
  intros He Hi Hb Hbad Hl Hrx Hsz. assert (0 < len (b :: rest)) as H0 by (unfold len; cbn [length]; lia).
  rewrite (idle_reads A c (b :: rest) s He Hi H0 Hrx Hsz). apply idle_cleared in Hi.
  set (w0 := set_could_have_pending false (wsw s)) in *. set (s0 := load _ (set_ws w0 s)).
  destruct Hi as (Hs & Hr & Hah & Hq & Hh & Hrdy). change (wsw (set_ws w0 s)) with w0 in *. change (role s = ROLE_WS) in Hr.
  destruct (WsRxErrors.illegal_first E c w0 b Hrdy Hb Hl Hbad) as (w1 & Hsm & Hc & Hprep).
  pose proof Hrdy as ((_ & _ & Hfl & Hst & _) & Hps & _).
  exists w1. split; [|split; [exact Hc|exact Hprep]].
  unfold ws_drain, lws_read_h1. change (wstate s0) with (state w0). rewrite Hst. change (role s0) with (role s). rewrite Hr.
  rewrite bool_decide_eq_true_2 by done. unfold ws_mode, WsRx.lws_parse_ws. change (role s0) with (role s). rewrite Hr.
  rewrite bool_decide_eq_true_2 by done. change (wsw s0) with w0.
  replace (2 * length (b :: rest) + 1)%nat with (S (2 * length (b :: rest))) by lia. rewrite WsControl.run_byte by (first [exact Hfl|left; by rewrite Hps]).
  rewrite Hsm. cbn [mbind res_bind lift HttpServer.lift_exn Z.ltb Z.compare]. unfold ran.
  destruct Hprep as (Hov & _). assert (trace w1 = trace w0) as Htr by (injection Hov; done).
  change (wsw s0) with w0. rewrite Htr, drop_all. done.
Qed.

(** The connection that has a close frame to send. *)
Definition goodbye (w : lws) : lws :=
  emit OnWritable (emit (SetTimeout 5) (set_state LRS_WAITING_TO_SEND_CLOSE (set_close_needs_ack true
    (set_waiting_to_send_close_frame true (set_wsistate_pre_close true w))))).

Lemma output_goodbye w : WsTxProof.output (goodbye w) = WsTxProof.output w.
Proof.
  unfold WsTxProof.output. f_equal. change (trace (goodbye w)) with ((trace w ++ [SetTimeout 5]) ++ [OnWritable]).
  by rewrite !WsTxProof.sent_app, !app_nil_r.
Qed.

Lemma set_ws_twice w1 w2 s : set_ws w1 (set_ws w2 s) = set_ws w1 s.
Proof. reflexivity. Qed.

(** POLLOUT is asked for behind a timeout. *)
Lemma asked_late w s : wstate (set_ws w s) <> LRS_SHUTDOWN -> socket_is_permanently_unusable w = false ->
  handling_pollout s = false -> trace w = (trace (wsw s) ++ [SetTimeout 5]) ++ [OnWritable] ->
  ran A w s = set_events (Z.lor (Z.ldiff (events s) 0) LWS_POLLOUT) (set_ws w s).
Proof.
  intros Hst Hu Hh Ht. unfold ran. rewrite Ht, <- app_assoc, drop_app_length. unfold on_writable_requests.
  cbn [app fold_left]. unfold lws_callback_on_writable. rewrite bool_decide_eq_false_2 by exact Hst.
  change (wsw (set_ws w s)) with w. rewrite Hu. unfold _lws_change_pollfd.
  change (handling_pollout (set_ws w s)) with (handling_pollout s). by rewrite Hh.
Qed.

(** A write leaves the rest of the connection alone. *)
Definition unwritten (w : lws) :=
  (close_needs_ack w, rxflow_bitmap w, buflist w, ping_pending_flag w, send_check_ping w).

Lemma written_keeps w w' : WsControl.written w w' -> unwritten w' = unwritten w.
Proof. intros (tr & l & ->). reflexivity. Qed.

(** What POLLOUT finds of such a connection. *)
Lemma goodbye_ready w : WsTxProof.tx_ready w ->
  let w0 := set_waiting_to_send_close_frame false (set_could_have_pending false (goodbye w)) in
  WsTxProof.tx_ready w0 /\ role_client w0 = role_client w /\ WsTxProof.output w0 = WsTxProof.output w /\
  close_in_ping_buffer_len w0 = close_in_ping_buffer_len w /\ ping_payload_buf w0 = ping_payload_buf w /\
  unwritten w0 = (true, rxflow_bitmap w, buflist w, ping_pending_flag w, send_check_ping w).
Proof.
  intros (H1 & H2 & H3 & H4 & _ & H6) w0. split; [by split_and!|]. split; [reflexivity|]. split; [|by split_and!].
  rewrite <- (output_goodbye w). unfold WsTxProof.output.
  assert (trace w0 = trace (goodbye w) /\ buflist_out w0 = buflist_out (goodbye w)) as [-> ->] by (cbv; done).
  done.
Qed.

(** The role sends the close frame that waits. *)
Lemma pollout_closes k rnd w : state w = LRS_WAITING_TO_SEND_CLOSE ->
  WsTx.rops_handle_POLLOUT_ws E k rnd w =
    let w := set_waiting_to_send_close_frame false w in
    '(n, w) ← WsTx.lws_write E k rnd (take (Z.to_nat (close_in_ping_buffer_len w)) (ping_payload_buf w)) WsTx.LWS_WRITE_CLOSE w;
    if n >=? 0 then
      if close_needs_ack w then
        Ok (WsTx.LWS_HP_RET_BAIL_OK, emit (SetTimeout 5) (set_state LRS_AWAITING_CLOSE_ACK w))
      else Ok (WsTx.LWS_HP_RET_BAIL_DIE, set_state LRS_RETURNED_CLOSE (set_close_needs_ack false w))
    else Ok (WsTx.LWS_HP_RET_BAIL_DIE, w).
Proof. intros Hst. unfold WsTx.rops_handle_POLLOUT_ws, state_is. by rewrite Hst. Qed.

(** The close frame goes out, and POLLOUT stays on. *)
Lemma goodbye_sent w s : role s = ROLE_WS -> ah_attached s = false -> wsw s = goodbye w -> WsTxProof.tx_ready w ->
  role_client w = false -> buflist w = [] -> rxflow_bitmap w = 0 ->
  let p := take (Z.to_nat (close_in_ping_buffer_len w)) (ping_payload_buf w) in
  let frame := WsRxProof.wire (WsRxProof.mk_frame true LWSWSOPC_CLOSE None p) in
  len p <= 125 -> an_send A = WsTx.Taken (len frame) -> len frame <= WsTx.send_limit E ->
  exists s2, lws_service_fd_tsi A LWS_POLLOUT [] s = Ok (0, [], s2) /\ kept_by_pollout s s2 /\
    output (wsw s2) = output w ++ frame /\ wstate s2 = LRS_AWAITING_CLOSE_ACK /\ buflist_out (wsw s2) = [] /\
    ping_pending_flag (wsw s2) = ping_pending_flag w /\ send_check_ping (wsw s2) = send_check_ping w.
Proof.
  intros Hr Hah Hw Htx Hcl Hb Hfl p frame Hp Hsend Hlim.
  assert (WsTxProof.kernel_ok E (an_send A) frame) as Hk.
  { rewrite Hsend. split; [pose proof (len_nonneg frame); lia|exact Hlim]. }
  destruct (goodbye_ready w Htx) as (G1 & G2 & G3 & G4 & G5 & G6).
  set (w0 := set_waiting_to_send_close_frame false (set_could_have_pending false (goodbye w))) in *.
  pose proof (pollout_closes (an_send A) (an_random A) (set_could_have_pending false (goodbye w)) eq_refl) as Hgo.
  cbv zeta in Hgo. fold w0 in Hgo. rewrite G4, G5 in Hgo. fold p in Hgo.
  clearbody w0. injection G6 as F1 F2 F3 F4 F5.
  destruct (WsControl.control_written E (an_send A) (an_random A) WsTx.LWS_WRITE_CLOSE p w0)
    as (r & w2 & Hwr & Hr2 & Ho2 & Hform & _ & Hall); [exact G1|by rewrite G2|by left|exact Hp|exact Hk|].
  set (w3 := emit (SetTimeout 5) (set_state LRS_AWAITING_CLOSE_ACK w2)).
  assert (buflist_out w2 = []) as Hq2 by (apply Hall; by rewrite Hsend).
  apply written_keeps in Hform. injection Hform as K1 K2 K3 K4 K5.
  assert (WsTx.rops_handle_POLLOUT_ws E (an_send A) (an_random A) (set_could_have_pending false (wsw s)) =
    Ok (WsTx.LWS_HP_RET_BAIL_OK, w3)) as Hpo.
  { rewrite Hw, Hgo, Hwr. cbn [mbind res_bind]. destruct (Z.geb_spec r 0); [|lia]. by rewrite K1, F1. }
  destruct (pollout_written A w3 s Hr Hah) as (s2 & H2 & Hws & Hkept); [|rewrite Hw; exact (proj1 Htx)|exact Hpo| |change (rxflow_bitmap w3) with (rxflow_bitmap w2); congruence|change (buflist w3) with (buflist w2); congruence|].
  { unfold wstate. rewrite Hw. by right; left. }
  { change (state w3) with LRS_AWAITING_CLOSE_ACK. set_solver. }
  exists s2. unfold wstate. rewrite Hws. split; [exact H2|]. split; [exact Hkept|].
  split; [|split; [done|split; [exact Hq2|split; [by rewrite <- F4|by rewrite <- F5]]]].
  change (WsTxProof.opcode_of WsTx.LWS_WRITE_CLOSE) with LWSWSOPC_CLOSE in Ho2. fold frame in Ho2.
  rewrite G3 in Ho2.
  rewrite <- Ho2. unfold WsTxProof.output, w3, emit. ws_cbn. by rewrite WsTxProof.sent_app, app_nil_r.
Qed.

(** Closing asks for POLLOUT to send it. *)
Lemma goodbye_asked L s : role (sw s) = ROLE_WS -> freed s = false ->
  lstate s = LRS_ESTABLISHED -> unusable s = false -> buflist_out (wsw (sw s)) = [] ->
  close_in_ping_buffer_len (wsw (sw s)) <> 0 -> handling_pollout (sw s) = false ->
  exists s1, __lws_close_free_wsi A L WsTx.LWS_CLOSE_STATUS_NOSTATUS s = Ok s1 /\
    sw s1 = set_events (Z.lor (Z.ldiff (events (sw s)) 0) LWS_POLLOUT) (set_ws (goodbye (wsw (sw s))) (sw s)) /\
    freed s1 = false /\ sockfd s1 = sockfd s /\ effects s1 = effects s ++ parting s.
Proof.
  intros Hr Hf Hst Hu Hq Hc Hh. unfold __lws_close_free_wsi. rewrite Hf. unfold lstate, wstate, unusable in *.
  set (w := wsw (sw s)) in *. set (w0 := set_wsistate_pre_close true w).
  set (s0 := upd_ws (set_wsistate_pre_close true) (set_state_pre_close (state w) s)).
  assert (sw s0 = set_ws w0 (sw s)) as Hs0 by reflexivity.
  assert (state w0 = state w) as Hst0 by reflexivity.
  assert (socket_is_permanently_unusable w0 = socket_is_permanently_unusable w) as Hu0 by reflexivity.
  assert (buflist_out w0 = buflist_out w) as Hq0 by reflexivity.
  assert (close_in_ping_buffer_len w0 = close_in_ping_buffer_len w) as Hc0 by reflexivity.
  pose proof (unbind_effects s0) as He. destruct (unbind_same s0) as (U1 & _ & _ & _ & U5 & _ & U7).
  assert (parting s0 = parting s /\ effects s0 = effects s /\ sockfd s0 = sockfd s /\ freed s0 = freed s)
    as (P1 & P2 & P3 & P4) by (by split_and!).
  clearbody s0. rewrite Hs0. change (wsw (set_ws w0 (sw s))) with w0. rewrite Hst0, Hu0, Hst, Hu.
  change (WsTx.LWS_CLOSE_STATUS_NOSTATUS =? WsTx.LWS_CLOSE_STATUS_NOSTATUS_CONTEXT_DESTROY) with false.
  rewrite !bool_decide_eq_false_2 by done. cbn [orb]. unfold close_later, lstate, wstate. rewrite Hs0.
  change (wsw (set_ws w0 (sw s))) with w0. rewrite Hst0, Hst. unfold WsTx.lws_has_buffered_out. rewrite Hq0, Hq.
  rewrite bool_decide_eq_false_2 by (clear; set_solver). cbv zeta.
  rewrite U1, Hs0. change (role (set_ws w0 (sw s))) with (role (sw s)). rewrite Hr.
  change (wsw (set_ws w0 (sw s))) with w0. unfold WsTx.rops_close_via_role_protocol_ws.
  rewrite Hc0, (proj2 (Z.eqb_neq _ _) Hc). cbn [andb]. change (nz 1) with true. cbv iota zeta.
  eexists. split; [reflexivity|]. split; [|split; [by rewrite <- Hf, <- P4|split; [by rewrite <- P3|by rewrite <- P1, <- P2]]].
  cbn [sw set_sw]. fold (goodbye w). rewrite asked_late; [by rewrite set_ws_twice|discriminate|exact Hu|exact Hh|reflexivity].
Qed.

(** The round that reads such a byte. *)
Lemma illegal_round L c s b rest : WsRxProof.env_ok E -> in_use A L c s -> is_byte b -> WsRxErrors.legal_first c b = false ->
  (2 <= length (ping_payload_buf (wsw (sw s))))%nat -> len (b :: rest) <= rx_buffer_size E + LWS_PRE ->
  len (b :: rest) <= pt_serv_buf_size E ->
  exists w1 s1, service_fd A L LWS_POLLIN [Arrived (b :: rest)] s = Ok ([], s1) /\
    WsRxErrors.closing_1002 w1 /\ WsRxErrors.close_prepared (wsw (sw s)) w1 /\
    freed s1 = false /\ role (sw s1) = ROLE_WS /\ ah_attached (sw s1) = false /\ closed (sw s1) = false /\
    wsw (sw s1) = goodbye w1 /\ nz (Z.land (events (sw s1)) LWS_POLLOUT) = true.
Proof.
  intros He ((Hf & _) & Hi & _ & _ & (Hst & Hq & _)) Hb Hbad Hpl Hrx Hsz. pose proof Hi as (_ & Hr & Hah & _ & Hh & Hrdy).
  destruct (illegal_read c b rest (sw s) He Hi Hb Hbad Hpl Hrx Hsz) as (w1 & H1 & Hc1 & Hprep).
  pose proof Hprep as (Hov & _ & Hcp). injection Hov as V1 _ _ V4 _ _ V7 _ _ _ _ _ _ _.
  pose proof Hrdy as ((Hu & _) & _).
  set (x := set_sw (set_closed false (lws_close_free_wsi (load (b :: rest) (set_ws w1 (sw s))))) s).
  assert (wsw (sw x) = w1) as Hwx by reflexivity.
  destruct (goodbye_asked L x) as (s1 & E1 & Hs1 & Hf1 & _ & _); try done.
  { unfold lstate, wstate. rewrite Hwx. by rewrite V4. }
  { unfold unusable. rewrite Hwx. by rewrite V1. }
  { by rewrite Hwx, V7. }
  { rewrite Hwx. lia. }
  exists w1, s1. split.
  { unfold service_fd. rewrite Hf, H1. unfold serviced. cbv zeta. fold x. change (closed _) with true. cbv iota. rewrite E1. done. }
  rewrite Hwx in Hs1. rewrite Hs1. split_and!; try done. apply pollout_set.
Qed.

End Illegal.

(** The round in which the kernel answers [k] to a write. *)
Definition with_send (k : WsTx.send_answer) (A : answers) : answers :=
  mk_answers (an_parse A) (an_env A) (an_server A) (an_serve_http A) (an_transaction_completed A) (an_file_fragment A)
    (an_attach A) (an_ah_idle A) (an_change_mode A) k (an_random A) (an_writeable A) (an_other_role A).

Lemma short_frame opc p : len p <= 125 -> len (WsRxProof.wire (WsRxProof.mk_frame true opc None p)) <= 127.
Proof.
  intros Hp. unfold WsRxProof.wire, WsRxProof.wire_head, WsRxProof.wire_len, WsRxProof.wire_body.
  cbn [WsRxProof.f_payload WsRxProof.f_key]. destruct (Z.ltb_spec (len p) 126); [|lia]. rewrite !len_app.
  cbn [default from_option]. change (len [_]) with 1. change (len []) with 0. lia.
Qed.

(** C13: A frame the protocol forbids ends the server.  When the first byte of
    what a client of the light protocol sends starts no legal frame, the round
    that reads it ends the reading, prepares a close frame with code 1002 and
    asks for POLLOUT; the next round sends exactly that frame, as it should,
    and leaves POLLOUT on while it waits for the answer of the peer; so the
    round after it asks the program to write, and the writable callback of the
    light protocol asserts that it is never called. *)
Theorem illegal_frame_ends_server (A : answers) (L : closing) (c : bool) (s : life) (b : Z) (rest : bytes)
    (wsi : Z) (sv : Serveri) :
  obliging L -> WsRxProof.env_ok (an_env A) -> in_use A L c s -> WsControl.can_answer (wsw (sw s)) ->
  send_check_ping (wsw (sw s)) = false -> is_byte b -> WsRxErrors.legal_first c b = false ->
  len (b :: rest) <= rx_buffer_size (an_env A) + LWS_PRE -> len (b :: rest) <= pt_serv_buf_size (an_env A) ->
  an_change_mode A = true -> 127 <= WsTx.send_limit (an_env A) ->
  (forall w, an_writeable A w = light_writeable wsi sv w) ->
  exists p s1 s2, let frame := WsRxProof.wire (WsRxProof.mk_frame true LWSWSOPC_CLOSE None p) in
    take 2 p = [3; 234] /\
    service_fd A L LWS_POLLIN [Arrived (b :: rest)] s = Ok ([], s1) /\
    WsTxProof.output (wsw (sw s1)) = WsTxProof.output (wsw (sw s)) /\ nz (Z.land (events (sw s1)) LWS_POLLOUT) = true /\
    service_fd (with_send (WsTx.Taken (len frame)) A) L LWS_POLLOUT [] s1 = Ok ([], s2) /\
    WsTxProof.output (wsw (sw s2)) = WsTxProof.output (wsw (sw s)) ++ frame /\
    nz (Z.land (events (sw s2)) LWS_POLLOUT) = true /\ freed s2 = false /\
    service_fd A L LWS_POLLOUT [] s2 = Err (service_fault (HttpServer.program_fault assertion_failed)).
Proof.
  intros HL He Hu (Htx & Hcl & Hpp & _ & _ & Hpl) Hsc Hb Hbad Hrx Hsz Hcm Hlim Hwr.
  destruct (illegal_round A L c s b rest He Hu Hb Hbad ltac:(lia) Hrx Hsz)
    as (w1 & s1 & E1 & Hc1 & (Hov & Hlen & Hcp) & Hf1 & Hr1 & Hah1 & Hc & Hw1 & Hev1).
  injection Hov as V1 V2 V3 V4 V5 V6 V7 V8 V9 V10 V11 V12 V13 V14.
  pose proof Hu as (_ & (_ & _ & _ & Hq & _ & ((_ & _ & Hfl & _) & _)) & _).
  set (p := take (Z.to_nat (close_in_ping_buffer_len w1)) (ping_payload_buf w1)).
  assert (len p = close_in_ping_buffer_len w1) as Hp by (unfold p, len in *; rewrite length_take; lia).
  set (frame := WsRxProof.wire (WsRxProof.mk_frame true LWSWSOPC_CLOSE None p)).
  assert (len frame <= 127) as Hfr by (apply short_frame; lia).
  assert (WsTxProof.tx_ready w1) as Htx1.
  { destruct Htx as (T1 & T2 & T3 & T4 & T5 & T6). unfold WsTxProof.tx_ready, state_is in *.
    rewrite V7, V8, V9, V2, V4, V11. by split_and!. }
  set (A2 := with_send (WsTx.Taken (len frame)) A).
  destruct (goodbye_sent A2 w1 (sw s1)) as (s2 & E2 & (Hev2 & Hr2 & _ & Hc2 & _) & Ho2 & Hst2 & Hq2 & Hpp2 & Hsc2);
    try (done || congruence).
  { fold p. lia. }
  { fold p frame. change (an_env A2) with (an_env A). lia. }
  assert (WsTxProof.output w1 = WsTxProof.output (wsw (sw s))) as Ho1 by (unfold WsTxProof.output; by rewrite V5, V7).
  exists p, s1, (set_sw (set_closed false s2) s1). cbv zeta. fold frame. cbn [sw set_sw].
  split; [unfold p; rewrite take_take, Nat.min_l by lia; exact Hc1|]. split; [exact E1|].
  split; [by rewrite Hw1, output_goodbye|]. split; [exact Hev1|].
  split; [unfold service_fd, serviced; fold A2; by rewrite Hf1, E2, Hc2, Hc|].
  split; [by rewrite <- Ho1|]. split; [by rewrite <- Hev1, <- Hev2|]. split; [exact Hf1|].
  unfold service_fd. rewrite (Hf1 : freed (set_sw _ s1) = false). cbn [sw set_sw].
  rewrite (user_asked A (set_closed false s2) assertion_failed); [done|..].
  - exact (eq_trans Hr2 Hr1).
  - unfold wstate in *. rewrite (Hst2 : state (wsw (set_closed false s2)) = _). by right; left.
  - exact Hq2.
  - by rewrite <- Hpp, <- V13.
  - by rewrite <- Hsc, <- V14.
  - done.
  - intros w. by rewrite Hwr.
Qed.

Lemma illegal_frame_ends_server_witness :
  exists p s1 s2, let frame := WsRxProof.wire (WsRxProof.mk_frame true LWSWSOPC_CLOSE None p) in
    take 2 p = [3; 234] /\ service_fd sample_light_client sample_closing LWS_POLLIN [Arrived [131; 0]] sample_life = Ok ([], s1) /\
    service_fd (with_send (WsTx.Taken (len frame)) sample_light_client) sample_closing LWS_POLLOUT [] s1 = Ok ([], s2) /\
    service_fd sample_light_client sample_closing LWS_POLLOUT [] s2 =
      Err (service_fault (HttpServer.program_fault assertion_failed)).
Proof.
  destruct (illegal_frame_ends_server sample_light_client sample_closing false sample_life 131 [0] 1 ServeriProps.sample_serveri)
    as (p & s1 & s2 & H1 & H2 & _ & _ & H3 & _ & _ & _ & H4).
  - done.
  - exact WsRxProps.sample_env_ok.
  - split; [exact sample_open|]. split; [split; [split; done|]; split_and!; try done; exact sample_conn_ready|].
    split_and!; try done; vm_compute; done.
  - unfold WsControl.can_answer, WsTxProof.tx_ready. cbn. split_and!; (done || lia).
  - done.
  - split; discriminate || reflexivity.
  - reflexivity.
  - vm_compute. discriminate.
  - vm_compute. discriminate.
  - done.
  - vm_compute. discriminate.
  - reflexivity.
  - exists p, s1, s2. split; [exact H1|]. split; [exact H2|]. split; [exact H3|exact H4].
Defined.

End CloseService.
