(* ===== verification/HttpUri.v ===== *)
(** * Sanitation of the request URI

    The parser unescapes the path of a URI and takes out its dot segments
    while the characters come in, in place in the data area.  Of a URI that
    ends at a space, the path it stores has no dot-dot segment after a slash:
    none at all if the URI starts with a slash.  A URI that does not start
    with one may keep a first segment of dots ([HttpFindings.slash_not_enforced]),
    and one that ends at the end of the line its last
    ([HttpFindings.dots_at_end_of_line]). *)

From S2P Require Import Prelude CLib HttpLex HttpParse HttpParseSafe HttpParseProof WsState Upgrade HttpServer.

Module HttpUri.
Import HttpParse HttpParseSafe HttpParseProof HttpServer.

(** ** Backing up, on texts *)

(** Characters are taken off until a slash was, or one is left. *)
Fixpoint pop_loop (fuel : nat) (t : bytes) : bytes :=
  match fuel with
  | O => t
  | S fuel =>
    let t' := removelast t in
    if len t' >? 1 then if default 0 (last t) =? 47 then t' else pop_loop fuel t' else t'
  end.

Definition pop_dir (t : bytes) : bytes := if len t >? 2 then pop_loop (length t) (removelast t) else t.

(** ** Paths without dot-dot segments *)

Definition up : bytes := [47; 46; 46; 47].

Definition no_up (t : bytes) : Prop := forall x y, t <> x ++ up ++ y.

Definition no_end (e t : bytes) : Prop := forall x, t <> x ++ e.

(** What is true of the path stored so far in each state of the sanitation. *)
Definition path_ok (s : uri_path_states) (t : bytes) : Prop :=
  no_up t /\ no_end [47; 46] t /\ no_end [47; 46; 46] t /\ (s = URIPS_IDLE -> no_end [47] t).

Lemma no_up_prefix x y : no_up (x ++ y) -> no_up x.
Proof. intros H a b ->. apply (H a (b ++ y)). by rewrite <- !app_assoc. Qed.

Lemma no_up_snoc t c : no_up t -> c <> 47 \/ no_end [47; 46; 46] t -> no_up (t ++ [c]).
Proof.
  intros Ht Hc x y E. destruct y as [|d y _] using rev_ind.
  - rewrite app_nil_r in E. change (x ++ up) with (x ++ [47; 46; 46] ++ [47]) in E. rewrite app_assoc in E.
    apply app_inj_tail in E as [-> ->]. destruct Hc as [?|Hc]; [done|]. by apply (Hc x).
  - rewrite !app_assoc in E. apply app_inj_tail in E as [-> _]. apply (Ht x y). by rewrite <- app_assoc.
Qed.

Lemma no_end_snoc e d t c : c <> d \/ no_end e t -> no_end (e ++ [d]) (t ++ [c]).
Proof.
  intros Hc x E. rewrite app_assoc in E. apply app_inj_tail in E as [-> ->].
  destruct Hc as [?|Hc]; [done|]. by apply (Hc x).
Qed.

(** A character that is neither a slash nor a dot ends every pending dot. *)
Lemma path_ok_snoc s t c :
  no_up t -> c <> 47 -> c <> 46 \/ (no_end [47] t /\ no_end [47; 46] t) -> path_ok s (t ++ [c]).
Proof.
  intros Ht H47 H46. split; [apply no_up_snoc; auto|].
  split; [apply (no_end_snoc [47] 46); tauto|]. split; [apply (no_end_snoc [47; 46] 46); tauto|].
  intros _. apply (no_end_snoc [] 47). by left.
Qed.

(** A slash in place where no dot-dot precedes. *)
Lemma path_ok_slash t : no_up t -> no_end [47; 46; 46] t -> path_ok URIPS_SEEN_SLASH (t ++ [47]).
Proof.
  intros Ht He. split; [apply no_up_snoc; auto|].
  split; [apply (no_end_snoc [47] 46); by left|]. split; [apply (no_end_snoc [47; 46] 46); by left|done].
Qed.

Lemma path_ok_short s t : (length t <= 1)%nat -> s <> URIPS_IDLE -> path_ok s t.
Proof.
  intros Hl Hs. split_and!; [| | |done]; intros x; [intros y|..]; intros ->;
    rewrite ?length_app in Hl; cbn in Hl; lia.
Qed.

Lemma path_ok_nil s : path_ok s [].
Proof. split_and!; [intros [] ?|intros []|intros []|intros _ []]; done. Qed.

(** Backing up leaves a path in front of a slash, a short one, or all. *)
Lemma pop_loop_spec fuel t :
  (2 <= length t <= fuel)%nat ->
  (length (pop_loop fuel t) <= 1)%nat \/ (exists y, t = pop_loop fuel t ++ [47] ++ y).
Proof.
  revert t. induction fuel as [|fuel IH]; intros t Ht; [lia|]. cbn [pop_loop].
  assert (Hne : t <> []) by (intros ->; cbn in Ht; lia).
  destruct (exists_last Hne) as (t' & c & ->). rewrite removelast_last, last_snoc. cbn [from_option id].
  rewrite length_app in Ht. cbn in Ht. unfold len. destruct (Z.gtb_spec (Z.of_nat (length t')) 1); [|left; lia].
  destruct (Z.eqb_spec c 47) as [->|]; [right; by exists []|].
  destruct (IH t') as [?|[y Hy]]; [lia|by left|]. right. exists (y ++ [c]). rewrite Hy at 1. by rewrite <- !app_assoc.
Qed.

Lemma pop_dir_spec t :
  (length (pop_dir t) <= 1)%nat \/ (exists y, t = pop_dir t ++ [47] ++ y) \/ (length t <= 2)%nat /\ pop_dir t = t.
Proof.
  unfold pop_dir, len. destruct (Z.gtb_spec (Z.of_nat (length t)) 2); [|right; right; split; [lia|done]].
  assert (Hne : t <> []) by (intros ->; cbn in *; lia). destruct (exists_last Hne) as (t' & c & ->).
  rewrite removelast_last, length_app in *. cbn in *.
  destruct (pop_loop_spec (length t' + 1) t') as [?|[y Hy]]; [lia|by left|].
  right. left. exists (y ++ [c]). rewrite Hy at 1. by rewrite <- !app_assoc.
Qed.

(** A path cut in front of a slash does not end with a dot-dot. *)
Lemma cut_no_end t y : no_up (t ++ [47] ++ y) -> no_end [47; 46; 46] t.
Proof. intros H x ->. apply (H x y). by rewrite <- !app_assoc. Qed.

(** ** Where a path starts *)

Lemma removelast_head (t : bytes) (x : Z) : (2 <= length t)%nat -> head t = Some x -> head (removelast t) = Some x.
Proof. destruct t as [|c [|d t]]; cbn; [lia|lia|done]. Qed.

Lemma length_removelast (t : bytes) : length (removelast t) = (length t - 1)%nat.
Proof. rewrite removelast_firstn_len, length_take. lia. Qed.

Lemma pop_loop_head fuel (t : bytes) (x : Z) : (2 <= length t)%nat -> head t = Some x -> head (pop_loop fuel t) = Some x.
Proof.
  revert t. induction fuel as [|fuel IH]; intros t Hl Ht; [done|]. cbn [pop_loop].
  pose proof (removelast_head t x Hl Ht) as Hr. pose proof (length_removelast t) as Hlr. unfold len.
  destruct (Z.gtb_spec (Z.of_nat (length (removelast t))) 1); [|done].
  destruct (default 0 (last t) =? 47); [done|]. apply IH; [lia|done].
Qed.

(** Backing up stops at the first character. *)
Lemma pop_dir_head (t : bytes) (x : Z) : head t = Some x -> head (pop_dir t) = Some x.
Proof.
  intros Ht. unfold pop_dir, len. destruct (Z.gtb_spec (Z.of_nat (length t)) 2); [|done].
  apply pop_loop_head; [rewrite length_removelast; lia|]. apply removelast_head; [lia|done].
Qed.

Lemma head_app_Some (t u : bytes) (x : Z) : head t = Some x -> head (t ++ u) = Some x.
Proof. by destruct t. Qed.

(** A character turns the path [t] into [t']: a path that starts with a slash
    still does, and an empty one does after a slash. *)
Definition roots (s : uri_path_states) (t : bytes) (c : Z) (t' : bytes) : Prop :=
  head t = Some 47 \/ (t = [] /\ c = 47 /\ s = URIPS_IDLE) -> head t' = Some 47.

Lemma roots_later s t c t' : s <> URIPS_IDLE -> (head t = Some 47 -> head t' = Some 47) -> roots s t c t'.
Proof. intros Hs H [?|(_ & _ & ->)]; auto. done. Qed.

(** ** Segments *)

(** The parts of a path between its slashes. *)
Fixpoint segments (t : bytes) : list bytes :=
  match t with
  | [] => [[]]
  | c :: t' => if c =? 47 then [] :: segments t' else (c :: default [] (head (segments t'))) :: tail (segments t')
  end.

Definition dot_dot : bytes := [46; 46].

Lemma segments_cons t : exists g gs, segments t = g :: gs.
Proof. destruct t as [|c t]; cbn [segments]; [eauto|]. destruct (c =? 47); eauto. Qed.

(** The first segment is followed by a slash or the end. *)
Lemma segments_first t g gs : segments t = g :: gs -> t = g \/ (exists y, t = g ++ 47 :: y).
Proof.
  revert g gs. induction t as [|c t IH]; intros g gs; cbn [segments]; [intros [= <- <-]; by left|].
  destruct (Z.eqb_spec c 47) as [->|]; [intros [= <- <-]; right; by exists t|].
  destruct (segments_cons t) as (g' & gs' & E). rewrite E. intros [= <- <-]. cbn.
  destruct (IH _ _ E) as [->|[y ->]]; [by left|right; by exists y].
Qed.

(** A later segment of two dots is preceded by a slash, and followed by one or
    the end. *)
Lemma no_climb t : no_up t -> no_end [47; 46; 46] t -> dot_dot ∉ tail (segments t).
Proof.
  induction t as [|c t IH]; intros Hup He; cbn [segments]; [apply not_elem_of_nil|].
  assert (Ht : dot_dot ∉ tail (segments t)).
  { apply IH; [intros x y ->; by apply (Hup (c :: x) y)|intros x ->; by apply (He (c :: x))]. }
  destruct (Z.eqb_spec c 47) as [->|]; [|done]. cbn [tail].
  destruct (segments_cons t) as (g & gs & E). rewrite E in *. intros [<-|Hin]%elem_of_cons; [|by apply Ht].
  destruct (segments_first _ _ _ E) as [->|[y ->]]; [by apply (He [])|by apply (Hup [] y)].
Qed.

Lemma no_climb_rooted t :
  no_up t -> no_end [47; 46; 46] t -> head t = Some 47 -> dot_dot ∉ segments t.
Proof.
  intros Hup He Hh. pose proof (no_climb t Hup He) as Ht. destruct t as [|c t]; [done|]. injection Hh as ->.
  cbn [segments Z.eqb Pos.eqb] in *. intros [?|Hin]%elem_of_cons; [done|by apply Ht].
Qed.

(** ** The same in the data area *)

Section Uri.
Context (E : parse_env).

#[local] Abbreviation L := (max_http_header_data E).

(** The text of the fragment being read. *)
Lemma in_value_frag h a C X :
  in_value E h a C X ->
  exists f, frag_get (nfrag a) a = Ok f /\ at_pos (frags a) (nfrag a) f /\ tab E (nfrag a) (offset f) a /\
    flen f = len (X (nfrag a)) /\ offset f + flen f = pos a /\ 0 <= offset f /\ 1 <= nfrag a /\
    X (nfrag a) = frag_text (data a) f.
Proof.
  intros (_ & _ & Ho & Hv & (f & Hf & Hp) & _).
  pose proof (last_open_frag E a Ho) as (f' & Hg & Hf' & Ht & _ & Hf0 & _).
  pose proof (at_pos_inj _ _ _ _ Hf' Hf) as ->. destruct Ho as [H1 _].
  assert (Hnf : nfrag a <= nfrag a) by lia.
  destruct (rd_text _ _ _ _ _ _ _ Hv (nfrag a) f ltac:(lia) Hf) as [Htx Hl].
  exists f. split_and!; try done. destruct Ht. destruct (ok_frag0 (nfrag a) f); auto.
Qed.

(** One character off the text. *)
Lemma in_value_pop h a C X f :
  in_value E h a C X -> at_pos (frags a) (nfrag a) f -> 1 <= flen f ->
  let a' := set_frags (<[Z.to_nat (nfrag a) := set_flen (flen f - 1) f]> (frags a)) (set_pos (pos a - 1) a) in
  in_value E h a' C (upd X (nfrag a) (removelast (X (nfrag a)))) /\
  at_index (data a') (pos a') = Ok (default 0 (last (X (nfrag a)))).
Proof.
  intros Hv Hf Hl1. destruct (in_value_frag h a C X Hv) as (f' & _ & Hf' & Ht & Hl & Hp & Ho & H1 & Htx).
  pose proof (at_pos_inj _ _ _ _ Hf' Hf) as ->. pose proof (at_pos_range _ _ _ Hf) as Hr.
  pose proof (table_back E _ _ _ _ _ _ _ _ Ht H1 ltac:(lia) Hf Hl1) as Ht'.
  destruct Hv as (Hs & Hvs & Hlo & Hvw & _ & Hlim & Hu & HC). pose proof Hlo as (_ & f2 & Hf2 & _ & Hlim2).
  pose proof (at_pos_inj _ _ _ _ Hf2 Hf) as ->.
  assert (Hf'' : at_pos (<[Z.to_nat (nfrag a) := set_flen (flen f - 1) f]> (frags a)) (nfrag a) (set_flen (flen f - 1) f))
    by (apply at_pos_insert; auto).
  assert (Hne : X (nfrag a) <> []) by (intros Hx; rewrite Hx, len_nil in Hl; lia).
  split.
  - split; [done|]. split; [done|]. split; [|split; [|split; [|done]]].
    + split; [done|]. eexists. split; [exact Hf''|]. split; [exact Ht'|]. cbn. lia.
    + destruct Hvw. constructor; auto.
      * eapply chains_ext; [|exact rd_chain0]. intros i g Hg. destruct (Z.eq_dec i (nfrag a)) as [->|].
        -- pose proof (at_pos_inj _ _ _ _ Hg Hf) as ->. by exists (set_flen (flen f - 1) f).
        -- exists g. split; [apply at_pos_insert; auto|done].
      * cbn. intros i g Hi [[-> ->]|[? Hg]]%at_pos_insert; [|rewrite upd_ne by done; by apply rd_text0|done].
        rewrite upd_eq. split.
        -- rewrite Htx, removelast_firstn_len. unfold frag_text. cbn. rewrite take_take. f_equal.
           rewrite length_take, length_drop. pose proof (rd_text0 (nfrag a) f ltac:(lia) Hf) as [Htx' Hl'].
           unfold frag_text in Htx'. apply (f_equal length) in Htx'. rewrite length_take, length_drop in Htx'.
           unfold len in *. lia.
        -- destruct (exists_last Hne) as (t & c & Et). rewrite Et in *. rewrite removelast_last.
           rewrite len_app, len_cons, len_nil in Hl. cbn. lia.
      * cbn. intros i g Hi Hopen [[-> ->]|[? Hg]]%at_pos_insert; [specialize (Hopen eq_refl); lia| |done].
        by apply (rd_nul0 i).
    + exists (set_flen (flen f - 1) f). split; [exact Hf''|]. cbn. lia.
  - cbn. unfold at_index. destruct (Z.ltb_spec (pos a - 1) 0); [lia|].
    assert (data a !! Z.to_nat (pos a - 1) = last (X (nfrag a))) as ->.
    { rewrite last_lookup. remember (pred (length (X (nfrag a)))) as k eqn:Ek. rewrite Htx. unfold frag_text. rewrite lookup_take_lt, lookup_drop.
      - f_equal. unfold len in *. lia.
      - unfold len in *. lia. }
    destruct (exists_last Hne) as (t & c & ->). by rewrite last_snoc.
Qed.

Lemma upd_twice {A} (X : Z -> A) i x y j : upd (upd X i x) i y j = upd X i y j.
Proof. unfold upd. by destruct (j =? i). Qed.

Lemma backup_loop_text fuel h a C X :
  in_value E h a C X -> 2 <= len (X (nfrag a)) -> (length (X (nfrag a)) <= fuel)%nat ->
  exists a', backup_loop fuel a = Ok a' /\ in_value E h a' C (upd X (nfrag a) (pop_loop fuel (X (nfrag a)))) /\
    nfrag a' = nfrag a /\ ups a' = ups a.
Proof.
  revert a X. induction fuel as [|fuel IH]; intros a X Hv H2 Hfu; [unfold len in *; lia|].
  destruct (in_value_frag h a C X Hv) as (f & Hg & Hf & Ht & Hl & Hp & _ & H1 & _).
  cbn [backup_loop pop_loop]. rewrite Hg. cbn [mbind res_bind].
  pose proof (at_pos_range _ _ _ Hf) as Hr.
  unfold frag_set. cbn [frags set_pos nfrag]. rewrite put_index_ok by done. cbn [mbind res_bind].
  destruct (in_value_pop h a C X f Hv Hf ltac:(lia)) as [Hv1 Hc1]. cbn zeta in Hv1, Hc1.
  set (a1 := set_frags _ _) in *. assert (F1 : nfrag a1 = nfrag a /\ ups a1 = ups a) by done. clearbody a1.
  destruct F1 as [Fn Fu]. rewrite Hl.
  assert (Hlen : len (removelast (X (nfrag a))) = len (X (nfrag a)) - 1).
  { rewrite removelast_firstn_len. unfold len. rewrite length_take. unfold len in *. lia. }
  rewrite <- Hlen. destruct (Z.gtb_spec (len (removelast (X (nfrag a)))) 1) as [Hgt|]; [|by exists a1].
  rewrite Hc1. cbn [mbind res_bind]. destruct (default 0 (last (X (nfrag a))) =? 47); [by exists a1|]. cbn [negb].
  destruct (IH a1 _ Hv1) as (a2 & -> & Hv2 & Hn2 & Hu2).
  { rewrite Fn, upd_eq. lia. } { rewrite Fn, upd_eq. unfold len in *. lia. }
  exists a2. split; [done|]. split; [|split; congruence].
  eapply in_value_ext; [|exact Hv2]. intros j. by rewrite Fn, upd_twice, upd_eq.
Qed.

Lemma backup_text h a C X :
  in_value E h a C X ->
  exists a', backup a = Ok a' /\ in_value E h a' C (upd X (nfrag a) (pop_dir (X (nfrag a)))) /\
    nfrag a' = nfrag a /\ ups a' = ups a.
Proof.
  intros Hv. destruct (in_value_frag h a C X Hv) as (f & Hg & Hf & Ht & Hl & Hp & _ & H1 & _).
  unfold backup, pop_dir. rewrite Hg. cbn [mbind res_bind]. rewrite Hl.
  destruct (Z.gtb_spec (len (X (nfrag a))) 2) as [Hgt|].
  - unfold frag_set. cbn [frags set_pos nfrag]. rewrite put_index_ok by by eapply at_pos_range. cbn [mbind res_bind].
    rewrite <- Hl. destruct (in_value_pop h a C X f Hv Hf ltac:(lia)) as [Hv1 _]. cbn zeta in Hv1.
    set (a1 := set_frags _ _) in *. assert (F1 : nfrag a1 = nfrag a /\ ups a1 = ups a) by done. clearbody a1.
    destruct F1 as [Fn Fu].
    pose proof (length_removelast (X (nfrag a))) as Hlen.
    destruct (backup_loop_text (Z.to_nat (flen f)) h a1 C _ Hv1) as (a2 & -> & Hv2 & Hn2 & Hu2).
    { rewrite Fn, upd_eq. unfold len in *. lia. } { rewrite Fn, upd_eq. unfold len in *. lia. }
    exists a2. split; [done|]. split; [|split; congruence].
    eapply in_value_ext; [|exact Hv2]. intros j. rewrite Fn, upd_twice, upd_eq, Hl. unfold len. by rewrite Nat2Z.id.
  - exists a. split; [done|]. split; [|done]. eapply in_value_ext; [|exact Hv]. intros j. unfold upd.
    by destruct (Z.eqb_spec j (nfrag a)) as [->|].
Qed.

(** ** One character of the path *)

(** The path is being read into the first fragment of method [h]. *)
Definition in_path (h : Z) (a : allocated_headers) (C : Z -> list Z) (X : Z -> bytes) : Prop :=
  in_value E h a C X /\ C h = [nfrag a] /\ C WSI_TOKEN_HTTP_URI_ARGS = [].

(** What the sanitation of [c0] behind the path [t] may answer: a character is
    to be stored, or none. *)
Definition path_stepped (h : Z) (C : Z -> list Z) (s : uri_path_states) (t : bytes) (c0 : Z)
    (r : res fault (lws_parse_urldecode_results * Z * allocated_headers)) : Prop :=
  match r with
  | Ok (LPUR_CONTINUE, c, a) =>
    c <> 0 /\ c <> 13 /\
    exists X, in_path h a C X /\ path_ok (ups a) (X (nfrag a) ++ [c]) /\ roots s t c0 (X (nfrag a) ++ [c])
  | Ok (LPUR_SWALLOW, _, a) =>
    exists X, in_path h a C X /\ path_ok (ups a) (X (nfrag a)) /\ roots s t c0 (X (nfrag a))
  | Ok (LPUR_EXCESSIVE, _, _) => False
  | _ => True
  end.

(** A character is issued, or the parser gives up. *)
Lemma path_issue {B} (Q : res fault B -> Prop) h a C X c fail ok :
  in_path h a C X -> L < 2 ^ 16 - 1 -> c <> 0 -> (forall e, Q (Err e)) -> (forall a', Q (fail a')) ->
  (forall a' X', in_path h a' C X' -> X' (nfrag a') = X (nfrag a) ++ [c] -> ups a' = ups a -> ues a' = ues a -> Q (ok 0 a')) ->
  Q ('(r, a) ← issue_char E c a; if r <? 0 then fail a else ok r a).
Proof.
  intros (Hv & HC & HA) HL Hc He Hfail Hok. destruct (Z.lt_ge_cases (pos a) L) as [Hp|Hp].
  - destruct (in_value_issue E h a C X c Hv ltac:(lia) Hc) as (a' & -> & Hv' & _ & Hn' & Hu').
    cbn [mbind res_bind Z.ltb Z.compare]. eapply Hok; [split; [exact Hv'|by rewrite Hn']| |done|].
    + rewrite Hn'. apply upd_eq.
    + destruct Hv as (_ & _ & _ & _ & _ & _ & -> & _). by destruct Hv' as (_ & _ & _ & _ & _ & _ & -> & _).
  - unfold issue_char, lws_pos_in_bounds. destruct (Z.ltb_spec (pos a) L); [lia|].
    destruct (pos a =? L); cbn [mbind res_bind nz negb Z.eqb Z.ltb Z.compare]; auto.
Qed.

Lemma in_path_args h a C X c enc :
  in_path h a C X -> (enc = false -> c <> 63) -> urldecode_args E c enc a = Ok (LPUR_CONTINUE, c, a).
Proof.
  intros ((_ & _ & _ & Hv & _) & _ & HA) Hc. unfold urldecode_args. rewrite (no_args_index _ _ _ _ Hv HA).
  cbn [mbind res_bind]. destruct enc; [by rewrite andb_false_r|]. by rewrite (proj2 (Z.eqb_neq c 63) (Hc eq_refl)).
Qed.

Lemma path_char h a C X c enc :
  in_path h a C X -> L < 2 ^ 16 - 1 -> path_ok (ups a) (X (nfrag a)) -> c <> 0 -> c <> 13 ->
  (enc = false -> c <> 38 /\ c <> 59 /\ c <> 63) ->
  path_stepped h C (ups a) (X (nfrag a)) c (urldecode_path E c enc a).
Proof.
  intros Hin HL (Hup & Hd & Hdd & Hs) H0 H13 Henc. unfold urldecode_path.
  assert (H63 : enc = false -> c <> 63) by (intros; by apply Henc).
  destruct (ups a) eqn:Eu.
  - unfold urldecode_idle. rewrite (proj2 (Z.eqb_neq c 0) H0).
    assert (((c =? 38) || (c =? 59)) && negb enc = false) as ->.
    { destruct enc; [apply andb_false_r|]. destruct (Henc eq_refl) as (? & ? & _).
      by rewrite (proj2 (Z.eqb_neq c 38)), (proj2 (Z.eqb_neq c 59)). }
    pose proof Hin as ((_ & _ & _ & Hv & _) & _ & HA). rewrite (no_args_index _ _ _ _ Hv HA). cbn [mbind res_bind].
    change (nz 0) with false. rewrite andb_false_r. cbn [andb]. rewrite andb_true_r. specialize (Hs eq_refl).
    set (c' := if (c =? 43) && negb enc then 32 else c).
    set (a1 := if (c =? 61) && negb enc then set_post_literal_equal true a else a).
    assert (Hc' : (c' = c \/ c' = 32 /\ c <> 47) /\ (enc = false -> c' <> 63)).
    { unfold c'. destruct (Z.eqb_spec c 43) as [->|], enc; cbn; auto with lia. }
    assert (Hin1 : in_path h a1 C X /\ ups a1 = URIPS_IDLE /\ nfrag a1 = nfrag a)
      by (unfold a1; destruct ((c =? 61) && negb enc); (split; [exact Hin|split; [exact Eu|reflexivity]])). clearbody a1 c'. destruct Hin1 as (Hin1 & Hu1 & Hn1), Hc' as [Hc' H63'].
    destruct (Z.eqb_spec c' 47) as [->|H47].
    + rewrite (in_path_args h (set_ups URIPS_SEEN_SLASH a1) C X); [|exact Hin1|done]. split; [done|]. split; [done|].
      exists X. split; [exact Hin1|]. cbn [nfrag set_ups ups]. rewrite Hn1. split; [by apply path_ok_slash|].
      intros [?|(-> & _)]; [by apply head_app_Some|done].
    + rewrite (in_path_args h a1 C X); [|exact Hin1|done]. split; [lia|]. split; [lia|].
      exists X. split; [exact Hin1|]. rewrite Hn1. split; [apply path_ok_snoc; auto|].
      intros [?|(_ & -> & _)]; [by apply head_app_Some|]. by destruct Hc' as [?|[_ ?]].
  - unfold urldecode_slash. destruct (Z.eqb_spec c 47) as [->|H47].
    { exists X. split; [exact Hin|]. rewrite Eu. split; [by split_and!|by apply roots_later]. }
    destruct (Z.eqb_spec c 46) as [->|H46]; [exists X; split; [exact Hin|split; [by split_and!|by apply roots_later]]|].
    rewrite (in_path_args h (set_ups URIPS_IDLE a) C X); [|exact Hin|done]. split; [done|]. split; [done|].
    exists X. split; [exact Hin|]. split; [apply path_ok_snoc; auto|]. apply roots_later; [done|apply head_app_Some].
  - unfold urldecode_dot. destruct (Z.eqb_spec c 46) as [->|H46]; [exists X; split; [exact Hin|split; [by split_and!|by apply roots_later]]|].
    destruct (Z.eqb_spec c 47) as [->|H47]; [exists X; split; [exact Hin|split; [by split_and!|by apply roots_later]]|].
    apply (path_issue (path_stepped h C _ _ _) h (set_ups URIPS_IDLE a) C X 46); try done.
    intros a' X' Hin' HX' Hu' _. rewrite (in_path_args h a' C X'); [|exact Hin'|done].
    split; [done|]. split; [done|]. exists X'. split; [exact Hin'|]. rewrite HX'. split.
    { apply path_ok_snoc; auto. apply no_up_snoc; auto. }
    apply roots_later; [done|]. intros. by do 2 apply head_app_Some.
  - unfold urldecode_dot_dot. destruct ((c =? 47) || (c =? 63)) eqn:Ec.
    + pose proof Hin as (Hv & HC & HA). destruct (backup_text h a C X Hv) as (a1 & -> & Hv1 & Hn1 & Hu1).
      cbn [mbind res_bind].
      set (X1 := upd X (nfrag a) (pop_dir (X (nfrag a)))) in *.
      assert (HX1 : X1 (nfrag a1) = pop_dir (X (nfrag a))) by (rewrite Hn1; apply upd_eq). clearbody X1.
      destruct (in_value_frag h a1 C X1 Hv1) as (f & Hg & _ & _ & Hl & _).
      change (frag_get (nfrag (set_ups URIPS_SEEN_SLASH a1)) (set_ups URIPS_SEEN_SLASH a1)) with (frag_get (nfrag a1) a1).
      rewrite Hg. cbn [mbind res_bind]. rewrite Hl, HX1.
      assert (Hin1 : in_path h (set_ups URIPS_SEEN_SLASH a1) C X1) by (split; [exact Hv1|]; cbn; by rewrite Hn1).
      assert (Hpop : no_up (pop_dir (X (nfrag a))) /\ no_end [47; 46; 46] (pop_dir (X (nfrag a)))).
      { destruct (pop_dir_spec (X (nfrag a))) as [Hsh|[[y Hy]|[_ ->]]]; [|rewrite Hy in Hup|done].
        - destruct (path_ok_short URIPS_SEEN_SLASH _ Hsh) as (? & _ & ? & _); done.
        - split; [by eapply no_up_prefix|by eapply cut_no_end]. }
      destruct (Z.gtb_spec (len (pop_dir (X (nfrag a)))) 1).
      * rewrite (in_path_args h (set_ups URIPS_SEEN_SLASH a1) C X1); [|exact Hin1|done].
        split; [done|]. split; [done|]. exists X1. split; [exact Hin1|]. cbn [nfrag set_ups]. rewrite HX1.
        split; [|apply roots_later; [done|intros; by apply head_app_Some, pop_dir_head]].
        destruct Hpop. apply orb_true_iff in Ec as [->%Z.eqb_eq|Ec%Z.eqb_eq]; [by apply path_ok_slash|].
        apply path_ok_snoc; [done|lia|lia].
      * exists X1. split; [exact Hin1|]. cbn [nfrag set_ups ups]. rewrite HX1.
        split; [apply path_ok_short; [unfold len in *; lia|done]|]. apply roots_later; [done|apply pop_dir_head].
    + apply orb_false_iff in Ec as [H47%Z.eqb_neq _].
      apply (path_issue (path_stepped h C _ _ _) h a C X 46); try done.
      intros a1 X1 Hin1 HX1 _ _. apply (path_issue (path_stepped h C _ _ _) h a1 C X1 46); try done.
      intros a2 X2 Hin2 HX2 _ _. rewrite (in_path_args h (set_ups URIPS_IDLE a2) C X2); [|exact Hin2|done].
      split; [done|]. split; [done|]. exists X2. split; [exact Hin2|]. cbn [nfrag set_ups ups]. rewrite HX2, HX1.
      split; [|apply roots_later; [done|intros; by do 3 apply head_app_Some]].
      apply path_ok_snoc; [apply no_up_snoc; [apply no_up_snoc; auto|auto]|done|].
      right. split; [apply (no_end_snoc [] 47); by left|].
      apply (no_end_snoc [47] 46). right. apply (no_end_snoc [] 47). by left.
Qed.

(** ** Whole paths *)

(** Characters that stay inside a path, with no escape of a NUL or a carriage
    return. *)
Definition path_chars (s : bytes) : Prop :=
  Forall (fun c => c ∉ [0; 13; 32; 38; 59; 63]) s /\
  forall x y e, e ∈ [[37; 48; 48]; [37; 48; 100]; [37; 48; 68]] -> s <> x ++ e ++ y.

Lemma path_chars_tail c s : path_chars (c :: s) -> path_chars s.
Proof.
  intros [H1 H2]. apply Forall_cons in H1 as [_ H1]. split; [done|].
  intros x y e He ->. by apply (H2 (c :: x) y e).
Qed.

(** [s] is still to come, after the part of an escape already seen. *)
Definition esc_ok (a : allocated_headers) (s : bytes) : Prop :=
  match ues a with
  | URIES_IDLE => path_chars s
  | URIES_SEEN_PERCENT => path_chars (37 :: s)
  | URIES_SEEN_PERCENT_H1 => 0 <= char_to_hex (esc_stash a) /\ path_chars (37 :: esc_stash a :: s)
  end.

(** The path read so far starts with a slash, or the one that does so is
    still to come. *)
Definition starts (a : allocated_headers) (t s : bytes) : Prop :=
  head t = Some 47 \/ (t = [] /\ ues a = URIES_IDLE /\ ups a = URIPS_IDLE /\ head s = Some 47).

(** The URI is being read and [s] is left of it; [r] tells whether it starts
    with a slash. *)
Definition in_uri (h : Z) (r : bool) (a : allocated_headers) (C : Z -> list Z) (s : bytes) : Prop :=
  exists X, in_path h (set_ues URIES_IDLE a) C X /\ path_ok (ups a) (X (nfrag a)) /\ esc_ok a s /\
    (r = true -> starts a (X (nfrag a)) s).

Lemma char_to_hex_value c : 0 <= char_to_hex c -> 0 <= char_to_hex c < 16 /\
  (char_to_hex c = 0 -> c = 48) /\ (char_to_hex c = 13 -> c = 100 \/ c = 68).
Proof. unfold char_to_hex. repeat case_goal; zbool; lia. Qed.

(** A decoded escape is neither a NUL nor a carriage return. *)
Lemma escape_value x c s :
  path_chars (37 :: x :: c :: s) -> 0 <= char_to_hex x -> 0 <= char_to_hex c ->
  let v := Z.lor (Z.shiftl (char_to_hex x) 4) (char_to_hex c) in v <> 0 /\ v <> 13.
Proof.
  intros [_ H] Hx Hc v. destruct (char_to_hex_value x Hx) as (Hxr & Hx0 & _).
  destruct (char_to_hex_value c Hc) as (Hcr & Hc0 & Hc13).
  assert (Hv : v = char_to_hex x * 16 + char_to_hex c).
  { unfold v. rewrite Z.shiftl_mul_pow2 by lia. apply (lor_add _ _ 4); lia. }
  assert (forall e, e ∈ [48; 100; 68] -> x = 48 -> c <> e).
  { intros e He -> ->. apply (H [] s [37; 48; e]); [set_solver|done]. }
  split; intros Hz; rewrite Hv in Hz.
  - apply (H0 48); [set_solver|apply Hx0; lia|apply Hc0; lia].
  - destruct Hc13 as [Hd|Hd]; [lia|apply (H0 100)|apply (H0 68)]; try set_solver; try done; apply Hx0; lia.
Qed.

Lemma ues_idle_id a : ues a = URIES_IDLE -> set_ues URIES_IDLE a = a.
Proof. intros H. destruct a; cbn in *. by rewrite H. Qed.

Lemma in_path_ues h a C X : in_path h a C X -> ues a = URIES_IDLE.
Proof. by intros ((_ & _ & _ & _ & _ & _ & H & _) & _). Qed.

(** After the sanitation of a character. *)
Lemma path_done h C s rt st t c0 r a' :
  L < 2 ^ 16 - 1 -> path_stepped h C st t c0 r -> path_chars s ->
  (rt = true -> head t = Some 47 \/ (t = [] /\ c0 = 47 /\ st = URIPS_IDLE)) ->
  ('(r, c, a) ← r;
   match r with
   | LPUR_CONTINUE => at_check_eol E c a
   | LPUR_SWALLOW => at_swallow a
   | LPUR_FORBID => Ok (Forbid, a)
   | LPUR_EXCESSIVE => at_excessive E a
   | LPUR_FAIL => Ok (Ret LPR_FAIL, a)
   end) = Ok (Break, a') ->
  in_uri h rt a' C s.
Proof.
  intros HL Hst Hs Hrt Heq. destruct r as [[[r c] a]|]; [|done]. cbn [mbind res_bind] in Heq. destruct r; try done.
  - destruct Hst as (H0 & H13 & X & Hin & Hok & Hro). pose proof (in_path_ues _ _ _ _ Hin) as Hues.
    revert Heq. unfold at_check_eol. rewrite (proj2 (Z.eqb_neq c 13) H13), andb_false_r. cbn [andb].
    apply (path_issue (fun r => r = Ok (Break, a') -> in_uri h rt a' C s) h a C X c); try done.
    intros a1 X1 Hin1 HX1 Hu1 He1. change (0 >? 0) with false. cbn match. unfold at_swallow.
    pose proof Hin1 as ((-> & [_ Hne] & _) & _). rewrite (proj2 (Z.eqb_neq h _) Hne). intros [= <-].
    exists X1. rewrite ues_idle_id by congruence. split; [done|]. rewrite HX1, Hu1. split; [done|].
    split; [unfold esc_ok; by rewrite He1, Hues|]. intros Hr. left. by apply Hro, Hrt.
  - destruct Hst as (X & Hin & Hok & Hro). pose proof (in_path_ues _ _ _ _ Hin) as Hues.
    unfold at_swallow in Heq. pose proof Hin as ((Hps & [_ Hne] & _) & _).
    rewrite Hps, (proj2 (Z.eqb_neq h _) Hne) in Heq. injection Heq as <-.
    exists X. rewrite ues_idle_id by done. split; [done|]. split; [done|].
    split; [unfold esc_ok; by rewrite Hues|]. intros Hr. left. by apply Hro, Hrt.
Qed.

Lemma uri_char h rt a C c s a' :
  L < 2 ^ 16 - 1 -> h ∈ methods -> in_uri h rt a C (c :: s) -> parse_char E c a = Ok (Break, a') -> in_uri h rt a' C s.
Proof.
  intros HL Hm (X & Hin & Hok & Hesc & Hrt). pose proof Hin as (Hv & HC & _). pose proof Hv as (Hs & Hvs & _).
  rewrite parse_char_value by by rewrite <- Hs in Hvs. unfold value_char.
  destruct (in_value_first E _ _ _ _ _ _ Hv HC) as (f & Hi & Hf & _). rewrite <- Hs in Hi. cbn in Hs.
  change (index_get (parser_state a) a = Ok (nfrag a)) in Hi. change (frag_get (nfrag a) a = Ok f) in Hf.
  rewrite Hi. cbn [mbind res_bind]. rewrite Hf. cbn [mbind res_bind].
  assert (Hc : c ∉ [0; 13; 32; 38; 59; 63]).
  { unfold esc_ok in Hesc. destruct (ues a); [|apply path_chars_tail in Hesc|destruct Hesc as [_ Hesc]; do 2 apply path_chars_tail in Hesc];
      destruct Hesc as [Hesc _]; by apply Forall_cons in Hesc as []. }
  rewrite !not_elem_of_cons in Hc. destruct Hc as (H0 & H13 & H32 & H38 & H59 & H63 & _).
  rewrite (proj2 (Z.eqb_neq c 32) H32), andb_false_r, bool_decide_eq_true_2 by by rewrite Hs.
  cbn [negb]. unfold lws_parse_urldecode, esc_ok in *. destruct (ues a) eqn:Eu.
  - rewrite (ues_idle_id a Eu) in Hin. destruct (Z.eqb_spec c 37) as [->|H37].
    + cbn [ret_urldecode mbind res_bind]. unfold at_swallow. cbn [parser_state set_ues]. rewrite Hs.
      rewrite (proj2 (Z.eqb_neq h _) (proj2 Hvs)). intros [= <-]. exists X.
      split; [|split; [exact Hok|split; [exact Hesc|]]].
      * rewrite <- (ues_idle_id a Eu) in Hin. exact Hin.
      * intros Hr. destruct (Hrt Hr) as [?|(_ & _ & _ & ?)]; [by left|done].
    + intros Heq. eapply path_done; [done|by eapply path_char|by eapply path_chars_tail| |exact Heq].
      intros Hr. destruct (Hrt Hr) as [?|(? & _ & ? & [= ->])]; auto.
  - destruct (Z.ltb_spec (char_to_hex c) 0); [done|]. cbn [ret_urldecode mbind res_bind]. unfold at_swallow.
    cbn [parser_state set_ues set_esc_stash]. rewrite Hs, (proj2 (Z.eqb_neq h _) (proj2 Hvs)). intros [= <-].
    exists X. split; [exact Hin|]. split; [exact Hok|]. split; [unfold esc_ok; cbn; by split|].
    intros Hr. destruct (Hrt Hr) as [?|(_ & He & _)]; [by left|congruence].
  - destruct (Z.ltb_spec (char_to_hex c) 0); [done|]. destruct Hesc as [Hst Hesc].
    destruct (escape_value _ _ _ Hesc Hst ltac:(lia)) as [Hv0 Hv13]. intros Heq.
    eapply path_done; [done| |do 3 apply path_chars_tail in Hesc; exact Hesc| |exact Heq].
    + eapply path_char; [exact Hin|done|exact Hok|done|done|done].
    + intros Hr. destruct (Hrt Hr) as [?|(_ & He & _)]; [by left|congruence].
Qed.

Lemma uri_feed h rt C s : forall a a',
  L < 2 ^ 16 - 1 -> h ∈ methods -> in_uri h rt a C s -> feed E s a = Some a' -> in_uri h rt a' C [].
Proof.
  induction s as [|c s IH]; intros a a' HL Hm Hin; cbn [feed]; [by intros [= <-]|].
  destruct (parse_char E c a) as [[[] a1]|] eqn:Ec; try done. intros Hf. apply (IH a1); [done|done| |done].
  by eapply uri_char.
Qed.

Lemma header_texts_one b a C X h i :
  view b a C X -> 0 <= h < WSI_TOKEN_COUNT -> C h = [i] -> header_texts h a = [X i].
Proof.
  intros Hv Hh HC. unfold header_texts. destruct (rd_chain _ _ _ _ _ _ _ Hv h Hh) as (n & Hn & Hch).
  unfold index_get. rewrite (at_pos_index _ _ _ Hn). rewrite HC in Hch. destruct Hch as (-> & Hi & f & Hf & Hz).
  rewrite (proj2 (Z.eqb_neq i 0) Hi). change chain_fuel with (S (chain_fuel - 1)). cbn [chain_texts].
  unfold frag_get. rewrite (at_pos_index _ _ _ Hf). cbn in Hz. rewrite Hz. cbn [nz negb Z.eqb].
  destruct (rd_text _ _ _ _ _ _ _ Hv i f) as [<- _]; [|done|done].
  apply (rd_range _ _ _ _ _ _ _ Hv h). rewrite HC. by left.
Qed.

(** The space after the URI. *)
Lemma uri_space h a C X a' :
  0 <= L < 2 ^ 16 - 1 -> h ∈ methods -> h <> WSI_TOKEN_HTTP -> in_path h a C X -> path_ok (ups a) (X (nfrag a)) ->
  C WSI_TOKEN_HTTP = [] -> parse_char E 32 a = Ok (Break, a') ->
  exists t, header_texts h a' = [t] /\ no_up t /\ no_end [47; 46; 46] t /\
    (head (X (nfrag a)) = Some 47 -> head t = Some 47).
Proof.
  intros HL Hm Hh15 Hin Hok HC15. pose proof Hin as (Hv & HC & _). pose proof Hv as (Hs & Hvs & _ & Hvw & _).
  assert (Hh : 0 <= h < WSI_TOKEN_COUNT) by (destruct Hvs; unfold WSI_TOKEN_TABLE, WSI_TOKEN_COUNT in *; lia).
  rewrite parse_char_value by by rewrite Hs. unfold value_char. rewrite Hs.
  destruct (in_value_first E _ _ _ _ _ _ Hv HC) as (f & -> & Hf & Hl). cbn [mbind res_bind]. rewrite Hf.
  cbn [mbind res_bind Z.eqb Pos.eqb]. rewrite andb_true_r. destruct (Z.eqb_spec (flen f) 0) as [|Hne].
  { intros [= <-]. exists (X (nfrag a)). split; [by eapply header_texts_one|]. destruct Hok as (? & _ & ? & _). done. }
  rewrite bool_decide_eq_true_2 by done. cbn [negb]. unfold end_of_uri. rewrite Hf. cbn [mbind res_bind].
  rewrite (proj2 (Z.eqb_neq (flen f) 0) Hne). cbn [mbind res_bind Z.ltb Z.compare].
  assert (exists a1 X1, (if bool_decide (ups a = URIPS_SEEN_SLASH_DOT_DOT) then backup a else Ok a) = Ok a1 /\
    in_value E h a1 C X1 /\ C h = [nfrag a1] /\ no_up (X1 (nfrag a1)) /\ no_end [47; 46; 46] (X1 (nfrag a1)) /\
    (head (X (nfrag a)) = Some 47 -> head (X1 (nfrag a1)) = Some 47))
    as (a1 & X1 & -> & Hv1 & HC1 & Hup1 & Hend1 & Hhd1).
  { destruct Hok as (Hup & Hd & Hdd & _). destruct (bool_decide _); [|by exists a, X].
    destruct (backup_text h a C X Hv) as (a1 & -> & Hv1 & Hn1 & _). eexists a1, _. split; [done|]. split; [exact Hv1|].
    rewrite Hn1, upd_eq. split; [done|]. pose proof (pop_dir_head (X (nfrag a)) 47).
    destruct (pop_dir_spec (X (nfrag a))) as [Hsh|[[y Hy]|[_ ->]]]; [|rewrite Hy in Hup|done].
    - destruct (path_ok_short URIPS_SEEN_SLASH _ Hsh) as (? & _ & ? & _); done.
    - split; [by eapply no_up_prefix|]. split; [by eapply cut_no_end|done]. }
  cbn [mbind res_bind]. pose proof Hv1 as (Hs1 & _ & Ho1 & Hvw1 & Hsync1 & Hlim1 & Hu1 & _).
  destruct (Z.lt_ge_cases (pos a1) L) as [Hp|Hp].
  2: { unfold issue_char, lws_pos_in_bounds. destruct (Z.ltb_spec (pos a1) L); [lia|].
       destruct (pos a1 =? L); cbn [mbind res_bind nz negb Z.eqb Z.ltb Z.compare]; done. }
  destruct (closing_issue E a1 C X1 (parser_state a1) Ho1 Hvw1 Hsync1 Hlim1 ltac:(lia))
    as (a2 & Hi & Hc2 & Hv2 & Hp2 & Hn2 & _ & Hu2 & Hl2 & _).
  replace (set_parser_state (parser_state a1) a1) with a1 in Hi by by destruct a1. rewrite Hi.
  cbn [mbind res_bind Z.ltb Z.compare]. set (a3 := set_parser_state WSI_TOKEN_HTTP a2).
  assert (Hn3 : 0 <= nfrag a2 < WSI_TOKEN_COUNT) by (destruct Hc2; done).
  destruct (Z.eq_dec (nfrag a2 + 1) WSI_TOKEN_COUNT) as [Ee|Ee].
  { unfold at_start_fragment, at_excessive. rewrite (u8_nfrag E (nfrag a3)) by exact Hn3.
    change (nfrag (set_nfrag (nfrag a3 + 1) a3)) with (nfrag a2 + 1). by rewrite (proj2 (Z.eqb_eq _ _) Ee). }
  destruct (start_first E (pos a2) a3 C X1 WSI_TOKEN_HTTP) as (a4 & -> & Hv4 & Hn4 & _); try done.
  { lia. } { change (ues a2 = URIES_IDLE). congruence. } { change (nfrag a2 + 1 < WSI_TOKEN_COUNT). lia. }
  intros [= <-]. exists (X1 (nfrag a1)). split; [|done].
  destruct Hv4 as (_ & _ & _ & Hvw4 & _). change (nfrag a3) with (nfrag a2) in Hvw4. rewrite Hn2 in Hvw4.
  rewrite (header_texts_one _ _ _ _ h (nfrag a1) Hvw4 Hh); [by rewrite upd_ne by lia|].
  by rewrite upd_ne.
Qed.

(** ** The parser's calls *)

(** A call that ends without an error or a completed table fed all its
    characters. *)
Lemma lws_parse_fed s w rest w' :
  env_ok E -> wsi_inv E w -> lws_parse E s w = Ok (LPR_OK, rest, w') -> hdr_parsing_completed w' = false ->
  rest = [] /\ feed E s (ah w) = Some (ah w') /\ hdr_parsing_completed w = false.
Proof.
  intros He. revert w. induction s as [|c s IH]; intros w Hw; [done|]. cbn [lws_parse feed].
  pose proof (parse_char_safe E c (ah w) He Hw) as Hsafe.
  destruct (parse_char E c (ah w)) as [[[|r| |] a]|]; cbn [mbind res_bind]; try done.
  - destruct s as [|c' s]; [intros [= <- <-] Hc; done|]. intros Hp Hc.
    by apply (IH (set_ah a w)).
  - intros [= -> _ _]. by destruct Hsafe.
  - unfold at_set_parsing_complete. destruct (negb _); [done|].
    destruct (lws_hdr_total_length WSI_TOKEN_UPGRADE (ah (set_ah a w))) as [u|]; cbn [mbind res_bind]; [|done].
    destruct (if nz u then _ else _) as [v|]; cbn [mbind res_bind]; [|done].
    destruct (if nz v then _ else _) as [z|]; cbn [mbind res_bind]; [|done]. by intros [= _ <-].
Qed.

End Uri.

(** C22: the stored path never climbs out of its root.  For whatever a client
    sends between GET and the space that ends the URI (characters of a path,
    with escapes, but no escaped NUL or carriage return), if the parser accepts
    it then of the slash-separated segments of the path it has stored only the
    first can be a dot-dot, and it is not one either when what was sent starts
    with a slash, however the dots and slashes were escaped, doubled or
    interleaved.  A URI without its slash may keep a first segment of dots, and
    one without the space and the version its last ones: the parser lets both
    through. *)
Theorem uri_sanitised (E : parse_env) (w w1 w2 : wsi) (s : bytes)
    (HE : env_ok E) (HL : 32 <= max_http_header_data E) (Htl : token_limits E = None) (Hw : empty_table E (ah w))
    (Hs : path_chars s)
    (H1 : lws_parse E (str "GET " ++ s) w = Ok (LPR_OK, [], w1)) (Hesc : ues (ah w1) = URIES_IDLE)
    (H2 : lws_parse E [32] w1 = Ok (LPR_OK, [], w2)) (Hc : hdr_parsing_completed w2 = false) :
  exists t, header_texts WSI_TOKEN_GET_URI (ah w2) = [t] /\
    dot_dot ∉ tail (segments t) /\ (head s = Some 47 -> head t = Some 47 /\ dot_dot ∉ segments t) /\
    (forall x y, t <> x ++ str "/../" ++ y) /\ (forall x, t <> x ++ str "/..").
Proof.
  destruct Hw as (Hst & Hp & Hnf). pose proof HE as [HL2 _].
  assert (Hi : wsi_inv E w) by by apply (line_start_inv E _ _ _ Hst).
  destruct (known_start E (ah w) _ _ (str "GET ") WSI_TOKEN_GET_URI Htl Hst) as (a1 & Hf1 & Hv1 & Hn1 & _ & Hup1);
    [vm_compute; reflexivity|done|done|done|..].
  { by rewrite Hnf. }
  { unfold used. destruct Hst as (_ & -> & _). rewrite Hp. change (len (str "GET ")) with 4. cbn. lia. }
  destruct (lws_parse_fed E [32] w1 [] w2 HE (lws_parse_keeps E _ _ _ _ HE Hi H1) H2 Hc) as (_ & Hf2 & Hc1).
  destruct (lws_parse_fed E _ w [] w1 HE Hi H1 Hc1) as (_ & Hf & _).
  rewrite feed_app, Hf1 in Hf. cbn [mbind option_bind] in Hf. rewrite Hnf in *.
  apply (uri_feed E WSI_TOKEN_GET_URI (bool_decide (head s = Some 47)) (upd (fun _ => []) WSI_TOKEN_GET_URI [1])) in Hf;
    [|lia|by left|].
  2: { exists (upd (fun _ => []) 1 []). pose proof Hv1 as (_ & _ & _ & _ & _ & _ & Hu1 & _).
       rewrite (ues_idle_id a1 Hu1), Hn1, Hup1. split; [split; [exact Hv1|split; [by rewrite Hn1|done]]|].
       split; [exact (path_ok_nil _)|]. split; [unfold esc_ok; by rewrite Hu1|].
       intros Hh%bool_decide_eq_true. right. by split_and!. }
  destruct Hf as (X & Hin & Hok & _ & Hrt). rewrite (ues_idle_id _ Hesc) in Hin.
  cbn [feed] in Hf2. destruct (parse_char E 32 (ah w1)) as [[[] a2]|] eqn:Ec; try done. injection Hf2 as <-.
  destruct (uri_space E WSI_TOKEN_GET_URI _ _ _ _ ltac:(lia) ltac:(by left) ltac:(done) Hin Hok ltac:(done) Ec)
    as (t & Ht & Hup & Hend & Hhd). exists t. split; [done|]. split; [by apply no_climb|].
  split; [|by split]. intros Hh. assert (Hroot : head t = Some 47).
  { apply Hhd. destruct (Hrt (bool_decide_eq_true_2 _ Hh)) as [?|(_ & _ & _ & ?)]; done. }
  split; [done|]. by apply no_climb_rooted.
Qed.

(** The same on a path that tries. *)

Definition sample_limit : parse_env := mk_parse_env 64 None true false.

Definition sample_path : bytes := str "/a/%2e%2E/..//b/.".

(** The connection after some characters. *)
Definition after (s : bytes) (w : wsi) : wsi :=
  match lws_parse sample_limit s w with Ok (_, _, w') => w' | Err _ => w end.

(** No place of a text starts a NUL or a carriage return escape. *)
Fixpoint no_escape (s : bytes) : bool :=
  match s with
  | [] => true
  | _ :: s' => forallb (fun e => negb (bool_decide (take 3 s = e))) [[37; 48; 48]; [37; 48; 100]; [37; 48; 68]] && no_escape s'
  end.

Lemma no_escape_spec s x y e :
  no_escape s = true -> e ∈ [[37; 48; 48]; [37; 48; 100]; [37; 48; 68]] -> s <> x ++ e ++ y.
Proof.
  intros Hs He ->. revert Hs. induction x as [|c x IH]; [|by cbn [app no_escape]; intros [_ H]%andb_true_iff; apply IH].
  rewrite !elem_of_cons in He. destruct He as [->|[->|[->|He]]]; [..|by apply not_elem_of_nil in He]; done.
Qed.

Lemma uri_sanitised_witness :
  exists t, header_texts WSI_TOKEN_GET_URI (ah (after [32] (after (str "GET " ++ sample_path) (fresh_wsi 64)))) = [t] /\
    dot_dot ∉ tail (segments t) /\
    (head sample_path = Some 47 -> head t = Some 47 /\ dot_dot ∉ segments t) /\
    (forall x y, t <> x ++ str "/../" ++ y) /\ (forall x, t <> x ++ str "/..").
Proof.
  apply (uri_sanitised sample_limit (fresh_wsi 64) (after (str "GET " ++ sample_path) (fresh_wsi 64)) _ sample_path).
  - split; [split; reflexivity|exact I].
  - discriminate.
  - reflexivity.
  - exact (fresh_empty 64 eq_refl).
  - split; [apply (bool_decide_unpack _); vm_compute; reflexivity|]. intros x y e. by apply no_escape_spec.
  - vm_compute. reflexivity.
  - vm_compute. reflexivity.
  - vm_compute. reflexivity.
  - vm_compute. reflexivity.
Defined.

End HttpUri.
