(* ===== verification/HttpFindings.v ===== *)
(** * Where the HTTP/1 header parser does not do what it means to

    Requests on which the parser of [HttpParse] answers differently from what
    its comments or the rest of its code say, each evaluated. *)

From S2P Require Import Prelude CLib HttpLex HttpParse WsState Upgrade HttpServer HttpUri.

Module HttpFindings.
Import HttpParse HttpServer HttpUri.

(** The answer of the parser to some characters and the texts of some headers
    afterwards; [n] bytes are there for the headers. *)
Definition answer (n : Z) (hs : list Z) (s : bytes) (w : wsi) : res fault (Z * list (list bytes)) :=
  '(r, _, w) ← lws_parse (mk_parse_env n None true false) s w;
  Ok (r, (fun h => header_texts h (ah w)) <$> hs).

Definition request (uri : bytes) (lines : list bytes) : bytes :=
  str "GET " ++ uri ++ str " HTTP/1.1" ++ crlf ++ concat ((fun l => l ++ crlf) <$> lines) ++ crlf.

(** The question mark's NUL takes the last byte, the position is then moved
    once more, past the area, and the next character fails the assertion in
    [lws_pos_in_bounds] instead of being refused. *)
Example query_at_the_end_asserts :
  answer 64 [] (str "GET /" ++ replicate 42 97 ++ str "?") (fresh_wsi 64) = Ok (LPR_OK, []) /\
  answer 64 [] (str "GET /" ++ replicate 42 97 ++ str "?x") (fresh_wsi 64) = Err assert_fails.
Proof. split; vm_compute; reflexivity. Qed.

(** The same by the separator of arguments. *)
Example separator_at_the_end_asserts :
  answer 64 [] (str "GET /?" ++ replicate 40 97 ++ str "&x") (fresh_wsi 64) = Err assert_fails.
Proof. vm_compute. reflexivity. Qed.

(** An escaped NUL ends the request, unless it follows a slash: then it is
    stored, and the length recorded for the path leaves its last byte out. *)
Example escaped_nul_after_slash :
  answer 128 [WSI_TOKEN_GET_URI] (str "GET /a%00bc H") (fresh_wsi 128) = Ok (LPR_FAIL, [[str "/a"]]) /\
  answer 128 [WSI_TOKEN_GET_URI] (str "GET /%00abc H") (fresh_wsi 128) = Ok (LPR_OK, [[[47; 0] ++ str "ab"]]).
Proof. split; vm_compute; reflexivity. Qed.

(** An unknown name that a known one starts with: the colon only leaves the
    table of names, so the line after it is still read as part of the name. *)
Example name_prefix_swallows_next_line :
  answer 128 [WSI_TOKEN_HOST] (request [47] [str "Y: 1"; str "Host: h"]) (fresh_wsi 128) = Ok (LPR_OK, [[str "h"]]) /\
  answer 128 [WSI_TOKEN_HOST] (request [47] [str "X: 1"; str "Host: h"]) (fresh_wsi 128) = Ok (LPR_OK, [[]]).
Proof. split; vm_compute; reflexivity. Qed.

(** A table given to the next connection after a request that ended within an
    escape: the reset keeps the escape, and a good request is forbidden. *)
Example reset_keeps_escape :
  let next s := mk_wsi (_lws_header_table_reset (ah (after s (fresh_wsi 64)))) 0 false [] in
  answer 64 [] (str "GET /x HTTP/1.1") (next (str "GET /")) = Ok (LPR_OK, []) /\
  answer 64 [] (str "GET /x HTTP/1.1") (next (str "GET /%")) = Ok (LPR_FORBIDDEN, []).
Proof. split; vm_compute; reflexivity. Qed.

(** Dots that end a path are taken out at a space, not at the end of a line
    without an HTTP version. *)
Example dots_at_end_of_line :
  answer 64 [WSI_TOKEN_GET_URI] (str "GET /a/.. H") (fresh_wsi 64) = Ok (LPR_OK, [[[47]]]) /\
  answer 64 [WSI_TOKEN_GET_URI] (str "GET /a/.." ++ crlf) (fresh_wsi 64) = Ok (LPR_OK, [[str "/a/.."]]).
Proof. split; vm_compute; reflexivity. Qed.

(** An escaped carriage return is taken for the end of the line. *)
Example escaped_cr_ends_line :
  answer 128 [WSI_TOKEN_GET_URI; WSI_TOKEN_HTTP] (request (str "/a/%0db") []) (fresh_wsi 128) =
    Ok (LPR_OK, [[str "/a/"]; []]).
Proof. vm_compute. reflexivity. Qed.

(** A question mark after dots at the root is dropped, and the arguments
    become part of the path. *)
Example query_after_dots :
  answer 128 [WSI_TOKEN_GET_URI; WSI_TOKEN_HTTP_URI_ARGS] (request (str "/b?x") []) (fresh_wsi 128) =
    Ok (LPR_OK, [[str "/b"]; [str "x"]]) /\
  answer 128 [WSI_TOKEN_GET_URI; WSI_TOKEN_HTTP_URI_ARGS] (request (str "/..?x") []) (fresh_wsi 128) =
    Ok (LPR_OK, [[str "/x"]; []]).
Proof. split; vm_compute; reflexivity. Qed.

(** Only an empty path gets a slash in front. *)
Example slash_not_enforced :
  answer 128 [WSI_TOKEN_GET_URI] (request (str "../x") []) (fresh_wsi 128) = Ok (LPR_OK, [[str "../x"]]).
Proof. vm_compute. reflexivity. Qed.

End HttpFindings.
